(* ===== verification/_CoqProject ===== *)
-Q . S2P
Prelude.v
InetAddr.v
InetV4.v
InetV6.v
Checksum.v
Cnum.v
Sys.v
Error.v
Wrap.v
StreamIO.v
StreamProofs.v
Bytes.v
SocketFunc.v
SockAddr.v
Connect.v
ConnectProofs.v
Mcast.v
Nonblock.v
NonblockProofs.v
DList.v
DListProofs.v
Server.v
ServerProofs.v
Hoare.v
Heap.v
Gai.v
GaiProofs.v
GaiNumeric.v
Pool.v
PoolProofs.v
Prefork.v
PreforkProofs.v
Ping.v
PingProofs.v
Rtt.v
RttProofs.v
Clients.v
ClientsProofs.v
Trace.v
TraceProofs.v
Route.v
RouteProofs.v
Ifi.v
IfiProofs.v
Icmpd.v
IcmpdProofs.v
Sigio.v
SigioProofs.v
WebThreads.v
WebThreadsProofs.v
UdpCksum.v
UdpCksumProofs.v
ThreadLine.v
ThreadLineProofs.v
PollServer.v
PollProofs.v
Containers.v
ContainersProofs.v
WebClient.v
WebClientProofs.v
SockProg.v
SockProgProofs.v
SourceRoute.v
SourceRouteProofs.v
OwnServers.v
OwnServersProofs.v
SockOpen.v
SockOpenProofs.v
BsdPing.v
BsdPingProofs.v
FreeGai.v
FreeGaiProofs.v
SockUdp.v
SockUdpProofs.v
