(* ===== verification/Prelude.v ===== *)
(** * A verification library for the network code of this repository

    The repository holds the library and programs of "UNIX Network Programming"
    (unpv13e/) and its owner's own versions of some of them (socket/,
    container/, thread/).  The programs are built from a layer of C functions: address
    conversion (unpv13e/libfree), wrappers that check every call, error
    reporting, stream I/O, socket addresses, connection set-up and multicast
    (unpv13e/lib), the library's own getaddrinfo (unpv13e/libgai), and on top of
    it clients, servers, ping and traceroute.  This development models that
    layer and a number of programs over it, function by function, and proves
    what callers rely on.

    ** Conventions

    An unsigned w-bit integer is a [Z] in [0, 2^w), with the reduction written
    out where the code can wrap; an int is a [Z].  A C array is a list, a
    pointer into it an index, and every access is checked: [None] (or the halt
    [Fault]) is undefined behaviour, so a theorem that an operation returns is
    also a theorem of memory safety.  A C string is the list of its bytes
    without the NUL.  Byte order is the class [Platform].  The configuration is
    unpv13e/sparc64-unknown-freebsd5.1/config.h: 64-bit long, FreeBSD constants.

    Code that talks to the system is a [prog] (Sys.v): a tree of calls, with
    errno and the static variables of the library as state ([globals]).  The
    system is a parameter, the class [Kernel]: what each call returns and how
    it changes the system.  Each group of theorems states what it needs of the
    system as the laws of a further class ([StreamKernel], [DescriptorKernel],
    [OptionKernel], [PipeKernel], [ServerKernel], [HeapKernel], [ResolverKernel],
    [DgKernel], [CliKernel], [PollKernel], [TraceKernel], [RouteKernel],
    [IfKernel], [ReportKernel], [ProbeKernel], [ThreadKernel], [WebKernel],
    [RelayKernel], [HostKernel], [ConnKernel], [SettingKernel], [EchoKernel]);
    each class has an instance, a small executable system, on which the witnesses
    run.  Hoare.v has weakest preconditions for programs whose failing calls end
    the process, and Heap.v the rules for allocated blocks.  Threads and processes
    that run at the same time, and a signal handler that can interrupt its program
    (Pool, Prefork, Sigio, WebThreads), are transition systems, one transition per
    statement, and a theorem about them quantifies over the schedules.  printf
    formatting is modelled for the conversions the code uses; messages are passed
    already formatted.

    Loops that depend on the system take [fuel]; running out is the halt [Spin],
    which no total-correctness theorem allows.  The bounds are: one round for
    each byte still to be transferred and one for each interruption the system
    can still make (readn, writen, readline, str_echo, the servers' writes and
    accepts), one for each aborted connection (Accept), for the linked list as
    many as malloc can succeed, for SIOCGIFCONF one for each 320 bytes of the
    list and two more, one for each routing message, for the nonblocking web
    client one turn for each read that returns data and three for each file, 64
    for the addresses of an IP option, whose length is a byte, 128 for a character
    that is not printing.  Loops the code never leaves (the nonblocking client, the
    servers, ping) are stated for any number of turns.  The retransmissions of
    dg_send_recv and the receive loop of traceroute need one round for each arrival
    before the alarm.

    ** The files

    - Prelude: machine integers, byte order, arrays, C strings, the tactics and
      the hint database [unp].  Bytes: integers and fields in byte arrays.
    - InetAddr (libfree/inet_pton.c, inet_ntop.c, inet_aton.c, inet_pton_ipv4.c,
      inet_ntop_ipv4.c).  InetV4 and InetV6 show that parsing is safe on every
      string, that IPv4 parsing accepts exactly the dotted quads, that printing
      stays in its buffers, and that parsing reads back what printing writes.
    - Checksum (libfree/in_cksum.c, lib/tv_sub.c): in_cksum is the RFC 1071 sum,
      verifies its own packets and does not depend on byte order.
    - Sys: the calls, the monad, execution, traces.
    - Error (lib/error.c) and Wrap (lib/wrapsock.c, wrapunix.c, wrapstdio.c,
      wraplib.c, wrappthread.c): reports fit their buffer and end the process;
      a wrapper returns what its call returned or ends the process.
    - StreamIO (lib/readn.c, writen.c, readline.c, str_echo.c) with StreamProofs:
      total correctness for every pattern of short transfers and interruptions.
    - SocketFunc (socket/socket_func.c): the owner's versions, compared with the
      library's.
    - SockAddr (lib/sock_*.c, family_to_level.c, sockfd_to_family.c): text of
      addresses, comparison, getters and setters.
    - Connect (lib/tcp_*.c, udp_*.c, connect_*.c, signal*.c, daemon_*.c,
      read_fd.c, write_fd.c and others) with ConnectProofs: no descriptor leaks,
      timeouts are cleaned up.
    - Mcast (lib/mcast_*.c): what is set is what is read back.
    - Nonblock (nonblock/strclinonb.c, socket/select_client_unlock.c) with
      NonblockProofs: both byte streams are conserved over any number of turns.
    - DList (container/list.c) with DListProofs: over an explicit heap the list
      refines a sequence of strings.  Containers (func/stack.c,
      func/list.c) with ContainersProofs: the owner's stack and list.
    - Server (tcpcliserv/tcpservselect01.c) with ServerProofs: the invariant of
      the client table over any number of turns, and that no ready client is
      skipped.  PollServer (tcpcliserv/tcpservpoll01.c) with PollProofs: the
      server reads only events that poll has written.
    - Cnum: IEEE floats, and integers in memory in the byte order of the host.
    - Gai (libgai/*.c) with GaiProofs and GaiNumeric: getaddrinfo frees what it
      does not return, makes one structure per socket type, and inverts
      getnameinfo on numeric names.  FreeGai (libfree/getaddrinfo.c,
      getnameinfo.c) with FreeGaiProofs: what the older version frees, and when it
      is undefined.
    - Pool (server/serv08.c, pthread08.c and thread/condition_var.c) with
      PoolProofs: under every schedule the ring hands out the connections once
      and in order, no wake-up is lost and no connection starves; the owner's
      program with a condition variable can wait for ever.
    - Prefork (server/serv05.c, child05.c) with PreforkProofs: the parent never
      hands out more connections than there are free children, and accepts again.
    - Ping (ping/*.c) with PingProofs: a request is well formed, its reply is
      recognised and timed, and every packet is handled inside the buffer.
      BsdPing (ping/bsdping.c) with BsdPingProofs: every reply is counted once,
      and no packet with small options leads outside the arrays.
    - Rtt (lib/rtt.c, rtt/dg_send_recv.c) with RttProofs: the request is sent at
      most four times and only its own answer is accepted; the timeout stays in
      its bounds after a response.
    - Clients (lib/str_cli.c, dg_cli.c, dg_echo.c, server/web_child.c) with
      ClientsProofs: what a client or a request loop exchanges over a stream.
    - Trace (traceroute/*.c) with TraceProofs: replies are attributed to the
      probes they quote, and the loops follow the path they describe.
    - Route (libroute/*.c) with RouteProofs: the names and indexes that the routing
      messages of the kernel list, read back from their bytes.
    - Ifi (lib/get_ifi_info.c, route/get_ifi_info.c) with IfiProofs: one structure
      per interface address, from the bytes of SIOCGIFCONF.
    - Icmpd (icmpd/icmpd*.c, readable_*.c) with IcmpdProofs: an ICMP error is
      reported to the clients whose socket it belongs to.
    - Sigio (sigio/dgecho01.c) with SigioProofs: the datagrams of the handler are
      answered in order, and none waits for ever.
    - WebThreads (threads/web03.c, web02.c, socket/web_thread.c) with
      WebThreadsProofs: the counters of the threads and that all files are read.
    - WebClient (nonblock/web.c and the files beside it) with WebClientProofs: the
      client fetches every file and ends.
    - UdpCksum (udpcksum/*.c) with UdpCksumProofs: the datagram that is sent
      verifies, and the verdict on the answer.
    - ThreadLine (threads/readline.c, server/readline_r.c, socket/thread_readline.c)
      with ThreadLineProofs: threads do not see each other's read-ahead.
    - SockProg (sock/looptcp.c, crlf.c, pattern.c, write.c and others) with
      SockProgProofs: the loop relays both directions; SockUdp (sock/loopudp.c,
      sourceudp.c, sinkudp.c) with SockUdpProofs: so does that of a connected UDP
      client.  SockOpen (sock/sockopts.c, multicast.c, cliopen.c, servopen.c) with
      SockOpenProofs: the options that were asked for are set.
    - SourceRoute (ipopts/sourceroute.c, sock/sourceroute.c and parts of
      ipopts/tcpcli01.c, tcpserv01.c) with SourceRouteProofs: a source route that
      is built and printed is the list of its hosts.
    - OwnServers (socket/select_server.c, poll_server.c, epoll_server.c) with
      OwnServersProofs: the tables and sets of the owner's servers.

    Several theorems state defects: a size check that is off by one
    (inet_ntop4), an accumulator that wraps (inet_aton), a message used as a
    format (err_doit), a count that is one too many (readline), lost bytes (the
    owner's readn and readline, the nonblocking client at end of file), a masked
    errno (multicast), uninitialised and freed memory (the linked list), a
    timeout beyond its maximum (rtt_timeout), stale bytes taken for a time stamp
    (ping), a result that is not set (recv_v6), events that were not written (the
    poll servers), a lost wake-up (condition_var.c), a signed test of an unsigned
    count (writen of sock), a group joined twice (cliopen), a route copied into a
    smaller array and data compared at the wrong place (the BSD ping), an
    indeterminate pointer that is freed (libfree/getaddrinfo.c), an address that
    is not initialised (loop_udp, et of the epoll server).

    ** Not modelled

    The bodies of the C library and of the system, and option parsing with getopt
    (the programs start from the options).  Signals outside the transition systems
    show as calls that fail with EINTR, or as handlers that run at the start of a
    turn.  Of the repository: key sockets, SCTP, STREAMS and XTI, whose calls and
    structures are those of system headers that are not in the repository; the
    capture device (libpcap, libnet); the forking of serv05 and of sock, with
    sock's tellwait; test drivers; and the book's short examples, which call the
    library once or twice and have no state of their own. *)
From stdpp Require Import base list numbers strings sets gmap.
From Stdlib Require Import ZArith Lia.

#[global] Open Scope Z_scope.

(** ** The development's scope, tactics and hint databases *)

Declare Scope c_scope.
Delimit Scope c_scope with c.

Create HintDb unp discriminated.

(** Split hypotheses that are conjunctions, existentials or pair equalities. *)
Ltac crush_hyps :=
  repeat match goal with
  | H : _ /\ _ |- _ => destruct H
  | H : exists _, _ |- _ => destruct H
  | H : Some _ = Some _ |- _ => injection H as H; subst
  | H : (_, _) = (_, _) |- _ => injection H as H; subst
  | H : Some _ = None |- _ => discriminate H
  | H : None = Some _ |- _ => discriminate H
  end.

(** Turn every boolean comparison of [Z] in sight into its proposition. *)
Ltac zbool :=
  repeat match goal with
  | H : context [Z.eqb ?a ?b] |- _ => destruct (Z.eqb_spec a b)
  | H : context [Z.ltb ?a ?b] |- _ => destruct (Z.ltb_spec a b)
  | H : context [Z.leb ?a ?b] |- _ => destruct (Z.leb_spec a b)
  | |- context [Z.eqb ?a ?b] => destruct (Z.eqb_spec a b)
  | |- context [Z.ltb ?a ?b] => destruct (Z.ltb_spec a b)
  | |- context [Z.leb ?a ?b] => destruct (Z.leb_spec a b)
  end; simpl in *; try (exfalso; lia); try done.

(** ** Machine integers

    A w-bit unsigned value is a [Z] reduced modulo [2^w]; [sint] reads a w-bit
    pattern as two's complement. *)

Definition wrap (w z : Z) : Z := z mod 2 ^ w.
Definition u8 (z : Z) : Z := wrap 8 z.
Definition u16 (z : Z) : Z := wrap 16 z.
Definition u32 (z : Z) : Z := wrap 32 z.
Definition u64 (z : Z) : Z := wrap 64 z.
Definition sint (w z : Z) : Z :=
  let u := wrap w z in if u <? 2 ^ (w - 1) then u else u - 2 ^ w.
Definition s32 (z : Z) : Z := sint 32 z.

Definition is_byte (b : Z) : Prop := 0 <= b < 256.
Definition is_u16 (w : Z) : Prop := 0 <= w < 65536.
Definition is_u32 (w : Z) : Prop := 0 <= w < 2 ^ 32.

#[export] Instance is_byte_dec b : Decision (is_byte b).
Proof. unfold is_byte. apply _. Defined.
#[export] Instance is_u16_dec b : Decision (is_u16 b).
Proof. unfold is_u16. apply _. Defined.
#[export] Instance is_u32_dec b : Decision (is_u32 b).
Proof. unfold is_u32. apply _. Defined.

Lemma wrap_small w z : 0 <= z < 2 ^ w -> wrap w z = z.
Proof. apply Z.mod_small. Qed.
Lemma wrap_range w z : 0 <= w -> 0 <= wrap w z < 2 ^ w.
Proof. intros. apply Z.mod_pos_bound. lia. Qed.
Lemma u16_small z : is_u16 z -> u16 z = z.
Proof. intros. apply wrap_small. unfold is_u16 in *. lia. Qed.
Lemma u32_small z : is_u32 z -> u32 z = z.
Proof. intros. apply wrap_small. unfold is_u32 in *. lia. Qed.
Lemma u8_small z : is_byte z -> u8 z = z.
Proof. intros. apply wrap_small. unfold is_byte in *. lia. Qed.
Lemma u16_range z : is_u16 (u16 z).
Proof. apply (wrap_range 16). lia. Qed.
Lemma u8_range z : is_byte (u8 z).
Proof. apply (wrap_range 8). lia. Qed.

#[export] Hint Resolve u16_range u8_range : unp.

(** A shifted value or-ed with a value that fits below it is a sum. *)
Lemma lor_shiftl_add x b n :
  0 <= n -> 0 <= b < 2 ^ n -> Z.lor (Z.shiftl x n) b = x * 2 ^ n + b.
Proof.
  intros Hn Hb. rewrite <- Z.shiftl_mul_pow2 by done. symmetry.
  apply Z.add_nocarry_lor, Z.bits_inj'. intros i Hi. rewrite Z.land_spec, Z.bits_0.
  destruct (Z.ltb_spec i n).
  - by rewrite Z.shiftl_spec_low by lia.
  - rewrite (proj1 (Z.bounded_iff_bits_nonneg n b ltac:(lia) ltac:(lia))) by lia.
    apply andb_false_r.
Qed.

(** Byte order: [htons] and [htonl] are the identity on a big-endian host and
    reverse the bytes on a little-endian one. *)
Class Platform := { big_endian : bool }.
Definition sparc64 : Platform := {| big_endian := true |}.
Definition x86_64 : Platform := {| big_endian := false |}.

Definition swap16 (z : Z) : Z := (z mod 256) * 256 + z / 256 mod 256.
Definition swap32 (z : Z) : Z :=
  swap16 (z mod 65536) * 65536 + swap16 (z / 65536 mod 65536).

Definition htons `{Platform} (z : Z) : Z := if big_endian then u16 z else swap16 z.
Definition ntohs `{Platform} (z : Z) : Z := htons z.
Definition htonl `{Platform} (z : Z) : Z := if big_endian then u32 z else swap32 z.
Definition ntohl `{Platform} (z : Z) : Z := htonl z.

Lemma div_256 x y : is_byte y -> (x * 256 + y) / 256 = x.
Proof. intros []. rewrite Z.div_add_l, Z.div_small by lia. lia. Qed.
Lemma mod_256 x y : is_byte y -> (x * 256 + y) mod 256 = y.
Proof. intros []. rewrite Z.add_comm, Z.mod_add, Z.mod_small by lia. lia. Qed.

Lemma swap16_range z : is_u16 (swap16 z).
Proof.
  unfold swap16, is_u16. pose proof (Z.mod_pos_bound z 256 ltac:(lia)).
  pose proof (Z.mod_pos_bound (z / 256) 256 ltac:(lia)). lia.
Qed.

Lemma swap16_invol z : is_u16 z -> swap16 (swap16 z) = z.
Proof.
  unfold swap16, is_u16. intros Hz.
  pose proof (Z.mod_pos_bound z 256 ltac:(lia)).
  pose proof (Z.mod_pos_bound (z / 256) 256 ltac:(lia)).
  pose proof (Z.div_mod z 256 ltac:(lia)).
  rewrite (Z.add_comm (z mod 256 * 256)), Z.mod_add, Z.div_add by lia.
  rewrite (Z.mod_small (z / 256 mod 256)), (Z.div_small (z / 256 mod 256)) by lia.
  assert (z / 256 mod 256 = z / 256) as E.
  { apply Z.mod_small.
    split; [apply Z.div_pos; lia|apply Z.div_lt_upper_bound; lia]. }
  rewrite Z.add_0_l, E, (Z.mod_small (z mod 256)) by lia. lia.
Qed.

Lemma htons_range `{Platform} z : is_u16 (htons z).
Proof. unfold htons. destruct big_endian; [apply u16_range|apply swap16_range]. Qed.

Lemma ntohs_htons `{Platform} z : is_u16 z -> ntohs (htons z) = z.
Proof.
  intros Hz. unfold ntohs, htons. destruct big_endian.
  - by rewrite !u16_small by auto using u16_range.
  - by apply swap16_invol.
Qed.

Lemma htons_nonzero `{Platform} z : is_u16 z -> htons z = 0 -> z = 0.
Proof.
  intros Hz E. rewrite <- (ntohs_htons z Hz), E.
  unfold ntohs, htons. by destruct big_endian.
Qed.

(** ** Arrays and pointers into them

    A C array is the list of its elements and a pointer into it is an index.
    Reads and writes are bounds checked: [None] is undefined behaviour, so a
    theorem that a function returns [Some _] is a memory-safety theorem. *)

Definition aread {A} (a : list A) (i : Z) : option A :=
  if i <? 0 then None else a !! Z.to_nat i.

Definition awrite {A} (a : list A) (i : Z) (v : A) : option (list A) :=
  if (0 <=? i) && (i <? Z.of_nat (length a)) then Some (<[Z.to_nat i := v]> a)
  else None.

(** memcpy of the bytes [bs] to offset [off] of [a]. *)
Definition memcpy {A} (a : list A) (off : Z) (bs : list A) : option (list A) :=
  if (0 <=? off) && (off + Z.of_nat (length bs) <=? Z.of_nat (length a))
  then Some (take (Z.to_nat off) a ++ bs ++ drop (Z.to_nat off + length bs) a)
  else None.

Lemma aread_app {A} (l : list A) x r i :
  i = Z.of_nat (length l) -> aread (l ++ x :: r) i = Some x.
Proof.
  intros ->. unfold aread. zbool. rewrite Nat2Z.id.
  by rewrite lookup_app_r, Nat.sub_diag by lia.
Qed.

Lemma awrite_app {A} (l : list A) x v r i :
  i = Z.of_nat (length l) -> awrite (l ++ x :: r) i v = Some (l ++ v :: r).
Proof.
  intros ->. unfold awrite. rewrite length_app; simpl. zbool.
  rewrite Nat2Z.id, insert_app_r_alt, Nat.sub_diag by lia. done.
Qed.

Lemma aread_nat {A} (a : list A) i x : a !! i = Some x -> aread a (Z.of_nat i) = Some x.
Proof. intros. unfold aread. zbool. by rewrite Nat2Z.id. Qed.
Lemma awrite_nat {A} (a : list A) i x :
  (i < length a)%nat -> awrite a (Z.of_nat i) x = Some (<[i := x]> a).
Proof. intros. unfold awrite. zbool. by rewrite Nat2Z.id. Qed.

Lemma memcpy_app {A} (l m r bs : list A) i :
  i = Z.of_nat (length l) -> length bs = length m ->
  memcpy (l ++ m ++ r) i bs = Some (l ++ bs ++ r).
Proof.
  intros -> Hm. unfold memcpy. rewrite !length_app. zbool.
  rewrite Nat2Z.id, take_app_length, Hm, drop_app_ge by lia.
  by replace (length l + length m - length l)%nat with (length m) by lia;
    rewrite drop_app_length.
Qed.

Lemma awrite_Some_length {A} (a a' : list A) i v :
  awrite a i v = Some a' -> length a' = length a.
Proof.
  unfold awrite. intros H. case_match; crush_hyps. by rewrite length_insert.
Qed.

Lemma awrite_is_Some {A} (a : list A) i v :
  0 <= i < Z.of_nat (length a) -> exists a', awrite a i v = Some a'.
Proof. intros. unfold awrite. zbool. eauto. Qed.

Lemma memcpy_Some_length {A} (a a' bs : list A) i :
  memcpy a i bs = Some a' -> length a' = length a.
Proof.
  unfold memcpy. intros H. case_match eqn:E; crush_hyps.
  apply andb_prop in E as [E1 E2]. rewrite Z.leb_le in E1, E2.
  rewrite !length_app, length_take, length_drop. lia.
Qed.

Lemma memcpy_nil {A} (a : list A) i :
  0 <= i <= Z.of_nat (length a) -> memcpy a i [] = Some a.
Proof.
  intros. unfold memcpy. cbn [length]. zbool. by rewrite Nat.add_0_r, take_drop.
Qed.

Lemma memcpy_is_Some {A} (a bs : list A) i :
  0 <= i -> i + Z.of_nat (length bs) <= Z.of_nat (length a) ->
  memcpy a i bs = Some (take (Z.to_nat i) a ++ bs ++ drop (Z.to_nat i + length bs) a).
Proof. intros. unfold memcpy. zbool. Qed.

(** Two copies, one after the other, are one copy. *)
Lemma memcpy_memcpy {A} (a a' bs cs : list A) i :
  memcpy a i bs = Some a' ->
  memcpy a' (i + Z.of_nat (length bs)) cs = memcpy a i (bs ++ cs).
Proof.
  intros E. pose proof (memcpy_Some_length _ _ _ _ E) as L. revert E. unfold memcpy.
  rewrite L, length_app. intros E.
  destruct (Z.leb_spec 0 i); [|done]. destruct (Z.leb_spec (i + Z.of_nat (length bs)) (Z.of_nat (length a))); [|done].
  simpl in E. injection E as <-.
  destruct (Z.leb_spec 0 (i + Z.of_nat (length bs))); [|lia]. simpl.
  replace (i + Z.of_nat (length bs) + Z.of_nat (length cs))
    with (i + Z.of_nat (length bs + length cs)) by lia.
  destruct (_ <=? _); [|done]. f_equal.
  replace (Z.to_nat (i + Z.of_nat (length bs))) with (Z.to_nat i + length bs)%nat by lia.
  assert (length (take (Z.to_nat i) a) = Z.to_nat i) as Ht by (rewrite length_take; lia).
  assert (length (take (Z.to_nat i) a ++ bs) = Z.to_nat i + length bs)%nat as Hp
    by (rewrite length_app; lia).
  rewrite (app_assoc (take (Z.to_nat i) a) bs), <- Hp, take_app_length.
  rewrite drop_app_ge, drop_drop, <- !app_assoc by lia. do 4 f_equal. lia.
Qed.

(** Writing an element is copying one element. *)
Lemma awrite_memcpy {A} (a : list A) i v : awrite a i v = memcpy a i [v].
Proof.
  unfold awrite, memcpy. cbn [length]. zbool.
  f_equal. rewrite insert_take_drop by lia. by rewrite Nat.add_1_r.
Qed.

(** Induction two elements at a time. *)
Lemma list_ind2 {A} (P : list A -> Prop) :
  P [] -> (forall a, P [a]) -> (forall a b l, P l -> P (a :: b :: l)) -> forall l, P l.
Proof. intros H0 H1 H2. fix IH 1. intros [|a [|b l]]; [exact H0|exact (H1 a)|]. apply H2, IH. Qed.

(** ** C strings

    A C string is the list of its bytes, without the terminating NUL. *)

Definition str (s : string) : list Z :=
  map (fun a => Z.of_N (Ascii.N_of_ascii a)) (String.list_ascii_of_string s).

(** Offset of the first occurrence of [c], as [strchr(s, c) - s]. *)
Fixpoint strchr (s : list Z) (c : Z) : option Z :=
  match s with
  | [] => None
  | x :: s' => if x =? c then Some 0 else Z.succ <$> strchr s' c
  end.

(** strcmp on NUL-terminated strings: the sign of the first difference. *)
Fixpoint strcmp (s t : list Z) : Z :=
  match s, t with
  | [], [] => 0
  | [], y :: _ => 0 - y
  | x :: _, [] => x
  | x :: s', y :: t' => if x =? y then strcmp s' t' else x - y
  end.

(** A string is what fits in a NUL-terminated buffer: bytes, none of them 0. *)
Definition is_cstr (s : list Z) : Prop := Forall (fun c => 0 < c < 256) s.

#[export] Instance is_cstr_dec s : Decision (is_cstr s).
Proof. unfold is_cstr. apply _. Defined.

Lemma strcmp_eq_0 s t : is_cstr s -> is_cstr t -> strcmp s t = 0 <-> s = t.
Proof.
  intros Hs. revert t.
  induction Hs as [|x s Hx Hs IH]; intros [|y t] Ht; inversion_clear Ht; simpl.
  1-3: split; intros; try done; lia.
  destruct (Z.eqb_spec x y) as [->|Hne].
  - rewrite IH by done. split; [by intros ->|by intros [= ->]].
  - split; [lia|congruence].
Qed.

Lemma strchr_Some_lookup s c i :
  strchr s c = Some i -> 0 <= i /\ s !! Z.to_nat i = Some c.
Proof.
  revert i. induction s as [|x s IH]; intros i; simpl; [done|].
  destruct (Z.eqb_spec x c) as [->|_]; [by intros [= <-]|].
  destruct (strchr s c) as [j|]; [|done]. intros [= <-].
  destruct (IH j eq_refl). split; [lia|].
  by replace (Z.to_nat (Z.succ j)) with (S (Z.to_nat j)) by lia.
Qed.

Lemma strchr_None s c : strchr s c = None <-> c ∉ s.
Proof.
  induction s as [|x s IH]; simpl; [split; [intros _; apply not_elem_of_nil|done]|].
  rewrite not_elem_of_cons, <- IH.
  destruct (Z.eqb_spec x c) as [->|Hne]; [split; [done|tauto]|].
  destruct (strchr s c); simpl; intuition congruence.
Qed.

(** snprintf(buf, size, "%s", s) with size > 0: the first size-1 bytes. *)
Definition truncstr (size : Z) (s : list Z) : list Z := take (Z.to_nat (size - 1)) s.

(** ** Number formatting and parsing

    The digits of [n >= 0] in a base, most significant first, as printf's %u,
    %d and %x print them.  [Z.log2 n + 1] rounds are enough in any base >= 2. *)

Fixpoint digits_aux (fuel : nat) (base n : Z) (acc : list Z) : list Z :=
  match fuel with
  | O => acc
  | S f =>
      if n <? base then n :: acc
      else digits_aux f base (n / base) (n mod base :: acc)
  end.

Definition digits (base n : Z) : list Z :=
  digits_aux (S (Z.to_nat (Z.log2 n))) base n [].

Definition undigits (base : Z) (ds : list Z) : Z :=
  foldl (fun v d => v * base + d) 0 ds.

(** The character of a digit: '0'..'9' then 'a'..'z'. *)
Definition digit_char (d : Z) : Z := if d <? 10 then 48 + d else 87 + d.

Definition fmt_u (n : Z) : list Z := map digit_char (digits 10 n).
Definition fmt_x (n : Z) : list Z := map digit_char (digits 16 n).
Definition fmt_d (n : Z) : list Z := if n <? 0 then 45 :: fmt_u (- n) else fmt_u n.

Definition isdigit (c : Z) : bool := (48 <=? c) && (c <=? 57).
Definition isxdigit (c : Z) : bool :=
  isdigit c || ((97 <=? c) && (c <=? 102)) || ((65 <=? c) && (c <=? 70)).
Definition isspace (c : Z) : bool := (c =? 32) || ((9 <=? c) && (c <=? 13)).

(** atoi: leading white space, an optional sign, decimal digits. *)
Fixpoint atoi_digits (v : Z) (s : list Z) : Z :=
  match s with
  | c :: s' => if isdigit c then atoi_digits (v * 10 + (c - 48)) s' else v
  | [] => v
  end.
Fixpoint atoi (s : list Z) : Z :=
  match s with
  | c :: s' =>
      if isspace c then atoi s'
      else if c =? 45 then - atoi_digits 0 s'
      else if c =? 43 then atoi_digits 0 s'
      else atoi_digits 0 s
  | [] => 0
  end.

Lemma digits_aux_spec base fuel n acc :
  2 <= base -> 0 <= n < base ^ Z.of_nat fuel -> fuel <> O ->
  exists ds, digits_aux fuel base n acc = ds ++ acc /\ undigits base ds = n /\
    Forall (fun d => 0 <= d < base) ds /\ ds <> [].
Proof.
  intros Hb. revert n acc. induction fuel as [|f IH]; intros n acc Hn Hf; [done|].
  simpl. destruct (Z.ltb_spec n base).
  - exists [n]. unfold undigits. cbn [foldl app]. split_and!; [done|lia| |done].
    repeat constructor; lia.
  - assert (0 <= n / base < base ^ Z.of_nat f) as Hq.
    { split; [apply Z.div_pos; lia|]. apply Z.div_lt_upper_bound; [lia|].
      rewrite Nat2Z.inj_succ, Z.pow_succ_r in Hn by lia. lia. }
    destruct f as [|f'].
    { change (Z.of_nat 1) with 1 in Hn. rewrite Z.pow_1_r in Hn. lia. }
    destruct (IH (n / base) (n mod base :: acc) Hq ltac:(lia)) as (ds & E & V & R & _).
    exists (ds ++ [n mod base]). rewrite E, <- app_assoc. split; [done|].
    split_and!.
    + unfold undigits in *. rewrite foldl_app, V. simpl.
      pose proof (Z.div_mod n base ltac:(lia)). lia.
    + apply Forall_app; split; [done|]. repeat constructor;
        apply Z.mod_pos_bound; lia.
    + by destruct ds.
Qed.

Lemma digits_spec base n :
  2 <= base -> 0 <= n ->
  undigits base (digits base n) = n /\
  Forall (fun d => 0 <= d < base) (digits base n) /\ digits base n <> [].
Proof.
  intros Hb Hn. unfold digits.
  destruct (digits_aux_spec base (S (Z.to_nat (Z.log2 n))) n []) as (ds & E & H).
  - done.
  - split; [done|]. rewrite Nat2Z.inj_succ, Z2Nat.id by apply Z.log2_nonneg.
    destruct (decide (n = 0)) as [->|].
    { apply Z.pow_pos_nonneg; [lia|]. pose proof (Z.log2_nonneg 0). lia. }
    eapply Z.lt_le_trans; [apply Z.log2_spec; lia|].
    apply Z.pow_le_mono_l. lia.
  - done.
  - rewrite E, app_nil_r. naive_solver.
Qed.

Lemma digits_aux_length base fuel n acc k :
  2 <= base -> 0 <= n < base ^ Z.of_nat k -> k <> O ->
  (length (digits_aux fuel base n acc) <= k + length acc)%nat.
Proof.
  intros Hb. revert n acc k. induction fuel as [|f IH]; intros n acc k Hn Hk; simpl; [lia|].
  destruct (Z.ltb_spec n base); [simpl; lia|].
  destruct k as [|k]; [done|]. rewrite Nat2Z.inj_succ, Z.pow_succ_r in Hn by lia.
  destruct k as [|k].
  { change (base ^ Z.of_nat 0) with 1 in Hn. lia. }
  etrans; [apply (IH _ _ (S k)); [|lia]|simpl; lia].
  split; [apply Z.div_pos; lia|apply Z.div_lt_upper_bound; lia].
Qed.

Lemma digits_length base n k :
  2 <= base -> 0 <= n < base ^ Z.of_nat k -> k <> O ->
  (length (digits base n) <= k)%nat.
Proof.
  intros. etrans; [by apply digits_aux_length|]. simpl. lia.
Qed.

(** Every prefix of a digit string has a value no larger than the whole. *)
Lemma foldl_digits_mono base v ds :
  1 <= base -> 0 <= v -> Forall (fun d => 0 <= d < base) ds ->
  v <= foldl (fun v d => v * base + d) v ds.
Proof.
  intros Hb Hv Hds. revert v Hv. induction Hds as [|d ds Hd Hds IH]; intros v Hv; simpl; [lia|].
  etrans; [|apply IH]; nia.
Qed.

Lemma digit_char_dec d : 0 <= d < 10 -> digit_char d = 48 + d.
Proof. intros. unfold digit_char. zbool. Qed.

Lemma digit_char_range d : 0 <= d < 16 -> 48 <= digit_char d <= 102.
Proof. intros. unfold digit_char. zbool; lia. Qed.

Lemma fmt_u_length n k :
  0 <= n < 10 ^ Z.of_nat k -> k <> O -> (length (fmt_u n) <= k)%nat.
Proof. intros. unfold fmt_u. rewrite length_map. apply digits_length; lia. Qed.

Lemma fmt_x_length n k :
  0 <= n < 16 ^ Z.of_nat k -> k <> O -> (length (fmt_x n) <= k)%nat.
Proof. intros. unfold fmt_x. rewrite length_map. apply digits_length; lia. Qed.

Lemma fmt_u_isdigit n : 0 <= n -> Forall (fun c => isdigit c = true) (fmt_u n).
Proof.
  intros. unfold fmt_u. rewrite Forall_map.
  destruct (digits_spec 10 n) as (_ & R & _); [lia..|].
  eapply Forall_impl; [exact R|]. intros d Hd. simpl in *. rewrite digit_char_dec by lia.
  unfold isdigit. zbool.
Qed.

Lemma atoi_digits_fold v ds :
  Forall (fun d => 0 <= d < 10) ds ->
  atoi_digits v (map digit_char ds) = foldl (fun v d => v * 10 + d) v ds.
Proof.
  intros H. revert v. induction H as [|d ds Hd H IH]; intros v; simpl; [done|].
  rewrite digit_char_dec by lia. unfold isdigit. zbool. rewrite IH. f_equal. lia.
Qed.

(** atoi reads back what %d printed. *)
Lemma atoi_fmt_d n : atoi (fmt_d n) = n.
Proof.
  assert (forall m, 0 <= m -> atoi_digits 0 (fmt_u m) = m) as Hu.
  { intros m Hm. destruct (digits_spec 10 m) as (V & R & _); [lia..|].
    unfold fmt_u. by rewrite atoi_digits_fold. }
  unfold fmt_d. destruct (Z.ltb_spec n 0); simpl.
  - rewrite Hu by lia. lia.
  - rewrite <- (Hu n) at 2 by lia. pose proof (fmt_u_isdigit n ltac:(lia)) as F.
    destruct (fmt_u n) as [|c s]; [done|]. inversion_clear F as [|?? Hc _].
    unfold isdigit in Hc. cbn [atoi]. unfold isspace.
    apply andb_prop in Hc as [H1 H2]. rewrite Z.leb_le in H1, H2. zbool.
Qed.
