(* ===== verification/InetAddr.v ===== *)
(** * Address conversion: libfree/inet_pton.c, inet_ntop.c, inet_aton.c,
      inet_pton_ipv4.c and inet_ntop_ipv4.c

    The definitions follow the C loops: local arrays are lists of bytes with a
    bounds-checked index for each pointer, an uninitialised byte of inet_pton4
    is [None] (the work areas of the printing functions, which are written
    before they are read, start as zeros), and the outer [option] of every
    result is undefined behaviour ([None]).  The theorems about these
    definitions are in InetV4.v and InetV6.v. *)
From stdpp Require Import base list numbers strings.
From S2P Require Import Prelude.

(** ** Constants of the platform's headers (FreeBSD values) *)
Definition AF_UNSPEC : Z := 0.
Definition AF_UNIX : Z := 1.
Definition AF_LOCAL : Z := AF_UNIX.
Definition AF_INET : Z := 2.
Definition AF_LINK : Z := 18.
Definition AF_INET6 : Z := 28.
Definition ENOSPC : Z := 28.
Definition EAFNOSUPPORT : Z := 47.

Definition IN6ADDRSZ : Z := 16.
Definition INADDRSZ : Z := 4.
Definition INT16SZ : Z := 2.
Definition INET_ADDRSTRLEN : Z := 16.

(** A function that returns a pointer, or NULL with errno set. *)
Inductive cptr (A : Type) := CNull (errno : Z) | CPtr (a : A).
Arguments CNull {A} errno.
Arguments CPtr {A} a.

(** The bytes up to the first NUL of an array, from an offset. *)
Fixpoint until_nul (a : list Z) : list Z :=
  match a with
  | [] => []
  | c :: a' => if c =? 0 then [] else c :: until_nul a'
  end.
Definition cstring_at (a : list Z) (off : Z) : list Z := until_nul (drop (Z.to_nat off) a).
#[global] Arguments cstring_at : simpl never.

(** ** inet_pton.c *)

Definition digits_set : list Z := str "0123456789".
Definition xdigits_l : list Z := str "0123456789abcdef".
Definition xdigits_u : list Z := str "0123456789ABCDEF".

(** The locals of inet_pton4: [tmp] starts uninitialised. *)
Record pton4_st := Pton4 {
  p4_saw_digit : bool; p4_octets : Z; p4_tmp : list (option Z); p4_tp : Z }.

(** The while loop of inet_pton4; [inl rc] is an early return. *)
Fixpoint inet_pton4_loop (src : list Z) (st : pton4_st) : option (Z + pton4_st) :=
  match src with
  | [] => Some (inr st)
  | ch :: src' =>
      let '(Pton4 saw_digit octets tmp tp) := st in
      match strchr digits_set ch with
      | Some k =>
          cur ← mjoin (aread tmp tp);
          let new := u32 (cur * 10 + k) in
          if 255 <? new then Some (inl 0)
          else
            tmp1 ← awrite tmp tp (Some (u8 new));
            if negb saw_digit then
              if 4 <? octets + 1 then Some (inl 0)
              else inet_pton4_loop src' (Pton4 true (octets + 1) tmp1 tp)
            else inet_pton4_loop src' (Pton4 saw_digit octets tmp1 tp)
      | None =>
          if (ch =? 46) && saw_digit then
            if octets =? 4 then Some (inl 0)
            else
              tmp1 ← awrite tmp (tp + 1) (Some 0);
              inet_pton4_loop src' (Pton4 false octets tmp1 (tp + 1))
          else Some (inl 0)
      end
  end.

(** inet_pton4(src, dst) with dst the pointer at offset [off] of the array
    [dst]: the return code and the array afterwards. *)
Definition inet_pton4 (src dst : list Z) (off : Z) : option (Z * list Z) :=
  tmp0 ← awrite (replicate 4 (None : option Z)) 0 (Some 0);
  r ← inet_pton4_loop src (Pton4 false 0 tmp0 0);
  match r with
  | inl rc => Some (rc, dst)
  | inr st =>
      if p4_octets st <? 4 then Some (0, dst)
      else
        bytes ← mapM id (p4_tmp st);
        dst' ← memcpy dst off bytes;
        Some (1, dst')
  end.

(** The locals of inet_pton6. *)
Record pton6_st := Pton6 {
  p6_tp : Z; p6_colonp : option Z; p6_curtok : list Z;
  p6_saw_xdigit : bool; p6_val : Z; p6_tmp : list Z }.

Definition p6_endp : Z := IN6ADDRSZ.

(** *tp++ = (u_char)(val >> 8) & 0xff; *tp++ = (u_char) val & 0xff; *)
Definition put_val (tmp : list Z) (tp val : Z) : option (list Z) :=
  tmp1 ← awrite tmp tp (Z.land (u8 (Z.shiftr val 8)) 255);
  awrite tmp1 (tp + 1) (Z.land (u8 val) 255).

Fixpoint inet_pton6_loop (src : list Z) (st : pton6_st) : option (Z + pton6_st) :=
  match src with
  | [] => Some (inr st)
  | ch :: src' =>
      let '(Pton6 tp colonp curtok saw_xdigit val tmp) := st in
      let pch := match strchr xdigits_l ch with
                 | Some k => Some k
                 | None => strchr xdigits_u ch
                 end in
      match pch with
      | Some k =>
          let val1 := Z.lor (u32 (Z.shiftl val 4)) k in
          if 0xffff <? val1 then Some (inl 0)
          else inet_pton6_loop src' (Pton6 tp colonp curtok true val1 tmp)
      | None =>
          if ch =? 58 then
            if negb saw_xdigit then
              match colonp with
              | Some _ => Some (inl 0)
              | None => inet_pton6_loop src' (Pton6 tp (Some tp) src' saw_xdigit val tmp)
              end
            else if p6_endp <? tp + INT16SZ then Some (inl 0)
            else
              tmp1 ← put_val tmp tp val;
              inet_pton6_loop src' (Pton6 (tp + 2) colonp src' false 0 tmp1)
          else if (ch =? 46) && (tp + INADDRSZ <=? p6_endp) then
            '(rc, tmp1) ← inet_pton4 curtok tmp tp;
            if 0 <? rc
            then Some (inr (Pton6 (tp + INADDRSZ) colonp curtok false val tmp1))
            else Some (inl 0)
          else Some (inl 0)
      end
  end.

(** for (i = 1; i <= n; i++) { endp[-i] = colonp[n-i]; colonp[n-i] = 0; },
    with [k] rounds left. *)
Fixpoint pton6_shift (k : nat) (i n colonp : Z) (tmp : list Z) : option (list Z) :=
  match k with
  | O => Some tmp
  | S k' =>
      v ← aread tmp (colonp + (n - i));
      tmp1 ← awrite tmp (p6_endp - i) v;
      tmp2 ← awrite tmp1 (colonp + (n - i)) 0;
      pton6_shift k' (i + 1) n colonp tmp2
  end.

(** From the end of the loop to the memcpy. *)
Definition pton6_finish (dst : list Z) (off : Z) (st : pton6_st) : option (Z * list Z) :=
  let '(Pton6 tp colonp _ saw_xdigit val tmp) := st in
  r ← (if saw_xdigit then
         if p6_endp <? tp + INT16SZ then Some None
         else tmp1 ← put_val tmp tp val; Some (Some (tp + 2, tmp1))
       else Some (Some (tp, tmp)));
  match r with
  | None => Some (0, dst)
  | Some (tp1, tmp1) =>
      '(tp2, tmp2) ← match colonp with
             | Some cp =>
                 let n := tp1 - cp in
                 tmp2 ← pton6_shift (Z.to_nat n) 1 n cp tmp1;
                 Some (p6_endp, tmp2)
             | None => Some (tp1, tmp1)
             end;
      if negb (tp2 =? p6_endp) then Some (0, dst)
      else dst' ← memcpy dst off tmp2; Some (1, dst')
  end.

Definition inet_pton6 (src dst : list Z) (off : Z) : option (Z * list Z) :=
  let body src :=
    r ← inet_pton6_loop src (Pton6 0 None src false 0 (replicate 16 0));
    match r with
    | inl rc => Some (rc, dst)
    | inr st => pton6_finish dst off st
    end in
  match src with
  | c :: src1 =>
      if c =? 58 then
        match src1 with
        | c' :: _ => if c' =? 58 then body src1 else Some (0, dst)
        | [] => Some (0, dst)
        end
      else body src
  | [] => body src
  end.

(** inet_pton(af, src, dst): the return code, errno if it is set, and the
    destination array. *)
Definition inet_pton (af : Z) (src dst : list Z) (off : Z)
  : option (Z * option Z * list Z) :=
  if af =? AF_INET then '(rc, d) ← inet_pton4 src dst off; Some (rc, None, d)
  else if af =? AF_INET6 then '(rc, d) ← inet_pton6 src dst off; Some (rc, None, d)
  else Some (-1, Some EAFNOSUPPORT, dst).

(** ** inet_ntop.c *)

(** strcpy(dst + off, s): the string and its NUL. *)
Definition strcpy (dst : list Z) (off : Z) (s : list Z) : option (list Z) :=
  memcpy dst off (s ++ [0]).
#[global] Arguments strcpy : simpl never.

(** sprintf(tmp, "%u.%u.%u.%u", ...) *)
Definition fmt_quad (a b c d : Z) : list Z :=
  fmt_u a ++ 46 :: fmt_u b ++ 46 :: fmt_u c ++ 46 :: fmt_u d.

(** inet_ntop4(src + soff, dst + off, size). *)
Definition inet_ntop4 (src : list Z) (soff : Z) (dst : list Z) (off size : Z)
  : option (cptr (list Z)) :=
  a ← aread src soff; b ← aread src (soff + 1);
  c ← aread src (soff + 2); d ← aread src (soff + 3);
  tmp ← strcpy (replicate 16 0) 0 (fmt_quad a b c d);
  if size <? Z.of_nat (length (cstring_at tmp 0)) then Some (CNull ENOSPC)
  else dst' ← strcpy dst off (cstring_at tmp 0); Some (CPtr dst').

(** for (i = 0; i < IN6ADDRSZ; i++) words[i/2] |= src[i] << ((1 - (i%2)) << 3); *)
Fixpoint ntop6_words (k : nat) (i : Z) (src words : list Z) : option (list Z) :=
  match k with
  | O => Some words
  | S k' =>
      b ← aread src i;
      w ← aread words (i / 2);
      words1 ← awrite words (i / 2)
                 (u32 (Z.lor w (Z.shiftl b (Z.shiftl (1 - i mod 2) 3))));
      ntop6_words k' (i + 1) src words1
  end.

(** struct { int base, len; } *)
Record run := Run { r_base : Z; r_len : Z }.

Definition better (cur best : run) : run :=
  if (r_base best =? -1) || (r_len best <? r_len cur) then cur else best.

(** The search for the longest run of zero words, over words i, i+1, ... *)
Fixpoint ntop6_search (i : Z) (words : list Z) (best cur : run) : run * run :=
  match words with
  | [] => (best, cur)
  | w :: words' =>
      if w =? 0 then
        if r_base cur =? -1 then ntop6_search (i + 1) words' best (Run i 1)
        else ntop6_search (i + 1) words' best (Run (r_base cur) (r_len cur + 1))
      else if negb (r_base cur =? -1) then
        ntop6_search (i + 1) words' (better cur best) (Run (-1) (r_len cur))
      else ntop6_search (i + 1) words' best cur
  end.

Definition ntop6_best (words : list Z) : run :=
  let '(best, cur) := ntop6_search 0 words (Run (-1) 0) (Run (-1) 0) in
  let best1 := if negb (r_base cur =? -1) then better cur best else best in
  if negb (r_base best1 =? -1) && (r_len best1 <? 2)
  then Run (-1) (r_len best1) else best1.

(** The formatting loop over words i, i+1, ...; the state is (tmp, tp) and
    [inl errno] is the return of NULL. *)
Fixpoint ntop6_format (i : Z) (ws : list Z) (src words : list Z) (best : run)
    (tmp : list Z) (tp : Z) : option (Z + (list Z * Z)) :=
  match ws with
  | [] => Some (inr (tmp, tp))
  | w :: ws' =>
      if negb (r_base best =? -1) && (r_base best <=? i) &&
         (i <? r_base best + r_len best) then
        if i =? r_base best then
          tmp1 ← awrite tmp tp 58;
          ntop6_format (i + 1) ws' src words best tmp1 (tp + 1)
        else ntop6_format (i + 1) ws' src words best tmp tp
      else
        '(tmp1, tp1) ← (if negb (i =? 0)
                        then t ← awrite tmp tp 58; Some (t, tp + 1)
                        else Some (tmp, tp));
        w5 ← aread words 5;
        if (i =? 6) && (r_base best =? 0) &&
           ((r_len best =? 6) || ((r_len best =? 5) && (w5 =? 0xffff))) then
          r ← inet_ntop4 src 12 tmp1 tp1 (46 - tp1);
          match r with
          | CNull e => Some (inl e)
          | CPtr tmp2 =>
              Some (inr (tmp2, tp1 + Z.of_nat (length (cstring_at tmp2 tp1))))
          end
        else
          tmp2 ← strcpy tmp1 tp1 (fmt_x w);
          ntop6_format (i + 1) ws' src words best tmp2
            (tp1 + Z.of_nat (length (cstring_at tmp2 tp1)))
  end.

Definition inet_ntop6 (src dst : list Z) (off size : Z) : option (cptr (list Z)) :=
  words ← ntop6_words 16 0 src (replicate 8 0);
  let best := ntop6_best words in
  r ← ntop6_format 0 words src words best (replicate 46 0) 0;
  match r with
  | inl e => Some (CNull e)
  | inr (tmp, tp) =>
      '(tmp1, tp1) ← (if negb (r_base best =? -1) && (r_base best + r_len best =? 8)
                      then t ← awrite tmp tp 58; Some (t, tp + 1)
                      else Some (tmp, tp));
      tmp2 ← awrite tmp1 tp1 0;
      if size <? tp1 + 1 then Some (CNull ENOSPC)
      else dst' ← strcpy dst off (cstring_at tmp2 0); Some (CPtr dst')
  end.

Definition inet_ntop (af : Z) (src dst : list Z) (off size : Z)
  : option (cptr (list Z)) :=
  if af =? AF_INET then inet_ntop4 src 0 dst off size
  else if af =? AF_INET6 then inet_ntop6 src dst off size
  else Some (CNull EAFNOSUPPORT).

(** ** inet_aton.c *)


(** The do-while loop: [acc], [addr] are u_long (64 bits), [dots] an int; the
    result is (dots, addr), [None] when the function returns 0.  The NUL that
    ends the string is the last character the switch sees. *)
Fixpoint inet_aton_loop (cp : list Z) (dots acc addr : Z) : option (Z * Z) :=
  match cp with
  | [] =>
      if 255 <? acc then None
      else Some (dots, Z.lor (u64 (Z.shiftl addr 8)) acc)
  | cc :: cp' =>
      if isdigit cc then inet_aton_loop cp' dots (u64 (acc * 10 + (cc - 48))) addr
      else if cc =? 46 then
        if 3 <? dots + 1 then None
        else if 255 <? acc then None
        else inet_aton_loop cp' (dots + 1) 0 (Z.lor (u64 (Z.shiftl addr 8)) acc)
      else None
  end.

(** inet_aton(cp, ap): [None] for the return value 0, [Some s_addr] for 1. *)
Definition inet_aton `{Platform} (cp : list Z) : option Z :=
  '(dots, addr) ← inet_aton_loop cp 0 0 0;
  let addr1 := if dots <? 3 then u64 (Z.shiftl addr (8 * (3 - dots))) else addr in
  Some (htonl (u32 addr1)).

(** The four bytes of a 32-bit integer in memory. *)
Definition be4 (z : Z) : list Z :=
  [z / 16777216 mod 256; z / 65536 mod 256; z / 256 mod 256; z mod 256].
Definition store32 `{Platform} (z : Z) : list Z :=
  if big_endian then be4 z else reverse (be4 z).

(** ** inet_pton_ipv4.c and inet_ntop_ipv4.c: the IPv4-only versions *)

Definition inet_pton_ipv4 `{Platform} (family : Z) (src dst : list Z) (off : Z)
  : option (Z * option Z * list Z) :=
  if family =? AF_INET then
    match inet_aton src with
    | Some in_val => dst' ← memcpy dst off (store32 in_val); Some (1, None, dst')
    | None => Some (0, None, dst)
    end
  else Some (-1, Some EAFNOSUPPORT, dst).

Definition inet_ntop_ipv4 (family : Z) (src dst : list Z) (off len : Z)
  : option (cptr (list Z)) :=
  if family =? AF_INET then
    a ← aread src 0; b ← aread src 1; c ← aread src 2; d ← aread src 3;
    (* snprintf into char temp[INET_ADDRSTRLEN] truncates to 15 bytes *)
    let temp := truncstr INET_ADDRSTRLEN (fmt_quad a b c d) in
    if len <=? Z.of_nat (length temp) then Some (CNull ENOSPC)
    else dst' ← strcpy dst off temp; Some (CPtr dst')
  else Some (CNull EAFNOSUPPORT).
