(* ===== verification/InetV4.v ===== *)
(** * IPv4 address conversion: theorems

    inet_pton4 is equal to a reference grammar of dotted quads (so it is memory
    safe on every string), inet_ntop4 prints a string it reads back, and
    inet_aton reads back the same string.  Two defects of the C code are stated
    as theorems: the size check of inet_ntop4 is off by one, and the octet check
    of inet_aton can be passed by a number that overflows u_long. *)
From stdpp Require Import base list numbers strings.
From S2P Require Import Prelude InetAddr.

Module V4.

(** ** The reference grammar: four octets separated by dots *)

Definition digits_val (v : Z) (s : list Z) : Z :=
  foldl (fun v c => v * 10 + (c - 48)) v s.
#[global] Arguments digits_val : simpl never.

(** A segment continues an octet whose value so far is [cur]; an octet needs a
    digit of its own unless [saw] says it already has one. *)
Definition octet_from (cur : Z) (saw : bool) (seg : list Z) : option Z :=
  if (saw || negb (Nat.eqb (length seg) 0)) && forallb isdigit seg &&
     (digits_val cur seg <=? 255)
  then Some (digits_val cur seg) else None.

Definition octet (seg : list Z) : option Z := octet_from 0 false seg.

(** The text up to the first dot, and the segments after it. *)
Fixpoint split_dots (s : list Z) : list Z * list (list Z) :=
  match s with
  | [] => ([], [])
  | c :: s' =>
      let '(seg, segs) := split_dots s' in
      if c =? 46 then ([], seg :: segs) else (c :: seg, segs)
  end.

Definition quad_ref (s : list Z) : option (list Z) :=
  let '(seg, segs) := split_dots s in
  bs ← mapM octet (seg :: segs);
  if Nat.eqb (length bs) 4 then Some bs else None.

(** ** inet_pton4 refines the grammar *)

(** What the code after the loop makes of its result. *)
Definition pton4_out (r : option (Z + pton4_st)) : option (option (list Z)) :=
  r ← r;
  match r with
  | inl _ => Some None
  | inr st => if p4_octets st <? 4 then Some None
              else bs ← mapM id (p4_tmp st); Some (Some bs)
  end.

(** The array once [done] octets are complete and the next one is [cur]. *)
Definition tmp_of (done : list Z) (cur : Z) : list (option Z) :=
  (Some <$> done) ++ Some cur :: replicate (3 - length done) None.

Definition st_of (done : list Z) (cur : Z) (saw : bool) : pton4_st :=
  Pton4 saw (Z.of_nat (length done) + (if saw then 1 else 0))
    (tmp_of done cur) (Z.of_nat (length done)).

Definition ref_from (done : list Z) (cur : Z) (saw : bool) (s : list Z)
  : option (list Z) :=
  let '(seg, segs) := split_dots s in
  v ← octet_from cur saw seg;
  vs ← mapM octet segs;
  if Nat.eqb (length done + S (length vs)) 4 then Some (done ++ v :: vs) else None.

Lemma isdigit_range c : isdigit c = true -> 48 <= c <= 57.
Proof. unfold isdigit. intros H. apply andb_prop in H as [H1 H2]. rewrite Z.leb_le in H1, H2. lia. Qed.

Lemma strchr_digits ch :
  strchr digits_set ch = if isdigit ch then Some (ch - 48) else None.
Proof.
  destruct (isdigit ch) eqn:E.
  - apply isdigit_range in E.
    assert (ch = 48 \/ ch = 49 \/ ch = 50 \/ ch = 51 \/ ch = 52 \/ ch = 53 \/ ch = 54
      \/ ch = 55 \/ ch = 56 \/ ch = 57) as H by lia.
    repeat (destruct H as [->|H]; [done|]). by subst.
  - apply strchr_None. intros H. unfold digits_set, str in H. simpl in H.
    repeat (apply elem_of_cons in H as [->|H]; [done|]). by apply elem_of_nil in H.
Qed.

Lemma digits_val_cons v c s : digits_val v (c :: s) = digits_val (v * 10 + (c - 48)) s.
Proof. done. Qed.

Lemma digits_val_mono v s :
  0 <= v -> forallb isdigit s = true -> v <= digits_val v s.
Proof.
  revert v. induction s as [|c s IH]; intros v Hv Hs; simpl in *; [unfold digits_val; simpl; lia|].
  apply andb_prop in Hs as [Hc Hs]. unfold isdigit in Hc.
  apply andb_prop in Hc as [H1 H2]. rewrite Z.leb_le in H1, H2.
  rewrite digits_val_cons. etrans; [|apply IH; [lia|done]]. lia.
Qed.

Lemma tmp_of_length done cur : (length done <= 3)%nat -> length (tmp_of done cur) = 4%nat.
Proof. intros. unfold tmp_of. rewrite length_app, length_fmap. simpl. rewrite length_replicate. lia. Qed.

Lemma tmp_of_read done cur : aread (tmp_of done cur) (Z.of_nat (length done)) = Some (Some cur).
Proof. apply aread_app. by rewrite length_fmap. Qed.

Lemma tmp_of_write done cur v :
  awrite (tmp_of done cur) (Z.of_nat (length done)) (Some v) = Some (tmp_of done v).
Proof. apply awrite_app. by rewrite length_fmap. Qed.

Lemma tmp_of_next done cur :
  (length done < 3)%nat ->
  awrite (tmp_of done cur) (Z.of_nat (length done) + 1) (Some 0) = Some (tmp_of (done ++ [cur]) 0).
Proof.
  intros H. unfold tmp_of.
  replace (3 - length done)%nat with (S (3 - S (length done))) by lia. simpl.
  rewrite cons_middle, app_assoc.
  rewrite (awrite_app _ None) by (rewrite length_app, length_fmap; simpl; lia).
  rewrite fmap_app, length_app. simpl. do 4 f_equal. lia.
Qed.

Lemma mapM_Some_id (l : list Z) : mapM id (Some <$> l) = Some l.
Proof. apply mapM_Some_2. induction l; simpl; by constructor. Qed.

Lemma octet_from_bad cur saw c seg :
  isdigit c = false -> octet_from cur saw (c :: seg) = None.
Proof. intros H. unfold octet_from. simpl. rewrite H, andb_false_r. done. Qed.

Lemma octet_from_digit cur saw c seg :
  isdigit c = true -> 0 <= cur ->
  octet_from cur saw (c :: seg) =
  if 255 <? cur * 10 + (c - 48) then None
  else octet_from (cur * 10 + (c - 48)) true seg.
Proof.
  intros Hc Hcur. unfold octet_from. simpl. rewrite Hc, orb_true_r, digits_val_cons. simpl.
  destruct (forallb isdigit seg) eqn:Hs; [|simpl; by destruct (255 <? _)].
  destruct (Z.ltb_spec 255 (cur * 10 + (c - 48))); [|done].
  unfold isdigit in Hc. apply andb_prop in Hc as [H1 H2]. rewrite Z.leb_le in H1, H2.
  pose proof (digits_val_mono (cur * 10 + (c - 48)) seg ltac:(lia) Hs). simpl.
  destruct (Z.leb_spec (digits_val (cur * 10 + (c - 48)) seg) 255); [lia|done].
Qed.

Lemma split_dots_char c s :
  c <> 46 -> split_dots (c :: s) = (c :: (split_dots s).1, (split_dots s).2).
Proof. intros. simpl. destruct (split_dots s). zbool. Qed.

Lemma split_dots_dot s : split_dots (46 :: s) = ([], (split_dots s).1 :: (split_dots s).2).
Proof. simpl. by destruct (split_dots s). Qed.

Lemma inet_pton4_loop_ref src done cur saw :
  0 <= cur <= 255 -> (length done <= 3)%nat ->
  pton4_out (inet_pton4_loop src (st_of done cur saw)) = Some (ref_from done cur saw src).
Proof.
  revert done cur saw. induction src as [|ch src IH]; intros done cur saw Hcur Hdone.
  - unfold ref_from, octet_from, digits_val. simpl.
    destruct saw; simpl; [|zbool].
    destruct (Z.leb_spec cur 255); [|lia]. simpl.
    destruct (Nat.eqb_spec (length done + 1) 4); zbool.
    unfold tmp_of. replace (3 - length done)%nat with O by lia. simpl.
    assert (mapM id ((Some <$> done) ++ [Some cur]) = Some (done ++ [cur])) as ->; [|done].
    change [Some cur] with (Some <$> [cur]). by rewrite <- fmap_app, mapM_Some_id.
  - cbn [inet_pton4_loop st_of]. rewrite strchr_digits.
    destruct (isdigit ch) eqn:Hd.
    + pose proof (isdigit_range _ Hd).
      rewrite tmp_of_read. cbn [mjoin option_join mbind option_bind].
      unfold ref_from. rewrite split_dots_char by lia. simpl.
      rewrite octet_from_digit by (done || lia).
      rewrite u32_small by (unfold is_u32; lia).
      destruct (Z.ltb_spec 255 (cur * 10 + (ch - 48))); [done|].
      rewrite u8_small by (unfold is_byte; lia). rewrite tmp_of_write. simpl.
      specialize (IH done (cur * 10 + (ch - 48)) true ltac:(lia) Hdone).
      unfold ref_from in IH. destruct (split_dots src) as [seg segs]. simpl in *.
      destruct saw; simpl; [exact IH|].
      destruct (Z.ltb_spec 4 (Z.of_nat (length done) + 0 + 1)); [lia|].
      replace (Z.of_nat (length done) + 0 + 1) with (Z.of_nat (length done) + 1) by lia.
      exact IH.
    + destruct (Z.eqb_spec ch 46) as [->|Hne]; simpl.
      2:{ unfold ref_from. rewrite split_dots_char by done. simpl.
          by rewrite octet_from_bad. }
      unfold ref_from. rewrite split_dots_dot. simpl.
      unfold octet_from at 1, digits_val. simpl.
      destruct saw; simpl; [|done].
      destruct (Z.leb_spec cur 255); [|lia]. simpl.
      destruct (Z.eqb_spec (Z.of_nat (length done) + 1) 4).
      { simpl. destruct (octet _); simpl; [|done]. destruct (mapM _ _); simpl; [|done].
        destruct (Nat.eqb_spec (length done + S (S (length l))) 4); [lia|done]. }
      rewrite tmp_of_next by lia. simpl.
      specialize (IH (done ++ [cur]) 0 false ltac:(lia)).
      rewrite length_app in IH; simpl in IH. specialize (IH ltac:(lia)).
      unfold st_of in IH. rewrite length_app in IH; simpl in IH.
      replace (Z.of_nat (length done + 1) + 0) with (Z.of_nat (length done) + 1) in IH by lia.
      replace (Z.of_nat (length done + 1)) with (Z.of_nat (length done) + 1) in IH by lia.
      rewrite IH. unfold ref_from, octet. destruct (split_dots src) as [seg segs]. simpl.
      destruct (octet_from 0 false seg); simpl; [|done].
      destruct (mapM (octet_from 0 false) segs); simpl; [|done].
      rewrite length_app. simpl.
      replace (length done + 1 + S (length l))%nat with (length done + S (S (length l)))%nat by lia.
      by rewrite <- app_assoc.
Qed.

(** Every early return of the loop is return(0). *)
Lemma inet_pton4_loop_rc src st rc : inet_pton4_loop src st = Some (inl rc) -> rc = 0.
Proof.
  revert st. induction src as [|ch src IH]; intros [saw octets tmp tp]; simpl; [done|].
  intros H. repeat (case_match || (apply bind_Some in H as (? & ? & H))); simplify_eq; eauto.
Qed.

Lemma ref_from_quad s : ref_from [] 0 false s = quad_ref s.
Proof.
  unfold ref_from, quad_ref. destruct (split_dots s) as [seg segs]. simpl.
  change (octet_from 0 false seg) with (octet seg).
  destruct (octet seg); simpl; [|done]. by destruct (mapM octet segs).
Qed.

Lemma inet_pton4_eq src dst off :
  inet_pton4 src dst off =
  match quad_ref src with
  | Some bs => dst' ← memcpy dst off bs; Some (1, dst')
  | None => Some (0, dst)
  end.
Proof.
  pose proof (inet_pton4_loop_ref src [] 0 false ltac:(lia) ltac:(simpl; lia)) as H.
  rewrite ref_from_quad in H. unfold inet_pton4. simpl.
  change (Pton4 false 0 [Some 0; None; None; None] 0) with (st_of [] 0 false).
  unfold pton4_out in H.
  destruct (inet_pton4_loop src (st_of [] 0 false)) as [[rc|st]|] eqn:E; simpl in *; [| |done].
  - injection H as <-. f_equal. f_equal. revert E. apply inet_pton4_loop_rc.
  - destruct (p4_octets st <? 4); [by injection H as <-|].
    destruct (mapM id (p4_tmp st)); simpl in *; [|done]. by injection H as <-.
Qed.

(** ** inet_ntop4 *)

Lemma until_nul_app s r : Forall (fun c => c <> 0) s -> until_nul (s ++ 0 :: r) = s.
Proof. induction 1 as [|c s Hc Hs IH]; simpl; [done|]. rewrite IH. zbool. Qed.

Lemma strcpy_ok a off s :
  0 <= off -> off + Z.of_nat (length s) + 1 <= Z.of_nat (length a) ->
  strcpy a off s = Some (take (Z.to_nat off) a ++ s ++ 0 :: drop (Z.to_nat off + S (length s)) a).
Proof.
  intros H1 H2. unfold strcpy, memcpy. rewrite length_app. simpl. zbool.
  f_equal. rewrite <- app_assoc. simpl. by rewrite Nat.add_1_r.
Qed.

Lemma strcpy_overflow a off s :
  Z.of_nat (length a) < off + Z.of_nat (length s) + 1 -> strcpy a off s = None.
Proof. intros H. unfold strcpy, memcpy. rewrite length_app. simpl. zbool. Qed.

Lemma cstring_at_strcpy a off s a' :
  strcpy a off s = Some a' -> Forall (fun c => c <> 0) s -> cstring_at a' off = s.
Proof.
  unfold strcpy, memcpy. rewrite length_app; simpl. intros H Hs.
  case_match eqn:E; crush_hyps.
  apply andb_prop in E as [E1 E2]. rewrite Z.leb_le in E1, E2.
  unfold cstring_at. rewrite drop_app_ge by (rewrite length_take; lia).
  rewrite length_take.
  replace (Z.to_nat off - Z.to_nat off `min` length a)%nat with O by lia.
  rewrite drop_0, <- app_assoc. by apply until_nul_app.
Qed.

Lemma fmt_u_nonzero n : 0 <= n -> Forall (fun c => c <> 0) (fmt_u n).
Proof.
  intros. eapply Forall_impl; [by apply fmt_u_isdigit|].
  intros c Hc. apply isdigit_range in Hc. lia.
Qed.

Definition bytes4 (a b c d : Z) : Prop := is_byte a /\ is_byte b /\ is_byte c /\ is_byte d.

Lemma fmt_u_byte_length a : is_byte a -> (length (fmt_u a) <= 3)%nat.
Proof. intros [H1 H2]. apply fmt_u_length; [|done]. change (10 ^ Z.of_nat 3) with 1000. lia. Qed.

Lemma fmt_quad_length a b c d :
  bytes4 a b c d -> Z.of_nat (length (fmt_quad a b c d)) <= 15.
Proof.
  intros (Ha & Hb & Hc & Hd). unfold fmt_quad. rewrite !length_app; simpl.
  rewrite !length_app; simpl. rewrite !length_app; simpl.
  apply fmt_u_byte_length in Ha, Hb, Hc, Hd. lia.
Qed.

Lemma fmt_quad_nonzero a b c d :
  bytes4 a b c d -> Forall (fun c => c <> 0) (fmt_quad a b c d).
Proof.
  intros (Ha & Hb & Hc & Hd). unfold is_byte in *. unfold fmt_quad.
  repeat (apply Forall_app; split; [apply fmt_u_nonzero; lia|]; apply Forall_cons; split; [done|]).
  apply fmt_u_nonzero. lia.
Qed.

(** What inet_ntop4 does on every input: it formats the quad, fails with ENOSPC
    when the string is longer than [size], and else copies string and NUL. *)
Lemma inet_ntop4_eq src soff a b c d dst off size :
  bytes4 a b c d ->
  aread src soff = Some a -> aread src (soff + 1) = Some b ->
  aread src (soff + 2) = Some c -> aread src (soff + 3) = Some d ->
  inet_ntop4 src soff dst off size =
  if size <? Z.of_nat (length (fmt_quad a b c d)) then Some (CNull ENOSPC)
  else dst' ← strcpy dst off (fmt_quad a b c d); Some (CPtr dst').
Proof.
  intros Hq Ha Hb Hc Hd. unfold inet_ntop4. rewrite Ha, Hb, Hc, Hd. cbn [mbind option_bind].
  pose proof (fmt_quad_length _ _ _ _ Hq). pose proof (fmt_quad_nonzero _ _ _ _ Hq) as Hz.
  destruct (strcpy (replicate 16 0) 0 (fmt_quad a b c d)) as [tmp|] eqn:E.
  - cbn [mbind option_bind]. by rewrite (cstring_at_strcpy _ _ _ _ E Hz).
  - rewrite strcpy_ok in E by (rewrite ?length_replicate; lia). done.
Qed.

(** inet_ntop4's size check is off by one: it compares strlen(tmp) with size
    and forgets the NUL, so a buffer of exactly strlen(tmp) bytes passes the
    check and strcpy writes one byte past its end. *)
Theorem inet_ntop4_size_off_by_one a b c d dst :
  bytes4 a b c d ->
  length dst = length (fmt_quad a b c d) ->
  inet_ntop4 [a; b; c; d] 0 dst 0 (Z.of_nat (length dst)) = None.
Proof.
  intros Hq Hl. rewrite (inet_ntop4_eq _ _ a b c d) by done.
  rewrite Hl. zbool. by rewrite strcpy_overflow by lia.
Qed.

Lemma inet_ntop4_size_off_by_one_witness :
  inet_ntop4 [1; 2; 3; 4] 0 (replicate 7 0) 0 7 = None.
Proof.
  refine (inet_ntop4_size_off_by_one 1 2 3 4 (replicate 7 0) _ _); [|reflexivity].
  unfold bytes4, is_byte. lia.
Defined.

Lemma inet_ntop4_ok a b c d dst off size :
  bytes4 a b c d -> 0 <= off -> off + size <= Z.of_nat (length dst) ->
  Z.of_nat (length (fmt_quad a b c d)) < size ->
  exists dst', inet_ntop4 [a; b; c; d] 0 dst off size = Some (CPtr dst') /\
    cstring_at dst' off = fmt_quad a b c d /\ length dst' = length dst.
Proof.
  intros Hq H1 H2 H3. rewrite (inet_ntop4_eq _ _ a b c d) by done. zbool.
  destruct (strcpy dst off (fmt_quad a b c d)) as [dst'|] eqn:E.
  - simpl. eexists; split; [done|]. split.
    + eapply cstring_at_strcpy; [done|]. by apply fmt_quad_nonzero.
    + by eapply memcpy_Some_length.
  - rewrite strcpy_ok in E by lia. done.
Qed.

(** ** Round trips *)

Lemma split_dots_app s r :
  Forall (fun c => isdigit c = true) s ->
  split_dots (s ++ 46 :: r) = (s, (split_dots r).1 :: (split_dots r).2).
Proof.
  induction 1 as [|c s Hc Hs IH]; simpl app; [apply split_dots_dot|].
  rewrite split_dots_char by (apply isdigit_range in Hc; lia). by rewrite IH.
Qed.

Lemma split_dots_end s : Forall (fun c => isdigit c = true) s -> split_dots s = (s, []).
Proof.
  induction 1 as [|c s Hc Hs IH]; [done|].
  rewrite split_dots_char by (apply isdigit_range in Hc; lia). by rewrite IH.
Qed.

Lemma digits_val_fmt ds v :
  Forall (fun d => 0 <= d < 10) ds ->
  digits_val v (map digit_char ds) = foldl (fun v d => v * 10 + d) v ds.
Proof.
  intros H. revert v. induction H as [|d ds Hd H IH]; intros v; [done|]. simpl map.
  rewrite digits_val_cons, IH, digit_char_dec by lia. simpl. f_equal. lia.
Qed.

Lemma digits_val_fmt_u n : 0 <= n -> digits_val 0 (fmt_u n) = n.
Proof.
  intros. destruct (digits_spec 10 n) as (V & R & _); [lia..|].
  unfold fmt_u. by rewrite digits_val_fmt.
Qed.

Lemma fmt_u_nonempty n : 0 <= n -> fmt_u n <> [].
Proof.
  intros. destruct (digits_spec 10 n) as (_ & _ & N); [lia..|].
  unfold fmt_u. by destruct (digits 10 n).
Qed.

Lemma octet_fmt_u a : is_byte a -> octet (fmt_u a) = Some a.
Proof.
  intros [H1 H2]. unfold octet, octet_from. rewrite digits_val_fmt_u by lia.
  destruct (Nat.eqb_spec (length (fmt_u a)) 0) as [E|_].
  { apply length_zero_iff_nil in E. by apply fmt_u_nonempty in E. }
  assert (forallb isdigit (fmt_u a) = true) as ->.
  { apply forallb_forall. intros c Hc. apply list_elem_of_In in Hc.
    by eapply Forall_forall in Hc; [|apply fmt_u_isdigit; lia]. }
  simpl. zbool.
Qed.

Lemma quad_ref_fmt a b c d : bytes4 a b c d -> quad_ref (fmt_quad a b c d) = Some [a; b; c; d].
Proof.
  intros (Ha & Hb & Hc & Hd). unfold quad_ref, fmt_quad.
  rewrite !split_dots_app by (apply fmt_u_isdigit; unfold is_byte in *; lia). simpl.
  rewrite split_dots_end by (apply fmt_u_isdigit; unfold is_byte in *; lia). simpl.
  change (fun seg => octet_from 0 false seg) with octet.
  by rewrite !octet_fmt_u by done.
Qed.

(** Every IPv4 address survives printing and parsing: inet_ntop with room for
    16 bytes succeeds, and inet_pton of the text gives the four bytes back. *)
Theorem inet_pton4_ntop4 a b c d dst size :
  bytes4 a b c d -> 16 <= size <= Z.of_nat (length dst) ->
  exists dst', inet_ntop AF_INET [a; b; c; d] dst 0 size = Some (CPtr dst') /\
    inet_pton AF_INET (cstring_at dst' 0) [0; 0; 0; 0] 0 = Some (1, None, [a; b; c; d]).
Proof.
  intros Hq Hs. pose proof (fmt_quad_length _ _ _ _ Hq).
  destruct (inet_ntop4_ok a b c d dst 0 size) as (dst' & E & C & _); [done|lia..|].
  exists dst'. split; [exact E|]. unfold inet_pton. simpl.
  by rewrite C, inet_pton4_eq, quad_ref_fmt.
Qed.

Lemma inet_pton4_ntop4_witness :
  exists dst', inet_ntop AF_INET [192; 0; 2; 255] (replicate 16 0) 0 16 = Some (CPtr dst') /\
    inet_pton AF_INET (cstring_at dst' 0) [0; 0; 0; 0] 0 = Some (1, None, [192; 0; 2; 255]).
Proof.
  apply (inet_pton4_ntop4 192 0 2 255 (replicate 16 0) 16); [unfold bytes4, is_byte; lia|simpl; lia].
Defined.

(** C38. inet_pton4 accepts exactly the dotted quads: on every string, every
    access it makes is inside its arrays and it returns 1 and stores the four
    octets when the string is four decimal numbers of at most 255 separated by
    dots, and returns 0 with the destination untouched otherwise. *)
Theorem inet_pton4_accepts_quads src dst off :
  inet_pton4 src dst off =
  match quad_ref src with
  | Some bs => dst' ← memcpy dst off bs; Some (1, dst')
  | None => Some (0, dst)
  end.
Proof. apply inet_pton4_eq. Qed.

(** ** inet_aton *)

Lemma aton_push addr acc :
  0 <= addr < 2 ^ 56 -> is_byte acc ->
  Z.lor (u64 (Z.shiftl addr 8)) acc = addr * 256 + acc.
Proof.
  intros Ha Hb. unfold is_byte in Hb. unfold u64. rewrite wrap_small.
  - by apply lor_shiftl_add.
  - rewrite Z.shiftl_mul_pow2 by lia. change (2 ^ 8) with 256.
    change (2 ^ 64) with (2 ^ 56 * 256). lia.
Qed.

Lemma inet_aton_loop_digits ds r dots acc addr :
  Forall (fun d => 0 <= d < 10) ds ->
  inet_aton_loop (map digit_char ds ++ r) dots (u64 acc) addr =
  inet_aton_loop r dots (u64 (foldl (fun v d => v * 10 + d) acc ds)) addr.
Proof.
  intros H. revert acc. induction H as [|d ds Hd H IH]; intros acc; [done|].
  cbn [map app inet_aton_loop]. rewrite digit_char_dec by lia.
  assert (isdigit (48 + d) = true) as -> by (unfold isdigit; zbool).
  simpl foldl. rewrite <- IH. f_equal. unfold u64, wrap.
  replace (48 + d - 48) with d by lia.
  by rewrite <- Zplus_mod_idemp_l, Zmult_mod_idemp_l, Zplus_mod_idemp_l.
Qed.

Lemma inet_aton_loop_octet n r dots addr :
  0 <= n -> inet_aton_loop (fmt_u n ++ r) dots 0 addr = inet_aton_loop r dots (u64 n) addr.
Proof.
  intros Hn. destruct (digits_spec 10 n) as (V & R & _); [lia..|]. unfold fmt_u.
  change 0 with (u64 0) at 1. rewrite inet_aton_loop_digits by done.
  unfold undigits in V. by rewrite V.
Qed.

Lemma inet_aton_loop_dot r dots acc addr :
  dots < 3 -> acc <= 255 ->
  inet_aton_loop (46 :: r) dots acc addr =
  inet_aton_loop r (dots + 1) 0 (Z.lor (u64 (Z.shiftl addr 8)) acc).
Proof. intros. simpl. zbool. Qed.

Lemma store32_htonl `{Platform} z : is_u32 z -> store32 (htonl z) = be4 z.
Proof.
  intros Hz. unfold is_u32 in Hz. unfold store32, htonl. destruct big_endian.
  - by rewrite u32_small.
  - pose proof (Z.mod_pos_bound (z / 256) 256 ltac:(lia)).
    unfold be4, swap32, swap16. simpl.
    rewrite reverse_cons. unfold reverse. simpl.
    Z.div_mod_to_equations. repeat (f_equal; [lia|]). f_equal. lia.
Qed.

Definition quad_val (a b c d : Z) : Z := ((a * 256 + b) * 256 + c) * 256 + d.

Lemma be4_quad a b c d : bytes4 a b c d -> be4 (quad_val a b c d) = [a; b; c; d].
Proof.
  intros (Ha & Hb & Hc & Hd). unfold be4, quad_val.
  change 16777216 with (256 * (256 * 256)). change 65536 with (256 * 256).
  rewrite <- !Z.div_div by lia. rewrite !div_256 by done. rewrite !mod_256 by done.
  by rewrite Z.mod_small.
Qed.

Lemma u64_wraps k a : is_byte a -> u64 (k * 2 ^ 64 + a) = a.
Proof.
  intros. unfold u64, wrap, is_byte in *.
  rewrite Z.add_comm, Z.mod_add by lia. apply Z.mod_small. lia.
Qed.

(** inet_aton on four numbers, each taken modulo 2^64. *)
Lemma inet_aton_quad `{Platform} ka kb kc kd a b c d :
  bytes4 a b c d -> 0 <= ka -> 0 <= kb -> 0 <= kc -> 0 <= kd ->
  inet_aton (fmt_quad (ka * 2 ^ 64 + a) (kb * 2 ^ 64 + b) (kc * 2 ^ 64 + c) (kd * 2 ^ 64 + d))
  = Some (htonl (quad_val a b c d)).
Proof.
  intros (Ha & Hb & Hc & Hd) Hka Hkb Hkc Hkd. unfold inet_aton, fmt_quad.
  assert (forall k x, 0 <= k -> is_byte x -> 0 <= k * 2 ^ 64 + x) as Hpos
    by (unfold is_byte; intros; lia).
  rewrite inet_aton_loop_octet, u64_wraps by auto.
  rewrite inet_aton_loop_dot by (unfold is_byte in *; lia).
  rewrite inet_aton_loop_octet, u64_wraps by auto.
  rewrite inet_aton_loop_dot by (unfold is_byte in *; lia).
  rewrite inet_aton_loop_octet, u64_wraps by auto.
  rewrite inet_aton_loop_dot by (unfold is_byte in *; lia).
  rewrite <- (app_nil_r (fmt_u _)), inet_aton_loop_octet, u64_wraps by auto.
  unfold is_byte in *. cbn [inet_aton_loop]. destruct (Z.ltb_spec 255 d); [lia|].
  rewrite (aton_push 0) by (unfold is_byte; lia).
  rewrite (aton_push (0 * 256 + a)) by (unfold is_byte; lia).
  rewrite (aton_push ((0 * 256 + a) * 256 + b)) by (unfold is_byte; lia).
  rewrite (aton_push (((0 * 256 + a) * 256 + b) * 256 + c)) by (unfold is_byte; lia).
  cbn [mbind option_bind]. change (0 + 1 + 1 + 1 <? 3) with false. cbn iota.
  unfold quad_val. rewrite u32_small by (unfold is_u32; lia). by rewrite Z.mul_0_l, Z.add_0_l.
Qed.

(** inet_aton reads back what inet_ntop prints, on hosts of either byte
    order: the 32-bit value it stores has the address's four bytes in memory. *)
Theorem inet_aton_roundtrip `{Platform} a b c d dst size :
  bytes4 a b c d -> 16 <= size <= Z.of_nat (length dst) ->
  exists dst' s, inet_ntop4 [a; b; c; d] 0 dst 0 size = Some (CPtr dst') /\
    inet_aton (cstring_at dst' 0) = Some s /\ store32 s = [a; b; c; d].
Proof.
  intros Hq Hs. pose proof (fmt_quad_length _ _ _ _ Hq).
  destruct (inet_ntop4_ok a b c d dst 0 size) as (dst' & E & C & _); [done|lia..|].
  exists dst', (htonl (quad_val a b c d)). split; [done|]. rewrite C. split.
  - rewrite <- inet_aton_quad with (ka := 0) (kb := 0) (kc := 0) (kd := 0) by (done || lia).
    do 2 f_equal; lia.
  - rewrite store32_htonl; [by apply be4_quad|].
    unfold bytes4, is_byte, is_u32, quad_val in *. lia.
Qed.

Lemma inet_aton_roundtrip_witness :
  exists dst' s, inet_ntop4 [10; 0; 0; 1] 0 (replicate 16 0) 0 16 = Some (CPtr dst') /\
    @inet_aton x86_64 (cstring_at dst' 0) = Some s /\ @store32 x86_64 s = [10; 0; 0; 1].
Proof.
  apply (@inet_aton_roundtrip x86_64 10 0 0 1 (replicate 16 0) 16);
    [unfold bytes4, is_byte; lia|simpl; lia].
Defined.

(** inet_aton's octet check can be passed by a number that is not an octet:
    the accumulator is a u_long that wraps, so k * 2^64 + a is read as a for any
    k, although it is not a dotted quad. *)
Theorem inet_aton_accepts_overflow `{Platform} k a b c d :
  bytes4 a b c d -> 0 < k ->
  inet_aton (fmt_quad (k * 2 ^ 64 + a) b c d) = inet_aton (fmt_quad a b c d) /\
  quad_ref (fmt_quad (k * 2 ^ 64 + a) b c d) = None.
Proof.
  intros Hq Hk. split.
  - pose proof (inet_aton_quad k 0 0 0 a b c d Hq) as E1.
    pose proof (inet_aton_quad 0 0 0 0 a b c d Hq) as E2.
    rewrite Z.mul_0_l, !Z.add_0_l in *. rewrite E1, E2 by lia. done.
  - destruct Hq as (Ha & Hb & Hc & Hd). unfold is_byte in *.
    assert (octet (fmt_u (k * 2 ^ 64 + a)) = None) as E.
    { unfold octet, octet_from. rewrite digits_val_fmt_u by lia.
      destruct (Z.leb_spec (k * 2 ^ 64 + a) 255); [lia|]. by rewrite andb_false_r. }
    unfold quad_ref, fmt_quad. rewrite split_dots_app by (apply fmt_u_isdigit; lia).
    cbn [mapM]. by rewrite E.
Qed.

Lemma inet_aton_accepts_overflow_witness :
  @inet_aton sparc64 (fmt_quad (1 * 2 ^ 64 + 10) 0 0 1) = @inet_aton sparc64 (fmt_quad 10 0 0 1) /\
  quad_ref (fmt_quad (1 * 2 ^ 64 + 10) 0 0 1) = None.
Proof. apply (@inet_aton_accepts_overflow sparc64 1 10 0 0 1); unfold bytes4, is_byte; lia. Defined.

End V4.
