(* ===== verification/InetV6.v ===== *)
(** * IPv6 address conversion: theorems

    inet_pton6 is memory safe on every string and leaves the destination alone
    unless it succeeds; inet_ntop6 never overruns its 46-byte buffer; and
    inet_pton6 reads back every address inet_ntop6 prints.  The handling of a
    "::" in a full address, documented as ignored, is stated as it is. *)
From stdpp Require Import base list numbers strings.
From S2P Require Import Prelude InetAddr InetV4.

Module V6.
Import V4.

(** ** Words and bytes *)

Definition wbytes (w : Z) : list Z := [w / 256; w mod 256].
Definition bytes_of (ws : list Z) : list Z := flat_map wbytes ws.

Lemma bytes_of_length ws : length (bytes_of ws) = (2 * length ws)%nat.
Proof. induction ws; simpl; lia. Qed.

Lemma bytes_of_app ws vs : bytes_of (ws ++ vs) = bytes_of ws ++ bytes_of vs.
Proof. apply flat_map_app. Qed.

Lemma wbytes_range w : is_u16 w -> is_byte (w / 256) /\ is_byte (w mod 256).
Proof.
  unfold is_u16, is_byte. intros. split.
  - split; [apply Z.div_pos; lia|apply Z.div_lt_upper_bound; lia].
  - apply Z.mod_pos_bound. lia.
Qed.

Lemma wbytes_combine w : w / 256 * 256 + w mod 256 = w.
Proof. pose proof (Z.div_mod w 256 ltac:(lia)). lia. Qed.

(** Every even-length byte string is the bytes of its words. *)
Lemma bytes_of_words n (src : list Z) :
  length src = (2 * n)%nat -> Forall is_byte src ->
  exists ws, length ws = n /\ Forall is_u16 ws /\ src = bytes_of ws.
Proof.
  revert src. induction n as [|n IH]; intros src Hl Hb.
  - exists []. by destruct src.
  - destruct src as [|a [|b src]]; simpl in Hl; try lia.
    inversion_clear Hb as [|?? Ha Hb']. inversion_clear Hb' as [|?? Hb Hr].
    destruct (IH src) as (ws & E & R & ->); [lia|done|].
    exists (a * 256 + b :: ws). split_and!; [simpl; lia|constructor; [|done]|].
    + unfold is_byte, is_u16 in *. lia.
    + simpl. unfold wbytes. by rewrite div_256, mod_256.
Qed.

(** ** inet_ntop6: the word array *)

Lemma ntop6_word_step a b :
  is_byte a -> is_byte b ->
  u32 (Z.lor (u32 (Z.lor 0 (Z.shiftl a (Z.shiftl 1 3)))) (Z.shiftl b (Z.shiftl 0 3)))
  = a * 256 + b.
Proof.
  unfold is_byte. intros. change (Z.shiftl 1 3) with 8. change (Z.shiftl 0 3) with 0.
  rewrite Z.lor_0_l, Z.shiftl_0_r.
  rewrite (u32_small (Z.shiftl a 8))
    by (unfold is_u32; rewrite Z.shiftl_mul_pow2 by lia; change (2 ^ 8) with 256; lia).
  rewrite lor_shiftl_add by lia. change (2 ^ 8) with 256.
  apply u32_small. unfold is_u32. lia.
Qed.

Lemma ntop6_words_spec ws pre :
  Forall is_u16 ws ->
  ntop6_words (2 * length ws) (2 * Z.of_nat (length pre)) (bytes_of (pre ++ ws))
    (pre ++ replicate (length ws) 0) = Some (pre ++ ws).
Proof.
  intros H. revert pre. induction H as [|w ws Hw H IH]; intros pre; [done|].
  replace (2 * length (w :: ws))%nat with (S (S (2 * length ws))) by (simpl; lia).
  set (j := Z.of_nat (length pre)). cbn [ntop6_words length replicate].
  assert (Hlen : 2 * j = Z.of_nat (length (bytes_of pre))) by (rewrite bytes_of_length; lia).
  rewrite bytes_of_app.
  change (bytes_of (w :: ws)) with (w / 256 :: w mod 256 :: bytes_of ws).
  rewrite (aread_app _ _ _ (2 * j)) by done. cbn [mbind option_bind].
  replace (2 * j / 2) with j by (rewrite Z.mul_comm, Z.div_mul; lia).
  rewrite (aread_app _ _ _ j) by done. cbn [mbind option_bind].
  rewrite (awrite_app _ _ _ _ j) by done. cbn [mbind option_bind].
  replace (2 * j mod 2) with 0 by (rewrite Z.mul_comm, Z.mod_mul; lia).
  rewrite (cons_middle (w / 256)), app_assoc.
  rewrite (aread_app _ _ _ (2 * j + 1)) by (rewrite length_app; simpl; lia).
  cbn [mbind option_bind].
  replace ((2 * j + 1) / 2) with j
    by (rewrite Z.add_comm, Z.mul_comm, Z.div_add by lia; change (1 / 2) with 0; lia).
  rewrite (aread_app _ _ _ j) by done. cbn [mbind option_bind].
  rewrite (awrite_app _ _ _ _ j) by done. cbn [mbind option_bind].
  replace ((2 * j + 1) mod 2) with 1
    by (rewrite Z.add_comm, Z.mul_comm, Z.mod_add by lia; done).
  change (1 - 0) with 1. change (1 - 1) with 0.
  destruct (wbytes_range w Hw). rewrite ntop6_word_step, wbytes_combine by done.
  specialize (IH (pre ++ [w])). rewrite <- !app_assoc in IH. simpl in IH.
  rewrite length_app in IH. simpl in IH.
  replace (2 * j + 1 + 1) with (2 * Z.of_nat (length pre + 1)) by lia.
  rewrite bytes_of_app in IH. rewrite <- app_assoc. simpl in *. exact IH.
Qed.

(** ** inet_ntop6: the longest run of zero words *)

(** The search only looks at which words are zero. *)
Definition flag (w : Z) : Z := if w =? 0 then 0 else 1.

Lemma ntop6_search_flag i ws best cur :
  ntop6_search i ws best cur = ntop6_search i (map flag ws) best cur.
Proof.
  revert i best cur. induction ws as [|w ws IH]; intros i best cur; simpl; [done|].
  unfold flag at 1. destruct (w =? 0) eqn:E; simpl.
  - case_match; apply IH.
  - change (1 =? 0) with false. simpl. case_match; apply IH.
Qed.

Definition run_ok (ws : list Z) (r : run) : bool :=
  (r_base r =? -1) ||
  ((0 <=? r_base r) && (2 <=? r_len r) && (r_base r + r_len r <=? 8) &&
   forallb (fun w => w =? 0) (take (Z.to_nat (r_len r)) (drop (Z.to_nat (r_base r)) ws))).

Fixpoint all_flags (n : nat) : list (list Z) :=
  match n with
  | O => [[]]
  | S n' => (cons 0 <$> all_flags n') ++ (cons 1 <$> all_flags n')
  end.

Lemma all_flags_spec ws : map flag ws ∈ all_flags (length ws).
Proof.
  induction ws as [|w ws IH]; simpl; [by apply list_elem_of_singleton|].
  apply elem_of_app. unfold flag at 1 3.
  destruct (w =? 0); [left|right]; by apply list_elem_of_fmap_2.
Qed.

Lemma run_ok_flag ws r : run_ok (map flag ws) r = run_ok ws r.
Proof.
  unfold run_ok. f_equal. f_equal. change (map flag ws) with (flag <$> ws).
  rewrite <- fmap_drop, <- fmap_take.
  generalize (take (Z.to_nat (r_len r)) (drop (Z.to_nat (r_base r)) ws)).
  induction l as [|w l IH]; [done|]. rewrite fmap_cons. simpl. rewrite IH. f_equal.
  unfold flag. by destruct (w =? 0).
Qed.

Lemma ntop6_best_ok ws : length ws = 8%nat -> run_ok ws (ntop6_best ws) = true.
Proof.
  intros Hl. rewrite <- run_ok_flag.
  assert (ntop6_best ws = ntop6_best (map flag ws)) as ->.
  { unfold ntop6_best. by rewrite ntop6_search_flag. }
  assert (forallb (fun l => run_ok l (ntop6_best l)) (all_flags 8) = true) as H
    by (vm_compute; done).
  rewrite forallb_forall in H. apply H. apply list_elem_of_In.
  rewrite <- Hl. apply all_flags_spec.
Qed.

(** ** inet_ntop6: the string it builds *)

(** [f5]: whether word 5 is 0xffff. *)
Definition v4_tail (i : Z) (best : run) (f5 : bool) : bool :=
  (i =? 6) && (r_base best =? 0) && ((r_len best =? 6) || ((r_len best =? 5) && f5)).

Definition in_run (i : Z) (best : run) : bool :=
  negb (r_base best =? -1) && (r_base best <=? i) && (i <? r_base best + r_len best).

(** The characters the loop emits for words i, i+1, ... *)
Fixpoint render (i : Z) (ws : list Z) (best : run) (f5 : bool) (quad : list Z) : list Z :=
  match ws with
  | [] => []
  | w :: ws' =>
      if in_run i best then
        (if i =? r_base best then [58] else []) ++ render (i + 1) ws' best f5 quad
      else
        (if negb (i =? 0) then [58] else []) ++
        (if v4_tail i best f5 then quad
         else fmt_x w ++ render (i + 1) ws' best f5 quad)
  end.

Lemma fmt_x_nonzero n : 0 <= n -> Forall (fun c => c <> 0) (fmt_x n).
Proof.
  intros. unfold fmt_x. rewrite Forall_map.
  destruct (digits_spec 16 n) as (_ & R & _); [lia..|].
  eapply Forall_impl; [exact R|]. intros d Hd. simpl in *.
  pose proof (digit_char_range d ltac:(lia)). lia.
Qed.

(** A buffer of which the first bytes are [out] and the rest is arbitrary. *)
Definition holds (tmp out : list Z) : Prop := exists rest, tmp = out ++ rest.

Lemma awrite_holds tmp out c tp :
  holds tmp out -> tp = Z.of_nat (length out) -> (length out < length tmp)%nat ->
  exists tmp', awrite tmp tp c = Some tmp' /\ holds tmp' (out ++ [c]) /\ length tmp' = length tmp.
Proof.
  intros [rest ->] -> Hl. destruct rest as [|x rest]; [rewrite app_nil_r in Hl; lia|].
  rewrite awrite_app by done. eexists; split; [done|]. split.
  - exists rest. by rewrite <- app_assoc.
  - by rewrite !length_app.
Qed.

Lemma strcpy_holds tmp out s tp :
  holds tmp out -> tp = Z.of_nat (length out) ->
  (length out + length s < length tmp)%nat -> Forall (fun c => c <> 0) s ->
  exists tmp', strcpy tmp tp s = Some tmp' /\ holds tmp' (out ++ s) /\
    length tmp' = length tmp /\ cstring_at tmp' tp = s.
Proof.
  intros [rest ->] -> Hl Hs.
  destruct (strcpy (out ++ rest) (Z.of_nat (length out)) s) as [tmp'|] eqn:E.
  - exists tmp'. split_and!; [done| |by eapply memcpy_Some_length|by eapply cstring_at_strcpy].
    rewrite strcpy_ok in E by lia. crush_hyps.
    rewrite Nat2Z.id, take_app_length. eexists. by rewrite <- app_assoc.
  - rewrite strcpy_ok in E by lia. done.
Qed.

Lemma ntop6_format_render ws i src words best tmp out (w5 : Z) q0 q1 q2 q3 :
  aread words 5 = Some w5 -> bytes4 q0 q1 q2 q3 ->
  aread src 12 = Some q0 -> aread src 13 = Some q1 ->
  aread src 14 = Some q2 -> aread src 15 = Some q3 ->
  Forall is_u16 ws -> holds tmp out -> length tmp = 46%nat ->
  (length out + length (render i ws best (w5 =? 0xffff)%Z (fmt_quad q0 q1 q2 q3)) < 46)%nat ->
  exists tmp' tp', ntop6_format i ws src words best tmp (Z.of_nat (length out))
      = Some (inr (tmp', tp')) /\
    holds tmp' (out ++ render i ws best (w5 =? 0xffff)%Z (fmt_quad q0 q1 q2 q3)) /\ length tmp' = 46%nat /\
    tp' = Z.of_nat (length (out ++ render i ws best (w5 =? 0xffff)%Z (fmt_quad q0 q1 q2 q3))).
Proof.
  intros Hw5 Hq E0 E1 E2 E3 Hws. revert i tmp out.
  induction Hws as [|w ws Hw Hws IH]; intros i tmp out Hh Hl Hr; simpl.
  { exists tmp, (Z.of_nat (length out)). by rewrite app_nil_r. }
  simpl in Hr. fold (in_run i best).
  destruct (in_run i best); [destruct (i =? r_base best)|].
  - simpl in *. destruct (awrite_holds tmp out 58 _ Hh eq_refl) as (t & E & Ht & Lt); [lia|].
    rewrite E. cbn [mbind option_bind].
    replace (Z.of_nat (length out) + 1) with (Z.of_nat (length (out ++ [58])))
      by (rewrite length_app; simpl; lia).
    destruct (IH (i + 1) t (out ++ [58])) as (t' & tp' & ? & ? & ? & ?);
      [done|lia|rewrite length_app; simpl; lia|].
    exists t', tp'. by rewrite <- app_assoc in *.
  - by apply IH.
  - rewrite length_app in Hr.
    set (sep := if negb (i =? 0) then [58] else []) in *.
    assert (exists t, (if negb (i =? 0) then
        t ← awrite tmp (Z.of_nat (length out)) 58; Some (t, Z.of_nat (length out) + 1)
        else Some (tmp, Z.of_nat (length out))) = Some (t, Z.of_nat (length (out ++ sep))) /\
        holds t (out ++ sep) /\ length t = 46%nat) as (t & -> & Ht & Lt).
    { subst sep. destruct (i =? 0); simpl in *.
      - exists tmp. by rewrite app_nil_r.
      - destruct (awrite_holds tmp out 58 _ Hh eq_refl) as (t & E & Ht & Lt); [lia|].
        exists t. rewrite E. split_and!; [|done|lia]. simpl. do 2 f_equal.
        rewrite length_app. simpl. lia. }
    cbn [mbind option_bind]. rewrite Hw5. cbn [mbind option_bind].
    fold (v4_tail i best (w5 =? 0xffff)). destruct (v4_tail i best (w5 =? 0xffff)).
    + rewrite (inet_ntop4_eq src 12 q0 q1 q2 q3) by done.
      pose proof (fmt_quad_length _ _ _ _ Hq).
      destruct (Z.ltb_spec (46 - Z.of_nat (length (out ++ sep)))
        (Z.of_nat (length (fmt_quad q0 q1 q2 q3)))) as [Hlt|_];
        [rewrite length_app in Hlt; lia|].
      destruct (strcpy_holds t (out ++ sep) (fmt_quad q0 q1 q2 q3) _ Ht eq_refl)
        as (t' & E & Ht' & Lt' & C); [rewrite length_app; lia|by apply fmt_quad_nonzero|].
      rewrite E. cbn [mbind option_bind]. rewrite C.
      eexists t', _. rewrite <- app_assoc in Ht'. split_and!; [done|done|lia|].
      rewrite !length_app. lia.
    + rewrite length_app in Hr.
      destruct (strcpy_holds t (out ++ sep) (fmt_x w) _ Ht eq_refl)
        as (t' & E & Ht' & Lt' & C).
      { rewrite length_app; lia. }
      { apply fmt_x_nonzero. unfold is_u16 in Hw. lia. }
      rewrite E. cbn [mbind option_bind]. rewrite C.
      replace (Z.of_nat (length (out ++ sep)) + Z.of_nat (length (fmt_x w)))
        with (Z.of_nat (length ((out ++ sep) ++ fmt_x w))) by (rewrite !length_app; lia).
      destruct (IH (i + 1) t' ((out ++ sep) ++ fmt_x w)) as (t'' & tp' & ? & ? & ? & ?);
        [done|lia|rewrite !length_app; lia|].
      exists t'', tp'. by rewrite <- !app_assoc in *.
Qed.

(** ** inet_pton6 on the tokens of an address *)

(** The hexadecimal value of a character, as the two strchr calls compute it. *)
Definition xval (ch : Z) : option Z :=
  match strchr xdigits_l ch with Some k => Some k | None => strchr xdigits_u ch end.

Lemma xval_digit_char d : 0 <= d < 16 -> xval (digit_char d) = Some d.
Proof.
  intros. assert (d = 0 \/ d = 1 \/ d = 2 \/ d = 3 \/ d = 4 \/ d = 5 \/ d = 6 \/ d = 7 \/
    d = 8 \/ d = 9 \/ d = 10 \/ d = 11 \/ d = 12 \/ d = 13 \/ d = 14 \/ d = 15) as E by lia.
  repeat (destruct E as [->|E]; [done|]). by subst.
Qed.

Lemma xval_range ch k : xval ch = Some k -> 0 <= k < 16.
Proof.
  unfold xval. intros H.
  assert (forall s, length s = 16%nat -> forall j, strchr s ch = Some j -> 0 <= j < 16) as A.
  { intros s Hs j E. apply strchr_Some_lookup in E as [E1 E2].
    apply lookup_lt_Some in E2. lia. }
  destruct (strchr xdigits_l ch) eqn:E; [injection H as ->|]; by eapply A; [..|done].
Qed.

Lemma pton6_loop_hex ds r tp cp ct saw v tmp :
  Forall (fun d => 0 <= d < 16) ds -> 0 <= v ->
  foldl (fun v d => v * 16 + d) v ds <= 65535 ->
  inet_pton6_loop (map digit_char ds ++ r) (Pton6 tp cp ct saw v tmp) =
  inet_pton6_loop r (Pton6 tp cp ct (match ds with [] => saw | _ => true end)
                       (foldl (fun v d => v * 16 + d) v ds) tmp).
Proof.
  intros H. revert saw v. induction H as [|d ds Hd H IH]; intros saw v Hv Hm; [done|].
  cbn [map app inet_pton6_loop]. fold (xval (digit_char d)).
  rewrite xval_digit_char by done. simpl in Hm.
  pose proof (foldl_digits_mono 16 (v * 16 + d) ds ltac:(lia) ltac:(lia) H).
  rewrite (u32_small (Z.shiftl v 4))
    by (unfold is_u32; rewrite Z.shiftl_mul_pow2 by lia; change (2 ^ 4) with 16; lia).
  rewrite lor_shiftl_add by lia. change (2 ^ 4) with 16.
  destruct (Z.ltb_spec 65535 (v * 16 + d)); [lia|].
  rewrite IH by lia. by destruct ds.
Qed.

Lemma pton6_loop_word w r tp cp ct tmp :
  is_u16 w ->
  inet_pton6_loop (fmt_x w ++ r) (Pton6 tp cp ct false 0 tmp) =
  inet_pton6_loop r (Pton6 tp cp ct true w tmp).
Proof.
  intros Hw. unfold is_u16 in Hw. destruct (digits_spec 16 w) as (V & R & N); [lia..|].
  unfold undigits in V. unfold fmt_x. rewrite pton6_loop_hex by (done || lia). rewrite V.
  by destruct (digits 16 w).
Qed.

Lemma put_val_app l a b r w tp :
  is_u16 w -> tp = Z.of_nat (length l) ->
  put_val (l ++ a :: b :: r) tp w = Some (l ++ wbytes w ++ r).
Proof.
  intros Hw ->. destruct (wbytes_range w Hw). unfold put_val.
  rewrite awrite_app by done. cbn [mbind option_bind].
  rewrite cons_middle, app_assoc, awrite_app by (rewrite length_app; simpl; lia).
  rewrite <- app_assoc. simpl. unfold wbytes. do 3 f_equal.
  - rewrite Z.shiftr_div_pow2 by lia. change (2 ^ 8) with 256.
    change 255 with (Z.ones 8). rewrite u8_small by done.
    rewrite Z.land_ones by lia. apply Z.mod_small. unfold is_byte in *. change (2 ^ 8) with 256. lia.
  - change 255 with (Z.ones 8). rewrite Z.land_ones by lia. unfold u8, wrap.
    f_equal. by rewrite Z.mod_mod by lia.
Qed.

(** "w:" stores the word and starts the next token. *)
Lemma pton6_loop_colon w r tp cp ct l a b rest :
  is_u16 w -> tp = Z.of_nat (length l) -> tp + 2 <= 16 ->
  inet_pton6_loop (58 :: r) (Pton6 tp cp ct true w (l ++ a :: b :: rest)) =
  inet_pton6_loop r (Pton6 (tp + 2) cp r false 0 (l ++ wbytes w ++ rest)).
Proof.
  intros Hw Htp Hle. cbn [inet_pton6_loop]. change (strchr xdigits_l 58) with (@None Z).
  change (strchr xdigits_u 58) with (@None Z). cbn iota. simpl negb. cbn iota.
  unfold p6_endp, IN6ADDRSZ, INT16SZ. destruct (Z.ltb_spec 16 (tp + 2)); [lia|].
  by rewrite put_val_app.
Qed.

Definition hexcolons (ws : list Z) : list Z := flat_map (fun w => fmt_x w ++ [58]) ws.

(** The array after the words [ws]: their bytes, then zeros. *)
Definition arr (ws : list Z) : list Z := bytes_of ws ++ replicate (16 - 2 * length ws) 0.

Lemma arr_split ws :
  (length ws < 8)%nat ->
  arr ws = bytes_of ws ++ 0 :: 0 :: replicate (16 - 2 * S (length ws)) 0.
Proof.
  intros. unfold arr.
  by replace (16 - 2 * length ws)%nat with (S (S (16 - 2 * S (length ws)))) by lia.
Qed.

Lemma arr_snoc ws w :
  bytes_of ws ++ wbytes w ++ replicate (16 - 2 * S (length ws)) 0 = arr (ws ++ [w]).
Proof.
  unfold arr. rewrite bytes_of_app, length_app. simpl. rewrite <- app_assoc. simpl.
  by rewrite Nat.add_1_r.
Qed.

Lemma pton6_loop_hexcolons ws pre r cp ct :
  Forall is_u16 ws -> (length pre + length ws <= 8)%nat ->
  exists ct',
  inet_pton6_loop (hexcolons ws ++ r)
    (Pton6 (2 * Z.of_nat (length pre)) cp ct false 0 (arr pre)) =
  inet_pton6_loop r
    (Pton6 (2 * Z.of_nat (length (pre ++ ws))) cp ct' false 0 (arr (pre ++ ws))) /\
  (ws <> [] \/ ct = r -> ct' = r).
Proof.
  intros H. revert pre ct. induction H as [|w ws Hw H IH]; intros pre ct Hl.
  { exists ct. rewrite app_nil_r. split; [done|]. by intros [?|?]. }
  simpl in Hl. unfold hexcolons. cbn [flat_map]. fold (hexcolons ws).
  rewrite <- !app_assoc, pton6_loop_word by done. cbn [app].
  rewrite arr_split, pton6_loop_colon
    by (rewrite ?bytes_of_length; done || lia).
  rewrite arr_snoc.
  replace (2 * Z.of_nat (length pre) + 2) with (2 * Z.of_nat (length (pre ++ [w])))
    by (rewrite length_app; simpl; lia).
  destruct (IH (pre ++ [w]) (hexcolons ws ++ r)) as (ct' & E & C);
    [rewrite length_app; simpl; lia|].
  exists ct'. rewrite E. rewrite <- !app_assoc. simpl. split; [done|].
  intros _. apply C. destruct ws; [by right|by left].
Qed.

Lemma foldl16_bound ds v k :
  Forall (fun d => 0 <= d < 16) ds -> 0 <= v < k ->
  0 <= foldl (fun v d => v * 16 + d) v ds < k * 16 ^ Z.of_nat (length ds).
Proof.
  intros H. revert v k. induction H as [|d ds Hd H IH]; intros v k Hv.
  { change (16 ^ Z.of_nat (length [])) with 1. simpl. lia. }
  cbn [foldl length]. rewrite Nat2Z.inj_succ, Z.pow_succ_r, Z.mul_assoc by lia.
  apply IH. lia.
Qed.

(** A dotted quad token: its digits are first read as hexadecimal, then the
    dot hands the whole token to inet_pton4. *)
Lemma pton6_loop_quad a b c d tp cp l m rest :
  bytes4 a b c d -> tp = Z.of_nat (length l) -> length m = 4%nat -> tp + 4 <= 16 ->
  exists v,
  inet_pton6_loop (fmt_quad a b c d) (Pton6 tp cp (fmt_quad a b c d) false 0 (l ++ m ++ rest)) =
  Some (inr (Pton6 (tp + 4) cp (fmt_quad a b c d) false v (l ++ [a; b; c; d] ++ rest))).
Proof.
  intros Hq Htp Hm Hle.
  assert (exists v r, forall tmp ct,
    inet_pton6_loop (fmt_quad a b c d) (Pton6 tp cp ct false 0 tmp) =
    inet_pton6_loop (46 :: r) (Pton6 tp cp ct true v tmp)) as (v & r & E).
  { destruct Hq as (Ha & _). unfold is_byte in Ha.
    destruct (digits_spec 10 a) as (_ & R & N); [lia..|].
    pose proof (digits_length 10 a 3 ltac:(lia) ltac:(change (10 ^ Z.of_nat 3) with 1000; lia)
      ltac:(done)) as L.
    assert (Forall (fun d => 0 <= d < 16) (digits 10 a)) as R'.
    { eapply Forall_impl; [exact R|]. intros x Hx. simpl in *. lia. }
    pose proof (foldl16_bound _ 0 1 R' ltac:(lia)) as B.
    assert (16 ^ Z.of_nat (length (digits 10 a)) <= 16 ^ 3) by (apply Z.pow_le_mono_r; lia).
    do 2 eexists. intros tmp ct. unfold fmt_quad, fmt_u at 1.
    rewrite pton6_loop_hex by (done || lia).
    replace (match digits 10 a with [] => false | _ => true end) with true
      by (by destruct (digits 10 a)).
    reflexivity. }
  exists v. rewrite E. cbn [inet_pton6_loop].
  change (strchr xdigits_l 46) with (@None Z). change (strchr xdigits_u 46) with (@None Z).
  cbn iota. change (46 =? 58) with false. cbn iota. rewrite Z.eqb_refl.
  unfold p6_endp, IN6ADDRSZ, INADDRSZ. destruct (Z.leb_spec (tp + 4) 16); [|lia].
  cbn [andb]. rewrite inet_pton4_eq, quad_ref_fmt by done.
  rewrite memcpy_app by (done || lia). done.
Qed.

(** The code after the last word was stored. *)
Definition finish_addr (dst : list Z) (off : Z) (cp : option Z) (tp : Z) (tmp : list Z) :=
  pton6_finish dst off (Pton6 tp cp [] false 0 tmp).

Definition parse_from (dst : list Z) (off : Z) (s : list Z) (st : pton6_st) :=
  r ← inet_pton6_loop s st;
  match r with inl rc => Some (rc, dst) | inr st => pton6_finish dst off st end.

(** The end of an address: nothing, words separated by colons, or words and a
    dotted quad. *)
Inductive tail_str : list Z -> list Z -> Prop :=
| tail_nil : tail_str [] []
| tail_words ws w :
    Forall is_u16 ws -> is_u16 w -> tail_str (hexcolons ws ++ fmt_x w) (ws ++ [w])
| tail_quad ws a b c d :
    Forall is_u16 ws -> bytes4 a b c d ->
    tail_str (hexcolons ws ++ fmt_quad a b c d) (ws ++ [a * 256 + b; c * 256 + d]).

Lemma parse_tail dst off s post pre cp :
  tail_str s post -> (length pre + length post <= 8)%nat ->
  parse_from dst off s (Pton6 (2 * Z.of_nat (length pre)) cp s false 0 (arr pre)) =
  finish_addr dst off cp (2 * Z.of_nat (length (pre ++ post))) (arr (pre ++ post)).
Proof.
  intros [|ws w Hws Hw|ws a b c d Hws Hq] Hl; unfold parse_from.
  - by rewrite app_nil_r.
  - rewrite length_app in Hl; simpl in Hl.
    destruct (pton6_loop_hexcolons ws pre (fmt_x w) cp (hexcolons ws ++ fmt_x w) Hws)
      as (ct & -> & _); [lia|].
    rewrite <- (app_nil_r (fmt_x w)), pton6_loop_word by done.
    cbn [inet_pton6_loop mbind option_bind pton6_finish].
    unfold p6_endp, IN6ADDRSZ, INT16SZ. rewrite length_app.
    destruct (Z.ltb_spec 16 (2 * Z.of_nat (length pre + length ws) + 2)); [lia|].
    rewrite arr_split by (rewrite length_app; lia).
    rewrite put_val_app, arr_snoc by (rewrite ?bytes_of_length, ?length_app; done || lia).
    unfold finish_addr. cbn [mbind option_bind pton6_finish].
    rewrite <- app_assoc, !length_app. simpl.
    by replace (2 * Z.of_nat (length pre + length ws) + 2)
      with (2 * Z.of_nat (length pre + (length ws + 1))) by lia.
  - rewrite length_app in Hl; simpl in Hl.
    destruct (pton6_loop_hexcolons ws pre (fmt_quad a b c d) cp
      (hexcolons ws ++ fmt_quad a b c d) Hws) as (ct & -> & C); [lia|].
    rewrite C by (destruct ws; [by right|by left]). clear C.
    unfold arr at 1.
    replace (16 - 2 * length (pre ++ ws))%nat
      with (4 + (16 - 2 * S (S (length (pre ++ ws)))))%nat by (rewrite length_app; lia).
    rewrite replicate_add.
    destruct (pton6_loop_quad a b c d (2 * Z.of_nat (length (pre ++ ws))) cp
      (bytes_of (pre ++ ws)) (replicate 4 0)
      (replicate (16 - 2 * S (S (length (pre ++ ws)))) 0) Hq) as (v & ->);
      [rewrite bytes_of_length; lia|done|rewrite length_app; lia|].
    unfold finish_addr. cbn [mbind option_bind pton6_finish].
    assert (bytes_of (pre ++ ws) ++ [a; b; c; d] ++
      replicate (16 - 2 * S (S (length (pre ++ ws)))) 0 =
      arr (pre ++ ws ++ [a * 256 + b; c * 256 + d])) as ->.
    { destruct Hq as (Ha & Hb & Hc & Hd). unfold arr. rewrite (app_assoc pre ws), (bytes_of_app (pre ++ ws)).
      change (bytes_of [a * 256 + b; c * 256 + d])
        with [(a * 256 + b) / 256; (a * 256 + b) mod 256;
              (c * 256 + d) / 256; (c * 256 + d) mod 256].
      rewrite !div_256, !mod_256 by done. rewrite <- app_assoc. cbn [app].
      rewrite (length_app (pre ++ ws)). cbn [length].
      by replace (16 - 2 * (length (pre ++ ws) + 2))%nat
        with (16 - 2 * S (S (length (pre ++ ws))))%nat by lia. }
    rewrite !length_app. simpl.
    by replace (2 * Z.of_nat (length pre + length ws) + 4)
      with (2 * Z.of_nat (length pre + (length ws + 2))) by lia.
Qed.

(** ** The shift to the end of the array *)

(** With room left, the bytes after the "::" move to the end and the gap is
    filled with zeros. *)
Lemma pton6_shift_gap l2 : forall l1 g d i n cp,
  cp = Z.of_nat (length l1) -> n - i + 1 = Z.of_nat (length l2) ->
  16 - i + 1 = Z.of_nat (length l1 + length l2 + S g) ->
  pton6_shift (length l2) i n cp (l1 ++ l2 ++ replicate (S g) 0 ++ d) =
  Some (l1 ++ replicate (S g) 0 ++ l2 ++ d).
Proof.
  induction l2 as [|v l2 IH] using rev_ind; intros l1 g d i n cp Hcp Hn H16; [done|].
  rewrite length_app in *. cbn [length] in *. rewrite Nat.add_1_r. cbn [pton6_shift].
  replace (cp + (n - i)) with (Z.of_nat (length (l1 ++ l2))) by (rewrite length_app; lia).
  rewrite replicate_S_end, <- !app_assoc. rewrite (app_assoc l1 l2). cbn [app].
  rewrite (aread_app _ v) by done. cbn [mbind option_bind].
  rewrite (cons_middle v), !(app_assoc (l1 ++ l2)), !(app_assoc _ (replicate g 0)).
  unfold p6_endp, IN6ADDRSZ.
  rewrite (awrite_app _ 0) by (rewrite !length_app, length_replicate; simpl; lia).
  cbn [mbind option_bind]. rewrite <- !(app_assoc _ (replicate g 0)), <- !app_assoc.
  rewrite (app_assoc l1 l2). cbn [app].
  rewrite (awrite_app _ v) by done. cbn [mbind option_bind].
  rewrite <- !app_assoc.
  specialize (IH l1 g (v :: d) (i + 1) n cp). cbn [replicate app] in IH.
  rewrite IH by lia.
  change (0 :: replicate g 0 ++ l2 ++ v :: d) with (replicate (S g) 0 ++ l2 ++ v :: d).
  by rewrite replicate_S_end, <- app_assoc.
Qed.

(** With no room left, the same loop overwrites them with zeros. *)
Lemma pton6_shift_full l2 : forall l1 d i n cp,
  cp = Z.of_nat (length l1) -> n - i + 1 = Z.of_nat (length l2) ->
  16 - i + 1 = Z.of_nat (length l1 + length l2) ->
  pton6_shift (length l2) i n cp (l1 ++ l2 ++ d) =
  Some (l1 ++ replicate (length l2) 0 ++ d).
Proof.
  induction l2 as [|v l2 IH] using rev_ind; intros l1 d i n cp Hcp Hn H16; [done|].
  rewrite length_app in *. cbn [length] in *. rewrite Nat.add_1_r. cbn [pton6_shift].
  replace (cp + (n - i)) with (Z.of_nat (length (l1 ++ l2))) by (rewrite length_app; lia).
  unfold p6_endp, IN6ADDRSZ.
  replace (16 - i) with (Z.of_nat (length (l1 ++ l2))) by (rewrite length_app; lia).
  rewrite <- !app_assoc, (app_assoc l1 l2). cbn [app].
  rewrite (aread_app _ v) by done. cbn [mbind option_bind].
  rewrite (awrite_app _ v) by done. cbn [mbind option_bind].
  rewrite (awrite_app _ v) by done. cbn [mbind option_bind].
  rewrite <- !app_assoc. rewrite (IH l1 (0 :: d)) by lia.
  by rewrite replicate_S_end, <- app_assoc.
Qed.

Lemma bytes_of_zeros n : bytes_of (replicate n 0) = replicate (2 * n) 0.
Proof.
  induction n as [|n IH]; [done|]. replace (2 * S n)%nat with (S (S (2 * n))) by lia.
  simpl in *. by rewrite <- IH.
Qed.

Lemma finish_gap dst off pre post g :
  (length pre + length post + S g)%nat = 8%nat ->
  finish_addr dst off (Some (2 * Z.of_nat (length pre)))
    (2 * Z.of_nat (length (pre ++ post))) (arr (pre ++ post)) =
  (dst' ← memcpy dst off (bytes_of (pre ++ replicate (S g) 0 ++ post)); Some (1, dst')).
Proof.
  intros Hl. unfold finish_addr. cbn [mbind option_bind pton6_finish].
  unfold arr. rewrite bytes_of_app, <- app_assoc, length_app.
  replace (Z.to_nat (2 * Z.of_nat (length pre + length post) - 2 * Z.of_nat (length pre)))
    with (length (bytes_of post)) by (rewrite bytes_of_length; lia).
  replace (16 - 2 * (length pre + length post))%nat with (S (S (2 * g))) by lia.
  rewrite <- (app_nil_r (replicate _ 0)).
  rewrite pton6_shift_gap by (rewrite ?bytes_of_length; lia).
  cbn [mbind option_bind]. rewrite Z.eqb_refl. cbn [negb].
  rewrite app_nil_r, !bytes_of_app, bytes_of_zeros.
  by replace (2 * S g)%nat with (S (S (2 * g))) by lia.
Qed.

Lemma finish_exact dst off ws :
  length ws = 8%nat ->
  finish_addr dst off None (2 * Z.of_nat (length ws)) (arr ws) =
  (dst' ← memcpy dst off (bytes_of ws); Some (1, dst')).
Proof.
  intros Hl. unfold finish_addr, arr. rewrite Hl. cbn [mbind option_bind pton6_finish].
  by rewrite app_nil_r.
Qed.

(** ** Addresses in presentation format *)

(** A full address: eight words. *)
Lemma inet_pton6_full dst off ws w c s :
  Forall is_u16 (ws ++ [w]) -> length ws = 7%nat -> hexcolons ws ++ fmt_x w = c :: s -> c <> 58 ->
  inet_pton6 (hexcolons ws ++ fmt_x w) dst off =
  (dst' ← memcpy dst off (bytes_of (ws ++ [w])); Some (1, dst')).
Proof.
  intros H Hl Ec Hc. apply Forall_app in H as [Hws Hw]. inversion_clear Hw.
  pose proof (parse_tail dst off _ _ [] None (tail_words ws w Hws ltac:(done))
    ltac:(rewrite length_app; simpl; lia)) as P.
  unfold inet_pton6. rewrite Ec in *. destruct (Z.eqb_spec c 58); [done|].
  etrans; [exact P|]. apply finish_exact. rewrite length_app. simpl. lia.
Qed.

(** A compressed address: words, "::", and a tail. *)
Lemma inet_pton6_compressed dst off pre post g t :
  Forall is_u16 pre -> tail_str t post -> (length pre + length post + S g)%nat = 8%nat ->
  inet_pton6 ((match pre with [] => [58] | _ => [] end) ++ hexcolons pre ++ 58 :: t) dst off =
  (dst' ← memcpy dst off (bytes_of (pre ++ replicate (S g) 0 ++ post)); Some (1, dst')).
Proof.
  intros Hpre Ht Hl.
  assert (forall ct, parse_from dst off (hexcolons pre ++ 58 :: t) (Pton6 0 None ct false 0 (arr [])) =
    (dst' ← memcpy dst off (bytes_of (pre ++ replicate (S g) 0 ++ post)); Some (1, dst'))) as P.
  { intros ct. unfold parse_from.
    destruct (pton6_loop_hexcolons pre [] (58 :: t) None ct Hpre) as (ct' & E & _);
      [simpl; lia|].
    change (2 * Z.of_nat (length (@nil Z))) with 0 in E. cbn [app] in E.
    rewrite E. cbn [inet_pton6_loop].
    change (strchr xdigits_l 58) with (@None Z). change (strchr xdigits_u 58) with (@None Z).
    cbn iota. rewrite Z.eqb_refl. cbn [negb].
    etrans; [exact (parse_tail dst off t post pre _ Ht ltac:(lia))|].
    by apply finish_gap. }
  unfold inet_pton6. destruct pre as [|w pre]; [exact (P _)|].
  cbn [app]. destruct (hexcolons (w :: pre) ++ 58 :: t) as [|c s] eqn:Ec.
  { by destruct (hexcolons (w :: pre)). }
  assert (c <> 58) as Hne.
  { inversion_clear Hpre as [|?? Hw _]. unfold hexcolons in Ec. cbn [flat_map] in Ec.
    destruct (digits_spec 16 w) as (_ & R & N); [unfold is_u16 in *; lia..|].
    unfold fmt_x in Ec. destruct (digits 16 w) as [|d ds]; [done|].
    injection Ec as <- _. inversion_clear R as [|?? Hd _].
    unfold digit_char. zbool; lia. }
  destruct (Z.eqb_spec c 58); [done|]. exact (P _).
Qed.

(** ** The string inet_ntop6 builds is a presentation-format address *)

Fixpoint join (ws : list Z) : list Z :=
  match ws with
  | [] => []
  | w :: ws' => match ws' with [] => fmt_x w | _ => fmt_x w ++ 58 :: join ws' end
  end.

Lemma tail_join ws : Forall is_u16 ws -> tail_str (join ws) ws.
Proof.
  destruct ws as [|v ws] using rev_ind; intros H; [constructor|]. clear IHws.
  apply Forall_app in H as [H Hv]. inversion_clear Hv.
  replace (join (ws ++ [v])) with (hexcolons ws ++ fmt_x v); [by constructor|].
  clear H. induction ws as [|w ws IH]; [done|].
  unfold hexcolons. cbn [flat_map]. fold (hexcolons ws). rewrite <- !app_assoc. cbn [app].
  rewrite IH. simpl join. by destruct (ws ++ [v]) eqn:E; [destruct ws|].
Qed.

Definition trailing (best : run) : list Z :=
  if negb (r_base best =? -1) && (r_base best + r_len best =? 8) then [58] else [].

Definition address (ws : list Z) (best : run) (quad : list Z) : list Z :=
  render 0 ws best (nth 5 ws 0 =? 0xffff) quad ++ trailing best.

(** [s] is a compressed form of the eight words [ws]. *)
Definition compressed (s ws : list Z) : Prop :=
  exists pre post g t, Forall is_u16 pre /\ tail_str t post /\
    (length pre + length post + S g)%nat = 8%nat /\
    s = (match pre with [] => [58] | _ => [] end) ++ hexcolons pre ++ 58 :: t /\
    ws = pre ++ replicate (S g) 0 ++ post.

(** Unfold [address] for a concrete run, leaving the words symbolic. *)
Ltac eval_address :=
  cbv [address render trailing in_run v4_tail r_base r_len nth Z.eqb Z.leb Z.ltb Z.compare
       Z.add Z.opp Pos.eqb Pos.add Pos.succ Pos.compare Pos.compare_cont Pos.add_carry
       Z.of_nat Pos.of_succ_nat Z.pos_sub Z.succ_double Z.pred_double Z.double negb andb orb];
  cbn [app].

Lemma forallb_zeros (l : list Z) :
  forallb (fun w => w =? 0) l = true -> l = replicate (length l) 0.
Proof.
  induction l as [|w l IH]; simpl; [done|]. intros H.
  apply andb_prop in H as [E H]. rewrite Z.eqb_eq in E. subst. f_equal. by apply IH.
Qed.

Ltac finish_form :=
  eval_address; unfold hexcolons; cbn [flat_map join app];
  repeat progress (rewrite <- ?app_assoc; cbn [app]);
  rewrite ?app_nil_r; reflexivity.

Lemma address_plain w0 w1 w2 w3 w4 w5 w6 w7 len quad :
  address [w0; w1; w2; w3; w4; w5; w6; w7] (Run (-1) len) quad =
  hexcolons [w0; w1; w2; w3; w4; w5; w6] ++ fmt_x w7.
Proof.
  unfold address. generalize (nth 5 [w0; w1; w2; w3; w4; w5; w6; w7] 0 =? 65535). intros f5.
  finish_form.
Qed.

Lemma compressed_join pre g post s :
  Forall is_u16 (pre ++ post) -> (length pre + length post + S g)%nat = 8%nat ->
  s = (match pre with [] => [58] | _ => [] end) ++ hexcolons pre ++ 58 :: join post ->
  compressed s (pre ++ replicate (S g) 0 ++ post).
Proof.
  intros H Hl ->. apply Forall_app in H as [H1 H2].
  exists pre, post, g, (join post). auto using tail_join.
Qed.

Definition form_at (ws : list Z) (f5 : bool) (b l : nat) (quad : list Z) : Prop :=
  let s := render 0 ws (Run (Z.of_nat b) (Z.of_nat l)) f5 quad ++
           trailing (Run (Z.of_nat b) (Z.of_nat l)) in
  s = (match take b ws with [] => [58] | _ => [] end) ++ hexcolons (take b ws) ++
      58 :: (if Nat.eqb b 0 && (Nat.eqb l 6 || (Nat.eqb l 5 && f5))
             then hexcolons (drop l (take 6 ws)) ++ quad else join (drop (b + l) ws)).

(** The 28 runs a zero run can be, each by evaluating the loop. *)
Lemma form_at_ok w0 w1 w2 w3 w4 w5 w6 w7 f5 b l quad :
  (2 <= l)%nat -> (b + l <= 8)%nat -> form_at [w0; w1; w2; w3; w4; w5; w6; w7] f5 b l quad.
Proof.
  intros Hl Hbl. unfold form_at.
  do 7 (destruct b as [|b];
    [do 9 (destruct l as [|l];
      [try lia; change (Z.of_nat 0) with 0; cbn [Nat.eqb take drop Nat.add orb andb];
       destruct f5; finish_form|]); lia|]); lia.
Qed.

Lemma words8 (ws : list Z) :
  length ws = 8%nat -> exists w0 w1 w2 w3 w4 w5 w6 w7, ws = [w0; w1; w2; w3; w4; w5; w6; w7].
Proof.
  intros H. do 8 (destruct ws as [|? ws]; [done|]). destruct ws; [|done]. by repeat eexists.
Qed.

(** The dotted quad of the last two words. *)
Definition quad_of (ws : list Z) : list Z :=
  fmt_quad (nth 6 ws 0 / 256) (nth 6 ws 0 mod 256) (nth 7 ws 0 / 256) (nth 7 ws 0 mod 256).

Lemma quad_bytes w6 w7 :
  is_u16 w6 -> is_u16 w7 -> bytes4 (w6 / 256) (w6 mod 256) (w7 / 256) (w7 mod 256).
Proof. intros [??]%wbytes_range [??]%wbytes_range. done. Qed.

Lemma compressed_address ws b l :
  length ws = 8%nat -> Forall is_u16 ws -> run_ok ws (Run b l) = true -> b <> -1 ->
  compressed (address ws (Run b l) (quad_of ws)) ws.
Proof.
  intros Hl Hws Hr Hb. unfold run_ok in Hr. cbn [r_base r_len] in Hr.
  destruct (Z.eqb_spec b (-1)); [done|]. cbn [orb] in Hr.
  apply andb_prop in Hr as [Hr Hz]. apply andb_prop in Hr as [Hr H3].
  apply andb_prop in Hr as [H1 H2]. rewrite Z.leb_le in H1, H2, H3.
  apply forallb_zeros in Hz. rewrite length_take, length_drop, Hl in Hz.
  assert (exists bn ln, b = Z.of_nat bn /\ l = Z.of_nat ln) as (bn & ln & -> & ->).
  { exists (Z.to_nat b), (Z.to_nat l). lia. }
  rewrite !Nat2Z.id in Hz.
  rewrite Nat.min_l in Hz by lia.
  assert (ws = take bn ws ++ replicate ln 0 ++ drop (bn + ln) ws) as Hsplit.
  { rewrite <- Hz, <- drop_drop, take_drop, take_drop. done. }
  assert (Forall is_u16 (take bn ws)) as Hpre by (by apply Forall_take).
  assert (Forall is_u16 (drop (bn + ln) ws)) as Hpost by (by apply Forall_drop).
  destruct (words8 ws Hl) as (w0 & w1 & w2 & w3 & w4 & w5 & w6 & w7 & Ews).
  pose proof (form_at_ok w0 w1 w2 w3 w4 w5 w6 w7 (w5 =? 0xffff) bn ln (quad_of ws)
    ltac:(lia) ltac:(lia)) as HF. rewrite <- Ews in HF. unfold form_at in HF.
  assert (address ws (Run (Z.of_nat bn) (Z.of_nat ln)) (quad_of ws) =
    render 0 ws (Run (Z.of_nat bn) (Z.of_nat ln)) (w5 =? 65535) (quad_of ws) ++
    trailing (Run (Z.of_nat bn) (Z.of_nat ln))) as -> by (by rewrite Ews).
  rewrite HF. clear HF.
  exists (take bn ws), (drop (bn + ln) ws), (ln - 1)%nat. eexists.
  replace (S (ln - 1)) with ln by lia.
  split_and!; [done| |rewrite length_take, length_drop; lia|done|done].
  destruct (Nat.eqb bn 0 && (Nat.eqb ln 6 || Nat.eqb ln 5 && (w5 =? 65535))) eqn:E;
    [|by apply tail_join].
  apply andb_prop in E as [E0 E]. rewrite Nat.eqb_eq in E0. rewrite E0 in *.
  rewrite Ews in Hws. repeat match goal with H : Forall is_u16 (_ :: _) |- _ =>
    apply Forall_cons in H as [? H] end.
  assert (ln = 6%nat \/ ln = 5%nat) as [-> | ->].
  { destruct (Nat.eqb_spec ln 6); [by left|]. destruct (Nat.eqb_spec ln 5); [by right|done]. }
  all: rewrite Ews; unfold quad_of; cbn [drop take nth Nat.add].
  - pose proof (tail_quad [] _ _ _ _ ltac:(done) (quad_bytes w6 w7 ltac:(done) ltac:(done))) as T.
    by rewrite !wbytes_combine in T.
  - pose proof (tail_quad [w5] _ _ _ _ (proj2 (Forall_singleton is_u16 w5) ltac:(done))
      (quad_bytes w6 w7 ltac:(done) ltac:(done))) as T.
    by rewrite !wbytes_combine in T.
Qed.

(** ** Lengths: the string fits the 46-byte buffer with its NUL *)

Lemma fmt_x_u16_length w : is_u16 w -> (length (fmt_x w) <= 4)%nat.
Proof.
  intros Hw. apply fmt_x_length; [|done]. unfold is_u16 in Hw.
  change (16 ^ Z.of_nat 4) with 65536. lia.
Qed.

Lemma hexcolons_length ws : Forall is_u16 ws -> (length (hexcolons ws) <= 5 * length ws)%nat.
Proof.
  induction 1 as [|w ws Hw%fmt_x_u16_length H IH]; [done|].
  unfold hexcolons in *. simpl. rewrite !length_app. simpl. lia.
Qed.

Lemma tail_length t post : tail_str t post -> (length t <= 5 * length post + 6)%nat.
Proof.
  intros [|ws w H%hexcolons_length Hw%fmt_x_u16_length|ws a b c d H%hexcolons_length Hq%fmt_quad_length];
    rewrite ?length_app; simpl in *; lia.
Qed.

Lemma compressed_length s ws : compressed s ws -> (length s <= 45)%nat.
Proof.
  intros (pre & post & g & t & Hp%hexcolons_length & Ht%tail_length & Hl & -> & _).
  rewrite !length_app. simpl. destruct pre; simpl in *; lia.
Qed.

Lemma address_ok ws best :
  length ws = 8%nat -> Forall is_u16 ws -> run_ok ws best = true ->
  (length (address ws best (quad_of ws)) <= 45)%nat /\
  (compressed (address ws best (quad_of ws)) ws \/
   exists vs w, ws = vs ++ [w] /\ length vs = 7%nat /\
     address ws best (quad_of ws) = hexcolons vs ++ fmt_x w).
Proof.
  intros Hl Hws Hr. destruct best as [b l]. destruct (decide (b = -1)) as [->|Hb].
  - destruct (words8 ws Hl) as (w0 & w1 & w2 & w3 & w4 & w5 & w6 & w7 & ->).
    rewrite address_plain.
    change [w0; w1; w2; w3; w4; w5; w6; w7] with ([w0; w1; w2; w3; w4; w5; w6] ++ [w7]) in *.
    apply Forall_app in Hws as [H1%hexcolons_length H2].
    apply Forall_singleton, fmt_x_u16_length in H2. split; [|right; by do 2 eexists].
    rewrite length_app. simpl in *. lia.
  - pose proof (compressed_address ws b l Hl Hws Hr Hb) as C.
    split; [by eapply compressed_length|by left].
Qed.

(** The string inet_ntop6 prints for eight words. *)
Definition ntop6_str (ws : list Z) : list Z := address ws (ntop6_best ws) (quad_of ws).

Lemma render_nonzero ws i best f5 quad :
  Forall is_u16 ws -> Forall (fun c => c <> 0) quad ->
  Forall (fun c => c <> 0) (render i ws best f5 quad).
Proof.
  intros H Hq. revert i. induction H as [|w ws Hw H IH]; intros i; [constructor|].
  cbn [render]. assert (Forall (fun c => c <> 0) (fmt_x w)) by
    (apply fmt_x_nonzero; unfold is_u16 in Hw; lia).
  repeat case_match; rewrite ?Forall_app, ?Forall_cons; naive_solver.
Qed.

Lemma ntop6_str_nonzero ws :
  length ws = 8%nat -> Forall is_u16 ws -> Forall (fun c => c <> 0) (ntop6_str ws).
Proof.
  intros Hl Hws. unfold ntop6_str, address. apply Forall_app. split.
  - apply render_nonzero; [done|]. unfold quad_of.
    destruct (words8 ws Hl) as (w0 & w1 & w2 & w3 & w4 & w5 & w6 & w7 & ->).
    repeat match goal with H : Forall is_u16 (_ :: _) |- _ => apply Forall_cons in H as [? H] end.
    by apply fmt_quad_nonzero, quad_bytes.
  - unfold trailing. case_match; by repeat constructor.
Qed.

(** inet_ntop6 on every address: the string, or ENOSPC when it does not fit. *)
Lemma inet_ntop6_eq ws dst off size :
  length ws = 8%nat -> Forall is_u16 ws ->
  inet_ntop6 (bytes_of ws) dst off size =
  if size <? Z.of_nat (length (ntop6_str ws)) + 1 then Some (CNull ENOSPC)
  else dst' ← strcpy dst off (ntop6_str ws); Some (CPtr dst').
Proof.
  intros Hl Hws. unfold inet_ntop6.
  pose proof (ntop6_words_spec ws [] Hws) as Hw. rewrite Hl in Hw. cbn [app length] in Hw.
  change (2 * Z.of_nat 0) with 0 in Hw. change (2 * 8)%nat with 16%nat in Hw.
  rewrite Hw. cbn [mbind option_bind]. clear Hw.
  pose proof (ntop6_best_ok ws Hl) as Hr.
  destruct (address_ok ws _ Hl Hws Hr) as [Hlen _].
  pose proof (ntop6_str_nonzero ws Hl Hws) as Hnz.
  fold (ntop6_str ws) in Hlen. unfold ntop6_str in *. set (best := ntop6_best ws) in *.
  clearbody best.
  assert (exists w5 q0 q1 q2 q3, aread ws 5 = Some w5 /\ bytes4 q0 q1 q2 q3 /\
    aread (bytes_of ws) 12 = Some q0 /\ aread (bytes_of ws) 13 = Some q1 /\
    aread (bytes_of ws) 14 = Some q2 /\ aread (bytes_of ws) 15 = Some q3 /\
    quad_of ws = fmt_quad q0 q1 q2 q3 /\ nth 5 ws 0 = w5)
    as (w5 & q0 & q1 & q2 & q3 & E5 & Hq & R0 & R1 & R2 & R3 & Eq & En).
  { destruct (words8 ws Hl) as (w0 & w1 & w2 & w3 & w4 & w5 & w6 & w7 & ->).
    repeat match goal with H : Forall is_u16 (_ :: _) |- _ => apply Forall_cons in H as [? H] end.
    exists w5. do 4 eexists. split; [done|]. split; [by apply (quad_bytes w6 w7)|].
    by split_and!. }
  unfold address in *. rewrite Eq, En in *.
  rewrite length_app in Hlen.
  destruct (ntop6_format_render ws 0 (bytes_of ws) ws best (replicate 46 0) [] w5 q0 q1 q2 q3)
    as (tmp & tp & E & Hh & Ltmp & Htp);
    [done..|by eexists|done|simpl; lia|].
  cbn [length] in E. change (Z.of_nat 0) with 0 in E. rewrite E. cbn [mbind option_bind].
  cbn [app] in Hh, Htp. clear E.
  set (r := render 0 ws best (w5 =? 65535) (fmt_quad q0 q1 q2 q3)) in *. subst tp.
  unfold trailing in *.
  set (tr := negb (r_base best =? -1) && (r_base best + r_len best =? 8)) in *.
  assert (exists t, (if tr then t ← awrite tmp (Z.of_nat (length r)) 58;
                       Some (t, Z.of_nat (length r) + 1)
                     else Some (tmp, Z.of_nat (length r)))
      = Some (t, Z.of_nat (length (r ++ if tr then [58] else []))) /\
      holds t (r ++ if tr then [58] else []) /\ length t = 46%nat) as (t & -> & Ht & Lt).
  { destruct tr; [|exists tmp; by rewrite app_nil_r].
    destruct (awrite_holds tmp r 58 _ Hh eq_refl) as (t & E & Ht & Lt); [simpl in *; lia|].
    exists t. rewrite E. cbn [mbind option_bind]. split_and!; [|done|lia].
    rewrite length_app. do 2 f_equal. simpl. lia. }
  cbn [mbind option_bind]. set (s := r ++ if tr then [58] else []) in *.
  assert (length s <= 45)%nat by (unfold s; rewrite length_app; lia).
  destruct Ht as [rest ->]. destruct rest as [|x rest].
  { rewrite app_nil_r in Lt. lia. }
  rewrite awrite_app by done. cbn [mbind option_bind].
  assert (cstring_at (s ++ 0 :: rest) 0 = s) as ->; [|done].
  unfold cstring_at. simpl. by apply until_nul_app.
Qed.

(** ** Theorems *)

Lemma memcpy_whole (dst bs : list Z) : length bs = length dst -> memcpy dst 0 bs = Some bs.
Proof.
  intros H. pose proof (memcpy_app [] dst [] bs 0 eq_refl H) as E.
  by rewrite !app_nil_l, !app_nil_r in E.
Qed.

Lemma fmt_x_head w : is_u16 w -> exists c s, fmt_x w = c :: s /\ c <> 58.
Proof.
  intros Hw. destruct (digits_spec 16 w) as (_ & R & N); [unfold is_u16 in *; lia..|].
  unfold fmt_x. destruct (digits 16 w) as [|d ds]; [done|]. inversion_clear R as [|?? Hd _].
  simpl. do 2 eexists. split; [done|]. unfold digit_char. zbool; lia.
Qed.

Lemma inet_pton6_ntop6_str ws dst off :
  length ws = 8%nat -> Forall is_u16 ws ->
  inet_pton6 (ntop6_str ws) dst off =
  (dst' ← memcpy dst off (bytes_of ws); Some (1, dst')).
Proof.
  intros Hl Hws.
  destruct (address_ok ws _ Hl Hws (ntop6_best_ok ws Hl)) as [_ [C|(vs & w & -> & Hv & E)]];
    unfold ntop6_str.
  - destruct C as (pre & post & g & t & Hp & Ht & Hs & -> & ->).
    by apply inet_pton6_compressed.
  - rewrite E. destruct vs as [|v vs]; [done|].
    pose proof (Forall_inv Hws) as Hv0. destruct (fmt_x_head v Hv0) as (c & s & Ec & Hc).
    eapply inet_pton6_full; [done|done| |exact Hc].
    unfold hexcolons. cbn [flat_map]. by rewrite Ec.
Qed.

(** C2. Every IPv6 address survives printing and parsing: inet_ntop with room for
    46 bytes succeeds on all 2^128 addresses, and inet_pton of the text (with its
    "::" and its dotted-quad tails) gives the sixteen bytes back. *)
Theorem inet_pton6_ntop6 src dst size :
  length src = 16%nat -> Forall is_byte src -> 46 <= size <= Z.of_nat (length dst) ->
  exists dst', inet_ntop AF_INET6 src dst 0 size = Some (CPtr dst') /\
    inet_pton AF_INET6 (cstring_at dst' 0) (replicate 16 0) 0 = Some (1, None, src).
Proof.
  intros Hl Hb Hs. destruct (bytes_of_words 8 src Hl Hb) as (ws & Hw & R & ->).
  destruct (address_ok ws _ Hw R (ntop6_best_ok ws Hw)) as [Hlen _].
  fold (ntop6_str ws) in Hlen. unfold inet_ntop, inet_pton.
  change (AF_INET6 =? AF_INET) with false. rewrite Z.eqb_refl. cbn iota.
  rewrite inet_ntop6_eq by done. zbool.
  destruct (strcpy dst 0 (ntop6_str ws)) as [dst'|] eqn:E.
  - exists dst'. split; [done|].
    rewrite (cstring_at_strcpy _ _ _ _ E (ntop6_str_nonzero ws Hw R)).
    rewrite inet_pton6_ntop6_str by done.
    rewrite memcpy_whole by (rewrite Hl; done). done.
  - rewrite strcpy_ok in E by lia. done.
Qed.

Lemma inet_pton6_ntop6_witness :
  exists dst', inet_ntop AF_INET6 (replicate 10 0 ++ [255; 255; 10; 0; 0; 1]) (replicate 46 0) 0 46
      = Some (CPtr dst') /\
    inet_pton AF_INET6 (cstring_at dst' 0) (replicate 16 0) 0 =
      Some (1, None, replicate 10 0 ++ [255; 255; 10; 0; 0; 1]).
Proof.
  apply (inet_pton6_ntop6 (replicate 10 0 ++ [255; 255; 10; 0; 0; 1]) (replicate 46 0) 46);
    [reflexivity| |simpl; lia].
  apply (bool_decide_unpack _). by vm_compute.
Defined.

Lemma memcpy_frame (dst bs dst' : list Z) off size :
  memcpy dst off bs = Some dst' -> 0 <= off -> Z.of_nat (length bs) <= size ->
  take (Z.to_nat off) dst' = take (Z.to_nat off) dst /\
  drop (Z.to_nat (off + size)) dst' = drop (Z.to_nat (off + size)) dst.
Proof.
  unfold memcpy. intros H Ho Hs. case_match eqn:E; crush_hyps.
  apply andb_prop in E as [_ E]. rewrite Z.leb_le in E. split.
  - rewrite take_app_le by (rewrite length_take; lia). rewrite take_take. f_equal. lia.
  - rewrite app_assoc, drop_app_ge by (rewrite length_app, length_take; lia).
    rewrite length_app, length_take, drop_drop. f_equal. lia.
Qed.

(** inet_ntop6 stays inside its buffers: for every address and every size not
    larger than the caller's array, its 46-byte work area is never exceeded,
    and it either reports ENOSPC or writes only within the size it was given. *)
Theorem inet_ntop6_in_bounds src dst off size :
  length src = 16%nat -> Forall is_byte src ->
  0 <= off -> off + size <= Z.of_nat (length dst) ->
  exists r, inet_ntop6 src dst off size = Some r /\
    match r with
    | CNull e => e = ENOSPC
    | CPtr dst' => length dst' = length dst /\
        take (Z.to_nat off) dst' = take (Z.to_nat off) dst /\
        drop (Z.to_nat (off + size)) dst' = drop (Z.to_nat (off + size)) dst
    end.
Proof.
  intros Hl Hb Ho Hs. destruct (bytes_of_words 8 src Hl Hb) as (ws & Hw & R & ->).
  rewrite inet_ntop6_eq by done. destruct (Z.ltb_spec size (Z.of_nat (length (ntop6_str ws)) + 1)).
  { by eexists. }
  destruct (strcpy dst off (ntop6_str ws)) as [dst'|] eqn:E.
  - simpl. eexists. split; [done|]. split; [by eapply memcpy_Some_length|].
    eapply memcpy_frame; [exact E|done|]. rewrite length_app. simpl. lia.
  - rewrite strcpy_ok in E by lia. done.
Qed.

Lemma inet_ntop6_in_bounds_witness :
  exists r, inet_ntop6 (replicate 16 255) (replicate 20 7) 2 10 = Some r /\
    match r with
    | CNull e => e = ENOSPC
    | CPtr dst' => length dst' = 20%nat /\ take 2 dst' = take 2 (replicate 20 7) /\
        drop 12 dst' = drop 12 (replicate 20 7)
    end.
Proof.
  apply (inet_ntop6_in_bounds (replicate 16 255) (replicate 20 7) 2 10);
    [reflexivity| |lia|simpl; lia].
  apply (bool_decide_unpack _). by vm_compute.
Defined.

(** *** Safety of inet_pton6 on arbitrary strings *)

Record p6_inv (st : pton6_st) : Prop := {
  inv_tmp : length (p6_tmp st) = 16%nat;
  inv_tp : 0 <= p6_tp st <= 16;
  inv_colonp : match p6_colonp st with Some cp => 0 <= cp <= p6_tp st | None => True end }.

Lemma quad_ref_length s bs : quad_ref s = Some bs -> length bs = 4%nat.
Proof.
  unfold quad_ref. destruct (split_dots s). intros H. apply bind_Some in H as (? & _ & H).
  destruct (Nat.eqb_spec (length x) 4); crush_hyps; by simplify_eq.
Qed.

Lemma inet_pton4_safe src dst off :
  0 <= off -> off + 4 <= Z.of_nat (length dst) ->
  exists rc dst', inet_pton4 src dst off = Some (rc, dst') /\ length dst' = length dst /\
    (rc = 1 \/ rc = 0 /\ dst' = dst).
Proof.
  intros H1 H2. rewrite inet_pton4_eq. destruct (quad_ref src) as [bs|] eqn:E; [|by eauto 10].
  apply quad_ref_length in E.
  destruct (memcpy dst off bs) as [dst'|] eqn:M; simpl.
  - exists 1, dst'. split_and!; [done|by eapply memcpy_Some_length|by left].
  - unfold memcpy in M. zbool.
Qed.

Lemma put_val_safe tmp tp v :
  length tmp = 16%nat -> 0 <= tp -> tp + 2 <= 16 ->
  exists tmp', put_val tmp tp v = Some tmp' /\ length tmp' = 16%nat.
Proof.
  intros Hl H1 H2. unfold put_val.
  destruct (awrite_is_Some tmp tp (Z.land (u8 (Z.shiftr v 8)) 255)) as [t E]; [lia|].
  rewrite E. cbn [mbind option_bind]. apply awrite_Some_length in E.
  destruct (awrite_is_Some t (tp + 1) (Z.land (u8 v) 255)) as [t' E']; [lia|].
  exists t'. split; [done|]. apply awrite_Some_length in E'. lia.
Qed.

Lemma inet_pton6_loop_safe src st :
  p6_inv st ->
  exists r, inet_pton6_loop src st = Some r /\
    match r with inl rc => rc = 0 | inr st' => p6_inv st' end.
Proof.
  revert st. induction src as [|ch src IH]; intros st Hinv; [by eexists|].
  destruct st as [tp cp ct saw v tmp]. destruct Hinv as [H1 H2 H3].
  cbn [p6_tp p6_colonp p6_tmp] in *. cbn [inet_pton6_loop].
  fold (xval ch). destruct (xval ch) as [k|].
  { destruct (0xffff <? Z.lor (u32 (Z.shiftl v 4)) k).
    - by exists (inl 0).
    - apply IH. by constructor. }
  destruct (ch =? 58).
  - destruct saw; simpl.
    + unfold p6_endp, IN6ADDRSZ, INT16SZ. destruct (Z.ltb_spec 16 (tp + 2)); [by eexists|].
      destruct (put_val_safe tmp tp v) as (t & -> & Ht); [lia..|]. simpl.
      apply IH. constructor; simpl; [done|lia|]. destruct cp; lia || done.
    + destruct cp; [by eexists|]. apply IH. constructor; simpl; [done|lia|lia].
  - unfold p6_endp, IN6ADDRSZ, INADDRSZ.
    destruct (Z.leb_spec (tp + 4) 16); [|rewrite andb_false_r; by eexists].
    rewrite andb_true_r. destruct (ch =? 46); [|by eexists].
    destruct (inet_pton4_safe ct tmp tp) as (rc & t & -> & Ht & _); [lia..|]. simpl.
    destruct (0 <? rc); [|by exists (inl 0)]. eexists. split; [done|].
    constructor; simpl; [lia|lia|]. destruct cp; lia || done.
Qed.

Lemma pton6_shift_safe k i n cp tmp :
  length tmp = 16%nat -> 0 <= cp -> cp + n <= 16 -> 1 <= i -> i + Z.of_nat k = n + 1 ->
  exists tmp', pton6_shift k i n cp tmp = Some tmp' /\ length tmp' = 16%nat.
Proof.
  revert i tmp. induction k as [|k IH]; intros i tmp Hl H1 H2 H3 H4; simpl; [by eexists|].
  destruct (lookup_lt_is_Some_2 tmp (Z.to_nat (cp + (n - i)))) as [v Ev]; [lia|].
  unfold aread. destruct (Z.ltb_spec (cp + (n - i)) 0); [lia|]. rewrite Ev. simpl.
  unfold p6_endp, IN6ADDRSZ.
  destruct (awrite_is_Some tmp (16 - i) v) as [t E]; [lia|]. rewrite E. simpl.
  apply awrite_Some_length in E.
  destruct (awrite_is_Some t (cp + (n - i)) 0) as [t' E']; [lia|]. rewrite E'. simpl.
  apply awrite_Some_length in E'. apply IH; lia.
Qed.

Lemma memcpy_safe (dst bs : list Z) off :
  0 <= off -> off + Z.of_nat (length bs) <= Z.of_nat (length dst) ->
  exists dst', memcpy dst off bs = Some dst' /\ length dst' = length dst.
Proof.
  intros. destruct (memcpy dst off bs) as [dst'|] eqn:M.
  - exists dst'. split; [done|]. by eapply memcpy_Some_length.
  - unfold memcpy in M. zbool.
Qed.

Lemma pton6_finish_safe dst off st :
  p6_inv st -> 0 <= off -> off + 16 <= Z.of_nat (length dst) ->
  exists rc dst', pton6_finish dst off st = Some (rc, dst') /\ length dst' = length dst /\
    (rc = 1 \/ rc = 0 /\ dst' = dst).
Proof.
  destruct st as [tp cp ct saw v tmp]. intros [H1 H2 H3] Ho Hd. simpl in *.
  assert (exists r, (if saw then
         if p6_endp <? tp + INT16SZ then Some None
         else tmp1 ← put_val tmp tp v; Some (Some (tp + 2, tmp1))
       else Some (Some (tp, tmp))) = Some r /\
       match r with None => True
       | Some (tp1, t) => length t = 16%nat /\ tp <= tp1 <= 16 end) as (r & -> & Hr).
  { destruct saw; [|eexists; split; [done|]; simpl; lia].
    unfold p6_endp, IN6ADDRSZ, INT16SZ. destruct (Z.ltb_spec 16 (tp + 2)); [by eexists|].
    destruct (put_val_safe tmp tp v) as (t & -> & Ht); [lia..|].
    eexists; split; [done|]. simpl. lia. }
  cbn [mbind option_bind]. destruct r as [[tp1 t]|]; [|by eauto 10]. destruct Hr as [Ht Htp].
  destruct cp as [cp|].
  - destruct (pton6_shift_safe (Z.to_nat (tp1 - cp)) 1 (tp1 - cp) cp t) as (t' & -> & Ht'); [lia..|].
    cbn [mbind option_bind]. rewrite Z.eqb_refl. cbn [negb].
    destruct (memcpy_safe dst t' off) as (d & -> & Hd'); [lia..|]. simpl. eauto 10.
  - cbn [mbind option_bind]. destruct (tp1 =? p6_endp); simpl; [|by eauto 10].
    destruct (memcpy_safe dst t off) as (d & -> & Hd'); [lia..|]. simpl. eauto 10.
Qed.

Lemma inet_pton6_safe src dst off :
  0 <= off -> off + 16 <= Z.of_nat (length dst) ->
  exists rc d, inet_pton6 src dst off = Some (rc, d) /\ length d = length dst /\
    (rc = 1 \/ rc = 0 /\ d = dst).
Proof.
  intros Ho Hd.
  assert (forall s ct, exists rc d, parse_from dst off s (Pton6 0 None ct false 0 (replicate 16 0))
    = Some (rc, d) /\ length d = length dst /\ (rc = 1 \/ rc = 0 /\ d = dst)) as P.
  { intros s ct. unfold parse_from.
    destruct (inet_pton6_loop_safe s (Pton6 0 None ct false 0 (replicate 16 0)))
      as ([rc|st] & -> & Hr); [by constructor; simpl|..]; simpl.
    - subst. eauto 10.
    - by apply pton6_finish_safe. }
  unfold inet_pton6. destruct src as [|c src]; [exact (P [] [])|].
  destruct (c =? 58); [|exact (P (c :: src) (c :: src))].
  destruct src as [|c' src]; [by eauto 10|].
  destruct (c' =? 58); [exact (P (c' :: src) (c' :: src))|by eauto 10].
Qed.

(** inet_pton is memory safe on every string and family: given 16 bytes of
    room at dst it returns 1, or 0 or -1 (with EAFNOSUPPORT) leaving dst as it
    was, and never reads or writes outside an array. *)
Theorem inet_pton_safe af src dst off :
  0 <= off -> off + 16 <= Z.of_nat (length dst) ->
  exists rc e dst', inet_pton af src dst off = Some (rc, e, dst') /\
    length dst' = length dst /\ (rc = 1 /\ e = None \/
      rc = 0 /\ e = None /\ dst' = dst \/ rc = -1 /\ e = Some EAFNOSUPPORT /\ dst' = dst).
Proof.
  intros Ho Hd. unfold inet_pton. destruct (af =? AF_INET); [|destruct (af =? AF_INET6)].
  - destruct (inet_pton4_safe src dst off) as (rc & d & -> & ? & ?); [lia..|].
    eexists _, None, _. split; [done|]. intuition.
  - destruct (inet_pton6_safe src dst off) as (rc & d & -> & ? & ?); [lia..|].
    eexists _, None, _. split; [done|]. intuition.
  - eexists _, _, _. split; [done|]. intuition.
Qed.

Lemma inet_pton_safe_witness :
  exists rc e dst', inet_pton AF_INET6 (str "1:2:::3%") (replicate 16 0) 0 = Some (rc, e, dst') /\
    length dst' = 16%nat /\ (rc = 1 /\ e = None \/
      rc = 0 /\ e = None /\ dst' = replicate 16 0 \/
      rc = -1 /\ e = Some EAFNOSUPPORT /\ dst' = replicate 16 0).
Proof.
  apply (inet_pton_safe AF_INET6 (str "1:2:::3%") (replicate 16 0) 0); simpl; lia.
Defined.

(** A "::" in an address that already has eight groups is not ignored, as the
    comment in inet_pton6 has it: the groups after it are replaced by zeros. *)
Theorem inet_pton6_full_double_colon dst off pre post t :
  Forall is_u16 pre -> tail_str t post -> (length pre + length post)%nat = 8%nat -> pre <> [] ->
  inet_pton6 (hexcolons pre ++ 58 :: t) dst off =
  (dst' ← memcpy dst off (bytes_of (pre ++ replicate (length post) 0)); Some (1, dst')).
Proof.
  intros Hpre Ht Hl Hne.
  assert (forall ct, parse_from dst off (hexcolons pre ++ 58 :: t) (Pton6 0 None ct false 0 (arr [])) =
    (dst' ← memcpy dst off (bytes_of (pre ++ replicate (length post) 0)); Some (1, dst'))) as P.
  { intros ct. unfold parse_from.
    destruct (pton6_loop_hexcolons pre [] (58 :: t) None ct Hpre) as (ct' & E & _);
      [simpl; lia|].
    change (2 * Z.of_nat (length (@nil Z))) with 0 in E. cbn [app] in E.
    rewrite E. cbn [inet_pton6_loop].
    change (strchr xdigits_l 58) with (@None Z). change (strchr xdigits_u 58) with (@None Z).
    cbn iota. rewrite Z.eqb_refl. cbn [negb].
    etrans; [exact (parse_tail dst off t post pre _ Ht ltac:(lia))|].
    unfold finish_addr, arr. cbn [mbind option_bind pton6_finish].
    rewrite bytes_of_app, <- app_assoc, length_app.
    replace (Z.to_nat (2 * Z.of_nat (length pre + length post) - 2 * Z.of_nat (length pre)))
      with (length (bytes_of post)) by (rewrite bytes_of_length; lia).
    rewrite pton6_shift_full by (rewrite ?bytes_of_length; lia).
    cbn [mbind option_bind]. rewrite Z.eqb_refl. cbn [negb].
    rewrite bytes_of_app, bytes_of_zeros, bytes_of_length.
    replace (16 - 2 * (length pre + length post))%nat with 0%nat by lia. by rewrite app_nil_r. }
  unfold inet_pton6. destruct pre as [|w pre]; [done|].
  destruct (fmt_x_head w (Forall_inv Hpre)) as (c & s & Ec & Hc).
  assert (exists s', hexcolons (w :: pre) ++ 58 :: t = c :: s') as (s' & Es).
  { unfold hexcolons. cbn [flat_map]. rewrite Ec. by eexists. }
  specialize (P (hexcolons (w :: pre) ++ 58 :: t)). rewrite Es in *.
  destruct (Z.eqb_spec c 58); [done|]. exact P.
Qed.

(** "1:2:3:4::5:6:7:8" is read as 1:2:3:4:0:0:0:0. *)
Lemma inet_pton6_full_double_colon_witness :
  inet_pton6 (str "1:2:3:4::5:6:7:8") (replicate 16 9) 0 =
  Some (1, bytes_of [1; 2; 3; 4; 0; 0; 0; 0]).
Proof.
  assert (Forall is_u16 [1; 2; 3; 4]) as H1 by (apply (bool_decide_unpack _); by vm_compute).
  assert (tail_str (str "5:6:7:8") ([5; 6; 7] ++ [8])) as H2.
  { apply (tail_words [5; 6; 7] 8); [apply (bool_decide_unpack _); by vm_compute|].
    unfold is_u16. lia. }
  exact (inet_pton6_full_double_colon (replicate 16 9) 0 [1; 2; 3; 4] [5; 6; 7; 8] (str "5:6:7:8")
    H1 H2 eq_refl ltac:(done)).
Defined.

End V6.
