(* ===== verification/Checksum.v ===== *)
(** * The Internet checksum (libfree/in_cksum.c) and timeval subtraction
      (lib/tv_sub.c)

    [in_cksum] is translated at the widths of the C code: a 32-bit accumulator
    that wraps, 16-bit loads in the byte order of the host, the odd byte stored
    through an [unsigned char] pointer.  The reference it is compared with is
    the one's complement sum of RFC 1071, a fold of end-around-carry additions. *)
From stdpp Require Import base list numbers.
From S2P Require Import Prelude InetAddr.

Module Cksum.

(** *(uint16_t * )p for two bytes in memory. *)
Definition load16 `{Platform} (b0 b1 : Z) : Z :=
  if big_endian then b0 * 256 + b1 else b1 * 256 + b0.

(** The two bytes of a uint16_t in memory. *)
Definition store16 `{Platform} (w : Z) : list Z :=
  if big_endian then [w / 256 mod 256; w mod 256] else [w mod 256; w / 256 mod 256].

(** The while loop: the bytes at [w], [nleft] and [sum] when it ends. *)
Fixpoint in_cksum_loop `{Platform} (w : list Z) (nleft sum : Z) : option (list Z * Z * Z) :=
  if 1 <? nleft then
    match w with
    | b0 :: b1 :: w' => in_cksum_loop w' (nleft - 2) (u32 (sum + load16 b0 b1))
    | _ => None
    end
  else Some (w, nleft, sum).

(** sum = (sum >> 16) + (sum & 0xffff); sum += (sum >> 16); *)
Definition fold_carry (sum : Z) : Z :=
  let sum1 := u32 (Z.shiftr sum 16 + Z.land sum 0xffff) in
  u32 (sum1 + Z.shiftr sum1 16).

Definition in_cksum `{Platform} (addr : list Z) (len : Z) : option Z :=
  '(w, nleft, sum) ← in_cksum_loop addr len 0;
  sum1 ← (if nleft =? 1 then
            b ← aread w 0;
            (* answer was 0; the byte goes to its first byte in memory *)
            let answer := load16 b 0 in
            Some (u32 (sum + answer))
          else Some sum);
  Some (u16 (Z.lnot (fold_carry sum1))).

(** struct timeval; tv_sub(out, in). *)
Record timeval := Timeval { tv_sec : Z; tv_usec : Z }.

Definition tv_sub (out tin : timeval) : timeval :=
  let usec := tv_usec out - tv_usec tin in
  let out1 := if usec <? 0 then Timeval (tv_sec out - 1) (usec + 1000000)
              else Timeval (tv_sec out) usec in
  Timeval (tv_sec out1 - tv_sec tin) (tv_usec out1).

(** ** The reference: RFC 1071 *)

(** End-around-carry addition of two 16-bit words. *)
Definition add1c (a b : Z) : Z := let s := a + b in if 65535 <? s then s - 65535 else s.

(** The 16-bit words of a byte string, an odd last byte padded with zero. *)
Fixpoint words16 `{Platform} (bs : list Z) : list Z :=
  match bs with
  | [] => []
  | [b] => [load16 b 0]
  | b0 :: b1 :: bs' => load16 b0 b1 :: words16 bs'
  end.

Definition rfc1071 `{Platform} (bs : list Z) : Z := 65535 - foldr add1c 0 (words16 bs).

(** ** One's complement residues

    A value of [0, 65535] is determined by its residue modulo 65535 and by
    whether it is zero; both sides of the equivalence are such values for the
    same total. *)

Definition residue (total r : Z) : Prop :=
  0 <= r <= 65535 /\ r mod 65535 = total mod 65535 /\ (r = 0 <-> total = 0).

Lemma residue_unique t r1 r2 : residue t r1 -> residue t r2 -> r1 = r2.
Proof.
  intros (H1 & E1 & Z1) (H2 & E2 & Z2).
  destruct (decide (r1 = 65535)) as [->|N1], (decide (r2 = 65535)) as [->|N2]; try done.
  - rewrite (Z.mod_small r2) in E2 by lia. rewrite Z_mod_same_full in E1. lia.
  - rewrite (Z.mod_small r1) in E1 by lia. rewrite Z_mod_same_full in E2. lia.
  - rewrite Z.mod_small in E1, E2 by lia. lia.
Qed.

Lemma add1c_residue t a b : 0 <= t -> residue t a -> is_u16 b -> residue (b + t) (add1c b a).
Proof.
  unfold residue, is_u16, add1c. intros Ht (H1 & E & Z1) Hb.
  destruct (Z.ltb_spec 65535 (b + a)); (split; [lia|]); (split; [|lia]).
  - rewrite (Z.add_mod b t), <- E, <- Z.add_mod by lia.
    replace (b + a - 65535) with (b + a + (-1) * 65535) by lia. by rewrite Z.mod_add.
  - by rewrite (Z.add_mod b t), <- E, <- Z.add_mod by lia.
Qed.

Definition sumZ (l : list Z) : Z := foldr Z.add 0 l.

Lemma sumZ_nonneg l : Forall is_u16 l -> 0 <= sumZ l <= 65535 * Z.of_nat (length l).
Proof.
  unfold is_u16. induction 1; cbn [sumZ foldr length]; [lia|]. unfold sumZ in *. lia.
Qed.

Lemma foldr_add1c_residue l : Forall is_u16 l -> residue (sumZ l) (foldr add1c 0 l).
Proof.
  induction 1 as [|w l Hw Hl IH]; [done|].
  apply add1c_residue; [apply sumZ_nonneg|done..]. done.
Qed.

Lemma fold_carry_residue s : is_u32 s -> residue s (u16 (fold_carry s)).
Proof.
  unfold is_u32, fold_carry. intros Hs. rewrite !Z.shiftr_div_pow2 by lia.
  change 0xffff with (Z.ones 16). rewrite Z.land_ones by lia.
  change (2 ^ 16) with 65536. set (hi := s / 65536). set (lo := s mod 65536).
  assert (s = 65536 * hi + lo) as E by (apply Z.div_mod; lia).
  assert (0 <= lo < 65536) as Hlo by (apply Z.mod_pos_bound; lia).
  assert (0 <= hi < 65536) as Hhi by (change (2 ^ 32) with (65536 * 65536) in Hs; lia).
  cbv zeta. rewrite (u32_small (hi + lo)) by (unfold is_u32; lia).
  assert ((hi + lo) / 65536 = if 65535 <? hi + lo then 1 else 0) as ->.
  { destruct (Z.ltb_spec 65535 (hi + lo)); [|by apply Z.div_small; lia].
    symmetry. apply Z.div_unique with (hi + lo - 65536); lia. }
  rewrite u32_small by (unfold is_u32; destruct (_ <? _); lia).
  assert (s mod 65535 = (hi + lo) mod 65535) as R.
  { rewrite E. replace (65536 * hi + lo) with (hi + lo + hi * 65535) by lia.
    by rewrite Z.mod_add. }
  unfold residue. rewrite R. clearbody hi lo. destruct (Z.ltb_spec 65535 (hi + lo)).
  - replace (u16 (hi + lo + 1)) with (hi + lo - 65535).
    + split; [lia|]. split; [|lia].
      replace (hi + lo - 65535) with (hi + lo + (-1) * 65535) by lia. by rewrite Z.mod_add.
    + unfold u16, wrap. change (2 ^ 16) with 65536.
      apply Z.mod_unique with 1; lia.
  - rewrite Z.add_0_r, u16_small by (unfold is_u16; lia). split; [lia|]. split; [done|lia].
Qed.

Lemma u16_lnot x : u16 (Z.lnot x) = 65535 - u16 x.
Proof.
  unfold Z.lnot, u16, wrap. change (2 ^ 16) with 65536.
  pose proof (Z.div_mod x 65536 ltac:(lia)). pose proof (Z.mod_pos_bound x 65536 ltac:(lia)).
  symmetry. apply Z.mod_unique with (- (x / 65536) - 1); lia.
Qed.

(** ** The loop computes the sum of the words *)

Lemma load16_range `{Platform} a b : is_byte a -> is_byte b -> is_u16 (load16 a b).
Proof. unfold is_byte, is_u16, load16. destruct big_endian; lia. Qed.

Lemma words16_range `{Platform} bs : Forall is_byte bs -> Forall is_u16 (words16 bs).
Proof.
  induction bs as [|a|a b bs IH] using list_ind2; intros Hb; simpl; [done|..].
  - inversion_clear Hb. repeat constructor; apply load16_range; done.
  - inversion_clear Hb as [|? ? ? Hb']. inversion_clear Hb'. constructor; auto using load16_range.
Qed.

Lemma words16_length `{Platform} bs :
  2 * Z.of_nat (length (words16 bs)) <= Z.of_nat (length bs) + 1.
Proof. induction bs as [|a|a b bs IH] using list_ind2; [done|done|]. cbn [words16 length] in *. lia. Qed.

Lemma words16_sum_range `{Platform} bs :
  Forall is_byte bs -> Z.of_nat (length bs) <= 131074 -> is_u32 (sumZ (words16 bs)).
Proof.
  intros Hb Hl. pose proof (sumZ_nonneg _ (words16_range bs Hb)).
  pose proof (words16_length bs). unfold is_u32. lia.
Qed.

Lemma in_cksum_loop_sum `{Platform} w sum :
  Forall is_byte w -> 0 <= sum -> is_u32 (sum + sumZ (words16 w)) ->
  exists w' n s, in_cksum_loop w (Z.of_nat (length w)) sum = Some (w', n, s) /\
    (n = 0 /\ s = sum + sumZ (words16 w) \/
     n = 1 /\ exists b, w' = [b] /\ s + load16 b 0 = sum + sumZ (words16 w)).
Proof.
  revert sum. induction w as [|a|a b w IH] using list_ind2; intros sum Hw Hs Hr.
  - eexists _, _, _. split; [done|]. left. simpl. lia.
  - eexists _, _, _. split; [done|]. right. split; [done|]. exists a. split; [done|]. simpl. lia.
  - inversion_clear Hw as [|? ? Ha Hw']. inversion_clear Hw' as [|? ? Hb Hw].
    pose proof (load16_range a b Ha Hb) as Hl. pose proof (sumZ_nonneg _ (words16_range w Hw)).
    cbn [words16 sumZ foldr length] in *. fold (sumZ (words16 w)) in *.
    unfold is_u16, is_u32 in *.
    cbn [in_cksum_loop]. destruct (Z.ltb_spec 1 (Z.of_nat (S (S (length w))))); [|lia].
    rewrite u32_small by (unfold is_u32; lia).
    replace (Z.of_nat (S (S (length w))) - 2) with (Z.of_nat (length w)) by lia.
    destruct (IH (sum + load16 a b) Hw) as (w' & n & s & E & Hn); [lia..|].
    exists w', n, s. split; [done|]. rewrite Z.add_assoc. done.
Qed.

(** [in_cksum] is the complement of a residue of the sum of the words. *)
Lemma in_cksum_residue `{Platform} bs :
  Forall is_byte bs -> Z.of_nat (length bs) <= 131074 ->
  exists r, in_cksum bs (Z.of_nat (length bs)) = Some (65535 - r) /\
    residue (sumZ (words16 bs)) r.
Proof.
  intros Hb Hl. pose proof (words16_sum_range bs Hb Hl) as Hr.
  exists (u16 (fold_carry (sumZ (words16 bs)))). split; [|by apply fold_carry_residue].
  destruct (in_cksum_loop_sum bs 0 Hb) as (w & n & s & E & Hn); [lia|by rewrite Z.add_0_l|].
  unfold in_cksum. rewrite E. cbn [mbind option_bind]. rewrite Z.add_0_l in Hn.
  destruct Hn as [[-> ->]|[-> (b & -> & Es)]].
  - change (0 =? 1) with false. cbn [mbind option_bind]. by rewrite u16_lnot.
  - change (1 =? 1) with true. change (aread [b] 0) with (Some b). cbn [mbind option_bind].
    cbv zeta. rewrite Es, u32_small by done. by rewrite u16_lnot.
Qed.

Lemma in_cksum_rfc1071_eq `{Platform} bs :
  Forall is_byte bs -> Z.of_nat (length bs) <= 131074 ->
  in_cksum bs (Z.of_nat (length bs)) = Some (rfc1071 bs).
Proof.
  intros Hb Hl. destruct (in_cksum_residue bs Hb Hl) as (r & -> & Hr).
  unfold rfc1071. do 2 f_equal. eapply residue_unique; [done|].
  by apply foldr_add1c_residue, words16_range.
Qed.

(** Only the first [len] bytes are read. *)
Lemma in_cksum_loop_app `{Platform} bs rest sum :
  Nat.Even (length bs) ->
  in_cksum_loop (bs ++ rest) (Z.of_nat (length bs)) sum =
  '(w, n, s) ← in_cksum_loop bs (Z.of_nat (length bs)) sum; Some (w ++ rest, n, s).
Proof.
  revert sum. induction bs as [|a|a b bs IH] using list_ind2; intros sum He.
  - by destruct rest as [|? [|? ?]].
  - destruct He as [k Hk]. simpl in Hk. lia.
  - cbn [app in_cksum_loop length]. destruct (Z.ltb_spec 1 (Z.of_nat (S (S (length bs))))); [|lia].
    replace (Z.of_nat (S (S (length bs))) - 2) with (Z.of_nat (length bs)) by lia. apply IH.
    destruct He as [k Hk]. exists (k - 1)%nat. simpl in Hk. lia.
Qed.

Lemma in_cksum_app `{Platform} bs rest :
  Nat.Even (length bs) -> Forall is_byte bs -> Z.of_nat (length bs) <= 131074 ->
  in_cksum (bs ++ rest) (Z.of_nat (length bs)) = in_cksum bs (Z.of_nat (length bs)).
Proof.
  intros He Hb Hl. unfold in_cksum. rewrite in_cksum_loop_app by done.
  destruct (in_cksum_loop_sum bs 0 Hb) as (w & n & s & E & Hn);
    [lia|by rewrite Z.add_0_l; apply words16_sum_range|].
  rewrite E. cbn [mbind option_bind]. destruct Hn as [[-> _]|[-> (b & -> & _)]]; done.
Qed.

(** ** Byte order and verification *)

Lemma load16_swap p q b0 b1 :
  @big_endian p = negb (@big_endian q) -> @load16 p b0 b1 = @load16 q b1 b0.
Proof. unfold load16. intros ->. by destruct (@big_endian q). Qed.

Lemma load16_mod b0 b1 : (b1 * 256 + b0) mod 65535 = (256 * (b0 * 256 + b1)) mod 65535.
Proof.
  replace (256 * (b0 * 256 + b1)) with (b1 * 256 + b0 + b0 * 65535) by lia.
  by rewrite Z.mod_add.
Qed.

Lemma words16_swap_mod bs :
  sumZ (@words16 x86_64 bs) mod 65535 = (256 * sumZ (@words16 sparc64 bs)) mod 65535.
Proof.
  induction bs as [|a|a b bs IH] using list_ind2; [done|..].
  - simpl. rewrite !Z.add_0_r. apply load16_mod.
  - cbn [words16 sumZ foldr]. fold (sumZ (@words16 x86_64 bs)) (sumZ (@words16 sparc64 bs)).
    rewrite Z.mul_add_distr_l, Z.add_mod, IH, (Z.add_mod (256 * _)) by done.
    do 2 f_equal. apply load16_mod.
Qed.

Lemma words16_swap_zero bs :
  Forall is_byte bs -> sumZ (@words16 x86_64 bs) = 0 <-> sumZ (@words16 sparc64 bs) = 0.
Proof.
  induction bs as [|a|a b bs IH] using list_ind2; intros Hb; [done|..].
  - inversion_clear Hb. unfold load16, is_byte in *. simpl. unfold load16. simpl. lia.
  - inversion_clear Hb as [|? ? Ha Hb']. inversion_clear Hb' as [|? ? Hb Hw].
    pose proof (sumZ_nonneg _ (@words16_range x86_64 bs Hw)).
    pose proof (sumZ_nonneg _ (@words16_range sparc64 bs Hw)).
    specialize (IH Hw). unfold is_byte in *.
    cbn [words16 sumZ foldr]. fold (sumZ (@words16 x86_64 bs)) (sumZ (@words16 sparc64 bs)).
    unfold load16. cbn [big_endian x86_64 sparc64]. lia.
Qed.

Lemma swap_residue t t' r :
  t' mod 65535 = (256 * t) mod 65535 -> (t' = 0 <-> t = 0) ->
  residue t r -> residue t' (swap16 r).
Proof.
  intros E Z0 (H1 & E1 & H0). unfold residue. rewrite E.
  pose proof (swap16_range r) as Hs. unfold is_u16 in Hs. split; [lia|].
  assert (r = 256 * (r / 256) + r mod 256) as D by (apply Z.div_mod; lia).
  pose proof (Z.mod_pos_bound r 256 ltac:(lia)). assert (0 <= r / 256 < 256) by lia.
  unfold swap16. rewrite (Z.mod_small (r / 256)) by lia. split.
  - rewrite load16_mod, Z.mul_mod, (Z.mul_mod 256 t), <- E1 by lia.
    do 3 f_equal. lia.
  - lia.
Qed.

Lemma byte_parts r : 0 <= r <= 65535 ->
  exists h l, r = h * 256 + l /\ is_byte h /\ is_byte l.
Proof.
  intros Hr. exists (r / 256), (r mod 256). unfold is_byte.
  pose proof (Z.mod_pos_bound r 256 ltac:(lia)). pose proof (Z.div_mod r 256 ltac:(lia)). lia.
Qed.

Lemma store16_compl r : 0 <= r <= 65535 ->
  @store16 x86_64 (65535 - swap16 r) = @store16 sparc64 (65535 - r).
Proof.
  intros Hr. destruct (byte_parts r Hr) as (h & l & -> & Hh & Hl).
  unfold store16, swap16. cbn [big_endian x86_64 sparc64].
  rewrite mod_256, div_256 by done. rewrite (Z.mod_small h) by done.
  replace (65535 - (l * 256 + h)) with ((255 - l) * 256 + (255 - h)) by lia.
  replace (65535 - (h * 256 + l)) with ((255 - h) * 256 + (255 - l)) by lia.
  unfold is_byte in *. rewrite !mod_256, !div_256 by (unfold is_byte; lia).
  by rewrite !Z.mod_small by lia.
Qed.

Lemma store16_bytes `{Platform} w : Forall is_byte (store16 w).
Proof.
  unfold store16, is_byte.
  destruct big_endian; repeat constructor; apply Z.mod_pos_bound; lia.
Qed.

Lemma words16_app `{Platform} l r :
  Nat.Even (length l) -> words16 (l ++ r) = words16 l ++ words16 r.
Proof.
  induction l as [|a|a b l IH] using list_ind2; intros He; [done|..].
  - destruct He. simpl in *. lia.
  - cbn [app words16]. f_equal. apply IH. destruct He as [k Hk]. exists (k - 1)%nat.
    simpl in Hk. lia.
Qed.

Lemma words16_store16 `{Platform} w : 0 <= w <= 65535 -> words16 (store16 w) = [w].
Proof.
  intros Hw. destruct (byte_parts w Hw) as (h & l & -> & Hh & Hl). unfold store16.
  rewrite mod_256, div_256, (Z.mod_small h) by done.
  by destruct big_endian eqn:E; simpl; unfold load16; rewrite E.
Qed.

Lemma sumZ_app l r : sumZ (l ++ r) = sumZ l + sumZ r.
Proof. induction l; simpl in *; [done|]. unfold sumZ in *. simpl. lia. Qed.

(** Storing in a zero field the complement of the residue makes the total's
    residue 65535. *)
Lemma residue_complete t r r' :
  0 <= t -> residue t r -> residue (t + (65535 - r)) r' -> r' = 65535.
Proof.
  intros Ht (H1 & E1 & Z1) (H2 & E2 & Z2).
  assert ((t + (65535 - r)) mod 65535 = 0) as E.
  { rewrite Z.add_mod, <- E1, <- Z.add_mod by lia.
    replace (r + (65535 - r)) with 65535 by lia. done. }
  rewrite E in E2. destruct (decide (r' = 65535)); [done|].
  rewrite Z.mod_small in E2 by lia. lia.
Qed.

(** C3. in_cksum computes the Internet checksum: on a buffer of at most
    131,074 bytes its value is the complement of the RFC 1071 one's complement
    sum of the 16-bit words, on a host of either byte order, with an odd last
    byte padded, and the 32-bit accumulator does not wrap. *)
Theorem in_cksum_is_rfc1071 `{Platform} bs :
  Forall is_byte bs -> Z.of_nat (length bs) <= 131074 ->
  in_cksum bs (Z.of_nat (length bs)) = Some (rfc1071 bs).
Proof. apply in_cksum_rfc1071_eq. Qed.

Lemma in_cksum_is_rfc1071_witness :
  @in_cksum x86_64 [1; 2; 255] 3 = Some (@rfc1071 x86_64 [1; 2; 255]).
Proof.
  apply (@in_cksum_is_rfc1071 x86_64 [1; 2; 255]); [|done].
  repeat constructor; unfold is_byte; lia.
Defined.

(** The checksum does not depend on the byte order of the host: stored in
    memory, the value a little-endian host computes is byte for byte the value
    a big-endian host computes. *)
Theorem in_cksum_byte_order bs c :
  Forall is_byte bs -> Z.of_nat (length bs) <= 131074 ->
  @in_cksum sparc64 bs (Z.of_nat (length bs)) = Some c ->
  exists c', @in_cksum x86_64 bs (Z.of_nat (length bs)) = Some c' /\
    @store16 x86_64 c' = @store16 sparc64 c.
Proof.
  intros Hb Hl E.
  destruct (@in_cksum_residue sparc64 bs Hb Hl) as (r & E1 & R1).
  destruct (@in_cksum_residue x86_64 bs Hb Hl) as (r' & E2 & R2).
  rewrite E1 in E. injection E as <-. exists (65535 - r'). split; [done|].
  pose proof (proj1 R1).
  apply swap_residue with (t' := sumZ (@words16 x86_64 bs)) in R1;
    [|apply words16_swap_mod|by apply words16_swap_zero].
  rewrite (residue_unique _ _ _ R2 R1). by apply store16_compl.
Qed.

Lemma in_cksum_byte_order_witness :
  exists c', @in_cksum x86_64 [69; 0; 7] 3 = Some c' /\
    @store16 x86_64 c' = @store16 sparc64 46079.
Proof.
  apply (in_cksum_byte_order [69; 0; 7] 46079); [|done|done].
  repeat constructor; unfold is_byte; lia.
Defined.

(** The checksum of a packet that stores its own checksum. *)
Lemma in_cksum_complete `{Platform} pre post c :
  Forall is_byte pre -> Forall is_byte post -> Nat.Even (length pre) ->
  Z.of_nat (length (pre ++ [0; 0] ++ post)) <= 131074 ->
  in_cksum (pre ++ [0; 0] ++ post) (Z.of_nat (length (pre ++ [0; 0] ++ post))) = Some c ->
  in_cksum (pre ++ store16 c ++ post) (Z.of_nat (length (pre ++ store16 c ++ post))) = Some 0.
Proof.
  intros Hpre Hpost He Hl E.
  assert (Forall is_byte (pre ++ [0; 0] ++ post)) as Hb
    by (rewrite !Forall_app; split_and!; [done|repeat constructor|done]; unfold is_byte; lia).
  destruct (in_cksum_residue _ Hb Hl) as (r & E1 & R1). rewrite E1 in E. injection E as <-.
  assert (length (store16 (65535 - r)) = 2%nat) as H2 by (unfold store16; by destruct big_endian).
  assert (Nat.Even (length (store16 (65535 - r)))) as He2 by (rewrite H2; by exists 1%nat).
  destruct (in_cksum_residue (pre ++ store16 (65535 - r) ++ post)) as (r' & -> & R2).
  { rewrite !Forall_app. auto using store16_bytes. }
  { rewrite !length_app, H2 in *. simpl in Hl. lia. }
  pose proof (sumZ_nonneg _ (words16_range _ Hb)) as Hn.
  rewrite !words16_app, !sumZ_app in * by (done || by exists 1%nat).
  rewrite words16_store16 in R2 by (destruct R1; lia).
  assert (sumZ (words16 [0; 0]) = 0) as E0 by (unfold words16, load16; by destruct big_endian).
  rewrite E0 in *. rewrite (residue_complete _ r r' (proj1 Hn) R1); [done|].
  replace (_ + _) with (sumZ (words16 pre) + (sumZ [65535 - r] + sumZ (words16 post))); [done|].
  unfold sumZ at 2. simpl. lia.
Qed.

(** Checksum verification: a packet whose 16-bit checksum field (at an even
    offset) was zero when its checksum was computed and which then stores that
    checksum in the field has checksum zero, whatever the byte order of the
    host. *)
Theorem in_cksum_verifies `{Platform} pre post c :
  Forall is_byte pre -> Forall is_byte post -> Nat.Even (length pre) ->
  Z.of_nat (length (pre ++ [0; 0] ++ post)) <= 131074 ->
  in_cksum (pre ++ [0; 0] ++ post) (Z.of_nat (length (pre ++ [0; 0] ++ post))) = Some c ->
  in_cksum (pre ++ store16 c ++ post) (Z.of_nat (length (pre ++ store16 c ++ post))) = Some 0.
Proof. apply in_cksum_complete. Qed.

Lemma in_cksum_verifies_witness :
  @in_cksum x86_64 [8; 0; 0xf7; 0xfe; 0; 1] 6 = Some 0.
Proof.
  assert (forall a b, is_byte a -> is_byte b -> Forall is_byte [a; b]) as Hb
    by (intros; constructor; [done|constructor; [done|constructor]]).
  apply (@in_cksum_verifies x86_64 [8; 0] [0; 1] 0xfef7);
    [by apply Hb|by apply Hb|by exists 1%nat|done|done].
Defined.

(** ** timeval subtraction *)

Definition tv_us (t : timeval) : Z := tv_sec t * 1000000 + tv_usec t.
Definition tv_norm (t : timeval) : Prop := 0 <= tv_usec t < 1000000.

(** tv_sub subtracts: on normalised times (microseconds in [0, 10^6)) the
    result is normalised and its value in microseconds is the difference. *)
Theorem tv_sub_correct a b :
  tv_norm a -> tv_norm b ->
  tv_norm (tv_sub a b) /\ tv_us (tv_sub a b) = tv_us a - tv_us b.
Proof.
  unfold tv_norm, tv_us, tv_sub. intros. destruct (Z.ltb_spec (tv_usec a - tv_usec b) 0);
    simpl; lia.
Qed.

Lemma tv_sub_correct_witness :
  tv_norm (tv_sub (Timeval 5 100) (Timeval 3 200)) /\
  tv_us (tv_sub (Timeval 5 100) (Timeval 3 200)) = 1999900.
Proof. apply (tv_sub_correct (Timeval 5 100) (Timeval 3 200)); unfold tv_norm; simpl; lia. Defined.

End Cksum.
