(* ===== verification/Cnum.v ===== *)
(** * C floating point and integers in memory

    double and float are the binary64 and binary32 values of the Standard
    Library's specification of IEEE 754, with its correctly rounded operations
    (FLT_EVAL_METHOD 0: no excess precision).  Integers are stored in the byte
    order of the host. *)
From Stdlib Require Import Floats.SpecFloat.
From stdpp Require Import base list numbers.
From S2P Require Import Prelude Checksum.
Import Cksum.

(** ** C double *)
Definition double := spec_float.
Definition d_of_Z (z : Z) : double := binary_normalize 53 1024 z 0 false.
Definition d_add : double -> double -> double := SFadd 53 1024.
Definition d_sub : double -> double -> double := SFsub 53 1024.
Definition d_mul : double -> double -> double := SFmul 53 1024.
Definition d_div : double -> double -> double := SFdiv 53 1024.

(** ** C float and the conversions *)
Definition float := spec_float.
Definition f_of_Z (z : Z) : float := binary_normalize 24 128 z 0 false.
Definition f_sub : float -> float -> float := SFsub 24 128.
Definition f_mul : float -> float -> float := SFmul 24 128.
(** (float) x and (double) x. *)
Definition f_of_d (x : double) : float :=
  match x with S754_finite s m e => binary_round 24 128 s m e | x => x end.
Definition d_of_f (x : float) : double :=
  match x with S754_finite s m e => binary_round 53 1024 s m e | x => x end.
(** (int) x truncates; it is undefined for values that int cannot hold. *)
Definition int_of_d (x : double) : option Z :=
  match x with
  | S754_zero _ => Some 0
  | S754_finite s m e =>
      let v := if 0 <=? e then Z.shiftl (Zpos m) e else Z.shiftr (Zpos m) (- e) in
      let z := if s then - v else v in
      if (- 2 ^ 31 <=? z) && (z <? 2 ^ 31) then Some z else None
  | _ => None
  end.

(** ** Integers in memory, in the byte order of the host *)
Fixpoint le_bytes (n : nat) (z : Z) : list Z :=
  match n with O => [] | S n => z mod 256 :: le_bytes n (z / 256) end.
Fixpoint le_value (bs : list Z) : Z :=
  match bs with [] => 0 | b :: bs => b + 256 * le_value bs end.
Definition host_order `{Platform} (bs : list Z) : list Z := if big_endian then reverse bs else bs.
(** A 32-bit unsigned and a 64-bit signed integer. *)
Definition store32 `{Platform} (z : Z) : list Z := host_order (le_bytes 4 z).
Definition load32 `{Platform} (bs : list Z) : Z := le_value (host_order bs).
Definition store64 `{Platform} (z : Z) : list Z := host_order (le_bytes 8 z).
Definition load64 `{Platform} (bs : list Z) : Z :=
  let u := le_value (host_order bs) in if u <? 2 ^ 63 then u else u - 2 ^ 64.
Definition store_timeval `{Platform} (tv : timeval) : list Z := store64 (tv_sec tv) ++ store64 (tv_usec tv).
Definition load_timeval `{Platform} (bs : list Z) : timeval := Timeval (load64 (take 8 bs)) (load64 (drop 8 bs)).
(** The 16-bit integer at [off]. *)
Definition aread16 `{Platform} (a : list Z) (off : Z) : option Z :=
  b0 ← aread a off; b1 ← aread a (off + 1); Some (load16 b0 b1).

Lemma le_bytes_length n z : length (le_bytes n z) = n.
Proof. revert z. induction n; intros z; cbn; auto. Qed.
Lemma le_bytes_range n z : Forall is_byte (le_bytes n z).
Proof.
  revert z. induction n as [|n IH]; intros z; cbn; constructor; auto.
  unfold is_byte. pose proof (Z.mod_pos_bound z 256). lia.
Qed.
Lemma le_value_bytes n z : le_value (le_bytes n z) = z mod 256 ^ Z.of_nat n.
Proof.
  revert z. induction n as [|n IH]; intros z; [by rewrite Z.mod_1_r|].
  cbn [le_bytes le_value]. rewrite IH, Nat2Z.inj_succ, Z.pow_succ_r by lia.
  rewrite Z.rem_mul_r by lia. done.
Qed.
Lemma host_order_invol `{Platform} bs : host_order (host_order bs) = bs.
Proof. unfold host_order. destruct big_endian; [apply reverse_involutive|done]. Qed.
Lemma host_order_length `{Platform} bs : length (host_order bs) = length bs.
Proof. unfold host_order. by destruct big_endian; rewrite ?length_reverse. Qed.
Lemma load32_store32 `{Platform} z : is_u32 z -> load32 (store32 z) = z.
Proof.
  intros Hz. unfold load32, store32. rewrite host_order_invol, le_value_bytes. by apply Z.mod_small.
Qed.
