(* ===== verification/Sys.v ===== *)
(** * C programs that call the operating system

    The functions of lib/ and of the socket/ programs are sequences of library
    and system calls.  A C function is a [prog]: a tree whose nodes are calls
    ([Sys], with the arguments the C code passes), reads and writes of the
    program's static variables ([Get], [Put]), and ways to stop ([Halt]: exit,
    abort, undefined behaviour, or a loop that used up its fuel).

    The operating system is a parameter: an instance of [Kernel K] says what
    every call returns and how the state [K] of the system changes.  [run]
    executes a program against a kernel.  What a component relies on is a class
    of laws over [Kernel] (stream sockets, the descriptor table, ...), and each
    class has an instance further on, so that the theorems proved against the
    laws apply to a system that exists. *)
From stdpp Require Import base list numbers strings gmap.
From S2P Require Import Prelude InetAddr Checksum.
Export Cksum (timeval, Timeval, tv_sec, tv_usec, tv_sub).

(** ** Values that cross the system call interface *)

(** A call either succeeds or fails with an errno. *)
Inductive res (A : Type) := Ok (a : A) | Err (e : Z).
Arguments Ok {A} a.
Arguments Err {A} e.

(** struct sockaddr and the structures it is cast to, selected by sa_family.
    Ports and addresses are kept in network byte order, as the C fields are. *)
Record sockaddr_in := SockaddrIn { sin_port : Z; sin_addr : list Z }.
Record sockaddr_in6 := SockaddrIn6 {
  sin6_port : Z; sin6_flowinfo : Z; sin6_addr : list Z; sin6_scope_id : Z }.
Record sockaddr_un := SockaddrUn { sun_path : list Z }.
Record sockaddr_dl := SockaddrDl {
  sdl_index : Z; sdl_type : Z; sdl_nlen : Z; sdl_alen : Z; sdl_slen : Z; sdl_data : list Z }.
Inductive sockaddr :=
  | SaIn (s : sockaddr_in)
  | SaIn6 (s : sockaddr_in6)
  | SaUn (s : sockaddr_un)
  | SaDl (s : sockaddr_dl)
  | SaOther (family : Z) (data : list Z).

Definition sa_family (sa : sockaddr) : Z :=
  match sa with
  | SaIn _ => AF_INET
  | SaIn6 _ => AF_INET6
  | SaUn _ => AF_UNIX
  | SaDl _ => AF_LINK
  | SaOther f _ => f
  end.

(** struct addrinfo; [ai_next] is the list of the nodes that follow. *)
Record addrinfo := Addrinfo {
  ai_flags : Z; ai_family : Z; ai_socktype : Z; ai_protocol : Z;
  ai_addrlen : Z; ai_canonname : option (list Z); ai_addr : sockaddr }.

(** The hints argument of getaddrinfo: flags, family, socktype, protocol. *)
Record gai_hints := Hints {
  h_flags : Z; h_family : Z; h_socktype : Z; h_protocol : Z }.

(** The values set and read with setsockopt and getsockopt. *)
Inductive optval :=
  | OInt (n : Z)                                     (* int, u_int *)
  | OChar (n : Z)                                    (* u_char *)
  | OInAddr (a : list Z)                             (* struct in_addr *)
  | OMreq (multiaddr interface : list Z)             (* struct ip_mreq *)
  | OMreq6 (multiaddr : list Z) (interface : Z)      (* struct ipv6_mreq *)
  | OMreqSource (multiaddr sourceaddr interface : list Z)
  | OGroupReq (interface : Z) (group : sockaddr)     (* struct group_req *)
  | OGroupSourceReq (interface : Z) (group source : sockaddr)
  | OTimeval (tv : timeval)
  | OBytes (bs : list Z)                             (* an array, as IP_OPTIONS *)
  | OLinger (onoff time : Z).                        (* struct linger *)

(** struct msghdr with one control message, as read_fd and write_fd use it. *)
Record cmsghdr := Cmsghdr {
  cmsg_len : Z; cmsg_level : Z; cmsg_type : Z; cmsg_data : Z }.
Record msghdr := Msghdr {
  msg_name : option sockaddr; msg_iov : list (list Z); msg_control : option cmsghdr }.

(** fd_set. *)
Definition fd_set := gset Z.

(** struct sigaction: the handler is named by a number. *)
Record sigaction_t := Sigaction { sa_handler : Z; sa_mask : list Z; sa_flags : Z }.

(** struct pollfd. *)
Record pollfd := Pollfd { p_fd : Z; p_events : Z; p_revents : Z }.

(** struct hostent. *)
Record hostent := Hostent {
  h_name : list Z; h_aliases : list (list Z); h_addrtype : Z; h_length : Z;
  h_addr_list : list (list Z) }.

(** struct kevent, reduced to the fields the library passes through. *)
Record kevent_t := Kevent_t { ke_ident : Z; ke_filter : Z; ke_flags : Z }.

(** The argument an ioctl request reads and overwrites. *)
Inductive ioarg :=
  | IoInt (n : Z)
  | IoIfreq (name : list Z) (addr : sockaddr)
  | IoReq (ifr : list Z)                           (* the bytes of a struct ifreq *)
  | IoIfconf (len : Z) (buf : list Z)              (* ifc_len and what was written to ifc_buf *)
  | IoNone.

(** The pthread_* calls the wrappers check: each returns an error number. *)
Inductive pthread_op :=
  | PCreate (tid attr func arg : Z) | PJoin (tid status : Z) | PDetach (tid : Z)
  | PKill (tid signo : Z) | PMutexattrInit (attr : Z) | PMutexattrSetpshared (attr flag : Z)
  | PMutexInit (m attr : Z) | PMutexLock (m : Z) | PMutexUnlock (m : Z)
  | PCondBroadcast (c : Z) | PCondSignal (c : Z) | PCondWait (c m : Z)
  | PCondTimedwait (c m : Z) (sec nsec : Z) | POnce (o func : Z) | PKeyCreate (key func : Z)
  | PSetspecific (key value : Z).

(** ** The calls

    One constructor per library or system call the sources make, indexed by
    the type of what it returns on success (the C return value and what is
    stored through pointer arguments). *)
Inductive sysE : Type -> Type :=
  (* sockets *)
  | Eaccept (fd : Z) : sysE (Z * (sockaddr * Z))
  | Ebind (fd : Z) (sa : sockaddr) (len : Z) : sysE unit
  | Econnect (fd : Z) (sa : sockaddr) (len : Z) : sysE unit
  | Egetpeername (fd : Z) : sysE (sockaddr * Z)
  | Egetsockname (fd : Z) : sysE (sockaddr * Z)
  | Egetsockopt (fd level optname : Z) : sysE optval
  | Ekqueue : sysE Z
  | Ekevent (kq : Z) (changes : list kevent_t) (nevents : Z) (timeout : option timeval)
      : sysE (list kevent_t)
  | Elisten (fd backlog : Z) : sysE unit
  | Epoll (fds : list pollfd) (timeout : Z) : sysE (Z * list pollfd)
  | Eepoll_create (size : Z) : sysE Z
  | Eepoll_ctl (epfd op fd events : Z) : sysE unit
  | Eepoll_wait (epfd maxevents timeout : Z) : sysE (list (Z * Z))  (* data.fd and events *)
  | Erecvfrom (fd n flags : Z) : sysE (list Z * (sockaddr * Z))
  | Erecvmsg (fd n flags : Z) : sysE (list Z * option cmsghdr)
  | Erecvpkt (fd n flags : Z) : sysE (list Z * (sockaddr * list cmsghdr))  (* recvmsg with msg_name *)
  | Erecvdg (fd n : Z) : sysE (list Z * (sockaddr * option cmsghdr * Z))  (* recvmsg with msg_name and msg_flags *)
  | Eselect (nfds : Z) (r w x : fd_set) (tv : option timeval)
      : sysE (Z * (fd_set * fd_set * fd_set))
  | Esendto (fd : Z) (bs : list Z) (flags : Z) (sa : option sockaddr) (len : Z) : sysE Z
  | Esendmsg (fd : Z) (msg : msghdr) (flags : Z) : sysE Z
  | Esetsockopt (fd level optname : Z) (v : optval) : sysE unit
  | Eshutdown (fd how : Z) : sysE unit
  | Esocket (family type protocol : Z) : sysE Z
  | Esocketpair (family type protocol : Z) : sysE (Z * Z)
  (* files, processes, signals *)
  | Ecalloc (n size : Z) : sysE Z
  | Emalloc (size : Z) : sysE Z
  | Eclose (fd : Z) : sysE unit
  | Edup2 (fd1 fd2 : Z) : sysE Z
  | Efcntl (fd cmd arg : Z) : sysE Z
  | Egettimeofday : sysE timeval
  | Eioctl (fd request : Z) (arg : ioarg) : sysE (Z * ioarg)
  | Efork : sysE Z
  | Emkstemp (template : list Z) : sysE Z
  | Emmap (addr len prot flags fd offset : Z) : sysE Z
  | Eopen (path : list Z) (oflag mode : Z) : sysE Z
  | Epipe : sysE (Z * Z)
  | Eread (fd n : Z) : sysE (list Z)
  | Ewrite (fd : Z) (bs : list Z) : sysE Z
  | Esigaddset (s : gset Z) (signo : Z) : sysE (gset Z)
  | Esigdelset (s : gset Z) (signo : Z) : sysE (gset Z)
  | Esigemptyset : sysE (gset Z)
  | Esigfillset : sysE (gset Z)
  | Esigismember (s : gset Z) (signo : Z) : sysE Z
  | Esigpending : sysE (gset Z)
  | Esigprocmask (how : Z) (set : option (gset Z)) : sysE (gset Z)
  | Esigaction (signo : Z) (act : sigaction_t) : sysE sigaction_t
  | Esignal (signo handler : Z) : sysE Z
  | Ekill (pid signo : Z) : sysE unit
  | Esetitimer (which : Z) (interval value : timeval) : sysE unit
  | Estrdup (s : list Z) : sysE Z              (* the copy's address *)
  | Esysconf (name : Z) : sysE (option Z)      (* [None]: -1 with errno unchanged *)
  | Esysctl (name : list Z) : sysE (list Z)
  | Esysctl_len (name : list Z) : sysE Z                 (* oldp NULL: the length needed *)
  | Esysctl_buf (name : list Z) (size : Z) : sysE (list Z)  (* into a buffer of that size *)
  | Eunlink (path : list Z) : sysE unit
  | Ewait : sysE (Z * Z)
  | Ewaitpid (pid options : Z) : sysE (Z * Z)
  | Esetsid : sysE Z
  | Echdir (path : list Z) : sysE unit
  | Euname : sysE (list Z)
  | Esetuid (uid : Z) : sysE unit
  (* stdio and messages *)
  | Efclose (fp : Z) : sysE unit
  | Efdopen (fd : Z) (type : list Z) : sysE Z
  | Efopen (filename mode : list Z) : sysE Z
  | Efgets (n fp : Z) : sysE (option (list Z))  (* [None]: end of file *)
  | Efputs (s : list Z) (fp : Z) : sysE unit
  | Efflush (fp : Z) : sysE unit.

(** Calls that cannot fail with an errno: what they return says everything. *)
Inductive libE : Type -> Type :=
  | Estrerror (e : Z) : libE (list Z)
  | Egai_strerror (n : Z) : libE (list Z)
  | Egetenv (name : list Z) : libE (option (list Z))
  | Ectime (t : Z) : libE (list Z)
  | Ealarm (sec : Z) : libE Z
  | Efree (p : Z) : libE unit
  | Eopenlog (ident : list Z) (option facility : Z) : libE unit
  | Esyslog (level : Z) (format : list Z) : libE unit
  | Egetaddrinfo (host serv : option (list Z)) (hints : gai_hints) : libE (Z + list addrinfo)
  | Efreeaddrinfo (res : list addrinfo) : libE unit
  | Egethostbyname (name : list Z) : libE (option hostent)
  | Eif_nametoindex (name : list Z) : libE Z
  | Eif_indextoname (index : Z) : libE (option (list Z))
  | Epthread (op : pthread_op) : libE Z
  (* the resolver: _res.options, res_init, h_errno and the lookups *)
  | Eres_options : libE Z
  | Eset_res_options (o : Z) : libE unit
  | Eres_init : libE Z
  | Eh_errno : libE Z
  | Egethostbyname2 (name : list Z) (family : Z) : libE (option hostent)
  | Egethostbyaddr (addr : list Z) (family : Z) : libE (option hostent)
  | Egetservbyname (name proto : list Z) : libE (option Z)                (* s_port *)
  | Egetservbyport (port : Z) (proto : option (list Z)) : libE (option (list Z))   (* s_name *)
  | Egetprotobyname (name : list Z) : libE (option Z)                     (* p_proto *)
  | Einet_addr (cp : list Z) : libE Z                                     (* s_addr, or (u_int) -1 *)
  | Egetnameinfo (sa : sockaddr) (salen flags : Z) : libE (option (list Z))   (* the host; [None]: an error *)
  | Egetpid : libE Z
  | Egetuid : libE Z
  | Esleep (sec : Z) : libE Z.

(** ** Static variables

    errno, error.c's [daemon_proc], and readline.c's buffer ([read_ptr] is an
    index into [read_buf], [None] before the first read). *)
Record globals := Globals {
  errno : Z; daemon_proc : Z;
  read_cnt : Z; read_ptr : option Z; read_buf : list Z }.

Definition set_errno (e : Z) (g : globals) : globals :=
  Globals e (daemon_proc g) (read_cnt g) (read_ptr g) (read_buf g).
Definition set_daemon_proc (d : Z) (g : globals) : globals :=
  Globals (errno g) d (read_cnt g) (read_ptr g) (read_buf g).
Definition set_reader (cnt : Z) (ptr : option Z) (buf : list Z) (g : globals) : globals :=
  Globals (errno g) (daemon_proc g) cnt ptr buf.

(** ** Programs *)

Inductive halt := Exit (code : Z) | Aborted | Fault | Spin.

Inductive prog (A : Type) : Type :=
  | Ret (a : A)
  | Sys (X : Type) (e : sysE X) (k : res X -> prog A)
  | Lib (X : Type) (e : libE X) (k : X -> prog A)
  | Get (k : globals -> prog A)
  | Put (g : globals) (k : prog A)
  | Halt (h : halt).
Arguments Ret {A} a.
Arguments Sys {A X} e k.
Arguments Lib {A X} e k.
Arguments Get {A} k.
Arguments Put {A} g k.
Arguments Halt {A} h.

Fixpoint bind {A B} (p : prog A) (f : A -> prog B) : prog B :=
  match p with
  | Ret a => f a
  | Sys e k => Sys e (fun r => bind (k r) f)
  | Lib e k => Lib e (fun r => bind (k r) f)
  | Get k => Get (fun g => bind (k g) f)
  | Put g k => Put g (bind k f)
  | Halt h => Halt h
  end.

#[export] Instance prog_ret : MRet prog := @Ret.
#[export] Instance prog_bind : MBind prog := fun A B f p => bind p f.

(** A call: on failure errno is set. *)
Definition call {X} (e : sysE X) : prog (res X) :=
  Sys e (fun r => match r with
                  | Ok a => Ret (Ok a)
                  | Err n => Get (fun g => Put (set_errno n g) (Ret (Err n)))
                  end).

(** A call that cannot fail. *)
Definition lib {X} (e : libE X) : prog X := Lib e Ret.

(** A call whose result the C code ignores. *)
Definition call_ {X} (e : sysE X) : prog unit := _ ← call e; Ret tt.

Definition get_errno : prog Z := Get (fun g => Ret (errno g)).
Definition put_errno (e : Z) : prog unit := Get (fun g => Put (set_errno e g) (Ret tt)).
Definition fault {A} : prog A := Halt Fault.

(** A computation on memory: [None] is undefined behaviour. *)
Definition mem {A} (o : option A) : prog A :=
  match o with Some a => Ret a | None => fault end.

(** ** The operating system and execution *)

Class Kernel (K : Type) := {
  kcall : forall {X}, sysE X -> K -> res X * K;
  klib : forall {X}, libE X -> K -> X * K }.

Inductive outcome (A : Type) := Done (a : A) | Halted (h : halt).
Arguments Done {A} a.
Arguments Halted {A} h.

Section Run.
Context {K : Type} `{!Kernel K}.

Fixpoint run {A} (p : prog A) (g : globals) (k : K) : outcome A * globals * K :=
  match p with
  | Ret a => (Done a, g, k)
  | Sys e c => let '(r, k') := kcall e k in run (c r) g k'
  | Lib e c => let '(r, k') := klib e k in run (c r) g k'
  | Get c => run (c g) g k
  | Put g' c => run c g' k
  | Halt h => (Halted h, g, k)
  end.

Lemma run_bind {A B} (p : prog A) (f : A -> prog B) g k :
  run (p ≫= f) g k =
  let '(o, g', k') := run p g k in
  match o with Done a => run (f a) g' k' | Halted h => (Halted h, g', k') end.
Proof.
  revert g k. induction p as [a|X e c IH|X e c IH|c IH|g0 c IH|h]; intros g k; simpl; try done.
  - destruct (kcall e k) as [r k']. apply IH.
  - destruct (klib e k) as [r k']. apply IH.
Qed.

Lemma run_ret {A} (a : A) g k : run (Ret a) g k = (Done a, g, k).
Proof. done. Qed.

Lemma run_call {X} (e : sysE X) g k :
  run (call e) g k =
  let '(r, k') := kcall e k in
  match r with
  | Ok a => (Done (Ok a), g, k')
  | Err n => (Done (Err n), set_errno n g, k')
  end.
Proof. simpl. by destruct (kcall e k) as [[]]. Qed.

Lemma run_call_ {X} (e : sysE X) g k :
  run (call_ e) g k =
  let '(r, k') := kcall e k in
  (Done tt, match r with Ok _ => g | Err n => set_errno n g end, k').
Proof. unfold call_. rewrite run_bind, run_call. by destruct (kcall e k) as [[]]. Qed.

Lemma run_lib {X} (e : libE X) g k :
  run (lib e) g k = let '(r, k') := klib e k in (Done r, g, k').
Proof. done. Qed.
Lemma run_halt {A} h g k : run (Halt h : prog A) g k = (Halted h, g, k).
Proof. done. Qed.
Lemma run_get_errno g k : run get_errno g k = (Done (errno g), g, k).
Proof. done. Qed.
Lemma run_put_errno e g k : run (put_errno e) g k = (Done tt, set_errno e g, k).
Proof. done. Qed.
Lemma run_mem {A} (o : option A) g k :
  run (mem o) g k = match o with Some a => (Done a, g, k) | None => (Halted Fault, g, k) end.
Proof. by destruct o. Qed.

End Run.

Create Rewrite HintDb run.
#[export] Hint Rewrite @run_bind @run_ret @run_call @run_call_ @run_get_errno @run_lib @run_halt
  @run_put_errno @run_mem : run.
#[global] Opaque call call_ lib get_errno put_errno mem.

(** Rewrite a run with the laws above. *)
Ltac runs := repeat (autorewrite with run; cbn beta iota zeta).

(** ** Traces

    A kernel that also records every call and its result, in order. *)
Inductive event :=
  | EvSys (X : Type) (e : sysE X) (r : res X)
  | EvLib (X : Type) (e : libE X) (r : X).
Arguments EvSys {X} e r.
Arguments EvLib {X} e r.

#[export] Instance traced {K} `{!Kernel K} : Kernel (K * list event) := {|
  kcall X e '(k, t) := let '(r, k') := kcall e k in (r, (k', t ++ [EvSys e r]));
  klib X e '(k, t) := let '(r, k') := klib e k in (r, (k', t ++ [EvLib e r])) |}.

(** A kernel whose every fallible call fails with [e], the simplest instance. *)
Definition failing_kernel (e : Z) : Kernel unit := {|
  kcall X _ k := (Err e, k);
  klib X e :=
    match e in libE X return unit -> X * unit with
    | Estrerror _ | Egai_strerror _ | Ectime _ => fun k => ([], k)
    | Egetenv _ | Eif_indextoname _ => fun k => (None, k)
    | Ealarm _ | Eif_nametoindex _ => fun k => (0, k)
    | Efree _ | Eopenlog _ _ _ | Esyslog _ _ | Efreeaddrinfo _ => fun k => (tt, k)
    | Egetaddrinfo _ _ _ => fun k => (inl 8, k)
    | Egethostbyname _ => fun k => (None, k)
    | Epthread _ => fun k => (22, k)
    | Eres_options | Eres_init | Eh_errno | Egetpid | Egetuid | Esleep _ => fun k => (0, k)
    | Eset_res_options _ => fun k => (tt, k)
    | Egethostbyname2 _ _ | Egethostbyaddr _ _ => fun k => (None, k)
    | Egetservbyname _ _ | Egetprotobyname _ => fun k => (None, k)
    | Einet_addr _ => fun k => (2 ^ 32 - 1, k)
    | Egetservbyport _ _ => fun k => (None, k)
    | Egetnameinfo _ _ _ => fun k => (None, k)
    end |}.

Definition globals0 : globals := Globals 0 0 0 None (replicate 4096 0).

(** ** Constants (FreeBSD values) *)
Definition EINTR : Z := 4.
Definition ENXIO : Z := 6.
Definition EBADF : Z := 9.
Definition ENOMEM : Z := 12.
Definition EINVAL : Z := 22.
Definition EPIPE : Z := 32.
Definition EAGAIN : Z := 35.
Definition EWOULDBLOCK : Z := EAGAIN.
Definition EINPROGRESS : Z := 36.
Definition ECONNABORTED : Z := 53.
Definition ECONNRESET : Z := 54.
Definition ETIMEDOUT : Z := 60.
Definition ECONNREFUSED : Z := 61.
Definition ENOSYS : Z := 78.
Definition EPROTO : Z := 92.
Definition SOCK_STREAM : Z := 1.
Definition SOCK_DGRAM : Z := 2.
Definition SOL_SOCKET : Z := 0xffff.
Definition SO_REUSEADDR : Z := 4.
Definition SO_ERROR : Z := 0x1007.
Definition SCM_RIGHTS : Z := 1.
Definition FD_SETSIZE : Z := 1024.
Definition MAXLINE : Z := 4096.
Definition LISTENQ : Z := 1024.
Definition stdin : Z := 0.
Definition stdout : Z := 1.
Definition stderr : Z := 2.
