(* ===== verification/Error.v ===== *)
(** * Error reporting: lib/error.c

    [err_ret], [err_sys], [err_dump], [err_msg] and [err_quit] over [err_doit].
    A format and its arguments are given as the formatted message; [err_doit]'s
    buffer of MAXLINE + 1 bytes is a string with a capacity check, so writing
    past it is undefined behaviour ([Fault]).  In a daemon the message itself is
    the format of syslog: a conversion in it would read arguments that were
    never passed. *)
From stdpp Require Import base list numbers strings.
From S2P Require Import Prelude InetAddr Sys.

Definition LOG_ERR : Z := 3.
Definition LOG_INFO : Z := 6.

(** strcat(s, t) on an array of [cap] bytes. *)
Definition strcat (cap : Z) (s t : list Z) : option (list Z) :=
  if Z.of_nat (length s + length t) + 1 <=? cap then Some (s ++ t) else None.

(** A format that reads no argument: every % begins %% or %m. *)
Fixpoint format_closed (s : list Z) : bool :=
  match s with
  | [] => true
  | p :: s' =>
      if p =? 37 then
        match s' with
        | c :: s'' => ((c =? 37) || (c =? 109)) && format_closed s''
        | [] => false
        end
      else format_closed s'
  end.

(** syslog(level, format) with no further argument. *)
Definition syslog (level : Z) (format : list Z) : prog unit :=
  if format_closed format then lib (Esyslog level format) else fault.

Definition err_doit (errnoflag level : Z) (msg : list Z) : prog unit :=
  errno_save ← get_errno;
  let buf := truncstr MAXLINE msg in
  let n := Z.of_nat (length buf) in
  buf1 ← (if errnoflag =? 0 then Ret buf
          else es ← lib (Estrerror errno_save);
               mem (strcat (MAXLINE + 1) buf (truncstr (MAXLINE - n) (str ": " ++ es))));
  buf2 ← mem (strcat (MAXLINE + 1) buf1 [10]);
  Get (fun g =>
    if negb (daemon_proc g =? 0) then syslog level buf2
    else
      _ ← call_ (Efflush stdout);
      _ ← call_ (Efputs buf2 stderr);
      call_ (Efflush stderr)).

Definition err_ret (msg : list Z) : prog unit := err_doit 1 LOG_INFO msg.
Definition err_sys {A} (msg : list Z) : prog A :=
  _ ← err_doit 1 LOG_ERR msg; Halt (Exit 1).
Definition err_dump {A} (msg : list Z) : prog A :=
  _ ← err_doit 1 LOG_ERR msg; Halt Aborted.
Definition err_msg (msg : list Z) : prog unit := err_doit 0 LOG_INFO msg.
Definition err_quit {A} (msg : list Z) : prog A :=
  _ ← err_doit 0 LOG_ERR msg; Halt (Exit 1).

(** ** The line that is printed *)

Definition err_line (errnoflag : Z) (msg es : list Z) : list Z :=
  truncstr MAXLINE (if errnoflag =? 0 then msg else msg ++ str ": " ++ es) ++ [10].

Lemma truncstr_length n s : 0 < n -> Z.of_nat (length (truncstr n s)) <= n - 1.
Proof. intros. unfold truncstr. rewrite length_take. lia. Qed.

(** Formatting the message and then what follows it, each with the room that
    is left, is formatting both at once. *)
Lemma truncstr_app n s t :
  0 < n ->
  truncstr n s ++ truncstr (n - Z.of_nat (length (truncstr n s))) t = truncstr n (s ++ t).
Proof.
  intros Hn. unfold truncstr. rewrite take_app, length_take. f_equal. f_equal. lia.
Qed.

Lemma err_line_length flag msg es : Z.of_nat (length (err_line flag msg es)) <= MAXLINE.
Proof.
  unfold err_line. rewrite length_app.
  pose proof (truncstr_length MAXLINE (if flag =? 0 then msg else msg ++ str ": " ++ es) ltac:(done)). cbn [length]. unfold MAXLINE in *. lia.
Qed.

(** The buffer is large enough for both strcat's, and holds the line. *)
Lemma strcat_line msg :
  strcat (MAXLINE + 1) (truncstr MAXLINE msg) [10] = Some (err_line 0 msg []).
Proof.
  unfold strcat. pose proof (err_line_length 0 msg []) as H.
  unfold err_line in H. change (0 =? 0) with true in H. cbv iota in H.
  rewrite length_app in H. rewrite (proj2 (Z.leb_le _ _)) by lia. done.
Qed.

Lemma strcat_strerror msg es :
  strcat (MAXLINE + 1) (truncstr MAXLINE msg)
    (truncstr (MAXLINE - Z.of_nat (length (truncstr MAXLINE msg))) (str ": " ++ es)) =
  Some (truncstr MAXLINE (msg ++ str ": " ++ es)).
Proof.
  unfold strcat. rewrite <- length_app, truncstr_app by done.
  pose proof (truncstr_length MAXLINE (msg ++ str ": " ++ es) ltac:(done)).
  rewrite (proj2 (Z.leb_le _ _)) by lia. done.
Qed.

Lemma format_closed_app pre s :
  format_closed pre = true -> format_closed (pre ++ s) = format_closed s.
Proof.
  remember (length pre) as n eqn:E. revert pre E.
  induction n as [n IH] using lt_wf_ind; intros [|a pre] ->; [done|].
  cbn [app format_closed length] in *. destruct (a =? 37); [|by apply (IH (length pre)); lia].
  destruct pre as [|b pre]; [done|]. cbn [app length] in *.
  destruct ((b =? 37) || (b =? 109)); [|done]. apply (IH (length pre)); lia.
Qed.

Section ErrDoit.
Context {K : Type} `{!Kernel K}.

(** What err_doit does once its line is formatted. *)
Definition err_emit (level : Z) (line : list Z) : prog unit :=
  Get (fun g =>
    if negb (daemon_proc g =? 0) then syslog level line
    else _ ← call_ (Efflush stdout); _ ← call_ (Efputs line stderr); call_ (Efflush stderr)).

Lemma run_err_doit_errno level msg g (k : K) :
  run (err_doit 1 level msg) g k =
  let '(es, k') := klib (Estrerror (errno g)) k in run (err_emit level (err_line 1 msg es)) g k'.
Proof.
  unfold err_doit. runs. change (1 =? 0) with false. cbn iota. runs.
  destruct (klib (Estrerror (errno g)) k) as [es k']. rewrite run_mem, strcat_strerror.
  rewrite strcat_line. done.
Qed.

Lemma run_err_doit_plain level msg g (k : K) :
  run (err_doit 0 level msg) g k = run (err_emit level (err_line 0 msg [])) g k.
Proof.
  unfold err_doit. runs. change (0 =? 0) with true. cbn iota. runs.
  by rewrite strcat_line.
Qed.

(** err_emit returns, unless it is a daemon given a format with conversions. *)
Lemma run_err_emit level line g (k : K) :
  exists o g' k', run (err_emit level line) g k = (o, g', k') /\
    (o = Done tt \/ o = Halted Fault /\ daemon_proc g <> 0 /\ format_closed line = false).
Proof.
  unfold err_emit. cbn [run]. destruct (Z.eqb_spec (daemon_proc g) 0) as [E|E]; cbn [negb].
  - runs. destruct (kcall (Efflush stdout) k) as [r1 k1]. cbn beta iota zeta. runs.
    destruct (kcall (Efputs line stderr) k1) as [r2 k2]. cbn beta iota zeta. runs.
    destruct (kcall (Efflush stderr) k2) as [r3 k3]. eauto 10.
  - unfold syslog. destruct (format_closed line) eqn:F; runs.
    + destruct (klib (Esyslog level line) k) as [[] k1]. eauto 10.
    + eauto 10.
Qed.

(** err_sys and err_quit do not return. *)
Lemma run_err_sys {A} msg g (k : K) :
  exists h g' k', run (err_sys msg : prog A) g k = (Halted h, g', k') /\
    (h = Exit 1 \/ h = Fault /\ daemon_proc g <> 0).
Proof.
  unfold err_sys. rewrite run_bind, run_err_doit_errno.
  destruct (klib (Estrerror (errno g)) k) as [es k1].
  destruct (run_err_emit LOG_ERR (err_line 1 msg es) g k1) as (o & g' & k' & -> & H).
  destruct H as [->|(-> & H & _)]; cbn; eauto 10.
Qed.

Lemma run_err_quit {A} msg g (k : K) :
  exists h g' k', run (err_quit msg : prog A) g k = (Halted h, g', k') /\
    (h = Exit 1 \/ h = Fault /\ daemon_proc g <> 0).
Proof.
  unfold err_quit. rewrite run_bind, run_err_doit_plain.
  destruct (run_err_emit LOG_ERR (err_line 0 msg []) g k) as (o & g' & k' & -> & H).
  destruct H as [->|(-> & H & _)]; cbn; eauto 10.
Qed.

(** An observation of the system that messages do not change. *)
Record quiet {T} (f : K -> T) : Prop := {
  quiet_fputs : forall s k, f (kcall (Efputs s stderr) k).2 = f k;
  quiet_fflush : forall fp k, f (kcall (Efflush fp) k).2 = f k;
  quiet_lib : forall X (e : libE X) k, f (klib e k).2 = f k }.

Lemma run_err_emit_quiet {T} (f : K -> T) level line g k :
  quiet f -> f (run (err_emit level line) g k).2 = f k.
Proof.
  intros [Q1 Q2 Q3]. unfold err_emit. cbn [run]. destruct (daemon_proc g =? 0); cbn [negb].
  - runs. pose proof (Q2 stdout k) as E1. destruct (kcall (Efflush stdout) k) as [r1 k1]. runs.
    pose proof (Q1 line k1) as E2. destruct (kcall (Efputs line stderr) k1) as [r2 k2]. runs.
    pose proof (Q2 stderr k2) as E3. destruct (kcall (Efflush stderr) k2) as [r3 k3].
    simpl in *. congruence.
  - unfold syslog. destruct (format_closed line); runs; [|done].
    pose proof (Q3 _ (Esyslog level line) k) as E. by destruct (klib (Esyslog level line) k).
Qed.

(** err_sys and err_quit end the process and leave quiet observations alone. *)
Lemma run_err_sys_quiet {A T} (f : K -> T) msg g k :
  quiet f -> daemon_proc g = 0 ->
  exists g' k', run (err_sys msg : prog A) g k = (Halted (Exit 1), g', k') /\ f k' = f k.
Proof.
  intros Q Hd. unfold err_sys. rewrite run_bind, run_err_doit_errno.
  pose proof (quiet_lib f Q _ (Estrerror (errno g)) k) as E.
  destruct (klib (Estrerror (errno g)) k) as [es k1]. simpl in E.
  pose proof (run_err_emit_quiet f LOG_ERR (err_line 1 msg es) g k1 Q) as E2.
  destruct (run_err_emit LOG_ERR (err_line 1 msg es) g k1) as (o & g' & k' & R & H).
  rewrite R in *. destruct H as [->|(-> & H & _)]; [|done]. cbn. eexists _, _.
  split; [done|]. simpl in E2. congruence.
Qed.

Lemma run_err_quit_quiet {A T} (f : K -> T) msg g k :
  quiet f -> daemon_proc g = 0 ->
  exists g' k', run (err_quit msg : prog A) g k = (Halted (Exit 1), g', k') /\ f k' = f k.
Proof.
  intros Q Hd. unfold err_quit. rewrite run_bind, run_err_doit_plain.
  pose proof (run_err_emit_quiet f LOG_ERR (err_line 0 msg []) g k Q) as E2.
  destruct (run_err_emit LOG_ERR (err_line 0 msg []) g k) as (o & g' & k' & R & H).
  rewrite R in *. destruct H as [->|(-> & H & _)]; [|done]. cbn. eexists _, _.
  split; [done|]. done.
Qed.

End ErrDoit.

Section Reports.
Context {K : Type} `{!Kernel K}.

(** err_sys in a foreground process: whatever the message, the system error
    text and the behaviour of the calls, it never writes outside its buffer; it
    asks strerror for the errno at entry, flushes stdout, writes one line of at
    most MAXLINE bytes to stderr (the message, ": ", the error text, cut to
    MAXLINE - 1 bytes, and a newline), flushes stderr and exits with status 1. *)
Theorem err_sys_reports {A} msg g (k : K) t :
  daemon_proc g = 0 ->
  exists g' k' es r1 r2 r3 line,
    run (err_sys msg : prog A) g (k, t) =
      (Halted (Exit 1), g',
       (k', t ++ [EvLib (Estrerror (errno g)) es; EvSys (Efflush stdout) r1;
                  EvSys (Efputs line stderr) r2; EvSys (Efflush stderr) r3])) /\
    line = truncstr MAXLINE (msg ++ str ": " ++ es) ++ [10] /\
    Z.of_nat (length line) <= MAXLINE.
Proof.
  intros Hd. unfold err_sys. rewrite run_bind, run_err_doit_errno. cbn [klib traced].
  destruct (klib (Estrerror (errno g)) k) as [es k1]. unfold err_emit. cbn [run].
  rewrite Hd. cbn [Z.eqb negb]. runs. cbn [kcall traced].
  destruct (kcall (Efflush stdout) k1) as [r1 k2]. runs. cbn [kcall traced].
  destruct (kcall (Efputs (err_line 1 msg es) stderr) k2) as [r2 k3]. runs. cbn [kcall traced].
  destruct (kcall (Efflush stderr) k3) as [r3 k4]. cbn [run].
  eexists _, k4, es, r1, r2, r3, _. split; [|split; [reflexivity|apply (err_line_length 1)]].
  by rewrite <- !app_assoc.
Qed.

(** err_doit in a daemon passes the formatted message to syslog as its
    format: a message with a conversion such as %s (a path or host name the
    caller was asked to report) makes syslog read an argument that does not
    exist. *)
Theorem err_sys_daemon_format {A} pre post c g (k : K) :
  daemon_proc g <> 0 -> format_closed pre = true -> c <> 37 -> c <> 109 ->
  Z.of_nat (length pre) + 2 < MAXLINE ->
  exists k', run (err_sys (pre ++ 37 :: c :: post) : prog A) g k = (Halted Fault, g, k').
Proof.
  intros Hd Hf H1 H2 Hl. unfold err_sys. rewrite run_bind, run_err_doit_errno.
  destruct (klib (Estrerror (errno g)) k) as [es k1]. exists k1. unfold err_emit. cbn [run].
  destruct (Z.eqb_spec (daemon_proc g) 0); [done|]. cbn [negb]. unfold syslog.
  replace (format_closed _) with false; [done|]. symmetry.
  unfold err_line. change (1 =? 0) with false. cbn iota.
  rewrite <- app_assoc. unfold truncstr. rewrite take_app_ge by (unfold MAXLINE in *; lia).
  rewrite <- app_assoc, format_closed_app by done.
  destruct (Z.to_nat (MAXLINE - 1) - length pre)%nat as [|[|m]] eqn:Em;
    [unfold MAXLINE in *; lia..|]. cbn.
  destruct (Z.eqb_spec c 37), (Z.eqb_spec c 109); done.
Qed.

End Reports.

Lemma err_sys_reports_witness :
  exists g' k' es r1 r2 r3 line,
    @run _ (@traced _ (failing_kernel ENOSYS)) unit (err_sys (str "bind error")) globals0 (tt, []) =
      (Halted (Exit 1), g',
       (k', [EvLib (Estrerror 0) es; EvSys (Efflush stdout) r1;
             EvSys (Efputs line stderr) r2; EvSys (Efflush stderr) r3])) /\
    line = truncstr MAXLINE (str "bind error" ++ str ": " ++ es) ++ [10] /\
    Z.of_nat (length line) <= MAXLINE.
Proof.
  apply (@err_sys_reports unit (failing_kernel ENOSYS) unit (str "bind error") globals0 tt []).
  reflexivity.
Defined.

Lemma err_sys_daemon_format_witness :
  exists k', @run _ (failing_kernel ENOSYS) unit (err_sys (str "open error for a%sb"))
    (set_daemon_proc 1 globals0) tt = (Halted Fault, set_daemon_proc 1 globals0, k').
Proof.
  apply (@err_sys_daemon_format unit (failing_kernel ENOSYS) unit (str "open error for a")
    (str "b") 115); done.
Defined.
