(* ===== verification/Wrap.v ===== *)
(** * The wrapper functions: lib/wrapsock.c, wrapunix.c, wrapstdio.c,
      wraplib.c and wrappthread.c

    Every wrapper makes one call and ends the process when it fails.  The
    configuration is the repository's config.h: kqueue, poll, mkstemp and
    sysctl are compiled in, the inet6_rth_* wrappers are not. *)
From stdpp Require Import base list numbers strings gmap.
From S2P Require Import Prelude InetAddr Sys Error.

(** if (call < 0) err_sys(msg); return what the call produced. *)
Definition checked {X} (e : sysE X) (msg : list Z) : prog X :=
  r ← call e; match r with Ok v => Ret v | Err _ => err_sys msg end.

Definition checked_ {X} (e : sysE X) (msg : list Z) : prog unit :=
  r ← call e; match r with Ok _ => Ret tt | Err _ => err_sys msg end.

(** if (call != nbytes) err_sys(msg): a short count exits with the old errno. *)
Definition checked_count (e : sysE Z) (nbytes : Z) (msg : list Z) : prog unit :=
  r ← call e;
  match r with
  | Ok n => if n =? nbytes then Ret tt else err_sys msg
  | Err _ => err_sys msg
  end.

(** ** wrapsock.c *)

(** [fuel] bounds the number of times the loop is entered. *)
Fixpoint Accept (fuel : nat) (fd : Z) : prog (Z * (sockaddr * Z)) :=
  match fuel with
  | O => Halt Spin
  | S f =>
      r ← call (Eaccept fd);
      match r with
      | Ok n => Ret n
      | Err _ =>
          e ← get_errno;
          if (e =? EPROTO) || (e =? ECONNABORTED) then Accept f fd
          else err_sys (str "accept error")
      end
  end.

Definition Bind (fd : Z) (sa : sockaddr) (salen : Z) : prog unit :=
  checked_ (Ebind fd sa salen) (str "bind error").
Definition Connect (fd : Z) (sa : sockaddr) (salen : Z) : prog unit :=
  checked_ (Econnect fd sa salen) (str "connect error").
Definition Getpeername (fd : Z) : prog (sockaddr * Z) :=
  checked (Egetpeername fd) (str "getpeername error").
Definition Getsockname (fd : Z) : prog (sockaddr * Z) :=
  checked (Egetsockname fd) (str "getsockname error").
Definition Getsockopt (fd level optname : Z) : prog optval :=
  checked (Egetsockopt fd level optname) (str "getsockopt error").
Definition Kqueue : prog Z := checked Ekqueue (str "kqueue error").
Definition Kevent (kq : Z) (changes : list kevent_t) (nevents : Z) (timeout : option timeval)
  : prog (list kevent_t) :=
  checked (Ekevent kq changes nevents timeout) (str "kevent error").

Definition Listen (fd backlog : Z) : prog unit :=
  ptr ← lib (Egetenv (str "LISTENQ"));
  let backlog1 := match ptr with Some s => s32 (atoi s) | None => backlog end in
  checked_ (Elisten fd backlog1) (str "listen error").

Definition Poll (fds : list pollfd) (timeout : Z) : prog (Z * list pollfd) :=
  checked (Epoll fds timeout) (str "poll error").
Definition Recv (fd nbytes flags : Z) : prog (list Z) :=
  r ← checked (Erecvfrom fd nbytes flags) (str "recv error"); Ret r.1.
Definition Recvfrom (fd nbytes flags : Z) : prog (list Z * (sockaddr * Z)) :=
  checked (Erecvfrom fd nbytes flags) (str "recvfrom error").
Definition Recvmsg (fd nbytes flags : Z) : prog (list Z * option cmsghdr) :=
  checked (Erecvmsg fd nbytes flags) (str "recvmsg error").
Definition Select (nfds : Z) (r w x : fd_set) (tv : option timeval)
  : prog (Z * (fd_set * fd_set * fd_set)) :=
  checked (Eselect nfds r w x tv) (str "select error").
Definition Send (fd : Z) (ptr : list Z) (flags : Z) : prog unit :=
  checked_count (Esendto fd ptr flags None 0) (Z.of_nat (length ptr)) (str "send error").
Definition Sendto (fd : Z) (ptr : list Z) (flags : Z) (sa : sockaddr) (salen : Z) : prog unit :=
  checked_count (Esendto fd ptr flags (Some sa) salen) (Z.of_nat (length ptr)) (str "sendto error").

(** for (i = 0; i < msg->msg_iovlen; i++) nbytes += msg->msg_iov[i].iov_len; *)
Definition iov_bytes (iov : list (list Z)) : Z :=
  foldl (fun nbytes v => nbytes + Z.of_nat (length v)) 0 iov.
Definition Sendmsg (fd : Z) (msg : msghdr) (flags : Z) : prog unit :=
  checked_count (Esendmsg fd msg flags) (iov_bytes (msg_iov msg)) (str "sendmsg error").

Definition Setsockopt (fd level optname : Z) (v : optval) : prog unit :=
  checked_ (Esetsockopt fd level optname v) (str "setsockopt error").
Definition Shutdown (fd how : Z) : prog unit :=
  checked_ (Eshutdown fd how) (str "shutdown error").
Definition Socket (family type protocol : Z) : prog Z :=
  checked (Esocket family type protocol) (str "socket error").
Definition Socketpair (family type protocol : Z) : prog (Z * Z) :=
  checked (Esocketpair family type protocol) (str "socketpair error").

(** ** wrapunix.c *)

Definition Calloc (n size : Z) : prog Z := checked (Ecalloc n size) (str "calloc error").
Definition Close (fd : Z) : prog unit := checked_ (Eclose fd) (str "close error").
Definition Dup2 (fd1 fd2 : Z) : prog unit := checked_ (Edup2 fd1 fd2) (str "dup2 error").
Definition Fcntl (fd cmd arg : Z) : prog Z := checked (Efcntl fd cmd arg) (str "fcntl error").
Definition Gettimeofday : prog timeval := checked Egettimeofday (str "gettimeofday error").
Definition Ioctl (fd request : Z) (arg : ioarg) : prog (Z * ioarg) :=
  checked (Eioctl fd request arg) (str "ioctl error").
Definition Fork : prog Z := checked Efork (str "fork error").
Definition Malloc (size : Z) : prog Z := checked (Emalloc size) (str "malloc error").
Definition Mkstemp (template : list Z) : prog Z :=
  r ← call (Emkstemp template);
  match r with Ok i => Ret i | Err _ => err_quit (str "mkstemp error") end.
Definition Mmap (addr len prot flags fd offset : Z) : prog Z :=
  checked (Emmap addr len prot flags fd offset) (str "mmap error").
Definition Open (pathname : list Z) (oflag mode : Z) : prog Z :=
  checked (Eopen pathname oflag mode) (str "open error for " ++ pathname).
Definition Pipe : prog (Z * Z) := checked Epipe (str "pipe error").
Definition Read (fd nbytes : Z) : prog (list Z) := checked (Eread fd nbytes) (str "read error").
Definition Sigaddset (s : gset Z) (signo : Z) : prog (gset Z) :=
  checked (Esigaddset s signo) (str "sigaddset error").
Definition Sigdelset (s : gset Z) (signo : Z) : prog (gset Z) :=
  checked (Esigdelset s signo) (str "sigdelset error").
Definition Sigemptyset : prog (gset Z) := checked Esigemptyset (str "sigemptyset error").
Definition Sigfillset : prog (gset Z) := checked Esigfillset (str "sigfillset error").
Definition Sigismember (s : gset Z) (signo : Z) : prog Z :=
  checked (Esigismember s signo) (str "sigismember error").
Definition Sigpending : prog (gset Z) := checked Esigpending (str "sigpending error").
Definition Sigprocmask (how : Z) (set : option (gset Z)) : prog (gset Z) :=
  checked (Esigprocmask how set) (str "sigprocmask error").
Definition Strdup (s : list Z) : prog Z := checked (Estrdup s) (str "strdup error").
Definition Sysconf (name : Z) : prog Z :=
  _ ← put_errno 0;
  r ← call (Esysconf name);
  match r with
  | Ok (Some v) => if v =? -1 then err_sys (str "sysconf error") else Ret v
  | _ => err_sys (str "sysconf error")
  end.
Definition Sysctl (name : list Z) : prog (list Z) := checked (Esysctl name) (str "sysctl error").
Definition Unlink (pathname : list Z) : prog unit :=
  checked_ (Eunlink pathname) (str "unlink error for " ++ pathname).
Definition Wait : prog (Z * Z) := checked Ewait (str "wait error").
Definition Waitpid (pid options : Z) : prog (Z * Z) :=
  checked (Ewaitpid pid options) (str "waitpid error").
Definition Write (fd : Z) (ptr : list Z) : prog unit :=
  checked_count (Ewrite fd ptr) (Z.of_nat (length ptr)) (str "write error").

(** ** wrapstdio.c *)

Definition Fclose (fp : Z) : prog unit := checked_ (Efclose fp) (str "fclose error").
Definition Fdopen (fd : Z) (type : list Z) : prog Z :=
  checked (Efdopen fd type) (str "fdopen error").
(** NULL at end of file is returned; NULL with ferror ends the process. *)
Definition Fgets (n stream : Z) : prog (option (list Z)) :=
  checked (Efgets n stream) (str "fgets error").
Definition Fopen (filename mode : list Z) : prog Z :=
  checked (Efopen filename mode) (str "fopen error").
Definition Fputs (ptr : list Z) (stream : Z) : prog unit :=
  checked_ (Efputs ptr stream) (str "fputs error").

(** ** wraplib.c *)

Definition Inet_ntop (family : Z) (addrptr : list Z) (strptr : option (list Z)) (len : Z)
  : prog (list Z) :=
  match strptr with
  | None => err_quit (str "NULL 3rd argument to inet_ntop")
  | Some buf =>
      r ← mem (inet_ntop family addrptr buf 0 len);
      match r with
      | CPtr s => Ret s
      | CNull e => _ ← put_errno e; err_sys (str "inet_ntop error")
      end
  end.

Definition Inet_pton (family : Z) (strptr addrptr : list Z) : prog (list Z) :=
  '(n, e, d) ← mem (inet_pton family strptr addrptr 0);
  _ ← match e with Some e => put_errno e | None => Ret tt end;
  if n <? 0 then err_sys (str "inet_pton error for " ++ strptr)
  else if n =? 0 then err_quit (str "inet_pton error for " ++ strptr)
  else Ret d.

(** ** wrappthread.c: the calls return an error number, stored in errno *)

Definition pthread_checked (op : pthread_op) (msg : list Z) : prog unit :=
  n ← lib (Epthread op);
  if n =? 0 then Ret tt else _ ← put_errno n; err_sys msg.

Definition Pthread_create (tid attr func arg : Z) : prog unit :=
  pthread_checked (PCreate tid attr func arg) (str "pthread_create error").
Definition Pthread_join (tid status : Z) : prog unit :=
  pthread_checked (PJoin tid status) (str "pthread_join error").
Definition Pthread_detach (tid : Z) : prog unit :=
  pthread_checked (PDetach tid) (str "pthread_detach error").
Definition Pthread_kill (tid signo : Z) : prog unit :=
  pthread_checked (PKill tid signo) (str "pthread_kill error").
Definition Pthread_mutexattr_init (attr : Z) : prog unit :=
  pthread_checked (PMutexattrInit attr) (str "pthread_mutexattr_init error").
Definition Pthread_mutexattr_setpshared (attr flag : Z) : prog unit :=
  pthread_checked (PMutexattrSetpshared attr flag) (str "pthread_mutexattr_setpshared error").
Definition Pthread_mutex_init (m attr : Z) : prog unit :=
  pthread_checked (PMutexInit m attr) (str "pthread_mutex_init error").
Definition Pthread_mutex_lock (m : Z) : prog unit :=
  pthread_checked (PMutexLock m) (str "pthread_mutex_lock error").
Definition Pthread_mutex_unlock (m : Z) : prog unit :=
  pthread_checked (PMutexUnlock m) (str "pthread_mutex_unlock error").
Definition Pthread_cond_broadcast (c : Z) : prog unit :=
  pthread_checked (PCondBroadcast c) (str "pthread_cond_broadcast error").
Definition Pthread_cond_signal (c : Z) : prog unit :=
  pthread_checked (PCondSignal c) (str "pthread_cond_signal error").
Definition Pthread_cond_wait (c m : Z) : prog unit :=
  pthread_checked (PCondWait c m) (str "pthread_cond_wait error").
Definition Pthread_cond_timedwait (c m sec nsec : Z) : prog unit :=
  pthread_checked (PCondTimedwait c m sec nsec) (str "pthread_cond_timedwait error").
Definition Pthread_once (o func : Z) : prog unit :=
  pthread_checked (POnce o func) (str "pthread_once error").
Definition Pthread_key_create (key func : Z) : prog unit :=
  pthread_checked (PKeyCreate key func) (str "pthread_key_create error").
Definition Pthread_setspecific (key value : Z) : prog unit :=
  pthread_checked (PSetspecific key value) (str "pthread_setspecific error").

(** ** What a wrapper guarantees *)

(** The process ends: with status 1 in the foreground. *)
Definition dies {K} `{!Kernel K} {A} (p : prog A) (g : globals) (k : K) : Prop :=
  exists h g' k', run p g k = (Halted h, g', k') /\ (h = Exit 1 \/ h = Fault /\ daemon_proc g <> 0).

(** [W] makes the call [e] and returns [ok v] when the call returns [v];
    when the call fails, or [ok v] is [None], the process ends. *)
Definition guards {X Y} (e : sysE X) (ok : X -> option Y) (W : prog Y) : Prop :=
  forall (K : Type) (HK : Kernel K) (g : globals) (k : K),
    match kcall e k with
    | (Ok v, k') =>
        match ok v with
        | Some y => run W g k = (Done y, g, k')
        | None => dies W g k
        end
    | (Err _, _) => dies W g k
    end.

Section Dies.
Context {K : Type} `{!Kernel K}.

Lemma dies_err_sys {A} msg g (k : K) : dies (err_sys msg : prog A) g k.
Proof. apply run_err_sys. Qed.

(** Dying after a prefix that leaves [daemon_proc] alone. *)
Lemma dies_eq {A B} (p : prog A) (q : prog B) g g1 (k k1 : K) :
  dies q g1 k1 -> daemon_proc g1 = daemon_proc g ->
  (forall h g' k', run q g1 k1 = (Halted h, g', k') -> run p g k = (Halted h, g', k')) ->
  dies p g k.
Proof. intros (h & g' & k' & E & H) Hd Hp. exists h, g', k'. rewrite <- Hd. auto. Qed.
End Dies.

Lemma checked_guards {X} (e : sysE X) msg : guards e Some (checked e msg).
Proof.
  intros K HK g k. unfold checked. destruct (kcall e k) as [[v|n] k'] eqn:E.
  - runs. by rewrite E.
  - eapply dies_eq with (q := err_sys msg) (g1 := set_errno n g) (k1 := k');
      [apply dies_err_sys|done|]. intros h g' k'' R. runs. by rewrite E.
Qed.

Lemma checked__guards {X} (e : sysE X) msg : guards e (fun _ => Some tt) (checked_ e msg).
Proof.
  intros K HK g k. unfold checked_. destruct (kcall e k) as [[v|n] k'] eqn:E.
  - runs. by rewrite E.
  - eapply dies_eq with (q := err_sys msg) (g1 := set_errno n g) (k1 := k');
      [apply dies_err_sys|done|]. intros h g' k'' R. runs. by rewrite E.
Qed.

Lemma checked_count_guards (e : sysE Z) n msg :
  guards e (fun v => if v =? n then Some tt else None) (checked_count e n msg).
Proof.
  intros K HK g k. unfold checked_count. destruct (kcall e k) as [[v|er] k'] eqn:E.
  - destruct (v =? n) eqn:V.
    + runs. rewrite E. cbn iota beta. by rewrite V.
    + eapply dies_eq with (q := err_sys msg) (g1 := g) (k1 := k');
        [apply dies_err_sys|done|]. intros h g' k'' R. runs. rewrite E. cbn iota beta. by rewrite V.
  - eapply dies_eq with (q := err_sys msg) (g1 := set_errno er g) (k1 := k');
      [apply dies_err_sys|done|]. intros h g' k'' R. runs. by rewrite E.
Qed.

Ltac guarded :=
  intros; first [apply checked_guards | apply checked__guards | apply checked_count_guards].


(** Accept: the connections that were reset before they could be accepted. *)
Inductive accepts {K} `{!Kernel K} (fd : Z) : nat -> K -> Z * (sockaddr * Z) -> K -> Prop :=
  | accepts_now k v k' : kcall (Eaccept fd) k = (Ok v, k') -> accepts fd 0 k v k'
  | accepts_later n k e k1 v k' :
      kcall (Eaccept fd) k = (Err e, k1) -> e = EPROTO \/ e = ECONNABORTED ->
      accepts fd n k1 v k' -> accepts fd (S n) k v k'.

(** Accept survives aborted connections: when the kernel reports any number
    [n] of aborted connections (EPROTO, ECONNABORTED) before a good one, Accept
    returns the good one after n + 1 calls. *)
Theorem Accept_skips_aborted {K} `{!Kernel K} fd n fuel (k : K) v k' g :
  accepts fd n k v k' -> (n < fuel)%nat ->
  exists g', run (Accept fuel fd) g k = (Done v, g', k').
Proof.
  intros H. revert fuel g. induction H as [k v k' E|n k e k1 v k' E He H IH]; intros [|f] g Hf;
    try lia; cbn [Accept]; runs; rewrite E; cbn beta iota; [by eexists|].
  runs. change (errno (set_errno e g)) with e.
  replace ((e =? EPROTO) || (e =? ECONNABORTED)) with true by (destruct He as [->| ->]; done).
  apply IH. lia.
Qed.

(** A kernel that reports an aborted connection and then descriptor 5. *)
Definition aborting_kernel : Kernel nat := {|
  kcall X e :=
    match e in sysE X return nat -> res X * nat with
    | Eaccept _ => fun k =>
        (if decide (k = 0%nat) then Err ECONNABORTED else Ok (5, (SaIn (SockaddrIn 1 [1; 2; 3; 4]), 16)),
         S k)
    | _ => fun k => (Err ENOSYS, k)
    end;
  klib X e k := ((@klib unit (failing_kernel ENOSYS) X e tt).1, k) |}.

Lemma Accept_skips_aborted_witness :
  exists g', @run _ aborting_kernel _ (Accept 2 3) globals0 0%nat =
    (Done (5, (SaIn (SockaddrIn 1 [1; 2; 3; 4]), 16)), g', 2%nat).
Proof.
  apply (@Accept_skips_aborted nat aborting_kernel 3 1 2); [|lia].
  eapply accepts_later; [reflexivity|by right|]. by apply accepts_now.
Defined.
