(* ===== verification/StreamIO.v ===== *)
(** * Stream I/O: lib/readn.c, writen.c, readline.c, str_echo.c

    The loops that turn short counts and interrupted calls into whole
    transfers, translated with their buffers and static variables.  Buffers
    are byte arrays with bounds-checked accesses; a loop takes [fuel], the
    number of system calls it may make, and stops with [Spin] when that is
    used up, so that a theorem giving a result is a termination theorem.

    What the code relies on is [StreamKernel], the contract of read and write
    on a connected stream socket: short counts are allowed, calls may be
    interrupted (finitely often), bytes arrive once and in order. *)
From stdpp Require Import base list numbers strings gmap.
From S2P Require Import Prelude InetAddr Sys Error Wrap.

(** The [n] bytes at offset [off] of an array. *)
Definition asub {A} (a : list A) (off n : Z) : option (list A) :=
  if (0 <=? off) && (0 <=? n) && (off + n <=? Z.of_nat (length a))
  then Some (take (Z.to_nat n) (drop (Z.to_nat off) a)) else None.

(** ** readn.c *)

(** The while loop; returns the value and the buffer. *)
Fixpoint readn_loop (fuel : nat) (fd : Z) (buf : list Z) (ptr nleft n : Z)
  : prog (Z * list Z) :=
  if 0 <? nleft then
    match fuel with
    | O => Halt Spin
    | S f =>
        r ← call (Eread fd nleft);
        match r with
        | Err _ =>
            e ← get_errno;
            if e =? EINTR then readn_loop f fd buf ptr nleft n else Ret (-1, buf)
        | Ok bs =>
            buf1 ← mem (memcpy buf ptr bs);
            let nread := Z.of_nat (length bs) in
            if nread =? 0 then Ret (n - nleft, buf1)
            else readn_loop f fd buf1 (ptr + nread) (nleft - nread) n
        end
    end
  else Ret (n - nleft, buf).

Definition readn (fuel : nat) (fd : Z) (vptr : list Z) (n : Z) : prog (Z * list Z) :=
  readn_loop fuel fd vptr 0 n n.

Definition Readn (fuel : nat) (fd : Z) (ptr : list Z) (nbytes : Z) : prog (Z * list Z) :=
  '(n, buf) ← readn fuel fd ptr nbytes;
  if n <? 0 then err_sys (str "readn error") else Ret (n, buf).

(** ** writen.c *)

Fixpoint writen_loop (fuel : nat) (fd : Z) (vptr : list Z) (ptr nleft n : Z) : prog Z :=
  if 0 <? nleft then
    match fuel with
    | O => Halt Spin
    | S f =>
        bs ← mem (asub vptr ptr nleft);
        r ← call (Ewrite fd bs);
        match r with
        | Err _ =>
            e ← get_errno;
            if e =? EINTR then writen_loop f fd vptr ptr nleft n else Ret (-1)
        | Ok nwritten =>
            if nwritten <=? 0 then Ret (-1)
            else writen_loop f fd vptr (ptr + nwritten) (nleft - nwritten) n
        end
    end
  else Ret n.

Definition writen (fuel : nat) (fd : Z) (vptr : list Z) (n : Z) : prog Z :=
  writen_loop fuel fd vptr 0 n n.

Definition Writen (fuel : nat) (fd : Z) (ptr : list Z) (nbytes : Z) : prog unit :=
  n ← writen fuel fd ptr nbytes;
  if n =? nbytes then Ret tt else err_sys (str "writen error").

(** ** readline.c *)

(** From the label [again], with [size] the sizeof(read_buf): 1 when read_buf was
    refilled, else the return value. *)
Fixpoint my_read_again (size : Z) (fuel : nat) (fd : Z) : prog Z :=
  match fuel with
  | O => Halt Spin
  | S f =>
      r ← call (Eread fd size);
      match r with
      | Err _ => Get (fun g =>
          Put (set_reader (-1) (read_ptr g) (read_buf g) g)
            (if errno g =? EINTR then my_read_again size f fd else Ret (-1)))
      | Ok bs => Get (fun g =>
          buf ← mem (memcpy (read_buf g) 0 bs);
          let cnt := Z.of_nat (length bs) in
          if cnt =? 0 then Put (set_reader 0 (read_ptr g) buf g) (Ret 0)
          else Put (set_reader cnt (Some 0) buf g) (Ret 1))
      end
  end.

(** read_cnt--; *ptr = *read_ptr++; return 1 *)
Definition my_read_take : prog (Z * Z) :=
  Get (fun g =>
    p ← mem (read_ptr g);
    c ← mem (aread (read_buf g) p);
    Put (set_reader (read_cnt g - 1) (Some (p + 1)) (read_buf g) g) (Ret (1, c))).

(** my_read(fd, &c): the return value and c, which is left alone (0 here)
    unless the value is 1. *)
Definition my_read (size : Z) (fuel : nat) (fd : Z) : prog (Z * Z) :=
  Get (fun g =>
    if read_cnt g <=? 0 then
      rc ← my_read_again size fuel fd;
      if rc =? 1 then my_read_take else Ret (rc, 0)
    else my_read_take).

(** The for loop with [k = maxlen - n] rounds left; [ptr] is the offset of the
    next byte. *)
Fixpoint readline_loop (fuel k : nat) (fd : Z) (buf : list Z) (ptr n : Z) : prog (Z * list Z) :=
  match k with
  | O => buf1 ← mem (awrite buf ptr 0); Ret (n, buf1)
  | S k' =>
      '(rc, c) ← my_read MAXLINE fuel fd;
      if rc =? 1 then
        buf1 ← mem (awrite buf ptr c);
        if c =? 10 then buf2 ← mem (awrite buf1 (ptr + 1) 0); Ret (n, buf2)
        else readline_loop fuel k' fd buf1 (ptr + 1) (n + 1)
      else if rc =? 0 then buf1 ← mem (awrite buf ptr 0); Ret (n - 1, buf1)
      else Ret (-1, buf)
  end.

Definition readline (fuel : nat) (fd : Z) (vptr : list Z) (maxlen : Z) : prog (Z * list Z) :=
  readline_loop fuel (Z.to_nat (maxlen - 1)) fd vptr 0 1.

(** The count and, when it is not zero, the pointer. *)
Definition readlinebuf : prog (Z * option (option Z)) :=
  Get (fun g => Ret (read_cnt g, if read_cnt g =? 0 then None else Some (read_ptr g))).

Definition Readline (fuel : nat) (fd : Z) (ptr : list Z) (maxlen : Z) : prog (Z * list Z) :=
  '(n, buf) ← readline fuel fd ptr maxlen;
  if n <? 0 then err_sys (str "readline error") else Ret (n, buf).

(** ** str_echo.c *)

(** [fuel] bounds the reads, [wfuel] the writes of each Writen. *)
Fixpoint str_echo (fuel wfuel : nat) (sockfd : Z) (buf : list Z) : prog unit :=
  match fuel with
  | O => Halt Spin
  | S f =>
      r ← call (Eread sockfd MAXLINE);
      match r with
      | Ok bs =>
          buf1 ← mem (memcpy buf 0 bs);
          let n := Z.of_nat (length bs) in
          if 0 <? n then _ ← Writen wfuel sockfd buf1 n; str_echo f wfuel sockfd buf1
          else Ret tt
      | Err _ =>
          e ← get_errno;
          if e =? EINTR then str_echo f wfuel sockfd buf
          else err_sys (str "str_echo: read error")
      end
  end.

(** ** The contract of a connected stream socket *)

Class StreamKernel (K : Type) `{!Kernel K} := {
  (** the connection is up: a call on it works or is interrupted *)
  connected : K -> Z -> Prop;
  (** the bytes that will still be received, up to the peer's end of file *)
  inbox : K -> Z -> list Z;
  (** the bytes accepted so far for the peer *)
  outbox : K -> Z -> list Z;
  (** how many more calls can be interrupted by a signal *)
  signals : K -> nat;
  read_contract : forall k fd n, connected k fd -> 0 < n ->
    match kcall (Eread fd n) k with
    | (Ok bs, k') =>
        connected k' fd /\ inbox k fd = bs ++ inbox k' fd /\ Z.of_nat (length bs) <= n /\
        (bs = [] -> inbox k fd = []) /\ outbox k' fd = outbox k fd /\ (signals k' <= signals k)%nat
    | (Err e, k') =>
        connected k' fd /\ e = EINTR /\ inbox k' fd = inbox k fd /\
        outbox k' fd = outbox k fd /\ (signals k' < signals k)%nat
    end;
  write_contract : forall k fd bs, connected k fd -> bs <> [] ->
    match kcall (Ewrite fd bs) k with
    | (Ok n, k') =>
        connected k' fd /\ 0 < n <= Z.of_nat (length bs) /\
        outbox k' fd = outbox k fd ++ take (Z.to_nat n) bs /\ inbox k' fd = inbox k fd /\
        (signals k' <= signals k)%nat
    | (Err e, k') =>
        connected k' fd /\ e = EINTR /\ inbox k' fd = inbox k fd /\
        outbox k' fd = outbox k fd /\ (signals k' < signals k)%nat
    end }.
