(* ===== verification/StreamProofs.v ===== *)
(** * Correctness of stream I/O

    Total correctness of readn, writen, readline and str_echo over any
    [StreamKernel]: for every way the system cuts the transfers into pieces and
    interrupts the calls, the functions return, and transfer exactly the bytes
    they promise. *)
From stdpp Require Import base list numbers strings gmap.
From S2P Require Import Prelude InetAddr Sys Error Wrap StreamIO.

(** Two states of the static variables that differ in errno only. *)
Definition errno_only (g g' : globals) : Prop := exists e, g' = set_errno e g.

Lemma errno_only_refl g : errno_only g g.
Proof. exists (errno g). by destruct g. Qed.
Lemma errno_only_set e g g' : errno_only (set_errno e g) g' -> errno_only g g'.
Proof. intros [e' ->]. by exists e'. Qed.
Lemma errno_only_trans g g' g'' : errno_only g g' -> errno_only g' g'' -> errno_only g g''.
Proof. intros [e ->] [e' ->]. by exists e'. Qed.
#[export] Hint Resolve errno_only_refl errno_only_set : unp.

Section Stream.
Context {K : Type} `{HK : !Kernel K} `{HS : !StreamKernel K}.
Implicit Types (k : K) (g : globals).

(** The state after [m] bytes were received. *)
Definition received (fd : Z) (m : nat) k k' : Prop :=
  connected k' fd /\ inbox k' fd = drop m (inbox k fd) /\ outbox k' fd = outbox k fd /\
  (signals k' <= signals k)%nat.

Lemma readn_loop_spec fd fuel k g buf ptr nleft n :
  connected k fd -> 0 <= nleft -> 0 <= ptr -> ptr + nleft <= Z.of_nat (length buf) ->
  (Z.to_nat nleft + signals k <= fuel)%nat ->
  exists m g' k' buf',
    run (readn_loop fuel fd buf ptr nleft n) g k = (Done (n - nleft + Z.of_nat m, buf'), g', k') /\
    m = (Z.to_nat nleft `min` length (inbox k fd))%nat /\
    memcpy buf ptr (take m (inbox k fd)) = Some buf' /\
    received fd m k k' /\ errno_only g g'.
Proof.
  revert k g buf ptr nleft.
  induction fuel as [|f IH]; intros k g buf ptr nleft Hc Hn Hp Hb Hf; cbn [readn_loop].
  { assert (nleft = 0) as -> by lia. change (0 <? 0) with false. cbn iota. runs.
    eexists 0%nat, _, _, _. split; [do 4 f_equal; lia|]. split; [done|].
    split; [by apply memcpy_nil; lia|]. unfold received. auto with unp. }
  destruct (Z.ltb_spec 0 nleft) as [Hl|Hl].
  2:{ assert (nleft = 0) as -> by lia. runs.
    eexists 0%nat, _, _, _. split; [do 4 f_equal; lia|]. split; [done|].
    split; [by apply memcpy_nil; lia|]. unfold received. auto with unp. }
  runs. pose proof (read_contract k fd nleft Hc Hl) as HR.
  destruct (kcall (Eread fd nleft) k) as [[bs|e] k1]; cbn beta iota.
  - destruct HR as (Hc1 & Hin & Hlen & Heof & Hout & Hsig).
    runs. rewrite (memcpy_is_Some buf bs ptr) by lia.
    destruct (Z.eqb_spec (Z.of_nat (length bs)) 0) as [E0|E0].
    + assert (bs = []) as -> by (destruct bs; [done|simpl in E0; lia]).
      specialize (Heof eq_refl). runs. eexists 0%nat, _, _, _.
      split; [do 4 f_equal; lia|]. split; [rewrite Heof; simpl; lia|].
      split; [by apply (memcpy_is_Some buf [] ptr); simpl; lia|].
      unfold received. rewrite Heof in *. auto with unp.
    + set (buf1 := _ ++ _).
      assert (memcpy buf ptr bs = Some buf1) as Hm by (apply memcpy_is_Some; lia).
      pose proof (memcpy_Some_length _ _ _ _ Hm) as Hl1.
      destruct (IH k1 g buf1 (ptr + Z.of_nat (length bs)) (nleft - Z.of_nat (length bs)))
        as (m & g' & k' & buf' & E & Em & Ecp & HRc & Hg); [done|lia..|].
      exists (length bs + m)%nat, g', k', buf'. rewrite E. split; [do 4 f_equal; lia|].
      split; [rewrite Hin, length_app; lia|].
      rewrite (memcpy_memcpy _ _ _ _ _ Hm) in Ecp. rewrite Hin.
      rewrite take_app_add. split; [done|]. split; [|done].
      destruct HRc as (? & Hd & ? & ?). unfold received. rewrite Hin, drop_app_add.
      split_and!; [done|done|congruence|lia].
  - destruct HR as (Hc1 & -> & Hin & Hout & Hsig). runs. cbn [errno set_errno].
    change (EINTR =? EINTR) with true. cbn iota.
    destruct (IH k1 (set_errno EINTR g) buf ptr nleft)
      as (m & g' & k' & buf' & E & Em & Ecp & HRc & Hg); [done|lia..|].
    exists m, g', k', buf'. rewrite E. split; [done|]. rewrite Hin in *. split; [done|].
    split; [done|]. split; [|by eauto with unp].
    destruct HRc as (? & Hd & ? & ?). unfold received.
    rewrite Hin in *. split_and!; [done|done|congruence|lia].
Qed.

(** The state after [bs] was sent. *)
Definition sent (fd : Z) (bs : list Z) k k' : Prop :=
  connected k' fd /\ inbox k' fd = inbox k fd /\ outbox k' fd = outbox k fd ++ bs /\
  (signals k' <= signals k)%nat.

Lemma asub_take (v : list Z) n :
  0 <= n <= Z.of_nat (length v) -> asub v 0 n = Some (take (Z.to_nat n) v).
Proof. intros. unfold asub. zbool. Qed.

Lemma asub_length (v bs : list Z) off n : asub v off n = Some bs -> Z.of_nat (length bs) = n.
Proof.
  unfold asub. intros E. case_match eqn:C; [|done]. injection E as <-.
  apply andb_prop in C as [C1 C2]. apply andb_prop in C1 as [C0 C1].
  rewrite Z.leb_le in *. rewrite length_take, length_drop. lia.
Qed.

(** The rest of a slice. *)
Lemma asub_drop (v bs : list Z) off n m :
  asub v off n = Some bs -> 0 <= m <= n ->
  asub v (off + m) (n - m) = Some (drop (Z.to_nat m) bs).
Proof.
  unfold asub. intros E Hm. case_match eqn:C; [|done]. injection E as <-.
  apply andb_prop in C as [C1 C2]. apply andb_prop in C1 as [C0 C1]. rewrite Z.leb_le in *.
  destruct (Z.leb_spec 0 (off + m)); [|lia]. destruct (Z.leb_spec 0 (n - m)); [|lia].
  destruct (Z.leb_spec (off + m + (n - m)) (Z.of_nat (length v))); [|lia]. simpl. f_equal.
  rewrite skipn_firstn_comm, drop_drop. f_equal; [lia|f_equal; lia].
Qed.

Lemma writen_loop_spec fd fuel k g v ptr nleft n bs :
  connected k fd -> 0 <= nleft -> asub v ptr nleft = Some bs ->
  (Z.to_nat nleft + signals k <= fuel)%nat ->
  exists g' k', run (writen_loop fuel fd v ptr nleft n) g k = (Done n, g', k') /\
    sent fd bs k k' /\ errno_only g g'.
Proof.
  revert k g ptr nleft bs.
  induction fuel as [|f IH]; intros k g ptr nleft bs Hc Hn Hs Hf; cbn [writen_loop];
    pose proof (asub_length _ _ _ _ Hs) as Hlen.
  { assert (nleft = 0) as -> by lia. change (0 <? 0) with false. cbn iota. runs.
    destruct bs; [|simpl in Hlen; lia]. eexists _, _. split; [done|].
    unfold sent. rewrite app_nil_r. auto with unp. }
  destruct (Z.ltb_spec 0 nleft) as [Hl|Hl].
  2:{ assert (nleft = 0) as -> by lia. runs.
    destruct bs; [|simpl in Hlen; lia]. eexists _, _. split; [done|].
    unfold sent. rewrite app_nil_r. auto with unp. }
  runs. rewrite Hs. runs. assert (bs <> []) as Hne by (intros ->; simpl in Hlen; lia).
  pose proof (write_contract k fd bs Hc Hne) as HW.
  destruct (kcall (Ewrite fd bs) k) as [[w|e] k1]; cbn beta iota.
  - destruct HW as (Hc1 & Hw & Hout & Hin & Hsig).
    destruct (Z.leb_spec w 0); [lia|].
    destruct (IH k1 g (ptr + w) (nleft - w) (drop (Z.to_nat w) bs))
      as (g' & k' & E & (HC & HI & HO & HSg) & Hg); [done|lia|apply asub_drop; [done|lia]|lia|].
    exists g', k'. rewrite E. split; [done|]. split; [|done]. unfold sent.
    rewrite HO, Hout, <- app_assoc, take_drop. split_and!; [done|congruence|done|lia].
  - destruct HW as (Hc1 & -> & Hin & Hout & Hsig). runs. cbn [errno set_errno].
    change (EINTR =? EINTR) with true. cbn iota.
    destruct (IH k1 (set_errno EINTR g) ptr nleft bs)
      as (g' & k' & E & (HC & HI & HO & HSg) & Hg); [done..|lia|].
    exists g', k'. rewrite E. split; [done|]. split; [|by eauto with unp]. unfold sent.
    split_and!; [done|congruence|congruence|lia].
Qed.

Lemma writen_spec fd fuel k g v n :
  connected k fd -> 0 <= n <= Z.of_nat (length v) -> (Z.to_nat n + signals k <= fuel)%nat ->
  exists g' k', run (writen fuel fd v n) g k = (Done n, g', k') /\
    sent fd (take (Z.to_nat n) v) k k' /\ errno_only g g'.
Proof. intros. apply writen_loop_spec; [done|lia|by apply asub_take|done]. Qed.

Lemma Writen_spec fd fuel k g v n :
  connected k fd -> 0 <= n <= Z.of_nat (length v) -> (Z.to_nat n + signals k <= fuel)%nat ->
  exists g' k', run (Writen fuel fd v n) g k = (Done tt, g', k') /\
    sent fd (take (Z.to_nat n) v) k k' /\ errno_only g g'.
Proof.
  intros. destruct (writen_spec fd fuel k g v n) as (g' & k' & E & H'); [done..|].
  exists g', k'. split; [|done]. unfold Writen. rewrite run_bind, E. by rewrite Z.eqb_refl.
Qed.

(** ** str_echo *)

Lemma str_echo_spec fd wfuel fuel k g buf :
  connected k fd -> Z.of_nat (length buf) = MAXLINE ->
  (length (inbox k fd) + signals k < fuel)%nat ->
  (Z.to_nat MAXLINE + signals k <= wfuel)%nat ->
  exists g' k', run (str_echo fuel wfuel fd buf) g k = (Done tt, g', k') /\
    connected k' fd /\ inbox k' fd = [] /\ outbox k' fd = outbox k fd ++ inbox k fd /\
    errno_only g g'.
Proof.
  revert k g buf. induction fuel as [|f IH]; intros k g buf Hc Hb Hf Hw; [lia|]. cbn [str_echo].
  runs. pose proof (read_contract k fd MAXLINE Hc ltac:(done)) as HR.
  destruct (kcall (Eread fd MAXLINE) k) as [[bs|e] k1]; cbn beta iota.
  - destruct HR as (Hc1 & Hin & Hlen & Heof & Hout & Hsig).
    assert (exists buf1, memcpy buf 0 bs = Some buf1 /\ length buf1 = length buf /\
      take (length bs) buf1 = bs) as (buf1 & Em & Hl1 & Ht).
    { eexists. split; [apply memcpy_is_Some; lia|].
      change (Z.to_nat 0) with 0%nat. rewrite take_0, !app_nil_l. split; [|apply take_app_length].
      rewrite length_app, length_drop. lia. }
    runs. rewrite Em. destruct (Z.ltb_spec 0 (Z.of_nat (length bs))) as [Hp|Hp].
    + runs. destruct (Writen_spec fd wfuel k1 g buf1 (Z.of_nat (length bs)))
        as (g1 & k2 & E & (HC & HI & HO & HSg) & Hg); [done|lia|lia|].
      rewrite E. rewrite Nat2Z.id, Ht in HO.
      destruct (IH k2 g1 buf1) as (g' & k' & E' & HC' & HI' & HO' & Hg'); [done|lia| |lia|].
      { rewrite HI. rewrite Hin, length_app in Hf. lia. }
      exists g', k'. split_and!; [done..| |by eapply errno_only_trans].
      rewrite HO', HO, HI, Hout, <- app_assoc, <- Hin. done.
    + assert (bs = []) as -> by (destruct bs; [done|simpl in Hp; lia]).
      specialize (Heof eq_refl). runs. eexists _, _. split; [done|].
      rewrite Heof in *. simpl in Hin. rewrite <- Hin, Hout, app_nil_r. auto with unp.
  - destruct HR as (Hc1 & -> & Hin & Hout & Hsig). runs. cbn [errno set_errno].
    change (EINTR =? EINTR) with true. cbn iota.
    destruct (IH k1 (set_errno EINTR g) buf) as (g' & k' & E' & HC' & HI' & HO' & Hg');
      [done|lia|rewrite Hin; lia|lia|].
    exists g', k'. rewrite Hin, Hout in *. split_and!; eauto with unp.
Qed.
(** ** readline

    The bytes in [read_buf] and the bytes still to be received are one stream;
    the reference takes a line off it. *)

Definition buffered g : list Z :=
  if 0 <? read_cnt g then
    match read_ptr g with
    | Some p => take (Z.to_nat (read_cnt g)) (drop (Z.to_nat p) (read_buf g))
    | None => []
    end
  else [].

(** The invariant of readline.c's static variables. *)
Record reader_ok size g : Prop := {
  ro_buf : Z.of_nat (length (read_buf g)) = size;
  ro_ptr : 0 < read_cnt g -> exists p, read_ptr g = Some p /\ 0 <= p /\
             p + read_cnt g <= size }.

Definition stream g k (fd : Z) : list Z := buffered g ++ inbox k fd.

(** The line at the head of a stream, at most [m] bytes of it. *)
Fixpoint line (m : nat) (s : list Z) : list Z :=
  match m, s with
  | S m', c :: s' => c :: (if c =? 10 then [] else line m' s')
  | _, _ => []
  end.

(** Whether the line was cut because [m] bytes were stored without a newline. *)
Fixpoint line_cut (m : nat) (s : list Z) : bool :=
  match m, s with
  | O, _ => true
  | S m', c :: s' => if c =? 10 then false else line_cut m' s'
  | S _, [] => false
  end.

(** What a call of readline or my_read keeps. *)
Definition keeps (size fd : Z) g k g' k' : Prop :=
  connected k' fd /\ reader_ok size g' /\ outbox k' fd = outbox k fd /\
  (signals k' <= signals k)%nat /\ daemon_proc g' = daemon_proc g.

Lemma keeps_trans size fd g1 k1 g2 k2 g3 k3 :
  keeps size fd g1 k1 g2 k2 -> keeps size fd g2 k2 g3 k3 -> keeps size fd g1 k1 g3 k3.
Proof.
  intros (_ & _ & O1 & S1 & D1) (C2 & R2 & O2 & S2 & D2).
  split_and!; [done|done|congruence|lia|congruence].
Qed.

Lemma my_read_again_spec size fd fuel k g :
  0 < size ->   connected k fd -> reader_ok size g -> (signals k < fuel)%nat ->
  exists g' k' rc, run (my_read_again size fuel fd) g k = (Done rc, g', k') /\
    keeps size fd g k g' k' /\
    (rc = 1 /\ 0 < read_cnt g' /\ stream g' k' fd = inbox k fd \/
     rc = 0 /\ read_cnt g' = 0 /\ inbox k fd = [] /\ inbox k' fd = []).
Proof.
  intros Hsz. revert k g. induction fuel as [|f IH]; intros k g Hc Hr Hf; [lia|]. cbn [my_read_again].
  runs. pose proof (read_contract k fd size Hc Hsz) as HR.
  destruct (kcall (Eread fd size) k) as [[bs|e] k1]; cbn beta iota.
  - destruct HR as (Hc1 & Hin & Hlen & Heof & Hout & Hsig). cbn [run]. runs.
    rewrite memcpy_is_Some by (rewrite ?(ro_buf _ _ Hr); lia).
    change (Z.to_nat 0) with 0%nat. rewrite take_0, !app_nil_l, Nat.add_0_l.
    assert (Z.of_nat (length (bs ++ drop (length bs) (read_buf g))) = size) as HL.
    { pose proof (ro_buf _ _ Hr). rewrite length_app, length_drop. lia. }
    destruct (Z.eqb_spec (Z.of_nat (length bs)) 0) as [E0|E0]; cbn [run].
    + assert (bs = []) as -> by (destruct bs; [done|simpl in E0; lia]).
      specialize (Heof eq_refl). eexists _, _, _. split; [done|].
      split; [split_and!; [done| |done|lia|done]; by constructor; [|simpl; lia]|].
      right. rewrite Hin in Heof. rewrite Hin. simpl in *. auto.
    + eexists _, _, _. split; [done|]. split.
      * split_and!; [done| |done|lia|done]. constructor; [done|]. cbn. intros _.
        exists 0. split; [done|lia].
      * left. split; [done|]. split; [cbn; lia|]. unfold stream, buffered. cbn.
        destruct (Z.ltb_spec 0 (Z.of_nat (length bs))); [|lia].
        by rewrite Nat2Z.id, drop_0, take_app_length.
  - destruct HR as (Hc1 & -> & Hin & Hout & Hsig). cbn [run].
    cbn [errno set_errno]. change (EINTR =? EINTR) with true. cbn iota.
    destruct (IH k1 (set_reader (-1) (read_ptr g) (read_buf g) (set_errno EINTR g)))
      as (g' & k' & rc & E & HK' & Hrc); [done| |lia|].
    { destruct Hr. constructor; [done|]. cbn. lia. }
    exists g', k', rc. split; [done|]. rewrite Hin in *. split; [|done].
    destruct HK' as (C2 & R2 & O2 & S2 & D2). split_and!; [done|done|congruence|lia|done].
Qed.

Lemma my_read_take_spec size fd k g :
  connected k fd -> reader_ok size g -> 0 < read_cnt g ->
  exists c s g', run my_read_take g k = (Done (1, c), g', k) /\
    stream g k fd = c :: s /\ stream g' k fd = s /\ keeps size fd g k g' k.
Proof.
  intros Hc [Hb Hp] Hcnt. destruct (Hp Hcnt) as (p & Ep & Hp0 & Hpc). unfold my_read_take.
  cbn [run]. rewrite Ep. runs.
  destruct (lookup_lt_is_Some_2 (read_buf g) (Z.to_nat p)) as [c Hl]; [lia|].
  unfold aread. destruct (Z.ltb_spec p 0); [lia|]. rewrite Hl. cbn [run].
  exists c, (take (Z.to_nat (read_cnt g - 1)) (drop (Z.to_nat (p + 1)) (read_buf g)) ++ inbox k fd).
  eexists. split; [done|]. unfold stream, buffered. rewrite Ep. cbn [read_cnt read_ptr read_buf set_reader].
  destruct (Z.ltb_spec 0 (read_cnt g)); [|lia]. split; [|split].
  - rewrite (drop_S _ _ _ Hl). replace (Z.to_nat (read_cnt g)) with (S (Z.to_nat (read_cnt g - 1))) by lia.
    by replace (Z.to_nat (p + 1)) with (S (Z.to_nat p)) by lia.
  - f_equal. destruct (Z.ltb_spec 0 (read_cnt g - 1)); [done|].
    by replace (Z.to_nat (read_cnt g - 1)) with 0%nat by lia.
  - split_and!; [done| |done|lia|done]. constructor; [done|]. cbn. intros.
    exists (p + 1). split; [done|]. lia.
Qed.

Lemma my_read_spec size fd fuel k g :
  0 < size ->   connected k fd -> reader_ok size g -> (signals k < fuel)%nat ->
  exists g' k', keeps size fd g k g' k' /\
    match stream g k fd with
    | [] => run (my_read size fuel fd) g k = (Done (0, 0), g', k') /\ stream g' k' fd = []
    | c :: s => run (my_read size fuel fd) g k = (Done (1, c), g', k') /\ stream g' k' fd = s
    end.
Proof.
  intros Hsz Hc Hr Hf. unfold my_read. cbn [run].
  destruct (Z.leb_spec (read_cnt g) 0) as [Hcnt|Hcnt].
  - assert (stream g k fd = inbox k fd) as ->
      by (unfold stream, buffered; destruct (Z.ltb_spec 0 (read_cnt g)); [lia|done]).
    rewrite run_bind.
    destruct (my_read_again_spec size fd fuel k g Hsz Hc Hr Hf) as (g1 & k1 & rc & E & HK1 & Hrc).
    rewrite E. destruct Hrc as [(-> & Hp & Hs)|(-> & H0 & Hi & Hi')].
    + cbn [Z.eqb Pos.eqb]. pose proof HK1 as (Hc1 & Hr1 & _).
      destruct (my_read_take_spec size fd k1 g1 Hc1 Hr1 Hp) as (c & s & g2 & E2 & Hs2 & Hs3 & HK2).
      rewrite Hs in Hs2. rewrite Hs2. exists g2, k1. split; [by eapply keeps_trans|done].
    + rewrite Hi. cbn. exists g1, k1. split_and!; [done..|].
      unfold stream, buffered. by rewrite H0, Hi'.
  - destruct (my_read_take_spec size fd k g Hc Hr Hcnt) as (c & s & g2 & E2 & Hs2 & Hs3 & HK2).
    rewrite Hs2. exists g2, k. done.
Qed.

Lemma readline_loop_spec fd fuel m k g buf ptr n :
  connected k fd -> reader_ok MAXLINE g -> (signals k < fuel)%nat ->
  0 <= ptr -> ptr + Z.of_nat m + 1 <= Z.of_nat (length buf) ->
  exists g' k' buf',
    run (readline_loop fuel m fd buf ptr n) g k =
      (Done (n - 1 + Z.of_nat (length (line m (stream g k fd))) +
             (if line_cut m (stream g k fd) then 1 else 0), buf'), g', k') /\
    memcpy buf ptr (line m (stream g k fd) ++ [0]) = Some buf' /\
    stream g' k' fd = drop (length (line m (stream g k fd))) (stream g k fd) /\
    keeps MAXLINE fd g k g' k'.
Proof.
  revert k g buf ptr n. induction m as [|m IH]; intros k g buf ptr n Hc Hr Hf Hp Hb.
  - cbn [readline_loop]. runs. rewrite awrite_memcpy, memcpy_is_Some by (simpl; lia).
    eexists _, _, _. split; [|split; [by apply memcpy_is_Some; simpl; lia|]].
    + cbn [line line_cut length run]. do 4 f_equal. lia.
    + split; [done|]. by split_and!.
  - cbn [readline_loop]. rewrite run_bind.
    destruct (my_read_spec MAXLINE fd fuel k g ltac:(done) Hc Hr Hf) as (g1 & k1 & HK1 & Hm).
    destruct (stream g k fd) as [|c s] eqn:Es; destruct Hm as [E Hs]; rewrite E; cbn beta iota.
    + change (0 =? 1) with false. change (0 =? 0) with true. cbn iota. runs.
      rewrite awrite_memcpy, memcpy_is_Some by (simpl; lia).
      eexists _, _, _. split; [|split; [by apply memcpy_is_Some; simpl; lia|]].
      * cbn [line line_cut length run]. do 4 f_equal. lia.
      * split; [done|]. by destruct HK1 as (? & ? & ? & ? & ?); split_and!.
    + change (1 =? 1) with true. cbn iota. runs.
      assert (exists b1, memcpy buf ptr [c] = Some b1) as [b1 E1]
        by (eexists; apply memcpy_is_Some; simpl; lia).
      pose proof (memcpy_Some_length _ _ _ _ E1) as L1.
      rewrite awrite_memcpy, E1. cbn [line line_cut].
      destruct (Z.eqb_spec c 10) as [Ec|Ec].
      * runs. assert (exists b2, memcpy b1 (ptr + 1) [0] = Some b2) as [b2 E2]
          by (eexists; apply memcpy_is_Some; simpl; lia).
        rewrite awrite_memcpy, E2. cbn [run]. exists g1, k1, b2.
        split; [do 4 f_equal; simpl; lia|].
        change 1 with (Z.of_nat (length [c])) in E2.
        rewrite (memcpy_memcpy _ _ _ _ _ E1) in E2. split_and!; done.
      * pose proof HK1 as (Hc1 & Hr1 & _ & Hsig & _).
        destruct (IH k1 g1 b1 (ptr + 1) (n + 1)) as (g' & k' & b' & E' & Em & Hs' & HK2);
          [done|done|lia|lia|lia|].
        exists g', k', b'. rewrite E', Hs in *. split; [do 4 f_equal; simpl; lia|].
        change 1 with (Z.of_nat (length [c])) in Em.
        rewrite (memcpy_memcpy _ _ _ _ _ E1) in Em.
        split_and!; [done|done|]. by eapply keeps_trans.
Qed.

Lemma readline_spec fd fuel k g buf maxlen :
  connected k fd -> reader_ok MAXLINE g -> (signals k < fuel)%nat ->
  0 < maxlen <= Z.of_nat (length buf) ->
  let s := stream g k fd in let m := Z.to_nat (maxlen - 1) in
  exists g' k' buf',
    run (readline fuel fd buf maxlen) g k =
      (Done (Z.of_nat (length (line m s)) + (if line_cut m s then 1 else 0), buf'), g', k') /\
    memcpy buf 0 (line m s ++ [0]) = Some buf' /\
    stream g' k' fd = drop (length (line m s)) s /\ keeps MAXLINE fd g k g' k'.
Proof.
  intros Hc Hr Hf Hm s m. unfold readline.
  destruct (readline_loop_spec fd fuel m k g buf 0 1) as (g' & k' & b & E & H); [done..|lia|lia|].
  exists g', k', b. split; [exact E|done].
Qed.
End Stream.

(** ** A system that keeps the contract

    [sim_in] is what read will return, chunk by chunk, an empty chunk being an
    interruption; [sim_wr] the sizes write will accept, 0 being an
    interruption (then everything). *)
Record sim := Sim { sim_in : list (list Z); sim_wr : list nat; sim_out : list Z }.

Definition sim_read (n : Z) (k : sim) : res (list Z) * sim :=
  match sim_in k with
  | [] => (Ok [], k)
  | [] :: cs => (Err EINTR, Sim cs (sim_wr k) (sim_out k))
  | c :: cs =>
      (Ok (take (Z.to_nat n) c),
       Sim (if decide (length c <= Z.to_nat n)%nat then cs else drop (Z.to_nat n) c :: cs)
         (sim_wr k) (sim_out k))
  end.

Definition sim_write (bs : list Z) (k : sim) : res Z * sim :=
  match sim_wr k with
  | [] => (Ok (Z.of_nat (length bs)), Sim (sim_in k) [] (sim_out k ++ bs))
  | O :: ws => (Err EINTR, Sim (sim_in k) ws (sim_out k))
  | w :: ws =>
      let m := (w `min` length bs)%nat in
      (Ok (Z.of_nat m), Sim (sim_in k) ws (sim_out k ++ take m bs))
  end.

#[export] Instance sim_kernel : Kernel sim := {|
  kcall X e :=
    match e in sysE X return sim -> res X * sim with
    | Eread _ n => sim_read n
    | Ewrite _ bs => sim_write bs
    | _ => fun k => (Err ENOSYS, k)
    end;
  klib X e k := ((@klib unit (failing_kernel ENOSYS) X e tt).1, k) |}.

Definition count_nil (cs : list (list Z)) : nat := length (filter (fun c => c = []) cs).
Definition count_0 (ws : list nat) : nat := length (filter (fun w => w = 0%nat) ws).

#[export] Instance sim_stream : StreamKernel sim.
Proof.
  refine {| connected _ _ := True; inbox k _ := concat (sim_in k); outbox k _ := sim_out k;
            signals k := (count_nil (sim_in k) + count_0 (sim_wr k))%nat |}.
  - intros k fd n _ Hn. cbn. unfold sim_read, count_nil. destruct (sim_in k) as [|[|b c] cs] eqn:E.
    + rewrite E. cbn. split_and!; auto; lia.
    + cbn. split_and!; auto; lia.
    + rewrite filter_cons_False by done. cbn [sim_in sim_out sim_wr].
      split; [done|]. split; [|split; [|split; [|split; [done|]]]].
      * case_decide.
        { by rewrite take_ge by done. }
        change (concat (drop (Z.to_nat n) (b :: c) :: cs)) with (drop (Z.to_nat n) (b :: c) ++ concat cs).
        by rewrite app_assoc, take_drop.
      * rewrite length_take. lia.
      * destruct (Z.to_nat n) eqn:En; [lia|done].
      * case_decide; [lia|]. rewrite filter_cons_False; [lia|].
        intros Hd. apply (f_equal length) in Hd. rewrite length_drop in Hd. simpl in *. lia.
  - intros k fd bs _ Hb. cbn. unfold sim_write, count_0. destruct (sim_wr k) as [|[|w] ws] eqn:E.
    + cbn. rewrite Nat2Z.id, take_ge by done. destruct bs; [done|]. split_and!; auto; simpl; lia.
    + rewrite filter_cons_True by done. cbn [sim_in sim_out sim_wr length]. split_and!; auto; lia.
    + rewrite filter_cons_False by done. cbn [sim_in sim_out sim_wr]. destruct bs as [|b bs]; [done|].
      rewrite Nat2Z.id. split_and!; auto; simpl; lia.
Defined.

(** ** Theorems *)

Section Theorems.
Context {K : Type} `{HK : !Kernel K} `{HS : !StreamKernel K}.
Implicit Types (k : K) (g : globals).

(** C5. readn reads what it is asked for: however the system cuts the stream
    into short reads and interrupts the calls, readn returns, its value is the
    smaller of n and the number of bytes before end of file, exactly those
    bytes are in the buffer, the rest of the buffer is untouched and the rest
    of the stream is still to be read. *)
Theorem readn_reads_n fd fuel k g buf n :
  connected k fd -> 0 <= n <= Z.of_nat (length buf) -> (Z.to_nat n + signals k <= fuel)%nat ->
  let m := (Z.to_nat n `min` length (inbox k fd))%nat in
  exists g' k', run (readn fuel fd buf n) g k =
      (Done (Z.of_nat m, take m (inbox k fd) ++ drop m buf), g', k') /\
    inbox k' fd = drop m (inbox k fd) /\ outbox k' fd = outbox k fd.
Proof.
  intros Hc Hn Hf m.
  destruct (readn_loop_spec fd fuel k g buf 0 n n) as (m' & g' & k' & b & E & Em & Ecp & HR & _);
    [done|lia..|]. fold m in Em. subst m'. exists g', k'.
  destruct HR as (_ & HI & HO & _). split; [|done]. unfold readn. rewrite E.
  assert (length (take m (inbox k fd)) = m) as Hlen by (rewrite length_take; lia).
  rewrite memcpy_is_Some, Hlen in Ecp by (rewrite ?Hlen; lia). injection Ecp as <-.
  replace (n - n + Z.of_nat m) with (Z.of_nat m) by lia. done.
Qed.

(** C4. writen writes everything: however the system cuts the data into short
    writes and interrupts the calls, writen returns n and the peer is sent
    exactly the n bytes of the buffer, once and in order. *)
Theorem writen_writes_all fd fuel k g buf n :
  connected k fd -> 0 <= n <= Z.of_nat (length buf) -> (Z.to_nat n + signals k <= fuel)%nat ->
  exists g' k', run (writen fuel fd buf n) g k = (Done n, g', k') /\
    outbox k' fd = outbox k fd ++ take (Z.to_nat n) buf /\ inbox k' fd = inbox k fd.
Proof.
  intros Hc Hn Hf. destruct (writen_spec fd fuel k g buf n Hc Hn Hf) as (g' & k' & E & HS' & _).
  destruct HS' as (_ & HI & HO & _). eauto.
Qed.

(** str_echo is the echo server: it returns when the client has closed, and
    then it has sent back exactly the bytes the client sent, in order. *)
Theorem str_echo_echoes fd fuel wfuel k g buf :
  connected k fd -> Z.of_nat (length buf) = MAXLINE ->
  (length (inbox k fd) + signals k < fuel)%nat -> (Z.to_nat MAXLINE + signals k <= wfuel)%nat ->
  exists g' k', run (str_echo fuel wfuel fd buf) g k = (Done tt, g', k') /\
    inbox k' fd = [] /\ outbox k' fd = outbox k fd ++ inbox k fd.
Proof.
  intros Hc Hb Hf Hw.
  destruct (str_echo_spec fd wfuel fuel k g buf Hc Hb Hf Hw) as (g' & k' & E & _ & HI & HO & _).
  eauto.
Qed.

(** One line off the stream, in terms of the stream before and after. *)
Lemma readline_line fd fuel k g buf maxlen :
  connected k fd -> reader_ok MAXLINE g -> (signals k < fuel)%nat ->
  0 < maxlen <= Z.of_nat (length buf) ->
  let s := stream g k fd in let l := line (Z.to_nat (maxlen - 1)) s in
  exists g' k' ret,
    run (readline fuel fd buf maxlen) g k =
      (Done (ret, l ++ 0 :: drop (S (length l)) buf), g', k') /\
    reader_ok MAXLINE g' /\ connected k' fd /\ s = l ++ stream g' k' fd /\
    (line_cut (Z.to_nat (maxlen - 1)) s = false -> ret = Z.of_nat (length l)).
Proof.
  intros Hc Hr Hf Hm s l.
  destruct (readline_spec fd fuel k g buf maxlen Hc Hr Hf Hm) as (g' & k' & b & E & Ecp & Es & HKp).
  fold s l in E, Ecp, Es. exists g', k', (Z.of_nat (length l) + (if line_cut (Z.to_nat (maxlen - 1)) s then 1 else 0)).
  assert (length l <= Z.to_nat (maxlen - 1))%nat as Hll.
  { subst l. generalize (Z.to_nat (maxlen - 1)) as m, s. clear.
    induction m as [|m IH]; intros [|c s]; simpl; try lia. destruct (c =? 10); simpl; [lia|].
    specialize (IH s). lia. }
  assert (l = take (length l) s) as Htk.
  { subst l. generalize (Z.to_nat (maxlen - 1)) as m, s. clear.
    induction m as [|m IH]; intros [|c s]; simpl; [done..|]. destruct (c =? 10); simpl; [done|].
    f_equal. apply IH. }
  rewrite memcpy_is_Some in Ecp by (rewrite ?length_app; simpl; lia). injection Ecp as <-.
  split; [rewrite E; do 4 f_equal|].
  { rewrite <- app_assoc. do 2 f_equal.
    rewrite length_app. simpl. do 2 f_equal. lia. }
  destruct HKp as (? & ? & _). split_and!; [done|done| |].
  - rewrite Es. rewrite <- (take_drop (length l) s) at 1. by rewrite <- Htk.
  - intros ->. lia.
Qed.

(** C1. readline takes one line off the stream: with the bytes already in the
    static buffer in front of those still to come, it stores the line (newline
    included, at most maxlen - 1 bytes) and a NUL, keeps the invariant of the
    static variables, and leaves every later byte for the next call.  A line
    that ends (or the stream that ends) within maxlen - 1 bytes gives its
    length as the value. *)
Theorem readline_takes_line fd fuel k g buf maxlen :
  connected k fd -> reader_ok MAXLINE g -> (signals k < fuel)%nat ->
  0 < maxlen <= Z.of_nat (length buf) ->
  let s := stream g k fd in let l := line (Z.to_nat (maxlen - 1)) s in
  exists g' k' ret,
    run (readline fuel fd buf maxlen) g k =
      (Done (ret, l ++ 0 :: drop (S (length l)) buf), g', k') /\
    reader_ok MAXLINE g' /\ connected k' fd /\ s = l ++ stream g' k' fd /\
    (line_cut (Z.to_nat (maxlen - 1)) s = false -> ret = Z.of_nat (length l)).
Proof. apply readline_line. Qed.

(** readline counts a byte too many when a line does not fit: it then stores
    maxlen - 1 bytes and the NUL, but returns maxlen, so a caller that uses the
    value as the length of the line also takes the NUL. *)
Theorem readline_cut_count fd fuel k g buf maxlen :
  connected k fd -> reader_ok MAXLINE g -> (signals k < fuel)%nat ->
  0 < maxlen <= Z.of_nat (length buf) ->
  maxlen - 1 <= Z.of_nat (length (stream g k fd)) ->
  10 ∉ take (Z.to_nat (maxlen - 1)) (stream g k fd) ->
  exists g' k', run (readline fuel fd buf maxlen) g k =
    (Done (maxlen, take (Z.to_nat (maxlen - 1)) (stream g k fd) ++
                   0 :: drop (Z.to_nat maxlen) buf), g', k').
Proof.
  intros Hc Hr Hf Hm Hl Hnl.
  destruct (readline_spec fd fuel k g buf maxlen Hc Hr Hf Hm) as (g' & k' & b & E & Ecp & _ & _).
  assert (forall m s, (m <= length s)%nat -> 10 ∉ take m s ->
    line m s = take m s /\ line_cut m s = true) as HL.
  { clear. induction m as [|m IH]; intros [|c s] Hl Hn; simpl in *; try done; [lia|].
    rewrite not_elem_of_cons in Hn. destruct Hn as [Hc Hn].
    destruct (Z.eqb_spec c 10) as [->|]; [done|]. destruct (IH s) as [-> ->]; [lia|done|done]. }
  destruct (HL (Z.to_nat (maxlen - 1)) (stream g k fd)) as [El Ec]; [lia|done|].
  rewrite El, Ec in E. rewrite El in Ecp.
  set (t := take _ _) in *. assert (length t = Z.to_nat (maxlen - 1)) as Ht
    by (subst t; rewrite length_take; lia).
  rewrite memcpy_is_Some in Ecp by (rewrite ?length_app; simpl; lia). injection Ecp as <-.
  exists g', k'. rewrite E. replace (Z.of_nat (length t) + 1) with maxlen by lia. do 4 f_equal.
  rewrite <- app_assoc. do 2 f_equal.
  rewrite length_app. simpl. do 2 f_equal. lia.
Qed.
End Theorems.

(** ** Witnesses: a client that is interrupted and sends in pieces *)

Definition sim1 : sim := Sim [[104; 105]; []; [10; 120; 121]] [1; 0; 2]%nat [].

Lemma readn_reads_n_witness :
  exists g' k', run (readn 20 3 (replicate 8 0) 4) globals0 sim1 =
    (Done (4, [104; 105; 10; 120] ++ replicate 4 0), g', k') /\
    inbox k' 3 = [121] /\ outbox k' 3 = [].
Proof. refine (readn_reads_n 3 20 sim1 globals0 (replicate 8 0) 4 _ _ _); [exact I|cbn; lia|vm_compute; lia]. Defined.

Lemma writen_writes_all_witness :
  exists g' k', run (writen 20 3 [1; 2; 3; 4; 5] 4) globals0 sim1 = (Done 4, g', k') /\
    outbox k' 3 = [1; 2; 3; 4] /\ inbox k' 3 = [104; 105; 10; 120; 121].
Proof. refine (writen_writes_all 3 20 sim1 globals0 [1; 2; 3; 4; 5] 4 _ _ _); [exact I|cbn; lia|vm_compute; lia]. Defined.

Lemma str_echo_echoes_witness :
  exists g' k', run (str_echo 10 (4096 + 3) 3 (replicate 4096 0)) globals0 sim1 = (Done tt, g', k') /\
    inbox k' 3 = [] /\ outbox k' 3 = [104; 105; 10; 120; 121].
Proof.
  refine (str_echo_echoes 3 10 (4096 + 3) sim1 globals0 (replicate 4096 0) _ _ _ _);
    [exact I|by vm_compute|vm_compute; lia|].
  change (signals sim1) with 2%nat. unfold MAXLINE. lia.
Defined.

Lemma globals0_reader_ok : reader_ok MAXLINE globals0.
Proof. constructor; [by vm_compute|]. cbn. lia. Qed.

Lemma readline_takes_line_witness :
  exists g' k' ret, run (readline 5 3 (replicate 8 7) 8) globals0 sim1 =
      (Done (ret, [104; 105; 10] ++ 0 :: replicate 4 7), g', k') /\
    reader_ok MAXLINE g' /\ connected k' 3 /\
    [104; 105; 10; 120; 121] = [104; 105; 10] ++ stream g' k' 3 /\
    (line_cut 7 [104; 105; 10; 120; 121] = false -> ret = 3).
Proof.
  refine (readline_takes_line 3 5 sim1 globals0 (replicate 8 7) 8 _ _ _ _);
    [exact I|apply globals0_reader_ok|vm_compute; lia|cbn; lia].
Defined.

Lemma readline_cut_count_witness :
  exists g' k', run (readline 5 3 (replicate 8 7) 3) globals0 sim1 =
    (Done (3, [104; 105] ++ 0 :: replicate 5 7), g', k').
Proof.
  refine (readline_cut_count 3 5 sim1 globals0 (replicate 8 7) 3 _ _ _ _ _ _);
    [exact I|apply globals0_reader_ok|vm_compute; lia|cbn; lia|by vm_compute|].
  change (10 ∉ [104; 105]). rewrite !not_elem_of_cons.
  split_and!; [done|done|apply not_elem_of_nil].
Defined.
