(* ===== verification/Bytes.v ===== *)
(** * Integers and fields in byte arrays

    Lemmas shared by the programs that build and take apart packets and kernel
    messages: what a stored integer reads as, and where a field of a known layout
    is found. *)
From stdpp Require Import base list numbers strings gmap.
From S2P Require Import Prelude Checksum Cnum Sys StreamIO.
Import Cksum.

(** ** Integers in memory *)
Definition is_int64 (z : Z) : Prop := - 2 ^ 63 <= z < 2 ^ 63.

Lemma store64_length `{Platform} z : length (store64 z) = 8%nat.
Proof. unfold store64, host_order. destruct big_endian; rewrite ?length_reverse; apply le_bytes_length. Qed.
Lemma store64_bytes `{Platform} z : Forall is_byte (store64 z).
Proof.
  unfold store64, host_order. destruct big_endian; [rewrite Forall_reverse|]; apply le_bytes_range.
Qed.

Lemma load64_store64 `{Platform} z : is_int64 z -> load64 (store64 z) = z.
Proof.
  intros Hz. unfold load64, store64. rewrite host_order_invol, le_value_bytes.
  change (256 ^ Z.of_nat 8) with (2 ^ 64). unfold is_int64 in Hz.
  change (2 ^ 63) with 9223372036854775808 in *. change (2 ^ 64) with 18446744073709551616.
  destruct (decide (0 <= z)).
  - rewrite Z.mod_small by lia. zbool.
  - rewrite <- (Z.mod_unique z 18446744073709551616 (-1) (z + 18446744073709551616)) by lia. zbool.
    lia.
Qed.

Definition tv_int64 (tv : timeval) : Prop := is_int64 (tv_sec tv) /\ is_int64 (tv_usec tv).

Lemma store_timeval_length `{Platform} tv : length (store_timeval tv) = 16%nat.
Proof. unfold store_timeval. by rewrite length_app, !store64_length. Qed.
Lemma store_timeval_bytes `{Platform} tv : Forall is_byte (store_timeval tv).
Proof. apply Forall_app. auto using store64_bytes. Qed.

Lemma load_store_timeval `{Platform} tv : tv_int64 tv -> load_timeval (store_timeval tv) = tv.
Proof.
  intros [H1 H2]. unfold load_timeval, store_timeval.
  rewrite take_app_le, drop_app_ge by (rewrite store64_length; lia).
  rewrite take_ge, store64_length, drop_0, !load64_store64 by (rewrite ?store64_length; done || lia). by destruct tv.
Qed.

Lemma load16_store16 `{Platform} w : is_u16 w -> exists b0 b1, store16 w = [b0; b1] /\ load16 b0 b1 = w.
Proof.
  intros Hw. pose proof (words16_store16 w) as E. unfold is_u16 in Hw.
  unfold store16 in *. destruct big_endian; eexists _, _; (split; [done|]);
    specialize (E ltac:(lia)); cbn in E; congruence.
Qed.
Lemma store16_length `{Platform} w : length (store16 w) = 2%nat.
Proof. unfold store16. by destruct big_endian. Qed.

Lemma aread16_app `{Platform} l w r off :
  is_u16 w -> off = Z.of_nat (length l) -> aread16 (l ++ store16 w ++ r) off = Some w.
Proof.
  intros Hw ->. destruct (load16_store16 w Hw) as (b0 & b1 & -> & <-). unfold aread16. cbn [app].
  rewrite (aread_app l b0 (b1 :: r) _ eq_refl). cbn [mbind option_bind].
  replace (l ++ b0 :: b1 :: r) with ((l ++ [b0]) ++ b1 :: r) by (by rewrite <- app_assoc).
  rewrite aread_app by (rewrite length_app; cbn; lia). done.
Qed.

(** The bytes at a known place. *)
Lemma asub_app {A} (l m r : list A) off n :
  off = Z.of_nat (length l) -> n = Z.of_nat (length m) -> asub (l ++ m ++ r) off n = Some m.
Proof.
  intros -> ->. unfold asub. rewrite !length_app. zbool.
  by rewrite !Nat2Z.id, drop_app_length, take_app_length.
Qed.

(** The bytes at a known index. *)
Lemma aread_lookup {A} (l r : list A) (i : nat) x : l !! i = Some x -> aread (l ++ r) (Z.of_nat i) = Some x.
Proof.
  intros H. unfold aread. zbool. rewrite Nat2Z.id. by apply lookup_app_l_Some.
Qed.

Lemma aread_in {A} (a : list A) i : 0 <= i < Z.of_nat (length a) -> exists x, aread a i = Some x.
Proof. intros. unfold aread. zbool. apply lookup_lt_is_Some_2. lia. Qed.
Lemma aread16_in `{Platform} (a : list Z) i : 0 <= i < Z.of_nat (length a) - 1 -> exists x, aread16 a i = Some x.
Proof.
  intros. unfold aread16. destruct (aread_in a i) as [x ->]; [lia|]. destruct (aread_in a (i + 1)) as [y ->]; [lia|].
  by eexists.
Qed.

(** ** Reads in a program *)
Section Mem.
Context {K : Type} `{HK : !Kernel K}.

Lemma run_mem_then {A B} (o : option A) a (f : A -> prog B) g (k : K) :
  o = Some a -> run (mem o ≫= f) g k = run (f a) g k.
Proof. intros ->. by rewrite run_bind, run_mem. Qed.
End Mem.

(** A read of memory that is known to succeed. *)
Tactic Notation "run_mem" uconstr(E) := etransitivity; [apply (run_mem_then _ _ _ _ _ E)|]; cbv beta iota zeta.
