(* ===== verification/SocketFunc.v ===== *)
(** * The repository's own socket helpers: socket/socket_func.c

    readn, written, myread and readline, written after the library's versions
    but not equal to them.  The theorems compare the two: [written] is
    [writen]; [readn] forgets how much it read when the peer closes early;
    [readline] drops what it had buffered after the line and writes its NUL
    one past the count it was given. *)
From stdpp Require Import base list numbers strings gmap.
From S2P Require Import Prelude InetAddr Sys Error Wrap StreamIO StreamProofs.

Module SocketFunc.

(** #define MAXLINE 1024 (socket/common.c) *)
Definition MAXLINE : Z := 1024.

Fixpoint readn_loop (fuel : nat) (fd : Z) (buffer : list Z) (ptr left n : Z)
  : prog (Z * list Z) :=
  if 0 <? left then
    match fuel with
    | O => Halt Spin
    | S f =>
        r ← call (Eread fd left);
        match r with
        | Err _ =>
            e ← get_errno;
            if e =? EINTR then readn_loop f fd buffer ptr left n else Ret (-1, buffer)
        | Ok bs =>
            buffer1 ← mem (memcpy buffer ptr bs);
            let read_size := Z.of_nat (length bs) in
            if read_size =? 0 then Ret (0, buffer1)
            else readn_loop f fd buffer1 (ptr + read_size) (left - read_size) n
        end
    end
  else Ret (n - left, buffer).

Definition readn (fuel : nat) (fd : Z) (vpstr : list Z) (n : Z) : prog (Z * list Z) :=
  readn_loop fuel fd vpstr 0 n n.

Fixpoint written_loop (fuel : nat) (sock : Z) (vpstr : list Z) (ptr left size : Z) : prog Z :=
  if 0 <? left then
    match fuel with
    | O => Halt Spin
    | S f =>
        bs ← mem (asub vpstr ptr left);
        r ← call (Ewrite sock bs);
        match r with
        | Err _ =>
            e ← get_errno;
            if e =? EINTR then written_loop f sock vpstr ptr left size else Ret (-1)
        | Ok write_size =>
            if write_size <=? 0 then Ret (-1)
            else written_loop f sock vpstr (ptr + write_size) (left - write_size) size
        end
    end
  else Ret (size - left).

Definition written (fuel : nat) (sock : Z) (vpstr : list Z) (size : Z) : prog Z :=
  written_loop fuel sock vpstr 0 size size.

(** The same text as readline.c's my_read, with this file's MAXLINE. *)
Definition myread (fuel : nat) (fd : Z) : prog (Z * Z) := my_read MAXLINE fuel fd.

(** The for loop with [k = max - i] rounds left. *)
Fixpoint readline_loop (fuel k : nat) (fd : Z) (buffer : list Z) (ptr i : Z) : prog (Z * list Z) :=
  let finish buf ptr i :=
    buf1 ← mem (awrite buf ptr 0);
    Get (fun g => Put (set_reader 0 (read_ptr g) (read_buf g) g) (Ret (i + 1, buf1))) in
  match k with
  | O => finish buffer ptr i
  | S k' =>
      '(cnt, c) ← myread fuel fd;
      if cnt =? 1 then
        buf1 ← mem (awrite buffer ptr c);
        if c =? 10 then finish buf1 (ptr + 1) i
        else readline_loop fuel k' fd buf1 (ptr + 1) (i + 1)
      else if cnt =? 0 then buf1 ← mem (awrite buffer ptr 0); Ret (0, buf1)
      else if cnt =? -1 then Ret (-1, buffer)
      else readline_loop fuel k' fd buffer ptr (i + 1)
  end.

Definition readline (fuel : nat) (fd : Z) (buffer : list Z) (max : Z) : prog (Z * list Z) :=
  readline_loop fuel (Z.to_nat max) fd buffer 0 0.

Definition err_printf {A} (s : list Z) : prog A :=
  _ ← call_ (Efputs (s ++ [10]) stdout); Halt (Exit (-1)).

(** ** Comparison with the library's functions *)

Section Compare.
Context {K : Type} `{HK : !Kernel K}.

(** read and write never report more than they were asked for. *)
Definition bounded_io (fd : Z) : Prop :=
  (forall (k k' : K) n bs, 0 <= n -> kcall (Eread fd n) k = (Ok bs, k') -> Z.of_nat (length bs) <= n) /\
  (forall (k k' : K) bs n, kcall (Ewrite fd bs) k = (Ok n, k') -> n <= Z.of_nat (length bs)).

(** The value the library's readn gives, seen through this readn. *)
Definition eof_is_zero (n : Z) (o : outcome (Z * list Z)) : outcome (Z * list Z) :=
  match o with
  | Done (r, b) => Done (if (0 <=? r) && (r <? n) then 0 else r, b)
  | Halted h => Halted h
  end.

Lemma readn_loop_compare fd fuel n buf ptr left g (k : K) :
  bounded_io fd -> 0 <= left <= n ->
  run (readn_loop fuel fd buf ptr left n) g k =
  let '(o, g', k') := run (StreamIO.readn_loop fuel fd buf ptr left n) g k in
  (eof_is_zero n o, g', k').
Proof.
  intros [HR _]. revert buf ptr left g k.
  induction fuel as [|f IH]; intros buf ptr left g k Hl;
    cbn [readn_loop StreamIO.readn_loop]; destruct (Z.ltb_spec 0 left) as [H|H]; try done.
  - cbn [run eof_is_zero]. assert (left = 0) as -> by lia.
    destruct (Z.ltb_spec (n - 0) n); [lia|]. by rewrite andb_false_r.
  - runs. destruct (kcall (Eread fd left) k) as [[bs|e] k1] eqn:E; cbn beta iota.
    + runs. destruct (memcpy buf ptr bs); [|done].
      destruct (Z.eqb_spec (Z.of_nat (length bs)) 0) as [E0|E0].
      * cbn [run eof_is_zero].
        destruct (Z.leb_spec 0 (n - left)); [|lia]. destruct (Z.ltb_spec (n - left) n); [done|lia].
      * apply IH. specialize (HR k k1 left bs ltac:(lia) E). lia.
    + runs. cbn [errno set_errno]. destruct (e =? EINTR); [by apply IH|done].
  - cbn [run eof_is_zero]. assert (left = 0) as -> by lia.
    destruct (Z.ltb_spec (n - 0) n); [lia|]. by rewrite andb_false_r.
Qed.

Lemma written_loop_compare fd fuel n v ptr left g (k : K) :
  bounded_io fd -> 0 <= left ->
  run (written_loop fuel fd v ptr left n) g k = run (StreamIO.writen_loop fuel fd v ptr left n) g k.
Proof.
  intros [_ HW]. revert ptr left g k.
  induction fuel as [|f IH]; intros ptr left g k Hl;
    cbn [written_loop StreamIO.writen_loop]; destruct (Z.ltb_spec 0 left) as [H|H]; try done.
  - assert (left = 0) as -> by lia. by rewrite Z.sub_0_r.
  - runs. destruct (asub v ptr left) as [bs|] eqn:Ea; [|done].
    runs. destruct (kcall (Ewrite fd bs) k) as [[w|e] k1] eqn:E; cbn beta iota.
    + destruct (Z.leb_spec w 0); [done|]. apply IH.
      specialize (HW _ _ _ _ E). apply asub_length in Ea. lia.
    + runs. cbn [errno set_errno]. destruct (e =? EINTR); [by apply IH|done].
  - assert (left = 0) as -> by lia. by rewrite Z.sub_0_r.
Qed.

(** socket_func.c's written is the library's writen: the same calls, the
    same result, on every system whose write never reports more than it was
    given. *)
Theorem written_is_writen fd fuel v n g (k : K) :
  bounded_io fd -> 0 <= n ->
  run (written fuel fd v n) g k = run (StreamIO.writen fuel fd v n) g k.
Proof. intros. by apply written_loop_compare. Qed.

(** socket_func.c's readn makes the same calls and stores the same bytes as
    the library's readn, but when the peer closes early it returns 0 instead
    of the number of bytes that were read. *)
Theorem readn_forgets_partial fd fuel buf n g (k : K) :
  bounded_io fd -> 0 <= n ->
  run (readn fuel fd buf n) g k =
  let '(o, g', k') := run (StreamIO.readn fuel fd buf n) g k in (eof_is_zero n o, g', k').
Proof. intros. apply readn_loop_compare; [done|lia]. Qed.
End Compare.

Section Readline.
Context {K : Type} `{HK : !Kernel K} `{HS : !StreamKernel K}.

Lemma readline_loop_cut fd fuel m (k : K) g buf ptr i :
  connected k fd -> reader_ok MAXLINE g -> (signals k < fuel)%nat ->
  0 <= ptr -> Z.of_nat (length buf) = ptr + Z.of_nat m ->
  (m <= length (stream g k fd))%nat -> 10 ∉ take m (stream g k fd) ->
  exists g' k', run (readline_loop fuel m fd buf ptr i) g k = (Halted Fault, g', k').
Proof.
  revert k g buf ptr i. induction m as [|m IH]; intros k g buf ptr i Hc Hr Hf Hp Hb Hl Hn.
  - cbn [readline_loop]. runs. unfold awrite.
    destruct (Z.ltb_spec ptr (Z.of_nat (length buf))); [lia|]. rewrite andb_false_r. eauto.
  - cbn [readline_loop]. rewrite run_bind. unfold myread.
    destruct (my_read_spec MAXLINE fd fuel k g ltac:(done) Hc Hr Hf) as (g1 & k1 & HK1 & Hm).
    destruct (stream g k fd) as [|c s] eqn:Es; [simpl in Hl; lia|]. destruct Hm as [E Hs].
    rewrite E. change (1 =? 1) with true. cbn beta iota. runs.
    destruct (awrite_is_Some buf ptr c) as [b1 E1]; [lia|]. rewrite E1.
    apply awrite_Some_length in E1. cbn [take] in Hn. rewrite not_elem_of_cons in Hn.
    destruct Hn as [Hc10 Hn]. destruct (Z.eqb_spec c 10); [by subst|].
    destruct HK1 as (Hc1 & Hr1 & _ & Hsig & _).
    apply IH; [done|done|lia|lia|lia|rewrite Hs; simpl in Hl; lia|by rewrite Hs].
Qed.

(** socket_func.c's readline overruns its caller's buffer: given a buffer of
    exactly max bytes and a line of max or more bytes (no newline among the
    first max), it stores max bytes and then its NUL at index max. *)
Theorem readline_overruns fd fuel (k : K) g buf max :
  connected k fd -> reader_ok MAXLINE g -> (signals k < fuel)%nat ->
  0 < max -> Z.of_nat (length buf) = max ->
  max <= Z.of_nat (length (stream g k fd)) -> 10 ∉ take (Z.to_nat max) (stream g k fd) ->
  exists g' k', run (readline fuel fd buf max) g k = (Halted Fault, g', k').
Proof. intros. apply readline_loop_cut; (done || lia). Qed.

(** The first line of the stream, up to and including the newline. *)
Lemma readline_loop_nl fd fuel pre m (k : K) g buf ptr i s :
  connected k fd -> reader_ok MAXLINE g -> (signals k < fuel)%nat ->
  0 <= ptr -> ptr + Z.of_nat (length pre) + 2 <= Z.of_nat (length buf) ->
  (length pre < m)%nat -> 10 ∉ pre -> stream g k fd = pre ++ 10 :: s ->
  exists g' k' buf',
    run (readline_loop fuel m fd buf ptr i) g k = (Done (i + Z.of_nat (length pre) + 1, buf'), g', k') /\
    memcpy buf ptr (pre ++ [10; 0]) = Some buf' /\
    buffered g' = [] /\ (exists lost, s = lost ++ inbox k' fd).
Proof.
  revert pre k g buf ptr i. induction m as [|m IH]; intros pre k g buf ptr i Hc Hr Hf Hp Hb Hm Hn Hs;
    [lia|]. cbn [readline_loop]. rewrite run_bind. unfold myread.
  destruct (my_read_spec MAXLINE fd fuel k g ltac:(done) Hc Hr Hf) as (g1 & k1 & HK1 & Hmr).
  rewrite Hs in Hmr. destruct pre as [|c pre]; cbn [app] in *; destruct Hmr as [E Hs1]; rewrite E;
    change (1 =? 1) with true; cbn beta iota; runs.
  - destruct (awrite_is_Some buf ptr 10) as [b1 E1]; [simpl in Hb; lia|]. rewrite E1.
    change (10 =? 10) with true. cbn iota. runs. simpl in Hb.
    pose proof (awrite_Some_length _ _ _ _ E1) as L1.
    destruct (awrite_is_Some b1 (ptr + 1) 0) as [b2 E2]; [lia|]. rewrite E2. cbn [run].
    eexists _, _, b2. split; [do 4 f_equal; simpl; lia|]. rewrite awrite_memcpy in E1, E2.
    change 1 with (Z.of_nat (length [10])) in E2. rewrite (memcpy_memcpy _ _ _ _ _ E1) in E2.
    split; [done|]. split; [done|]. unfold stream in Hs1. eauto.
  - destruct (awrite_is_Some buf ptr c) as [b1 E1]; [simpl in Hb; lia|]. rewrite E1.
    rewrite not_elem_of_cons in Hn. destruct Hn as [Hc10 Hn].
    destruct (Z.eqb_spec c 10); [by subst|]. pose proof (awrite_Some_length _ _ _ _ E1) as L1.
    destruct HK1 as (Hc1 & Hr1 & _ & Hsig & _). simpl in Hb, Hm.
    destruct (IH pre k1 g1 b1 (ptr + 1) (i + 1)) as (g' & k' & b' & E' & Ecp & Hbf & Hlost);
      [done|done|lia|lia|lia|lia|done|done|].
    exists g', k', b'. rewrite E'. split; [do 4 f_equal; simpl; lia|]. rewrite awrite_memcpy in E1.
    change 1 with (Z.of_nat (length [c])) in Ecp. rewrite (memcpy_memcpy _ _ _ _ _ E1) in Ecp. done.
Qed.

(** socket_func.c's readline returns a line that fits, but forgets what it
    had read ahead: after the call nothing is buffered, so the bytes between
    the end of the line and what the kernel still holds are lost; when the
    whole stream was already buffered, everything after the line is lost. *)
Theorem readline_drops_buffered fd fuel (k : K) g buf max pre s :
  connected k fd -> reader_ok MAXLINE g -> (signals k < fuel)%nat ->
  Z.of_nat (length pre) + 2 <= Z.of_nat (length buf) -> Z.of_nat (length pre) < max ->
  10 ∉ pre -> stream g k fd = pre ++ 10 :: s ->
  exists g' k' lost, run (readline fuel fd buf max) g k =
      (Done (Z.of_nat (length pre) + 1, pre ++ [10; 0] ++ drop (length pre + 2) buf), g', k') /\
    s = lost ++ stream g' k' fd /\ stream g' k' fd = inbox k' fd.
Proof.
  intros Hc Hr Hf Hb Hm Hn Hs.
  destruct (readline_loop_nl fd fuel pre (Z.to_nat max) k g buf 0 0 s)
    as (g' & k' & b & E & Ecp & Hbf & lost & Hl); [done|done|done|lia|lia|lia|done|done|].
  exists g', k', lost. unfold stream. rewrite Hbf, app_nil_l. split; [|done].
  unfold readline. rewrite E. rewrite memcpy_is_Some in Ecp by (rewrite ?length_app; simpl; lia).
  injection Ecp as <-. rewrite Z.add_0_l, length_app. cbn [length].
  by rewrite <- app_assoc.
Qed.
End Readline.

(** ** Witnesses *)

Lemma sim_bounded_io fd : @bounded_io sim sim_kernel fd.
Proof.
  split.
  - intros k k' n bs Hn. cbn. unfold sim_read. destruct (sim_in k) as [|[|b c] cs]; intros E;
      [injection E as <- <-; simpl; lia|done|].
    injection E as <- _. rewrite length_take. lia.
  - intros k k' bs n. cbn. unfold sim_write. destruct (sim_wr k) as [|[|w] ws]; intros E;
      [injection E as <- _; lia|done|]. 
    assert (n = Z.of_nat (S w `min` length bs)) as -> by congruence. lia.
Qed.

Lemma written_is_writen_witness :
  run (written 20 3 [1; 2; 3] 3) globals0 sim1 = run (StreamIO.writen 20 3 [1; 2; 3] 3) globals0 sim1.
Proof. apply (written_is_writen 3 20 [1; 2; 3] 3 globals0 sim1); [apply sim_bounded_io|lia]. Defined.

(** Five bytes were there; readn, asked for eight, says 0. *)
Lemma readn_forgets_partial_witness :
  exists g' k', run (readn 20 3 (replicate 8 0) 8) globals0 sim1 =
    (Done (0, [104; 105; 10; 120; 121; 0; 0; 0]), g', k').
Proof.
  eexists _, _. rewrite (readn_forgets_partial 3 20 (replicate 8 0) 8 globals0 sim1);
    [vm_compute; reflexivity|apply sim_bounded_io|lia].
Defined.

Definition reader0 : globals := Globals 0 0 0 None (replicate 1024 0).
Lemma reader0_ok : reader_ok MAXLINE reader0.
Proof. constructor; [by vm_compute|]. cbn. lia. Qed.

Lemma readline_overruns_witness :
  exists g' k', run (readline 5 3 (replicate 2 0) 2) reader0 sim1 = (Halted Fault, g', k').
Proof.
  apply (readline_overruns 3 5 sim1 reader0 (replicate 2 0) 2);
    [exact I|apply reader0_ok|vm_compute; lia|lia|done|by vm_compute|].
  change (10 ∉ [104; 105]). rewrite !not_elem_of_cons.
  split_and!; [done|done|apply not_elem_of_nil].
Defined.

Lemma readline_drops_buffered_witness :
  exists g' k' lost, run (readline 5 3 (replicate 8 7) 8) reader0 sim1 =
      (Done (3, [104; 105; 10; 0; 7; 7; 7; 7]), g', k') /\
    [120; 121] = lost ++ stream g' k' 3 /\ stream g' k' 3 = inbox k' 3.
Proof.
  refine (readline_drops_buffered 3 5 sim1 reader0 (replicate 8 7) 8 [104; 105] [120; 121] _ _ _ _ _ _ _);
    [exact I|apply reader0_ok|vm_compute; lia|cbn; lia|cbn; lia| |reflexivity].
  rewrite !not_elem_of_cons. split_and!; [done|done|apply not_elem_of_nil].
Defined.
End SocketFunc.
