(* ===== verification/SockAddr.v ===== *)
(** * Socket addresses: lib/sock_*.c, family_to_level.c, sockfd_to_family.c and
      socket_func.c's sock_ntop

    The functions that look inside a struct sockaddr.  sock_ntop formats into
    its static array str[128], modelled as an array with bounds-checked writes;
    it returns an offset into that array (0, or 1 for an IPv6 address without a
    port). *)
From stdpp Require Import base list numbers strings gmap.
From S2P Require Import Prelude InetAddr InetV4 InetV6 Sys Error Wrap.

Definition IPPROTO_IP : Z := 0.
Definition IPPROTO_IPV6 : Z := 41.
Definition in6addr_any : list Z := replicate 16 0.
Definition in4addr_any : list Z := replicate 4 0.   (* htonl(INADDR_ANY) is 0 *)

(** A char array read as a string: it must hold a NUL. *)
Definition array_str (a : list Z) : option (list Z) :=
  if bool_decide (0 ∈ a) then Some (until_nul a) else None.

(** strcat(a + off, s) on an array. *)
Definition array_strcat (a : list Z) (off : Z) (s : list Z) : option (list Z) :=
  strcpy a (off + Z.of_nat (length (cstring_at a off))) s.

(** snprintf(a, size, fmt, ...) with the formatted text. *)
Definition array_snprintf (a : list Z) (size : Z) (s : list Z) : option (list Z) :=
  strcpy a 0 (truncstr size s).

(** %*s: the string padded on the left to the width. *)
Definition pad_left (w : Z) (s : list Z) : list Z :=
  replicate (Z.to_nat w - length s) 32 ++ s.

(** ** sock_ntop.c *)

(** The static array and the offset returned. *)
Definition sock_ntop `{Platform} (sa : sockaddr) (salen : Z) (static : list Z)
  : option (cptr (list Z * Z)) :=
  match sa with
  | SaIn sin =>
      r ← inet_ntop AF_INET (sin_addr sin) static 0 128;
      match r with
      | CNull e => Some (CNull e)
      | CPtr a =>
          if negb (ntohs (sin_port sin) =? 0) then
            let portstr := truncstr 8 (58 :: fmt_d (ntohs (sin_port sin))) in
            a1 ← array_strcat a 0 portstr; Some (CPtr (a1, 0))
          else Some (CPtr (a, 0))
      end
  | SaIn6 sin6 =>
      a0 ← awrite static 0 91;
      r ← inet_ntop AF_INET6 (sin6_addr sin6) a0 1 127;
      match r with
      | CNull e => Some (CNull e)
      | CPtr a =>
          if negb (ntohs (sin6_port sin6) =? 0) then
            let portstr := truncstr 8 (93 :: 58 :: fmt_d (ntohs (sin6_port sin6))) in
            a1 ← array_strcat a 0 portstr; Some (CPtr (a1, 0))
          else Some (CPtr (a, 1))
      end
  | SaUn unp =>
      c ← aread (sun_path unp) 0;
      if c =? 0 then a ← strcpy static 0 (str "(no pathname bound)"); Some (CPtr (a, 0))
      else p ← array_str (sun_path unp); a ← array_snprintf static 128 p; Some (CPtr (a, 0))
  | SaDl sdl =>
      s ← (if 0 <? sdl_nlen sdl then
             n ← array_str (sdl_data sdl);
             Some (pad_left (sdl_nlen sdl) n ++ str " (index " ++ fmt_d (sdl_index sdl) ++ str ")")
           else Some (str "AF_LINK, index=" ++ fmt_d (sdl_index sdl)));
      a ← array_snprintf static 128 s; Some (CPtr (a, 0))
  | SaOther f _ =>
      a ← array_snprintf static 128
            (str "sock_ntop: unknown AF_xxx: " ++ fmt_d f ++ str ", len " ++ fmt_d salen);
      Some (CPtr (a, 0))
  end.

Definition Sock_ntop `{Platform} (sa : sockaddr) (salen : Z) (static : list Z)
  : prog (list Z * Z) :=
  r ← mem (sock_ntop sa salen static);
  match r with
  | CPtr p => Ret p
  | CNull e => _ ← put_errno e; err_sys (str "sock_ntop error")
  end.

(** ** sock_ntop_host.c *)

Definition sock_ntop_host (sa : sockaddr) (salen : Z) (static : list Z)
  : option (cptr (list Z)) :=
  match sa with
  | SaIn sin => inet_ntop AF_INET (sin_addr sin) static 0 128
  | SaIn6 sin6 => inet_ntop AF_INET6 (sin6_addr sin6) static 0 128
  | SaUn unp =>
      c ← aread (sun_path unp) 0;
      a ← (if c =? 0 then strcpy static 0 (str "(no pathname bound)")
           else p ← array_str (sun_path unp); array_snprintf static 128 p);
      Some (CPtr a)
  | SaDl sdl =>
      s ← (if 0 <? sdl_nlen sdl then n ← array_str (sdl_data sdl); Some (pad_left (sdl_nlen sdl) n)
           else Some (str "AF_LINK, index=" ++ fmt_d (sdl_index sdl)));
      a ← array_snprintf static 128 s; Some (CPtr a)
  | SaOther f _ =>
      a ← array_snprintf static 128
            (str "sock_ntop_host: unknown AF_xxx: " ++ fmt_d f ++ str ", len " ++ fmt_d salen);
      Some (CPtr a)
  end.

Definition Sock_ntop_host (sa : sockaddr) (salen : Z) (static : list Z) : prog (list Z) :=
  r ← mem (sock_ntop_host sa salen static);
  match r with
  | CPtr a => Ret a
  | CNull e => _ ← put_errno e; err_sys (str "sock_ntop_host error")
  end.

(** ** Comparison, ports and addresses *)

(** memcmp of two arrays of the same size: 0, or the first difference. *)
Fixpoint memcmp (a b : list Z) : Z :=
  match a, b with
  | x :: a', y :: b' => if x =? y then memcmp a' b' else x - y
  | _, _ => 0
  end.

Definition sock_cmp_addr (sa1 sa2 : sockaddr) (salen : Z) : option Z :=
  if negb (sa_family sa1 =? sa_family sa2) then Some (-1)
  else
    match sa1, sa2 with
    | SaIn s1, SaIn s2 => Some (memcmp (sin_addr s1) (sin_addr s2))
    | SaIn6 s1, SaIn6 s2 => Some (memcmp (sin6_addr s1) (sin6_addr s2))
    | SaUn s1, SaUn s2 =>
        p1 ← array_str (sun_path s1); p2 ← array_str (sun_path s2); Some (strcmp p1 p2)
    | _, _ => Some (-1)
    end.

Definition sock_cmp_port (sa1 sa2 : sockaddr) (salen : Z) : Z :=
  if negb (sa_family sa1 =? sa_family sa2) then -1
  else
    match sa1, sa2 with
    | SaIn s1, SaIn s2 => if sin_port s1 =? sin_port s2 then 1 else 0
    | SaIn6 s1, SaIn6 s2 => if sin6_port s1 =? sin6_port s2 then 1 else 0
    | _, _ => -1
    end.

Definition sock_get_port (sa : sockaddr) (salen : Z) : Z :=
  match sa with
  | SaIn s => sin_port s
  | SaIn6 s => sin6_port s
  | _ => -1
  end.

(** The int argument is stored in the 16-bit field. *)
Definition sock_set_port (sa : sockaddr) (salen port : Z) : sockaddr :=
  match sa with
  | SaIn s => SaIn (SockaddrIn (u16 port) (sin_addr s))
  | SaIn6 s => SaIn6 (SockaddrIn6 (u16 port) (sin6_flowinfo s) (sin6_addr s) (sin6_scope_id s))
  | _ => sa
  end.

(** memcpy of 4 or 16 bytes from [addr]; [None] when it is shorter. *)
Definition sock_set_addr (sa : sockaddr) (salen : Z) (addr : list Z) : option sockaddr :=
  match sa with
  | SaIn s =>
      if 4 <=? Z.of_nat (length addr) then Some (SaIn (SockaddrIn (sin_port s) (take 4 addr)))
      else None
  | SaIn6 s =>
      if 16 <=? Z.of_nat (length addr)
      then Some (SaIn6 (SockaddrIn6 (sin6_port s) (sin6_flowinfo s) (take 16 addr) (sin6_scope_id s)))
      else None
  | _ => Some sa
  end.

Definition sock_set_wild (sa : sockaddr) (salen : Z) : option sockaddr :=
  match sa with
  | SaIn _ => sock_set_addr sa salen in4addr_any
  | SaIn6 _ => sock_set_addr sa salen in6addr_any
  | _ => Some sa
  end.

(** ** sock_bind_wild.c *)

(** A getsockname result seen as the structure the code declares; another
    family would be read through the wrong type. *)
Definition sock_bind_wild `{Platform} (sockfd family : Z) : prog Z :=
  if family =? AF_INET then
    r ← call (Ebind sockfd (SaIn (SockaddrIn (htons 0) in4addr_any)) 16);
    match r with
    | Err _ => Ret (-1)
    | Ok _ =>
        r ← call (Egetsockname sockfd);
        match r with
        | Err _ => Ret (-1)
        | Ok (SaIn sin, _) => Ret (sin_port sin)
        | Ok _ => fault
        end
    end
  else if family =? AF_INET6 then
    r ← call (Ebind sockfd (SaIn6 (SockaddrIn6 (htons 0) 0 in6addr_any 0)) 28);
    match r with
    | Err _ => Ret (-1)
    | Ok _ =>
        r ← call (Egetsockname sockfd);
        match r with
        | Err _ => Ret (-1)
        | Ok (SaIn6 sin6, _) => Ret (sin6_port sin6)
        | Ok _ => fault
        end
    end
  else Ret (-1).

Definition Sock_bind_wild `{Platform} (sockfd family : Z) : prog Z :=
  port ← sock_bind_wild sockfd family;
  if port <? 0 then err_sys (str "sock_bind_wild error") else Ret port.

(** ** family_to_level.c and sockfd_to_family.c *)

Definition family_to_level (family : Z) : Z :=
  if family =? AF_INET then IPPROTO_IP
  else if family =? AF_INET6 then IPPROTO_IPV6
  else -1.

Definition Family_to_level (family : Z) : prog Z :=
  let rc := family_to_level family in
  if rc <? 0 then err_sys (str "family_to_level error") else Ret rc.

Definition sockfd_to_family (sockfd : Z) : prog Z :=
  r ← call (Egetsockname sockfd);
  match r with Err _ => Ret (-1) | Ok (ss, _) => Ret (sa_family ss) end.

Definition Sockfd_to_family (sockfd : Z) : prog Z :=
  rc ← sockfd_to_family sockfd;
  if rc <? 0 then err_sys (str "sockfd_to_family error") else Ret rc.

(** ** socket_func.c: IPv4 only *)

Module OwnNtop.
Definition sock_ntop `{Platform} (sa : sockaddr) (static : list Z) : option (cptr (list Z)) :=
  match sa with
  | SaIn sin =>
      r ← inet_ntop AF_INET (sin_addr sin) static 0 128;
      match r with
      | CNull e => Some (CNull e)
      | CPtr a =>
          if negb (ntohs (sin_port sin) =? 0) then
            a1 ← array_strcat a 0 (truncstr 8 (58 :: fmt_d (ntohs (sin_port sin))));
            Some (CPtr a1)
          else Some (CPtr a)
      end
  | _ => Some (CNull 0)
  end.
End OwnNtop.

(** ** Strings in the static array *)

Lemma until_nul_prefix a :
  take (length (until_nul a)) a = until_nul a /\ Forall (fun c => c <> 0) (until_nul a).
Proof.
  induction a as [|c a [IH1 IH2]]; [done|]. simpl.
  destruct (Z.eqb_spec c 0); simpl; [done|]. rewrite IH1. auto.
Qed.

Lemma until_nul_length a : (length (until_nul a) <= length a)%nat.
Proof. induction a as [|c a IH]; simpl; [lia|]. destruct (c =? 0); simpl; lia. Qed.

Lemma array_strcat_ok a u t :
  cstring_at a 0 = u -> Forall (fun c => c <> 0) t ->
  Z.of_nat (length u + length t) + 1 <= Z.of_nat (length a) ->
  exists a', array_strcat a 0 t = Some a' /\ cstring_at a' 0 = u ++ t.
Proof.
  intros Hu Ht Hl. unfold array_strcat. rewrite Hu, Z.add_0_l.
  unfold cstring_at in Hu. change (Z.to_nat 0) with 0%nat in Hu. rewrite drop_0 in Hu.
  destruct (until_nul_prefix a) as [Hp Hn]. rewrite Hu in *.
  rewrite V4.strcpy_ok by lia. eexists. split; [done|].
  unfold cstring_at. rewrite Nat2Z.id, Hp. change (Z.to_nat 0) with 0%nat. rewrite drop_0, app_assoc.
  apply V4.until_nul_app. apply Forall_app. done.
Qed.

Lemma fmt_d_nonneg n : 0 <= n -> fmt_d n = fmt_u n.
Proof. intros. unfold fmt_d. destruct (Z.ltb_spec n 0); [lia|done]. Qed.

Lemma fmt_u_u16 n : is_u16 n -> (length (fmt_u n) <= 5)%nat /\ Forall (fun c => c <> 0) (fmt_u n).
Proof.
  unfold is_u16. intros. split; [|by apply V4.fmt_u_nonzero; lia].
  apply fmt_u_length; [|lia]. change (10 ^ Z.of_nat 5) with 100000. lia.
Qed.

(** The port string fits its 8-byte array, after a prefix of one or two bytes. *)
Lemma portstr_fits pre n :
  is_u16 n -> (length pre <= 2)%nat -> truncstr 8 (pre ++ fmt_d n) = pre ++ fmt_u n.
Proof.
  intros Hn Hp. destruct (fmt_u_u16 n Hn) as [Hl _]. unfold is_u16 in Hn.
  rewrite fmt_d_nonneg by lia. unfold truncstr. apply take_ge. rewrite length_app. lia.
Qed.

Lemma ntohs_u16 `{Platform} p : is_u16 (ntohs p).
Proof. apply htons_range. Qed.

(** inet_ntop6's text: it fits, and inet_pton reads the address back. *)
Lemma inet_ntop6_text src dst off size :
  length src = 16%nat -> Forall is_byte src -> 0 <= off -> 46 <= size ->
  off + size <= Z.of_nat (length dst) ->
  exists txt, (length txt <= 45)%nat /\ Forall (fun c => c <> 0) txt /\
    inet_ntop6 src dst off size =
      Some (CPtr (take (Z.to_nat off) dst ++ txt ++ 0 :: drop (Z.to_nat off + S (length txt)) dst)) /\
    inet_pton AF_INET6 txt (replicate 16 0) 0 = Some (1, None, src).
Proof.
  intros Hl Hb Ho Hs Hd. destruct (V6.bytes_of_words 8 src Hl Hb) as (ws & Hw & R & ->).
  destruct (V6.address_ok ws _ Hw R (V6.ntop6_best_ok ws Hw)) as [Hlen _].
  fold (V6.ntop6_str ws) in Hlen. exists (V6.ntop6_str ws).
  split; [done|]. split; [by apply V6.ntop6_str_nonzero|]. split.
  - rewrite V6.inet_ntop6_eq by done. zbool. by rewrite V4.strcpy_ok by lia.
  - unfold inet_pton. change (AF_INET6 =? AF_INET) with false. rewrite Z.eqb_refl. cbn iota.
    rewrite V6.inet_pton6_ntop6_str by done. rewrite V6.memcpy_whole by (rewrite Hl; done). done.
Qed.

(** ** Theorems *)

(** sock_ntop prints an IPv4 socket address: the static array is never
    exceeded, and the string is the dotted quad, followed by ":" and the port
    in host order when the port is not zero. *)
Theorem sock_ntop_inet `{Platform} a b c d port salen static :
  V4.bytes4 a b c d -> length static = 128%nat ->
  exists arr, sock_ntop (SaIn (SockaddrIn port [a; b; c; d])) salen static = Some (CPtr (arr, 0)) /\
    cstring_at arr 0 =
      fmt_quad a b c d ++ (if ntohs port =? 0 then [] else 58 :: fmt_u (ntohs port)).
Proof.
  intros Hq Hs. pose proof (V4.fmt_quad_length _ _ _ _ Hq) as Hlen.
  destruct (V4.inet_ntop4_ok a b c d static 0 128 Hq) as (arr & E & Hc & Hl); [lia..|].
  unfold sock_ntop, inet_ntop. cbn [sin_addr sin_port]. rewrite Z.eqb_refl. cbv iota.
  rewrite E. cbn [mbind option_bind]. destruct (ntohs port =? 0).
  - exists arr. by rewrite app_nil_r.
  - cbn [negb]. pose proof (ntohs_u16 port) as Hp. destruct (fmt_u_u16 _ Hp) as [Hp1 Hp2].
    change (58 :: fmt_d (ntohs port)) with ([58] ++ fmt_d (ntohs port)).
    rewrite portstr_fits by (done || simpl; lia).
    destruct (array_strcat_ok arr (fmt_quad a b c d) ([58] ++ fmt_u (ntohs port))) as (a' & -> & Ha);
      [done|by apply Forall_app; split; [repeat constructor|]|simpl; lia|]. exists a'. done.
Qed.

Lemma sock_ntop_inet_witness :
  exists arr, @sock_ntop x86_64 (SaIn (SockaddrIn 0x9526 [192; 168; 42; 2])) 16 (replicate 128 0)
      = Some (CPtr (arr, 0)) /\
    cstring_at arr 0 = str "192.168.42.2:9877".
Proof.
  refine (@sock_ntop_inet x86_64 192 168 42 2 0x9526 16 (replicate 128 0) _ _); [|done].
  unfold V4.bytes4, is_byte. lia.
Defined.

(** sock_ntop prints an IPv6 socket address: within its static array, "[",
    the address text, "]:" and the port, or the text alone when the port is
    zero; the text is one that inet_pton reads back to the same address. *)
Theorem sock_ntop_inet6 `{Platform} addr port flow scope salen static :
  length addr = 16%nat -> Forall is_byte addr -> length static = 128%nat ->
  exists arr off txt,
    sock_ntop (SaIn6 (SockaddrIn6 port flow addr scope)) salen static = Some (CPtr (arr, off)) /\
    cstring_at arr off =
      (if ntohs port =? 0 then txt else 91 :: txt ++ [93; 58] ++ fmt_u (ntohs port)) /\
    inet_pton AF_INET6 txt (replicate 16 0) 0 = Some (1, None, addr).
Proof.
  intros Hl Hb Hs. destruct (awrite_is_Some static 0 91) as [a0 E0]; [lia|].
  pose proof (awrite_Some_length _ _ _ _ E0) as Hl0.
  destruct (inet_ntop6_text addr a0 1 127) as (txt & Ht & Hn & E & Hr); [done|done|lia..|].
  unfold sock_ntop, inet_ntop. cbn [sin6_addr sin6_port]. rewrite E0. cbn [mbind option_bind].
  change (AF_INET6 =? AF_INET) with false. rewrite Z.eqb_refl. cbv iota.
  rewrite E. cbn [mbind option_bind]. set (arr := take (Z.to_nat 1) a0 ++ _).
  assert (take (Z.to_nat 1) a0 = [91]) as T0.
  { destruct static; [done|]. unfold awrite in E0. simpl in E0. by injection E0 as <-. }
  assert (arr = 91 :: txt ++ 0 :: drop (1 + S (length txt)) a0) as Ea by (subst arr; by rewrite T0).
  destruct (ntohs port =? 0).
  - exists arr, 1, txt. split; [done|]. split; [|done]. rewrite Ea. by apply V4.until_nul_app.
  - cbn [negb]. pose proof (ntohs_u16 port) as Hp. destruct (fmt_u_u16 _ Hp) as [Hp1 Hp2].
    change (93 :: 58 :: fmt_d (ntohs port)) with ([93; 58] ++ fmt_d (ntohs port)).
    rewrite portstr_fits by (done || simpl; lia).
    assert (length arr = 128%nat) as La.
    { rewrite Ea. cbn [length]. rewrite length_app. cbn [length]. rewrite length_drop. lia. }
    destruct (array_strcat_ok arr (91 :: txt) ([93; 58] ++ fmt_u (ntohs port))) as (a' & -> & Ha).
    + rewrite Ea. apply (V4.until_nul_app (91 :: txt)). by constructor.
    + apply Forall_app. split; [by repeat constructor|done].
    + rewrite La, length_app. cbn [length]. lia.
    + exists a', 0, txt. done.
Qed.

Lemma sock_ntop_inet6_witness :
  exists arr off txt,
    @sock_ntop x86_64 (SaIn6 (SockaddrIn6 0x5000 0 (replicate 15 0 ++ [1]) 0)) 28 (replicate 128 0)
      = Some (CPtr (arr, off)) /\
    cstring_at arr off = 91 :: txt ++ [93; 58] ++ fmt_u 80 /\
    inet_pton AF_INET6 txt (replicate 16 0) 0 = Some (1, None, replicate 15 0 ++ [1]).
Proof.
  apply (@sock_ntop_inet6 x86_64 (replicate 15 0 ++ [1]) 0x5000 0 0 28 (replicate 128 0));
    [done| |done]. apply (bool_decide_unpack _). by vm_compute.
Defined.

Lemma memcmp_eq_0 a b : length a = length b -> memcmp a b = 0 <-> a = b.
Proof.
  revert b. induction a as [|x a IH]; intros [|y b]; simpl; intros Hl; try done.
  injection Hl as Hl. destruct (Z.eqb_spec x y) as [->|].
  - rewrite IH by done. split; [by intros ->|by intros [= ->]].
  - split; [lia|congruence].
Qed.

(** Well-formed internet addresses: their address arrays have the size of
    struct in_addr and struct in6_addr. *)
Definition inet_wf (sa : sockaddr) : Prop :=
  match sa with
  | SaIn s => length (sin_addr s) = 4%nat
  | SaIn6 s => length (sin6_addr s) = 16%nat
  | _ => False
  end.

Definition inet_addr (sa : sockaddr) : list Z :=
  match sa with SaIn s => sin_addr s | SaIn6 s => sin6_addr s | _ => [] end.

(** The address functions agree on internet addresses: sock_cmp_addr is 0
    exactly when the addresses are equal, sock_get_port returns the port that
    sock_set_port stored (its low 16 bits) and sock_set_addr the address, each
    setter leaves what the other reads alone, and sock_set_wild gives the
    all-zero address.  sock_cmp_port, unlike sock_cmp_addr, answers 1 for equal
    ports. *)
Theorem sock_address_ops sa sa2 salen port addr :
  inet_wf sa -> inet_wf sa2 -> sa_family sa = sa_family sa2 -> length addr = length (inet_addr sa) ->
  (sock_cmp_addr sa sa2 salen = Some 0 <-> inet_addr sa = inet_addr sa2) /\
  sock_get_port (sock_set_port sa salen port) salen = u16 port /\
  inet_addr (sock_set_port sa salen port) = inet_addr sa /\
  (exists sa', sock_set_addr sa salen addr = Some sa' /\ inet_addr sa' = addr /\
     sock_get_port sa' salen = sock_get_port sa salen /\ sa_family sa' = sa_family sa) /\
  (exists sa', sock_set_wild sa salen = Some sa' /\
     inet_addr sa' = replicate (length (inet_addr sa)) 0) /\
  sock_cmp_port sa sa2 salen =
    (if sock_get_port sa salen =? sock_get_port sa2 salen then 1 else 0).
Proof.
  intros H1 H2 Hf Ha. unfold sock_cmp_addr, sock_cmp_port, sock_set_wild.
  rewrite Hf, Z.eqb_refl. cbn [negb].
  destruct sa as [s|s| | |], sa2 as [s2|s2| | |]; try done; cbn [inet_wf inet_addr] in *;
    (split; [|split; [done|split; [done|split; [|split; [|done]]]]]).
  - rewrite (inj_iff Some), memcmp_eq_0 by congruence. done.
  - cbn [sock_set_addr]. rewrite Ha, H1. eexists. split; [done|]. cbn. by rewrite take_ge by lia.
  - eexists. split; [done|]. by rewrite H1.
  - rewrite (inj_iff Some), memcmp_eq_0 by congruence. done.
  - cbn [sock_set_addr]. rewrite Ha, H1. eexists. split; [done|]. cbn. by rewrite take_ge by lia.
  - eexists. split; [done|]. by rewrite H1.
Qed.

Lemma sock_address_ops_witness :
  let sa := SaIn (SockaddrIn 80 [1; 2; 3; 4]) in let sa2 := SaIn (SockaddrIn 80 [1; 2; 3; 5]) in
  (sock_cmp_addr sa sa2 16 = Some 0 <-> [1; 2; 3; 4] = [1; 2; 3; 5]) /\
  sock_get_port (sock_set_port sa 16 65537) 16 = 1 /\
  inet_addr (sock_set_port sa 16 65537) = [1; 2; 3; 4] /\
  (exists sa', sock_set_addr sa 16 [9; 8; 7; 6] = Some sa' /\ inet_addr sa' = [9; 8; 7; 6] /\
     sock_get_port sa' 16 = 80 /\ sa_family sa' = AF_INET) /\
  (exists sa', sock_set_wild sa 16 = Some sa' /\ inet_addr sa' = replicate 4 0) /\
  sock_cmp_port sa sa2 16 = 1.
Proof.
  exact (sock_address_ops (SaIn (SockaddrIn 80 [1; 2; 3; 4])) (SaIn (SockaddrIn 80 [1; 2; 3; 5]))
    16 65537 [9; 8; 7; 6] eq_refl eq_refl eq_refl eq_refl).
Defined.
