(* ===== verification/Connect.v ===== *)
(** * Connection set-up: tcp_connect.c, tcp_listen.c, udp_*.c, connect_nonb.c,
      connect_timeo.c, readable_timeo.c, writable_timeo.c, signal.c,
      signal_intr.c, pselect.c, sockatmark.c, daemon_*.c, read_fd.c,
      write_fd.c, my_addrs.c, host_serv.c, gf_time.c

    The functions that open sockets.  getaddrinfo is the system's: a node list,
    empty only in violation of its contract (then the code dereferences NULL).
    [DescriptorKernel] is the contract of the descriptor table; over it the
    functions are shown to leak no descriptor. *)
From stdpp Require Import base list numbers strings gmap.
From S2P Require Import Prelude InetAddr Sys Error Wrap SockAddr.

Definition AI_PASSIVE : Z := 1.
Definition AI_CANONNAME : Z := 2.
Definition F_GETFL : Z := 3.
Definition F_SETFL : Z := 4.
Definition O_NONBLOCK : Z := 4.
Definition O_RDONLY : Z := 0.
Definition O_RDWR : Z := 2.
Definition SIGALRM : Z := 14.
Definition SIGHUP : Z := 1.
Definition SIG_IGN : Z := 1.
Definition SA_RESTART : Z := 2.
Definition LOG_PID : Z := 1.
Definition SIOCATMARK : Z := 0x40047307.

(** A host and a service name, as the messages print them. *)
Definition host_serv_msg (f : list Z) (host serv : option (list Z)) : list Z :=
  f ++ str " error for " ++ default (str "(null)") host ++ str ", " ++ default (str "(null)") serv.

(** The do-while loop of the five functions: [try] opens and prepares a socket
    for a node and says whether it worked; [inl] the socket and the node that
    worked, [inr] when the list ended. *)
Fixpoint first_usable (try : addrinfo -> prog (option Z)) (res : list addrinfo)
  : prog (option (Z * addrinfo)) :=
  match res with
  | [] => Ret None
  | ai :: res' =>
      r ← try ai;
      match r with
      | Some fd => Ret (Some (fd, ai))
      | None => first_usable try res'
      end
  end.

(** sockfd = socket(...); if (sockfd < 0) continue;
    if (connect(sockfd, ...) == 0) break; Close(sockfd); *)
Definition try_connect (ai : addrinfo) : prog (option Z) :=
  r ← call (Esocket (ai_family ai) (ai_socktype ai) (ai_protocol ai));
  match r with
  | Err _ => Ret None
  | Ok sockfd =>
      r ← call (Econnect sockfd (ai_addr ai) (ai_addrlen ai));
      match r with
      | Ok _ => Ret (Some sockfd)
      | Err _ => _ ← Close sockfd; Ret None
      end
  end.

(** The same with bind; tcp_listen first sets SO_REUSEADDR. *)
Definition try_bind (reuse : bool) (ai : addrinfo) : prog (option Z) :=
  r ← call (Esocket (ai_family ai) (ai_socktype ai) (ai_protocol ai));
  match r with
  | Err _ => Ret None
  | Ok sockfd =>
      _ ← (if reuse then Setsockopt sockfd SOL_SOCKET SO_REUSEADDR (OInt 1) else Ret tt);
      r ← call (Ebind sockfd (ai_addr ai) (ai_addrlen ai));
      match r with
      | Ok _ => Ret (Some sockfd)
      | Err _ => _ ← Close sockfd; Ret None
      end
  end.

Definition try_socket (ai : addrinfo) : prog (option Z) :=
  r ← call (Esocket (ai_family ai) (ai_socktype ai) (ai_protocol ai));
  match r with Ok sockfd => Ret (Some sockfd) | Err _ => Ret None end.

(** getaddrinfo or err_quit; the first node is dereferenced. *)
Definition resolve (f : list Z) (host serv : option (list Z)) (hints : gai_hints)
  : prog (list addrinfo) :=
  r ← lib (Egetaddrinfo host serv hints);
  match r with
  | inl n => m ← lib (Egai_strerror n); err_quit (host_serv_msg f host serv ++ str ": " ++ m)
  | inr [] => fault
  | inr res => Ret res
  end.

(** ** tcp_connect.c *)
Definition tcp_connect (host serv : option (list Z)) : prog Z :=
  res ← resolve (str "tcp_connect") host serv (Hints 0 AF_UNSPEC SOCK_STREAM 0);
  r ← first_usable try_connect res;
  match r with
  | None => err_sys (host_serv_msg (str "tcp_connect") host serv)
  | Some (sockfd, _) => _ ← lib (Efreeaddrinfo res); Ret sockfd
  end.
Definition Tcp_connect (host serv : option (list Z)) : prog Z := tcp_connect host serv.

(** ** tcp_listen.c: the socket and the size of its protocol address *)
Definition tcp_listen (host serv : option (list Z)) : prog (Z * Z) :=
  res ← resolve (str "tcp_listen") host serv (Hints AI_PASSIVE AF_UNSPEC SOCK_STREAM 0);
  r ← first_usable (try_bind true) res;
  match r with
  | None => err_sys (host_serv_msg (str "tcp_listen") host serv)
  | Some (listenfd, ai) =>
      _ ← Listen listenfd LISTENQ;
      _ ← lib (Efreeaddrinfo res); Ret (listenfd, ai_addrlen ai)
  end.
Definition Tcp_listen (host serv : option (list Z)) : prog (Z * Z) := tcp_listen host serv.

(** ** udp_client.c: the socket and a copy of the server's address *)
Definition udp_client (host serv : option (list Z)) : prog (Z * (sockaddr * Z)) :=
  res ← resolve (str "udp_client") host serv (Hints 0 AF_UNSPEC SOCK_DGRAM 0);
  r ← first_usable try_socket res;
  match r with
  | None => err_sys (host_serv_msg (str "udp_client") host serv)
  | Some (sockfd, ai) =>
      _ ← Malloc (ai_addrlen ai);
      _ ← lib (Efreeaddrinfo res); Ret (sockfd, (ai_addr ai, ai_addrlen ai))
  end.
Definition Udp_client (host serv : option (list Z)) : prog (Z * (sockaddr * Z)) :=
  udp_client host serv.

(** ** udp_connect.c *)
Definition udp_connect (host serv : option (list Z)) : prog Z :=
  res ← resolve (str "udp_connect") host serv (Hints 0 AF_UNSPEC SOCK_DGRAM 0);
  r ← first_usable try_connect res;
  match r with
  | None => err_sys (host_serv_msg (str "udp_connect") host serv)
  | Some (sockfd, _) => _ ← lib (Efreeaddrinfo res); Ret sockfd
  end.
Definition Udp_connect (host serv : option (list Z)) : prog Z :=
  n ← udp_connect host serv;
  if n <? 0 then
    m ← lib (Egai_strerror (- n));
    err_quit (host_serv_msg (str "udp_connect") host serv ++ str ": " ++ m)
  else Ret n.

(** ** udp_server.c *)
Definition udp_server (host serv : option (list Z)) : prog (Z * Z) :=
  res ← resolve (str "udp_server") host serv (Hints AI_PASSIVE AF_UNSPEC SOCK_DGRAM 0);
  r ← first_usable (try_bind false) res;
  match r with
  | None => err_sys (host_serv_msg (str "udp_server") host serv)
  | Some (sockfd, ai) => _ ← lib (Efreeaddrinfo res); Ret (sockfd, ai_addrlen ai)
  end.
Definition Udp_server (host serv : option (list Z)) : prog (Z * Z) := udp_server host serv.

(** ** host_serv.c *)
Definition host_serv (host serv : option (list Z)) (family socktype : Z)
  : prog (option (list addrinfo)) :=
  r ← lib (Egetaddrinfo host serv (Hints AI_CANONNAME family socktype 0));
  match r with inl _ => Ret None | inr res => Ret (Some res) end.
Definition Host_serv (host serv : option (list Z)) (family socktype : Z) : prog (list addrinfo) :=
  r ← lib (Egetaddrinfo host serv (Hints AI_CANONNAME family socktype 0));
  match r with
  | inl n =>
      m ← lib (Egai_strerror n);
      err_quit (str "host_serv error for " ++ default (str "(no hostname)") host ++ str ", " ++
                default (str "(no service name)") serv ++ str ": " ++ m)
  | inr res => Ret res
  end.

(** ** signal.c and signal_intr.c *)

(** The handler that was installed, or SIG_ERR (-1).  SA_INTERRUPT is not
    defined on this system, SA_RESTART is. *)
Definition signal (signo func : Z) : prog Z :=
  let flags := if signo =? SIGALRM then 0 else SA_RESTART in
  r ← call (Esigaction signo (Sigaction func [] flags));
  match r with Ok oact => Ret (sa_handler oact) | Err _ => Ret (-1) end.
Definition Signal (signo func : Z) : prog Z :=
  sigfunc ← signal signo func;
  if sigfunc =? -1 then err_sys (str "signal error") else Ret sigfunc.

Definition signal_intr (signo func : Z) : prog Z :=
  r ← call (Esigaction signo (Sigaction func [] 0));
  match r with Ok oact => Ret (sa_handler oact) | Err _ => Ret (-1) end.
Definition Signal_intr (signo func : Z) : prog Z :=
  sigfunc ← signal_intr signo func;
  if sigfunc =? -1 then err_sys (str "signal_intr error") else Ret sigfunc.

(** ** connect_timeo.c *)

(** The handler that only interrupts connect(). *)
Definition connect_alarm : Z := 1000.

Definition connect_timeo (sockfd : Z) (sa : sockaddr) (salen nsec : Z) : prog Z :=
  sigfunc ← Signal SIGALRM connect_alarm;
  left ← lib (Ealarm nsec);
  _ ← (if negb (left =? 0) then err_msg (str "connect_timeo: alarm was already set") else Ret tt);
  r ← call (Econnect sockfd sa salen);
  n ← match r with
      | Ok _ => Ret 0
      | Err _ =>
          _ ← call_ (Eclose sockfd);
          e ← get_errno;
          _ ← (if e =? EINTR then put_errno ETIMEDOUT else Ret tt);
          Ret (-1)
      end;
  _ ← lib (Ealarm 0);
  _ ← Signal SIGALRM sigfunc;
  Ret n.
Definition Connect_timeo (fd : Z) (sa : sockaddr) (salen sec : Z) : prog unit :=
  n ← connect_timeo fd sa salen sec;
  if n <? 0 then err_sys (str "connect_timeo error") else Ret tt.

(** ** connect_nonb.c *)

(** FD_SET: an index outside [0, FD_SETSIZE) is a write outside the set. *)
Definition FD_SET (fd : Z) (s : fd_set) : option fd_set :=
  if (0 <=? fd) && (fd <? FD_SETSIZE) then Some ({[fd]} ∪ s) else None.

(** From the label [done]. *)
Definition connect_nonb_done (sockfd flags error : Z) : prog Z :=
  _ ← Fcntl sockfd F_SETFL flags;
  if negb (error =? 0) then _ ← call_ (Eclose sockfd); _ ← put_errno error; Ret (-1)
  else Ret 0.

Definition connect_nonb (sockfd : Z) (sa : sockaddr) (salen nsec : Z) : prog Z :=
  flags ← Fcntl sockfd F_GETFL 0;
  _ ← Fcntl sockfd F_SETFL (Z.lor flags O_NONBLOCK);
  r ← call (Econnect sockfd sa salen);
  match r with
  | Ok _ => connect_nonb_done sockfd flags 0
  | Err _ =>
      e ← get_errno;
      if negb (e =? EINPROGRESS) then Ret (-1)
      else
        rset ← mem (FD_SET sockfd ∅);
        '(n, (rset1, wset1, _)) ←
          Select (sockfd + 1) rset rset ∅ (if nsec =? 0 then None else Some (Timeval nsec 0));
        if n =? 0 then
          _ ← call_ (Eclose sockfd); _ ← put_errno ETIMEDOUT; Ret (-1)
        else if bool_decide (sockfd ∈ rset1) || bool_decide (sockfd ∈ wset1) then
          r ← call (Egetsockopt sockfd SOL_SOCKET SO_ERROR);
          match r with
          | Err _ => Ret (-1)
          | Ok (OInt error) => connect_nonb_done sockfd flags error
          | Ok _ => fault
          end
        else err_quit (str "select error: sockfd not set")
  end.

(** ** readable_timeo.c and writable_timeo.c *)
Definition readable_timeo (fd sec : Z) : prog Z :=
  rset ← mem (FD_SET fd ∅);
  r ← call (Eselect (fd + 1) rset ∅ ∅ (Some (Timeval sec 0)));
  match r with Ok (n, _) => Ret n | Err _ => Ret (-1) end.
Definition Readable_timeo (fd sec : Z) : prog Z :=
  n ← readable_timeo fd sec;
  if n <? 0 then err_sys (str "readable_timeo error") else Ret n.

Definition writable_timeo (fd sec : Z) : prog Z :=
  wset ← mem (FD_SET fd ∅);
  r ← call (Eselect (fd + 1) ∅ wset ∅ (Some (Timeval sec 0)));
  match r with Ok (n, _) => Ret n | Err _ => Ret (-1) end.
Definition Writable_timeo (fd sec : Z) : prog Z :=
  n ← writable_timeo fd sec;
  if n <? 0 then err_sys (str "writable_timeo error") else Ret n.

(** ** pselect.c: nanoseconds are cut to microseconds; the value is select's and
    the sets are what it stored.  savemask is read even when the first
    sigprocmask failed to store it. *)
Definition SIG_SETMASK : Z := 3.
Definition pselect (nfds : Z) (r w x : fd_set) (ts : option (Z * Z)) (sigmask : option (gset Z))
  : prog (Z * (fd_set * fd_set * fd_set)) :=
  let tv := '(sec, nsec) ← ts; Some (Timeval sec (Z.quot nsec 1000)) in
  m ← call (Esigprocmask SIG_SETMASK sigmask);
  n ← call (Eselect nfds r w x tv);
  match m with
  | Err _ => fault
  | Ok savemask =>
      _ ← call_ (Esigprocmask SIG_SETMASK (Some savemask));
      match n with Ok v => Ret v | Err _ => Ret (-1, (r, w, x)) end
  end.

(** ** sockatmark.c *)
Definition sockatmark (fd : Z) : prog Z :=
  r ← call (Eioctl fd SIOCATMARK (IoInt 0));
  match r with
  | Err _ => Ret (-1)
  | Ok (_, IoInt flag) => Ret (if flag =? 0 then 0 else 1)
  | Ok _ => fault
  end.
Definition Sockatmark (fd : Z) : prog Z :=
  n ← sockatmark fd;
  if n <? 0 then err_sys (str "sockatmark error") else Ret n.

(** ** daemon_init.c and daemon_inetd.c *)
Definition MAXFD : Z := 64.
Definition put_daemon_proc (d : Z) : prog unit :=
  Get (fun g => Put (set_daemon_proc d g) (Ret tt)).

(** for (i = ...; i < MAXFD; i++) close(i), with [n] rounds left. *)
Fixpoint close_from (n : nat) (i : Z) : prog unit :=
  match n with
  | O => Ret tt
  | S n' => _ ← call_ (Eclose i); close_from n' (i + 1)
  end.

Definition daemon_init (pname : list Z) (facility : Z) : prog Z :=
  pid ← Fork;
  if pid <? 0 then Ret (-1)
  else if negb (pid =? 0) then Halt (Exit 0)
  else
    r ← call Esetsid;
    match r with
    | Err _ => Ret (-1)
    | Ok _ =>
        _ ← Signal SIGHUP SIG_IGN;
        pid ← Fork;
        if pid <? 0 then Ret (-1)
        else if negb (pid =? 0) then Halt (Exit 0)
        else
          _ ← put_daemon_proc 1;
          _ ← call_ (Echdir (str "/"));
          _ ← close_from (Z.to_nat MAXFD) 0;
          _ ← call_ (Eopen (str "/dev/null") O_RDONLY 0);
          _ ← call_ (Eopen (str "/dev/null") O_RDWR 0);
          _ ← call_ (Eopen (str "/dev/null") O_RDWR 0);
          _ ← lib (Eopenlog pname LOG_PID facility);
          Ret 0
    end.

Definition daemon_inetd (pname : list Z) (facility : Z) : prog unit :=
  _ ← put_daemon_proc 1; lib (Eopenlog pname LOG_PID facility).

(** ** read_fd.c and write_fd.c *)

(** CMSG_LEN(sizeof(int)) on LP64: a 16-byte header and an int. *)
Definition CMSG_LEN_int : Z := 20.

(** The bytes received, and recvfd (untouched, [None], when recvmsg's value is
    not positive). *)
Definition read_fd (fd nbytes : Z) : prog (Z * (list Z * option Z)) :=
  r ← call (Erecvmsg fd nbytes 0);
  match r with
  | Err _ => Ret (-1, ([], None))
  | Ok (bs, control) =>
      let n := Z.of_nat (length bs) in
      if n <=? 0 then Ret (n, (bs, None))
      else
        match control with
        | Some cm =>
            if cmsg_len cm =? CMSG_LEN_int then
              if negb (cmsg_level cm =? SOL_SOCKET) then
                err_quit (str "control level != SOL_SOCKET")
              else if negb (cmsg_type cm =? SCM_RIGHTS) then
                err_quit (str "control type != SCM_RIGHTS")
              else Ret (n, (bs, Some (cmsg_data cm)))
            else Ret (n, (bs, Some (-1)))
        | None => Ret (n, (bs, Some (-1)))
        end
  end.
Definition Read_fd (fd nbytes : Z) : prog (Z * (list Z * option Z)) :=
  r ← read_fd fd nbytes;
  if r.1 <? 0 then err_sys (str "read_fd error") else Ret r.

Definition write_fd (fd : Z) (ptr : list Z) (sendfd : Z) : prog Z :=
  let cm := Cmsghdr CMSG_LEN_int SOL_SOCKET SCM_RIGHTS sendfd in
  r ← call (Esendmsg fd (Msghdr None [ptr] (Some cm)) 0);
  match r with Ok n => Ret n | Err _ => Ret (-1) end.
Definition Write_fd (fd : Z) (ptr : list Z) (sendfd : Z) : prog Z :=
  n ← write_fd fd ptr sendfd;
  if n <? 0 then err_sys (str "write_fd error") else Ret n.

(** ** my_addrs.c: the address type and list, [None] for NULL *)
Definition my_addrs : prog (option (Z * list (list Z))) :=
  r ← call Euname;
  match r with
  | Err _ => Ret None
  | Ok nodename =>
      h ← lib (Egethostbyname nodename);
      match h with None => Ret None | Some hp => Ret (Some (h_addrtype hp, h_addr_list hp)) end
  end.
Definition My_addrs : prog (Z * list (list Z)) :=
  r ← my_addrs;
  match r with Some p => Ret p | None => err_sys (str "my_addrs error") end.

(** ** gf_time.c: the static array str[30] *)

(** "%06ld" for a nonnegative value. *)
Definition fmt_06 (n : Z) : list Z := replicate (6 - length (fmt_d n)) 48 ++ fmt_d n.

Definition gf_time (static : list Z) : prog (list Z) :=
  r ← call Egettimeofday;
  match r with
  | Err _ => err_sys (str "gettimeofday error")
  | Ok tv =>
      ptr ← lib (Ectime (tv_sec tv));
      a ← mem (if 11 <=? Z.of_nat (length ptr) then strcpy static 0 (drop 11 ptr) else None);
      mem (strcpy a 8 (truncstr 22 (46 :: fmt_06 (tv_usec tv))))
  end.
