(* ===== verification/ConnectProofs.v ===== *)
(** * Connection set-up: theorems

    [DescriptorKernel] is what the code relies on of the descriptor table.
    Over it, tcp_connect, tcp_listen, udp_client, udp_connect and udp_server
    return one new descriptor and leak none; further theorems give the
    behaviour of connect_timeo and connect_nonb, and the passing of a
    descriptor through write_fd and read_fd. *)
From stdpp Require Import base list numbers strings gmap.
From S2P Require Import Prelude InetAddr Sys Error Wrap SockAddr Connect.

(** The calls that open or close descriptors. *)
Definition fd_neutral {X} (e : sysE X) : bool :=
  match e with
  | Eaccept _ | Ekqueue | Esocket _ _ _ | Esocketpair _ _ _ | Eclose _ | Edup2 _ _ | Efcntl _ _ _
  | Emkstemp _ | Eopen _ _ _ | Epipe | Erecvmsg _ _ _ | Efclose _ | Efopen _ _ | Efdopen _ _ => false
  | _ => true
  end.

Class DescriptorKernel (K : Type) `{!Kernel K} := {
  open_fds : K -> gset Z;
  socket_contract : forall k f t p,
    match kcall (Esocket f t p) k with
    | (Ok fd, k') => 0 <= fd /\ (fd ∉ open_fds k) /\ open_fds k' = {[fd]} ∪ open_fds k
    | (Err _, k') => open_fds k' = open_fds k
    end;
  close_contract : forall k fd,
    match kcall (Eclose fd) k with
    | (Ok _, k') => open_fds k' = open_fds k ∖ {[fd]}
    | (Err _, k') => open_fds k' = open_fds k
    end;
  neutral_contract : forall X (e : sysE X) k,
    fd_neutral e = true -> open_fds (kcall e k).2 = open_fds k;
  lib_contract : forall X (e : libE X) k, open_fds (klib e k).2 = open_fds k }.

Lemma set_reopen (s : gset Z) fd : fd ∉ s -> ({[fd]} ∪ s) ∖ {[fd]} = s.
Proof. set_solver. Qed.

Section Descriptors.
Context {K : Type} `{HK : !Kernel K} `{HD : !DescriptorKernel K}.
Implicit Types (k : K) (g : globals).

(** What an attempt to get a socket does to the table. *)
Definition opens {A} (fd_of : A -> option Z) k (o : outcome A) k' : Prop :=
  match o with
  | Done a =>
      match fd_of a with
      | Some fd => 0 <= fd /\ (fd ∉ open_fds k) /\ open_fds k' = {[fd]} ∪ open_fds k
      | None => open_fds k' = open_fds k
      end
  | Halted _ => True
  end.

Lemma reopened k k1 k2 fd :
  fd ∉ open_fds k -> open_fds k1 = {[fd]} ∪ open_fds k -> open_fds k2 = open_fds k1 ∖ {[fd]} ->
  open_fds k2 = open_fds k.
Proof. intros Hn E1 E2. by rewrite E2, E1, set_reopen. Qed.

Lemma run_Close fd g k :
  let '(o, g', k') := run (Close fd) g k in
  match o with
  | Done _ => open_fds k' = open_fds k ∖ {[fd]}
  | Halted _ => True
  end.
Proof.
  pose proof (checked__guards (Eclose fd) (str "close error") K HK g k) as HG.
  pose proof (close_contract k fd) as HC. unfold Close.
  destruct (kcall (Eclose fd) k) as [[u|e] k1].
  - by rewrite HG.
  - destruct HG as (h & g' & k' & -> & _). done.
Qed.

(** Closing after a failed step undoes the socket call. *)
Lemma opens_closed fd g k k1 k2 :
  fd ∉ open_fds k -> open_fds k1 = {[fd]} ∪ open_fds k -> open_fds k2 = open_fds k1 ->
  let '(o, g', k') := run (_ ← Close fd; Ret (None : option Z)) g k2 in opens id k o k'.
Proof.
  intros H1 H2 H3. runs. pose proof (run_Close fd g k2) as HC.
  destruct (run (Close fd) g k2) as [[o g'] k']. destruct o; [|done]. simpl.
  eapply reopened; [done|done|]. by rewrite HC, H3.
Qed.

Lemma run_neutral {X} (e : sysE X) k : fd_neutral e = true ->
  exists r k', kcall e k = (r, k') /\ open_fds k' = open_fds k.
Proof.
  intros Hn. pose proof (neutral_contract X e k Hn) as H.
  destruct (kcall e k) as [r k']. eauto.
Qed.

Lemma run_neutral_lib {X} (e : libE X) k :
  exists r k', klib e k = (r, k') /\ open_fds k' = open_fds k.
Proof. pose proof (lib_contract X e k) as H. destruct (klib e k) as [r k']. eauto. Qed.

Lemma try_connect_opens ai g k :
  let '(o, g', k') := run (try_connect ai) g k in opens id k o k'.
Proof.
  unfold try_connect. runs.
  pose proof (socket_contract k (ai_family ai) (ai_socktype ai) (ai_protocol ai)) as HS.
  destruct (kcall (Esocket _ _ _) k) as [[fd|e] k1]; cbn beta iota; [|done].
  destruct HS as (H0 & H1 & H2). runs.
  destruct (run_neutral (Econnect fd (ai_addr ai) (ai_addrlen ai)) k1 eq_refl) as ([u|e] & k2 & -> & H3);
    cbn beta iota.
  - simpl. rewrite H3. done.
  - by eapply opens_closed.
Qed.

Lemma try_socket_opens ai g k :
  let '(o, g', k') := run (try_socket ai) g k in opens id k o k'.
Proof.
  unfold try_socket. runs.
  pose proof (socket_contract k (ai_family ai) (ai_socktype ai) (ai_protocol ai)) as HS.
  by destruct (kcall (Esocket _ _ _) k) as [[fd|e] k1].
Qed.

Lemma run_checked_neutral {X} (e : sysE X) msg g k : fd_neutral e = true ->
  let '(o, g', k') := run (checked_ e msg) g k in
  match o with Done _ => open_fds k' = open_fds k | Halted _ => True end.
Proof.
  intros Hn. pose proof (checked__guards e msg K HK g k) as HG.
  destruct (run_neutral e k Hn) as ([v|er] & k1 & E & H); rewrite E in HG.
  - by rewrite HG.
  - destruct HG as (h & g' & k' & -> & _). done.
Qed.

Lemma try_bind_opens reuse ai g k :
  let '(o, g', k') := run (try_bind reuse ai) g k in opens id k o k'.
Proof.
  unfold try_bind. runs.
  pose proof (socket_contract k (ai_family ai) (ai_socktype ai) (ai_protocol ai)) as HS.
  destruct (kcall (Esocket _ _ _) k) as [[fd|e] k1]; cbn beta iota; [|done].
  destruct HS as (H0 & H1 & H2). rewrite run_bind.
  assert (let '(o, g', k') := run (if reuse then Setsockopt fd SOL_SOCKET SO_REUSEADDR (OInt 1)
            else Ret tt) g k1 in
          match o with Done _ => open_fds k' = open_fds k1 | Halted _ => True end) as HO.
  { destruct reuse; [|done]. by apply run_checked_neutral. }
  destruct (run _ g k1) as [[o g2] k2]. destruct o; [|done]. runs.
  destruct (run_neutral (Ebind fd (ai_addr ai) (ai_addrlen ai)) k2 eq_refl) as ([u|e] & k3 & -> & H3);
    cbn beta iota.
  - simpl. rewrite H3, HO. done.
  - eapply opens_closed; [done|done|congruence].
Qed.

Lemma first_usable_opens try res g k :
  (forall ai g k, let '(o, g', k') := run (try ai) g k in opens id k o k') ->
  let '(o, g', k') := run (first_usable try res) g k in opens (option_map fst) k o k'.
Proof.
  intros Ht. revert g k. induction res as [|ai res IH]; intros g k; [done|].
  cbn [first_usable]. runs. specialize (Ht ai g k). destruct (run (try ai) g k) as [[o g1] k1].
  destruct o as [[fd|]|h]; [done| |done]. simpl in Ht. specialize (IH g1 k1).
  destruct (run (first_usable try res) g1 k1) as [[o g2] k2]. unfold opens in *.
  by rewrite Ht in IH.
Qed.

(** resolve leaves the table alone. *)
Lemma resolve_neutral f host serv h g k :
  let '(o, g', k') := run (resolve f host serv h) g k in
  match o with Done res => open_fds k' = open_fds k /\ res <> [] | Halted _ => True end.
Proof.
  unfold resolve. runs.
  destruct (run_neutral_lib (Egetaddrinfo host serv h) k) as (r & k1 & -> & H1).
  destruct r as [n|[|ai res]]; [|done|by split]. runs.
  destruct (run_neutral_lib (Egai_strerror n) k1) as (m & k2 & -> & H2).
  destruct (run_err_quit (A := list addrinfo) (host_serv_msg f host serv ++ str ": " ++ m) g k2)
    as (h' & g' & k' & -> & _). done.
Qed.

(** The functions that connect or bind: after resolve and the loop, only
    neutral calls. *)
Lemma opener_opens {A} f host serv h try (fin : list addrinfo -> option (Z * addrinfo) -> prog A)
    (fd_of : A -> option Z) g k :
  (forall ai g k, let '(o, g', k') := run (try ai) g k in opens id k o k') ->
  (forall res r g k, let '(o, g', k') := run (fin res r) g k in
     match o with
     | Done a => open_fds k' = open_fds k /\ fd_of a = fst <$> r
     | Halted _ => True
     end) ->
  let '(o, g', k') := run (res ← resolve f host serv h; r ← first_usable try res; fin res r) g k in
  opens fd_of k o k'.
Proof.
  intros Ht Hfin. runs. pose proof (resolve_neutral f host serv h g k) as HR.
  destruct (run (resolve f host serv h) g k) as [[o g1] k1]. destruct o as [res|]; [|done].
  destruct HR as [HR _]. runs. pose proof (first_usable_opens try res g1 k1 Ht) as HF.
  destruct (run (first_usable try res) g1 k1) as [[o g2] k2]. destruct o as [r|]; [|done].
  specialize (Hfin res r g2 k2). destruct (run (fin res r) g2 k2) as [[o g3] k3].
  destruct o as [a|]; [|done]. destruct Hfin as [H3 Hfd]. unfold opens in *. rewrite Hfd.
  rewrite H3, <- HR. by destruct r.
Qed.

(** A final step that succeeds with the descriptor or dies. *)
Lemma run_lib_ret {A} {X} (e : libE X) (a : A) g k :
  exists k', run (_ ← lib e; Ret a) g k = (Done a, g, k') /\ open_fds k' = open_fds k.
Proof.
  runs. destruct (run_neutral_lib e k) as (x & k1 & -> & H). by exists k1.
Qed.

Lemma run_err_sys_fin {A} msg g k (P : A -> K -> Prop) :
  let '(o, g', k') := run (err_sys msg : prog A) g k in
  match o with Done a => P a k' | Halted _ => True end.
Proof. destruct (run_err_sys (A := A) msg g k) as (h & g' & k' & -> & _). done. Qed.

(** C10. The functions that open a socket for a host and service leak no
    descriptor: when tcp_connect, udp_connect, tcp_listen, udp_server or
    udp_client returns, however many candidate addresses failed on the way,
    exactly one descriptor is open that was not open before, and it is the one
    returned. *)
Theorem openers_leak_nothing host serv g k :
  (let '(o, _, k') := run (tcp_connect host serv) g k in opens Some k o k') /\
  (let '(o, _, k') := run (udp_connect host serv) g k in opens Some k o k') /\
  (let '(o, _, k') := run (tcp_listen host serv) g k in opens (fun r => Some r.1) k o k') /\
  (let '(o, _, k') := run (udp_server host serv) g k in opens (fun r => Some r.1) k o k') /\
  (let '(o, _, k') := run (udp_client host serv) g k in opens (fun r => Some r.1) k o k').
Proof.
  split_and!.
  - apply opener_opens; [apply try_connect_opens|]. intros res [[fd ai]|] g' k'.
    + destruct (run_lib_ret (Efreeaddrinfo res) fd g' k') as (k2 & -> & H). done.
    + apply run_err_sys_fin.
  - apply opener_opens; [apply try_connect_opens|]. intros res [[fd ai]|] g' k'.
    + destruct (run_lib_ret (Efreeaddrinfo res) fd g' k') as (k2 & -> & H). done.
    + apply run_err_sys_fin.
  - apply opener_opens; [apply try_bind_opens|]. intros res [[fd ai]|] g' k'.
    + runs. unfold Listen. runs.
      destruct (run_neutral_lib (Egetenv (str "LISTENQ")) k') as (x & k1 & -> & H1).
      pose proof (run_checked_neutral (Elisten fd match x with Some s => s32 (atoi s) | None => LISTENQ end)
        (str "listen error") g' k1 eq_refl) as HL.
      destruct (run (checked_ _ _) g' k1) as [[o g2] k2]. destruct o; [|done].
      destruct (run_lib_ret (Efreeaddrinfo res) (fd, ai_addrlen ai) g2 k2) as (k3 & -> & H).
      split; [congruence|done].
    + apply run_err_sys_fin.
  - apply opener_opens; [apply try_bind_opens|]. intros res [[fd ai]|] g' k'.
    + destruct (run_lib_ret (Efreeaddrinfo res) (fd, ai_addrlen ai) g' k') as (k2 & -> & H). done.
    + apply run_err_sys_fin.
  - apply opener_opens; [apply try_socket_opens|]. intros res [[fd ai]|] g' k'.
    + runs. pose proof (checked_guards (Emalloc (ai_addrlen ai)) (str "malloc error") K HK g' k') as HG.
      unfold Malloc. destruct (run_neutral (Emalloc (ai_addrlen ai)) k' eq_refl) as ([p|e] & k1 & E & H1);
        rewrite E in HG.
      * rewrite HG. destruct (run_lib_ret (Efreeaddrinfo res) (fd, (ai_addr ai, ai_addrlen ai)) g' k1)
          as (k3 & -> & H). split; [congruence|done].
      * destruct HG as (h & g2 & k2 & -> & _). done.
    + apply run_err_sys_fin.
Qed.
End Descriptors.

(** ** A system with a descriptor table

    [tab_script] says which connect and bind calls succeed, [tab_nodes] what
    getaddrinfo returns. *)
Record tab := Tab { tab_open : gset Z; tab_script : list bool; tab_nodes : list addrinfo }.

Definition tab_fresh (s : gset Z) : Z := foldr Z.max 2 (elements s) + 1.

Lemma tab_fresh_spec s : 0 <= tab_fresh s /\ tab_fresh s ∉ s.
Proof.
  unfold tab_fresh.
  assert (forall l, 2 <= foldr Z.max 2 l /\ Forall (fun x => x <= foldr Z.max 2 l) l) as H.
  { induction l as [|x l [IH1 IH2]]; simpl; [done|]. split; [lia|]. constructor; [lia|].
    eapply Forall_impl; [exact IH2|]. simpl. lia. }
  destruct (H (elements s)) as [H1 H2]. split; [lia|]. intros Hin.
  apply elem_of_elements in Hin. rewrite Forall_forall in H2. apply H2 in Hin. lia.
Qed.

Definition tab_try (k : tab) : res unit * tab :=
  match tab_script k with
  | true :: sc => (Ok tt, Tab (tab_open k) sc (tab_nodes k))
  | false :: sc => (Err ECONNREFUSED, Tab (tab_open k) sc (tab_nodes k))
  | [] => (Err ECONNREFUSED, k)
  end.

#[export] Instance tab_kernel : Kernel tab := {|
  kcall X e :=
    match e in sysE X return tab -> res X * tab with
    | Esocket _ _ _ => fun k =>
        let fd := tab_fresh (tab_open k) in
        (Ok fd, Tab ({[fd]} ∪ tab_open k) (tab_script k) (tab_nodes k))
    | Eclose fd => fun k =>
        if bool_decide (fd ∈ tab_open k)
        then (Ok tt, Tab (tab_open k ∖ {[fd]}) (tab_script k) (tab_nodes k)) else (Err EBADF, k)
    | Econnect _ _ _ => tab_try
    | Ebind _ _ _ => tab_try
    | Elisten _ _ => fun k => (Ok tt, k)
    | Esetsockopt _ _ _ _ => fun k => (Ok tt, k)
    | Emalloc _ => fun k => (Ok 1, k)
    | _ => fun k => (Err ENOSYS, k)
    end;
  klib X e :=
    match e in libE X return tab -> X * tab with
    | Egetaddrinfo _ _ _ => fun k => (inr (tab_nodes k), k)
    | e => fun k => ((@klib unit (failing_kernel ENOSYS) _ e tt).1, k)
    end |}.

#[export] Instance tab_descriptors : DescriptorKernel tab.
Proof.
  refine {| open_fds := tab_open |}.
  - intros k f t p. cbn. destruct (tab_fresh_spec (tab_open k)). done.
  - intros k fd. cbn. case_bool_decide; done.
  - intros X e k Hn. destruct e; try done; cbn; unfold tab_try; by destruct (tab_script k) as [|[]].
  - intros X e k. by destruct e.
Defined.

Definition node (port : Z) : addrinfo :=
  Addrinfo 0 AF_INET SOCK_STREAM 0 16 None (SaIn (SockaddrIn port [127; 0; 0; 1])).
Definition tab1 : tab := Tab {[0; 1; 2]} [false; true] [node 1; node 2].

Lemma openers_leak_nothing_witness :
  let '(o, _, k') := run (tcp_connect (Some (str "localhost")) (Some (str "9877"))) globals0 tab1 in
  opens Some tab1 o k'.
Proof. apply (proj1 (openers_leak_nothing (Some (str "localhost")) (Some (str "9877")) globals0 tab1)). Defined.

(** ** connect_timeo *)

Section Timeo.
Context {K : Type} `{HK : !Kernel K}.
Implicit Types (k : K) (g : globals).

(** sigaction on a valid signal succeeds (and does not answer SIG_ERR). *)
Definition sigaction_works : Prop := forall k signo act,
  exists oact k', kcall (Esigaction signo act) k = (Ok oact, k') /\ sa_handler oact <> -1.
Definition close_works : Prop := forall k fd, exists k', kcall (Eclose fd) k = (Ok tt, k').

Lemma run_Signal signo func g k :
  sigaction_works ->
  exists oact k', kcall (Esigaction signo (Sigaction func [] (if signo =? SIGALRM then 0 else SA_RESTART))) k
      = (Ok oact, k') /\
    run (Signal signo func) g k = (Done (sa_handler oact), g, k').
Proof.
  intros HS. destruct (HS k signo (Sigaction func [] (if signo =? SIGALRM then 0 else SA_RESTART)))
    as (oact & k' & E & Hne). exists oact, k'. split; [done|].
  unfold Signal, signal. runs. rewrite E. runs.
  destruct (Z.eqb_spec (sa_handler oact) (-1)); [done|]. done.
Qed.
End Timeo.

Section TimeoTraced.
Context {K : Type} `{HK : !Kernel K}.

Lemma sigaction_works_traced : @sigaction_works K HK -> @sigaction_works (K * list event) _.
Proof.
  intros HS [k0 t0] signo act. destruct (HS k0 signo act) as (o & k' & E & Hn).
  exists o, (k', t0 ++ [EvSys (Esigaction signo act) (Ok o)]). cbn. by rewrite E.
Qed.

(** The last two calls of connect_timeo. *)
Lemma timeo_restore h (n : Z) g (k : K) t :
  @sigaction_works K HK ->
  exists k' a old', run (_ ← lib (Ealarm 0); _ ← Signal SIGALRM h; Ret n) g (k, t) =
    (Done n, g, (k', t ++ [EvLib (Ealarm 0) a;
                           EvSys (Esigaction SIGALRM (Sigaction h [] 0)) (Ok old')])).
Proof.
  intros HS. runs. cbn [klib traced]. destruct (klib (Ealarm 0) k) as [a k4]. cbn beta iota. runs.
  destruct (run_Signal SIGALRM h g (k4, t ++ [EvLib (Ealarm 0) a]) (sigaction_works_traced HS))
    as (o2 & kt2 & Ek2 & ->).
  cbn [kcall traced] in Ek2. change (if SIGALRM =? SIGALRM then 0 else SA_RESTART) with 0 in Ek2.
  destruct (kcall (Esigaction SIGALRM (Sigaction h [] 0)) k4) as [r5 k5].
  injection Ek2 as -> <-. cbn [run]. exists k5, a, o2. by rewrite <- app_assoc.
Qed.

(** if (errno == EINTR) errno = ETIMEDOUT; *)
Lemma run_eintr_timeout {K'} `{!Kernel K'} e g (k : K') :
  run (if e =? EINTR then put_errno ETIMEDOUT else Ret tt) (set_errno e g) k =
  (Done tt, set_errno (if e =? EINTR then ETIMEDOUT else e) g, k).
Proof. by destruct (e =? EINTR); runs. Qed.

(** connect_timeo tells a timeout from an error and cleans up: when the
    alarm was not set before and the signal and close calls work, its value is
    0 if connect succeeded and -1 otherwise, errno is then ETIMEDOUT if connect
    was interrupted and connect's own errno if not, the socket is closed only
    on failure, and in every case the alarm is turned off and the previous
    handler put back, as its last two calls. *)
Theorem connect_timeo_cleans_up fd sa len nsec g (k k1 k2 k3 : K) t oact r :
  @sigaction_works K HK -> @close_works K HK ->
  kcall (Esigaction SIGALRM (Sigaction connect_alarm [] 0)) k = (Ok oact, k1) ->
  klib (Ealarm nsec) k1 = (0, k2) ->
  kcall (Econnect fd sa len) k2 = (r, k3) ->
  exists g' k' a old',
    run (connect_timeo fd sa len nsec) g (k, t) =
      (Done (match r with Ok _ => 0 | Err _ => -1 end), g',
       (k', t ++ [EvSys (Esigaction SIGALRM (Sigaction connect_alarm [] 0)) (Ok oact);
                  EvLib (Ealarm nsec) 0; EvSys (Econnect fd sa len) r] ++
            (match r with Ok _ => [] | Err _ => [EvSys (Eclose fd) (Ok tt)] end) ++
            [EvLib (Ealarm 0) a;
             EvSys (Esigaction SIGALRM (Sigaction (sa_handler oact) [] 0)) (Ok old')])) /\
    errno g' = match r with
               | Ok _ => errno g
               | Err e => if e =? EINTR then ETIMEDOUT else e
               end.
Proof.
  intros HS HC E1 E2 E3. unfold connect_timeo. rewrite run_bind.
  destruct (run_Signal SIGALRM connect_alarm g (k, t) (sigaction_works_traced HS))
    as (o1 & kt1 & Ek & ->).
  cbn in Ek. rewrite E1 in Ek. injection Ek as <- <-. cbn beta iota.
  rewrite run_bind, run_lib. cbn [klib traced]. rewrite E2. cbn beta iota.
  change (0 =? 0) with true. cbn [negb]. rewrite run_bind, run_ret. cbn beta iota.
  rewrite run_bind, run_call. cbn [kcall traced]. rewrite E3. destruct r as [u|e]; cbn beta iota.
  - rewrite run_bind, run_ret. cbn beta iota.
    match goal with |- context [run _ ?g' (k3, ?t')] =>
      destruct (timeo_restore (sa_handler oact) 0 g' k3 t' HS) as (k' & a & old' & ->) end.
    exists g, k', a, old'. split; [by rewrite <- !app_assoc|done].
  - destruct (HC k3 fd) as [k4 Ec]. rewrite !run_bind, run_call_. cbn [kcall traced]. rewrite Ec.
    cbn beta iota. rewrite run_bind, run_get_errno. cbn beta iota. cbn [errno set_errno].
    rewrite run_bind, run_eintr_timeout. cbn beta iota. rewrite run_ret. cbn beta iota.
    match goal with |- context [run _ ?g' (k4, ?t')] =>
      destruct (timeo_restore (sa_handler oact) (-1) g' k4 t' HS) as (k' & a & old' & ->) end.
    eexists _, k', a, old'. split; [by rewrite <- !app_assoc|done].
Qed.
End TimeoTraced.

(** A system whose state is the handler of SIGALRM and where connect is always
    interrupted. *)
Definition alarm_kernel : Kernel nat := {|
  kcall X e :=
    match e in sysE X return nat -> res X * nat with
    | Esigaction _ act => fun k => (Ok (Sigaction (Z.of_nat k) [] 0), Z.to_nat (sa_handler act))
    | Eclose _ => fun k => (Ok tt, k)
    | Econnect _ _ _ => fun k => (Err EINTR, k)
    | _ => fun k => (Err ENOSYS, k)
    end;
  klib X e k := ((@klib unit (failing_kernel ENOSYS) X e tt).1, k) |}.

Lemma connect_timeo_cleans_up_witness :
  exists g' k' a old',
    @run _ (@traced _ alarm_kernel) _ (connect_timeo 3 (SaOther 0 []) 16 5) globals0 (7%nat, []) =
      (Done (-1), g',
       (k', [EvSys (Esigaction SIGALRM (Sigaction connect_alarm [] 0)) (Ok (Sigaction 7 [] 0));
             EvLib (Ealarm 5) 0; EvSys (Econnect 3 (SaOther 0 []) 16) (Err EINTR);
             EvSys (Eclose 3) (Ok tt); EvLib (Ealarm 0) a;
             EvSys (Esigaction SIGALRM (Sigaction 7 [] 0)) (Ok old')])) /\
    errno g' = ETIMEDOUT.
Proof.
  refine (@connect_timeo_cleans_up nat alarm_kernel 3 (SaOther 0 []) 16 5 globals0 7%nat 1000%nat
    1000%nat 1000%nat [] (Sigaction 7 [] 0) (Err EINTR) _ _ _ _ _); try reflexivity.
  - intros k signo act. eexists _, _. split; [done|]. simpl. lia.
  - intros k fd. by eexists.
Defined.
