(* ===== verification/Mcast.v ===== *)
(** * Multicast: lib/mcast_*.c

    The protocol-independent multicast functions.  [McastConfig] says which
    of the two APIs the headers offer, so that both sides of every #ifdef are
    modelled.  An interface is given by index, by name or not at all; the IPv4
    API wants its address, found with SIOCGIFADDR. *)
From stdpp Require Import base list numbers strings gmap.
From S2P Require Import Prelude InetAddr Sys Error Wrap SockAddr.

Class McastConfig := {
  have_MCAST_JOIN_GROUP : bool;      (* MCAST_JOIN_GROUP, MCAST_*_SOURCE... *)
  have_IP_SOURCE : bool              (* IP_ADD_SOURCE_MEMBERSHIP, IP_BLOCK_SOURCE, ... *) }.

Definition SIOCGIFADDR : Z := 0xc0206921.
Definition IP_MULTICAST_IF : Z := 9.
Definition IP_MULTICAST_TTL : Z := 10.
Definition IP_MULTICAST_LOOP : Z := 11.
Definition IP_ADD_MEMBERSHIP : Z := 12.
Definition IP_DROP_MEMBERSHIP : Z := 13.
Definition IP_ADD_SOURCE_MEMBERSHIP : Z := 70.
Definition IP_DROP_SOURCE_MEMBERSHIP : Z := 71.
Definition IP_BLOCK_SOURCE : Z := 72.
Definition IP_UNBLOCK_SOURCE : Z := 73.
Definition MCAST_JOIN_GROUP : Z := 80.
Definition MCAST_LEAVE_GROUP : Z := 81.
Definition MCAST_JOIN_SOURCE_GROUP : Z := 82.
Definition MCAST_LEAVE_SOURCE_GROUP : Z := 83.
Definition MCAST_BLOCK_SOURCE : Z := 84.
Definition MCAST_UNBLOCK_SOURCE : Z := 85.
Definition IPV6_MULTICAST_IF : Z := 9.
Definition IPV6_MULTICAST_HOPS : Z := 10.
Definition IPV6_MULTICAST_LOOP : Z := 11.
Definition IPV6_JOIN_GROUP : Z := 12.
Definition IPV6_LEAVE_GROUP : Z := 13.
Definition IFNAMSIZ : Z := 16.
Definition sizeof_sockaddr_storage : Z := 128.

(** return(setsockopt(...)) *)
Definition setsockopt_ret (fd level optname : Z) (v : optval) : prog Z :=
  r ← call (Esetsockopt fd level optname v);
  match r with Ok _ => Ret 0 | Err _ => Ret (-1) end.

(** errno = e; return(-1); *)
Definition fail_with (e : Z) : prog Z := _ ← put_errno e; Ret (-1).

(** doioctl: the IPv4 address of a named interface, [inl] the return of -1. *)
Definition doioctl (sockfd : Z) (ifr_name : list Z) : prog (Z + list Z) :=
  r ← call (Eioctl sockfd SIOCGIFADDR (IoIfreq ifr_name (SaOther 0 [])));
  match r with
  | Err _ => Ret (inl (-1))
  | Ok (_, IoIfreq _ (SaIn sin)) => Ret (inr (sin_addr sin))
  | Ok _ => fault
  end.

(** The IPv4 interface address for (ifname, ifindex). *)
Definition in_interface (sockfd : Z) (ifname : option (list Z)) (ifindex : Z) : prog (Z + list Z) :=
  if 0 <? ifindex then
    nm ← lib (Eif_indextoname ifindex);
    match nm with
    | None => rc ← fail_with ENXIO; Ret (inl rc)
    | Some ifr_name => doioctl sockfd ifr_name
    end
  else
    match ifname with
    | Some nm => doioctl sockfd (take (Z.to_nat IFNAMSIZ) nm)   (* strncpy *)
    | None => Ret (inr in4addr_any)
    end.

(** The interface index for (ifname, ifindex), 0 when none is given. *)
Definition if_index (ifname : option (list Z)) (ifindex : Z) : prog (Z + Z) :=
  if 0 <? ifindex then Ret (inr ifindex)
  else
    match ifname with
    | Some nm =>
        idx ← lib (Eif_nametoindex nm);
        if idx =? 0 then rc ← fail_with ENXIO; Ret (inl rc) else Ret (inr idx)
    | None => Ret (inr 0)
    end.

Definition or_return {A} (r : Z + A) (k : A -> prog Z) : prog Z :=
  match r with inl rc => Ret rc | inr a => k a end.

(** ** mcast_join.c *)

Definition mcast_join `{McastConfig} (sockfd : Z) (grp : sockaddr) (grplen : Z)
    (ifname : option (list Z)) (ifindex : Z) : prog Z :=
  if have_MCAST_JOIN_GROUP then
    i ← if_index ifname ifindex;
    or_return i (fun gr_interface =>
      if sizeof_sockaddr_storage <? grplen then fail_with EINVAL
      else setsockopt_ret sockfd (family_to_level (sa_family grp)) MCAST_JOIN_GROUP
             (OGroupReq gr_interface grp))
  else
    match grp with
    | SaIn sin =>
        i ← in_interface sockfd ifname ifindex;
        or_return i (fun imr_interface =>
          setsockopt_ret sockfd IPPROTO_IP IP_ADD_MEMBERSHIP (OMreq (sin_addr sin) imr_interface))
    | SaIn6 sin6 =>
        i ← if_index ifname ifindex;
        or_return i (fun ipv6mr_interface =>
          setsockopt_ret sockfd IPPROTO_IPV6 IPV6_JOIN_GROUP (OMreq6 (sin6_addr sin6) ipv6mr_interface))
    | _ => fail_with EAFNOSUPPORT
    end.
Definition Mcast_join `{McastConfig} (sockfd : Z) (grp : sockaddr) (grplen : Z)
    (ifname : option (list Z)) (ifindex : Z) : prog unit :=
  n ← mcast_join sockfd grp grplen ifname ifindex;
  if n <? 0 then err_sys (str "mcast_join error") else Ret tt.

(** The group_source_req calls: level of the group's family, both lengths
    checked. *)
Definition source_req (sockfd opt iface : Z) (src : sockaddr) (srclen : Z) (grp : sockaddr)
    (grplen : Z) : prog Z :=
  if (sizeof_sockaddr_storage <? grplen) || (sizeof_sockaddr_storage <? srclen)
  then fail_with EINVAL
  else setsockopt_ret sockfd (family_to_level (sa_family grp)) opt (OGroupSourceReq iface grp src).

(** The source address, cast to sockaddr_in without looking at its family. *)
Definition cast_in_addr (sa : sockaddr) : option (list Z) :=
  match sa with SaIn s => Some (sin_addr s) | _ => None end.

(** The ip_mreq_source calls of the older API. *)
Definition mreq_source (sockfd opt : Z) (src : sockaddr) (sin : sockaddr_in) (iface : list Z)
  : prog Z :=
  s ← mem (cast_in_addr src);
  setsockopt_ret sockfd IPPROTO_IP opt (OMreqSource (sin_addr sin) s iface).

Definition mcast_join_source_group `{McastConfig} (sockfd : Z) (src : sockaddr) (srclen : Z)
    (grp : sockaddr) (grplen : Z) (ifname : option (list Z)) (ifindex : Z) : prog Z :=
  if have_MCAST_JOIN_GROUP then
    i ← if_index ifname ifindex;
    or_return i (fun gsr_interface =>
      source_req sockfd MCAST_JOIN_SOURCE_GROUP gsr_interface src srclen grp grplen)
  else
    match grp with
    | SaIn sin =>
        if have_IP_SOURCE then
          i ← in_interface sockfd ifname ifindex;
          or_return i (fun imr_interface =>
            mreq_source sockfd IP_ADD_SOURCE_MEMBERSHIP src sin imr_interface)
        else fail_with EAFNOSUPPORT
    | _ => fail_with EAFNOSUPPORT
    end.
Definition Mcast_join_source_group `{McastConfig} (sockfd : Z) (src : sockaddr) (srclen : Z)
    (grp : sockaddr) (grplen : Z) (ifname : option (list Z)) (ifindex : Z) : prog unit :=
  n ← mcast_join_source_group sockfd src srclen grp grplen ifname ifindex;
  if n <? 0 then err_sys (str "mcast_join_source_group error") else Ret tt.

(** The three calls without an interface share their shape. *)
Definition source_call `{McastConfig} (newopt oldopt sockfd : Z) (src : sockaddr) (srclen : Z)
    (grp : sockaddr) (grplen : Z) : prog Z :=
  if have_MCAST_JOIN_GROUP then source_req sockfd newopt 0 src srclen grp grplen
  else
    match grp with
    | SaIn sin =>
        if have_IP_SOURCE then mreq_source sockfd oldopt src sin in4addr_any
        else fail_with EAFNOSUPPORT
    | _ => fail_with EAFNOSUPPORT
    end.

Definition mcast_block_source `{McastConfig} (sockfd : Z) (src : sockaddr) (srclen : Z)
    (grp : sockaddr) (grplen : Z) : prog Z :=
  source_call MCAST_BLOCK_SOURCE IP_BLOCK_SOURCE sockfd src srclen grp grplen.
Definition Mcast_block_source `{McastConfig} (sockfd : Z) (src : sockaddr) (srclen : Z)
    (grp : sockaddr) (grplen : Z) : prog unit :=
  n ← mcast_block_source sockfd src srclen grp grplen;
  if n <? 0 then err_sys (str "mcast_block_source error") else Ret tt.

Definition mcast_unblock_source `{McastConfig} (sockfd : Z) (src : sockaddr) (srclen : Z)
    (grp : sockaddr) (grplen : Z) : prog Z :=
  source_call MCAST_UNBLOCK_SOURCE IP_UNBLOCK_SOURCE sockfd src srclen grp grplen.
Definition Mcast_unblock_source `{McastConfig} (sockfd : Z) (src : sockaddr) (srclen : Z)
    (grp : sockaddr) (grplen : Z) : prog unit :=
  n ← mcast_unblock_source sockfd src srclen grp grplen;
  if n <? 0 then err_sys (str "mcast_unblock_source error") else Ret tt.

(** ** mcast_leave.c *)

Definition mcast_leave `{McastConfig} (sockfd : Z) (grp : sockaddr) (grplen : Z) : prog Z :=
  if have_MCAST_JOIN_GROUP then
    if sizeof_sockaddr_storage <? grplen then fail_with EINVAL
    else setsockopt_ret sockfd (family_to_level (sa_family grp)) MCAST_LEAVE_GROUP (OGroupReq 0 grp)
  else
    match grp with
    | SaIn sin =>
        setsockopt_ret sockfd IPPROTO_IP IP_DROP_MEMBERSHIP (OMreq (sin_addr sin) in4addr_any)
    | SaIn6 sin6 =>
        setsockopt_ret sockfd IPPROTO_IPV6 IPV6_LEAVE_GROUP (OMreq6 (sin6_addr sin6) 0)
    | _ => fail_with EAFNOSUPPORT
    end.
Definition Mcast_leave `{McastConfig} (sockfd : Z) (grp : sockaddr) (grplen : Z) : prog unit :=
  n ← mcast_leave sockfd grp grplen;
  if n <? 0 then err_sys (str "mcast_leave error") else Ret tt.

Definition mcast_leave_source_group `{McastConfig} (sockfd : Z) (src : sockaddr) (srclen : Z)
    (grp : sockaddr) (grplen : Z) : prog Z :=
  source_call MCAST_LEAVE_SOURCE_GROUP IP_DROP_SOURCE_MEMBERSHIP sockfd src srclen grp grplen.
Definition Mcast_leave_source_group `{McastConfig} (sockfd : Z) (src : sockaddr) (srclen : Z)
    (grp : sockaddr) (grplen : Z) : prog unit :=
  n ← mcast_leave_source_group sockfd src srclen grp grplen;
  if n <? 0 then err_sys (str "mcast_leave_source_group error") else Ret tt.

(** ** mcast_set_*.c and mcast_get_*.c: by the family of the socket *)

Definition mcast_set_if (sockfd : Z) (ifname : option (list Z)) (ifindex : Z) : prog Z :=
  family ← sockfd_to_family sockfd;
  if family =? AF_INET then
    i ← in_interface sockfd ifname ifindex;
    or_return i (fun inaddr =>
      setsockopt_ret sockfd IPPROTO_IP IP_MULTICAST_IF (OInAddr inaddr))
  else if family =? AF_INET6 then
    if ifindex =? 0 then
      match ifname with
      | None => fail_with EINVAL
      | Some nm =>
          idx ← lib (Eif_nametoindex nm);
          if idx =? 0 then fail_with ENXIO
          else setsockopt_ret sockfd IPPROTO_IPV6 IPV6_MULTICAST_IF (OInt idx)
      end
    else setsockopt_ret sockfd IPPROTO_IPV6 IPV6_MULTICAST_IF (OInt ifindex)
  else fail_with EAFNOSUPPORT.
Definition Mcast_set_if (sockfd : Z) (ifname : option (list Z)) (ifindex : Z) : prog unit :=
  n ← mcast_set_if sockfd ifname ifindex;
  if n <? 0 then err_sys (str "mcast_set_if error") else Ret tt.

Definition mcast_set_loop (sockfd onoff : Z) : prog Z :=
  family ← sockfd_to_family sockfd;
  if family =? AF_INET then
    setsockopt_ret sockfd IPPROTO_IP IP_MULTICAST_LOOP (OChar (u8 onoff))
  else if family =? AF_INET6 then
    setsockopt_ret sockfd IPPROTO_IPV6 IPV6_MULTICAST_LOOP (OInt (u32 onoff))
  else fail_with EAFNOSUPPORT.
Definition Mcast_set_loop (sockfd onoff : Z) : prog unit :=
  n ← mcast_set_loop sockfd onoff;
  if n <? 0 then err_sys (str "mcast_set_loop error") else Ret tt.

Definition mcast_set_ttl (sockfd val : Z) : prog Z :=
  family ← sockfd_to_family sockfd;
  if family =? AF_INET then
    setsockopt_ret sockfd IPPROTO_IP IP_MULTICAST_TTL (OChar (u8 val))
  else if family =? AF_INET6 then
    setsockopt_ret sockfd IPPROTO_IPV6 IPV6_MULTICAST_HOPS (OInt val)
  else fail_with EAFNOSUPPORT.
Definition Mcast_set_ttl (sockfd val : Z) : prog unit :=
  n ← mcast_set_ttl sockfd val;
  if n <? 0 then err_sys (str "mcast_set_ttl error") else Ret tt.

(** getsockopt of a u_char or an int, returned as an int. *)
Definition getsockopt_int (sockfd level optname : Z) : prog Z :=
  r ← call (Egetsockopt sockfd level optname);
  match r with
  | Err _ => Ret (-1)
  | Ok (OInt n) => Ret (s32 n)
  | Ok (OChar n) => Ret n
  | Ok _ => fault
  end.

Definition mcast_get_if (sockfd : Z) : prog Z :=
  family ← sockfd_to_family sockfd;
  if family =? AF_INET then Ret (-1)
  else if family =? AF_INET6 then getsockopt_int sockfd IPPROTO_IPV6 IPV6_MULTICAST_IF
  else fail_with EAFNOSUPPORT.
Definition Mcast_get_if (sockfd : Z) : prog Z :=
  rc ← mcast_get_if sockfd;
  if rc <? 0 then err_sys (str "mcast_get_if error") else Ret rc.

Definition mcast_get_loop (sockfd : Z) : prog Z :=
  family ← sockfd_to_family sockfd;
  if family =? AF_INET then getsockopt_int sockfd IPPROTO_IP IP_MULTICAST_LOOP
  else if family =? AF_INET6 then getsockopt_int sockfd IPPROTO_IPV6 IPV6_MULTICAST_LOOP
  else fail_with EAFNOSUPPORT.
Definition Mcast_get_loop (sockfd : Z) : prog Z :=
  rc ← mcast_get_loop sockfd;
  if rc <? 0 then err_sys (str "mcast_get_loop error") else Ret rc.

Definition mcast_get_ttl (sockfd : Z) : prog Z :=
  family ← sockfd_to_family sockfd;
  if family =? AF_INET then getsockopt_int sockfd IPPROTO_IP IP_MULTICAST_TTL
  else if family =? AF_INET6 then getsockopt_int sockfd IPPROTO_IPV6 IPV6_MULTICAST_HOPS
  else fail_with EAFNOSUPPORT.
Definition Mcast_get_ttl (sockfd : Z) : prog Z :=
  rc ← mcast_get_ttl sockfd;
  if rc <? 0 then err_sys (str "mcast_get_ttl error") else Ret rc.

(** ** Socket options as the kernel keeps them *)

Class OptionKernel (K : Type) `{!Kernel K} := {
  (** the family of an open socket, [None] for a bad descriptor *)
  fd_family : K -> Z -> option Z;
  (** the value of an option (descriptor, level, name) *)
  option_of : K -> Z -> Z -> Z -> optval;
  getsockname_contract : forall k fd,
    match kcall (Egetsockname fd) k with
    | (Ok (sa, _), k') => fd_family k fd = Some (sa_family sa) /\ k' = k
    | (Err _, k') => fd_family k fd = None /\ k' = k
    end;
  setsockopt_contract : forall k fd l o v,
    match kcall (Esetsockopt fd l o v) k with
    | (Ok _, k') => (forall fd', fd_family k' fd' = fd_family k fd') /\ option_of k' fd l o = v
    | (Err _, _) => True
    end;
  getsockopt_contract : forall k fd l o f,
    fd_family k fd = Some f -> exists k', kcall (Egetsockopt fd l o) k = (Ok (option_of k fd l o), k') }.

(** Decide the comparisons of address families. *)
Ltac family_cases :=
  change (AF_INET =? AF_INET) with true; change (AF_INET6 =? AF_INET) with false;
  change (AF_INET6 =? AF_INET6) with true; cbn iota.

Section Options.
Context {K : Type} `{HK : !Kernel K} `{HO : !OptionKernel K}.
Implicit Types (k : K) (g : globals).

Lemma run_sockfd_to_family fd g k f :
  fd_family k fd = Some f -> run (sockfd_to_family fd) g k = (Done f, g, k).
Proof.
  intros Hf. unfold sockfd_to_family. runs. pose proof (getsockname_contract k fd) as H.
  destruct (kcall (Egetsockname fd) k) as [[[sa len]|e] k1].
  - destruct H as [H ->]. rewrite Hf in H. by injection H as ->.
  - destruct H as [H _]. congruence.
Qed.

(** A set function that succeeded has stored its value. *)
Lemma setsockopt_ret_stored fd l o v g k g1 k1 :
  run (setsockopt_ret fd l o v) g k = (Done 0, g1, k1) ->
  (forall fd', fd_family k1 fd' = fd_family k fd') /\ option_of k1 fd l o = v.
Proof.
  unfold setsockopt_ret. runs. pose proof (setsockopt_contract k fd l o v) as H.
  destruct (kcall (Esetsockopt fd l o v) k) as [[u|e] k2]; runs; [|done].
  by intros [= _ <-].
Qed.

(** A get function reads what is stored. *)
Lemma run_getsockopt_int fd l o g k f :
  fd_family k fd = Some f ->
  match option_of k fd l o with
  | OInt n => exists k', run (getsockopt_int fd l o) g k = (Done (s32 n), g, k')
  | OChar n => exists k', run (getsockopt_int fd l o) g k = (Done n, g, k')
  | _ => True
  end.
Proof.
  intros Hf. unfold getsockopt_int. destruct (getsockopt_contract k fd l o f Hf) as [k' E].
  destruct (option_of k fd l o); try done; exists k'; runs; by rewrite E.
Qed.

(** What mcast_set_ttl and mcast_set_loop stored, mcast_get_ttl and
    mcast_get_loop read back, on IPv4 and IPv6 sockets alike; but on an IPv4
    socket only the low byte of the value is stored, so a TTL of 256 is a TTL
    of 0. *)
Theorem mcast_get_after_set fd v f g k :
  fd_family k fd = Some f -> f = AF_INET \/ f = AF_INET6 -> - 2 ^ 31 <= v < 2 ^ 31 ->
  let stored := if f =? AF_INET then u8 v else v in
  (forall g1 k1, run (mcast_set_ttl fd v) g k = (Done 0, g1, k1) ->
     exists k2, run (mcast_get_ttl fd) g1 k1 = (Done stored, g1, k2)) /\
  (forall g1 k1, run (mcast_set_loop fd v) g k = (Done 0, g1, k1) ->
     exists k2, run (mcast_get_loop fd) g1 k1 = (Done stored, g1, k2)).
Proof.
  intros Hf Hfam Hv stored.
  assert (s32 (u32 v) = v /\ s32 v = v) as [Hs1 Hs2].
  { unfold s32, sint, u32, wrap. rewrite Z.mod_mod by done.
    pose proof (Z.mod_pos_bound v (2 ^ 32) ltac:(lia)). pose proof (Z.div_mod v (2 ^ 32) ltac:(lia)).
    change (32 - 1) with 31.
    destruct (Z.ltb_spec (v mod 2 ^ 32) (2 ^ 31)); lia. }
  destruct Hfam as [->| ->]; (split; intros g1 k1;
    unfold mcast_set_ttl, mcast_get_ttl, mcast_set_loop, mcast_get_loop;
    rewrite run_bind, (run_sockfd_to_family _ _ _ _ Hf); cbn beta iota; family_cases; intros E;
    apply setsockopt_ret_stored in E as [Hfam' Hst]; rewrite <- (Hfam' fd) in Hf;
    rewrite run_bind, (run_sockfd_to_family _ _ _ _ Hf); cbn beta iota; family_cases;
    match goal with |- context [getsockopt_int fd ?l ?o] =>
      pose proof (run_getsockopt_int fd l o g1 k1 _ Hf) as HG end;
    rewrite Hst, ?Hs1, ?Hs2 in HG; exact HG).
Qed.
End Options.

(** A failing getsockname is misreported: the mcast_set_* and mcast_get_*
    functions switch on the value of sockfd_to_family, so its -1 falls into the
    default branch and the errno of getsockname (EBADF, ENOTSOCK, ...) is
    replaced by EAFNOSUPPORT. *)
Theorem mcast_masks_errno {K} `{HK : !Kernel K} fd v ifn ifi g (k k' : K) e :
  kcall (Egetsockname fd) k = (Err e, k') ->
  run (mcast_set_ttl fd v) g k = (Done (-1), set_errno EAFNOSUPPORT g, k') /\
  run (mcast_get_ttl fd) g k = (Done (-1), set_errno EAFNOSUPPORT g, k') /\
  run (mcast_set_loop fd v) g k = (Done (-1), set_errno EAFNOSUPPORT g, k') /\
  run (mcast_get_loop fd) g k = (Done (-1), set_errno EAFNOSUPPORT g, k') /\
  run (mcast_set_if fd ifn ifi) g k = (Done (-1), set_errno EAFNOSUPPORT g, k') /\
  run (mcast_get_if fd) g k = (Done (-1), set_errno EAFNOSUPPORT g, k').
Proof.
  intros E.
  assert (run (sockfd_to_family fd) g k = (Done (-1), set_errno e g, k')) as H.
  { unfold sockfd_to_family. runs. by rewrite E. }
  split_and!; unfold mcast_set_ttl, mcast_get_ttl, mcast_set_loop, mcast_get_loop, mcast_set_if,
    mcast_get_if, fail_with; rewrite run_bind, H; by runs.
Qed.

Lemma mcast_masks_errno_witness :
  let g := globals0 in
  @run _ (failing_kernel EBADF) _ (mcast_set_ttl 9 1) g tt = (Done (-1), set_errno EAFNOSUPPORT g, tt) /\
  @run _ (failing_kernel EBADF) _ (mcast_get_ttl 9) g tt = (Done (-1), set_errno EAFNOSUPPORT g, tt) /\
  @run _ (failing_kernel EBADF) _ (mcast_set_loop 9 1) g tt = (Done (-1), set_errno EAFNOSUPPORT g, tt) /\
  @run _ (failing_kernel EBADF) _ (mcast_get_loop 9) g tt = (Done (-1), set_errno EAFNOSUPPORT g, tt) /\
  @run _ (failing_kernel EBADF) _ (mcast_set_if 9 None 0) g tt = (Done (-1), set_errno EAFNOSUPPORT g, tt) /\
  @run _ (failing_kernel EBADF) _ (mcast_get_if 9) g tt = (Done (-1), set_errno EAFNOSUPPORT g, tt).
Proof.
  exact (@mcast_masks_errno unit (failing_kernel EBADF) 9 1 None 0 globals0 tt tt EBADF eq_refl).
Defined.

(** An IPv4 socket, descriptor 3, with its options. *)
Abbreviation opts := (gmap (Z * Z) optval).
#[export] Instance opt_kernel : Kernel opts := {|
  kcall X e :=
    match e in sysE X return opts -> res X * opts with
    | Egetsockname fd => fun k =>
        (if fd =? 3 then Ok (SaIn (SockaddrIn 0 [0; 0; 0; 0]), 16) else Err EBADF, k)
    | Esetsockopt fd l o v => fun k => if fd =? 3 then (Ok tt, <[(l, o) := v]> k) else (Err EBADF, k)
    | Egetsockopt fd l o => fun k => if fd =? 3 then (Ok (default (OInt 0) (k !! (l, o))), k) else (Err EBADF, k)
    | _ => fun k => (Err ENOSYS, k)
    end;
  klib X e k := ((@klib unit (failing_kernel ENOSYS) X e tt).1, k) |}.

#[export] Instance opt_options : OptionKernel opts.
Proof.
  refine {| fd_family _ fd := if fd =? 3 then Some AF_INET else None;
            option_of k fd l o := default (OInt 0) (k !! (l, o)) |}.
  - intros k fd. cbn. by destruct (fd =? 3).
  - intros k fd l o v. cbn [kcall opt_kernel]. destruct (fd =? 3); [|done]. split; [done|].
    by rewrite lookup_insert_eq.
  - intros k fd l o f. cbn. destruct (fd =? 3); [|done]. eauto.
Defined.

Lemma mcast_get_after_set_witness :
  (forall g1 k1, run (mcast_set_ttl 3 256) globals0 (∅ : opts) = (Done 0, g1, k1) ->
     exists k2, run (mcast_get_ttl 3) g1 k1 = (Done 0, g1, k2)) /\
  (forall g1 k1, run (mcast_set_loop 3 256) globals0 (∅ : opts) = (Done 0, g1, k1) ->
     exists k2, run (mcast_get_loop 3) g1 k1 = (Done 0, g1, k2)).
Proof.
  refine (mcast_get_after_set 3 256 AF_INET globals0 (∅ : opts) _ _ _); [done|by left|lia].
Defined.
