(* ===== verification/Nonblock.v ===== *)
(** * The nonblocking client: unpv13e/nonblock/strclinonb.c and
      socket/select_client_unlock.c

    Two versions of one state machine: a buffer [to] from standard input to the
    socket and a buffer [fr] from the socket to standard output, each with an
    input and an output pointer.  The loop body is written once, over the
    things in which the sources differ ([style]): how select, shutdown, a fatal
    error and a progress message are done, and what the messages call the socket. *)
From stdpp Require Import base list numbers strings gmap.
From S2P Require Import Prelude InetAddr Sys Error Wrap StreamIO StreamProofs Connect.

Definition SHUT_WR : Z := 1.
Definition STDIN_FILENO : Z := 0.
Definition STDOUT_FILENO : Z := 1.

(** The locals of the loop; pointers are offsets. *)
Record nonb := Nonb {
  n_to : list Z; toiptr : Z; tooptr : Z;
  n_fr : list Z; friptr : Z; froptr : Z;
  stdineof : bool }.

Record style := Style {
  st_size : Z;                                                  (* MAXLINE *)
  st_select : Z -> fd_set -> fd_set -> prog (fd_set * fd_set);
  st_shutdown : Z -> prog unit;                                 (* shutdown(fd, SHUT_WR) *)
  st_die : list Z -> prog nonb;
  st_quit : list Z -> prog nonb;
  st_name : list Z;                                             (* the socket in messages *)
  st_log : list Z -> prog unit }.

Section Loop.
Context (s : style) (sockfd : Z).

(** if (b) FD_SET(fd, &set); *)
Definition fd_add (b : bool) (fd : Z) (set : fd_set) : option fd_set :=
  if b then FD_SET fd set else Some set.

(** The sets passed to select. *)
Definition nonb_rset (st : nonb) : option fd_set :=
  r ← fd_add (negb (stdineof st) && (toiptr st <? st_size s)) STDIN_FILENO ∅;
  fd_add (friptr st <? st_size s) sockfd r.
Definition nonb_wset (st : nonb) : option fd_set :=
  w ← fd_add (negb (tooptr st =? toiptr st)) sockfd ∅;
  fd_add (negb (froptr st =? friptr st)) STDOUT_FILENO w.

(** if (errno != EWOULDBLOCK) die(msg); *)
Definition nonb_err (st : nonb) (msg : list Z) : prog nonb :=
  e ← get_errno; if negb (e =? EWOULDBLOCK) then st_die s msg else Ret st.

(** FD_ISSET(STDIN_FILENO, &rset): returns the state and whether the socket is
    added to wset. *)
Definition nonb_stdin (st : nonb) : prog (nonb * bool) :=
  r ← call (Eread STDIN_FILENO (st_size s - toiptr st));
  match r with
  | Err _ => st1 ← nonb_err st (str "read error on stdin"); Ret (st1, false)
  | Ok bs =>
      to1 ← mem (memcpy (n_to st) (toiptr st) bs);
      let n := Z.of_nat (length bs) in
      if n =? 0 then
        _ ← st_log s (str "EOF on stdin");
        _ ← (if tooptr st =? toiptr st then st_shutdown s sockfd else Ret tt);
        Ret (Nonb to1 (toiptr st) (tooptr st) (n_fr st) (friptr st) (froptr st) true, false)
      else
        _ ← st_log s (str "read " ++ fmt_d n ++ str " bytes from stdin");
        Ret (Nonb to1 (toiptr st + n) (tooptr st) (n_fr st) (friptr st) (froptr st) (stdineof st), true)
  end.

(** FD_ISSET(sockfd, &rset): [None] is the normal return of the function. *)
Definition nonb_sock (st : nonb) : prog (option (nonb * bool)) :=
  r ← call (Eread sockfd (st_size s - friptr st));
  match r with
  | Err _ => st1 ← nonb_err st (str "read error on " ++ st_name s); Ret (Some (st1, false))
  | Ok bs =>
      fr1 ← mem (memcpy (n_fr st) (friptr st) bs);
      let n := Z.of_nat (length bs) in
      if n =? 0 then
        _ ← st_log s (str "EOF on socket");
        if stdineof st then Ret None
        else st1 ← st_quit s (str "str_cli: server terminated prematurely"); Ret (Some (st1, false))
      else
        _ ← st_log s (str "read " ++ fmt_d n ++ str " bytes from socket");
        Ret (Some (Nonb (n_to st) (toiptr st) (tooptr st) fr1 (friptr st + n) (froptr st) (stdineof st), true))
  end.

(** FD_ISSET(STDOUT_FILENO, &wset) && ((n = friptr - froptr) > 0) *)
Definition nonb_stdout (st : nonb) : prog nonb :=
  let n := friptr st - froptr st in
  if 0 <? n then
    bs ← mem (asub (n_fr st) (froptr st) n);
    r ← call (Ewrite STDOUT_FILENO bs);
    match r with
    | Err _ => nonb_err st (str "write error to stdout")
    | Ok nwritten =>
        _ ← st_log s (str "wrote " ++ fmt_d nwritten ++ str " bytes to stdout");
        let froptr1 := froptr st + nwritten in
        if froptr1 =? friptr st
        then Ret (Nonb (n_to st) (toiptr st) (tooptr st) (n_fr st) 0 0 (stdineof st))
        else Ret (Nonb (n_to st) (toiptr st) (tooptr st) (n_fr st) (friptr st) froptr1 (stdineof st))
    end
  else Ret st.

(** FD_ISSET(sockfd, &wset) && ((n = toiptr - tooptr) > 0) *)
Definition nonb_sockout (st : nonb) : prog nonb :=
  let n := toiptr st - tooptr st in
  if 0 <? n then
    bs ← mem (asub (n_to st) (tooptr st) n);
    r ← call (Ewrite sockfd bs);
    match r with
    | Err _ => nonb_err st (str "write error to " ++ st_name s)
    | Ok nwritten =>
        _ ← st_log s (str "wrote " ++ fmt_d nwritten ++ str " bytes to " ++ st_name s);
        let tooptr1 := tooptr st + nwritten in
        if tooptr1 =? toiptr st then
          _ ← (if stdineof st then st_shutdown s sockfd else Ret tt);
          Ret (Nonb (n_to st) 0 0 (n_fr st) (friptr st) (froptr st) (stdineof st))
        else Ret (Nonb (n_to st) (toiptr st) tooptr1 (n_fr st) (friptr st) (froptr st) (stdineof st))
    end
  else Ret st.

(** One turn of the loop; [None] when the function returns. *)
Definition nonb_turn (maxfdp1 : Z) (st : nonb) : prog (option nonb) :=
  rset0 ← mem (nonb_rset st);
  wset0 ← mem (nonb_wset st);
  '(rset, wset) ← st_select s maxfdp1 rset0 wset0;
  '(st1, w1) ← (if bool_decide (STDIN_FILENO ∈ rset) then nonb_stdin st else Ret (st, false));
  r ← (if bool_decide (sockfd ∈ rset) then nonb_sock st1 else Ret (Some (st1, false)));
  match r with
  | None => Ret None
  | Some (st2, w2) =>
      st3 ← (if bool_decide (STDOUT_FILENO ∈ wset) || w2 then nonb_stdout st2 else Ret st2);
      st4 ← (if bool_decide (sockfd ∈ wset) || w1 then nonb_sockout st3 else Ret st3);
      Ret (Some st4)
  end.

Fixpoint nonb_loop (fuel : nat) (maxfdp1 : Z) (st : nonb) : prog unit :=
  match fuel with
  | O => Halt Spin
  | S f =>
      r ← nonb_turn maxfdp1 st;
      match r with None => Ret tt | Some st1 => nonb_loop f maxfdp1 st1 end
  end.

Definition nonb_init (to fr : list Z) : nonb := Nonb to 0 0 fr 0 0 false.
End Loop.

(** val = fcntl(fd, F_GETFL, 0); fcntl(fd, F_SETFL, val | O_NONBLOCK); *)
Definition set_nonblock (fd : Z) : prog unit :=
  val ← Fcntl fd F_GETFL 0; _ ← Fcntl fd F_SETFL (Z.lor val O_NONBLOCK); Ret tt.

(** ** strclinonb.c *)
Definition strclinonb : style := {|
  st_size := MAXLINE;
  st_select n r w := '(_, (r1, w1, _)) ← Select n r w ∅ None; Ret (r1, w1);
  st_shutdown fd := Shutdown fd SHUT_WR;
  st_die msg := err_sys msg;
  st_quit msg := err_quit msg;
  st_name := str "socket";
  st_log _ := Ret tt |}.

Definition str_cli_nonb (fuel : nat) (sockfd : Z) (to fr : list Z) : prog unit :=
  _ ← set_nonblock sockfd;
  _ ← set_nonblock STDIN_FILENO;
  _ ← set_nonblock STDOUT_FILENO;
  nonb_loop strclinonb sockfd fuel (Z.max (Z.max STDIN_FILENO STDOUT_FILENO) sockfd + 1)
    (nonb_init to fr).

(** ** select_client_unlock.c: calls unchecked, progress printed, exit(-1) *)
Definition own_exit {A} (msg : list Z) : prog A :=
  _ ← call_ (Efputs (msg ++ [10]) stdout); Halt (Exit (-1)).

Definition own_select (n : Z) (r w : fd_set) : prog (fd_set * fd_set) :=
  x ← call (Eselect n r w ∅ None);
  let '(nready, sets) := match x with Ok (n, (r1, w1, _)) => (n, (r1, w1)) | Err _ => (-1, (r, w)) end in
  _ ← call_ (Efputs (str "nready = " ++ fmt_d nready ++ [10]) stdout);
  Ret sets.

Definition unlock_style : style := {|
  st_size := 1024;
  st_select := own_select;
  st_shutdown fd := call_ (Eshutdown fd SHUT_WR);
  st_die msg := own_exit msg;
  st_quit msg := own_exit msg;
  st_name := str "sockfd";
  st_log msg := call_ (Efputs (msg ++ [10]) stderr) |}.

(** A failed fcntl(F_GETFL) gives -1, whose bits are all set. *)
Definition own_nonblock (fd : Z) : prog unit :=
  r ← call (Efcntl fd F_GETFL 0);
  let val := match r with Ok v => v | Err _ => -1 end in
  call_ (Efcntl fd F_SETFL (Z.lor val O_NONBLOCK)).

Definition unlock_str_cli (fuel : nat) (sockfd : Z) (to fr : list Z) : prog unit :=
  _ ← own_nonblock sockfd;
  _ ← own_nonblock STDOUT_FILENO;
  _ ← own_nonblock STDIN_FILENO;
  nonb_loop unlock_style sockfd fuel (Z.max (Z.max STDIN_FILENO STDOUT_FILENO) sockfd + 1)
    (nonb_init to fr).
