(* ===== verification/NonblockProofs.v ===== *)
(** * The nonblocking client copies both ways without loss

    Over any system that keeps the contract of nonblocking reads and writes
    ([PipeKernel]), after any number of turns of the loop: the bytes written to
    the socket, the bytes in [to], and the bytes not yet read from standard
    input are together what standard input held, in order; the same from the
    socket to standard output through [fr]; and no access is outside a
    buffer. *)
From stdpp Require Import base list numbers strings gmap.
From S2P Require Import Prelude InetAddr Sys Error Wrap StreamIO StreamProofs Connect Nonblock.

(** The calls that move no data. *)
Definition io_neutral {X} (e : sysE X) : bool :=
  match e with
  | Eread _ _ | Ewrite _ _ | Erecvfrom _ _ _ | Erecvmsg _ _ _ | Esendto _ _ _ _ _ | Esendmsg _ _ _
  | Efgets _ _ => false
  | Efputs _ fp => fp =? stderr
  | _ => true
  end.

Class PipeKernel (K : Type) `{!Kernel K} := {
  (** what can still be read from a descriptor, and what was written to it *)
  src : K -> Z -> list Z;
  dst : K -> Z -> list Z;
  pipe_read : forall k fd n, 0 < n ->
    match kcall (Eread fd n) k with
    | (Ok bs, k') =>
        src k fd = bs ++ src k' fd /\ Z.of_nat (length bs) <= n /\ (bs = [] -> src k fd = []) /\
        (forall fd', fd' <> fd -> src k' fd' = src k fd') /\ (forall fd', dst k' fd' = dst k fd')
    | (Err _, k') => forall fd', src k' fd' = src k fd' /\ dst k' fd' = dst k fd'
    end;
  pipe_write : forall k fd bs, bs <> [] ->
    match kcall (Ewrite fd bs) k with
    | (Ok n, k') =>
        0 <= n <= Z.of_nat (length bs) /\ dst k' fd = dst k fd ++ take (Z.to_nat n) bs /\
        (forall fd', fd' <> fd -> dst k' fd' = dst k fd') /\ (forall fd', src k' fd' = src k fd')
    | (Err _, k') => forall fd', src k' fd' = src k fd' /\ dst k' fd' = dst k fd'
    end;
  pipe_select : forall k n r w x tv m r' w' x' k',
    kcall (Eselect n r w x tv) k = (Ok (m, (r', w', x')), k') -> r' ⊆ r /\ w' ⊆ w;
  pipe_other : forall X (e : sysE X) k, io_neutral e = true ->
    forall fd, src (kcall e k).2 fd = src k fd /\ dst (kcall e k).2 fd = dst k fd;
  pipe_lib : forall X (e : libE X) k fd, src (klib e k).2 fd = src k fd /\ dst (klib e k).2 fd = dst k fd }.

Section Pipe.
Context {K : Type} `{HK : !Kernel K} `{HP : !PipeKernel K}.
Context (sockfd : Z) (Hfd : 2 <= sockfd < FD_SETSIZE).
Implicit Types (k : K) (g : globals) (st : nonb).

(** What is observed of the system. *)
Definition view k := (src k STDIN_FILENO, dst k STDOUT_FILENO, src k sockfd, dst k sockfd).

Lemma view_eq k k' :
  (forall fd, src k' fd = src k fd /\ dst k' fd = dst k fd) -> view k' = view k.
Proof. intros H. unfold view. by rewrite !(proj1 (H _)), !(proj2 (H _)). Qed.

Lemma view_quiet : quiet view.
Proof.
  split; intros; apply view_eq; intros; [by apply pipe_other..|apply pipe_lib].
Qed.

(** The buffers: sizes and pointers. *)
Record nonb_ok st : Prop := {
  ok_to : Z.of_nat (length (n_to st)) = MAXLINE;
  ok_fr : Z.of_nat (length (n_fr st)) = MAXLINE;
  ok_top : 0 <= tooptr st <= toiptr st /\ toiptr st <= MAXLINE;
  ok_frp : 0 <= froptr st <= friptr st /\ friptr st <= MAXLINE }.

Definition slice (a : list Z) (o i : Z) : list Z := take (Z.to_nat (i - o)) (drop (Z.to_nat o) a).
Definition pend_to st : list Z := slice (n_to st) (tooptr st) (toiptr st).
Definition pend_fr st : list Z := slice (n_fr st) (froptr st) (friptr st).

(** The two conserved streams: [c1] from standard input, [c2] from the socket. *)
Definition inv (c1 c2 : list Z) k st : Prop :=
  nonb_ok st /\
  dst k sockfd ++ pend_to st ++ src k STDIN_FILENO = c1 /\
  dst k STDOUT_FILENO ++ pend_fr st ++ src k sockfd = c2 /\
  (stdineof st = true -> src k STDIN_FILENO = []).

(** What holds of the system alone, also when the process has ended. *)
Definition conserved (c1 c2 : list Z) k : Prop :=
  exists p q, dst k sockfd ++ p ++ src k STDIN_FILENO = c1 /\
    dst k STDOUT_FILENO ++ q ++ src k sockfd = c2 /\
    Z.of_nat (length p) <= MAXLINE /\ Z.of_nat (length q) <= MAXLINE.

Lemma slice_length a o i : Z.of_nat (length (slice a o i)) <= Z.max 0 (i - o).
Proof. unfold slice. rewrite length_take. lia. Qed.

Lemma inv_conserved c1 c2 k st : inv c1 c2 k st -> conserved c1 c2 k.
Proof.
  intros (Hok & H1 & H2 & _). exists (pend_to st), (pend_fr st). split_and!; [done|done|..].
  - pose proof (slice_length (n_to st) (tooptr st) (toiptr st)). destruct Hok. unfold pend_to. lia.
  - pose proof (slice_length (n_fr st) (froptr st) (friptr st)). destruct Hok. unfold pend_fr. lia.
Qed.

Lemma inv_view c1 c2 k k' st : view k' = view k -> inv c1 c2 k st -> inv c1 c2 k' st.
Proof.
  intros [= E1 E2 E3 E4] (Hok & H1 & H2 & H3). unfold inv. rewrite E1, E2, E3, E4. done.
Qed.
Lemma conserved_view c1 c2 k k' : view k' = view k -> conserved c1 c2 k -> conserved c1 c2 k'.
Proof. intros [= E1 E2 E3 E4] H. unfold conserved. by rewrite E1, E2, E3, E4. Qed.

(** The outcome of a step: an error ends the process with status 1, anything
    else satisfies [P]. *)
Definition post {A} (c1 c2 : list Z) (P : A -> K -> Prop) (x : outcome A * globals * K) : Prop :=
  let '(o, g', k') := x in
  match o with
  | Done a => P a k' /\ daemon_proc g' = 0
  | Halted h => h = Exit 1 /\ conserved c1 c2 k'
  end.

Lemma post_bind {A B} c1 c2 (p : prog A) (f : A -> prog B) (P : A -> K -> Prop) (Q : B -> K -> Prop) g k :
  post c1 c2 P (run p g k) ->
  (forall a g' k', P a k' -> daemon_proc g' = 0 -> post c1 c2 Q (run (f a) g' k')) ->
  post c1 c2 Q (run (p ≫= f) g k).
Proof.
  intros Hp Hf. rewrite run_bind. destruct (run p g k) as [[[a|h] g'] k']; simpl in *; [|done].
  destruct Hp. auto.
Qed.

Lemma post_mono {A} c1 c2 (P Q : A -> K -> Prop) x :
  post c1 c2 P x -> (forall a k, P a k -> Q a k) -> post c1 c2 Q x.
Proof. destruct x as [[[a|h] g'] k']; simpl; [|done]. intros [] HPQ. auto. Qed.

Lemma post_err_sys {A} c1 c2 (P : A -> K -> Prop) msg g k :
  daemon_proc g = 0 -> conserved c1 c2 k -> post c1 c2 P (run (err_sys msg) g k).
Proof.
  intros Hd Hc. destruct (run_err_sys_quiet (A := A) view msg g k view_quiet Hd) as (g' & k' & -> & E).
  split; [done|]. by eapply conserved_view.
Qed.
Lemma post_err_quit {A} c1 c2 (P : A -> K -> Prop) msg g k :
  daemon_proc g = 0 -> conserved c1 c2 k -> post c1 c2 P (run (err_quit msg) g k).
Proof.
  intros Hd Hc. destruct (run_err_quit_quiet (A := A) view msg g k view_quiet Hd) as (g' & k' & -> & E).
  split; [done|]. by eapply conserved_view.
Qed.

(** A checked call that moves no data. *)
Lemma post_checked {X} (e : sysE X) c1 c2 (P : X -> K -> Prop) msg g k :
  io_neutral e = true -> daemon_proc g = 0 -> conserved c1 c2 k ->
  (forall v k', kcall e k = (Ok v, k') -> view k' = view k -> P v k') ->
  post c1 c2 P (run (checked e msg) g k).
Proof.
  intros Hn Hd Hc HP'. unfold checked. rewrite run_bind, run_call.
  pose proof (view_eq k (kcall e k).2 (pipe_other X e k Hn)) as Hv.
  destruct (kcall e k) as [[v|er] k1] eqn:E; cbn beta iota.
  - cbn [run post]. auto.
  - apply post_err_sys; [done|]. by eapply conserved_view.
Qed.

Lemma post_checked_ {X} (e : sysE X) c1 c2 (P : unit -> K -> Prop) msg g k :
  io_neutral e = true -> daemon_proc g = 0 -> conserved c1 c2 k ->
  (forall k', view k' = view k -> P tt k') ->
  post c1 c2 P (run (checked_ e msg) g k).
Proof.
  intros Hn Hd Hc HP'. unfold checked_. rewrite run_bind, run_call.
  pose proof (view_eq k (kcall e k).2 (pipe_other X e k Hn)) as Hv.
  destruct (kcall e k) as [[v|er] k1] eqn:E; cbn beta iota.
  - cbn [run post]. auto.
  - apply post_err_sys; [done|]. by eapply conserved_view.
Qed.

Lemma post_nonb_err c1 c2 st msg g k :
  daemon_proc g = 0 -> inv c1 c2 k st ->
  post c1 c2 (fun st' k' => st' = st /\ inv c1 c2 k' st) (run (nonb_err strclinonb st msg) g k).
Proof.
  intros Hd Hi. unfold nonb_err. runs. destruct (negb (errno g =? EWOULDBLOCK)).
  - apply post_err_sys; [done|]. by eapply inv_conserved.
  - by cbn.
Qed.

(** ** Slices of the buffers *)

Lemma slice_memcpy (a a' bs : list Z) o i :
  memcpy a i bs = Some a' -> 0 <= o <= i ->
  slice a' o (i + Z.of_nat (length bs)) = slice a o i ++ bs.
Proof.
  intros E Ho. unfold memcpy in E. case_match eqn:C; [|done]. injection E as <-.
  apply andb_prop in C as [C1 C2]. rewrite Z.leb_le in C1, C2. unfold slice.
  assert (length (take (Z.to_nat i) a) = Z.to_nat i) as Ht by (rewrite length_take; lia).
  rewrite drop_app_le by lia. rewrite app_assoc, take_app_le.
  2:{ rewrite length_app, length_drop. lia. }
  rewrite take_ge by (rewrite length_app, length_drop; lia). f_equal.
  rewrite skipn_firstn_comm. f_equal. lia.
Qed.

Lemma slice_asub (a : list Z) o i :
  0 <= o <= i -> i <= Z.of_nat (length a) -> asub a o (i - o) = Some (slice a o i).
Proof. intros. unfold asub. zbool. Qed.

Lemma slice_advance (a : list Z) o i m :
  0 <= o -> 0 <= m <= i - o -> slice a o i = take (Z.to_nat m) (slice a o i) ++ slice a (o + m) i.
Proof.
  intros. rewrite <- (take_drop (Z.to_nat m) (slice a o i)) at 1. f_equal.
  unfold slice. rewrite skipn_firstn_comm, drop_drop. f_equal; [lia|f_equal; lia].
Qed.

Lemma slice_nil (a : list Z) o : slice a o o = [].
Proof. unfold slice. by rewrite Z.sub_diag. Qed.

(** ** The four parts of a turn *)

Lemma nonb_stdin_spec c1 c2 st g k :
  daemon_proc g = 0 -> inv c1 c2 k st -> toiptr st < MAXLINE ->
  post c1 c2 (fun r k' => inv c1 c2 k' r.1) (run (nonb_stdin strclinonb sockfd st) g k).
Proof.
  intros Hd Hi Hlt. pose proof Hi as ([Ho1 Ho2 Ho3 Ho4] & H1 & H2 & H3). unfold nonb_stdin.
  rewrite run_bind, run_call. cbn [st_size st_log st_shutdown st_quit strclinonb].
  pose proof (pipe_read k STDIN_FILENO (MAXLINE - toiptr st) ltac:(lia)) as HR.
  destruct (kcall (Eread STDIN_FILENO (MAXLINE - toiptr st)) k) as [[bs|e] k1]; cbn beta iota.
  - destruct HR as (Hs & Hl & Heof & Hsf & Hdf).
    assert (exists to1, memcpy (n_to st) (toiptr st) bs = Some to1) as [to1 Em]
      by (eexists; apply memcpy_is_Some; lia).
    rewrite Em. rewrite run_bind, run_mem. cbn beta iota.
    pose proof (memcpy_Some_length _ _ _ _ Em) as L1.
    destruct (Z.eqb_spec (Z.of_nat (length bs)) 0) as [E0|E0].
    + assert (bs = []) as -> by (destruct bs; [done|simpl in E0; lia]). specialize (Heof eq_refl).
      assert (inv c1 c2 k1 (Nonb to1 (toiptr st) (tooptr st) (n_fr st) (friptr st) (froptr st) true)) as Hi1.
      { rewrite memcpy_nil in Em by lia. injection Em as <-. split; [by constructor|].
        cbn. rewrite !Hdf, (Hsf sockfd) by (unfold STDIN_FILENO; lia).
        rewrite Heof in *. simpl in Hs. rewrite <- Hs. done. }
      rewrite run_bind, run_ret. cbn beta iota.
      apply post_bind with (P := fun _ k' => view k' = view k1).
      * destruct (tooptr st =? toiptr st); [|by cbn].
        apply post_checked_; [done|done|by eapply inv_conserved|done].
      * intros [] g' k' Hv Hd'. cbn [run post]. split; [|done]. by eapply inv_view.
    + rewrite !run_bind, run_ret. cbn [run post]. split; [|done]. cbn [fst]. split.
      { constructor; cbn; [lia|done|lia|done]. }
      cbn. unfold pend_to. cbn. rewrite (slice_memcpy _ _ _ _ _ Em) by lia.
      rewrite !Hdf, (Hsf sockfd) by (unfold STDIN_FILENO; lia). split_and!; [|done|].
      * rewrite <- H1, Hs, <- !app_assoc. done.
      * intros Ht. rewrite H3 in Hs by done. destruct bs; done.
  - assert (view k1 = view k) as Hv by by apply view_eq.
    apply post_bind with (P := fun st' k' => st' = st /\ inv c1 c2 k' st).
    + apply post_nonb_err; [done|]. by eapply inv_view.
    + intros st' g' k' [-> Hi'] Hd'. by cbn.
Qed.

Lemma nonb_sock_spec c1 c2 st g k :
  daemon_proc g = 0 -> inv c1 c2 k st -> friptr st < MAXLINE ->
  post c1 c2 (fun r k' => match r with
                          | Some r => inv c1 c2 k' r.1
                          | None => inv c1 c2 k' st /\ stdineof st = true /\ src k' sockfd = []
                          end)
    (run (nonb_sock strclinonb sockfd st) g k).
Proof.
  intros Hd Hi Hlt. pose proof Hi as ([Ho1 Ho2 Ho3 Ho4] & H1 & H2 & H3). unfold nonb_sock.
  rewrite run_bind, run_call. cbn [st_size st_log st_shutdown st_quit strclinonb].
  pose proof (pipe_read k sockfd (MAXLINE - friptr st) ltac:(lia)) as HR.
  destruct (kcall (Eread sockfd (MAXLINE - friptr st)) k) as [[bs|e] k1]; cbn beta iota.
  - destruct HR as (Hs & Hl & Heof & Hsf & Hdf).
    assert (exists fr1, memcpy (n_fr st) (friptr st) bs = Some fr1) as [fr1 Em]
      by (eexists; apply memcpy_is_Some; lia).
    rewrite Em. rewrite run_bind, run_mem. cbn beta iota.
    pose proof (memcpy_Some_length _ _ _ _ Em) as L1.
    destruct (Z.eqb_spec (Z.of_nat (length bs)) 0) as [E0|E0].
    + assert (bs = []) as -> by (destruct bs; [done|simpl in E0; lia]). specialize (Heof eq_refl).
      assert (inv c1 c2 k1 st) as Hi1.
      { split; [done|]. rewrite !Hdf, (Hsf STDIN_FILENO) by (unfold STDIN_FILENO; lia).
        rewrite Heof in *. simpl in Hs. rewrite <- Hs. done. }
      rewrite run_bind, run_ret. cbn beta iota. destruct (stdineof st) eqn:Est.
      * cbn [run post]. rewrite Heof in Hs. simpl in Hs. done.
      * apply post_bind with (P := fun _ _ => False); [|done].
        apply post_err_quit; [done|]. by eapply inv_conserved.
    + rewrite !run_bind, run_ret. cbn [run post]. split; [|done]. cbn [fst]. split.
      { constructor; cbn; [done|lia|done|lia]. }
      cbn. unfold pend_fr. cbn. rewrite (slice_memcpy _ _ _ _ _ Em) by lia.
      rewrite !Hdf, (Hsf STDIN_FILENO) by (unfold STDIN_FILENO; lia). split_and!; [done| |done].
      rewrite <- H2, Hs, <- !app_assoc. done.
  - assert (view k1 = view k) as Hv by by apply view_eq.
    apply post_bind with (P := fun st' k' => st' = st /\ inv c1 c2 k' st).
    + apply post_nonb_err; [done|]. by eapply inv_view.
    + intros st' g' k' [-> Hi'] Hd'. by cbn.
Qed.

Lemma nonb_stdout_spec c1 c2 st g k :
  daemon_proc g = 0 -> inv c1 c2 k st ->
  post c1 c2 (fun st' k' => inv c1 c2 k' st') (run (nonb_stdout strclinonb st) g k).
Proof.
  intros Hd Hi. pose proof Hi as ([Ho1 Ho2 Ho3 Ho4] & H1 & H2 & H3). unfold nonb_stdout.
  destruct (Z.ltb_spec 0 (friptr st - froptr st)) as [Hn|Hn]; [|by cbn].
  rewrite slice_asub by lia. rewrite run_bind, run_mem. cbn beta iota. rewrite run_bind, run_call.
  fold (pend_fr st).
  assert (Z.of_nat (length (pend_fr st)) = friptr st - froptr st) as Hlen
    by (unfold pend_fr, slice; rewrite length_take, length_drop; lia).
  pose proof (pipe_write k STDOUT_FILENO (pend_fr st)) as HW.
  destruct (kcall (Ewrite STDOUT_FILENO (pend_fr st)) k) as [[w|e] k1]; cbn beta iota;
    specialize (HW ltac:(intros E; rewrite E in Hlen; simpl in Hlen; lia)).
  - destruct HW as (Hw & Hdst & Hdf & Hsf). cbn [st_log strclinonb].
    rewrite run_bind, run_ret. cbn beta iota.
    assert (dst k1 STDOUT_FILENO ++ slice (n_fr st) (froptr st + w) (friptr st) ++ src k1 sockfd = c2) as E2.
    { rewrite <- H2, Hdst, Hsf, <- app_assoc. f_equal. rewrite app_assoc. f_equal.
      unfold pend_fr. rewrite <- slice_advance; [done|lia|lia]. }
    assert (dst k1 sockfd = dst k sockfd) as Ed by (apply Hdf; unfold STDOUT_FILENO; lia).
    destruct (Z.eqb_spec (froptr st + w) (friptr st)) as [Ew|Ew]; cbn [run post]; (split; [|done]).
    + rewrite Ew, slice_nil in E2. split; [constructor; cbn; lia|]. unfold pend_to, pend_fr. cbn.
      rewrite slice_nil, Ed, Hsf. done.
    + split; [constructor; cbn; lia|]. unfold pend_to, pend_fr. cbn. by rewrite Ed, Hsf.
  - eapply post_mono; [apply post_nonb_err; [done|]; eapply inv_view; [|done]; by apply view_eq|].
    by intros a k' [-> ?].
Qed.

Lemma nonb_sockout_spec c1 c2 st g k :
  daemon_proc g = 0 -> inv c1 c2 k st ->
  post c1 c2 (fun st' k' => inv c1 c2 k' st') (run (nonb_sockout strclinonb sockfd st) g k).
Proof.
  intros Hd Hi. pose proof Hi as ([Ho1 Ho2 Ho3 Ho4] & H1 & H2 & H3). unfold nonb_sockout.
  destruct (Z.ltb_spec 0 (toiptr st - tooptr st)) as [Hn|Hn]; [|by cbn].
  rewrite slice_asub by lia. rewrite run_bind, run_mem. cbn beta iota. rewrite run_bind, run_call.
  fold (pend_to st).
  assert (Z.of_nat (length (pend_to st)) = toiptr st - tooptr st) as Hlen
    by (unfold pend_to, slice; rewrite length_take, length_drop; lia).
  pose proof (pipe_write k sockfd (pend_to st)) as HW.
  destruct (kcall (Ewrite sockfd (pend_to st)) k) as [[w|e] k1]; cbn beta iota;
    specialize (HW ltac:(intros E; rewrite E in Hlen; simpl in Hlen; lia)).
  - destruct HW as (Hw & Hdst & Hdf & Hsf). cbn [st_log st_shutdown strclinonb].
    rewrite run_bind, run_ret. cbn beta iota.
    assert (dst k1 sockfd ++ slice (n_to st) (tooptr st + w) (toiptr st) ++ src k1 STDIN_FILENO = c1) as E1.
    { rewrite <- H1, Hdst, Hsf, <- app_assoc. f_equal. rewrite app_assoc. f_equal.
      unfold pend_to. rewrite <- slice_advance; [done|lia|lia]. }
    assert (dst k1 STDOUT_FILENO = dst k STDOUT_FILENO) as Ed by (apply Hdf; unfold STDOUT_FILENO; lia).
    destruct (Z.eqb_spec (tooptr st + w) (toiptr st)) as [Ew|Ew].
    + rewrite Ew, slice_nil in E1.
      assert (inv c1 c2 k1 (Nonb (n_to st) 0 0 (n_fr st) (friptr st) (froptr st) (stdineof st))) as Hi1.
      { split; [constructor; cbn; lia|]. unfold pend_to, pend_fr. cbn. rewrite slice_nil, Ed.
        split_and!; [done|by rewrite Hsf|by rewrite Hsf]. }
      apply post_bind with (P := fun _ k' => view k' = view k1).
      * destruct (stdineof st); [|by cbn].
        apply post_checked_; [done|done|by eapply inv_conserved|done].
      * intros [] g' k' Hv Hd'. cbn [run post]. split; [|done]. by eapply inv_view.
    + cbn [run post]. split; [|done]. split; [constructor; cbn; lia|]. unfold pend_to, pend_fr. cbn.
      rewrite Ed. split_and!; [done|by rewrite Hsf|by rewrite Hsf].
  - eapply post_mono; [apply post_nonb_err; [done|]; eapply inv_view; [|done]; by apply view_eq|].
    by intros a k' [-> ?].
Qed.

(** ** A turn and the loop *)

Lemma fd_add_ok b fd (set : fd_set) :
  0 <= fd < FD_SETSIZE -> exists s', fd_add b fd set = Some s' /\
    (forall x, x ∈ s' -> (x ∈ set) \/ b = true /\ x = fd).
Proof.
  intros Hr. unfold fd_add, FD_SET. destruct b; [|eauto].
  destruct (Z.leb_spec 0 fd); [|lia]. destruct (Z.ltb_spec fd FD_SETSIZE); [|lia]. simpl.
  eexists. split; [done|]. intros x Hx. apply elem_of_union in Hx as [Hx|Hx]; [|by left].
  right. split; [done|]. by apply elem_of_singleton in Hx.
Qed.

(** A descriptor is watched for input only while its buffer has room. *)
Lemma nonb_rset_room st :
  exists r, nonb_rset strclinonb sockfd st = Some r /\
    (STDIN_FILENO ∈ r -> toiptr st < MAXLINE) /\ (sockfd ∈ r -> friptr st < MAXLINE).
Proof.
  unfold nonb_rset. cbn [st_size strclinonb].
  destruct (fd_add_ok (negb (stdineof st) && (toiptr st <? MAXLINE)) STDIN_FILENO ∅)
    as (r0 & -> & H0); [unfold STDIN_FILENO, FD_SETSIZE; lia|]. cbn [mbind option_bind].
  destruct (fd_add_ok (friptr st <? MAXLINE) sockfd r0) as (r1 & -> & H1); [lia|].
  exists r1. split; [done|]. split; intros Hin; apply H1 in Hin as [Hin|[Hb Hx]].
  - apply H0 in Hin as [Hin|[Hb _]]; [by apply elem_of_empty in Hin|].
    apply andb_prop in Hb as [_ Hb]. by apply Z.ltb_lt in Hb.
  - unfold STDIN_FILENO in Hx. lia.
  - apply H0 in Hin as [Hin|[_ Hx]]; [by apply elem_of_empty in Hin|unfold STDIN_FILENO in Hx; lia].
  - by apply Z.ltb_lt in Hb.
Qed.

Lemma nonb_wset_ok st : exists w, nonb_wset sockfd st = Some w.
Proof.
  unfold nonb_wset. destruct (fd_add_ok (negb (tooptr st =? toiptr st)) sockfd ∅) as (w0 & -> & _); [lia|].
  cbn [mbind option_bind].
  destruct (fd_add_ok (negb (froptr st =? friptr st)) STDOUT_FILENO w0) as (w1 & -> & _); [|eauto].
  unfold STDOUT_FILENO, FD_SETSIZE. lia.
Qed.

(** The stdin part does not use up the room of [fr]. *)
Lemma nonb_stdin_fr c1 c2 st g k :
  daemon_proc g = 0 -> inv c1 c2 k st -> toiptr st < MAXLINE ->
  post c1 c2 (fun r k' => inv c1 c2 k' r.1 /\ friptr r.1 = friptr st)
    (run (nonb_stdin strclinonb sockfd st) g k).
Proof.
  intros Hd Hi Hl. pose proof (nonb_stdin_spec c1 c2 st g k Hd Hi Hl) as H.
  assert (forall g' k' r, run (nonb_stdin strclinonb sockfd st) g k = (Done r, g', k') ->
    friptr r.1 = friptr st) as Hf.
  2:{ destruct (run _ g k) as [[[r|h] g'] k']; simpl in *; [|done]. naive_solver. }
  intros g' k' r. unfold nonb_stdin. rewrite run_bind, run_call.
  destruct (kcall _ k) as [[bs|e] k1]; cbn beta iota.
  - rewrite run_bind, run_mem. destruct (memcpy _ _ _); cbn beta iota; [|done].
    destruct (Z.of_nat (length bs) =? 0); rewrite !run_bind; cbn [st_log strclinonb]; rewrite run_ret;
      cbn beta iota; [|by intros [= <- <- <-]].
    rewrite run_bind. destruct (run _ g k1) as [[[[]|h] g1] k2]; [|done]. by intros [= <- <- <-].
  - rewrite run_bind. unfold nonb_err. rewrite run_bind, run_get_errno. cbn beta iota.
    destruct (negb _).
    + cbn [st_die strclinonb]. destruct (run_err_sys (A := nonb) (str "read error on stdin") (set_errno e g) k1)
        as (h & g1 & k2 & -> & _). done.
    + rewrite run_ret. cbn beta iota. by intros [= <- <- <-].
Qed.

Lemma nonb_turn_spec c1 c2 maxfdp1 st g k :
  daemon_proc g = 0 -> inv c1 c2 k st ->
  post c1 c2 (fun r k' => match r with
                          | Some st' => inv c1 c2 k' st'
                          | None => conserved c1 c2 k' /\ src k' STDIN_FILENO = [] /\ src k' sockfd = []
                          end)
    (run (nonb_turn strclinonb sockfd maxfdp1 st) g k).
Proof.
  intros Hd Hi. unfold nonb_turn. destruct (nonb_rset_room st) as (r0 & -> & Hr1 & Hr2).
  destruct (nonb_wset_ok st) as (w0 & ->). rewrite !run_bind, run_mem. cbn beta iota.
  rewrite run_bind, run_mem. cbn beta iota.
  apply post_bind with (P := fun rw k' => inv c1 c2 k' st /\ rw.1 ⊆ r0).
  { cbn [st_select strclinonb]. apply post_bind with
      (P := fun (x : Z * (fd_set * fd_set * fd_set)) k' => inv c1 c2 k' st /\ x.2.1.1 ⊆ r0).
    - apply post_checked; [done|done|by eapply inv_conserved|].
      intros [m [[r w] x]] k' E Hv. split; [by eapply inv_view|].
      by apply pipe_select in E as [? _].
    - intros [m [[r w] x]] g' k' [? ?] ?. by cbn. }
  intros [rset wset] g1 k1 [Hi1 Hsub] Hd1. cbn [fst] in Hsub.
  apply post_bind with (P := fun r k' => inv c1 c2 k' r.1 /\ friptr r.1 = friptr st).
  { case_bool_decide as Hin; [|by cbn]. apply nonb_stdin_fr; [done|done|]. auto. }
  intros [st1 b1] g2 k2 [Hi2 Hfr] Hd2. cbn [fst] in *.
  apply post_bind with (P := fun r k' => match r with
      | Some r => inv c1 c2 k' r.1
      | None => conserved c1 c2 k' /\ src k' STDIN_FILENO = [] /\ src k' sockfd = [] end).
  { case_bool_decide as Hin; [|by cbn]. eapply post_mono.
    - apply nonb_sock_spec; [done|done|]. rewrite Hfr. auto.
    - intros [[st' b']|] k'; [done|]. intros (Hi' & Heof & Hs). split; [by eapply inv_conserved|].
      split; [|done]. by apply Hi'. }
  intros [[st2 b2]|] g3 k3 HP3 Hd3; [|by cbn]. cbn [fst] in HP3.
  apply post_bind with (P := fun st' k' => inv c1 c2 k' st').
  { destruct (bool_decide _ || b2); [|by cbn]. by apply nonb_stdout_spec. }
  intros st3 g4 k4 Hi4 Hd4. apply post_bind with (P := fun st' k' => inv c1 c2 k' st').
  { destruct (bool_decide _ || b1); [|by cbn]. by apply nonb_sockout_spec. }
  intros st5 g5 k5 Hi5 Hd5. by cbn.
Qed.

(** What holds whenever the function stops, or has run for [fuel] turns. *)
Definition safe_outcome (c1 c2 : list Z) (x : outcome unit * globals * K) : Prop :=
  let '(o, _, k') := x in
  conserved c1 c2 k' /\
  match o with
  | Done _ => src k' STDIN_FILENO = [] /\ src k' sockfd = []
  | Halted h => h = Exit 1 \/ h = Spin
  end.

Lemma nonb_loop_safe c1 c2 fuel maxfdp1 st g k :
  daemon_proc g = 0 -> inv c1 c2 k st ->
  safe_outcome c1 c2 (run (nonb_loop strclinonb sockfd fuel maxfdp1 st) g k).
Proof.
  revert st g k. induction fuel as [|f IH]; intros st g k Hd Hi; cbn [nonb_loop].
  - cbn. split; [by eapply inv_conserved|by right].
  - rewrite run_bind. pose proof (nonb_turn_spec c1 c2 maxfdp1 st g k Hd Hi) as HT.
    destruct (run _ g k) as [[[[st'|]|h] g'] k']; simpl in HT.
    + destruct HT. by apply IH.
    + destruct HT as [HT _]. done.
    + destruct HT as [-> HT]. cbn. auto.
Qed.

Lemma set_nonblock_safe c1 c2 fd g k :
  daemon_proc g = 0 -> conserved c1 c2 k ->
  post c1 c2 (fun _ k' => view k' = view k) (run (set_nonblock fd) g k).
Proof.
  intros Hd Hc. unfold set_nonblock. apply post_bind with (P := fun _ k' => view k' = view k).
  { by apply post_checked. }
  intros v g' k' Hv Hd'. apply post_bind with (P := fun _ k' => view k' = view k).
  { apply post_checked; [done|done|by eapply conserved_view|]. intros. congruence. }
  intros u g2 k2 Hv2 Hd2. by cbn.
Qed.

(** C7. The nonblocking str_cli copies without losing, repeating or reordering a
    byte: however reads and writes are cut and refused, after any number of
    turns and also when it stops on an error, what was written to the socket,
    at most MAXLINE bytes in flight, and what is still to be read from standard
    input make up the input, in order, and likewise from the socket to standard
    output; no access leaves a buffer; and it returns only when both inputs are
    at their end. *)
Theorem str_cli_nonb_conserves fuel to fr g k :
  daemon_proc g = 0 -> Z.of_nat (length to) = MAXLINE -> Z.of_nat (length fr) = MAXLINE ->
  safe_outcome (dst k sockfd ++ src k STDIN_FILENO) (dst k STDOUT_FILENO ++ src k sockfd)
    (run (str_cli_nonb fuel sockfd to fr) g k).
Proof.
  intros Hd Ht Hf. set (c1 := _ ++ _). set (c2 := _ ++ _).
  assert (inv c1 c2 k (nonb_init to fr)) as Hi.
  { split; [constructor; cbn; unfold MAXLINE in *; lia|]. unfold pend_to, pend_fr. cbn.
    rewrite !slice_nil. done. }
  assert (post c1 c2 (fun _ k' => view k' = view k)
    (run (_ ← set_nonblock sockfd; _ ← set_nonblock STDIN_FILENO; set_nonblock STDOUT_FILENO) g k)) as HI.
  { assert (conserved c1 c2 k) as Hc by by eapply inv_conserved.
    apply post_bind with (P := fun _ k' => view k' = view k); [by apply set_nonblock_safe|].
    intros u g1 k1 Hv1 Hd1. apply post_bind with (P := fun _ k' => view k' = view k).
    { eapply post_mono; [apply set_nonblock_safe; [done|by eapply conserved_view]|]. simpl. congruence. }
    intros u2 g2 k2 Hv2 Hd2.
    eapply post_mono; [apply set_nonblock_safe; [done|by eapply conserved_view]|]. simpl. congruence. }
  unfold str_cli_nonb.
  replace (run _ g k) with (run ((_ ← set_nonblock sockfd; _ ← set_nonblock STDIN_FILENO;
    set_nonblock STDOUT_FILENO) ≫= fun _ => nonb_loop strclinonb sockfd fuel
      (Z.max (Z.max STDIN_FILENO STDOUT_FILENO) sockfd + 1) (nonb_init to fr)) g k).
  2:{ rewrite !run_bind. destruct (run (set_nonblock sockfd) g k) as [[[|] g1] k1]; [|done].
      rewrite !run_bind. destruct (run (set_nonblock STDIN_FILENO) g1 k1) as [[[|] g2] k2]; [|done].
      by rewrite !run_bind. }
  rewrite run_bind. destruct (run _ g k) as [[[u|h] g1] k1]; simpl in HI.
  - destruct HI as [Hv Hd1]. apply nonb_loop_safe; [done|]. by eapply inv_view.
  - destruct HI as [-> HI]. cbn. auto.
Qed.

(** The nonblocking str_cli can drop output: when standard input has ended,
    the socket is at end of file and standard output is not ready, the turn
    returns from the function at once; the bytes that are in [fr] by then are
    never written. *)
Theorem str_cli_nonb_drops_pending maxfdp1 st g k k1 k2 r0 w0 x m :
  nonb_ok st -> stdineof st = true -> froptr st < friptr st < MAXLINE ->
  nonb_rset strclinonb sockfd st = Some r0 -> nonb_wset sockfd st = Some w0 ->
  kcall (Eselect maxfdp1 r0 w0 ∅ None) k = (Ok (m, ({[sockfd]}, ∅, x)), k1) ->
  kcall (Eread sockfd (MAXLINE - friptr st)) k1 = (Ok [], k2) ->
  run (nonb_turn strclinonb sockfd maxfdp1 st) g k = (Done None, g, k2) /\
  pend_fr st <> [] /\ dst k2 STDOUT_FILENO = dst k STDOUT_FILENO.
Proof.
  intros [Ho1 Ho2 Ho3 Ho4] Heof Hlt Hr Hw Es Er. split; [|split].
  - unfold nonb_turn. rewrite Hr, Hw, run_bind, run_mem. cbn beta iota.
    rewrite run_bind, run_mem. cbn beta iota. cbn [st_select strclinonb]. unfold Select, checked.
    rewrite !run_bind, run_call, Es. cbn beta iota. rewrite run_ret. cbn beta iota.
    rewrite run_ret. cbn beta iota.
    assert (STDIN_FILENO ∉ ({[sockfd]} : fd_set)) as Hn0
      by (intros Hin; apply elem_of_singleton in Hin; unfold STDIN_FILENO in Hin; lia).
    assert (sockfd ∈ ({[sockfd]} : fd_set)) as Hn1 by by apply elem_of_singleton.
    rewrite (bool_decide_false _ Hn0), (bool_decide_true _ Hn1), run_bind, run_ret. cbn beta iota.
    rewrite run_bind.
    unfold nonb_sock. rewrite run_bind, run_call. cbn [st_size strclinonb]. rewrite Er.
    cbn beta iota. rewrite run_bind, run_mem, memcpy_nil by lia. cbn beta iota.
    change (Z.of_nat (length []) =? 0) with true. rewrite Heof. by cbn.
  - unfold pend_fr, slice. intros E. apply (f_equal length) in E.
    rewrite length_take, length_drop in E. simpl in E. lia.
  - pose proof (pipe_read k1 sockfd (MAXLINE - friptr st) ltac:(lia)) as HR. rewrite Er in HR.
    destruct HR as (_ & _ & _ & _ & ->).
    pose proof (pipe_other _ (Eselect maxfdp1 r0 w0 ∅ None) k eq_refl STDOUT_FILENO) as [_ H].
    by rewrite Es in H.
Qed.
End Pipe.

(** ** A system that keeps the contract

    Standard input and a socket (descriptor 3) with bytes to read; writes are
    taken three bytes at a time; standard output can be blocked. *)
Record pipes := Pipes {
  p_in : list Z; p_sock : list Z; p_out : list Z; p_sent : list Z; p_blocked : bool }.

Definition pipes_read (fd n : Z) (k : pipes) : res (list Z) * pipes :=
  if fd =? 0 then
    (Ok (take (Z.to_nat n) (p_in k)),
     Pipes (drop (Z.to_nat n) (p_in k)) (p_sock k) (p_out k) (p_sent k) (p_blocked k))
  else if fd =? 3 then
    (Ok (take (Z.to_nat n) (p_sock k)),
     Pipes (p_in k) (drop (Z.to_nat n) (p_sock k)) (p_out k) (p_sent k) (p_blocked k))
  else (Ok [], k).

Definition pipes_write (fd : Z) (bs : list Z) (k : pipes) : res Z * pipes :=
  let c := take 3 bs in
  if (fd =? 1) && negb (p_blocked k) then
    (Ok (Z.of_nat (length c)), Pipes (p_in k) (p_sock k) (p_out k ++ c) (p_sent k) (p_blocked k))
  else if fd =? 3 then
    (Ok (Z.of_nat (length c)), Pipes (p_in k) (p_sock k) (p_out k) (p_sent k ++ c) (p_blocked k))
  else (Err EWOULDBLOCK, k).

#[export] Instance pipes_kernel : Kernel pipes := {|
  kcall X e :=
    match e in sysE X return pipes -> res X * pipes with
    | Eread fd n => pipes_read fd n
    | Ewrite fd bs => pipes_write fd bs
    | Eselect _ r w _ _ => fun k => (Ok (1, (r, if p_blocked k then w ∖ {[1]} else w, ∅)), k)
    | Efcntl _ _ _ => fun k => (Ok 0, k)
    | Eshutdown _ _ => fun k => (Ok tt, k)
    | _ => fun k => (Err ENOSYS, k)
    end;
  klib X e k := ((@klib unit (failing_kernel ENOSYS) X e tt).1, k) |}.

Lemma take_3_bound (bs : list Z) : take (length (take 3 bs)) bs = take 3 bs.
Proof. destruct bs as [|a [|b [|c bs]]]; done. Qed.

#[export] Instance pipes_pipe : PipeKernel pipes.
Proof.
  refine {| src k fd := if fd =? 0 then p_in k else if fd =? 3 then p_sock k else [];
            dst k fd := if fd =? 1 then p_out k else if fd =? 3 then p_sent k else [] |}.
  - intros k fd n Hn. cbn [kcall pipes_kernel]. unfold pipes_read.
    assert (forall l : list Z, take (Z.to_nat n) l = [] -> l = []) as Htk
      by (intros [|a l]; [done|]; destruct (Z.to_nat n) eqn:E; [lia|done]).
    destruct (Z.eqb_spec fd 0) as [->|H0]; [|destruct (Z.eqb_spec fd 3) as [->|H3]]; cbn.
    + rewrite take_drop. split_and!; [done|rewrite length_take; lia|apply Htk| |done].
      intros fd' Hne. by destruct (Z.eqb_spec fd' 0).
    + rewrite take_drop. split_and!; [done|rewrite length_take; lia|apply Htk| |done].
      intros fd' Hne. destruct (fd' =? 0); [done|]. by destruct (Z.eqb_spec fd' 3).
    + split_and!; [done|lia|done..].
  - intros k fd bs Hb. cbn [kcall pipes_kernel]. unfold pipes_write.
    assert (0 <= Z.of_nat (length (take 3 bs)) <= Z.of_nat (length bs)) as Hl
      by (rewrite length_take; lia).
    destruct (Z.eqb_spec fd 1) as [->|H1]; cbn [andb].
    + destruct (p_blocked k); cbn; [done|]. rewrite Nat2Z.id, take_3_bound.
      split_and!; [lia|lia|done| |done]. intros fd' Hne. by destruct (Z.eqb_spec fd' 1).
    + destruct (Z.eqb_spec fd 3) as [->|H3]; cbn; [|done]. rewrite Nat2Z.id, take_3_bound.
      split_and!; [lia|lia|done| |done]. intros fd' Hne. destruct (fd' =? 1); [done|].
      by destruct (Z.eqb_spec fd' 3).
  - intros k n r w x tv m r' w' x' k' E. cbn in E. injection E as <- <- <- <- <-.
    split; [done|]. destruct (p_blocked k); [|done]. set_solver.
  - intros X e k Hn fd. by destruct e.
  - intros X e k fd. done.
Defined.

Definition pipes1 : pipes := Pipes [104; 105; 10] [111; 107; 10] [] [] false.
Definition buf0 : list Z := replicate 4096 0.

Lemma str_cli_nonb_conserves_witness :
  safe_outcome 3 (dst pipes1 3 ++ src pipes1 STDIN_FILENO) (dst pipes1 STDOUT_FILENO ++ src pipes1 3)
    (run (str_cli_nonb 5 3 buf0 buf0) globals0 pipes1).
Proof.
  exact (str_cli_nonb_conserves 3 ltac:(unfold FD_SETSIZE; lia) 5 buf0 buf0 globals0 pipes1
    eq_refl ltac:(by vm_compute) ltac:(by vm_compute)).
Defined.

(** Standard input done, "bye" waiting for a blocked standard output, the
    server gone: the function returns. *)
Definition pending_bye : nonb :=
  Nonb (replicate 4096 0) 0 0 ([98; 121; 101] ++ replicate 4093 0) 3 0 true.

Lemma str_cli_nonb_drops_pending_witness :
  let k := Pipes [] [] [] [] true in
  run (nonb_turn strclinonb 3 4 pending_bye) globals0 k = (Done None, globals0, k) /\
  pend_fr pending_bye <> [] /\ dst k STDOUT_FILENO = dst k STDOUT_FILENO.
Proof.
  refine (str_cli_nonb_drops_pending 3 ltac:(unfold FD_SETSIZE; lia) 4 pending_bye globals0
    (Pipes [] [] [] [] true) (Pipes [] [] [] [] true) (Pipes [] [] [] [] true) {[3]} {[1]} ∅ 1
    _ _ _ _ _ _ _); try reflexivity.
  - constructor; [by vm_compute|by vm_compute|unfold pending_bye; cbn; unfold MAXLINE; lia..].
  - unfold pending_bye, MAXLINE. cbn. lia.
Defined.
