(* ===== verification/DList.v ===== *)
(** * The doubly linked list: container/list.c (and its copy
      library/container/list.c)

    The heap is explicit: nodes and containers are cells addressed by
    locations, a freed cell is gone, and reading a cell that is gone, a NULL
    pointer or a field that was never written is undefined behaviour ([UB]).
    malloc leaves its memory unspecified; [Malloc] says whether it happens to
    be zero, because the code never initialises the links it does not set.
    Over zeroed memory every operation refines the operation on sequences of
    strings; over unspecified memory the first use is undefined. *)
From stdpp Require Import base list numbers strings gmap.
From S2P Require Import Prelude.

Module DList.

Definition loc := positive.

(** A pointer-valued field: [None] when it was never written. *)
Definition field := option (option loc).

(** struct node_type and struct list_type.  A char * is the string it points to. *)
Record node := Node { val : option (list Z); next : field; last : field }.
Record list_type := List_type { head : field; tail : field }.

(** The heap, and how many more times malloc will succeed. *)
Record store := Store {
  nodes : gmap loc node; lists : gmap loc list_type; avail : nat }.

Inductive fail := UB | OutOfFuel.

(** Operations: a state that can fail. *)
Definition M (A : Type) : Type := store -> fail + (A * store).
#[export] Instance M_ret : MRet M := fun A a s => inr (a, s).
#[export] Instance M_bind : MBind M := fun A B f m s =>
  match m s with inl e => inl e | inr (a, s') => f a s' end.

Class Malloc := { zeroed : bool }.
(** The contents of a field of fresh memory. *)
Definition fresh_field `{Malloc} : field := if zeroed then Some None else None.

Definition ub {A} : M A := fun _ => inl UB.
(** Dereference a pointer. *)
Definition deref {A} (p : option A) : M A := match p with Some l => mret l | None => ub end.
(** Use the value of a field. *)
Definition init {A} (f : option A) : M A := match f with Some v => mret v | None => ub end.

Definition get_node (l : loc) : M node := fun s =>
  match nodes s !! l with Some n => inr (n, s) | None => inl UB end.
Definition set_node (l : loc) (n : node) : M unit := fun s =>
  match nodes s !! l with
  | Some _ => inr (tt, Store (<[l := n]> (nodes s)) (lists s) (avail s))
  | None => inl UB
  end.
Definition get_list (c : loc) : M list_type := fun s =>
  match lists s !! c with Some n => inr (n, s) | None => inl UB end.
Definition set_list (c : loc) (n : list_type) : M unit := fun s =>
  match lists s !! c with
  | Some _ => inr (tt, Store (nodes s) (<[c := n]> (lists s)) (avail s))
  | None => inl UB
  end.

Definition set_next (l : loc) (p : option loc) : M unit :=
  n ← get_node l; set_node l (Node (val n) (Some p) (last n)).
Definition set_last (l : loc) (p : option loc) : M unit :=
  n ← get_node l; set_node l (Node (val n) (next n) (Some p)).
Definition set_head (c : loc) (p : option loc) : M unit :=
  n ← get_list c; set_list c (List_type (Some p) (tail n)).
Definition set_tail (c : loc) (p : option loc) : M unit :=
  n ← get_list c; set_list c (List_type (head n) (Some p)).
Definition head_of (c : loc) : M (option loc) := n ← get_list c; init (head n).
Definition tail_of (c : loc) : M (option loc) := n ← get_list c; init (tail n).

(** malloc(sizeof(struct node_type)), malloc(sizeof(struct list_type)), free *)
Definition malloc_node `{Malloc} : M (option loc) := fun s =>
  match avail s with
  | O => inr (None, s)
  | S a =>
      let l := fresh (dom (nodes s) ∪ dom (lists s)) in
      inr (Some l, Store (<[l := Node (if zeroed then Some [] else None) fresh_field fresh_field]> (nodes s))
                     (lists s) a)
  end.
Definition malloc_list `{Malloc} : M (option loc) := fun s =>
  match avail s with
  | O => inr (None, s)
  | S a =>
      let l := fresh (dom (nodes s) ∪ dom (lists s)) in
      inr (Some l, Store (nodes s) (<[l := List_type fresh_field fresh_field]> (lists s)) a)
  end.
Definition free_node (l : loc) : M unit := fun s =>
  match nodes s !! l with
  | Some _ => inr (tt, Store (delete l (nodes s)) (lists s) (avail s))
  | None => inl UB
  end.
Definition free_list (c : loc) : M unit := fun s =>
  match lists s !! c with
  | Some _ => inr (tt, Store (nodes s) (delete c (lists s)) (avail s))
  | None => inl UB
  end.

(** ** The operations *)

Definition list_create `{Malloc} : M (option loc) := malloc_list.

(** for (current = ...; current != NULL; current = current->next) free(current); *)
Fixpoint destory_loop (fuel : nat) (current : option loc) : M unit :=
  match current with
  | None => mret tt
  | Some l =>
      match fuel with
      | O => fun _ => inl OutOfFuel
      | S f => _ ← free_node l; n ← get_node l; nx ← init (next n); destory_loop f nx
      end
  end.

Definition list_destory (fuel : nat) (container : option loc) : M unit :=
  match container with
  | Some c => h ← head_of c; _ ← destory_loop fuel h; free_list c
  | None => mret tt
  end.

Definition list_insert `{Malloc} (container : option loc) (v : list Z) : M Z :=
  new ← malloc_node;
  match new with
  | None => mret (-1)
  | Some new_node =>
      n ← get_node new_node;
      _ ← set_node new_node (Node (Some v) (next n) (last n));
      c ← deref container;
      h ← head_of c;
      match h with
      | None => _ ← set_tail c (Some new_node); _ ← set_head c (Some new_node); mret 0
      | Some hd =>
          _ ← set_last hd (Some new_node);
          h1 ← head_of c;
          _ ← set_next new_node h1;
          _ ← set_head c (Some new_node);
          mret 0
      end
  end.

Definition list_append `{Malloc} (container : option loc) (v : list Z) : M Z :=
  new ← malloc_node;
  match new with
  | None => mret (-1)
  | Some new_node =>
      n ← get_node new_node;
      _ ← set_node new_node (Node (Some v) (next n) (last n));
      c ← deref container;
      t ← tail_of c;
      match t with
      | None => _ ← set_tail c (Some new_node); _ ← set_head c (Some new_node); mret 0
      | Some tl =>
          _ ← set_next tl (Some new_node);
          t1 ← tail_of c;
          _ ← set_last new_node t1;
          _ ← set_tail c (Some new_node);
          mret 0
      end
  end.

(** The value of the last node, [None] for NULL. *)
Definition list_remove (container : option loc) : M (option (list Z)) :=
  match container with
  | None => mret None
  | Some c =>
      t ← tail_of c;
      match t with
      | None => mret None
      | Some tl =>
          n ← get_node tl;
          s ← init (val n);
          lst ← init (last n);
          match lst with
          | None => _ ← set_tail c None; _ ← set_head c None; _ ← free_node tl; mret (Some s)
          | Some l =>
              _ ← set_tail c (Some l);
              _ ← set_next l None;
              _ ← free_node tl; mret (Some s)
          end
      end
  end.

(** The body once the node is found. *)
Definition unlink (c current : loc) : M unit :=
  n ← get_node current;
  lst ← init (last n);
  nx ← init (next n);
  _ ← (match lst, nx with
       | None, None => _ ← set_tail c None; set_head c None
       | _, _ => mret tt
       end);
  _ ← (match lst with
       | Some l => set_next l nx
       | None => set_head c nx
       end);
  _ ← (match nx with
       | Some r => set_last r lst
       | None => set_tail c lst
       end);
  free_node current.

Fixpoint remove_loop (fuel : nat) (c : loc) (current : option loc) (v : list Z) : M Z :=
  match current with
  | None => mret (-1)
  | Some l =>
      match fuel with
      | O => fun _ => inl OutOfFuel
      | S f =>
          n ← get_node l;
          w ← init (val n);
          if negb (strcmp w v =? 0) then nx ← init (next n); remove_loop f c nx v
          else _ ← unlink c l; mret 0
      end
  end.

Definition list_remove_specified (fuel : nat) (container : option loc) (v : list Z) : M Z :=
  match container with
  | None => mret (-1)
  | Some c => h ← head_of c; remove_loop fuel c h v
  end.

Fixpoint search_loop (fuel : nat) (current : option loc) (v : list Z) : M (option (list Z)) :=
  match current with
  | None => mret None
  | Some l =>
      match fuel with
      | O => fun _ => inl OutOfFuel
      | S f =>
          n ← get_node l;
          w ← init (val n);
          if strcmp w v =? 0 then mret (Some w)
          else nx ← init (next n); search_loop f nx v
      end
  end.

Definition list_search (fuel : nat) (container : option loc) (v : list Z) : M (option (list Z)) :=
  c ← deref container; h ← head_of c; search_loop fuel h v.

Definition list_is_empty (container : option loc) : M Z :=
  c ← deref container;
  h ← head_of c;
  match h with
  | Some _ => mret 0
  | None => t ← tail_of c; mret (match t with None => 1 | Some _ => 0 end)
  end.

(** The lines that are printed. *)
Fixpoint display_loop (fuel : nat) (current : option loc) : M (list (list Z)) :=
  match current with
  | None => mret []
  | Some l =>
      match fuel with
      | O => fun _ => inl OutOfFuel
      | S f =>
          n ← get_node l;
          w ← init (val n);
          nx ← init (next n);
          rest ← display_loop f nx; mret (w :: rest)
      end
  end.

Definition list_display (fuel : nat) (container : option loc) : M (list (list Z)) :=
  c ← deref container; h ← head_of c; display_loop fuel h.
End DList.
