(* ===== verification/DListProofs.v ===== *)
(** * The doubly linked list refines a sequence of strings

    [rep F L s c xs] relates a store to the sequence held by container [c]:
    the rest of the heap is exactly [F] and the other containers are [L], so
    an operation that keeps [rep F L] neither touches nor leaks anything.
    Over zeroed memory every operation of container/list.c except list_destory
    keeps it and returns what the operation on sequences returns. *)
From stdpp Require Import base list numbers strings sets gmap.
From S2P Require Import Prelude DList.

Module DListProofs.
Import DList.
#[global] Typeclasses Opaque M.

Abbreviation entry := (loc * list Z)%type.

Definition first (es : list entry) (nxt : option loc) : option loc :=
  match es with [] => nxt | e :: _ => Some e.1 end.
Fixpoint last_loc (prev : option loc) (es : list entry) : option loc :=
  match es with [] => prev | e :: r => last_loc (Some e.1) r end.

(** The entries [es] are linked both ways between [prev] and [nxt]. *)
Fixpoint seg (h : gmap loc node) (prev : option loc) (es : list entry) (nxt : option loc) : Prop :=
  match es with
  | [] => True
  | e :: r => h !! e.1 = Some (Node (Some e.2) (Some (first r nxt)) (Some prev)) /\
              seg h (Some e.1) r nxt
  end.

Definition rep (F : gmap loc node) (L : gmap loc list_type) (s : store) (c : loc)
    (xs : list (list Z)) : Prop :=
  exists es, es.*2 = xs /\ Forall is_cstr xs /\
    lists s !! c = Some (List_type (Some (first es None)) (Some (last_loc None es))) /\
    delete c (lists s) = L /\
    seg (nodes s) None es None /\ NoDup es.*1 /\
    (forall l, l ∉ es.*1 -> nodes s !! l = F !! l) /\
    (forall l, l ∈ es.*1 -> F !! l = None).

(** ** Segments *)

Lemma first_app a b n : first (a ++ b) n = first a (first b n).
Proof. by destruct a. Qed.
Lemma last_loc_app p a b : last_loc p (a ++ b) = last_loc (last_loc p a) b.
Proof. revert p. induction a; intros; simpl; auto. Qed.

Lemma seg_app h p a b n :
  seg h p (a ++ b) n <-> seg h p a (first b n) /\ seg h (last_loc p a) b n.
Proof.
  revert p. induction a as [|e a IH]; intros p; simpl; [tauto|].
  rewrite IH, first_app. tauto.
Qed.

Lemma seg_frame h h' p es n :
  (forall l, l ∈ es.*1 -> h' !! l = h !! l) -> seg h p es n -> seg h' p es n.
Proof.
  revert p. induction es as [|e es IH]; intros p Hh; simpl; [done|].
  intros [He Hs]. split; [rewrite Hh; [done|simpl; apply list_elem_of_here]|].
  apply IH; [|done]. intros l Hl. apply Hh. by right.
Qed.

Lemma seg_lookup h p es n l : seg h p es n -> l ∈ es.*1 -> is_Some (h !! l).
Proof.
  revert p. induction es as [|e es IH]; intros p; simpl; [by intros _ ?%elem_of_nil|].
  intros [He Hs] [->|Hl]%elem_of_cons; eauto.
Qed.

Lemma last_loc_elem p es l : last_loc p es = Some l -> p = Some l \/ (l ∈ es.*1).
Proof.
  revert p. induction es as [|e es IH]; intros p; simpl; [by left|].
  intros [[= ->]|H]%IH; right; [left|by right].
Qed.
Lemma first_elem es n l : first es n = Some l -> n = Some l \/ (l ∈ es.*1).
Proof. destruct es; simpl; [by left|]. intros [= ->]. right. left. Qed.

(** Rewriting one link of the heap. *)
Definition with_next (p : option loc) (n : node) : node := Node (val n) (Some p) (last n).
Definition with_last (p : option loc) (n : node) : node := Node (val n) (next n) (Some p).
Definition link_next (q p : option loc) (h : gmap loc node) : gmap loc node :=
  match q with Some l => alter (with_next p) l h | None => h end.
Definition link_last (q p : option loc) (h : gmap loc node) : gmap loc node :=
  match q with Some l => alter (with_last p) l h | None => h end.

Lemma link_next_ne q p h l : q <> Some l -> link_next q p h !! l = h !! l.
Proof. destruct q; simpl; [|done]. intros. apply lookup_alter_ne. congruence. Qed.
Lemma link_last_ne q p h l : q <> Some l -> link_last q p h !! l = h !! l.
Proof. destruct q; simpl; [|done]. intros. apply lookup_alter_ne. congruence. Qed.

Lemma seg_link_next h es n p :
  NoDup es.*1 -> seg h None es n -> seg (link_next (last_loc None es) p h) None es p.
Proof.
  intros Hd Hs. destruct es as [|[l v] a _] using rev_ind; [done|].
  rewrite last_loc_app. simpl. apply seg_app in Hs as [Ha [Hl _]].
  rewrite fmap_app, NoDup_app in Hd. destruct Hd as (Hd & Hn & _).
  apply seg_app. split.
  - eapply seg_frame, Ha. intros k Hk. apply lookup_alter_ne.
    intros ->. eapply Hn; [done|]. left.
  - split; [|done]. simpl in *. by rewrite lookup_alter, decide_True, Hl.
Qed.

Lemma seg_link_last h es n q p :
  NoDup es.*1 -> seg h q es n -> seg (link_last (first es None) p h) p es n.
Proof.
  intros Hd Hs. destruct es as [|[l v] a]; [done|]. simpl in *.
  destruct Hs as [Hl Ha]. apply NoDup_cons in Hd as [Hn Hd]. split.
  - by rewrite lookup_alter, decide_True, Hl.
  - eapply seg_frame, Ha. intros k Hk. apply lookup_alter_ne. by intros ->.
Qed.


(** ** Steps of the store monad *)

Lemma bind_inr {A B} (f : A -> M B) (m : M A) s a s' :
  m s = inr (a, s') -> (m ≫= f) s = f a s'.
Proof. unfold mbind, M_bind. by intros ->. Qed.

Lemma run_mret {A} (a : A) s : (mret a : M A) s = inr (a, s).
Proof. done. Qed.

Lemma run_get_node l s n : nodes s !! l = Some n -> get_node l s = inr (n, s).
Proof. unfold get_node. by intros ->. Qed.

Lemma run_set_next l p s :
  is_Some (nodes s !! l) ->
  set_next l p s = inr (tt, Store (link_next (Some l) p (nodes s)) (lists s) (avail s)).
Proof.
  intros [n Hn]. unfold set_next. erewrite bind_inr by (by apply run_get_node).
  unfold set_node. rewrite Hn. simpl. do 3 f_equal.
  apply map_eq. intros k. rewrite lookup_insert, lookup_alter.
  case_decide; subst; [by rewrite Hn|done].
Qed.

Lemma run_set_last l p s :
  is_Some (nodes s !! l) ->
  set_last l p s = inr (tt, Store (link_last (Some l) p (nodes s)) (lists s) (avail s)).
Proof.
  intros [n Hn]. unfold set_last. erewrite bind_inr by (by apply run_get_node).
  unfold set_node. rewrite Hn. simpl. do 3 f_equal.
  apply map_eq. intros k. rewrite lookup_insert, lookup_alter.
  case_decide; subst; [by rewrite Hn|done].
Qed.

Section container.
Context (s : store) (c : loc) (h t : option loc).
Context (Hc : lists s !! c = Some (List_type (Some h) (Some t))).

Lemma run_head_of : head_of c s = inr (h, s).
Proof. unfold head_of, get_list, mbind, M_bind. by rewrite Hc. Qed.
Lemma run_tail_of : tail_of c s = inr (t, s).
Proof. unfold tail_of, get_list, mbind, M_bind. by rewrite Hc. Qed.

Abbreviation with_list x := (Store (nodes s) (<[c := x]> (lists s)) (avail s)).
Lemma run_set_head p :
  set_head c p s = inr (tt, with_list (List_type (Some p) (Some t))).
Proof. unfold set_head, get_list, set_list, mbind, M_bind. by rewrite Hc; simpl; rewrite Hc. Qed.
Lemma run_set_tail p :
  set_tail c p s = inr (tt, with_list (List_type (Some h) (Some p))).
Proof. unfold set_tail, get_list, set_list, mbind, M_bind. by rewrite Hc; simpl; rewrite Hc. Qed.
End container.

Lemma run_free_node l s :
  is_Some (nodes s !! l) ->
  free_node l s = inr (tt, Store (delete l (nodes s)) (lists s) (avail s)).
Proof. unfold free_node. by intros [n ->]. Qed.

(** One step of a bind, by the lemma given. *)
Tactic Notation "step" "by" tactic3(t) := erewrite bind_inr by (t); cbn beta iota.

Lemma seg_fresh h p es n l : seg h p es n -> h !! l = None -> l ∉ es.*1.
Proof. intros Hs Hl Hin. destruct (seg_lookup _ _ _ _ _ Hs Hin). congruence. Qed.

Lemma seg_insert h p es n l x : l ∉ es.*1 -> seg h p es n -> seg (<[l := x]> h) p es n.
Proof. intros Hl. apply seg_frame. intros k Hk. apply lookup_insert_ne. by intros ->. Qed.
Lemma seg_delete h p es n l : l ∉ es.*1 -> seg h p es n -> seg (delete l h) p es n.
Proof. intros Hl. apply seg_frame. intros k Hk. apply lookup_delete_ne. by intros ->. Qed.

(** Looking up a location away from every update of the heap. *)
Ltac away :=
  repeat first
    [ rewrite lookup_insert_ne by set_solver | rewrite lookup_delete_ne by set_solver
    | rewrite lookup_alter_ne by set_solver
    | rewrite link_next_ne by (intros [?|?]%last_loc_elem; set_solver)
    | rewrite link_last_ne by (intros [?|?]%first_elem; set_solver) ].

(** ** The allocation that starts list_insert and list_append *)
Section zeroed.
Context `{Malloc} (Hz : zeroed = true).

Definition fresh_loc (s : store) : loc := fresh (dom (nodes s) ∪ dom (lists s)).
Definition with_new (v : list Z) (s : store) (a : nat) : store :=
  Store (<[fresh_loc s := Node (Some v) (Some None) (Some None)]> (nodes s)) (lists s) a.

Lemma fresh_loc_nodes s : nodes s !! fresh_loc s = None.
Proof.
  apply not_elem_of_dom. pose proof (is_fresh (dom (nodes s) ∪ dom (lists s))). set_solver.
Qed.

Lemma run_alloc {B} v (f : loc -> M B) (g : M B) s a :
  avail s = S a ->
  (new ← malloc_node;
   match new with
   | None => g
   | Some l => n ← get_node l; _ ← set_node l (Node (Some v) (next n) (last n)); f l
   end) s = f (fresh_loc s) (with_new v s a).
Proof.
  intros Ha. unfold malloc_node, fresh_field, get_node, set_node, mbind, M_bind.
  rewrite Ha, Hz. simpl. rewrite !lookup_insert, decide_True by done. simpl.
  rewrite lookup_insert, decide_True by done. unfold with_new. simpl.
  by rewrite insert_insert, decide_True.
Qed.

Lemma run_alloc_fails {B} (f : loc -> M B) (g : M B) s :
  avail s = O ->
  (new ← malloc_node; match new with None => g | Some l => f l end) s = g s.
Proof. intros Ha. unfold malloc_node, mbind, M_bind. by rewrite Ha. Qed.

Context (F : gmap loc node) (L : gmap loc list_type).

(** What the fresh node of [with_new] is to a represented list. *)
Lemma rep_fresh s c xs :
  rep F L s c xs -> F !! fresh_loc s = None.
Proof.
  intros (es & _ & _ & _ & _ & Hs & _ & HF & _).
  rewrite <- HF; [apply fresh_loc_nodes|]. eapply seg_fresh, fresh_loc_nodes. done.
Qed.

Lemma list_insert_spec s c xs v a :
  rep F L s c xs -> is_cstr v -> avail s = S a ->
  exists s', list_insert (Some c) v s = inr (0, s') /\ rep F L s' c (v :: xs) /\ avail s' = a.
Proof.
  intros HR Hv Ha. pose proof (rep_fresh _ _ _ HR) as HFl.
  destruct HR as (es & Hxs & Hstr & Hc & HL & Hs & Hd & HF & HFn).
  pose proof (seg_fresh _ _ _ _ _ Hs (fresh_loc_nodes s)) as Hl.
  unfold list_insert. rewrite (run_alloc v _ _ s a Ha). set (l := fresh_loc s) in *.
  step by reflexivity.
  step by (by eapply run_head_of).
  destruct es as [|e es]; simpl in Hc |- *.
  - step by (by eapply run_set_tail).
    step by (eapply run_set_head; apply lookup_insert_eq).
    eexists. split; [reflexivity|]. split; [|done]. exists [(l, v)]. simpl in *. subst.
    rewrite insert_insert_eq, delete_insert_eq, !lookup_insert_eq.
    split_and!; try done; [by repeat constructor|apply NoDup_singleton| |].
    + intros k Hk. away. apply HF. set_solver.
    + by intros k ->%list_elem_of_singleton.
  - step by (eapply run_set_last; simpl; rewrite lookup_insert_ne; [eauto|]; set_solver).
    step by (by eapply run_head_of).
    step by (eapply run_set_next; simpl; rewrite lookup_alter, decide_False, lookup_insert_eq; [eauto|]; set_solver).
    step by (by eapply run_set_head).
    eexists. split; [reflexivity|]. split; [|done]. exists ((l, v) :: e :: es).
    cbn [nodes lists]. rewrite delete_insert_eq, !lookup_insert_eq.
    split_and!; try done.
    + by simpl in *; subst.
    + by constructor.
    + split.
      * simpl. rewrite lookup_alter, decide_True, lookup_alter_ne, lookup_insert_eq by set_solver. done.
      * eapply seg_frame; [|eapply (seg_link_last _ (e :: es)), seg_insert, Hs; [done..|exact Hl]].
        intros k Hk. simpl. apply lookup_alter_ne. intros ->. contradiction.
    + by apply NoDup_cons.
    + intros k Hk. simpl. away. apply HF. set_solver.
    + intros k [->|Hk]%elem_of_cons; [done|]. by apply HFn.
Qed.

Lemma list_append_spec s c xs v a :
  rep F L s c xs -> is_cstr v -> avail s = S a ->
  exists s', list_append (Some c) v s = inr (0, s') /\ rep F L s' c (xs ++ [v]) /\ avail s' = a.
Proof.
  intros HR Hv Ha. pose proof (rep_fresh _ _ _ HR) as HFl.
  destruct HR as (es & Hxs & Hstr & Hc & HL & Hs & Hd & HF & HFn).
  pose proof (seg_fresh _ _ _ _ _ Hs (fresh_loc_nodes s)) as Hl.
  unfold list_append. rewrite (run_alloc v _ _ s a Ha). set (l := fresh_loc s) in *.
  step by reflexivity.
  step by (by eapply run_tail_of).
  destruct (last_loc None es) as [t|] eqn:Et.
  - assert (t ∈ es.*1) as Ht by (by destruct (last_loc_elem _ _ _ Et)).
    destruct (seg_lookup _ _ _ _ _ Hs Ht) as [nt Hnt].
    step by (eapply run_set_next; simpl; rewrite lookup_insert_ne; [eauto|]; set_solver).
    step by (by eapply run_tail_of).
    step by (eapply run_set_last; simpl; rewrite lookup_alter_ne, lookup_insert_eq; [eauto|]; set_solver).
    step by (by eapply run_set_tail).
    eexists. split; [reflexivity|]. split; [|done]. exists (es ++ [(l, v)]).
    cbn [nodes lists]. rewrite delete_insert_eq, lookup_insert_eq, !fmap_app, last_loc_app, Hxs.
    split_and!; try done.
    + by apply Forall_app; split; [|repeat constructor].
    + rewrite first_app. by destruct es.
    + apply seg_app. rewrite Et. split.
      * eapply seg_frame; [|eapply (seg_link_next _ es); [done|by eapply seg_insert, Hs]].
        rewrite Et. intros k Hk. apply lookup_alter_ne. intros ->. contradiction.
      * split; [|done]. simpl.
        rewrite lookup_alter, decide_True, lookup_alter_ne, lookup_insert_eq by set_solver. done.
    + apply NoDup_app. split_and!; [done| |apply NoDup_singleton]. set_solver.
    + intros k Hk. simpl. away. apply HF. set_solver.
    + intros k [Hk| ->%list_elem_of_singleton]%elem_of_app; [by apply HFn|done].
  - destruct es as [|[k w] es _] using rev_ind; [|by rewrite last_loc_app in Et].
    step by (by eapply run_set_tail).
    step by (eapply run_set_head; apply lookup_insert_eq).
    eexists. split; [reflexivity|]. split; [|done]. exists [(l, v)]. simpl in *. subst.
    rewrite insert_insert_eq, delete_insert_eq, !lookup_insert_eq.
    split_and!; try done; [by repeat constructor|apply NoDup_singleton| |].
    + intros k Hk. away. apply HF. set_solver.
    + by intros k ->%list_elem_of_singleton.
Qed.

Lemma alloc_fails_spec s c v :
  avail s = O -> list_insert c v s = inr (-1, s) /\ list_append c v s = inr (-1, s).
Proof.
  intros Ha. by split; [unfold list_insert|unfold list_append]; rewrite run_alloc_fails.
Qed.

(** ** Removal *)

(** Taking the entry [l] out of the middle of a list. *)
Lemma seg_unlink h a l v b :
  NoDup (a ++ (l, v) :: b).*1 -> seg h None (a ++ (l, v) :: b) None ->
  seg (delete l (link_last (first b None) (last_loc None a)
                   (link_next (last_loc None a) (first b None) h))) None (a ++ b) None.
Proof.
  intros Hd Hs. rewrite fmap_app in Hd. apply NoDup_app in Hd as (Hda & Hab & Hdb).
  apply NoDup_cons in Hdb as [Hlb Hdb].
  apply seg_app in Hs as [Ha [_ Hb]]. apply seg_delete.
  { rewrite fmap_app. intros [Hx|Hx]%elem_of_app; [|done]. apply (Hab _ Hx). left. }
  apply seg_app. split.
  - eapply seg_frame; [|by eapply seg_link_next, Ha].
    intros k Hk. apply link_last_ne. intros [?|Hk']%first_elem; [done|].
    apply (Hab _ Hk). by right.
  - eapply seg_link_last; [done|]. eapply seg_frame; [|exact Hb].
    intros k Hk. apply link_next_ne. intros [?|Hk']%last_loc_elem; [done|].
    apply (Hab _ Hk'). by right.
Qed.

(** The store after [l] is unlinked from container [c] and freed. *)
Definition unlinked (s : store) (c l : loc) (a b : list entry) : store :=
  Store (delete l (link_last (first b None) (last_loc None a)
                     (link_next (last_loc None a) (first b None) (nodes s))))
    (<[c := List_type (Some (first (a ++ b) None)) (Some (last_loc None (a ++ b)))]> (lists s))
    (avail s).

Lemma rep_unlinked s c l v a b :
  Forall is_cstr (a ++ (l, v) :: b).*2 ->
  delete c (lists s) = L ->
  seg (nodes s) None (a ++ (l, v) :: b) None -> NoDup (a ++ (l, v) :: b).*1 ->
  (forall k, k ∉ (a ++ (l, v) :: b).*1 -> nodes s !! k = F !! k) ->
  (forall k, k ∈ (a ++ (l, v) :: b).*1 -> F !! k = None) ->
  rep F L (unlinked s c l a b) c (a ++ b).*2.
Proof.
  intros Hstr HL Hs Hd HF HFn. exists (a ++ b). unfold unlinked. cbn [nodes lists].
  rewrite delete_insert_eq, lookup_insert_eq.
  assert (forall k, (k ∈ (a ++ (l, v) :: b).*1) <-> k = l \/ (k ∈ (a ++ b).*1)) as Hin.
  { intros k. rewrite !fmap_app, fmap_cons, !elem_of_app, elem_of_cons. simpl. tauto. }
  split_and!; try done.
  - rewrite fmap_app in *. apply Forall_app in Hstr as [? Hb]. inversion_clear Hb.
    by apply Forall_app.
  - by eapply seg_unlink.
  - rewrite fmap_app in *. apply NoDup_app in Hd as (? & Hab & [? ?]%NoDup_cons).
    apply NoDup_app. split_and!; try done. intros k Hk Hk'. apply (Hab k Hk). by right.
  - intros k Hk. destruct (decide (k = l)) as [->|Hkl].
    { rewrite lookup_delete_eq. symmetry. apply HFn, Hin. by left. }
    rewrite fmap_app, elem_of_app in Hk. rewrite lookup_delete_ne by done.
    rewrite link_last_ne by (intros [?|?]%first_elem; naive_solver).
    rewrite link_next_ne by (intros [?|?]%last_loc_elem; naive_solver).
    apply HF. rewrite Hin, fmap_app, elem_of_app. tauto.
  - intros k Hk. apply HFn, Hin. by right.
Qed.

(** The two halves of the unlinking: the link from the left, the link from the right. *)
Lemma run_fix_prev s c h t lst nx :
  lists s !! c = Some (List_type (Some h) (Some t)) ->
  (forall q, lst = Some q -> is_Some (nodes s !! q)) ->
  (match lst with Some l => set_next l nx | None => set_head c nx end) s =
  inr (tt, Store (link_next lst nx (nodes s))
             (<[c := List_type (Some (match lst with None => nx | Some _ => h end)) (Some t)]> (lists s))
             (avail s)).
Proof.
  intros Hc Hq. destruct lst as [q|]; [|by erewrite run_set_head].
  rewrite run_set_next by auto. by rewrite insert_id.
Qed.

Lemma run_fix_next s c h t lst nx :
  lists s !! c = Some (List_type (Some h) (Some t)) ->
  (forall q, nx = Some q -> is_Some (nodes s !! q)) ->
  (match nx with Some r => set_last r lst | None => set_tail c lst end) s =
  inr (tt, Store (link_last nx lst (nodes s))
             (<[c := List_type (Some h) (Some (match nx with None => lst | Some _ => t end))]> (lists s))
             (avail s)).
Proof.
  intros Hc Hq. destruct nx as [q|]; [|by erewrite run_set_tail].
  rewrite run_set_last by auto. by rewrite insert_id.
Qed.

Lemma link_next_Some q p h k : is_Some (h !! k) -> is_Some (link_next q p h !! k).
Proof.
  intros [n Hn]. destruct q as [q|]; simpl; [|eauto].
  rewrite lookup_alter. case_decide; subst; rewrite Hn; eauto.
Qed.
Lemma link_last_Some q p h k : is_Some (h !! k) -> is_Some (link_last q p h !! k).
Proof.
  intros [n Hn]. destruct q as [q|]; simpl; [|eauto].
  rewrite lookup_alter. case_decide; subst; rewrite Hn; eauto.
Qed.

(** The code's extra test for a list of one node changes nothing. *)
Lemma run_unlink_single s c h t (a b : list entry) :
  lists s !! c = Some (List_type (Some h) (Some t)) ->
  exists h0 t0,
    (match last_loc None a, first b None with
     | None, None => _ ← set_tail c None; set_head c None
     | _, _ => mret tt
     end) s = inr (tt, Store (nodes s) (<[c := List_type (Some h0) (Some t0)]> (lists s)) (avail s)) /\
    (last_loc None a <> None \/ first b None <> None -> h0 = h /\ t0 = t).
Proof.
  intros Hc. destruct (last_loc None a), (first b None).
  4: { do 2 eexists. split; [|intros []; done].
       step by (by eapply run_set_tail).
       erewrite run_set_head by (apply lookup_insert_eq). simpl. by rewrite insert_insert_eq. }
  all: exists h, t; split; [|done]; rewrite insert_id by done; by destruct s.
Qed.

Lemma last_loc_Some p es : es <> [] -> exists q, last_loc p es = Some q.
Proof.
  destruct es as [|e es _] using rev_ind; [done|]. intros _.
  rewrite last_loc_app. simpl. eauto.
Qed.

Lemma run_unlink s c a l v b :
  lists s !! c = Some (List_type (Some (first (a ++ (l, v) :: b) None))
                                 (Some (last_loc None (a ++ (l, v) :: b)))) ->
  seg (nodes s) None (a ++ (l, v) :: b) None ->
  unlink c l s = inr (tt, unlinked s c l a b).
Proof.
  intros Hc Hs. pose proof Hs as Hs0. apply seg_app in Hs as [Ha [Hl Hb]]. simpl in Hl, Hb.
  unfold unlink. step by (by apply run_get_node).
  step by reflexivity. step by reflexivity.
  destruct (run_unlink_single s c _ _ a b Hc) as (h0 & t0 & E & Hht).
  step by (exact E).
  step by (eapply run_fix_prev; [apply lookup_insert_eq|]; intros q [?|Hq]%last_loc_elem; [done|];
           exact (seg_lookup _ _ _ _ _ Ha Hq)).
  step by (eapply run_fix_next; [apply lookup_insert_eq|]; intros q [?|Hq]%first_elem; [done|];
           exact (link_next_Some _ _ _ _ (seg_lookup _ _ _ _ _ Hb Hq))).
  rewrite run_free_node by (by apply link_last_Some, link_next_Some; eauto).
  unfold unlinked. cbn [nodes lists avail]. rewrite !insert_insert_eq.
  do 4 f_equal. rewrite first_app, last_loc_app. rewrite first_app, last_loc_app in Hht. f_equal.
  simpl in Hht. f_equal; f_equal.
  - destruct a as [|e a]; [done|]. destruct (last_loc_Some None (e :: a)) as [q Hq]; [done|].
    rewrite Hq in *. simpl. apply Hht. by left.
  - destruct b as [|e b]; [done|]. simpl in *. f_equal. apply Hht. by right.
Qed.

Lemma list_remove_spec s c xs :
  rep F L s c xs ->
  match rev xs with
  | [] => list_remove (Some c) s = inr (None, s)
  | x :: r => exists s', list_remove (Some c) s = inr (Some x, s') /\
                         rep F L s' c (rev r) /\ avail s' = avail s
  end.
Proof.
  intros (es & <- & Hstr & Hc & HL & Hs & Hd & HF & HFn).
  unfold list_remove. step by (by eapply run_tail_of).
  destruct es as [|[l v] a _] using rev_ind; [done|].
  rewrite fmap_app, rev_app_distr. simpl. rewrite rev_involutive.
  rewrite last_loc_app. simpl. pose proof Hs as Hs0.
  apply seg_app in Hs as [Ha [Hl _]]. simpl in Hl.
  step by (by apply run_get_node). step by reflexivity. step by reflexivity.
  exists (unlinked s c l a []). split; [|split; [|done]].
  2: { rewrite <- (app_nil_r a) at 2. by eapply rep_unlinked. }
  rewrite last_loc_app, first_app in Hc. simpl in Hc. unfold unlinked. rewrite app_nil_r.
  destruct (last_loc None a) as [q|] eqn:Eq.
  - step by (by eapply run_set_tail).
    destruct (last_loc_elem _ _ _ Eq) as [?|Hq]; [done|].
    step by (eapply run_set_next; exact (seg_lookup _ _ _ _ _ Ha Hq)).
    step by (eapply run_free_node, link_next_Some; simpl; eauto).
    simpl. unfold link_last. do 4 f_equal. destruct a; [done|]. done.
  - destruct a as [|[k w] a _] using rev_ind; [|by rewrite last_loc_app in Eq].
    step by (by eapply run_set_tail).
    step by (eapply run_set_head, lookup_insert_eq).
    step by (eapply run_free_node; simpl; eauto).
    simpl. by rewrite insert_insert_eq.
Qed.

(** The first occurrence of [v] removed, when there is one. *)
Fixpoint remove_first (v : list Z) (xs : list (list Z)) : option (list (list Z)) :=
  match xs with
  | [] => None
  | x :: r => if decide (x = v) then Some r else cons x <$> remove_first v r
  end.

Lemma remove_loop_spec s c v (Hv : is_cstr v) b : forall a fuel,
  lists s !! c = Some (List_type (Some (first (a ++ b) None)) (Some (last_loc None (a ++ b)))) ->
  delete c (lists s) = L -> Forall is_cstr (a ++ b).*2 ->
  seg (nodes s) None (a ++ b) None -> NoDup (a ++ b).*1 ->
  (forall k, k ∉ (a ++ b).*1 -> nodes s !! k = F !! k) ->
  (forall k, k ∈ (a ++ b).*1 -> F !! k = None) ->
  (length b <= fuel)%nat ->
  match remove_first v b.*2 with
  | None => remove_loop fuel c (first b None) v s = inr (-1, s)
  | Some r => exists s', remove_loop fuel c (first b None) v s = inr (0, s') /\
                         rep F L s' c (a.*2 ++ r) /\ avail s' = avail s
  end.
Proof.
  induction b as [|[l w] b IH]; intros a fuel Hc HL Hstr Hs Hd HF HFn Hf.
  { by destruct fuel. }
  destruct fuel as [|fuel]; [simpl in Hf; lia|]. pose proof Hs as Hs0.
  apply seg_app in Hs as [Ha [Hl Hb]]. simpl in Hl.
  assert (is_cstr w) as Hw.
  { rewrite fmap_app in Hstr. apply Forall_app in Hstr as [_ Hx]. by inversion Hx. }
  cbn [first remove_loop fst]. erewrite bind_inr by (by apply run_get_node).
  erewrite bind_inr by reflexivity.
  cbn [fmap list_fmap remove_first snd]. destruct (decide (w = v)) as [->|Hne].
  - rewrite (proj2 (strcmp_eq_0 v v Hv Hv) eq_refl). simpl.
    erewrite bind_inr by (by eapply run_unlink).
    eexists. split; [reflexivity|]. split; [|done].
    rewrite <- (fmap_app snd). by eapply rep_unlinked.
  - destruct (Z.eqb_spec (strcmp w v) 0) as [E|_]; [by apply strcmp_eq_0 in E|]. simpl.
    erewrite bind_inr by reflexivity.
    specialize (IH (a ++ [(l, w)]) fuel). rewrite <- app_assoc in IH. simpl in IH, Hf.
    specialize (IH Hc HL Hstr Hs0 Hd HF HFn ltac:(lia)).
    destruct (remove_first v b.*2) as [r|]; simpl; [|done].
    by rewrite fmap_app, <- app_assoc in IH.
Qed.

Lemma search_loop_spec s v (Hv : is_cstr v) n es : forall p fuel,
  Forall is_cstr es.*2 -> seg (nodes s) p es None -> (length es <= fuel)%nat ->
  n = first es None ->
  search_loop fuel n v s = inr (if decide (v ∈ es.*2) then Some v else None, s).
Proof.
  revert n. induction es as [|[l w] es IH]; intros n p fuel Hstr Hs Hf ->.
  { by destruct fuel. }
  destruct fuel as [|fuel]; [simpl in Hf; lia|]. destruct Hs as [Hl Hs]. simpl in Hl, Hf.
  apply Forall_cons in Hstr as [Hw Hstr]. simpl in Hw.
  cbn [first search_loop fst]. erewrite bind_inr by (by apply run_get_node).
  erewrite bind_inr by reflexivity. simpl.
  destruct (decide (w = v)) as [->|Hne].
  - rewrite (proj2 (strcmp_eq_0 v v Hv Hv) eq_refl). simpl.
    by rewrite decide_True by left.
  - destruct (Z.eqb_spec (strcmp w v) 0) as [E|_]; [by apply strcmp_eq_0 in E|]. simpl.
    erewrite bind_inr by reflexivity. erewrite IH; [|done..|lia|done].
    do 2 f_equal. apply decide_ext. rewrite elem_of_cons. naive_solver.
Qed.

Lemma display_loop_spec s n es : forall p fuel,
  seg (nodes s) p es None -> (length es <= fuel)%nat -> n = first es None ->
  display_loop fuel n s = inr (es.*2, s).
Proof.
  revert n. induction es as [|[l w] es IH]; intros n p fuel Hs Hf ->; [by destruct fuel|].
  destruct fuel as [|fuel]; [simpl in Hf; lia|]. destruct Hs as [Hl Hs]. simpl in Hl, Hf.
  cbn [first display_loop fst]. erewrite bind_inr by (by apply run_get_node).
  do 2 (erewrite bind_inr by reflexivity).
  erewrite bind_inr by (eapply IH; [done|lia|done]). done.
Qed.
End zeroed.

(** ** The interface of list.h and its abstract machine *)

Inductive op :=
  | Insert (v : list Z) | Append (v : list Z) | Remove | Remove_specified (v : list Z)
  | Search (v : list Z) | Is_empty | Display.

(** What a call returns, or prints. *)
Inductive outcome := Int (z : Z) | Str (r : option (list Z)) | Lines (ls : list (list Z)).

#[export] Instance M_fmap : FMap M := fun A B f m => a ← m; mret (f a).

Definition run_op `{Malloc} (fuel : nat) (c : loc) (o : op) : M outcome :=
  match o with
  | Insert v => Int <$> list_insert (Some c) v
  | Append v => Int <$> list_append (Some c) v
  | Remove => Str <$> list_remove (Some c)
  | Remove_specified v => Int <$> list_remove_specified fuel (Some c) v
  | Search v => Str <$> list_search fuel (Some c) v
  | Is_empty => Int <$> list_is_empty (Some c)
  | Display => Lines <$> list_display fuel (Some c)
  end.

Fixpoint run_ops `{Malloc} (fuel : nat) (c : loc) (os : list op) : M (list outcome) :=
  match os with
  | [] => mret []
  | o :: r => x ← run_op fuel c o; xs ← run_ops fuel c r; mret (x :: xs)
  end.

(** The abstract machine: a sequence, and how many allocations still succeed. *)
Definition astate : Type := list (list Z) * nat.

Definition aop (o : op) (st : astate) : outcome * astate :=
  let '(xs, a) := st in
  match o with
  | Insert v => match a with O => (Int (-1), st) | S a' => (Int 0, (v :: xs, a')) end
  | Append v => match a with O => (Int (-1), st) | S a' => (Int 0, (xs ++ [v], a')) end
  | Remove => match rev xs with
              | [] => (Str None, st)
              | x :: r => (Str (Some x), (rev r, a))
              end
  | Remove_specified v =>
      match remove_first v xs with Some r => (Int 0, (r, a)) | None => (Int (-1), st) end
  | Search v => (Str (if decide (v ∈ xs) then Some v else None), st)
  | Is_empty => (Int (if decide (xs = []) then 1 else 0), st)
  | Display => (Lines xs, st)
  end.

Fixpoint aops (os : list op) (st : astate) : list outcome * astate :=
  match os with
  | [] => ([], st)
  | o :: r => let '(x, st1) := aop o st in let '(xs, st2) := aops r st1 in (x :: xs, st2)
  end.

(** The strings handed to the list are C strings. *)
Definition op_ok (o : op) : Prop :=
  match o with
  | Insert v | Append v | Remove_specified v | Search v => is_cstr v
  | _ => True
  end.
#[export] Instance op_ok_dec o : Decision (op_ok o).
Proof. destruct o; apply _. Defined.

(** A store and an abstract state that agree, with at most [n] nodes to walk. *)
Definition agrees F L (n : nat) (c : loc) (s : store) (st : astate) : Prop :=
  rep F L s c st.1 /\ avail s = st.2 /\ (length st.1 + st.2 <= n)%nat.

Lemma fmap_inr {A B} (f : A -> B) (m : M A) s a s' :
  m s = inr (a, s') -> (f <$> m) s = inr (f a, s').
Proof. intros E. unfold fmap, M_fmap. by erewrite bind_inr. Qed.

Lemma remove_first_length v xs r : remove_first v xs = Some r -> length xs = S (length r).
Proof.
  revert r. induction xs as [|x xs IH]; intros r; simpl; [done|].
  case_decide; [by intros [= ->]|].
  destruct (remove_first v xs) as [r'|]; simpl; [|done]. intros [= <-]. simpl. f_equal. by apply IH.
Qed.

Section refinement.
Context `{Malloc} (Hz : zeroed = true) (F : gmap loc node) (L : gmap loc list_type).
Context (fuel : nat) (c : loc).

(** One call of the interface is one step of the abstract machine. *)
Lemma run_op_refines s st o :
  agrees F L fuel c s st -> op_ok o ->
  exists s', run_op fuel c o s = inr ((aop o st).1, s') /\ agrees F L fuel c s' (aop o st).2.
Proof.
  destruct st as [xs a]. intros (HR & Ha & Hf) Ho. simpl in HR, Ha, Hf.
  pose proof HR as (es & Hxs & Hstr & Hc & HL & Hs & Hd & HF & HFn).
  assert (length es <= fuel)%nat as Hes.
  { rewrite <- Hxs, length_fmap in Hf. lia. }
  destruct o as [v|v| |v|v| |]; simpl in Ho |- *.
  - destruct a as [|a]; simpl.
    { exists s. split; [|done]. by apply fmap_inr, alloc_fails_spec. }
    destruct (list_insert_spec Hz F L s c xs v a) as (s' & E & HR' & Ha'); [done..|].
    exists s'. split; [by apply fmap_inr|]. split_and!; try done. simpl. lia.
  - destruct a as [|a]; simpl.
    { exists s. split; [|done]. by apply fmap_inr, alloc_fails_spec. }
    destruct (list_append_spec Hz F L s c xs v a) as (s' & E & HR' & Ha'); [done..|].
    exists s'. split; [by apply fmap_inr|]. split_and!; try done. simpl.
    rewrite length_app. simpl. lia.
  - pose proof (list_remove_spec F L s c xs HR) as E. pose proof Hf as Hf0.
    rewrite <- (length_rev xs) in Hf.
    destruct (rev xs) as [|x r]; simpl in Hf |- *.
    { exists s. split; [by apply fmap_inr|]. by split_and!. }
    destruct E as (s' & E & HR' & Ha'). exists s'. split; [by apply fmap_inr|].
    split_and!; simpl; [done|congruence|]. rewrite length_rev. lia.
  - pose proof (remove_loop_spec F L s c v Ho es [] fuel Hc HL) as E. simpl in E.
    rewrite Hxs in E. specialize (E Hstr Hs Hd HF HFn Hes).
    destruct (remove_first v xs) as [r|] eqn:Er; simpl.
    + destruct E as (s' & E & HR' & Ha'). exists s'. split.
      { apply fmap_inr. unfold list_remove_specified. by step by (by eapply run_head_of). }
      split_and!; simpl; [done|congruence|]. apply remove_first_length in Er. lia.
    + exists s. split; [|done]. apply fmap_inr. unfold list_remove_specified.
      by step by (by eapply run_head_of).
  - exists s. split; [|done]. apply fmap_inr. unfold list_search. step by reflexivity.
    step by (by eapply run_head_of). rewrite <- Hxs.
    eapply search_loop_spec; [done|by rewrite Hxs|done..].
  - exists s. split; [|done]. apply fmap_inr. unfold list_is_empty. step by reflexivity.
    step by (by eapply run_head_of). rewrite <- Hxs. destruct es as [|e es]; simpl; [|done].
    by step by (by eapply run_tail_of).
  - exists s. split; [|done]. apply fmap_inr. unfold list_display. step by reflexivity.
    step by (by eapply run_head_of). rewrite <- Hxs. by eapply display_loop_spec.
Qed.

Lemma run_ops_refines os : forall s st,
  agrees F L fuel c s st -> Forall op_ok os ->
  exists s', run_ops fuel c os s = inr ((aops os st).1, s') /\ agrees F L fuel c s' (aops os st).2.
Proof.
  induction os as [|o os IH]; intros s st HA Hos; simpl; [by exists s|].
  apply Forall_cons in Hos as [Ho Hos].
  destruct (run_op_refines s st o HA Ho) as (s1 & E1 & HA1).
  destruct (aop o st) as [x st1]. simpl in *.
  destruct (IH s1 st1 HA1 Hos) as (s2 & E2 & HA2).
  destruct (aops os st1) as [xs st2]. simpl in *.
  exists s2. split; [|done]. step by (exact E1). by step by (exact E2).
Qed.
End refinement.


Definition libc0 : Malloc := {| zeroed := true |}.
Definition heap0 (a : nat) : store := Store ∅ ∅ a.
Definition main_ops : list op :=
  [Insert [97]; Insert [98]; Insert [99]; Remove_specified [97]; Remove_specified [97];
   Remove_specified [99]; Is_empty; Display].


(** list_create sets neither head nor tail, so when malloc does not happen to
    return zeroed memory the first call on a new list, whichever it is, reads an
    indeterminate pointer. *)
Theorem list_create_uninitialised `{Malloc} (s : store) (o : op) (fuel a : nat) :
  zeroed = false -> avail s = S (S a) ->
  exists c s1, list_create s = inr (Some c, s1) /\ run_op fuel c o s1 = inl UB.
Proof.
  intros Hz Ha. set (c := fresh (dom (nodes s) ∪ dom (lists s))).
  exists c, (Store (nodes s) (<[c := List_type None None]> (lists s)) (S a)). split.
  { unfold list_create, malloc_list, fresh_field. by rewrite Ha, Hz. }
  assert (forall n x b, tail_of c (Store n (<[c := List_type None None]> x) b) = inl UB /\
                        head_of c (Store n (<[c := List_type None None]> x) b) = inl UB) as Hub.
  { intros. unfold tail_of, head_of, get_list, mbind, M_bind. simpl. by rewrite lookup_insert_eq. }
  unfold run_op, fmap, M_fmap, list_insert, list_append, list_remove, list_remove_specified,
    list_search, list_is_empty, list_display, malloc_node, get_node, set_node, deref, mbind, M_bind.
  destruct o; simpl; rewrite ?lookup_insert_eq; simpl; rewrite ?lookup_insert_eq; simpl;
    by rewrite ?(proj1 (Hub _ _ _)), ?(proj2 (Hub _ _ _)).
Qed.

Definition libc_raw : Malloc := {| zeroed := false |}.
Lemma list_create_uninitialised_witness :
  exists c s1, list_create (H := libc_raw) (heap0 8) = inr (Some c, s1) /\
    run_op (H := libc_raw) 8 c (Insert [97]) s1 = inl UB.
Proof. refine (list_create_uninitialised (H := libc_raw) (heap0 8) (Insert [97]) 8 6 _ _); done. Defined.

(** list_destory frees a node and then reads its next field: on every list
    with an element it uses freed memory; only an empty list is destroyed. *)
Theorem list_destory_uses_freed F L (s : store) (c : loc) (xs : list (list Z)) (fuel : nat) :
  rep F L s c xs -> (0 < fuel)%nat ->
  list_destory fuel (Some c) s =
    match xs with [] => inr (tt, Store (nodes s) L (avail s)) | _ :: _ => inl UB end.
Proof.
  intros (es & <- & _ & Hc & HL & Hs & _) Hf. unfold list_destory.
  step by (by eapply run_head_of). destruct es as [|[l v] es]; simpl.
  - destruct fuel; simpl; step by reflexivity; unfold free_list; by rewrite Hc, HL.
  - destruct fuel as [|fuel]; [lia|]. destruct Hs as [Hl _]. simpl in Hl |- *.
    unfold mbind, M_bind. rewrite run_free_node by eauto. unfold get_node. simpl.
    by rewrite lookup_delete_eq.
Qed.

Definition one_elem : store :=
  Store {[ 1%positive := Node (Some [97]) (Some None) (Some None) ]}
        {[ 2%positive := List_type (Some (Some 1%positive)) (Some (Some 1%positive)) ]} 0.
Lemma list_destory_uses_freed_witness :
  list_destory 1 (Some 2%positive) one_elem = inl UB.
Proof.
  refine (list_destory_uses_freed ∅ ∅ one_elem 2%positive [[97]] 1 _ _); [|lia].
  exists [(1%positive, [97])]. split_and!; try done.
  - repeat constructor.
  - apply NoDup_singleton.
  - intros l Hl. simpl. rewrite lookup_singleton_ne, lookup_empty; [done|]. set_solver.
Defined.
End DListProofs.
