(* ===== verification/Server.v ===== *)
(** * The select server: unpv13e/tcpcliserv/tcpservselect01.c

    One process serves every client: a table [client] of connected
    descriptors (-1 when the entry is free), the set [allset] handed to select,
    the largest descriptor and the largest used index. *)
From stdpp Require Import base list numbers strings gmap.
From S2P Require Import Prelude InetAddr Sys Error Wrap StreamIO StreamProofs Connect.

Definition SERV_PORT : Z := 9877.
Definition INADDR_ANY : list Z := [0; 0; 0; 0].

(** FD_ISSET and FD_CLR: an index outside [0, FD_SETSIZE) is outside the set. *)
Definition FD_ISSET (fd : Z) (s : fd_set) : option bool :=
  if (0 <=? fd) && (fd <? FD_SETSIZE) then Some (bool_decide (fd ∈ s)) else None.
Definition FD_CLR (fd : Z) (s : fd_set) : option fd_set :=
  if (0 <=? fd) && (fd <? FD_SETSIZE) then Some (s ∖ {[fd]}) else None.

Record server := Server {
  client : list Z; maxi : Z; maxfd : Z; allset : fd_set; buf : list Z }.

(** for (i = 0; i < FD_SETSIZE; i++) if (client[i] < 0) { client[i] = connfd; break; }
    with [k] rounds left: the final i and the table. *)
Fixpoint save_client (k : nat) (i : Z) (cl : list Z) (connfd : Z) : option (Z * list Z) :=
  match k with
  | O => Some (i, cl)
  | S k' =>
      c ← aread cl i;
      if c <? 0 then cl1 ← awrite cl i connfd; Some (i, cl1)
      else save_client k' (i + 1) cl connfd
  end.

(** The new connection, up to the test of nready. *)
Definition new_client (fuel : nat) (listenfd : Z) (st : server) : prog server :=
  '(connfd, _) ← Accept fuel listenfd;
  '(i, cl) ← mem (save_client (Z.to_nat FD_SETSIZE) 0 (client st) connfd);
  if i =? FD_SETSIZE then err_quit (str "too many clients")
  else
    all1 ← mem (FD_SET connfd (allset st));
    Ret (Server cl (if maxi st <? i then i else maxi st)
           (if maxfd st <? connfd then connfd else maxfd st) all1 (buf st)).

(** A client that select reported: read and echo, or close. *)
Definition serve_client (wfuel : nat) (i sockfd : Z) (st : server) : prog server :=
  bs ← Read sockfd MAXLINE;
  buf1 ← mem (memcpy (buf st) 0 bs);
  let n := Z.of_nat (length bs) in
  if n =? 0 then
    _ ← Close sockfd;
    all1 ← mem (FD_CLR sockfd (allset st));
    cl ← mem (awrite (client st) i (-1));
    Ret (Server cl (maxi st) (maxfd st) all1 buf1)
  else
    _ ← Writen wfuel sockfd buf1 n;
    Ret (Server (client st) (maxi st) (maxfd st) (allset st) buf1).

(** for (i = 0; i <= maxi; i++), with [k] rounds left. *)
Fixpoint check_clients (wfuel k : nat) (i : Z) (rset : fd_set) (nready : Z) (st : server)
  : prog server :=
  match k with
  | O => Ret st
  | S k' =>
      sockfd ← mem (aread (client st) i);
      if sockfd <? 0 then check_clients wfuel k' (i + 1) rset nready st
      else
        set ← mem (FD_ISSET sockfd rset);
        if (set : bool) then
          st1 ← serve_client wfuel i sockfd st;
          if nready - 1 <=? 0 then Ret st1
          else check_clients wfuel k' (i + 1) rset (nready - 1) st1
        else check_clients wfuel k' (i + 1) rset nready st
  end.

(** One turn of the for ( ; ; ) loop. *)
Definition server_turn (fuel : nat) (listenfd : Z) (st : server) : prog server :=
  '(nready, (rset, _, _)) ← Select (maxfd st + 1) (allset st) ∅ ∅ None;
  set ← mem (FD_ISSET listenfd rset);
  if (set : bool) then
    st1 ← new_client fuel listenfd st;
    if nready - 1 <=? 0 then Ret st1
    else check_clients fuel (Z.to_nat (maxi st1 + 1)) 0 rset (nready - 1) st1
  else check_clients fuel (Z.to_nat (maxi st + 1)) 0 rset nready st.

(** The first [turns] turns. *)
Fixpoint server_loop (fuel turns : nat) (listenfd : Z) (st : server) : prog server :=
  match turns with
  | O => Ret st
  | S t => st1 ← server_turn fuel listenfd st; server_loop fuel t listenfd st1
  end.

Definition server_init (listenfd : Z) (b : list Z) : option server :=
  all0 ← FD_SET listenfd ∅;
  Some (Server (replicate (Z.to_nat FD_SETSIZE) (-1)) (-1) listenfd all0 b).

(** main, for the first [turns] turns: the loop itself never ends. *)
Definition tcpservselect01 `{Platform} (fuel turns : nat) (b : list Z) : prog server :=
  listenfd ← Socket AF_INET SOCK_STREAM 0;
  _ ← Bind listenfd (SaIn (SockaddrIn (htons SERV_PORT) INADDR_ANY)) 16;
  _ ← Listen listenfd LISTENQ;
  st ← mem (server_init listenfd b);
  server_loop fuel turns listenfd st.
