(* ===== verification/ServerProofs.v ===== *)
(** * The select server serves every client

    Over any system that keeps the contract of descriptors and connections
    ([ServerKernel]): the table, the set given to select and the open
    connections always agree, the table cannot overflow, nothing is accessed
    out of range, every connection is echoed, and counting the ready
    descriptors down to leave the loop early skips no client. *)
From stdpp Require Import base list numbers strings sets gmap.
From S2P Require Import Prelude InetAddr Sys Error Wrap StreamIO StreamProofs Connect Server.

(** What the server sees of a system: the connections it holds, what each has
    still to deliver and has been sent, all that its client sends during its
    life, the same two at the time of closing for those it has closed, and how
    many more calls can be interrupted or report an aborted connection. *)
Class ServerKernel (K : Type) `{!Kernel K} := {
  conns : K -> gset Z;
  inp : K -> Z -> list Z;
  out : K -> Z -> list Z;
  whole : K -> Z -> list Z;
  closed : K -> list (list Z * list Z);
  patience : K -> nat;
  (** nothing the server sees has changed *)
  same (k k' : K) : Prop :=
    conns k' = conns k /\ closed k' = closed k /\
    (forall fd, inp k' fd = inp k fd /\ out k' fd = out k fd /\ whole k' fd = whole k fd) /\
    (patience k' <= patience k)%nat;
  (** nothing has changed but the connection [fd] *)
  same_but (fd : Z) (k k' : K) : Prop :=
    (forall fd', fd' <> fd ->
       inp k' fd' = inp k fd' /\ out k' fd' = out k fd' /\ whole k' fd' = whole k fd') /\
    (patience k' <= patience k)%nat;
  srv_socket : forall k f t p,
    match kcall (Esocket f t p) k with
    | (Ok fd, k') => 0 <= fd < FD_SETSIZE /\ (fd ∉ conns k) /\ same k k'
    | _ => True
    end;
  srv_bind : forall k fd sa n, same k (kcall (Ebind fd sa n) k).2;
  srv_listen : forall k fd n, same k (kcall (Elisten fd n) k).2;
  srv_getenv : forall k s, same k (klib (Egetenv s) k).2;
  srv_select : forall k n r,
    match kcall (Eselect n r ∅ ∅ None) k with
    | (Ok (m, (r', _, _)), k') => (r' ⊆ r) /\ m = Z.of_nat (size r') /\ same k k'
    | _ => True
    end;
  (** a new descriptor is below the limit on open files, which is FD_SETSIZE *)
  srv_accept : forall k lfd,
    match kcall (Eaccept lfd) k with
    | (Ok (fd, _), k') =>
        0 <= fd < FD_SETSIZE /\ fd <> lfd /\ (fd ∉ conns k) /\ conns k' = {[fd]} ∪ conns k /\
        inp k' fd = whole k' fd /\ out k' fd = [] /\ closed k' = closed k /\ same_but fd k k'
    | (Err e, k') => same k k' /\ (e = EPROTO \/ e = ECONNABORTED -> (patience k' < patience k)%nat)
    end;
  srv_read : forall k fd n, 0 < n -> fd ∈ conns k ->
    match kcall (Eread fd n) k with
    | (Ok bs, k') =>
        Z.of_nat (length bs) <= n /\ inp k fd = bs ++ inp k' fd /\ (bs = [] -> inp k fd = []) /\
        out k' fd = out k fd /\ whole k' fd = whole k fd /\
        conns k' = conns k /\ closed k' = closed k /\ same_but fd k k'
    | _ => True
    end;
  srv_write : forall k fd bs, bs <> [] -> fd ∈ conns k ->
    match kcall (Ewrite fd bs) k with
    | (Ok n, k') =>
        0 <= n <= Z.of_nat (length bs) /\ out k' fd = out k fd ++ take (Z.to_nat n) bs /\
        inp k' fd = inp k fd /\ whole k' fd = whole k fd /\
        conns k' = conns k /\ closed k' = closed k /\ same_but fd k k'
    | (Err e, k') => same k k' /\ (e = EINTR -> (patience k' < patience k)%nat)
    end;
  srv_close : forall k fd, fd ∈ conns k ->
    match kcall (Eclose fd) k with
    | (Ok _, k') =>
        conns k' = conns k ∖ {[fd]} /\ closed k' = closed k ++ [(whole k fd, out k fd)] /\
        same_but fd k k'
    | _ => True
    end }.

(** The outcome of a step: an error ends the process with status 1; a result
    satisfies [P]. *)
Definition upto_exit {A K} (P : A -> K -> Prop) (x : outcome A * globals * K) : Prop :=
  let '(o, g', k') := x in
  match o with
  | Done a => P a k' /\ daemon_proc g' = 0
  | Halted h => h = Exit 1
  end.

Section UptoExit.
Context {K : Type} `{HK : !Kernel K}.
Implicit Types (k : K) (g : globals).

Lemma upto_bind {A B} (p : prog A) (f : A -> prog B) (P : A -> K -> Prop) (Q : B -> K -> Prop) g k :
  upto_exit P (run p g k) ->
  (forall a g' k', P a k' -> daemon_proc g' = 0 -> upto_exit Q (run (f a) g' k')) ->
  upto_exit Q (run (p ≫= f) g k).
Proof.
  intros Hp Hf. rewrite run_bind. destruct (run p g k) as [[[a|h] g'] k']; simpl in *; [|done].
  destruct Hp. auto.
Qed.

Lemma upto_mono {A} (P Q : A -> K -> Prop) x :
  upto_exit P x -> (forall a k, P a k -> Q a k) -> upto_exit Q x.
Proof. destruct x as [[[a|h] g'] k']; simpl; [|done]. intros [] HPQ. auto. Qed.

Lemma upto_ret {A} (P : A -> K -> Prop) a g k :
  daemon_proc g = 0 -> P a k -> upto_exit P (run (Ret a) g k).
Proof. done. Qed.

Lemma upto_err_sys {A} (P : A -> K -> Prop) msg g k :
  daemon_proc g = 0 -> upto_exit P (run (err_sys msg) g k).
Proof.
  intros Hd. destruct (run_err_sys (A := A) msg g k) as (h & g' & k' & -> & [->|[]]); done.
Qed.

Lemma upto_checked {X} (e : sysE X) (P : X -> K -> Prop) msg g k :
  daemon_proc g = 0 ->
  (forall v k', kcall e k = (Ok v, k') -> P v k') ->
  upto_exit P (run (checked e msg) g k).
Proof.
  intros Hd HP. unfold checked. rewrite run_bind, run_call.
  destruct (kcall e k) as [[v|er] k1] eqn:E; cbn beta iota; [by cbn; auto|by apply upto_err_sys].
Qed.

Lemma upto_checked_ {X} (e : sysE X) (P : unit -> K -> Prop) msg g k :
  daemon_proc g = 0 ->
  (forall v k', kcall e k = (Ok v, k') -> P tt k') ->
  upto_exit P (run (checked_ e msg) g k).
Proof.
  intros Hd HP. unfold checked_. rewrite run_bind, run_call.
  destruct (kcall e k) as [[v|er] k1] eqn:E; cbn beta iota; [|by apply upto_err_sys].
  cbn. eauto.
Qed.

Lemma upto_mem {A B} (o : option A) a (f : A -> prog B) (Q : B -> K -> Prop) g k :
  o = Some a -> upto_exit Q (run (f a) g k) -> upto_exit Q (run (mem o ≫= f) g k).
Proof. intros -> H. by rewrite run_bind, run_mem. Qed.
End UptoExit.

Section Select_server.
Context {K : Type} `{HK : !Kernel K} `{HS : !ServerKernel K}.
Context (lfd : Z).
Implicit Types (k : K) (g : globals) (st : server).

(** ** The invariant *)

(** The table holds the connections, each once. *)
Record table_ok (cs : gset Z) (cl : list Z) : Prop := {
  tab_length : Z.of_nat (length cl) = FD_SETSIZE;
  tab_range : forall c, c ∈ cl -> c < FD_SETSIZE;
  tab_conns : forall fd, fd ∈ cs <-> 0 <= fd /\ (fd ∈ cl);
  tab_inj : forall i j fd, 0 <= fd -> cl !! i = Some fd -> cl !! j = Some fd -> i = j }.

Record inv k st : Prop := {
  inv_table : table_ok (conns k) (client st);
  inv_listen : 0 <= lfd < FD_SETSIZE /\ (lfd ∉ conns k);
  inv_allset : allset st = {[lfd]} ∪ conns k;
  inv_maxfd : forall fd, fd ∈ allset st -> fd <= maxfd st;
  inv_maxi : forall i fd, client st !! i = Some fd -> 0 <= fd -> Z.of_nat i <= maxi st;
  inv_maxi_range : -1 <= maxi st < FD_SETSIZE;
  inv_buf : Z.of_nat (length (buf st)) = MAXLINE;
  inv_echo : forall fd, fd ∈ conns k -> out k fd ++ inp k fd = whole k fd;
  inv_closed : Forall (fun p => p.1 = p.2) (closed k) }.

Lemma same_refl k : same k k.
Proof. unfold same. done. Qed.
Lemma same_trans k1 k2 k3 : same k1 k2 -> same k2 k3 -> same k1 k3.
Proof.
  intros (A1 & B1 & C1 & D1) (A2 & B2 & C2 & D2). unfold same.
  split_and!; [congruence|congruence| |lia].
  intros fd. destruct (C1 fd) as (? & ? & ?), (C2 fd) as (? & ? & ?). split_and!; congruence.
Qed.
Lemma same_but_refl fd k : same_but fd k k.
Proof. unfold same_but. done. Qed.
Lemma same_but_trans fd k1 k2 k3 : same_but fd k1 k2 -> same_but fd k2 k3 -> same_but fd k1 k3.
Proof.
  intros [A1 B1] [A2 B2]. split; [|lia]. intros fd' Hne.
  destruct (A1 fd' Hne) as (? & ? & ?), (A2 fd' Hne) as (? & ? & ?). split_and!; congruence.
Qed.
Lemma same_same_but fd k k' : same k k' -> same_but fd k k'.
Proof. intros (_ & _ & H & ?). by split. Qed.

Lemma inv_same k k' st : same k k' -> inv k st -> inv k' st.
Proof.
  intros (Ec & Ed & Es & _) [H1 H2 H3 H4 H5 H6 H7 H8 H9].
  constructor; rewrite ?Ec, ?Ed; try done.
  intros fd Hfd. destruct (Es fd) as (-> & -> & ->). auto.
Qed.

Lemma conns_range cs cl fd : table_ok cs cl -> fd ∈ cs -> 0 <= fd < FD_SETSIZE.
Proof.
  intros HT Hfd. apply (tab_conns _ _ HT) in Hfd as [? Hin].
  pose proof (tab_range _ _ HT _ Hin). lia.
Qed.

Lemma FD_ISSET_in fd s : 0 <= fd < FD_SETSIZE -> FD_ISSET fd s = Some (bool_decide (fd ∈ s)).
Proof. intros. unfold FD_ISSET. zbool. Qed.
Lemma FD_SET_in fd s : 0 <= fd < FD_SETSIZE -> FD_SET fd s = Some ({[fd]} ∪ s).
Proof. intros. unfold FD_SET. zbool. Qed.
Lemma FD_CLR_in fd s : 0 <= fd < FD_SETSIZE -> FD_CLR fd s = Some (s ∖ {[fd]}).
Proof. intros. unfold FD_CLR. zbool. Qed.

(** ** The table *)

(** The search for a free entry. *)
Lemma save_client_spec cl connfd n i :
  (i + n = length cl)%nat ->
  (exists j c, (i <= j)%nat /\ cl !! j = Some c /\ c < 0 /\
     save_client n (Z.of_nat i) cl connfd = Some (Z.of_nat j, <[j := connfd]> cl)) \/
  (forall j c, (i <= j)%nat -> cl !! j = Some c -> 0 <= c).
Proof.
  revert i. induction n as [|n IH]; intros i Hik.
  { right. intros j c Hj Hc. apply lookup_lt_Some in Hc. lia. }
  destruct (lookup_lt_is_Some_2 cl i) as [c Hc]; [lia|].
  cbn [save_client]. rewrite (aread_nat _ _ _ Hc). simpl.
  destruct (Z.ltb_spec c 0) as [Hneg|Hpos].
  - left. exists i, c. rewrite awrite_nat by lia. done.
  - destruct (IH (S i)) as [(j & c' & Hj & Hc' & Hn & E)|Hall]; [lia| |].
    + left. exists j, c'. split; [lia|]. split; [done|]. split; [done|].
      by replace (Z.of_nat i + 1) with (Z.of_nat (S i)) by lia.
    + right. intros j c' Hj Hc'. destruct (decide (j = i)) as [->|]; [congruence|].
      eapply (Hall j); [lia|done].
Qed.

(** The table has room: its descriptors and the listening one are different
    numbers below FD_SETSIZE. *)
Lemma table_has_room cs cl :
  table_ok cs cl -> 0 <= lfd < FD_SETSIZE -> lfd ∉ cs ->
  ~ (forall j c, (0 <= j)%nat -> cl !! j = Some c -> 0 <= c).
Proof.
  intros HT Hl Hn Hall.
  assert (NoDup (lfd :: cl)) as Hd.
  { apply NoDup_cons. split.
    - intros Hin. apply Hn, (tab_conns _ _ HT). split; [lia|done].
    - apply NoDup_alt. intros i j x Hi Hj. eapply (tab_inj _ _ HT); [|done..].
      eapply (Hall i); [lia|done]. }
  assert (lfd :: cl ⊆+ seqZ 0 FD_SETSIZE) as Hs.
  { apply NoDup_submseteq; [done|]. intros x [->|Hx]%elem_of_cons; apply elem_of_seqZ; [lia|].
    pose proof (tab_range _ _ HT x Hx). apply list_elem_of_lookup in Hx as [j Hj].
    pose proof (Hall j x ltac:(lia) Hj). lia. }
  apply submseteq_length in Hs. rewrite length_seqZ in Hs. simpl in Hs.
  pose proof (tab_length _ _ HT). lia.
Qed.

Lemma table_insert cs cl j c fd :
  table_ok cs cl -> cl !! j = Some c -> c < 0 -> 0 <= fd < FD_SETSIZE -> fd ∉ cs ->
  table_ok ({[fd]} ∪ cs) (<[j := fd]> cl).
Proof.
  intros HT Hj Hc Hfd Hn. pose proof (lookup_lt_Some _ _ _ Hj) as Hlt.
  assert (fd ∉ cl) as Hncl by (intros Hin; apply Hn, (tab_conns _ _ HT); split; [lia|done]).
  constructor.
  - rewrite length_insert. apply (tab_length _ _ HT).
  - intros x Hx. apply list_elem_of_lookup in Hx as [i Hi].
    apply list_lookup_insert_Some in Hi as [(-> & -> & _)|[_ Hi]]; [lia|].
    apply (tab_range _ _ HT). by eapply list_elem_of_lookup_2.
  - intros x. rewrite elem_of_union, elem_of_singleton, (tab_conns _ _ HT).
    split.
    + intros [->|[Hx Hin]].
      * split; [lia|]. eapply list_elem_of_lookup_2. by apply list_lookup_insert_eq.
      * split; [done|]. apply list_elem_of_lookup in Hin as [i Hi].
        eapply (list_elem_of_lookup_2 _ i). rewrite list_lookup_insert_ne; [done|].
        intros ->. assert (x = c) by congruence. lia.
    + intros [Hx Hin]. apply list_elem_of_lookup in Hin as [i Hi].
      apply list_lookup_insert_Some in Hi as [(-> & <- & _)|[_ Hi]]; [by left|].
      right. split; [done|]. by eapply list_elem_of_lookup_2.
  - intros i1 i2 x Hx H1 H2.
    apply list_lookup_insert_Some in H1 as [(<- & <- & _)|[N1 H1]];
    apply list_lookup_insert_Some in H2 as [(<- & E & _)|[N2 H2]]; try done.
    + by apply list_elem_of_lookup_2 in H2.
    + subst. by apply list_elem_of_lookup_2 in H1.
    + by eapply (tab_inj _ _ HT).
Qed.

Lemma table_remove cs cl j fd :
  table_ok cs cl -> cl !! j = Some fd -> 0 <= fd -> table_ok (cs ∖ {[fd]}) (<[j := -1]> cl).
Proof.
  intros HT Hj Hfd. constructor.
  - rewrite length_insert. apply (tab_length _ _ HT).
  - intros x Hx. apply list_elem_of_lookup in Hx as [i Hi].
    apply list_lookup_insert_Some in Hi as [(_ & <- & _)|[_ Hi]]; [done|].
    apply (tab_range _ _ HT). by eapply list_elem_of_lookup_2.
  - intros x. rewrite elem_of_difference, elem_of_singleton, (tab_conns _ _ HT). split.
    + intros [[Hx Hin] Hne]. split; [done|]. apply list_elem_of_lookup in Hin as [i Hi].
      eapply (list_elem_of_lookup_2 _ i). rewrite list_lookup_insert_ne; [done|].
      intros ->. congruence.
    + intros [Hx Hin]. apply list_elem_of_lookup in Hin as [i Hi].
      apply list_lookup_insert_Some in Hi as [(_ & E & _)|[N Hi]]; [lia|].
      split; [split; [done|by eapply list_elem_of_lookup_2]|].
      intros ->. apply N. by eapply (tab_inj _ _ HT).
  - intros i1 i2 x Hx H1 H2.
    apply list_lookup_insert_Some in H1 as [(_ & E & _)|[N1 H1]]; [lia|].
    apply list_lookup_insert_Some in H2 as [(_ & E & _)|[N2 H2]]; [lia|].
    by eapply (tab_inj _ _ HT).
Qed.

(** ** The operations *)

(** [bs] was sent on [fd]. *)
Definition echoed (fd : Z) (bs : list Z) k k' : Prop :=
  out k' fd = out k fd ++ bs /\ inp k' fd = inp k fd /\ whole k' fd = whole k fd /\
  conns k' = conns k /\ closed k' = closed k /\ same_but fd k k'.

Lemma same_echoed fd bs k1 k2 k3 : same k1 k2 -> echoed fd bs k2 k3 -> echoed fd bs k1 k3.
Proof.
  intros Hs (E1 & E2 & E3 & E4 & E5 & E6). pose proof Hs as (Ec & Ed & Es & _).
  destruct (Es fd) as (F1 & F2 & F3). unfold echoed. split_and!; try congruence.
  eapply same_but_trans; [by apply same_same_but|done].
Qed.

Lemma writen_loop_echoes fd fuel v n : forall k g ptr nleft bs,
  fd ∈ conns k -> daemon_proc g = 0 -> 0 <= nleft -> asub v ptr nleft = Some bs ->
  (Z.to_nat nleft + patience k <= fuel)%nat ->
  upto_exit (fun r k' => r = -1 \/ r = n /\ echoed fd bs k k')
    (run (writen_loop fuel fd v ptr nleft n) g k).
Proof.
  induction fuel as [|f IH]; intros k g ptr nleft bs Hfd Hd Hn Hbs Hf; cbn [writen_loop];
    pose proof (asub_length _ _ _ _ Hbs) as Hlen.
  1: replace nleft with 0 in * by lia.
  2: destruct (Z.ltb_spec 0 nleft) as [Hl|Hl]; [|replace nleft with 0 in * by lia].
  1, 3: apply upto_ret; [done|]; right; split; [done|];
    assert (bs = []) as -> by (destruct bs; [done|simpl in Hlen; lia]);
    unfold echoed; rewrite app_nil_r; split_and!; try done; apply same_but_refl.
  eapply upto_mem; [done|].
  assert (bs <> []) as Hne by (intros ->; simpl in Hlen; lia).
  rewrite run_bind, run_call. pose proof (srv_write k fd bs Hne Hfd) as HW.
  destruct (kcall (Ewrite fd bs) k) as [[m|e] k1]; cbn beta iota.
  - destruct HW as (Hm & Ho & Hi & Hw & Hcs & Hcl & Hsb).
    destruct (Z.leb_spec m 0) as [|Hm0]; [by apply upto_ret; [|left]|].
    pose proof (proj2 Hsb) as Hpat.
    eapply upto_mono; [eapply (IH k1 g (ptr + m) (nleft - m)); [by rewrite Hcs|done|lia| |lia]|].
    { apply asub_drop; [done|lia]. }
    intros r k' [->|[-> (E1 & E2 & E3 & E4 & E5 & E6)]]; [by left|right]. split; [done|].
    unfold echoed. split_and!; try congruence; [|by eapply same_but_trans].
    rewrite E1, Ho, <- app_assoc. f_equal. apply take_drop.
  - destruct HW as [Hsame Hpat]. rewrite run_bind, run_get_errno. cbn beta iota. cbn [errno set_errno].
    destruct (Z.eqb_spec e EINTR) as [->|]; [|by apply upto_ret; [|left]].
    specialize (Hpat eq_refl).
    eapply upto_mono; [eapply (IH k1 (set_errno EINTR g) ptr nleft bs); [|done|done|done|lia]|].
    { by rewrite (proj1 Hsame). }
    intros r k' [->|[-> HE]]; [by left|right]. split; [done|]. by eapply same_echoed.
Qed.

Context (fuel : nat).
(** The fuel covers a full buffer and every interruption still to come. *)
Definition good k st : Prop := inv k st /\ (Z.to_nat MAXLINE + patience k <= fuel)%nat.

Lemma Writen_echoes fd v n k g :
  fd ∈ conns k -> daemon_proc g = 0 -> 0 <= n <= MAXLINE -> n <= Z.of_nat (length v) ->
  (Z.to_nat MAXLINE + patience k <= fuel)%nat ->
  upto_exit (fun _ k' => echoed fd (take (Z.to_nat n) v) k k') (run (Writen fuel fd v n) g k).
Proof.
  intros Hfd Hd Hn Hv Hf. unfold Writen, writen. eapply upto_bind.
  - eapply writen_loop_echoes; [done|done|lia|apply asub_take; lia|unfold MAXLINE in *; lia].
  - intros r g' k' [->|[-> HE]] Hd'; cbn beta.
    + destruct (Z.eqb_spec (-1) n); [lia|]. by apply upto_err_sys.
    + by rewrite Z.eqb_refl.
Qed.

Lemma Accept_conn f k g :
  daemon_proc g = 0 -> (patience k < f)%nat ->
  upto_exit (fun a k' => let fd := a.1 in
      0 <= fd < FD_SETSIZE /\ fd <> lfd /\ (fd ∉ conns k) /\ conns k' = {[fd]} ∪ conns k /\
      inp k' fd = whole k' fd /\ out k' fd = [] /\ closed k' = closed k /\ same_but fd k k')
    (run (Accept f lfd) g k).
Proof.
  revert k g. induction f as [|f IH]; intros k g Hd Hf; [lia|]. cbn [Accept].
  rewrite run_bind, run_call. pose proof (srv_accept k lfd) as HA.
  destruct (kcall (Eaccept lfd) k) as [[[fd x]|e] k1]; cbn beta iota; [by apply upto_ret|].
  destruct HA as [Hsame Hpat]. pose proof Hsame as (Ec & Ecl & Es & Hp).
  rewrite run_bind, run_get_errno. cbn beta iota. cbn [errno set_errno].
  destruct (_ || _) eqn:Ee; [|by apply upto_err_sys].
  assert (patience k1 < patience k)%nat as Hlt.
  { apply Hpat. apply orb_prop in Ee as [->%Z.eqb_eq| ->%Z.eqb_eq]; auto. }
  eapply upto_mono; [apply (IH k1); [done|lia]|].
  intros [fd y] k'. cbn. intros (H1 & H2 & H3 & H4 & H5 & H6 & H7 & H8).
  rewrite Ec in H3, H4. split_and!; try done; try lia; try congruence.
  eapply same_but_trans; [by apply same_same_but|done].
Qed.

Lemma new_client_spec k g st :
  daemon_proc g = 0 -> good k st ->
  upto_exit (fun st' k' => good k' st' /\ (conns k ⊆ conns k'))
    (run (new_client fuel lfd st) g k).
Proof.
  intros Hd [[H1 H2 H3 H4 H5 H6 H7 H8 H9] Hf]. unfold new_client. eapply upto_bind.
  { apply Accept_conn; [done|]. unfold MAXLINE in Hf. lia. }
  intros [fd x] g1 k1 (R & Hne & Hnc & Hcs & Hin & Hout & Hcl & Hsb) Hd1. cbn in R, Hne, Hnc, Hcs, Hin, Hout, Hcl, Hsb.
  pose proof (tab_length _ _ H1) as Htl.
  destruct (save_client_spec (client st) fd (Z.to_nat FD_SETSIZE) 0) as [(j & c & _ & Hj & Hc & E)|Hall]; [lia| |].
  2:{ exfalso. by apply (table_has_room _ _ H1 (proj1 H2) (proj2 H2)). }
  eapply upto_mem; [exact E|]. cbn beta iota.
  pose proof (lookup_lt_Some _ _ _ Hj) as Hjlt.
  destruct (Z.eqb_spec (Z.of_nat j) FD_SETSIZE); [lia|].
  eapply upto_mem; [by apply FD_SET_in|]. apply upto_ret; [done|]. split.
  2:{ rewrite Hcs. apply union_subseteq_r. }
  destruct Hsb as [Hsb Hpat]. split; [|lia]. constructor; cbn [client maxi maxfd allset buf].
  - rewrite Hcs. by eapply table_insert.
  - split; [tauto|]. rewrite Hcs, not_elem_of_union, not_elem_of_singleton. by split; [|apply H2].
  - by rewrite Hcs, H3, !(assoc_L (∪)), (comm_L (∪) {[fd]}).
  - intros fd' [->%elem_of_singleton|Hin']%elem_of_union.
    + destruct (Z.ltb_spec (maxfd st) fd); lia.
    + pose proof (H4 _ Hin'). destruct (Z.ltb_spec (maxfd st) fd); lia.
  - intros i fd' Hi Hfd'. apply list_lookup_insert_Some in Hi as [(<- & _ & _)|[_ Hi]].
    + destruct (Z.ltb_spec (maxi st) (Z.of_nat j)); lia.
    + pose proof (H5 _ _ Hi Hfd'). destruct (Z.ltb_spec (maxi st) (Z.of_nat j)); lia.
  - destruct (Z.ltb_spec (maxi st) (Z.of_nat j)); lia.
  - done.
  - intros fd' Hin'. rewrite Hcs in Hin'. destruct (decide (fd' = fd)) as [->|Hn].
    + by rewrite Hout, Hin.
    + destruct (Hsb fd' Hn) as (-> & -> & ->). apply H8.
      by apply elem_of_union in Hin' as [?%elem_of_singleton|].
  - by rewrite Hcl.
Qed.

(** Reading and echoing leave the invariant when the table and set stay. *)
Lemma good_echoed k k' st b fd :
  good k st -> fd ∈ conns k -> Z.of_nat (length b) = MAXLINE ->
  conns k' = conns k -> closed k' = closed k -> out k' fd ++ inp k' fd = whole k' fd ->
  same_but fd k k' ->
  good k' (Server (client st) (maxi st) (maxfd st) (allset st) b).
Proof.
  intros [[H1 H2 H3 H4 H5 H6 H7 H8 H9] Hf] Hfd Hb Hcs Hcl Hecho [Hsb Hpat].
  split; [|lia]. constructor; cbn [client maxi maxfd allset buf]; rewrite ?Hcs, ?Hcl; try done.
  intros fd' Hin. destruct (decide (fd' = fd)) as [->|Hne]; [done|].
  destruct (Hsb fd' Hne) as (-> & -> & ->). auto.
Qed.

(** Closing a connection whose stream was echoed to its end. *)
Lemma good_closed k k' st b fd i :
  good k st -> client st !! i = Some fd -> 0 <= fd -> Z.of_nat (length b) = MAXLINE ->
  conns k' = conns k ∖ {[fd]} -> closed k' = closed k ++ [(out k fd, out k fd)] ->
  same_but fd k k' ->
  good k' (Server (<[i := -1]> (client st)) (maxi st) (maxfd st) (allset st ∖ {[fd]}) b).
Proof.
  intros [[H1 H2 H3 H4 H5 H6 H7 H8 H9] Hf] Hi Hfd Hb Hcs Hcl [Hst Hpat]. split; [|lia].
  assert (fd ∈ conns k) as Hc.
  { apply (tab_conns _ _ H1). split; [done|]. by eapply list_elem_of_lookup_2. }
  constructor; cbn [client maxi maxfd allset buf]; rewrite ?Hcs; try done.
  - by apply table_remove.
  - split; [tauto|]. rewrite not_elem_of_difference. left. apply H2.
  - rewrite H3, difference_union_distr_l_L. f_equal. apply difference_disjoint_L.
    apply disjoint_singleton_l, not_elem_of_singleton. intros ->. by apply H2.
  - intros x [Hx _]%elem_of_difference. auto.
  - intros j x Hj Hx. apply list_lookup_insert_Some in Hj as [(_ & ? & _)|[_ Hj]]; [lia|eauto].
  - intros x [Hx Hne]%elem_of_difference. rewrite not_elem_of_singleton in Hne.
    destruct (Hst x Hne) as (-> & -> & ->). auto.
  - rewrite Hcl. apply Forall_app. split; [done|]. by constructor.
Qed.

Lemma serve_client_spec k g st i fd :
  daemon_proc g = 0 -> good k st -> client st !! i = Some fd -> 0 <= fd ->
  upto_exit (fun st' k' => good k' st' /\ maxi st' = maxi st)
    (run (serve_client fuel (Z.of_nat i) fd st) g k).
Proof.
  intros Hd HG Hi Hfd. pose proof HG as [HI Hf].
  pose proof HI as [H1 H2 H3 H4 H5 H6 H7 H8 H9].
  assert (fd ∈ conns k) as Hc.
  { apply (tab_conns _ _ H1). split; [done|]. by eapply list_elem_of_lookup_2. }
  pose proof (conns_range _ _ _ H1 Hc) as Hr.
  unfold serve_client. eapply upto_bind.
  { apply (upto_checked _ (fun bs k' => kcall (Eread fd MAXLINE) k = (Ok bs, k'))); done. }
  intros bs g1 k1 E Hd1.
  pose proof (srv_read k fd MAXLINE ltac:(done) Hc) as HR. rewrite E in HR.
  destruct HR as (Hlen & Hin & Heof & Hout & Hw & Hcs & Hcl & Hsb).
  pose proof (memcpy_is_Some (buf st) bs 0 ltac:(done) ltac:(lia)) as Hm.
  change (Z.to_nat 0) with 0%nat in Hm. rewrite take_0, Nat.add_0_l in Hm. simpl app in Hm.
  set (b1 := bs ++ drop (length bs) (buf st)) in *.
  assert (Z.of_nat (length b1) = MAXLINE) as Hb1.
  { unfold b1. rewrite length_app, length_drop. lia. }
  eapply upto_mem; [exact Hm|]. cbn beta zeta.
  destruct (Z.eqb_spec (Z.of_nat (length bs)) 0) as [E0|E0].
  - assert (bs = []) as -> by (destruct bs; [done|simpl in E0; lia]).
    eapply upto_bind.
    { apply (upto_checked_ _ (fun _ k' => exists v, kcall (Eclose fd) k1 = (Ok v, k'))); eauto. }
    intros _ g2 k2 [v Ecl] Hd2. pose proof (srv_close k1 fd ltac:(by rewrite Hcs)) as HC.
    rewrite Ecl in HC. destruct HC as (Hcs2 & Hcl2 & Hsb2).
    eapply upto_mem; [by apply FD_CLR_in|].
    eapply upto_mem; [apply awrite_nat; by eapply lookup_lt_Some|].
    apply upto_ret; [done|]. split; [|done].
    eapply good_closed; [done..|congruence| |by eapply same_but_trans].
    rewrite Hcl2, Hcl, Hw, Hout, <- (H8 fd Hc), (Heof eq_refl). by rewrite app_nil_r.
  - eapply upto_bind.
    { apply Writen_echoes; [by rewrite Hcs|done|lia|lia|destruct Hsb; lia]. }
    intros _ g2 k2 (F1 & F2 & F3 & F4 & F5 & F6) Hd2. apply upto_ret; [done|]. split; [|done].
    eapply good_echoed; [done|done|done|congruence|congruence| |by eapply same_but_trans].
    rewrite F1, F2, F3, Hout, Hw, <- (H8 fd Hc), Hin, <- app_assoc. f_equal. f_equal.
    rewrite Nat2Z.id. unfold b1. apply take_app_length.
Qed.

Lemma check_clients_spec n rset : forall i nready k g st,
  daemon_proc g = 0 -> good k st -> Z.of_nat (i + n) <= maxi st + 1 ->
  upto_exit (fun st' k' => good k' st' /\ maxi st' = maxi st)
    (run (check_clients fuel n (Z.of_nat i) rset nready st) g k).
Proof.
  induction n as [|n IH]; intros i nready k g st Hd HG Hn; [by apply upto_ret|].
  cbn [check_clients]. pose proof HG as [HI _].
  pose proof (tab_length _ _ (inv_table _ _ HI)) as Hlen.
  pose proof (inv_maxi_range _ _ HI).
  destruct (lookup_lt_is_Some_2 (client st) i) as [fd Hfd]; [lia|].
  replace (Z.of_nat i + 1) with (Z.of_nat (S i)) by lia.
  eapply upto_mem; [by apply aread_nat|]. destruct (Z.ltb_spec fd 0) as [|Hpos]; [apply IH; [done|done|lia]|].
  eapply upto_mem.
  { apply FD_ISSET_in. split; [done|]. eapply (tab_range _ _ (inv_table _ _ HI)).
    by eapply list_elem_of_lookup_2. }
  destruct (bool_decide _); [|apply IH; [done|done|lia]].
  eapply upto_bind; [by apply serve_client_spec|].
  intros st1 g1 k1 [HG1 Hm1] Hd1. destruct (nready - 1 <=? 0); [by apply upto_ret|].
  eapply upto_mono; [apply IH; [done|done|lia]|]. cbn. intros st2 k2 []. split; [done|congruence].
Qed.

Lemma server_turn_spec k g st :
  daemon_proc g = 0 -> good k st ->
  upto_exit (fun st' k' => good k' st') (run (server_turn fuel lfd st) g k).
Proof.
  intros Hd HG. unfold server_turn. eapply upto_bind.
  { apply (upto_checked _ (fun v k' => kcall (Eselect (maxfd st + 1) (allset st) ∅ ∅ None) k = (Ok v, k')));
      done. }
  intros [m [[r w] x]] g1 k1 E Hd1. pose proof (srv_select k (maxfd st + 1) (allset st)) as HSel.
  rewrite E in HSel. destruct HSel as (Hr & Hm & Hsame).
  assert (good k1 st) as HG1.
  { destruct HG as [HI Hf]. split; [by eapply inv_same|]. destruct Hsame as (_ & _ & _ & ?). lia. }
  pose proof HG1 as [HI1 _]. pose proof (inv_maxi_range _ _ HI1) as Hmr.
  eapply upto_mem; [apply FD_ISSET_in; apply (inv_listen _ _ HI1)|]. cbn beta iota.
  destruct (bool_decide _).
  - eapply upto_bind; [by apply new_client_spec|]. intros st1 g2 k2 [HG2 _] Hd2.
    pose proof HG2 as [HI2 _]. pose proof (inv_maxi_range _ _ HI2).
    destruct (m - 1 <=? 0); [by apply upto_ret|].
    eapply upto_mono; [apply (check_clients_spec _ _ 0); [done|done|lia]|]. by intros ? ? [].
  - eapply upto_mono; [apply (check_clients_spec _ _ 0); [done|done|lia]|]. by intros ? ? [].
Qed.

Lemma server_loop_spec turns : forall k g st,
  daemon_proc g = 0 -> good k st ->
  upto_exit (fun st' k' => good k' st') (run (server_loop fuel turns lfd st) g k).
Proof.
  induction turns as [|t IH]; intros k g st Hd HG; [by apply upto_ret|]. cbn [server_loop].
  eapply upto_bind; [by apply server_turn_spec|]. auto.
Qed.

(** ** Counting the ready descriptors

    The loop without the early exits: it visits every entry up to maxi. *)
Fixpoint check_all (n : nat) (i : Z) (rset : fd_set) (st : server) : prog server :=
  match n with
  | O => Ret st
  | S n' =>
      sockfd ← mem (aread (client st) i);
      if sockfd <? 0 then check_all n' (i + 1) rset st
      else
        set ← mem (FD_ISSET sockfd rset);
        if (set : bool) then st1 ← serve_client fuel i sockfd st; check_all n' (i + 1) rset st1
        else check_all n' (i + 1) rset st
  end.

Definition turn_all (st : server) : prog server :=
  '(nready, (rset, _, _)) ← Select (maxfd st + 1) (allset st) ∅ ∅ None;
  set ← mem (FD_ISSET lfd rset);
  st1 ← (if (set : bool) then new_client fuel lfd st else Ret st);
  check_all (Z.to_nat (maxi st1 + 1)) 0 rset st1.

(** The entries of a table that are ready. *)
Definition ready (rset : fd_set) (cl : list Z) : list Z := filter (fun c => 0 <= c /\ c ∈ rset) cl.

Lemma NoDup_filter_inj (P : Z -> Prop) `{!forall x, Decision (P x)} (l : list Z) :
  (forall i j x, P x -> l !! i = Some x -> l !! j = Some x -> i = j) -> NoDup (filter P l).
Proof.
  induction l as [|x l IH]; intros Hinj; [apply NoDup_nil_2|].
  assert (NoDup (filter P l)) as Hd.
  { apply IH. intros i j y Hy Hi Hj. pose proof (Hinj (S i) (S j) y Hy Hi Hj). lia. }
  rewrite filter_cons. destruct (decide (P x)) as [Hx|Hx]; [|done].
  apply NoDup_cons. split; [|done]. intros [_ Hin]%list_elem_of_filter.
  apply list_elem_of_lookup in Hin as [j Hj]. by pose proof (Hinj 0%nat (S j) x Hx eq_refl Hj).
Qed.

Lemma ready_size cs cl rset :
  table_ok cs cl -> lfd ∉ cs -> rset ⊆ {[lfd]} ∪ cs ->
  length (ready rset cl) = size (rset ∖ {[lfd]}).
Proof.
  intros HT Hl Hr. unfold ready.
  rewrite <- (size_list_to_set (C := gset Z)).
  2:{ apply NoDup_filter_inj. intros i j x [Hx _]. by apply (tab_inj _ _ HT). }
  f_equal. apply set_eq. intros x.
  rewrite elem_of_list_to_set, list_elem_of_filter, elem_of_difference, elem_of_singleton. split.
  - intros [[Hx Hin] Hcl]. split; [done|]. intros ->. apply Hl, (tab_conns _ _ HT). done.
  - intros [Hin Hne]. apply Hr in Hin as Hin'.
    apply elem_of_union in Hin' as [?%elem_of_singleton|Hc]; [done|].
    apply (tab_conns _ _ HT) in Hc as [? ?]. done.
Qed.

Lemma ready_drop rset cl i c :
  cl !! i = Some c ->
  ready rset (drop i cl) =
    (if decide (0 <= c /\ c ∈ rset) then [c] else []) ++ ready rset (drop (S i) cl).
Proof.
  intros Hc. rewrite (drop_S _ _ _ Hc). unfold ready. rewrite filter_cons. by destruct (decide _).
Qed.

Lemma check_all_idle rset st g k n : forall i,
  (forall c, c ∈ client st -> c < FD_SETSIZE) -> (i + n <= length (client st))%nat ->
  ready rset (drop i (client st)) = [] ->
  run (check_all n (Z.of_nat i) rset st) g k = (Done st, g, k).
Proof.
  induction n as [|n IH]; intros i Hrg Hn Hz; [done|]. cbn [check_all].
  destruct (lookup_lt_is_Some_2 (client st) i) as [c Hc]; [lia|].
  rewrite (ready_drop _ _ _ _ Hc) in Hz. apply app_eq_nil in Hz as [Hd Hz].
  rewrite run_bind, run_mem, (aread_nat _ _ _ Hc). cbn beta iota.
  replace (Z.of_nat i + 1) with (Z.of_nat (S i)) by lia.
  destruct (Z.ltb_spec c 0) as [|Hpos]; [apply IH; [done|lia|done]|].
  rewrite run_bind, run_mem, FD_ISSET_in; [cbn beta iota|split; [done|]].
  2:{ eapply Hrg. by eapply list_elem_of_lookup_2. }
  destruct (decide _) as [|Hnr] in Hd; [done|].
  rewrite bool_decide_false by tauto. apply IH; [done|lia|done].
Qed.

(** What serving a client does to the table, on any system. *)
Lemma serve_client_table k g st i fd st' g' k' :
  run (serve_client fuel i fd st) g k = (Done st', g', k') ->
  client st' = client st \/ awrite (client st) i (-1) = Some (client st').
Proof.
  unfold serve_client. rewrite run_bind.
  destruct (run (Read fd MAXLINE) g k) as [[[bs|h] g1] k1]; [|done].
  rewrite run_bind, run_mem. destruct (memcpy _ _ _) as [b1|]; [|done].
  cbn beta iota zeta. destruct (_ =? 0); rewrite run_bind.
  - destruct (run (Close fd) g1 k1) as [[[u|h] g2] k2]; [|done].
    rewrite run_bind, run_mem. destruct (FD_CLR _ _); [|done].
    rewrite run_bind, run_mem. destruct (awrite _ _ _) as [cl|] eqn:E; [|done].
    cbn. intros [= <- _ _]. by right.
  - destruct (run (Writen _ _ _ _) g1 k1) as [[[u|h] g2] k2]; [|done].
    cbn. intros [= <- _ _]. by left.
Qed.

Lemma check_clients_all rset n : forall i nready k g st,
  daemon_proc g = 0 -> good k st -> Z.of_nat (i + n) <= maxi st + 1 ->
  nready = Z.of_nat (length (ready rset (drop i (client st)))) ->
  run (check_clients fuel n (Z.of_nat i) rset nready st) g k =
  run (check_all n (Z.of_nat i) rset st) g k.
Proof.
  induction n as [|n IH]; intros i nready k g st Hd HG Hn Hnr; [done|].
  cbn [check_clients check_all]. pose proof HG as [HI _].
  pose proof (tab_length _ _ (inv_table _ _ HI)) as Hlen.
  pose proof (inv_maxi_range _ _ HI) as Hmr.
  destruct (lookup_lt_is_Some_2 (client st) i) as [fd Hfd]; [lia|].
  replace (Z.of_nat i + 1) with (Z.of_nat (S i)) by lia.
  rewrite !run_bind, !run_mem, (aread_nat _ _ _ Hfd). cbn beta iota.
  rewrite (ready_drop _ _ _ _ Hfd), length_app in Hnr.
  assert (fd < FD_SETSIZE) as Hr.
  { eapply (tab_range _ _ (inv_table _ _ HI)). by eapply list_elem_of_lookup_2. }
  destruct (Z.ltb_spec fd 0) as [Hneg|Hpos].
  { rewrite decide_False in Hnr by lia. apply IH; [done|done|lia|done]. }
  rewrite !run_bind, !run_mem, FD_ISSET_in by done. cbn beta iota.
  destruct (decide (fd ∈ rset)) as [Hset|Hset].
  2:{ rewrite bool_decide_false by done. rewrite decide_False in Hnr by tauto.
      apply IH; [done|done|lia|done]. }
  rewrite bool_decide_true by done. rewrite decide_True in Hnr by done. simpl in Hnr.
  rewrite !run_bind. pose proof (serve_client_spec k g st i fd Hd HG Hfd Hpos) as HP.
  destruct (run (serve_client fuel (Z.of_nat i) fd st) g k) as [[[st1|h] g1] k1] eqn:E; [|done].
  destruct HP as [[HG1 Hm1] Hd1]. pose proof HG1 as [HI1 _].
  assert (drop (S i) (client st1) = drop (S i) (client st)) as Hdr.
  { destruct (serve_client_table _ _ _ _ _ _ _ _ E) as [->|Ew]; [done|].
    rewrite awrite_nat in Ew by lia. injection Ew as <-. by rewrite drop_insert_lt by lia. }
  destruct (Z.leb_spec (nready - 1) 0) as [Hle|Hgt].
  - symmetry. apply check_all_idle; [apply (tab_range _ _ (inv_table _ _ HI1))| |].
    + pose proof (tab_length _ _ (inv_table _ _ HI1)). lia.
    + rewrite Hdr. apply length_zero_iff_nil. lia.
  - apply IH; [done|done|lia|]. rewrite Hdr. lia.
Qed.

(** C9. The select server skips no ready client: although it stops looking at the
    table as soon as it has counted as many ready descriptors as select
    reported, a turn does exactly what the turn does that goes through the
    whole table. *)
Theorem server_turn_skips_none k g st :
  daemon_proc g = 0 -> good k st ->
  run (server_turn fuel lfd st) g k = run (turn_all st) g k.
Proof.
  intros Hd HG. unfold server_turn, turn_all. rewrite !run_bind.
  pose proof (upto_checked (Eselect (maxfd st + 1) (allset st) ∅ ∅ None)
    (fun v k' => kcall (Eselect (maxfd st + 1) (allset st) ∅ ∅ None) k = (Ok v, k'))
    (str "select error") g k Hd (fun v k1 H => H)) as HP.
  unfold Select. destruct (run (checked _ _) g k) as [[[[m [[r w] x]]|h] g1] k1]; [|done].
  destruct HP as [E Hd1]. pose proof (srv_select k (maxfd st + 1) (allset st)) as HSel.
  rewrite E in HSel. destruct HSel as (Hr & -> & Hsame).
  assert (good k1 st) as HG1.
  { destruct HG as [HI Hf]. split; [by eapply inv_same|]. destruct Hsame as (_ & _ & _ & ?). lia. }
  pose proof HG1 as [HI1 _]. pose proof (inv_maxi_range _ _ HI1) as Hmr.
  rewrite (inv_allset _ _ HI1) in Hr.
  rewrite !run_bind, !run_mem, FD_ISSET_in by apply (inv_listen _ _ HI1). cbn beta iota.
  destruct (decide (lfd ∈ r)) as [Hl|Hl].
  - rewrite bool_decide_true by done. rewrite !run_bind.
    pose proof (new_client_spec k1 g1 st Hd1 HG1) as HP.
    destruct (run (new_client fuel lfd st) g1 k1) as [[[st2|h] g2] k2]; [|done].
    destruct HP as [[HG2 Hsub] Hd2]. pose proof HG2 as [HI2 _].
    assert (length (ready r (client st2)) = size r - 1)%nat as Hcount.
    { rewrite (ready_size _ _ _ (inv_table _ _ HI2)); [|apply (inv_listen _ _ HI2)|].
      - rewrite size_difference, size_singleton; [done|]. by apply singleton_subseteq_l.
      - set_solver. }
    assert (size r <> 0%nat) as Hnz by (intros Hz%size_empty_inv; apply Hz in Hl; by apply elem_of_empty in Hl).
    destruct (Z.leb_spec (Z.of_nat (size r) - 1) 0).
    + symmetry. apply (check_all_idle r st2 g2 k2 _ 0).
      * apply (tab_range _ _ (inv_table _ _ HI2)).
      * pose proof (tab_length _ _ (inv_table _ _ HI2)). pose proof (inv_maxi_range _ _ HI2). lia.
      * rewrite drop_0. apply length_zero_iff_nil. lia.
    + pose proof (inv_maxi_range _ _ HI2).
      apply (check_clients_all r _ 0); [done|done|lia|]. rewrite drop_0. lia.
  - rewrite bool_decide_false by done. rewrite run_bind, run_ret. cbn beta iota.
    apply (check_clients_all r _ 0); [done|done|lia|].
    rewrite drop_0, (ready_size _ _ _ (inv_table _ _ HI1)) by (done || apply (inv_listen _ _ HI1)).
    f_equal. f_equal. apply set_eq. intros y. rewrite elem_of_difference, elem_of_singleton. naive_solver.
Qed.
End Select_server.

Section Main.
Context {K : Type} `{HK : !Kernel K} `{HS : !ServerKernel K}.
Implicit Types (k : K) (g : globals) (st : server).

Definition init_server (lfd : Z) (b : list Z) : server :=
  Server (replicate (Z.to_nat FD_SETSIZE) (-1)) (-1) lfd {[lfd]} b.

Lemma run_server_init lfd b :
  0 <= lfd < FD_SETSIZE -> server_init lfd b = Some (init_server lfd b).
Proof.
  intros. unfold server_init. rewrite FD_SET_in by done. simpl. by rewrite union_empty_r_L.
Qed.

Lemma init_good lfd fuel k b :
  0 <= lfd < FD_SETSIZE -> conns k = ∅ -> closed k = [] -> Z.of_nat (length b) = MAXLINE ->
  (Z.to_nat MAXLINE + patience k <= fuel)%nat -> good lfd fuel k (init_server lfd b).
Proof.
  intros Hr Ec Ecl Hb Hf. split; [|done].
  constructor; cbn [init_server client maxi maxfd allset buf]; rewrite ?Ec, ?Ecl; try done.
  - constructor; [done|..].
    + by intros c [-> _]%elem_of_replicate.
    + intros fd. split; [by intros ?%elem_of_empty|]. intros [Hx [-> _]%elem_of_replicate]. lia.
    + intros i j fd Hx [-> _]%lookup_replicate. lia.
  - by rewrite union_empty_r_L.
  - by intros fd ->%elem_of_singleton.
  - intros i fd [-> _]%lookup_replicate Hx. lia.
Qed.

End Main.

(** ** A system that keeps the contract

    Clients wait in a queue, each with what it will send. *)
Record hosts := Hosts {
  h_conns : gset Z; h_inp : Z -> list Z; h_out : Z -> list Z; h_whole : Z -> list Z;
  h_closed : list (list Z * list Z); h_queue : list (list Z) }.

Definition upd {A} (f : Z -> A) (i : Z) (v : A) : Z -> A := fun j => if j =? i then v else f j.
Lemma upd_eq {A} (f : Z -> A) i v : upd f i v i = v.
Proof. unfold upd. by rewrite Z.eqb_refl. Qed.
Lemma upd_ne {A} (f : Z -> A) i j v : j <> i -> upd f i v j = f j.
Proof. intros. unfold upd. by destruct (Z.eqb_spec j i). Qed.

Definition hosts_accept (lfd : Z) (k : hosts) : res (Z * (sockaddr * Z)) * hosts :=
  match h_queue k, filter (fun fd => fd <> lfd /\ fd ∉ h_conns k) (seqZ 0 FD_SETSIZE) with
  | w :: q, fd :: _ =>
      (Ok (fd, (SaIn (SockaddrIn 1 INADDR_ANY), 16)),
       Hosts ({[fd]} ∪ h_conns k) (upd (h_inp k) fd w) (upd (h_out k) fd []) (upd (h_whole k) fd w)
         (h_closed k) q)
  | _, _ => (Err EAGAIN, k)
  end.

Definition hosts_select (r : fd_set) (k : hosts) : res (Z * (fd_set * fd_set * fd_set)) * hosts :=
  let r' := r ∩ (h_conns k ∪ match h_queue k with [] => ∅ | _ => {[3]} end) in
  (Ok (Z.of_nat (size r'), (r', ∅, ∅)), k).

#[export] Instance hosts_kernel : Kernel hosts := {|
  kcall X e :=
    match e in sysE X return hosts -> res X * hosts with
    | Esocket _ _ _ => fun k => (if decide (3 ∈ h_conns k) then Err EAGAIN else Ok 3, k)
    | Ebind _ _ _ | Elisten _ _ => fun k => (Ok tt, k)
    | Eaccept lfd => hosts_accept lfd
    | Eselect _ r _ _ _ => hosts_select r
    | Eread fd n => fun k =>
        (Ok (take (Z.to_nat n) (h_inp k fd)),
         Hosts (h_conns k) (upd (h_inp k) fd (drop (Z.to_nat n) (h_inp k fd))) (h_out k) (h_whole k)
           (h_closed k) (h_queue k))
    | Ewrite fd bs => fun k =>
        (Ok (Z.of_nat (length bs)),
         Hosts (h_conns k) (h_inp k) (upd (h_out k) fd (h_out k fd ++ bs)) (h_whole k)
           (h_closed k) (h_queue k))
    | Eclose fd => fun k =>
        (Ok tt, Hosts (h_conns k ∖ {[fd]}) (h_inp k) (h_out k) (h_whole k)
           (h_closed k ++ [(h_whole k fd, h_out k fd)]) (h_queue k))
    | _ => fun k => (Err ENOSYS, k)
    end;
  klib X e k := ((@klib unit (failing_kernel ENOSYS) X e tt).1, k) |}.

#[export] Instance hosts_server : ServerKernel hosts.
Proof.
  refine {| conns := h_conns; inp := h_inp; out := h_out; whole := h_whole; closed := h_closed;
            patience _ := 0%nat |}; try done.
  - intros k f t p. cbn. by destruct (decide (3 ∈ h_conns k)).
  - intros k n r. cbn. split_and!; [|done..]. apply intersection_subseteq_l.
  - intros k lfd. cbn. unfold hosts_accept. destruct (h_queue k) as [|w q]; [naive_solver|].
    destruct (filter _ _) as [|fd l] eqn:E; [naive_solver|]. cbn.
    assert (fd ∈ filter (fun fd => fd <> lfd /\ fd ∉ h_conns k) (seqZ 0 FD_SETSIZE)) as Hin
      by (rewrite E; left).
    apply list_elem_of_filter in Hin as [[] Hs]. apply elem_of_seqZ in Hs.
    rewrite !upd_eq. split_and!; try done; try lia. intros fd' Hne. by rewrite !upd_ne.
  - intros k fd n Hn Hc. cbn. rewrite upd_eq, take_drop. split_and!; try done.
    + rewrite length_take. lia.
    + destruct (h_inp k fd); [done|]. by destruct (Z.to_nat n) eqn:E; [lia|].
    + intros fd' Hne. by rewrite !upd_ne.
  - intros k fd bs Hb Hc. cbn. rewrite upd_eq, Nat2Z.id, firstn_all. split_and!; try done; try lia.
    intros fd' Hne. by rewrite !upd_ne.
Defined.

(** Two clients wait. *)
Definition hosts2 : hosts := Hosts ∅ (fun _ => []) (fun _ => []) (fun _ => []) [] [[104; 105]; [111; 107; 10]].
Definition sbuf : list Z := replicate (Z.to_nat MAXLINE) 0.


Lemma server_turn_skips_none_witness :
  run (server_turn 4096 3 (init_server 3 sbuf)) globals0 hosts2 =
  run (turn_all 3 4096 (init_server 3 sbuf)) globals0 hosts2.
Proof.
  refine (server_turn_skips_none 3 4096 hosts2 globals0 (init_server 3 sbuf) eq_refl _).
  apply init_good; [done|done|done|done|vm_compute; lia].
Defined.
