(* ===== verification/Hoare.v ===== *)
(** * A program logic for [prog]

    [wp E p Q g k]: running [p] from the static variables [g] and the system [k]
    either returns a result that satisfies [Q] or halts as [E] allows.  The
    rules follow the constructors of [prog]; [wp_bind] composes them. *)
From stdpp Require Import base list numbers strings gmap.
From S2P Require Import Prelude InetAddr Sys Error Wrap.

Section Wp.
Context {K : Type} `{HK : !Kernel K} (E : halt -> Prop).
Implicit Types (g : globals) (k : K).

Definition wp {A} (p : prog A) (Q : A -> globals -> K -> Prop) g k : Prop :=
  match run p g k with
  | (Done a, g', k') => Q a g' k'
  | (Halted h, _, _) => E h
  end.

Lemma wp_run {A} (p : prog A) (Q : A -> globals -> K -> Prop) g k :
  wp p Q g k = match run p g k with
               | (Done a, g', k') => Q a g' k'
               | (Halted h, _, _) => E h
               end.
Proof. done. Qed.

Lemma wp_ret {A} (a : A) (Q : A -> globals -> K -> Prop) g k : Q a g k -> wp (Ret a) Q g k.
Proof. done. Qed.

Lemma wp_bind {A B} (p : prog A) (f : A -> prog B) (Q : B -> globals -> K -> Prop) g k :
  wp p (fun a => wp (f a) Q) g k -> wp (p ≫= f) Q g k.
Proof.
  unfold wp. rewrite run_bind. by destruct (run p g k) as [[[a|h] g'] k'].
Qed.

Lemma wp_mono {A} (p : prog A) (P Q : A -> globals -> K -> Prop) g k :
  wp p P g k -> (forall a g' k', P a g' k' -> Q a g' k') -> wp p Q g k.
Proof. unfold wp. destruct (run p g k) as [[[a|h] g'] k']; auto. Qed.

(** Sequencing with an intermediate assertion. *)
Lemma wp_seq {A B} (p : prog A) (f : A -> prog B) (P : A -> globals -> K -> Prop)
    (Q : B -> globals -> K -> Prop) g k :
  wp p P g k -> (forall a g' k', P a g' k' -> wp (f a) Q g' k') -> wp (p ≫= f) Q g k.
Proof. intros Hp Hf. apply wp_bind. eapply wp_mono; eauto. Qed.

(** A call that succeeds leaves errno alone, one that fails sets it. *)
Lemma wp_call {X} (e : sysE X) (Q : res X -> globals -> K -> Prop) g k :
  (forall v k', kcall e k = (Ok v, k') -> Q (Ok v) g k') ->
  (forall n k', kcall e k = (Err n, k') -> Q (Err n) (set_errno n g) k') ->
  wp (call e) Q g k.
Proof.
  intros HO HE. unfold wp. rewrite run_call. destruct (kcall e k) as [[v|n] k']; eauto.
Qed.

Lemma wp_call_ {X} (e : sysE X) (Q : unit -> globals -> K -> Prop) g k :
  (forall r k', kcall e k = (r, k') ->
     Q tt (match r with Ok _ => g | Err n => set_errno n g end) k') ->
  wp (call_ e) Q g k.
Proof. intros H. unfold wp. rewrite run_call_. destruct (kcall e k) as [r k']. by apply H. Qed.

Lemma wp_lib {X} (e : libE X) (Q : X -> globals -> K -> Prop) g k :
  (forall v k', klib e k = (v, k') -> Q v g k') -> wp (lib e) Q g k.
Proof. intros H. unfold wp. rewrite run_lib. destruct (klib e k) as [v k']. by apply H. Qed.

Lemma wp_mem {A} (o : option A) a (Q : A -> globals -> K -> Prop) g k :
  o = Some a -> Q a g k -> wp (mem o) Q g k.
Proof. intros -> HQ. unfold wp. by rewrite run_mem. Qed.

Lemma wp_put_errno e (Q : unit -> globals -> K -> Prop) g k :
  Q tt (set_errno e g) k -> wp (put_errno e) Q g k.
Proof. unfold wp. by rewrite run_put_errno. Qed.
Lemma wp_get_errno (Q : Z -> globals -> K -> Prop) g k :
  Q (errno g) g k -> wp get_errno Q g k.
Proof. unfold wp. by rewrite run_get_errno. Qed.

Lemma wp_halt {A} h (Q : A -> globals -> K -> Prop) g k : E h -> wp (Halt h) Q g k.
Proof. done. Qed.

(** The functions that end the process. *)
Lemma wp_err_sys {A} msg (Q : A -> globals -> K -> Prop) g k :
  daemon_proc g = 0 -> E (Exit 1) -> wp (err_sys msg) Q g k.
Proof.
  intros Hd HE. unfold wp.
  by destruct (run_err_sys (A := A) msg g k) as (h & g' & k' & -> & [->|[]]).
Qed.
Lemma wp_err_quit {A} msg (Q : A -> globals -> K -> Prop) g k :
  daemon_proc g = 0 -> E (Exit 1) -> wp (err_quit msg) Q g k.
Proof.
  intros Hd HE. unfold wp.
  by destruct (run_err_quit (A := A) msg g k) as (h & g' & k' & -> & [->|[]]).
Qed.

(** The process ends only when the call has failed. *)
Lemma wp_checked_or {X} (e : sysE X) (Q : X -> globals -> K -> Prop) msg g k :
  daemon_proc g = 0 -> (forall n k', kcall e k = (Err n, k') -> E (Exit 1)) ->
  (forall v k', kcall e k = (Ok v, k') -> Q v g k') -> wp (checked e msg) Q g k.
Proof.
  intros Hd HE HQ. unfold checked. apply wp_bind, wp_call; intros v k' Hk.
  - by apply HQ.
  - apply wp_err_sys; [done|by eapply HE].
Qed.
Lemma wp_checked {X} (e : sysE X) (Q : X -> globals -> K -> Prop) msg g k :
  daemon_proc g = 0 -> E (Exit 1) ->
  (forall v k', kcall e k = (Ok v, k') -> Q v g k') -> wp (checked e msg) Q g k.
Proof.
  intros Hd HE HQ. unfold checked. apply wp_bind, wp_call; intros v k' Hk.
  - by apply HQ.
  - by apply wp_err_sys.
Qed.
Lemma wp_checked_ {X} (e : sysE X) (Q : unit -> globals -> K -> Prop) msg g k :
  daemon_proc g = 0 -> E (Exit 1) ->
  (forall v k', kcall e k = (Ok v, k') -> Q tt g k') -> wp (checked_ e msg) Q g k.
Proof.
  intros Hd HE HQ. unfold checked_. apply wp_bind, wp_call; intros v k' Hk.
  - by eapply HQ.
  - by apply wp_err_sys.
Qed.
End Wp.
#[global] Opaque wp.

(** One step of a program: sequencing first, then the rule of its head. *)
Ltac wp_step :=
  lazymatch goal with
  | |- wp _ (_ ≫= _) _ _ _ => apply wp_bind; wp_step
  | |- wp _ (Ret _) _ _ _ => apply wp_ret
  | |- wp _ (mret _) _ _ _ => apply wp_ret
  | |- wp _ (call _) _ _ _ => apply wp_call; intros ? ? ?
  | |- wp _ (call_ _) _ _ _ => apply wp_call_; intros ? ? ?
  | |- wp _ (lib _) _ _ _ => apply wp_lib; intros ? ? ?
  | |- wp _ (mem _) _ _ _ => eapply wp_mem
  | |- wp _ get_errno _ _ _ => apply wp_get_errno
  | |- wp _ (put_errno _) _ _ _ => apply wp_put_errno
  | |- _ => idtac
  end.
