(* ===== verification/Heap.v ===== *)
(** * Allocated memory

    The contract of the allocator ([HeapKernel]) and what a program owns: the
    blocks that are allocated besides those of its caller.  The rules of the
    logic for malloc, calloc, strdup and free change that list. *)
From stdpp Require Import base list numbers strings sets gmap.
From S2P Require Import Prelude Sys Error Wrap Hoare.

(** The library calls that do not free memory. *)
Definition no_free {X} (e : libE X) : bool := match e with Efree _ => false | _ => true end.

(** What an allocation does to the set of live blocks. *)
Definition allocates (L L' : gset Z) (r : res Z) : Prop :=
  match r with Ok p => (p ∉ L) /\ L' = {[p]} ∪ L | Err _ => L' = L end.

Class HeapKernel (K : Type) `{!Kernel K} := {
  live : K -> gset Z;
  hk_calloc : forall k n s, allocates (live k) (live (kcall (Ecalloc n s) k).2) (kcall (Ecalloc n s) k).1;
  hk_malloc : forall k s, allocates (live k) (live (kcall (Emalloc s) k).2) (kcall (Emalloc s) k).1;
  hk_strdup : forall k s, allocates (live k) (live (kcall (Estrdup s) k).2) (kcall (Estrdup s) k).1;
  (** only a live block may be freed *)
  hk_free : forall k p, p ∈ live k -> live (klib (Efree p) k).2 = live k ∖ {[p]};
  hk_lib : forall X (e : libE X) k, no_free e = true -> live (klib e k).2 = live k }.

Definition opt_block {A} (b : option (Z * A)) : list Z := match b with Some (p, _) => [p] | None => [] end.

Section Owns.
Context {K : Type} `{HK : !Kernel K} `{HH : !HeapKernel K}.
Context (L : gset Z) {Hl : halt -> Prop}.
Implicit Types (k : K) (g : globals).

(** The live blocks are [L] and, besides, [bs]. *)
Definition owns (bs : list Z) k : Prop :=
  NoDup bs /\ (forall p, p ∈ bs -> p ∉ L) /\ live k = L ∪ list_to_set bs.

Lemma owns_perm bs bs' k : bs ≡ₚ bs' -> owns bs k -> owns bs' k.
Proof.
  intros Hp (Hd & Hn & Hlv). split; [by rewrite <- Hp|]. split.
  - intros p Hin. apply Hn. by rewrite Hp.
  - rewrite Hlv. apply set_eq. intros x. by rewrite !elem_of_union, !elem_of_list_to_set, Hp.
Qed.

Lemma owns_same bs k k' : live k' = live k -> owns bs k -> owns bs k'.
Proof. intros E (Hd & Hn & Hlv). split_and!; [done|done|congruence]. Qed.

Lemma owns_alloc bs k k' r p :
  allocates (live k) (live k') r -> r = Ok p -> owns bs k -> owns (p :: bs) k'.
Proof.
  intros Ha -> (Hd & Hn & Hlv). simpl in Ha. destruct Ha as [Hp Ha]. rewrite Hlv in Hp, Ha.
  apply not_elem_of_union in Hp as [Hp1 Hp2]. rewrite elem_of_list_to_set in Hp2. split; [by apply NoDup_cons|].
  split; [by intros q [->|?]%elem_of_cons; auto|]. rewrite Ha. simpl.
  rewrite !(assoc_L (∪)). by rewrite (comm_L (∪) {[p]} L).
Qed.

Lemma owns_free bs k p : owns (p :: bs) k -> owns bs (klib (Efree p) k).2.
Proof.
  intros (Hd & Hn & Hlv). apply NoDup_cons in Hd as [Hp Hd].
  assert (p ∉ L) as HpL by (apply Hn; left).
  split; [done|]. split; [intros q Hq; apply Hn; by right|].
  rewrite hk_free by (rewrite Hlv; simpl; apply elem_of_union_r, elem_of_union_l, elem_of_singleton; done).
  rewrite Hlv. apply set_eq. intros x. simpl.
  rewrite elem_of_difference, !elem_of_union, elem_of_singleton, elem_of_list_to_set.
  destruct (decide (x = p)) as [->|]; naive_solver.
Qed.

Abbreviation W := (wp Hl).

(** The allocation rules of the logic. *)
Lemma wp_alloc (e : sysE Z) (Q : res Z -> globals -> K -> Prop) bs g k :
  allocates (live k) (live (kcall e k).2) (kcall e k).1 -> owns bs k ->
  (forall p k', owns (p :: bs) k' -> Q (Ok p) g k') ->
  (forall n k', owns bs k' -> Q (Err n) (set_errno n g) k') -> W (call e) Q g k.
Proof.
  intros Ha Ho H1 H2. apply wp_call; intros v k' E; rewrite E in Ha.
  - apply H1. by eapply (owns_alloc _ _ _ _ _ Ha).
  - apply H2. by apply (owns_same _ _ _ Ha).
Qed.
Lemma wp_calloc n s (Q : res Z -> globals -> K -> Prop) bs g k :
  owns bs k ->
  (forall p k', owns (p :: bs) k' -> Q (Ok p) g k') ->
  (forall e k', owns bs k' -> Q (Err e) (set_errno e g) k') ->
  W (call (Ecalloc n s)) Q g k.
Proof. apply wp_alloc, hk_calloc. Qed.
Lemma wp_malloc s (Q : res Z -> globals -> K -> Prop) bs g k :
  owns bs k ->
  (forall p k', owns (p :: bs) k' -> Q (Ok p) g k') ->
  (forall e k', owns bs k' -> Q (Err e) (set_errno e g) k') ->
  W (call (Emalloc s)) Q g k.
Proof. apply wp_alloc, hk_malloc. Qed.
Lemma wp_strdup s (Q : res Z -> globals -> K -> Prop) bs g k :
  owns bs k ->
  (forall p k', owns (p :: bs) k' -> Q (Ok p) g k') ->
  (forall e k', owns bs k' -> Q (Err e) (set_errno e g) k') ->
  W (call (Estrdup s)) Q g k.
Proof. apply wp_alloc, hk_strdup. Qed.
Lemma wp_lookup {X} (e : libE X) (Q : X -> globals -> K -> Prop) bs g k :
  no_free e = true -> owns bs k ->
  (forall v k', owns bs k' -> klib e k = (v, k') -> Q v g k') -> W (lib e) Q g k.
Proof.
  intros Hn Ho H. apply wp_lib. intros v k' E. apply H; [|done].
  eapply owns_same, Ho. rewrite <- (hk_lib _ e k Hn). by rewrite E.
Qed.


Lemma wp_free p (Q : unit -> globals -> K -> Prop) bs g k :
  owns (p :: bs) k -> (forall k', owns bs k' -> Q tt g k') -> W (lib (Efree p)) Q g k.
Proof.
  intros Ho H. apply wp_lib. intros [] k' Ek. apply H. pose proof (owns_free _ _ _ Ho) as H'. by rewrite Ek in H'.
Qed.
End Owns.
Arguments owns_perm {_ _ _ _}.
Arguments owns_same {_ _ _ _}.
Arguments owns_alloc {_ _ _ _}.
Arguments owns_free {_ _ _ _}.
Arguments wp_calloc {_ _ _ _ _}.
Arguments wp_malloc {_ _ _ _ _}.
Arguments wp_strdup {_ _ _ _ _}.
Arguments wp_free {_ _ _ _ _}.
Arguments wp_lookup {_ _ _ _ _}.
