(* ===== verification/Gai.v ===== *)
(** * The library's own getaddrinfo and getnameinfo: unpv13e/libgai/*.c

    The addrinfo list is the list of its structures in order; each structure
    carries its own address and those of the blocks it owns (the socket address
    and the canonical name), so that every calloc, malloc, strdup and free is a
    call on the same blocks as in the code.  The resolver (gethostbyname and
    the others, with its _res.options and h_errno) is part of the system. *)
From stdpp Require Import base list numbers strings gmap.
From S2P Require Import Prelude InetAddr Sys Error Wrap StreamIO SockAddr Connect.

Module Gai.

(** ** Constants: addrinfo.h, gai_hdr.h and netdb.h *)
Definition AI_CLONE : Z := 4.
Definition NI_NOFQDN : Z := 1.
Definition NI_NUMERICHOST : Z := 2.
Definition NI_NAMEREQD : Z := 4.
Definition NI_NUMERICSERV : Z := 8.
Definition NI_DGRAM : Z := 16.
Definition EAI_ADDRFAMILY : Z := 1.
Definition EAI_AGAIN : Z := 2.
Definition EAI_BADFLAGS : Z := 3.
Definition EAI_FAIL : Z := 4.
Definition EAI_FAMILY : Z := 5.
Definition EAI_MEMORY : Z := 6.
Definition EAI_NODATA : Z := 7.
Definition EAI_NONAME : Z := 8.
Definition EAI_SERVICE : Z := 9.
Definition EAI_SOCKTYPE : Z := 10.
Definition EAI_SYSTEM : Z := 11.
Definition HOST_NOT_FOUND : Z := 1.
Definition TRY_AGAIN : Z := 2.
Definition NO_RECOVERY : Z := 3.
Definition NO_DATA : Z := 4.
Definition SOCK_RAW : Z := 3.
Definition RES_INIT : Z := 1.
Definition RES_USE_INET6 : Z := 0x2000.
Definition sizeof_addrinfo : Z := 48.
Definition sizeof_sockaddr_in : Z := 16.
Definition sizeof_sockaddr_in6 : Z := 28.
Definition sizeof_sockaddr_un : Z := 106.
Definition sizeof_sun_path : Z := 104.

(** flags & f *)
Definition has (flags f : Z) : bool := negb (Z.land flags f =? 0).

(** A string argument that is NULL or empty. *)
Definition missing (s : option (list Z)) : bool :=
  match s with None | Some [] => true | Some _ => false end.
(** s[0] *)
Definition char0 (s : list Z) : Z := hd 0 s.
Definition isxdigit (c : Z) : bool :=
  isdigit c || ((97 <=? c) && (c <=? 102)) || ((65 <=? c) && (c <=? 70)).

(** struct addrinfo, with its own address and those of the blocks it points to. *)
Record addrinfo := Addrinfo {
  ai_self : Z; ai_flags : Z; ai_family : Z; ai_socktype : Z; ai_protocol : Z; ai_addrlen : Z;
  ai_canonname : option (Z * list Z); ai_addr : option (Z * sockaddr) }.

Record search := Search { s_host : list Z; s_family : Z }.

(** ** ga_echeck.c *)
Definition bad_socktype (socktype : Z) : bool :=
  negb (socktype =? 0) &&
  (negb (socktype =? SOCK_STREAM) && negb (socktype =? SOCK_DGRAM) && negb (socktype =? SOCK_RAW)).

Definition ga_echeck (hostname servname : option (list Z)) (flags family socktype protocol : Z) : Z :=
  if negb (Z.land flags (Z.lnot (Z.lor AI_PASSIVE AI_CANONNAME)) =? 0) then EAI_BADFLAGS
  else if missing hostname && missing servname then EAI_NONAME
  else if family =? AF_UNSPEC then 0
  else if family =? AF_INET then if bad_socktype socktype then EAI_SOCKTYPE else 0
  else if family =? AF_INET6 then if bad_socktype socktype then EAI_SOCKTYPE else 0
  else if family =? AF_LOCAL then
    if negb (socktype =? 0) && (negb (socktype =? SOCK_STREAM) && negb (socktype =? SOCK_DGRAM))
    then EAI_SOCKTYPE else 0
  else EAI_FAMILY.

(** ** ga_nsearch.c: the filled part of search[] *)
Definition by_family (family : Z) (host4 host6 : list Z) : list search :=
  if family =? AF_INET then [Search host4 AF_INET]
  else if family =? AF_INET6 then [Search host6 AF_INET6]
  else if family =? AF_UNSPEC then [Search host6 AF_INET6; Search host4 AF_INET]
  else [].

Definition ga_nsearch (hostname : option (list Z)) (hints : gai_hints) : prog (list search) :=
  let search :=
    match hostname with
    | None | Some [] =>
        if has (h_flags hints) AI_PASSIVE
        then by_family (h_family hints) (str "0.0.0.0") (str "0::0")
        else by_family (h_family hints) (str "localhost") (str "0::1")
    | Some host => by_family (h_family hints) host host
    end in
  let nsearch := Z.of_nat (length search) in
  if (nsearch <? 1) || (2 <? nsearch) then err_quit (str "nsearch = " ++ fmt_d nsearch)
  else Ret search.

(** ** ga_aistruct.c: the return value and the list with the new structure linked in *)

(** The socket address of each family, allocated and filled in all but the port:
    [inl rc] is an error return. *)
Definition ga_sockaddr (hints : gai_hints) (addr : list Z) (family : Z)
  : prog (Z + option (Z * sockaddr) * Z) :=
  if family =? AF_INET then
    r ← call (Ecalloc 1 sizeof_sockaddr_in);
    match r with
    | Err _ => Ret (inl EAI_MEMORY)
    | Ok p =>
        a ← mem (asub addr 0 4);
        Ret (inr (Some (p, SaIn (SockaddrIn 0 a)), sizeof_sockaddr_in))
    end
  else if family =? AF_INET6 then
    r ← call (Ecalloc 1 sizeof_sockaddr_in6);
    match r with
    | Err _ => Ret (inl EAI_MEMORY)
    | Ok p =>
        a ← mem (asub addr 0 16);
        Ret (inr (Some (p, SaIn6 (SockaddrIn6 0 0 a 0)), sizeof_sockaddr_in6))
    end
  else if family =? AF_LOCAL then
    if sizeof_sun_path <=? Z.of_nat (length addr) then Ret (inl EAI_SERVICE)
    else
      r ← call (Ecalloc 1 sizeof_sockaddr_un);
      match r with
      | Err _ => Ret (inl EAI_MEMORY)
      | Ok p =>
          path ← mem (strcpy (replicate (Z.to_nat sizeof_sun_path) 0) 0 addr);
          _ ← (if has (h_flags hints) AI_PASSIVE then call_ (Eunlink addr) else Ret tt);
          Ret (inr (Some (p, SaUn (SockaddrUn path)), sizeof_sockaddr_un))
      end
  else Ret (inr (None, 0)).

Definition ga_aistruct (aihead : list addrinfo) (hints : gai_hints) (addr : list Z) (family : Z)
  : prog (Z * list addrinfo) :=
  r ← call (Ecalloc 1 sizeof_addrinfo);
  match r with
  | Err _ => Ret (EAI_MEMORY, aihead)
  | Ok p =>
      let flags := if h_socktype hints =? 0 then AI_CLONE else 0 in
      let new := Addrinfo p flags family (h_socktype hints) (h_protocol hints) in
      x ← ga_sockaddr hints addr family;
      match x with
      | inl rc => Ret (rc, aihead ++ [new 0 None None])
      | inr (sa, len) => Ret (0, aihead ++ [new len None sa])
      end
  end.

(** ** ga_clone.c: the old structure, the new one (linked after it), and whether
    new is returned (else NULL) *)
Definition ga_clone (ai : addrinfo) : prog (option (addrinfo * bool)) :=
  r ← call (Ecalloc 1 sizeof_addrinfo);
  match r with
  | Err _ => Ret None
  | Ok p =>
      let new := Addrinfo p 0 (ai_family ai) (ai_socktype ai) (ai_protocol ai) (ai_addrlen ai) None in
      r ← call (Emalloc (ai_addrlen ai));
      match r with
      | Err _ => Ret (Some (new None, false))
      | Ok q =>
          (* memcpy(new->ai_addr, ai->ai_addr, ai->ai_addrlen) *)
          sa ← mem (ai_addr ai);
          Ret (Some (new (Some (q, sa.2)), true))
      end
  end.

(** ** ga_port.c *)

(** ((struct sockaddr_in * ) ai->ai_addr)->sin_port = port *)
Definition set_port (port : Z) (a : option (Z * sockaddr)) : option (option (Z * sockaddr)) :=
  match a with
  | Some (p, SaIn s) => Some (Some (p, SaIn (SockaddrIn (u16 port) (sin_addr s))))
  | Some (p, SaIn6 s) =>
      Some (Some (p, SaIn6 (SockaddrIn6 (u16 port) (sin6_flowinfo s) (sin6_addr s) (sin6_scope_id s))))
  | _ => None
  end.

(** From ai->ai_socktype = socktype to the end of the loop body: the structure
    and what is added to nfound. *)
Definition fill_in (port socktype : Z) (ai : addrinfo) : prog (addrinfo * Z) :=
  let with_addr := Addrinfo (ai_self ai) (ai_flags ai) (ai_family ai) socktype (ai_protocol ai)
                     (ai_addrlen ai) (ai_canonname ai) in
  if (ai_family ai =? AF_INET) || (ai_family ai =? AF_INET6) then
    a ← mem (set_port port (ai_addr ai)); Ret (with_addr a, 1)
  else Ret (with_addr (ai_addr ai), 0).

(** The loop from [ais] on; [inl] is the return of -1, with the list as it is then. *)
Fixpoint ga_port (ais : list addrinfo) (port socktype : Z) (nfound : Z)
  : prog ((list addrinfo + Z * list addrinfo)) :=
  match ais with
  | [] => Ret (inr (nfound, []))
  | ai :: rest =>
      let go prefix ai1 :=
        '(ai2, n) ← fill_in port socktype ai1;
        r ← ga_port rest port socktype (nfound + n);
        Ret (match r with
             | inl l => inl (prefix ++ ai2 :: l)
             | inr (k, l) => inr (k, prefix ++ ai2 :: l)
             end) in
      let skip :=
        r ← ga_port rest port socktype nfound;
        Ret (match r with inl l => inl (ai :: l) | inr (k, l) => inr (k, ai :: l) end) in
      if has (ai_flags ai) AI_CLONE then
        if negb (ai_socktype ai =? 0) then
          c ← ga_clone ai;
          match c with
          | None => Ret (inl (ai :: rest))
          | Some (new, false) => Ret (inl (ai :: new :: rest))
          | Some (new, true) => go [ai] new
          end
        else go [] ai
      else if negb (ai_socktype ai =? socktype) then skip
      else go [] ai
  end.

(** ** ga_serv.c: the return value and the list *)

(** if ((rc = ga_port(...)) < 0) return(EAI_MEMORY); nfound += rc; *)
Definition try_port (aihead : list addrinfo) (port socktype nfound : Z)
    (f : list addrinfo -> Z -> prog (Z * list addrinfo)) : prog (Z * list addrinfo) :=
  r ← ga_port aihead port socktype 0;
  match r with
  | inl l => Ret (EAI_MEMORY, l)
  | inr (rc, l) => f l (nfound + rc)
  end.

Definition serv_done (hints : gai_hints) (aihead : list addrinfo) (nfound : Z)
  : prog (Z * list addrinfo) :=
  Ret (if nfound =? 0 then if h_socktype hints =? 0 then EAI_NONAME else EAI_SERVICE else 0, aihead).

Definition ga_serv `{Platform} (aihead : list addrinfo) (hints : gai_hints) (serv : list Z)
  : prog (Z * list addrinfo) :=
  if isdigit (char0 serv) then
    let port := htons (u16 (atoi serv)) in
    if negb (h_socktype hints =? 0) then
      try_port aihead port (h_socktype hints) 0 (serv_done hints)
    else
      try_port aihead port SOCK_STREAM 0 (fun l n =>
      try_port l port SOCK_DGRAM n (serv_done hints))
  else
    let udp l n :=
      if (h_socktype hints =? 0) || (h_socktype hints =? SOCK_DGRAM) then
        sptr ← lib (Egetservbyname serv (str "udp"));
        match sptr with
        | Some s_port => try_port l s_port SOCK_DGRAM n (serv_done hints)
        | None => serv_done hints l n
        end
      else serv_done hints l n in
    if (h_socktype hints =? 0) || (h_socktype hints =? SOCK_STREAM) then
      sptr ← lib (Egetservbyname serv (str "tcp"));
      match sptr with
      | Some s_port => try_port aihead s_port SOCK_STREAM 0 udp
      | None => udp aihead 0
      end
    else udp aihead 0.

(** ** ga_unix.c: the return value and the list that *result is set to *)
Definition with_socktype (t : Z) (h : gai_hints) : gai_hints :=
  Hints (h_flags h) (h_family h) t (h_protocol h).
Definition with_canonname (c : Z * list Z) (ai : addrinfo) : addrinfo :=
  Addrinfo (ai_self ai) (ai_flags ai) (ai_family ai) (ai_socktype ai) (ai_protocol ai)
    (ai_addrlen ai) (Some c) (ai_addr ai).

(** From the second ga_aistruct on. *)
Definition ga_unix_rest (aihead : list addrinfo) (path : list Z) (hints : gai_hints)
  : prog (Z * list addrinfo) :=
  '(rc, l) ← ga_aistruct aihead hints path AF_LOCAL;
  if negb (rc =? 0) then Ret (rc, [])
  else if has (h_flags hints) AI_CANONNAME then
    u ← call Euname;
    match u with
    | Err _ => Ret (EAI_SYSTEM, [])
    | Ok nodename =>
        c ← call (Estrdup nodename);
        match c, l with
        | Ok p, ai :: r => Ret (0, with_canonname (p, nodename) ai :: r)
        | Ok _, [] => fault
        | Err _, _ => Ret (EAI_MEMORY, [])
        end
    end
  else Ret (0, l).

Definition ga_unix (path : list Z) (hints : gai_hints) : prog (Z * list addrinfo) :=
  if negb (h_family hints =? AF_UNSPEC) && negb (h_family hints =? AF_LOCAL)
  then Ret (EAI_ADDRFAMILY, [])
  else if h_socktype hints =? 0 then
    '(rc, l) ← ga_aistruct [] (with_socktype SOCK_STREAM hints) path AF_LOCAL;
    if negb (rc =? 0) then Ret (rc, [])
    else ga_unix_rest l path (with_socktype SOCK_DGRAM hints)
  else ga_unix_rest [] path hints.

(** ** freeaddrinfo.c *)
Definition free_opt {A} (b : option (Z * A)) : prog unit :=
  match b with Some (p, _) => lib (Efree p) | None => Ret tt end.

Fixpoint freeaddrinfo (aihead : list addrinfo) : prog unit :=
  match aihead with
  | [] => Ret tt
  | ai :: ainext =>
      _ ← free_opt (ai_addr ai);
      _ ← free_opt (ai_canonname ai);
      _ ← lib (Efree (ai_self ai));
      freeaddrinfo ainext
  end.

(** ** getaddrinfo.c *)

(** The host lookup of one search entry. *)
Definition ga_lookup (nsearch : Z) (s : search) : prog (option hostent) :=
  o ← lib Eres_options;
  _ ← (if Z.land o RES_INIT =? 0 then lib Eres_init else Ret 0);
  o1 ← lib Eres_options;
  if nsearch =? 2 then
    _ ← lib (Eset_res_options (Z.land o1 (Z.lnot RES_USE_INET6)));
    lib (Egethostbyname2 (s_host s) (s_family s))
  else
    _ ← lib (Eset_res_options (if s_family s =? AF_INET6 then Z.lor o1 RES_USE_INET6
                               else Z.land o1 (Z.lnot RES_USE_INET6)));
    lib (Egethostbyname (s_host s)).

(** switch (h_errno) *)
Definition host_error (e : Z) : Z :=
  if e =? HOST_NOT_FOUND then EAI_NONAME else if e =? TRY_AGAIN then EAI_AGAIN
  else if e =? NO_RECOVERY then EAI_FAIL else if e =? NO_DATA then EAI_NODATA else EAI_NONAME.

(** for (ap = hptr->h_addr_list; *ap != NULL; ap++) *)
Fixpoint ga_addrs (aihead : list addrinfo) (hints : gai_hints) (aps : list (list Z)) (family : Z)
  : prog (Z * list addrinfo) :=
  match aps with
  | [] => Ret (0, aihead)
  | ap :: r =>
      '(rc, l) ← ga_aistruct aihead hints ap family;
      if negb (rc =? 0) then Ret (rc, l) else ga_addrs l hints r family
  end.

(** A numeric string of one family: 1 when it is one. *)
Definition numeric (af size : Z) (host : list Z) : prog (option (list Z)) :=
  '(rc, _, a) ← mem (inet_pton af host (replicate (Z.to_nat size) 0) 0);
  Ret (if rc =? 1 then Some a else None).

(** The canonical name is wanted. *)
Definition wants_canon (hostname : option (list Z)) (hints : gai_hints) : bool :=
  negb (missing hostname) && has (h_flags hints) AI_CANONNAME.

(** The end of a turn of the for loop: an error code (0 for none), the list and
    canon. *)
Definition turn : Type := Z * list addrinfo * option (Z * list Z).

(** What is done with a numeric address. *)
Definition ga_numeric (hints : gai_hints) (s : search) (a : list Z) (af : Z)
    (aihead : list addrinfo) (canon : option (Z * list Z)) : prog turn :=
  if negb (h_family hints =? AF_UNSPEC) && negb (h_family hints =? af)
  then Ret (EAI_ADDRFAMILY, aihead, canon)
  else if negb (s_family s =? af) then Ret (0, aihead, canon)
  else '(rc, l) ← ga_aistruct aihead hints a af; Ret (rc, l, canon).

(** From the label ga4: look the host up. *)
Definition ga_host (hostname : option (list Z)) (hints : gai_hints) (nsearch : Z) (s : search)
    (aihead : list addrinfo) (canon : option (Z * list Z)) : prog turn :=
  hptr ← ga_lookup nsearch s;
  match hptr with
  | None =>
      if nsearch =? 2 then Ret (0, aihead, canon)
      else e ← lib Eh_errno; Ret (host_error e, aihead, canon)
  | Some h =>
      if negb (h_family hints =? AF_UNSPEC) && negb (h_family hints =? h_addrtype h)
      then Ret (EAI_ADDRFAMILY, aihead, canon)
      else
        c ← (if wants_canon hostname hints && bool_decide (canon = None) then
               r ← call (Estrdup (h_name h));
               Ret (match r with Ok p => Some (Some (p, h_name h)) | Err _ => None end)
             else Ret (Some canon));
        match c with
        | None => Ret (EAI_MEMORY, aihead, canon)
        | Some canon1 =>
            '(rc, l) ← ga_addrs aihead hints (h_addr_list h) (h_addrtype h); Ret (rc, l, canon1)
        end
  end.

(** One turn of the for loop. *)
Definition ga_turn (hostname : option (list Z)) (hints : gai_hints) (nsearch : Z) (s : search)
    (aihead : list addrinfo) (canon : option (Z * list Z)) : prog turn :=
  let host := s_host s in
  v4 ← (if isdigit (char0 host) then numeric AF_INET 4 host else Ret None);
  match v4 with
  | Some a => ga_numeric hints s a AF_INET aihead canon
  | None =>
      v6 ← (if (isxdigit (char0 host) || (char0 host =? 58)) && bool_decide (strchr host 58 <> None)
            then numeric AF_INET6 16 host else Ret None);
      match v6 with
      | Some a => ga_numeric hints s a AF_INET6 aihead canon
      | None => ga_host hostname hints nsearch s aihead canon
      end
  end.

Fixpoint ga_loop (hostname : option (list Z)) (hints : gai_hints) (nsearch : Z) (ss : list search)
    (aihead : list addrinfo) (canon : option (Z * list Z)) : prog turn :=
  match ss with
  | [] => Ret (0, aihead, canon)
  | s :: r =>
      '(rc, l, c) ← ga_turn hostname hints nsearch s aihead canon;
      if negb (rc =? 0) then Ret (rc, l, c) else ga_loop hostname hints nsearch r l c
  end.

(** bad: freeaddrinfo(aihead); return(error); *)
Definition bad (error : Z) (aihead : list addrinfo) : prog (Z * list addrinfo) :=
  _ ← freeaddrinfo aihead; Ret (error, []).

(** Return the canonical name, then process the service name. *)
Definition ga_finish `{Platform} (hostname servname : option (list Z)) (hints : gai_hints)
    (search0 : list Z) (aihead : list addrinfo) (canon : option (Z * list Z))
  : prog (Z * list addrinfo) :=
  match aihead with
  | [] => bad EAI_NONAME []
  | ai :: r =>
      l ← (if wants_canon hostname hints then
             match canon with
             | Some c => Ret (Some (with_canonname c ai :: r))
             | None =>
                 d ← call (Estrdup search0);
                 Ret (match d with
                      | Ok p => Some (with_canonname (p, search0) ai :: r)
                      | Err _ => None
                      end)
             end
           else Ret (Some aihead));
      match l with
      | None => bad EAI_MEMORY aihead
      | Some l1 =>
          match servname with
          | None | Some [] => Ret (0, l1)
          | Some serv =>
              '(rc, l2) ← ga_serv l1 hints serv;
              if negb (rc =? 0) then bad rc l2 else Ret (0, l2)
          end
      end
  end.

Definition is_unix_host (host : list Z) : bool :=
  (strcmp host (str "/local") =? 0) || (strcmp host (str "/unix") =? 0).

(** The remainder of the function for IPv4 and IPv6. *)
Definition getaddrinfo_ip `{Platform} (hostname servname : option (list Z)) (hints : gai_hints)
  : prog (Z * list addrinfo) :=
  ss ← ga_nsearch hostname hints;
  '(rc, l, canon) ← ga_loop hostname hints (Z.of_nat (length ss)) ss [] None;
  if negb (rc =? 0) then bad rc l
  else ga_finish hostname servname hints (match ss with s :: _ => s_host s | [] => [] end) l canon.

(** The return value and *result, which is set only when it is 0. *)
Definition getaddrinfo `{Platform} (hostname servname : option (list Z)) (hintsp : option gai_hints)
  : prog (Z * list addrinfo) :=
  let hints := match hintsp with None => Hints 0 AF_UNSPEC 0 0 | Some h => h end in
  let rc := ga_echeck hostname servname (h_flags hints) (h_family hints) (h_socktype hints)
              (h_protocol hints) in
  if negb (rc =? 0) then bad rc []
  else
    match hostname, servname with
    | Some h, Some ((47 :: _) as path) =>
        if is_unix_host h then ga_unix path hints
        else getaddrinfo_ip hostname servname hints
    | _, _ => getaddrinfo_ip hostname servname hints
    end.

(** ** gai_strerror.c *)
Definition gai_strerror (err : Z) : list Z :=
  if err =? EAI_ADDRFAMILY then str "address family for host not supported"
  else if err =? EAI_AGAIN then str "temporary failure in name resolution"
  else if err =? EAI_BADFLAGS then str "invalid flags value"
  else if err =? EAI_FAIL then str "non-recoverable failure in name resolution"
  else if err =? EAI_FAMILY then str "address family not supported"
  else if err =? EAI_MEMORY then str "memory allocation failure"
  else if err =? EAI_NODATA then str "no address associated with host"
  else if err =? EAI_NONAME then str "host nor service provided, or not known"
  else if err =? EAI_SERVICE then str "service not supported for socket type"
  else if err =? EAI_SOCKTYPE then str "socket type not supported"
  else if err =? EAI_SYSTEM then str "system error"
  else str "unknown getaddrinfo() error".

(** ** gn_ipv46.c: the return value and the two buffers *)

(** inet_ntop(family, aptr, host, hostlen) == NULL: [None] *)
Definition ntop_host (family : Z) (aptr host : list Z) (hostlen : Z) : prog (option (list Z)) :=
  r ← mem (inet_ntop family aptr host 0 hostlen);
  match r with
  | CNull e => _ ← put_errno e; Ret None
  | CPtr h => Ret (Some h)
  end.

Definition gn_host (host : list Z) (hostlen : Z) (aptr : list Z) (family flags : Z)
  : prog (option (list Z)) :=
  if has flags NI_NUMERICHOST then ntop_host family aptr host hostlen
  else
    hptr ← lib (Egethostbyaddr aptr family);
    match hptr with
    | Some h =>
        let name := if has flags NI_NOFQDN
                    then match strchr (h_name h) 46 with
                         | Some i => take (Z.to_nat i) (h_name h)
                         | None => h_name h
                         end
                    else h_name h in
        a ← mem (array_snprintf host hostlen name); Ret (Some a)
    | None =>
        if has flags NI_NAMEREQD then Ret None else ntop_host family aptr host hostlen
    end.

Definition gn_serv `{Platform} (serv : list Z) (servlen port flags : Z) : prog (list Z) :=
  if has flags NI_NUMERICSERV then mem (array_snprintf serv servlen (fmt_d (ntohs (u16 port))))
  else
    sptr ← lib (Egetservbyport port (if has flags NI_DGRAM then Some (str "udp") else None));
    match sptr with
    | Some s_name => mem (array_snprintf serv servlen s_name)
    | None => mem (array_snprintf serv servlen (fmt_d (ntohs (u16 port))))
    end.

Definition gn_ipv46 `{Platform} (host : list Z) (hostlen : Z) (serv : list Z) (servlen : Z)
    (aptr : list Z) (family port flags : Z) : prog (Z * list Z * list Z) :=
  h ← (if 0 <? hostlen then gn_host host hostlen aptr family flags else Ret (Some host));
  match h with
  | None => Ret (1, host, serv)
  | Some host1 =>
      serv1 ← (if 0 <? servlen then gn_serv serv servlen port flags else Ret serv);
      Ret (0, host1, serv1)
  end.

(** ** getnameinfo.c *)
Definition getnameinfo `{Platform} (sa : sockaddr) (host : list Z) (hostlen : Z)
    (serv : list Z) (servlen flags : Z) : prog (Z * list Z * list Z) :=
  match sa with
  | SaIn sain => gn_ipv46 host hostlen serv servlen (sin_addr sain) AF_INET (sin_port sain) flags
  | SaIn6 sain => gn_ipv46 host hostlen serv servlen (sin6_addr sain) AF_INET6 (sin6_port sain) flags
  | SaUn un =>
      host1 ← (if 0 <? hostlen then mem (array_snprintf host hostlen (str "/local")) else Ret host);
      serv1 ← (if 0 <? servlen then
                 p ← mem (array_str (sun_path un)); mem (array_snprintf serv servlen p)
               else Ret serv);
      Ret (0, host1, serv1)
  | _ => Ret (1, host, serv)
  end.
End Gai.
