(* ===== verification/GaiProofs.v ===== *)
(** * Correctness of the library's getaddrinfo and getnameinfo

    Over any system whose allocator and resolver keep their contract
    ([ResolverKernel]): getaddrinfo owns exactly the blocks of the list it
    returns and frees everything when it fails, its results are those the
    comments promise (one structure per address and socket type), and for
    numeric names it inverts getnameinfo. *)
From stdpp Require Import base list numbers strings sets gmap.
From S2P Require Import Prelude InetAddr InetV4 InetV6 Sys Error Wrap StreamIO StreamProofs SockAddr Connect Hoare Heap Gai.

Module GaiProofs.
Import Gai.

(** Addresses as long as their family wants them. *)
Definition addr_ok (family : Z) (addr : list Z) : Prop :=
  (family = AF_INET -> length addr = 4%nat) /\ (family = AF_INET6 -> length addr = 16%nat).

Definition host_ok (h : hostent) : Prop :=
  (h_addrtype h = AF_INET \/ h_addrtype h = AF_INET6) /\ Forall (addr_ok (h_addrtype h)) (h_addr_list h).

Class ResolverKernel (K : Type) `{!Kernel K} := {
  rk_heap :: HeapKernel K;
  rk_unlink : forall k s, live (kcall (Eunlink s) k).2 = live k;
  rk_gethostbyname : forall k s h k', klib (Egethostbyname s) k = (Some h, k') -> host_ok h;
  rk_gethostbyname2 : forall k s f h k', klib (Egethostbyname2 s f) k = (Some h, k') -> host_ok h }.

(** ** Blocks *)
Definition ai_blocks (ai : addrinfo) : list Z :=
  opt_block (ai_addr ai) ++ opt_block (ai_canonname ai) ++ [ai_self ai].
Definition blocks (l : list addrinfo) : list Z := l ≫= ai_blocks.

Lemma blocks_app l1 l2 : blocks (l1 ++ l2) = blocks l1 ++ blocks l2.
Proof. apply bind_app. Qed.

Section Heap.
Context {K : Type} `{HK : !Kernel K} `{HR : !ResolverKernel K}.
Context (L : gset Z).
Implicit Types (k : K) (g : globals).

Abbreviation owns := (Heap.owns L).
Abbreviation W := (wp (fun _ => False)).

(** ** freeaddrinfo *)
Lemma free_opt_spec {A} (b : option (Z * A)) bs g k :
  owns (opt_block b ++ bs) k -> W (free_opt b) (fun _ g' k' => g' = g /\ owns bs k') g k.
Proof.
  destruct b as [[p a]|]; simpl; intros Ho; [|by wp_step].
  apply wp_lib. intros v k' E. split; [done|]. pose proof (owns_free _ _ _ Ho) as H. by rewrite E in H.
Qed.

Lemma freeaddrinfo_spec l : forall bs g k,
  owns (blocks l ++ bs) k -> W (freeaddrinfo l) (fun _ g' k' => g' = g /\ owns bs k') g k.
Proof.
  induction l as [|ai l IH]; intros bs g k Ho; [by wp_step|]. cbn [freeaddrinfo].
  change (blocks (ai :: l)) with (ai_blocks ai ++ blocks l) in Ho. unfold ai_blocks in Ho.
  rewrite <- !app_assoc in Ho.
  eapply wp_seq; [by eapply free_opt_spec|]. intros u1 g1 k1 [-> Ho1].
  eapply wp_seq; [by eapply free_opt_spec|]. intros u2 g2 k2 [-> Ho2].
  wp_step. apply IH. pose proof (owns_free _ _ _ Ho2) as H'. by rewrite H in H'.
Qed.

(** ** The structures without their addresses in memory *)
Record aiv := Aiv {
  v_flags : Z; v_family : Z; v_socktype : Z; v_protocol : Z; v_addrlen : Z;
  v_canon : option (list Z); v_addr : option sockaddr }.
Definition view (ai : addrinfo) : aiv :=
  Aiv (ai_flags ai) (ai_family ai) (ai_socktype ai) (ai_protocol ai) (ai_addrlen ai)
    (snd <$> ai_canonname ai) (snd <$> ai_addr ai).

(** A structure with an Internet address of its family. *)
Definition inet_view (v : aiv) : Prop :=
  (v_family v = AF_INET /\ exists s, v_addr v = Some (SaIn s)) \/
  (v_family v = AF_INET6 /\ exists s, v_addr v = Some (SaIn6 s)).

(** What ga_aistruct makes for an Internet address. *)
Definition new_view (hints : gai_hints) (addr : list Z) (family : Z) : aiv :=
  Aiv (if h_socktype hints =? 0 then AI_CLONE else 0) family (h_socktype hints) (h_protocol hints)
    (if family =? AF_INET then sizeof_sockaddr_in else sizeof_sockaddr_in6) None
    (Some (if family =? AF_INET then SaIn (SockaddrIn 0 addr) else SaIn6 (SockaddrIn6 0 0 addr 0))).

Definition inet_family (f : Z) : Prop := f = AF_INET \/ f = AF_INET6.

Lemma new_view_inet hints addr family : inet_family family -> inet_view (new_view hints addr family).
Proof. intros [->| ->]; [left|right]; cbn; eauto. Qed.

Lemma blocks_nil : blocks [] = [].
Proof. done. Qed.
Lemma blocks_cons ai l : blocks (ai :: l) = ai_blocks ai ++ blocks l.
Proof. done. Qed.

(** Solve an ownership goal from one that is its rearrangement. *)
Ltac own :=
  match goal with
  | H : owns ?bs ?k |- owns ?bs' ?k =>
      eapply owns_perm, H; unfold ai_blocks;
      rewrite ?blocks_app, ?blocks_cons, ?blocks_nil; unfold ai_blocks;
      cbn [opt_block ai_addr ai_canonname ai_self]; solve_Permutation
  end.

Lemma ga_aistruct_spec l hints addr family bs g k :
  owns (blocks l ++ bs) k -> inet_family family -> addr_ok family addr ->
  W (ga_aistruct l hints addr family) (fun '(rc, l') _ k' =>
      owns (blocks l' ++ bs) k' /\
      (rc = EAI_MEMORY \/
       rc = 0 /\ exists ai, l' = l ++ [ai] /\ view ai = new_view hints addr family)) g k.
Proof.
  intros Ho Hf [H4 H6]. unfold ga_aistruct.
  apply wp_bind. eapply wp_calloc; [done|..]; [|intros e k1 Ho1; wp_step; auto].
  intros p k1 Ho1. apply wp_bind. unfold ga_sockaddr. destruct Hf as [-> | ->]; cbn [Z.eqb].
  - change (AF_INET =? AF_INET) with true. cbn iota. apply wp_bind.
    eapply wp_calloc; [done|..].
    + intros q k2 Ho2. apply wp_bind. eapply wp_mem; [apply asub_take; rewrite H4 by done; done|].
      wp_step. wp_step. split; [own|right]. split; [done|]. eexists. split; [done|].
      unfold view, new_view. cbn. rewrite firstn_all2 by (rewrite H4 by done; lia). done.
    + intros e k2 Ho2. wp_step. wp_step. split; [own|by left].
  - change (AF_INET6 =? AF_INET) with false. change (AF_INET6 =? AF_INET6) with true. cbn iota.
    apply wp_bind. eapply wp_calloc; [done|..].
    + intros q k2 Ho2. apply wp_bind. eapply wp_mem; [apply asub_take; rewrite H6 by done; done|].
      wp_step. wp_step. split; [own|right]. split; [done|]. eexists. split; [done|].
      unfold view, new_view. cbn. rewrite firstn_all2 by (rewrite H6 by done; lia). done.
    + intros e k2 Ho2. wp_step. wp_step. split; [own|by left].
Qed.

(** ** Ports and socket types *)
Definition fill_view (port socktype : Z) (v : aiv) : aiv :=
  Aiv (v_flags v) (v_family v) socktype (v_protocol v) (v_addrlen v) (v_canon v)
    (match v_addr v with
     | Some (SaIn s) => Some (SaIn (SockaddrIn (u16 port) (sin_addr s)))
     | Some (SaIn6 s) =>
         Some (SaIn6 (SockaddrIn6 (u16 port) (sin6_flowinfo s) (sin6_addr s) (sin6_scope_id s)))
     | a => a
     end).
Definition clone_view (v : aiv) : aiv :=
  Aiv 0 (v_family v) (v_socktype v) (v_protocol v) (v_addrlen v) None (v_addr v).

(** What one structure becomes when ga_port passes over it. *)
Definition port_view (port socktype : Z) (v : aiv) : list aiv :=
  if has (v_flags v) AI_CLONE then
    if negb (v_socktype v =? 0) then [v; fill_view port socktype (clone_view v)]
    else [fill_view port socktype v]
  else if negb (v_socktype v =? socktype) then [v] else [fill_view port socktype v].
Definition total (l : list Z) : Z := foldr Z.add 0 l.
Definition port_found (socktype : Z) (v : aiv) : Z :=
  if has (v_flags v) AI_CLONE || (v_socktype v =? socktype) then 1 else 0.

Lemma fill_in_spec port socktype ai g k :
  inet_view (view ai) ->
  W (fill_in port socktype ai) (fun '(ai', n) _ k' =>
      n = 1 /\ k' = k /\ ai_blocks ai' = ai_blocks ai /\
      view ai' = fill_view port socktype (view ai)) g k.
Proof.
  unfold inet_view. intros Hi. unfold fill_in. destruct ai as [p fl fam st pr len cn [[q sa]|]]; cbn in *;
    destruct Hi as [[-> [s Hs]]|[-> [s Hs]]]; cbn in Hs; try done; injection Hs as ->; cbn;
    apply wp_bind; (eapply wp_mem; [done|]); wp_step; done.
Qed.

Lemma ga_clone_spec ai bs g k :
  owns bs k -> is_Some (ai_addr ai) ->
  W (ga_clone ai) (fun r _ k' =>
      match r with
      | None => owns bs k'
      | Some (new, false) => owns (ai_blocks new ++ bs) k'
      | Some (new, true) => owns (ai_blocks new ++ bs) k' /\ view new = clone_view (view ai)
      end) g k.
Proof.
  intros Ho [[q sa] Hq]. unfold ga_clone. apply wp_bind.
  eapply wp_calloc; [done|..]; [|intros e k1 Ho1; by wp_step].
  intros p k1 Ho1. apply wp_bind. eapply wp_malloc; [done|..].
  - intros q' k2 Ho2. apply wp_bind. eapply wp_mem; [done|]. wp_step.
    split; [own|]. unfold view, clone_view. cbn. by rewrite Hq.
  - intros e k2 Ho2. wp_step. own.
Qed.

Lemma inet_view_addr ai : inet_view (view ai) -> is_Some (ai_addr ai).
Proof. destruct ai as [p fl fam st pr len cn [|]]; [eauto|]. by intros [[_ [s Hs]]|[_ [s Hs]]]. Qed.
Lemma clone_inet v : inet_view v -> inet_view (clone_view v).
Proof. done. Qed.

(** What ga_port leaves: after an allocation failure only the ownership is known. *)
Definition port_post (port socktype n : Z) (vs : list aiv) (bs : list Z)
    (r : list addrinfo + Z * list addrinfo) (k' : K) : Prop :=
  match r with
  | inl l' => owns (blocks l' ++ bs) k'
  | inr (m, l') =>
      owns (blocks l' ++ bs) k' /\ view <$> l' = vs ≫= port_view port socktype /\
      m = n + total (port_found socktype <$> vs)
  end.

(** A structure that is filled in, and then the rest of the list. *)
Lemma ga_port_go port socktype l n pre ai1 bs g k :
  (forall n bs g k, owns (blocks l ++ bs) k ->
     W (ga_port l port socktype n) (fun r _ => port_post port socktype n (view <$> l) bs r) g k) ->
  owns (ai_blocks ai1 ++ blocks l ++ bs) k -> inet_view (view ai1) ->
  W ('(ai2, m) ← fill_in port socktype ai1; r ← ga_port l port socktype (n + m);
     Ret (match r with
          | inl l0 => inl (pre ++ ai2 :: l0)
          | inr (k0, l0) => inr (k0, pre ++ ai2 :: l0)
          end : list addrinfo + Z * list addrinfo))
    (fun r _ k' =>
      match r with
      | inl l' => exists l0, l' = pre ++ l0 /\ owns (blocks l0 ++ bs) k'
      | inr (m, l') => exists l0, l' = pre ++ l0 /\ owns (blocks l0 ++ bs) k' /\
          view <$> l0 = fill_view port socktype (view ai1) :: ((view <$> l) ≫= port_view port socktype) /\
          m = n + (1 + total (port_found socktype <$> (view <$> l)))
      end) g k.
Proof.
  intros IH Ho1 Hi1. eapply wp_seq; [by apply fill_in_spec|].
  intros [ai2 m] g2 k2 (-> & -> & Hb & Hv).
  eapply wp_seq; [apply (IH _ (ai_blocks ai1 ++ bs)); own|].
  intros r g3 k3 Hr. wp_step. destruct r as [l'|[m l']]; simpl in Hr.
  - exists (ai2 :: l'). split; [done|]. rewrite blocks_cons, Hb. own.
  - destruct Hr as (Ho3 & Hv3 & ->). exists (ai2 :: l'). split; [done|].
    split; [rewrite blocks_cons, Hb; own|]. split; [by rewrite fmap_cons, Hv, Hv3|]. lia.
Qed.

Lemma ga_port_spec port socktype l : forall n bs g k,
  Forall (fun ai => inet_view (view ai)) l -> owns (blocks l ++ bs) k ->
  W (ga_port l port socktype n) (fun r _ => port_post port socktype n (view <$> l) bs r) g k.
Proof.
  induction l as [|ai l IH]; intros n bs g k Hi Ho; cbn [ga_port].
  { wp_step. split; [done|]. split; [done|]. simpl. lia. }
  apply Forall_cons in Hi as [Ha Hi]. unfold port_post.
  pose proof (fun n pre ai1 bs g k => ga_port_go port socktype l n pre ai1 bs g k
    (fun n bs g k => IH n bs g k Hi)) as Hgo.
  assert (total (port_found socktype <$> (view <$> ai :: l)) =
    port_found socktype (view ai) + total (port_found socktype <$> (view <$> l))) as -> by done.
  assert ((view <$> ai :: l) ≫= port_view port socktype =
    port_view port socktype (view ai) ++ ((view <$> l) ≫= port_view port socktype)) as -> by done.
  unfold port_view at 1, port_found at 1.
  change (v_flags (view ai)) with (ai_flags ai). change (v_socktype (view ai)) with (ai_socktype ai).
  rewrite blocks_cons in Ho.
  destruct (has (ai_flags ai) AI_CLONE); [destruct (negb (ai_socktype ai =? 0)) eqn:E0|].
  - eapply wp_seq; [eapply ga_clone_spec; [exact Ho|by apply inet_view_addr]|].
    intros [[new [|]]|] g1 k1 Hc.
    + destruct Hc as [Ho1 Hv1]. eapply wp_mono.
      { apply (Hgo n [ai] new (ai_blocks ai ++ bs)); [own|]. rewrite Hv1. by apply clone_inet. }
      intros [l'|[m l']] g2 k2.
      * intros (l0 & -> & Ho2). own.
      * intros (l0 & -> & Ho2 & Hv2 & ->). split; [own|].
        split; [by rewrite fmap_app, Hv2, Hv1|done].
    + wp_step. own.
    + wp_step. own.
  - eapply wp_mono; [apply (Hgo n [] ai bs); [own|done]|]. intros [l'|[m l']] g2 k2.
    + intros (l0 & -> & Ho2). own.
    + intros (l0 & -> & Ho2 & Hv2 & ->). split; [own|]. done.
  - destruct (ai_socktype ai =? socktype) eqn:Es; cbn [negb orb].
    + eapply wp_mono; [apply (Hgo n [] ai bs); [own|done]|]. intros [l'|[m l']] g2 k2.
      * intros (l0 & -> & Ho2). own.
      * intros (l0 & -> & Ho2 & Hv2 & ->). split; [own|]. done.
    + eapply wp_seq; [apply (IH _ (ai_blocks ai ++ bs)); [done|own]|].
      intros r g3 k3 Hr. wp_step. destruct r as [l'|[m l']]; simpl in Hr; [own|].
      destruct Hr as (Ho3 & Hv3 & ->). split; [own|]. split; [by rewrite fmap_cons, Hv3|]. lia.
Qed.

Lemma fill_inet port socktype v : inet_view v -> inet_view (fill_view port socktype v).
Proof. intros [[Hf [s Hs]]|[Hf [s Hs]]]; [left|right]; cbn; rewrite Hs; eauto. Qed.

Lemma port_views_inet port socktype vs :
  Forall inet_view vs -> Forall inet_view (vs ≫= port_view port socktype).
Proof.
  induction 1 as [|v vs Hv _ IH]; [constructor|]. rewrite bind_cons. apply Forall_app. split; [|done].
  unfold port_view. repeat case_match; repeat (apply Forall_cons; split); auto using fill_inet, clone_inet.
Qed.

Lemma views_inet l : Forall (fun ai => inet_view (view ai)) l <-> Forall inet_view (view <$> l).
Proof. by rewrite Forall_fmap. Qed.

Lemma try_port_spec l port socktype n f bs (Q : Z * list addrinfo -> globals -> K -> Prop) g k :
  owns (blocks l ++ bs) k -> Forall inet_view (view <$> l) ->
  (forall l' g' k', owns (blocks l' ++ bs) k' -> Q (EAI_MEMORY, l') g' k') ->
  (forall l' g' k', owns (blocks l' ++ bs) k' ->
     view <$> l' = (view <$> l) ≫= port_view port socktype ->
     W (f l' (n + total (port_found socktype <$> (view <$> l)))) Q g' k') ->
  W (try_port l port socktype n f) Q g k.
Proof.
  intros Ho Hi HE HQ. unfold try_port.
  eapply wp_seq; [apply ga_port_spec; [by apply views_inet|done]|].
  intros [l'|[m l']] g1 k1 Hp; simpl in Hp; [by wp_step; auto|].
  destruct Hp as (Ho1 & Hv1 & ->). by apply HQ.
Qed.

(** Any service: the blocks are accounted for. *)
Lemma ga_serv_owns `{Platform} l hints serv bs g k :
  owns (blocks l ++ bs) k -> Forall inet_view (view <$> l) ->
  W (ga_serv l hints serv) (fun '(rc, l') _ k' => owns (blocks l' ++ bs) k') g k.
Proof.
  intros Ho Hi. unfold ga_serv.
  assert (forall l1 n g1 k1, owns (blocks l1 ++ bs) k1 ->
    W (serv_done hints l1 n) (fun '(rc, l') _ k' => owns (blocks l' ++ bs) k') g1 k1) as Hdone.
  { intros l1 n g1 k1 Ho1. by apply wp_ret. }
  assert (forall l1 n g1 k1, owns (blocks l1 ++ bs) k1 -> Forall inet_view (view <$> l1) ->
    W (if (h_socktype hints =? 0) || (h_socktype hints =? SOCK_DGRAM)
       then sptr ← lib (Egetservbyname serv (str "udp"));
            match sptr with
            | Some s_port => try_port l1 s_port SOCK_DGRAM n (serv_done hints)
            | None => serv_done hints l1 n
            end
       else serv_done hints l1 n)
      (fun '(rc, l') _ k' => owns (blocks l' ++ bs) k') g1 k1) as Hudp.
  { intros l1 n g1 k1 Ho1 Hi1. destruct (_ || _); [|by apply Hdone]. apply wp_bind.
    eapply wp_lookup; [done|done|]. intros [p|] k2 Ho2 _; [|by apply Hdone].
    apply try_port_spec with (bs := bs); auto. }
  destruct (isdigit (char0 serv)); 
    [destruct (negb _)|destruct ((h_socktype hints =? 0) || (h_socktype hints =? SOCK_STREAM));
      [|by apply Hudp]].
  - apply try_port_spec with (bs := bs); auto.
  - apply try_port_spec with (bs := bs); auto. intros l1 g1 k1 Ho1 Hv1.
    apply try_port_spec with (bs := bs); auto. rewrite Hv1. by apply port_views_inet.
  - apply wp_bind. eapply wp_lookup; [done|done|]. intros [p|] k2 Ho2 _; [|by apply Hudp].
    apply try_port_spec with (bs := bs); auto. intros l1 g1 k1 Ho1 Hv1. apply Hudp; [done|].
    rewrite Hv1. by apply port_views_inet.
Qed.

(** ** The search loop *)
Lemma ga_lookup_spec nsearch s bs g k :
  owns bs k -> W (ga_lookup nsearch s) (fun r _ k' => owns bs k' /\ forall h, r = Some h -> host_ok h) g k.
Proof.
  intros Ho. unfold ga_lookup. apply wp_bind. eapply wp_lookup; [done|done|]. intros o k1 Ho1 _.
  eapply (wp_seq _ _ _ (fun _ _ => owns bs)).
  { destruct (_ =? 0); [|by wp_step]. by eapply wp_lookup. }
  intros u g2 k2 Ho2. apply wp_bind. eapply wp_lookup; [done|done|]. intros o1 k3 Ho3 _.
  destruct (nsearch =? 2).
  - apply wp_bind. eapply wp_lookup; [done|done|]. intros u4 k4 Ho4 _.
    eapply wp_lookup; [done|done|]. intros r k5 Ho5 E. split; [done|]. intros h ->.
    by eapply rk_gethostbyname2.
  - apply wp_bind. eapply wp_lookup; [done|done|]. intros u4 k4 Ho4 _.
    eapply wp_lookup; [done|done|]. intros r k5 Ho5 E. split; [done|]. intros h ->.
    by eapply rk_gethostbyname.
Qed.

(** A list of Internet structures made for these hints. *)
Definition made (hints : gai_hints) (l : list addrinfo) : Prop :=
  Forall (fun v => exists a f, inet_family f /\ v = new_view hints a f) (view <$> l).
Lemma made_inet hints l : made hints l -> Forall inet_view (view <$> l).
Proof.
  intros Hm. eapply Forall_impl; [exact Hm|]. intros v (a & f & Hf & ->). by apply new_view_inet.
Qed.
Lemma made_snoc hints l ai a f :
  made hints l -> inet_family f -> view ai = new_view hints a f -> made hints (l ++ [ai]).
Proof.
  intros Hm Hf Hv. unfold made. rewrite fmap_app. apply Forall_app. split; [done|].
  constructor; [|constructor]. rewrite Hv. eauto.
Qed.

(** After a turn the list and canon are owned; without error they are as made. *)
Definition turn_post (hostname : option (list Z)) (hints : gai_hints) (canon : option (Z * list Z))
    (bs : list Z) (t : turn) (k' : K) : Prop :=
  let '(rc, l, c) := t in
  owns (blocks l ++ opt_block c ++ bs) k' /\ (rc = 0 -> made hints l) /\
  (wants_canon hostname hints = false -> c = canon).

Lemma ga_addrs_spec hints family aps : forall l bs g k,
  owns (blocks l ++ bs) k -> made hints l -> inet_family family -> Forall (addr_ok family) aps ->
  W (ga_addrs l hints aps family) (fun '(rc, l') _ k' =>
    owns (blocks l' ++ bs) k' /\ (rc = 0 -> made hints l')) g k.
Proof.
  induction aps as [|ap aps IH]; intros l bs g k Ho Hm Hf Ha; cbn [ga_addrs]; [by wp_step|].
  apply Forall_cons in Ha as [Hap Ha].
  eapply wp_seq; [by apply ga_aistruct_spec|].
  intros [rc l1] g1 k1 [Ho1 [->|(-> & ai & -> & Hv)]]; simpl; [by wp_step|].
  apply IH; [done|by eapply made_snoc|done|done].
Qed.

Lemma numeric_spec af size host g k :
  (af = AF_INET /\ size = 4 \/ af = AF_INET6 /\ size = 16) ->
  W (numeric af size host) (fun r _ k' => k' = k /\ forall a, r = Some a -> addr_ok af a) g k.
Proof.
  intros Ha. unfold numeric. apply wp_bind.
  assert (exists rc e d, inet_pton af host (replicate (Z.to_nat size) 0) 0 = Some (rc, e, d) /\
    length d = Z.to_nat size) as (rc & e & d & E & Hd).
  { unfold inet_pton. destruct Ha as [[-> ->]|[-> ->]].
    - destruct (V6.inet_pton4_safe host (replicate 4 0) 0) as (rc & d & E & Hd & _); [done|done|].
      change (AF_INET =? AF_INET) with true. change (Z.to_nat 4) with 4%nat. cbv iota.
      rewrite E. simpl. eauto.
    - destruct (V6.inet_pton6_safe host (replicate 16 0) 0) as (rc & d & E & Hd & _); [done|done|].
      change (AF_INET6 =? AF_INET) with false. change (AF_INET6 =? AF_INET6) with true.
      change (Z.to_nat 16) with 16%nat. cbv iota. rewrite E. simpl. eauto. }
  eapply wp_mem; [exact E|]. cbn beta iota. wp_step. split; [done|]. intros a.
  destruct (rc =? 1); [|done]. intros [= <-].
  destruct Ha as [[-> ->]|[-> ->]]; split; intros Hx; try done; rewrite Hd; done.
Qed.

Lemma ga_numeric_spec hostname hints s a af l canon bs g k :
  owns (blocks l ++ opt_block canon ++ bs) k -> made hints l -> inet_family af -> addr_ok af a ->
  W (ga_numeric hints s a af l canon) (fun t _ => turn_post hostname hints canon bs t) g k.
Proof.
  intros Ho Hm Hf Ha. unfold ga_numeric. destruct (_ && _); [by wp_step|].
  destruct (negb _); [by wp_step|].
  eapply wp_seq; [by apply ga_aistruct_spec|].
  intros [rc l1] g1 k1 [Ho1 [->|(-> & ai & -> & Hv)]]; wp_step; (split_and!; [done| |done]); [done|].
  intros _. by eapply made_snoc.
Qed.

Lemma ga_host_spec hostname hints nsearch s l canon bs g k :
  owns (blocks l ++ opt_block canon ++ bs) k -> made hints l ->
  W (ga_host hostname hints nsearch s l canon) (fun t _ => turn_post hostname hints canon bs t) g k.
Proof.
  intros Ho Hm. unfold ga_host. eapply wp_seq; [by apply ga_lookup_spec|].
  intros [h|] g1 k1 [Ho1 Hh].
  2:{ destruct (nsearch =? 2); [by wp_step|]. apply wp_bind.
      eapply wp_lookup; [done|done|]. intros e k2 Ho2 _. by wp_step. }
  destruct (Hh h eq_refl) as [Hfam Haddr]. destruct (negb _ && _); [by wp_step|].
  eapply (wp_seq _ _ _ (fun c _ k' => match c with
    | None => owns (blocks l ++ opt_block canon ++ bs) k'
    | Some c1 => owns (blocks l ++ opt_block c1 ++ bs) k' /\
        (wants_canon hostname hints = false -> c1 = canon)
    end)).
  { destruct (wants_canon hostname hints); cbn [andb]; [|by wp_step].
    destruct (bool_decide (canon = None)) eqn:Ec; [|by wp_step].
    apply bool_decide_eq_true in Ec as ->. apply wp_bind. eapply wp_strdup; [done|..].
    - intros p k2 Ho2. wp_step. split; [own|done].
    - intros e k2 Ho2. by wp_step. }
  intros [c1|] g2 k2 Ho2; [destruct Ho2 as [Ho2 Hc2]|by wp_step].
  eapply wp_seq; [by apply ga_addrs_spec|]. intros [rc l2] g3 k3 [Ho3 Hm3]. by wp_step.
Qed.

Lemma ga_turn_spec hostname hints nsearch s l canon bs g k :
  owns (blocks l ++ opt_block canon ++ bs) k -> made hints l ->
  W (ga_turn hostname hints nsearch s l canon) (fun t _ => turn_post hostname hints canon bs t) g k.
Proof.
  intros Ho Hm. unfold ga_turn.
  eapply (wp_seq _ _ _ (fun r _ k' => k' = k /\ forall a, r = Some a -> addr_ok AF_INET a)).
  { destruct (isdigit _); [by apply numeric_spec; left|by wp_step]. }
  intros [a|] g1 k1 [-> Ha]; [apply ga_numeric_spec; [done|done|by left|by apply Ha]|].
  eapply (wp_seq _ _ _ (fun r _ k' => k' = k /\ forall a, r = Some a -> addr_ok AF_INET6 a)).
  { destruct (_ && _); [by apply numeric_spec; right|by wp_step]. }
  intros [a|] g2 k2 [-> Ha2]; [apply ga_numeric_spec; [done|done|by right|by apply Ha2]|].
  by apply ga_host_spec.
Qed.

Lemma ga_loop_spec hostname hints nsearch ss bs : forall l canon g k,
  owns (blocks l ++ opt_block canon ++ bs) k -> made hints l ->
  W (ga_loop hostname hints nsearch ss l canon) (fun t _ => turn_post hostname hints canon bs t) g k.
Proof.
  induction ss as [|s ss IH]; intros l canon g k Ho Hm; cbn [ga_loop]; [by wp_step|].
  eapply wp_seq; [by apply ga_turn_spec|]. intros [[rc l1] c1] g1 k1 (Ho1 & Hm1 & Hc1).
  destruct (Z.eqb_spec rc 0) as [->|Hrc]; simpl; [|by wp_step].
  eapply wp_mono; [apply IH; auto|]. intros [[rc2 l2] c2] g2 k2 (Ho2 & Hm2 & Hc2).
  split_and!; [done|done|]. intros Hw. by rewrite Hc2, Hc1.
Qed.

Lemma bad_spec e l bs g k :
  owns (blocks l ++ bs) k -> W (bad e l) (fun r _ k' => r = (e, []) /\ owns bs k') g k.
Proof.
  intros Ho. unfold bad. eapply wp_seq; [by apply freeaddrinfo_spec|]. intros u g1 k1 [_ Ho1]. by wp_step.
Qed.

(** Success or failure, the blocks owned are those of the list returned. *)
Definition all_owned (r : Z * list addrinfo) (k' : K) : Prop :=
  owns (blocks r.2) k' /\ (r.1 <> 0 -> r.2 = []).

Lemma bad_owned e l g k : owns (blocks l) k -> W (bad e l) (fun r _ => all_owned r) g k.
Proof.
  intros Ho. eapply wp_mono; [apply (bad_spec e l []); by rewrite app_nil_r|].
  intros r g1 k1 [-> Ho1]. done.
Qed.

Lemma ga_finish_owned `{Platform} hostname servname hints s0 l g k :
  owns (blocks l) k -> made hints l -> wants_canon hostname hints = false ->
  W (ga_finish hostname servname hints s0 l None) (fun r _ => all_owned r) g k.
Proof.
  intros Ho Hm Hw. unfold ga_finish. destruct l as [|ai r]; [by apply bad_owned|].
  rewrite Hw. wp_step. cbn iota.
  destruct servname as [[|c serv]|]; [by wp_step| |by wp_step].
  eapply wp_seq; [apply (ga_serv_owns _ _ _ []); [by rewrite app_nil_r|by eapply made_inet]|].
  intros [rc l2] g1 k1 Ho1. rewrite app_nil_r in Ho1.
  destruct (Z.eqb_spec rc 0) as [->|Hrc]; simpl; [by wp_step|]. by apply bad_owned.
Qed.

Lemma ga_nsearch_spec hostname hints g k :
  (h_family hints = AF_UNSPEC \/ inet_family (h_family hints)) ->
  W (ga_nsearch hostname hints) (fun _ _ k' => k' = k) g k.
Proof.
  intros Hf. unfold ga_nsearch, by_family.
  destruct Hf as [->|[->| ->]]; destruct hostname as [[|c h]|]; try destruct (has _ _); by apply wp_ret.
Qed.

(** The families that ga_echeck lets through, AF_LOCAL apart. *)
Lemma ga_echeck_family hostname servname fl f st pr :
  ga_echeck hostname servname fl f st pr = 0 -> f <> AF_LOCAL -> f = AF_UNSPEC \/ inet_family f.
Proof.
  unfold ga_echeck, inet_family. intros H Hl. destruct (negb _); [done|]. destruct (_ && _); [done|].
  destruct (Z.eqb_spec f AF_UNSPEC); [auto|]. destruct (Z.eqb_spec f AF_INET); [auto|].
  destruct (Z.eqb_spec f AF_INET6); [auto|]. by destruct (Z.eqb_spec f AF_LOCAL).
Qed.

Lemma getaddrinfo_ip_owned `{Platform} hostname servname hints g k :
  owns [] k -> (h_family hints = AF_UNSPEC \/ inet_family (h_family hints)) ->
  wants_canon hostname hints = false ->
  W (getaddrinfo_ip hostname servname hints) (fun r _ => all_owned r) g k.
Proof.
  intros Ho Hf Hw. unfold getaddrinfo_ip. eapply wp_seq; [by apply ga_nsearch_spec|].
  intros ss g1 k1 ->. eapply wp_seq; [apply (ga_loop_spec _ _ _ _ []); [done|constructor]|].
  intros [[rc l] c] g2 k2 (Ho2 & Hm2 & Hc2). rewrite (Hc2 Hw) in Ho2. cbn [opt_block app] in Ho2. rewrite app_nil_r in Ho2.
  rewrite (Hc2 Hw). destruct (Z.eqb_spec rc 0) as [->|Hrc]; simpl.
  - by apply ga_finish_owned; auto.
  - by apply bad_owned.
Qed.

(** ** A port number for every address and socket type *)

(** The socket types a caller who gives none (0) gets. *)
Definition socktypes (t : Z) : list Z := if t =? 0 then [SOCK_STREAM; SOCK_DGRAM] else [t].
(** What a caller sees of a structure. *)
Definition triple (v : aiv) : Z * Z * option sockaddr := (v_family v, v_socktype v, v_addr v).
Definition ported (port : Z) (v : aiv) : option sockaddr := v_addr (fill_view port 0 v).

Lemma total_nonneg st vs : 0 <= total (port_found st <$> vs).
Proof.
  induction vs as [|v vs IH]; [done|].
  change (0 <= port_found st v + total (port_found st <$> vs)).
  unfold port_found at 1. destruct (_ || _); lia.
Qed.

Lemma made_total hints l st :
  made hints l -> (st = SOCK_STREAM \/ h_socktype hints = st) ->
  (h_socktype hints = 0 \/ h_socktype hints = st) ->
  total (port_found st <$> (view <$> l)) = Z.of_nat (length l).
Proof.
  intros Hm Hst H0. unfold made in Hm. rewrite Forall_fmap in Hm.
  induction Hm as [|ai l (a & f & Hf & Hv) Hm IH]; [done|].
  change (port_found st (view ai) + total (port_found st <$> (view <$> l)) = Z.of_nat (S (length l))).
  rewrite IH. simpl in Hv. rewrite Hv. unfold port_found. cbn [v_flags v_socktype new_view].
  destruct H0 as [-> | ->]; [|rewrite Z.eqb_refl, orb_true_r; lia].
  change (has (if 0 =? 0 then AI_CLONE else 0) AI_CLONE) with true. cbn [orb]. lia.
Qed.

Lemma port_view_given hints a f port :
  h_socktype hints <> 0 ->
  port_view port (h_socktype hints) (new_view hints a f) =
    [fill_view port (h_socktype hints) (new_view hints a f)].
Proof.
  intros H0. unfold port_view, new_view. cbn.
  destruct (Z.eqb_spec (h_socktype hints) 0); [done|]. cbn. by rewrite Z.eqb_refl.
Qed.

Lemma port_view_both hints a f port :
  h_socktype hints = 0 ->
  port_view port SOCK_STREAM (new_view hints a f) = [fill_view port SOCK_STREAM (new_view hints a f)] /\
  port_view port SOCK_DGRAM (fill_view port SOCK_STREAM (new_view hints a f)) =
    [fill_view port SOCK_STREAM (new_view hints a f);
     fill_view port SOCK_DGRAM (clone_view (fill_view port SOCK_STREAM (new_view hints a f)))].
Proof. intros E. unfold new_view. by rewrite E. Qed.

(** The views after the pass or passes of ga_port for a numeric service. *)
Lemma made_ports hints l port :
  made hints l ->
  triple <$> (if h_socktype hints =? 0
              then ((view <$> l) ≫= port_view port SOCK_STREAM) ≫= port_view port SOCK_DGRAM
              else (view <$> l) ≫= port_view port (h_socktype hints)) =
  (view <$> l) ≫= fun v => (fun t => (v_family v, t, ported port v)) <$> socktypes (h_socktype hints).
Proof.
  unfold made. intros Hm. unfold socktypes. destruct (Z.eqb_spec (h_socktype hints) 0) as [E|E].
  - induction Hm as [|v vs (a & f & Hf & ->) Hm IH]; [done|].
    rewrite !bind_cons. destruct (port_view_both hints a f port E) as [-> E2].
    rewrite bind_app, bind_cons, E2, fmap_app, IH.
    unfold triple, ported, fill_view, clone_view, new_view. cbn. by destruct (f =? AF_INET).
  - induction Hm as [|v vs (a & f & Hf & ->) Hm IH]; [done|].
    rewrite !bind_cons, port_view_given, fmap_app, IH by done.
    unfold triple, ported, fill_view, new_view. cbn. by destruct (f =? AF_INET).
Qed.

Lemma ga_serv_numeric `{Platform} l hints serv bs g k :
  owns (blocks l ++ bs) k -> made hints l -> l <> [] -> isdigit (char0 serv) = true ->
  W (ga_serv l hints serv) (fun '(rc, l') _ k' =>
      owns (blocks l' ++ bs) k' /\
      (rc = EAI_MEMORY \/
       rc = 0 /\ triple <$> (view <$> l') =
         (view <$> l) ≫= fun v => (fun t => (v_family v, t, ported (htons (u16 (atoi serv))) v))
                                    <$> socktypes (h_socktype hints))) g k.
Proof.
  intros Ho Hm Hne Hd. unfold ga_serv. rewrite Hd. set (port := htons (u16 (atoi serv))).
  pose proof (made_ports hints l port Hm) as HP. pose proof (made_inet _ _ Hm) as Hi.
  assert (0 < Z.of_nat (length l)) as Hl by (destruct l; [done|simpl; lia]).
  destruct (Z.eqb_spec (h_socktype hints) 0) as [E|E]; cbn [negb].
  - apply try_port_spec with (bs := bs); [done|done|by intros; split; [|left]|]. intros l1 g1 k1 Ho1 Hv1.
    apply try_port_spec with (bs := bs); [done| |by intros; split; [|left]|].
    { rewrite Hv1. by apply port_views_inet. }
    intros l2 g2 k2 Ho2 Hv2. apply wp_ret. split; [done|right].
    rewrite Hv2, Hv1. split; [|exact HP].
    rewrite (made_total hints l SOCK_STREAM) by auto.
    set (vs := _ ≫= _). pose proof (total_nonneg SOCK_DGRAM vs). set (m := total _) in *.
    destruct (Z.eqb_spec (0 + Z.of_nat (length l) + m) 0); [lia|done].
  - apply try_port_spec with (bs := bs); [done|done|by intros; split; [|left]|]. intros l1 g1 k1 Ho1 Hv1.
    apply wp_ret. split; [done|right]. rewrite Hv1. split; [|exact HP].
    rewrite (made_total hints l (h_socktype hints)) by auto.
    destruct (Z.eqb_spec (0 + Z.of_nat (length l)) 0); [lia|done].
Qed.
End Heap.

(** The cloning of addrinfo structures does what the comment in ga_port.c
    promises: for the structures made for any list of Internet addresses and a
    numeric service, ga_serv either runs out of memory or returns 0 with, for
    each address in order, one structure per socket type (stream then datagram
    when the caller gave none, otherwise the one given), each with that port. *)
Theorem ga_serv_per_socktype {K} `{!Kernel K} `{!ResolverKernel K} `{Platform}
    (l : list addrinfo) (hints : gai_hints) (serv : list Z) g (k : K) :
  made hints l -> l <> [] -> NoDup (blocks l) -> list_to_set (blocks l) ⊆ live k ->
  isdigit (char0 serv) = true ->
  exists rc l' g' k',
    run (ga_serv l hints serv) g k = (Done (rc, l'), g', k') /\
    (rc = EAI_MEMORY \/
     rc = 0 /\ triple <$> (view <$> l') =
       (view <$> l) ≫= fun v => (fun t => (v_family v, t, ported (htons (u16 (atoi serv))) v))
                                  <$> socktypes (h_socktype hints)).
Proof.
  intros Hm Hne Hd Hsub Hdig.
  assert (owns (live k ∖ list_to_set (blocks l)) (blocks l ++ []) k) as Ho.
  { rewrite app_nil_r. split_and!; [done| |].
    - intros p Hp. rewrite elem_of_difference, elem_of_list_to_set. tauto.
    - by rewrite difference_union_L, (comm_L (∪)), subseteq_union_1_L. }
  pose proof (ga_serv_numeric _ l hints serv [] g k Ho Hm Hne Hdig) as W. rewrite wp_run in W.
  destruct (run (ga_serv l hints serv) g k) as [[[[rc l']|h] g'] k']; [|done].
  destruct W as [_ W]. eauto 10.
Qed.

Lemma nsearch_local (c : Z) (h : list Z) (st : Z) :
  ga_nsearch (Some (c :: h)) (Hints 0 AF_LOCAL st 0) = err_quit (str "nsearch = " ++ fmt_d 0).
Proof. done. Qed.

(** getaddrinfo ends the process instead of returning an error for AF_LOCAL:
    ga_echeck accepts the family, but a host other than /local and /unix then
    reaches ga_nsearch, which has no case for it and calls err_quit. *)
Theorem getaddrinfo_local_exits {K} `{!Kernel K} `{Platform} (h serv : list Z) (st : Z) g (k : K) :
  daemon_proc g = 0 -> h <> [] -> is_unix_host h = false -> (st = 0 \/ st = SOCK_STREAM \/ st = SOCK_DGRAM) ->
  exists g' k', run (getaddrinfo (Some h) (Some serv) (Some (Hints 0 AF_LOCAL st 0))) g k =
    (Halted (Exit 1), g', k').
Proof.
  intros Hd Hh Hu Hst. unfold getaddrinfo.
  assert (ga_echeck (Some h) (Some serv) 0 AF_LOCAL st 0 = 0) as E.
  { destruct h; [done|]. destruct Hst as [->|[->| ->]]; done. }
  cbn [h_flags h_family h_socktype h_protocol]. rewrite E. cbn [negb Z.eqb].
  assert (exists g' k', run (getaddrinfo_ip (Some h) (Some serv) (Hints 0 AF_LOCAL st 0)) g k =
    (Halted (Exit 1), g', k')) as R.
  { unfold getaddrinfo_ip. destruct h as [|c h]; [done|]. rewrite nsearch_local, run_bind.
    destruct (run_err_quit (A := list search) (str "nsearch = " ++ fmt_d 0) g k) as (x & g' & k' & Er & [->|[]]); [|done].
    exists g', k'. by rewrite Er. }
  destruct serv as [|c p]; [exact R|]. rewrite Hu.
  destruct c as [|c|c]; try exact R. do 6 (destruct c as [c|c|]; try exact R).
Qed.

(** ** A system that keeps the contract

    An allocator that hands out increasing addresses, and a resolver that knows
    one host with two addresses. *)
Record heap := Heap { hp_live : gset Z; hp_next : Z }.

Definition hp_alloc (k : heap) : res Z * heap :=
  let p := fresh (hp_live k) in (Ok p, Heap ({[p]} ∪ hp_live k) (hp_next k)).
Definition one_host : hostent :=
  Hostent (str "two.example") [] AF_INET 4 [[10; 0; 0; 1]; [10; 0; 0; 2]].

#[export] Instance heap_kernel : Kernel heap := {|
  kcall X e :=
    match e in sysE X return heap -> res X * heap with
    | Ecalloc _ _ | Emalloc _ => hp_alloc
    | Estrdup _ => hp_alloc
    | _ => fun k => (Err ENOSYS, k)
    end;
  klib X e :=
    match e in libE X return heap -> X * heap with
    | Efree p => fun k => (tt, Heap (hp_live k ∖ {[p]}) (hp_next k))
    | Egethostbyname _ => fun k => (Some one_host, k)
    | Egethostbyname2 _ f => fun k => (if f =? AF_INET then Some one_host else None, k)
    | e => fun k => ((@klib unit (failing_kernel ENOSYS) _ e tt).1, k)
    end |}.

Lemma one_host_ok : host_ok one_host.
Proof. split; [by left|]. repeat constructor; done. Qed.

#[export] Instance heap_heap : HeapKernel heap.
Proof.
  refine {| live := hp_live |}.
  - intros k n s. cbn. split; [apply is_fresh|done].
  - intros k s. cbn. split; [apply is_fresh|done].
  - intros k s. cbn. split; [apply is_fresh|done].
  - done.
  - intros X e k Hn. by destruct e.
Defined.
#[export] Instance heap_resolver : ResolverKernel heap.
Proof.
  refine {| rk_heap := heap_heap |}.
  - done.
  - intros k s h k' [= <- _]. apply one_host_ok.
  - intros k s f h k' E. cbn in E. destruct (f =? AF_INET); [|done]. injection E as <- _. apply one_host_ok.
Defined.

Definition heap0 : heap := Heap ∅ 0.


(** Two addresses, no socket type: four structures. *)
Definition two_addrs : list addrinfo :=
  [Addrinfo 1 AI_CLONE AF_INET 0 0 16 None (Some (2, SaIn (SockaddrIn 0 [10; 0; 0; 1])));
   Addrinfo 3 AI_CLONE AF_INET 0 0 16 None (Some (4, SaIn (SockaddrIn 0 [10; 0; 0; 2])))].
Definition heap4 : heap := Heap {[1; 2; 3; 4]} 5.

Lemma ga_serv_per_socktype_witness :
  exists rc l' g' k',
    run (ga_serv (H := sparc64) two_addrs (Hints 0 AF_INET 0 0) (str "13")) globals0 heap4 = (Done (rc, l'), g', k') /\
    (rc = EAI_MEMORY \/
     rc = 0 /\ triple <$> (view <$> l') =
       [(AF_INET, SOCK_STREAM, Some (SaIn (SockaddrIn 13 [10; 0; 0; 1])));
        (AF_INET, SOCK_DGRAM, Some (SaIn (SockaddrIn 13 [10; 0; 0; 1])));
        (AF_INET, SOCK_STREAM, Some (SaIn (SockaddrIn 13 [10; 0; 0; 2])));
        (AF_INET, SOCK_DGRAM, Some (SaIn (SockaddrIn 13 [10; 0; 0; 2])))]).
Proof.
  refine (ga_serv_per_socktype (H := sparc64) two_addrs (Hints 0 AF_INET 0 0) (str "13") globals0 heap4 _ _ _ _ _).
  - repeat (apply Forall_cons; split); [..|constructor]; eexists _, AF_INET; (split; [by left|]); reflexivity.
  - done.
  - apply (bool_decide_unpack _). by vm_compute.
  - apply (bool_decide_unpack _). by vm_compute.
  - done.
Defined.

Lemma getaddrinfo_local_exits_witness :
  exists g' k', run (getaddrinfo (H := sparc64) (Some (str "localhost")) (Some (str "echo"))
    (Some (Hints 0 AF_LOCAL SOCK_STREAM 0))) globals0 heap0 = (Halted (Exit 1), g', k').
Proof.
  refine (getaddrinfo_local_exits (H := sparc64) (str "localhost") (str "echo") SOCK_STREAM globals0 heap0 _ _ _ _);
    [done|done|done|by right; left].
Defined.
End GaiProofs.
