(* ===== verification/GaiNumeric.v ===== *)
(** * Numeric names: getaddrinfo inverts getnameinfo

    For the text of an address and the digits of a port getaddrinfo asks no
    resolver: it returns the address for each socket type, and so gives back
    the socket address getnameinfo printed. *)
From stdpp Require Import base list numbers strings sets gmap.
From S2P Require Import Prelude InetAddr InetV4 InetV6 Sys Error Wrap StreamIO StreamProofs SockAddr Connect Hoare Heap Gai GaiProofs.

Module GaiNumeric.
Import Gai GaiProofs.

(** ** Numeric names *)

Lemma split_dots_elem c t :
  c ∈ t -> c <> 46 -> exists seg, seg ∈ (V4.split_dots t).1 :: (V4.split_dots t).2 /\ (c ∈ seg).
Proof.
  intros Hin Hc. induction t as [|x t IH]; [by apply elem_of_nil in Hin|].
  cbn [V4.split_dots]. destruct (V4.split_dots t) as [seg segs]. cbn [fst snd] in IH.
  destruct (Z.eqb_spec x 46) as [->|Hx]; cbn [fst snd].
  - apply elem_of_cons in Hin as [->|Hin]; [done|]. destruct (IH Hin) as (sg & Hs & Hcs).
    exists sg. split; [by right|done].
  - apply elem_of_cons in Hin as [->|Hin].
    + exists (x :: seg). split; left.
    + destruct (IH Hin) as (sg & [->|Hs]%elem_of_cons & Hcs).
      * exists (x :: seg). split; [left|by right].
      * exists sg. split; [by right|done].
Qed.

(** A text with a colon is not a dotted quad. *)
Lemma quad_ref_colon t : 58 ∈ t -> V4.quad_ref t = None.
Proof.
  intros Hin. destruct (split_dots_elem 58 t Hin) as (seg & Hs & Hc); [done|].
  unfold V4.quad_ref. destruct (V4.split_dots t) as [sg sgs]. cbn [fst snd] in Hs.
  destruct (mapM V4.octet (sg :: sgs)) as [bs|] eqn:E; [exfalso|done].
  apply mapM_Some_1 in E. apply list_elem_of_lookup in Hs as [i Hi].
  destruct (Forall2_lookup_l _ _ _ _ _ E Hi) as (b & _ & Ho).
  unfold V4.octet, V4.octet_from in Ho. destruct (_ && _) eqn:C; [|done].
  apply andb_prop in C as [C _]. apply andb_prop in C as [_ C].
  rewrite forallb_forall in C. specialize (C 58). apply list_elem_of_In in Hc. by specialize (C Hc).
Qed.

Lemma fmt_x_xdigit w : is_u16 w -> exists c t, fmt_x w = c :: t /\ isxdigit c = true.
Proof.
  intros Hw. destruct (digits_spec 16 w) as (_ & R & N); [unfold is_u16 in *; lia..|].
  unfold fmt_x. destruct (digits 16 w) as [|d ds]; [done|]. inversion_clear R as [|?? Hd _].
  simpl. do 2 eexists. split; [done|]. unfold isxdigit, isdigit, digit_char. zbool.
Qed.

(** The text of an IPv6 address: a colon in it, a colon or hexadecimal digit first. *)
Lemma ntop6_str_shape ws :
  length ws = 8%nat -> Forall is_u16 ws ->
  58 ∈ V6.ntop6_str ws /\ isxdigit (char0 (V6.ntop6_str ws)) || (char0 (V6.ntop6_str ws) =? 58) = true.
Proof.
  intros Hl Hws.
  assert (forall vs r, Forall is_u16 vs -> vs <> [] ->
    58 ∈ V6.hexcolons vs ++ r /\ isxdigit (char0 (V6.hexcolons vs ++ r)) = true) as HX.
  { intros [|v vs] r Hv Hne; [done|]. destruct (fmt_x_xdigit v (Forall_inv Hv)) as (c & t & E & Hc).
    unfold V6.hexcolons. cbn [flat_map]. rewrite E. split; [|done].
    apply elem_of_app. left. apply elem_of_app. left. apply elem_of_app. right. left. }
  destruct (V6.address_ok ws _ Hl Hws (V6.ntop6_best_ok ws Hl)) as [_ [C|(vs & w & -> & Hv & E)]];
    unfold V6.ntop6_str.
  - destruct C as (pre & post & n & t & Hp & Ht & Hs & -> & ->). destruct pre as [|v pre].
    + split; [left|done].
    + destruct (HX (v :: pre) (58 :: t) Hp) as [H1 H2]; [done|]. cbn [app]. by rewrite H2.
  - rewrite E. apply Forall_app in Hws as [Hvs _].
    destruct (HX vs (fmt_x w) Hvs) as [H1 H2]; [by intros ->|]. by rewrite H2.
Qed.

(** [h] is the text of the address [a] of family [f] and of no other. *)
Definition num_host (h : list Z) (f : Z) (a : list Z) : Prop :=
  f = AF_INET /\ isdigit (char0 h) = true /\
    inet_pton AF_INET h (replicate 4 0) 0 = Some (1, None, a) /\ length a = 4%nat \/
  f = AF_INET6 /\ (isxdigit (char0 h) || (char0 h =? 58)) = true /\ strchr h 58 <> None /\
    inet_pton AF_INET h (replicate 4 0) 0 = Some (0, None, replicate 4 0) /\
    inet_pton AF_INET6 h (replicate 16 0) 0 = Some (1, None, a) /\ length a = 16%nat.

Lemma fmt_u_isdigit0 a r : 0 <= a -> isdigit (char0 (fmt_u a ++ r)) = true.
Proof.
  intros Ha. pose proof (fmt_u_isdigit a Ha) as Hd. pose proof (V4.fmt_u_nonempty a Ha) as Hn.
  destruct (fmt_u a) as [|c t]; [done|]. by inversion Hd.
Qed.

Section Numeric.
Context {K : Type} `{HK : !Kernel K} `{HR : !ResolverKernel K}.
Context (L : gset Z).
Implicit Types (k : K) (g : globals).
Abbreviation W := (wp (fun _ => False)).

Lemma numeric_yes af size host a (Q : option (list Z) -> globals -> K -> Prop) g k :
  inet_pton af host (replicate (Z.to_nat size) 0) 0 = Some (1, None, a) ->
  Q (Some a) g k -> W (numeric af size host) Q g k.
Proof. intros E HQ. unfold numeric. apply wp_bind. eapply wp_mem; [exact E|]. by apply wp_ret. Qed.
Lemma numeric_no af size host d (Q : option (list Z) -> globals -> K -> Prop) g k :
  inet_pton af host (replicate (Z.to_nat size) 0) 0 = Some (0, None, d) ->
  Q None g k -> W (numeric af size host) Q g k.
Proof. intros E HQ. unfold numeric. apply wp_bind. eapply wp_mem; [exact E|]. by apply wp_ret. Qed.

(** A turn for a numeric host adds its address when the entry is of its family. *)
Lemma ga_turn_numeric hostname hints n f a h sf l canon g k :
  owns L (blocks l) k -> num_host h f a ->
  (h_family hints = AF_UNSPEC \/ h_family hints = f) ->
  W (ga_turn hostname hints n (Search h sf) l canon) (fun '(rc, l', c) _ k' =>
      owns L (blocks l') k' /\ c = canon /\
      (rc = EAI_MEMORY \/
       rc = 0 /\ if sf =? f then exists ai, l' = l ++ [ai] /\ view ai = new_view hints a f
                 else l' = l)) g k.
Proof.
  intros Ho Hn Hf.
  assert (inet_family f -> addr_ok f a -> W (ga_numeric hints (Search h sf) a f l canon)
    (fun '(rc, l', c) _ k' => owns L (blocks l') k' /\ c = canon /\
      (rc = EAI_MEMORY \/
       rc = 0 /\ if sf =? f then exists ai, l' = l ++ [ai] /\ view ai = new_view hints a f
                 else l' = l)) g k) as HN.
  { intros Hif Ha. unfold ga_numeric. cbn [s_family].
    replace (_ && _) with false by (destruct Hf as [->| ->]; [done|by rewrite Z.eqb_refl, andb_comm]).
    destruct (Z.eqb_spec sf f) as [->|Hne]; cbn [negb]; [|by wp_step; auto].
    eapply wp_seq; [apply (ga_aistruct_spec L l hints a f []); [by rewrite app_nil_r|done|done]|].
    intros [rc l1] g1 k1 [Ho1 Hr]. rewrite app_nil_r in Ho1. by wp_step. }
  unfold ga_turn. cbn [s_host].
  destruct Hn as [(-> & Hd & Hp & Hl)|(-> & Hx & Hc & Hp4 & Hp6 & Hl)].
  - rewrite Hd. apply wp_bind. eapply numeric_yes; [exact Hp|]. apply HN; [by left|by split].
  - apply wp_bind.
    assert (W (if isdigit (char0 h) then numeric AF_INET 4 h else Ret None)
      (fun r g' k' => r = None /\ g' = g /\ k' = k) g k) as H4.
    { destruct (isdigit (char0 h)); [|by apply wp_ret]. by eapply numeric_no. }
    eapply wp_mono; [exact H4|]. intros r g' k' (-> & -> & ->). rewrite Hx, bool_decide_true by done.
    cbn [andb]. apply wp_bind. eapply numeric_yes; [exact Hp6|]. apply HN; [by right|by split].
Qed.

Lemma ga_nsearch_host c0 h hints :
  (h_family hints = AF_UNSPEC \/ inet_family (h_family hints)) ->
  ga_nsearch (Some (c0 :: h)) hints = Ret (by_family (h_family hints) (c0 :: h) (c0 :: h)).
Proof. unfold ga_nsearch. by intros [->|[->| ->]]. Qed.

(** The allocation failed: the error is returned. *)
Ltac mem_err := change (EAI_MEMORY =? 0) with false; cbn [negb]; wp_step; auto.

(** The loop: the address is found once, whatever the family asked for. *)
Lemma ga_loop_numeric hints f a host n k g :
  owns L [] k -> num_host host f a -> inet_family f ->
  (h_family hints = AF_UNSPEC \/ h_family hints = f) ->
  W (ga_loop (Some host) hints n (by_family (h_family hints) host host) [] None)
    (fun '(rc, l, c) _ k' => owns L (blocks l) k' /\ c = None /\
      (rc = EAI_MEMORY \/ rc = 0 /\ exists ai, l = [ai] /\ view ai = new_view hints a f)) g k.
Proof.
  intros Ho Hn Hif Hf.
  pose proof (fun sf l canon g k Ho => ga_turn_numeric (Some host) hints n f a host sf l canon g k Ho Hn Hf) as HT.
  destruct Hf as [Hf|Hf]; rewrite Hf.
  - change (by_family AF_UNSPEC host host) with [Search host AF_INET6; Search host AF_INET]. cbn [ga_loop].
    eapply wp_seq; [by apply HT|]. intros [[rc l] c] g1 k1 (Ho1 & -> & [->|[-> Hr]]); [by mem_err|].
    cbn [negb Z.eqb]. eapply wp_seq; [by apply HT|].
    intros [[rc l2] c] g2 k2 (Ho2 & -> & [->|[-> Hr2]]); [by mem_err|]. cbn [negb Z.eqb]. wp_step.
    split; [done|]. split; [done|]. right. split; [done|].
    destruct Hif as [->| ->]; cbn in Hr, Hr2.
    + subst l. destruct Hr2 as (ai & -> & ?). by exists ai.
    + subst l2. destruct Hr as (ai & -> & ?). by exists ai.
  - assert (by_family f host host = [Search host f]) as -> by (by destruct Hif as [->| ->]).
    cbn [ga_loop]. eapply wp_seq; [by apply HT|].
    intros [[rc l] c] g1 k1 (Ho1 & -> & [->|[-> Hr]]); [by mem_err|]. cbn [negb Z.eqb]. wp_step.
    rewrite Z.eqb_refl in Hr. destruct Hr as (ai & -> & Hv). split; [done|]. split; [done|].
    right. split; [done|]. by exists ai.
Qed.

Lemma num_host_inet h f a : num_host h f a -> inet_family f.
Proof. by intros [(-> & _)|(-> & _)]; [left|right]. Qed.

Lemma getaddrinfo_numeric `{Platform} hints f a c0 h serv k g :
  owns L [] k -> num_host (c0 :: h) f a -> isdigit (char0 serv) = true ->
  (h_family hints = AF_UNSPEC \/ h_family hints = f) ->
  wants_canon (Some (c0 :: h)) hints = false ->
  W (getaddrinfo_ip (Some (c0 :: h)) (Some serv) hints) (fun '(rc, l) _ k' =>
      rc = EAI_MEMORY /\ l = [] \/
      rc = 0 /\ triple <$> (view <$> l) =
        (fun t => (f, t, ported (htons (u16 (atoi serv))) (new_view hints a f))) <$> socktypes (h_socktype hints)) g k.
Proof.
  intros Ho Hn Hs Hf Hw. pose proof (num_host_inet _ _ _ Hn) as Hif. unfold getaddrinfo_ip.
  rewrite ga_nsearch_host by (destruct Hf as [->| ->]; auto). wp_step.
  eapply wp_seq; [by eapply ga_loop_numeric|].
  intros [[rc l] c] g1 k1 (Ho1 & -> & [->|(-> & ai & -> & Hv)]); cbn [negb Z.eqb].
  - eapply wp_mono; [apply (bad_spec L EAI_MEMORY l []); by rewrite app_nil_r|].
    intros r g2 k2 [-> _]. by left.
  - unfold ga_finish. rewrite Hw. wp_step. cbn iota. destruct serv as [|c serv]; [done|].
    eapply wp_seq; [apply (ga_serv_numeric L [ai] hints (c :: serv) []); [by rewrite app_nil_r| |done|done]|].
    { unfold made. apply Forall_fmap, Forall_singleton. simpl. rewrite Hv. eauto. }
    intros [rc l2] g2 k2 [Ho2 [->|[-> Hr]]]; cbn [negb Z.eqb].
    + eapply wp_mono; [by apply (bad_spec L EAI_MEMORY l2 [])|]. intros r g3 k3 [-> _]. by left.
    + wp_step. right. split; [done|]. rewrite Hr. change (view <$> [ai]) with [view ai].
      rewrite Hv, bind_cons, app_nil_r. done.
Qed.
End Numeric.

(** ** getnameinfo *)
Definition NI_NUMERIC : Z := Z.lor NI_NUMERICHOST NI_NUMERICSERV.

(** snprintf of a text that fits, read back. *)
Lemma snprintf_fits a size t :
  Forall (fun c => c <> 0) t -> Z.of_nat (length t) < size <= Z.of_nat (length a) ->
  exists a', array_snprintf a size t = Some a' /\ cstring_at a' 0 = t.
Proof.
  intros Hz Hl. unfold array_snprintf, truncstr. rewrite take_ge by lia.
  destruct (strcpy a 0 t) as [a'|] eqn:E.
  - exists a'. split; [done|]. by eapply V4.cstring_at_strcpy.
  - by rewrite V4.strcpy_ok in E by lia.
Qed.

(** An Internet socket address of 4 or 16 bytes and a 16-bit port. *)
Definition inet_sa (sa : sockaddr) : Prop :=
  match sa with
  | SaIn s => is_u16 (sin_port s) /\ length (sin_addr s) = 4%nat /\ Forall is_byte (sin_addr s)
  | SaIn6 s => is_u16 (sin6_port s) /\ length (sin6_addr s) = 16%nat /\ Forall is_byte (sin6_addr s) /\
      sin6_flowinfo s = 0 /\ sin6_scope_id s = 0
  | _ => False
  end.
Definition sa_port (sa : sockaddr) : Z :=
  match sa with SaIn s => sin_port s | SaIn6 s => sin6_port s | _ => 0 end.
Definition sa_bytes (sa : sockaddr) : list Z :=
  match sa with SaIn s => sin_addr s | SaIn6 s => sin6_addr s | _ => [] end.

(** inet_ntop's text is a numeric host of the address. *)
Lemma ntop_num_host sa host :
  inet_sa sa -> Z.of_nat (length host) = 1025 ->
  exists host' c0 h, inet_ntop (sa_family sa) (sa_bytes sa) host 0 1025 = Some (CPtr host') /\
    cstring_at host' 0 = c0 :: h /\ num_host (c0 :: h) (sa_family sa) (sa_bytes sa).
Proof.
  intros Hsa Hh. destruct sa as [s|s| | |]; try done; cbn [sa_family sa_bytes].
  - destruct Hsa as (Hp & Hl & Hb). destruct s as [p a]. cbn [sin_addr] in *.
    destruct a as [|b0 [|b1 [|b2 [|b3 [|]]]]]; try done.
    repeat match goal with H : Forall is_byte (_ :: _) |- _ => apply Forall_cons in H as [? H] end.
    assert (V4.bytes4 b0 b1 b2 b3) as Hq by (unfold is_byte in *; done).
    pose proof (V4.fmt_quad_length _ _ _ _ Hq).
    destruct (V4.inet_ntop4_ok b0 b1 b2 b3 host 0 1025 Hq) as (host' & E & Ec & _); [lia..|].
    assert (exists c0 h, fmt_quad b0 b1 b2 b3 = c0 :: h /\ isdigit c0 = true) as (c0 & h & Ef & Hd).
    { unfold fmt_quad. pose proof (fmt_u_isdigit0 b0 ([46] ++ fmt_u b1 ++ [46] ++ fmt_u b2 ++ [46] ++ fmt_u b3)) as D.
      pose proof (V4.fmt_u_nonempty b0) as Ne. unfold is_byte in *.
      destruct (fmt_u b0) as [|c0 t] eqn:E0; [by destruct Ne; [lia|]|].
      exists c0. eexists. split; [reflexivity|]. apply D. lia. }
    exists host', c0, h. split; [exact E|]. rewrite Ec, Ef. split; [done|]. left.
    split; [done|]. split; [done|]. split; [|done]. rewrite <- Ef. unfold inet_pton.
    change (AF_INET =? AF_INET) with true. cbv iota.
    rewrite V4.inet_pton4_eq, V4.quad_ref_fmt by done. done.
  - destruct Hsa as (Hp & Hl & Hb & _). destruct s as [p fl a sc]. cbn [sin6_addr] in *.
    destruct (V6.bytes_of_words 8 a Hl Hb) as (ws & Hw & R & ->).
    destruct (V6.address_ok ws _ Hw R (V6.ntop6_best_ok ws Hw)) as [Hlen _].
    fold (V6.ntop6_str ws) in Hlen. destruct (ntop6_str_shape ws Hw R) as [Hc Hx].
    pose proof (V6.ntop6_str_nonzero ws Hw R) as Hz.
    destruct (V6.ntop6_str ws) as [|c0 h] eqn:Es; [by apply elem_of_nil in Hc|].
    assert (exists host', inet_ntop AF_INET6 (V6.bytes_of ws) host 0 1025 = Some (CPtr host') /\
      cstring_at host' 0 = c0 :: h) as (host' & E & Ec).
    { unfold inet_ntop. change (AF_INET6 =? AF_INET) with false. change (AF_INET6 =? AF_INET6) with true.
      cbv iota. rewrite V6.inet_ntop6_eq by done. rewrite Es.
      replace (_ <? _) with false by (symmetry; apply Z.ltb_ge; simpl in *; lia).
      destruct (strcpy host 0 (c0 :: h)) as [host'|] eqn:E.
      - exists host'. split; [done|]. by eapply V4.cstring_at_strcpy.
      - by rewrite V4.strcpy_ok in E by (simpl in *; lia). }
    exists host', c0, h. split; [exact E|]. split; [exact Ec|]. right. split; [done|]. split; [exact Hx|].
    split; [by intros Hn%strchr_None|]. split; [|split; [|by rewrite V6.bytes_of_length, Hw]].
    + unfold inet_pton. change (AF_INET =? AF_INET) with true. cbv iota.
      by rewrite V4.inet_pton4_eq, quad_ref_colon.
    + unfold inet_pton. change (AF_INET6 =? AF_INET) with false. change (AF_INET6 =? AF_INET6) with true.
      cbv iota. rewrite <- Es, V6.inet_pton6_ntop6_str by done.
      rewrite V6.memcpy_whole; [done|]. by rewrite V6.bytes_of_length, Hw.
Qed.

Lemma getnameinfo_numeric {K} `{!Kernel K} `{Platform} sa host serv g (k : K) :
  inet_sa sa -> Z.of_nat (length host) = 1025 -> Z.of_nat (length serv) = 32 ->
  exists host' serv' c0 h,
    run (getnameinfo sa host 1025 serv 32 NI_NUMERIC) g k = (Done (0, host', serv'), g, k) /\
    cstring_at host' 0 = c0 :: h /\ num_host (c0 :: h) (sa_family sa) (sa_bytes sa) /\
    cstring_at serv' 0 = fmt_u (ntohs (sa_port sa)).
Proof.
  intros Hsa Hh Hs. destruct (ntop_num_host sa host Hsa Hh) as (host' & c0 & h & E & Ec & Hn).
  pose proof (ntohs_u16 (sa_port sa)) as Hp. destruct (fmt_u_u16 _ Hp) as [Hp1 Hp2].
  destruct (snprintf_fits serv 32 (fmt_u (ntohs (sa_port sa)))) as (serv' & Es & Ecs); [done|lia|].
  exists host', serv', c0, h. split; [|done].
  assert (run (gn_ipv46 host 1025 serv 32 (sa_bytes sa) (sa_family sa) (sa_port sa) NI_NUMERIC) g k
    = (Done (0, host', serv'), g, k)) as R.
  { unfold gn_ipv46. change (0 <? 1025) with true. change (0 <? 32) with true. cbv iota.
    unfold gn_host, gn_serv, ntop_host. change (has NI_NUMERIC NI_NUMERICHOST) with true.
    change (has NI_NUMERIC NI_NUMERICSERV) with true. cbv iota.
    rewrite !run_bind, run_mem, E. cbn beta iota. rewrite run_ret. cbn beta iota.
    rewrite run_bind, run_mem, u16_small, fmt_d_nonneg, Es; [done|unfold is_u16 in Hp; lia|].
    by destruct sa as [s|s| | |]; destruct Hsa. }
  by destruct sa.
Qed.

(** The port's digits read back. *)
Lemma port_text `{Platform} sa :
  inet_sa sa ->
  isdigit (char0 (fmt_u (ntohs (sa_port sa)))) = true /\
  htons (u16 (atoi (fmt_u (ntohs (sa_port sa))))) = sa_port sa.
Proof.
  intros Hsa. pose proof (ntohs_u16 (sa_port sa)) as Hp. unfold is_u16 in Hp. split.
  - rewrite <- (app_nil_r (fmt_u _)). apply fmt_u_isdigit0. lia.
  - rewrite <- fmt_d_nonneg, atoi_fmt_d, u16_small by (unfold is_u16; lia).
    apply (ntohs_htons (sa_port sa)). by destruct sa as [s|s| | |]; destruct Hsa.
Qed.

Lemma ported_back hints sa :
  inet_sa sa -> ported (sa_port sa) (new_view hints (sa_bytes sa) (sa_family sa)) = Some sa.
Proof.
  intros Hsa. destruct sa as [[p a]|[p fl a sc]| | |]; try done; unfold ported, fill_view, new_view; cbn in *.
  - rewrite u16_small by apply Hsa. done.
  - destruct Hsa as (Hp & _ & _ & -> & ->). by rewrite u16_small.
Qed.

Lemma echeck_numeric hints f c0 h serv :
  inet_family f -> (h_flags hints = 0 \/ h_flags hints = AI_PASSIVE) ->
  (h_family hints = AF_UNSPEC \/ h_family hints = f) -> 0 <= h_socktype hints <= SOCK_RAW ->
  ga_echeck (Some (c0 :: h)) serv (h_flags hints) (h_family hints) (h_socktype hints) (h_protocol hints) = 0.
Proof.
  intros Hf Hfl Hfam Hst. unfold ga_echeck.
  assert (bad_socktype (h_socktype hints) = false) as Hb.
  { unfold SOCK_RAW in Hst.
    assert (h_socktype hints = 0 \/ h_socktype hints = 1 \/ h_socktype hints = 2 \/ h_socktype hints = 3)
      as [->|[->|[->| ->]]] by lia; done. }
  rewrite Hb. replace (negb _) with false by (by destruct Hfl as [->| ->]).
  by destruct Hfam as [->| ->], Hf as [->| ->].
Qed.

(** A service that is a number takes the Internet path. *)
Lemma getaddrinfo_is_ip `{Platform} c0 h serv hints :
  isdigit (char0 serv) = true ->
  ga_echeck (Some (c0 :: h)) (Some serv) (h_flags hints) (h_family hints) (h_socktype hints)
    (h_protocol hints) = 0 ->
  getaddrinfo (Some (c0 :: h)) (Some serv) (Some hints) = getaddrinfo_ip (Some (c0 :: h)) (Some serv) hints.
Proof.
  intros Hd E. unfold getaddrinfo. rewrite E. cbn [negb Z.eqb]. destruct serv as [|c serv]; [done|].
  cbn [char0 hd] in Hd. destruct c as [|c|c]; try done. do 6 (destruct c as [c|c|]; try done).
Qed.



End GaiNumeric.
