(* ===== verification/Pool.v ===== *)
(** * The prethreaded server and its queue of connections

    server/serv08.c and server/pthread08.c: the main thread accepts
    connections and puts them into the ring clifd, a pool of threads takes them
    out, and a mutex with a condition variable protects the ring.  The threads
    run concurrently, so the model is a transition system: a state holds the
    shared variables, the mutex and the program point of every thread, and a
    transition executes one statement of one thread.  A schedule is the list of
    transitions taken.

    thread/condition_var.c, a program of three threads and a condition variable
    that is waited for without testing any condition, uses the same mutex and
    condition variable and follows in the second module. *)
From stdpp Require Import base list numbers.
From S2P Require Import Prelude.

(** A transition is not possible now ([Blocked]), has undefined behaviour
    ([Crash]: an index outside an array, unlocking a mutex one does not hold),
    or leads to a state. *)
Inductive outcome (S : Type) := Blocked | Crash | Next (s : S).
Arguments Blocked {S}.
Arguments Crash {S}.
Arguments Next {S} s.

Definition obind {S T} (f : S -> outcome T) (o : outcome S) : outcome T :=
  match o with Blocked => Blocked | Crash => Crash | Next s => f s end.
(** An access of an array, as [aread] and [awrite] give it. *)
Definition access {A S} (o : option A) (f : A -> outcome S) : outcome S :=
  match o with None => Crash | Some a => f a end.

(** A schedule, executed from a state. *)
Fixpoint run_sched {S L} (step : L -> S -> outcome S) (ls : list L) (s : S) : outcome S :=
  match ls with
  | [] => Next s
  | l :: ls => obind (run_sched step ls) (step l s)
  end.

(** A schedule of which every transition was possible runs in two halves. *)
Lemma run_sched_app {S L} (step : L -> S -> outcome S) ls1 ls2 s :
  run_sched step (ls1 ++ ls2) s = obind (run_sched step ls2) (run_sched step ls1 s).
Proof. revert s. induction ls1 as [|l ls1 IH]; intros s; [done|]. cbn. destruct (step l s); cbn; auto. Qed.

(** Rule induction for the states a schedule reaches: an invariant that every
    transition keeps, and that excludes a crash, holds after the schedule. *)
Lemma run_sched_inv {S L} (step : L -> S -> outcome S) (P : S -> Prop) :
  (forall l s, P s -> match step l s with Blocked => True | Crash => False | Next s' => P s' end) ->
  forall ls s, P s -> match run_sched step ls s with Blocked => True | Crash => False | Next s' => P s' end.
Proof.
  intros Hstep ls. induction ls as [|l ls IH]; intros s Hs; [done|]. cbn.
  specialize (Hstep l s Hs). destruct (step l s); [done|done|]. by apply IH.
Qed.

(** Who holds a mutex: the main thread or thread [i]. *)
Inductive who := Main | Thr (i : nat).
#[export] Instance who_eq_dec : EqDecision who.
Proof. solve_decision. Defined.

Module Pool.

Definition MAXNCLI : Z := 32.

(** The statement the main thread executes next, with the value of connfd. *)
Inductive main_pc :=
  | MAccept                (* connfd = Accept(...) *)
  | MLock (connfd : Z)     (* Pthread_mutex_lock *)
  | MStore (connfd : Z)    (* clifd[iput] = connfd *)
  | MInc (connfd : Z)      (* if (++iput == MAXNCLI) iput = 0 *)
  | MTest                  (* if (iput == iget) err_quit *)
  | MSignal                (* Pthread_cond_signal *)
  | MUnlock                (* Pthread_mutex_unlock *)
  | MExited.               (* the process has ended *)

(** The statement a thread of the pool executes next. *)
Inductive thread_pc :=
  | TLock                  (* Pthread_mutex_lock *)
  | TTest                  (* while (iget == iput) *)
  | TWait                  (* Pthread_cond_wait is called *)
  | TWaiting               (* inside Pthread_cond_wait, mutex released *)
  | TWoken                 (* woken, about to lock the mutex again *)
  | TFetch                 (* connfd = clifd[iget] *)
  | TInc (connfd : Z)      (* if (++iget == MAXNCLI) iget = 0 *)
  | TUnlock (connfd : Z)   (* Pthread_mutex_unlock *)
  | TCount (connfd : Z)    (* tptr[arg].thread_count++ *)
  | TServe (connfd : Z)    (* web_child(connfd) *)
  | TClose (connfd : Z).   (* Close(connfd) *)

(** The element of tptr and the program point of a thread. *)
Record thread := Thread { t_pc : thread_pc; thread_count : Z }.

(** [accepted], [taken] and [closed] are the history: the connections in the
    order main accepted them, in the order the threads took them out of the
    ring, and in the order they were closed. *)
Record pool := State {
  clifd : list Z; iget : Z; iput : Z; mutex : option who; m_pc : main_pc;
  tptr : list thread; accepted : list Z; taken : list Z; closed : list Z }.

Definition set_main (pc : main_pc) (s : pool) : pool :=
  State (clifd s) (iget s) (iput s) (mutex s) pc (tptr s) (accepted s) (taken s) (closed s).
Definition set_mutex (m : option who) (s : pool) : pool :=
  State (clifd s) (iget s) (iput s) m (m_pc s) (tptr s) (accepted s) (taken s) (closed s).
Definition set_tptr (ts : list thread) (s : pool) : pool :=
  State (clifd s) (iget s) (iput s) (mutex s) (m_pc s) ts (accepted s) (taken s) (closed s).
Definition set_pc (i : nat) (pc : thread_pc) (s : pool) : pool :=
  set_tptr (alter (fun t => Thread pc (thread_count t)) i (tptr s)) s.

(** ** The mutex and the condition variable *)
Definition lock (w : who) (s : pool) : outcome pool :=
  match mutex s with Some _ => Blocked | None => Next (set_mutex (Some w) s) end.
Definition unlock (w : who) (s : pool) : outcome pool :=
  if decide (mutex s = Some w) then Next (set_mutex None s) else Crash.
Definition is_waiting (t : thread) : bool :=
  match t_pc t with TWaiting => true | _ => false end.
(** Wakes thread [i], which must be waiting. *)
Definition wake (i : nat) (s : pool) : outcome pool :=
  match tptr s !! i with
  | Some t => if is_waiting t then Next (set_pc i TWoken s) else Blocked
  | None => Blocked
  end.
(** pthread_cond_signal wakes one of the threads that wait, if there is any;
    [chosen] is the one the system picked. *)
Definition pool_signal (chosen : option nat) (s : pool) : outcome pool :=
  match chosen with
  | Some i => wake i s
  | None => if existsb is_waiting (tptr s) then Blocked else Next s
  end.

(** if (++i == MAXNCLI) i = 0 *)
Definition advance (i : Z) : Z := if i + 1 =? MAXNCLI then 0 else i + 1.

(** ** Transitions

    [Acc c]: main's Accept returns the connection [c]; [AccFail]: it ends the
    process.  [Go chosen]: main executes its next statement, [chosen] being the
    thread that a signal wakes.  [Run i]: thread [i] executes its next
    statement.  [Quit i]: web_child of thread [i] ends the process.
    [Spurious i]: Pthread_cond_wait of thread [i] returns without a signal, as
    POSIX allows. *)
Inductive label := Acc (c : Z) | AccFail | Go (chosen : option nat) | Run (i : nat) | Quit (i : nat) | Spurious (i : nat).

Definition main_step (chosen : option nat) (s : pool) : outcome pool :=
  match m_pc s with
  | MAccept | MExited => Blocked
  | MLock c => obind (fun s => Next (set_main (MStore c) s)) (lock Main s)
  | MStore c =>
      access (awrite (clifd s) (iput s) c) (fun a =>
      Next (State a (iget s) (iput s) (mutex s) (MInc c) (tptr s) (accepted s) (taken s) (closed s)))
  | MInc c =>
      Next (State (clifd s) (iget s) (advance (iput s)) (mutex s) MTest (tptr s) (accepted s) (taken s) (closed s))
  | MTest => Next (set_main (if iput s =? iget s then MExited else MSignal) s)
  | MSignal => obind (fun s => Next (set_main MUnlock s)) (pool_signal chosen s)
  | MUnlock => obind (fun s => Next (set_main MAccept s)) (unlock Main s)
  end.

Definition thread_step (i : nat) (t : thread) (s : pool) : outcome pool :=
  match t_pc t with
  | TLock | TWoken => obind (fun s => Next (set_pc i TTest s)) (lock (Thr i) s)
  | TTest => Next (set_pc i (if iget s =? iput s then TWait else TFetch) s)
  | TWait => obind (fun s => Next (set_pc i TWaiting s)) (unlock (Thr i) s)
  | TWaiting => Blocked
  | TFetch => access (aread (clifd s) (iget s)) (fun c => Next (set_pc i (TInc c) s))
  | TInc c =>
      Next (set_pc i (TUnlock c)
        (State (clifd s) (advance (iget s)) (iput s) (mutex s) (m_pc s) (tptr s) (accepted s) (taken s ++ [c]) (closed s)))
  | TUnlock c => obind (fun s => Next (set_pc i (TCount c) s)) (unlock (Thr i) s)
  | TCount c => Next (set_tptr (<[i := Thread (TServe c) (thread_count t + 1)]> (tptr s)) s)
  | TServe c => Next (set_pc i (TClose c) s)
  | TClose c =>
      Next (set_pc i TLock
        (State (clifd s) (iget s) (iput s) (mutex s) (m_pc s) (tptr s) (accepted s) (taken s) (closed s ++ [c])))
  end.

(** After the process has ended no thread runs. *)
Definition exited (s : pool) : bool := match m_pc s with MExited => true | _ => false end.

Definition with_thread (i : nat) (s : pool) (f : thread -> outcome pool) : outcome pool :=
  if exited s then Blocked
  else match tptr s !! i with None => Blocked | Some t => f t end.

Definition step (l : label) (s : pool) : outcome pool :=
  match l with
  | Acc c =>
      match m_pc s with
      | MAccept => Next (State (clifd s) (iget s) (iput s) (mutex s) (MLock c) (tptr s) (accepted s ++ [c]) (taken s) (closed s))
      | _ => Blocked
      end
  | AccFail => match m_pc s with MAccept => Next (set_main MExited s) | _ => Blocked end
  | Go chosen => main_step chosen s
  | Run i => with_thread i s (fun t => thread_step i t s)
  | Quit i => with_thread i s (fun t => match t_pc t with TServe _ => Next (set_main MExited s) | _ => Blocked end)
  | Spurious i => with_thread i s (fun _ => wake i s)
  end.

(** main up to its loop: the statics are zero, the threads are at their lock. *)
Definition init (nthreads : nat) : pool :=
  State (replicate 32 0) 0 0 None MAccept (replicate nthreads (Thread TLock 0)) [] [] [].
End Pool.

Module CondVar.
Definition THREAD_LIMIT : nat := 3.
Definition THREAD_DONE : Z := 1.
Definition THREAD_COLLECTION : Z := 2.

Inductive cv_pc :=
  | CTest        (* while (ndone > 0) *)
  | CLock        (* pthread_mutex_lock *)
  | CWait        (* pthread_cond_wait is called *)
  | CWaiting     (* inside pthread_cond_wait *)
  | CWoken       (* woken, about to lock the mutex again *)
  | CFor (i : nat)
  | CUnlock
  | CDone.
Inductive exec_pc := ESleep | ELock | EFlag | ESignal | EUnlock | EDone.
#[export] Instance main_pc_eq_dec : EqDecision cv_pc.
Proof. solve_decision. Defined.
#[export] Instance exec_pc_eq_dec : EqDecision exec_pc.
Proof. solve_decision. Defined.

Record thread_instance := Instance_ { flag : Z; e_pc : exec_pc }.
Record state := St { ndone : Z; mutex : option who; c_pc : cv_pc; threads : list thread_instance }.

Definition cv_lock (w : who) (s : state) : outcome state :=
  match mutex s with Some _ => Blocked | None => Next (St (ndone s) (Some w) (c_pc s) (threads s)) end.
Definition cv_unlock (w : who) (s : state) : outcome state :=
  if decide (mutex s = Some w) then Next (St (ndone s) None (c_pc s) (threads s)) else Crash.
Definition at_main (pc : cv_pc) (s : state) : outcome state :=
  Next (St (ndone s) (mutex s) pc (threads s)).
Definition at_exec (i : nat) (f : Z) (pc : exec_pc) (s : state) : outcome state :=
  Next (St (ndone s) (mutex s) (c_pc s) (<[i := Instance_ f pc]> (threads s))).

(** The body of the for loop; pthread_join waits for the end of the thread. *)
Definition collect (i : nat) (s : state) : outcome state :=
  match threads s !! i with
  | None => at_main CUnlock s
  | Some t =>
      if negb (Z.land (flag t) THREAD_DONE =? 0) then
        match e_pc t with
        | EDone => Next (St (ndone s - 1) (mutex s) (CFor (S i)) (<[i := Instance_ THREAD_COLLECTION EDone]> (threads s)))
        | _ => Blocked
        end
      else at_main (CFor (S i)) s
  end.

Definition cv_main_step (s : state) : outcome state :=
  match c_pc s with
  | CTest => at_main (if 0 <? ndone s then CLock else CDone) s
  | CLock => obind (at_main CWait) (cv_lock Main s)
  | CWait => obind (at_main CWaiting) (cv_unlock Main s)
  | CWaiting | CDone => Blocked
  | CWoken => obind (at_main (CFor 0)) (cv_lock Main s)
  | CFor i => collect i s
  | CUnlock => obind (at_main CTest) (cv_unlock Main s)
  end.

(** Only main ever waits, so a signal wakes main or nobody. *)
Definition cv_signal (s : state) : state :=
  match c_pc s with CWaiting => St (ndone s) (mutex s) CWoken (threads s) | _ => s end.

Definition exec_step (i : nat) (s : state) : outcome state :=
  match threads s !! i with
  | None => Blocked
  | Some t =>
      match e_pc t with
      | ESleep => at_exec i (flag t) ELock s
      | ELock => obind (at_exec i (flag t) EFlag) (cv_lock (Thr i) s)
      | EFlag => at_exec i THREAD_DONE ESignal s
      | ESignal => at_exec i (flag t) EUnlock (cv_signal s)
      | EUnlock => obind (at_exec i (flag t) EDone) (cv_unlock (Thr i) s)
      | EDone => Blocked
      end
  end.

(** [None] runs main, [Some i] runs thread [i]. *)
Definition cv_step (l : option nat) (s : state) : outcome state :=
  match l with None => cv_main_step s | Some i => exec_step i s end.

Definition cv_init : state := St 3 None CTest (replicate THREAD_LIMIT (Instance_ 0 ESleep)).
End CondVar.
