(* ===== verification/PoolProofs.v ===== *)
(** * The queue of the prethreaded server is safe, first in first out, and served

    An invariant of the transition system of Pool.v, kept by every transition
    of every thread, gives mutual exclusion and the order of the queue; a
    measure that every transition lowers until a connection is taken gives the
    liveness theorem. *)
From stdpp Require Import base list numbers.
From S2P Require Import Prelude Pool.
Import Pool.

Module PoolProofs.

(** ** Counting over the threads *)
Definition b2n (b : bool) : nat := if b then 1%nat else 0%nat.
Definition total (f : thread_pc -> nat) (ts : list thread) : nat := sum_list_with (fun t => f (t_pc t)) ts.

Lemma total_set f (ts : list thread) i t t' :
  ts !! i = Some t -> (total f (<[i := t']> ts) + f (t_pc t) = total f ts + f (t_pc t'))%nat.
Proof.
  unfold total. revert i. induction ts as [|u ts IH]; intros [|i] E; simplify_eq/=; [lia|].
  specialize (IH i E). lia.
Qed.

Lemma total_zero f (ts : list thread) :
  total f ts = 0%nat -> forall i t, ts !! i = Some t -> f (t_pc t) = 0%nat.
Proof.
  unfold total. induction ts as [|u ts IH]; intros H [|i] t E; simplify_eq/=; [lia|].
  apply (IH ltac:(lia) i t E).
Qed.

Lemma total_pos f (ts : list thread) :
  (0 < total f ts)%nat -> exists i t, ts !! i = Some t /\ (0 < f (t_pc t))%nat.
Proof.
  unfold total. induction ts as [|u ts IH]; cbn [sum_list_with]; intros H; [lia|].
  destruct (decide (f (t_pc u) = 0%nat)) as [E|E].
  - destruct IH as (i & t & Hi & Hf); [lia|]. by exists (S i), t.
  - exists 0%nat, u. split; [done|lia].
Qed.

Lemma total_le f n (ts : list thread) :
  (forall pc, f pc <= n)%nat -> (total f ts <= n * length ts)%nat.
Proof.
  intros Hf. unfold total. induction ts as [|u ts IH]; cbn [sum_list_with length]; [lia|].
  specialize (Hf (t_pc u)). lia.
Qed.

Lemma set_pc_insert i pc s t :
  tptr s !! i = Some t -> set_pc i pc s = set_tptr (<[i := Thread pc (thread_count t)]> (tptr s)) s.
Proof.
  intros E. unfold set_pc. f_equal. apply list_eq. intros j.
  destruct (decide (i = j)) as [<-|Hne].
  - rewrite list_lookup_alter_eq, E, list_lookup_insert_eq by (by eapply lookup_lt_Some). done.
  - by rewrite list_lookup_alter_ne, list_lookup_insert_ne by done.
Qed.

(** ** The ring *)
Fixpoint ring (a : list Z) (i : Z) (n : nat) : list Z :=
  match n with O => [] | S n => nth (Z.to_nat i) a 0 :: ring a (advance i) n end.
(** The index [n] places after [i]. *)
Definition idx (i n : Z) : Z := if i + n <? MAXNCLI then i + n else i + n - MAXNCLI.
Definition dist (i j : Z) : Z := if i <=? j then j - i else j - i + MAXNCLI.

Ltac ring_lia :=
  unfold idx, dist, advance, MAXNCLI in *;
  repeat match goal with
  | |- context [Z.ltb ?x ?y] => destruct (Z.ltb_spec x y)
  | |- context [Z.leb ?x ?y] => destruct (Z.leb_spec x y)
  | |- context [Z.eqb ?x ?y] => destruct (Z.eqb_spec x y)
  | H : context [Z.ltb ?x ?y] |- _ => destruct (Z.ltb_spec x y)
  | H : context [Z.leb ?x ?y] |- _ => destruct (Z.leb_spec x y)
  | H : context [Z.eqb ?x ?y] |- _ => destruct (Z.eqb_spec x y)
  end; try lia.

Lemma advance_range i : 0 <= i < 32 -> 0 <= advance i < 32.
Proof. ring_lia. Qed.

Lemma ring_snoc a (i : Z) (n : nat) :
  0 <= i < 32 -> (n < 32)%nat -> ring a i (S n) = ring a i n ++ [nth (Z.to_nat (idx i (Z.of_nat n))) a 0].
Proof.
  revert i. induction n as [|n IH]; intros i Hi Hn.
  - cbn. do 3 f_equal. ring_lia.
  - change (ring a i (S (S n))) with (nth (Z.to_nat i) a 0 :: ring a (advance i) (S n)).
    rewrite IH by ring_lia. cbn [ring app]. do 5 f_equal. ring_lia.
Qed.

Lemma ring_insert a (i j c : Z) (n : nat) :
  0 <= i < 32 -> (n <= 32)%nat -> 0 <= j -> (forall m : nat, (m < n)%nat -> idx i (Z.of_nat m) <> j) ->
  ring (<[Z.to_nat j := c]> a) i n = ring a i n.
Proof.
  revert i. induction n as [|n IH]; intros i Hi Hn Hj Hm; [done|]. cbn [ring]. f_equal.
  - rewrite !nth_lookup. rewrite list_lookup_insert_ne; [done|].
    specialize (Hm 0%nat ltac:(lia)). ring_lia.
  - apply IH; [ring_lia|lia|lia|]. intros m Hlt. specialize (Hm (S m) ltac:(lia)). ring_lia.
Qed.

(** ** The invariant *)

(** The connections in the ring.  Between ++iput and the test of the main
    thread the indices of a full ring are those of an empty one. *)
Definition full (s : pool) : bool :=
  match m_pc s with MTest => iput s =? iget s | _ => false end.
Definition qlen (s : pool) : Z := if full s then MAXNCLI else dist (iget s) (iput s).
Definition queue (s : pool) : list Z := ring (clifd s) (iget s) (Z.to_nat (qlen s)).
(** The connection main has accepted and not yet counted in. *)
Definition pending (pc : main_pc) : list Z :=
  match pc with MLock c | MStore c | MInc c => [c] | _ => [] end.

(** Program points at which the mutex is held. *)
Definition main_in (pc : main_pc) : bool :=
  match pc with MStore _ | MInc _ | MTest | MSignal | MUnlock => true | _ => false end.
Definition thread_in (pc : thread_pc) : bool :=
  match pc with TTest | TWait | TFetch | TInc _ | TUnlock _ => true | _ => false end.
Definition inside (s : pool) (w : who) : bool :=
  match w with
  | Main => main_in (m_pc s)
  | Thr i => match tptr s !! i with Some t => thread_in (t_pc t) | None => false end
  end.

(** What a thread knows at a program point inside the critical section. *)
Definition knows (s : pool) (pc : thread_pc) : Prop :=
  match pc with
  | TWait => qlen s = 0
  | TFetch => 0 < qlen s
  | TInc c => 0 < qlen s /\ nth (Z.to_nat (iget s)) (clifd s) 0 = c
  | _ => True
  end.

Definition waiting (pc : thread_pc) : nat := match pc with TWaiting => 1 | _ => 0 end.
(** Threads on their way to the ring. *)
Definition awake (pc : thread_pc) : nat :=
  match pc with TLock | TTest | TWoken | TFetch | TInc _ => 1 | _ => 0 end.
(** A connection counted in for which no signal was sent yet. *)
Definition unsignalled (pc : main_pc) : nat := match pc with MTest | MSignal => 1 | _ => 0 end.

Record Inv (s : pool) : Prop := {
  inv_len : length (clifd s) = 32%nat;
  inv_get : 0 <= iget s < 32;
  inv_put : 0 <= iput s < 32;
  inv_mutex : forall w, inside s w = true <-> mutex s = Some w;
  inv_knows : forall i t, tptr s !! i = Some t -> knows s (t_pc t);
  inv_stored : match m_pc s with MInc c => nth (Z.to_nat (iput s)) (clifd s) 0 = c | _ => True end;
  inv_fifo : accepted s = taken s ++ queue s ++ pending (m_pc s);
  inv_wake : (0 < total waiting (tptr s))%nat ->
    qlen s <= Z.of_nat (total awake (tptr s) + unsignalled (m_pc s)) }.

Lemma knows_outside s pc : thread_in pc = false -> knows s pc.
Proof. by destruct pc. Qed.

Lemma init_inv n : Inv (init n).
Proof.
  assert (forall i t, tptr (init n) !! i = Some t -> t = Thread TLock 0) as Ht.
  { intros i t E. by apply lookup_replicate in E as [-> _]. }
  split; try done.
  - intros [|i]; cbn; [done|]. destruct (_ !! i) as [t|] eqn:E; [|done].
    by rewrite (Ht i t E).
  - intros i t E. by rewrite (Ht i t E).
  - intros Hw. apply total_pos in Hw as (i & t & E & Hw). rewrite (Ht i t E) in Hw. cbn in Hw. lia.
Qed.

(** *** Transitions of a thread *)
Lemma inside_set s i t' m mpc a g p acc tak clo :
  (i < length (tptr s))%nat ->
  forall j, inside (State a g p m mpc (<[i := t']> (tptr s)) acc tak clo) (Thr j) =
    if decide (i = j) then thread_in (t_pc t') else inside s (Thr j).
Proof.
  intros Hi j. cbn [inside tptr]. case_decide as E; [subst j|].
  - by rewrite list_lookup_insert_eq.
  - by rewrite list_lookup_insert_ne.
Qed.

Section ThreadStep.
Context (s : pool) (i : nat) (t t' : thread) (m : option who) (g : Z) (tak clo : list Z).
Let s' := State (clifd s) g (iput s) m (m_pc s) (<[i := t']> (tptr s)) (accepted s) tak clo.

Lemma thread_inv :
    Inv s -> tptr s !! i = Some t ->
    m = (if thread_in (t_pc t') then Some (Thr i) else if thread_in (t_pc t) then None else mutex s) ->
    (thread_in (t_pc t') = true -> thread_in (t_pc t) = true \/ mutex s = None) ->
    0 <= g < 32 -> (thread_in (t_pc t) = true \/ g = iget s) ->
    knows s' (t_pc t') -> tak ++ queue s' = taken s ++ queue s ->
    (qlen s' <= 0 \/ (waiting (t_pc t') <= waiting (t_pc t))%nat /\
      qlen s' + Z.of_nat (awake (t_pc t)) <= qlen s + Z.of_nat (awake (t_pc t'))) ->
    Inv s'.
  Proof.
    intros HI Et Em Hfree Hg Hown Hk Hq Hw. pose proof (lookup_lt_Some _ _ _ Et) as Hi.
    assert (inside s (Thr i) = thread_in (t_pc t)) as Hii by (cbn; by rewrite Et).
    pose proof (inv_mutex _ HI) as Hmx.
    assert (forall w, w <> Thr i -> inside s' w = inside s w) as Hother.
    { intros [|j] Hne; [done|]. unfold s'. rewrite inside_set by done. case_decide; congruence. }
    assert (inside s' (Thr i) = thread_in (t_pc t')) as Hii'.
    { unfold s'. rewrite inside_set by done. by case_decide. }
    split; try apply HI; try done.
    - intros w. unfold s' at 2. cbn [mutex]. subst m. destruct (decide (w = Thr i)) as [->|Hne].
      + rewrite Hii'. specialize (Hmx (Thr i)). rewrite Hii in Hmx.
        destruct (thread_in (t_pc t')), (thread_in (t_pc t)); try (split; congruence). rewrite <- Hmx. split; congruence.
      + rewrite Hother, (Hmx w) by done. specialize (Hmx (Thr i)). rewrite Hii in Hmx.
        destruct (thread_in (t_pc t')); [|destruct (thread_in (t_pc t))].
        * destruct Hfree as [F|F]; [done| |]; [rewrite (proj1 Hmx F)|rewrite F]; split; congruence.
        * rewrite (proj1 Hmx eq_refl). split; congruence.
        * done.
    - intros j u. cbn [tptr s']. destruct (decide (i = j)) as [<-|Hne].
      + rewrite list_lookup_insert_eq by done. by intros [= <-].
      + rewrite list_lookup_insert_ne by done. intros Eu.
        destruct Hown as [Hin| ->]; [|exact (inv_knows _ HI j u Eu)].
        apply knows_outside. destruct (thread_in (t_pc u)) eqn:Eu'; [|done].
        pose proof (proj1 (Hmx (Thr i)) ltac:(congruence)).
        pose proof (proj1 (Hmx (Thr j)) ltac:(cbn; by rewrite Eu)). congruence.
    - cbn [accepted taken m_pc s']. rewrite app_assoc. setoid_rewrite Hq. rewrite <- app_assoc. apply HI.
    - cbn [tptr m_pc s']. intros Hpos. destruct Hw as [Hw|[Hw1 Hw2]]; [unfold s' in Hw |- *; lia|].
      pose proof (total_set waiting _ i t t' Et). pose proof (total_set awake _ i t t' Et).
      pose proof (inv_wake _ HI ltac:(lia)). unfold s' in Hw2 |- *. lia.
  Qed.
End ThreadStep.

Lemma qlen_range s : 0 <= iget s < 32 -> 0 <= iput s < 32 -> 0 <= qlen s <= 32.
Proof. intros. unfold qlen. destruct (full s); ring_lia. Qed.

(** While a thread is inside, main is not, and the ring is not full. *)
Lemma main_outside s i t : Inv s -> tptr s !! i = Some t -> thread_in (t_pc t) = true -> main_in (m_pc s) = false.
Proof.
  intros HI Et Hin. destruct (main_in (m_pc s)) eqn:E; [|done].
  pose proof (proj1 (inv_mutex _ HI Main) E).
  pose proof (proj1 (inv_mutex _ HI (Thr i)) ltac:(cbn; by rewrite Et)). congruence.
Qed.
Lemma qlen_not_test s : m_pc s <> MTest -> qlen s = dist (iget s) (iput s).
Proof. unfold qlen, full. by destruct (m_pc s). Qed.
Lemma qlen_outside s : main_in (m_pc s) = false -> qlen s = dist (iget s) (iput s).
Proof. intros H. apply qlen_not_test. intros E. by rewrite E in H. Qed.

(** A change of the threads, the mutex and the history leaves the queue alone. *)
Ltac same_queue :=
  repeat match goal with |- context [qlen (State ?a (iget ?s) (iput ?s) ?m (m_pc ?s) ?ts ?x ?y ?z)] =>
    change (qlen (State a (iget s) (iput s) m (m_pc s) ts x y z)) with (qlen s) end.

(** The conditions of [thread_inv] for a thread whose next statement is known. *)
Ltac thread_case HI Et Epc :=
  cbn [obind access];
  match type of Et with tptr _ !! ?i = Some ?t =>
    try (rewrite (set_pc_insert i _ _ t) by exact Et);
    eapply (thread_inv _ i t _ _ _ _ _ HI Et) end;
  rewrite ?Epc; unfold set_mutex; cbn [thread_in awake waiting t_pc knows clifd iget iput mutex taken closed]; same_queue; auto using inv_get with lia; try (right; lia).

Lemma queue_take s ts m tak clo :
  0 <= iget s < 32 -> 0 <= iput s < 32 -> main_in (m_pc s) = false -> 0 < qlen s ->
  let s' := State (clifd s) (advance (iget s)) (iput s) m (m_pc s) ts (accepted s) tak clo in
  qlen s' = qlen s - 1 /\ queue s = nth (Z.to_nat (iget s)) (clifd s) 0 :: queue s'.
Proof.
  intros Hg Hp Hf Hq s'. rewrite qlen_outside in Hq by done.
  assert (qlen s' = qlen s - 1) as E by (rewrite !qlen_outside by done; cbn [iget iput s']; ring_lia).
  split; [exact E|]. unfold queue. rewrite E, qlen_outside by done.
  replace (Z.to_nat (dist (iget s) (iput s))) with (S (Z.to_nat (dist (iget s) (iput s) - 1))) by lia. done.
Qed.

Lemma thread_step_inv s i t :
  Inv s -> tptr s !! i = Some t ->
  match thread_step i t s with Blocked => True | Crash => False | Next s' => Inv s' end.
Proof.
  intros HI Et. pose proof (inv_mutex _ HI (Thr i)) as Hm. cbn [inside] in Hm. rewrite Et in Hm.
  pose proof (inv_knows _ HI i t Et) as Hk.
  pose proof (main_outside _ _ _ HI Et) as Hf.
  pose proof (inv_get _ HI) as Hg. pose proof (inv_put _ HI) as Hp.
  unfold thread_step. destruct (t_pc t) eqn:Epc; cbn [thread_in] in Hm, Hf.
  - unfold lock. destruct (mutex s) eqn:Emx; [done|]. thread_case HI Et Epc.
  - pose proof (qlen_outside s (Hf eq_refl)) as Hq.
    pose proof (proj1 Hm eq_refl) as Hown.
    destruct (Z.eqb_spec (iget s) (iput s)) as [E|E]; thread_case HI Et Epc; try (rewrite Hq; ring_lia).
  - unfold unlock. rewrite decide_True by (by apply Hm). thread_case HI Et Epc.
    left. cbn in Hk. lia.
  - done.
  - unfold lock. destruct (mutex s) eqn:Emx; [done|]. thread_case HI Et Epc.
  - unfold aread. cbn in Hk. destruct (lookup_lt_is_Some_2 (clifd s) (Z.to_nat (iget s))) as [c Ec]; [rewrite (inv_len _ HI); lia|].
    destruct (Z.ltb_spec (iget s) 0); [lia|]. rewrite Ec. cbn [access].
    pose proof (proj1 Hm eq_refl) as Hown. thread_case HI Et Epc.
    split; [exact Hk|]. by rewrite nth_lookup, Ec.
  - destruct Hk as [Hq Hc]. pose proof (proj1 Hm eq_refl) as Hown.
    destruct (queue_take s (<[i := Thread (TUnlock connfd) (thread_count t)]> (tptr s)) (mutex s) (taken s ++ [connfd]) (closed s))
      as [H1 H2]; try done; [by apply Hf|].
    thread_case HI Et Epc; try (by apply advance_range).
    rewrite <- app_assoc, H2, Hc. done.
  - unfold unlock. rewrite decide_True by (by apply Hm). thread_case HI Et Epc.
  - thread_case HI Et Epc.
  - thread_case HI Et Epc.
  - thread_case HI Et Epc.
Qed.

(** *** Transitions of the main thread *)
Section MainStep.
Context (s : pool) (a : list Z) (p : Z) (m : option who) (pc : main_pc) (acc : list Z).
Let s' := State a (iget s) p m pc (tptr s) acc (taken s) (closed s).

Lemma main_inv :
    Inv s -> length a = 32%nat -> 0 <= p < 32 ->
    m = (if main_in pc then Some Main else if main_in (m_pc s) then None else mutex s) ->
    (main_in pc = true -> main_in (m_pc s) = true \/ mutex s = None) ->
    (main_in (m_pc s) = true \/ a = clifd s /\ p = iput s /\ qlen s' = qlen s) ->
    match pc with MInc c => nth (Z.to_nat p) a 0 = c | _ => True end ->
    acc = taken s ++ queue s' ++ pending pc ->
    ((0 < total waiting (tptr s))%nat -> qlen s' <= Z.of_nat (total awake (tptr s) + unsignalled pc)) ->
    Inv s'.
  Proof.
    intros HI Ha Hp Em Hfree Hown Hst Hacc Hw. pose proof (inv_mutex _ HI) as Hmx.
    split; try done; [apply HI| |].
    - intros w. cbn [mutex s']. subst m. pose proof (Hmx Main) as HM. cbn [inside] in HM.
      destruct w as [|i]; [cbn [inside m_pc s']|change (inside s' (Thr i)) with (inside s (Thr i)); rewrite (Hmx (Thr i))].
      + destruct (main_in pc), (main_in (m_pc s)); try (split; congruence). rewrite <- HM. split; congruence.
      + destruct (main_in pc); [|destruct (main_in (m_pc s))].
        * destruct Hfree as [F|F]; [done|rewrite (proj1 HM F)|rewrite F]; split; congruence.
        * rewrite (proj1 HM eq_refl). split; congruence.
        * done.
    - intros i t Et. destruct Hown as [Hin|(-> & -> & Hq)].
      + apply knows_outside. destruct (thread_in (t_pc t)) eqn:E; [|done].
        rewrite (main_outside _ _ _ HI Et E) in Hin. done.
      + pose proof (inv_knows _ HI i t Et) as Hk. unfold knows in *. by rewrite Hq.
  Qed.
End MainStep.

Lemma wake_inv s i s' : Inv s -> wake i s = Next s' ->
  Inv s' /\ m_pc s' = m_pc s /\ (0 < total waiting (tptr s))%nat /\
  (total awake (tptr s') = total awake (tptr s) + 1)%nat.
Proof.
  intros HI E. unfold wake in E. destruct (tptr s !! i) as [t|] eqn:Et; [|done].
  unfold is_waiting in E. destruct (t_pc t) eqn:Epc; try done. injection E as <-.
  split; [|rewrite (set_pc_insert i _ _ t) by done; split_and!; [done| |]].
  - thread_case HI Et Epc.
  - destruct (decide (total waiting (tptr s) = 0%nat)) as [Z|]; [|lia].
    pose proof (total_zero _ _ Z _ _ Et) as H. rewrite Epc in H. done.
  - cbn [tptr set_tptr]. pose proof (total_set awake _ i t (Thread TWoken (thread_count t)) Et) as H.
    rewrite Epc in H. cbn in H. lia.
Qed.

(** The conditions of [main_inv]. *)
Ltac main_case HI Epc :=
  cbn [obind access]; eapply (main_inv _ _ _ _ _ _ HI); rewrite ?Epc; unfold set_mutex;
  cbn [main_in pending unsignalled clifd iget iput mutex taken closed accepted]; auto using inv_len, inv_get, inv_put.

(** A connection counted in is the last of the queue. *)
Lemma queue_put s c ts m acc tak clo :
  0 <= iget s < 32 -> 0 <= iput s < 32 -> m_pc s = MInc c -> nth (Z.to_nat (iput s)) (clifd s) 0 = c ->
  let s' := State (clifd s) (iget s) (advance (iput s)) m MTest ts acc tak clo in
  qlen s' = qlen s + 1 /\ queue s' = queue s ++ [c].
Proof.
  intros Hg Hp Epc Hc s'. assert (qlen s = dist (iget s) (iput s)) as Hq by (apply qlen_not_test; by rewrite Epc).
  assert (qlen s' = qlen s + 1) as E.
  { rewrite Hq. unfold qlen, full, s'. cbn [m_pc iput iget]. ring_lia. }
  split; [exact E|]. unfold queue. rewrite E, Hq.
  replace (Z.to_nat (dist (iget s) (iput s) + 1)) with (S (Z.to_nat (dist (iget s) (iput s)))) by ring_lia.
  cbn [clifd iget s']. rewrite ring_snoc by ring_lia. rewrite <- Hc. do 3 f_equal. ring_lia.
Qed.

(** The queue does not depend on main's program point, except at its test. *)
Lemma qlen_pc s a m pc ts acc tak clo :
  m_pc s <> MTest -> pc <> MTest -> qlen (State a (iget s) (iput s) m pc ts acc tak clo) = qlen s.
Proof. intros. by rewrite !qlen_not_test. Qed.
Lemma queue_pc s m pc ts acc tak clo :
  m_pc s <> MTest -> pc <> MTest -> queue (State (clifd s) (iget s) (iput s) m pc ts acc tak clo) = queue s.
Proof. intros. unfold queue. by rewrite qlen_pc. Qed.

(** Storing at iput does not touch the queue. *)
Lemma queue_store s c a m ts acc tak clo :
  0 <= iget s < 32 -> 0 <= iput s < 32 -> m_pc s = MStore c -> awrite (clifd s) (iput s) c = Some a ->
  length a = length (clifd s) /\ nth (Z.to_nat (iput s)) a 0 = c /\
  queue (State a (iget s) (iput s) m (MInc c) ts acc tak clo) = queue s.
Proof.
  intros Hg Hp Epc Ea. split; [by eapply awrite_Some_length|].
  unfold awrite in Ea. destruct (Z.leb_spec 0 (iput s)), (Z.ltb_spec (iput s) (Z.of_nat (length (clifd s)))); try done.
  injection Ea as <-. split; [by rewrite nth_lookup, list_lookup_insert_eq by lia|].
  unfold queue. rewrite qlen_pc, (qlen_not_test s) by congruence. cbn [clifd iget].
  apply ring_insert; [lia|ring_lia|lia|]. intros k Hk. ring_lia.
Qed.

(** A signal wakes a thread for the connection just counted in. *)
Lemma signal_inv s s1 chosen :
  Inv s -> m_pc s = MSignal -> pool_signal chosen s = Next s1 -> Inv (set_main MUnlock s1).
Proof.
  intros HI Epc E.
  assert (Inv s1 /\ m_pc s1 = MSignal /\
    ((0 < total waiting (tptr s1))%nat -> qlen s1 <= Z.of_nat (total awake (tptr s1)))) as (HI1 & Epc1 & Hw).
  { destruct chosen as [i|]; cbn [pool_signal] in E.
    - pose proof (wake_inv _ _ _ HI E) as (HI1 & Epc1 & Hpos & Haw). split_and!; [done|congruence|].
      intros _. rewrite Haw. pose proof (inv_wake _ HI Hpos) as Hw. rewrite Epc in Hw.
      replace (qlen s1) with (qlen s); [exact Hw|]. unfold wake in E. repeat case_match; try done. by injection E as <-.
    - destruct (existsb is_waiting (tptr s)) eqn:Ex; [done|]. injection E as <-. split_and!; [done..|].
      intros Hpos. apply total_pos in Hpos as (i & t & Et & Hwt). exfalso.
      assert (existsb is_waiting (tptr s) = true); [|congruence].
      apply existsb_exists. exists t. split; [by apply list_elem_of_In, list_elem_of_lookup; eauto|].
      unfold is_waiting. destruct (t_pc t); cbn in Hwt; done || lia. }
  pose proof (inv_fifo _ HI1) as Hq. rewrite Epc1 in Hq. unfold set_main.
  main_case HI1 Epc1; rewrite ?queue_pc, ?qlen_pc by congruence; auto; [|intros Hpos; rewrite Nat.add_0_r; auto].
  apply (inv_mutex _ HI1 Main). cbn. by rewrite Epc1.
Qed.

Lemma main_step_inv chosen s :
  Inv s ->
  match main_step chosen s with Blocked => True | Crash => False | Next s' => exited s' = true \/ Inv s' end.
Proof.
  intros HI. pose proof (inv_mutex _ HI Main) as Hm. cbn [inside] in Hm.
  pose proof (inv_get _ HI) as Hg. pose proof (inv_put _ HI) as Hp. pose proof (inv_len _ HI) as Hl.
  pose proof (inv_fifo _ HI) as Hq. pose proof (inv_wake _ HI) as Hw. pose proof (inv_stored _ HI) as Hs.
  unfold main_step. destruct (m_pc s) eqn:Epc; cbn [main_in pending unsignalled] in *; try done.
  - unfold lock. destruct (mutex s) eqn:Emx; [done|]. right.
    main_case HI Epc; rewrite ?queue_pc, ?qlen_pc by congruence; auto.
  - destruct (awrite_is_Some (clifd s) (iput s) connfd) as [a Ea]; [lia|]. rewrite Ea. right.
    destruct (queue_store s connfd a (mutex s) (tptr s) (accepted s) (taken s) (closed s)) as (H1 & H2 & H3); try done.
    main_case HI Epc; rewrite ?H3, ?qlen_pc by congruence; auto; [congruence|by apply Hm].
  - destruct (queue_put s connfd (tptr s) (mutex s) (accepted s) (taken s) (closed s)) as [H1 H2]; try done.
    right. main_case HI Epc; [by apply advance_range|by apply Hm| |].
    + rewrite H2, Hq, app_nil_r. done.
    + intros Hpos. specialize (Hw Hpos). rewrite H1. lia.
  - destruct (Z.eqb_spec (iput s) (iget s)) as [E|E]; [by left|]. right.
    assert (full s = false) as Hf by (unfold full; rewrite Epc; by apply Z.eqb_neq).
    assert (qlen s = dist (iget s) (iput s)) as Hd by (unfold qlen; by rewrite Hf).
    main_case HI Epc; [by apply Hm| |].
    + unfold queue in Hq |- *. by rewrite Hd in Hq.
    + by rewrite Hd in Hw.
  - destruct (pool_signal chosen s) as [| |s1] eqn:E; [done| |].
    + unfold pool_signal, wake in E. by repeat case_match.
    + right. apply (signal_inv s s1 chosen); done.
  - unfold unlock. rewrite decide_True by (by apply Hm). right.
    main_case HI Epc; rewrite ?queue_pc, ?qlen_pc by congruence; auto.
Qed.

(** *** Every transition *)

(** What holds after any schedule: the invariant, and after the end of the
    process only that connections were taken in order. *)
Definition Good (s : pool) : Prop :=
  if exited s then taken s `prefix_of` accepted s else Inv s.

Lemma good_prefix s : Good s -> taken s `prefix_of` accepted s.
Proof.
  unfold Good. destruct (exited s); [done|]. intros HI. rewrite (inv_fifo _ HI). by eexists.
Qed.

(** Transitions only add to the history. *)
Lemma step_history l s s' : step l s = Next s' ->
  accepted s `prefix_of` accepted s' /\ taken s `prefix_of` taken s' /\
  (exited s' = true -> taken s' = taken s /\ accepted s' = accepted s).
Proof.
  destruct l; cbn [step]; unfold with_thread, main_step, thread_step, pool_signal, wake, lock, unlock, access;
    intros E; repeat (case_match; simplify_eq/=; try done); split_and!; try done; try (by eexists);
    unfold exited in *; cbn [m_pc set_pc set_main set_mutex set_tptr]; intros Hx; repeat case_match; try done; simplify_eq/=; try congruence.
Qed.

Lemma step_good l s : Good s -> match step l s with Blocked => True | Crash => False | Next s' => Good s' end.
Proof.
  intros HG. pose proof (step_history l s) as Hh. pose proof (good_prefix _ HG) as Hp. unfold Good in HG.
  assert (forall s', step l s = Next s' -> exited s' = true \/ Inv s' -> Good s') as Hfin.
  { intros s' E HI. unfold Good. destruct (exited s') eqn:Ex; [|by destruct HI].
    destruct (Hh s' E) as (_ & _ & Ht). by destruct (Ht Ex) as [-> ->]. }
  destruct (exited s) eqn:Ex.
  { unfold exited in Ex. destruct (m_pc s) eqn:Epc; try done.
    destruct l; cbn [step]; unfold main_step, with_thread, exited; by rewrite Epc. }
  destruct (step l s) as [| |s'] eqn:E; [done| |apply Hfin; [done|]]; clear Hfin Hh.
  - destruct l as [c| |ch|i|i|i]; cbn [step] in E; unfold with_thread in E; rewrite ?Ex in E.
    all: try (pose proof (main_step_inv ch _ HG) as H; by rewrite E in H).
    all: repeat case_match; try done.
    + pose proof (thread_step_inv _ i t HG H) as H'. by rewrite E in H'.
    + unfold wake in E. by repeat case_match.
  - destruct l as [c| |ch|i|i|i]; cbn [step] in E; unfold with_thread in E; rewrite ?Ex in E.
    + destruct (m_pc s) eqn:Epc; try done. injection E as <-. right.
      pose proof (inv_fifo _ HG) as Hq. pose proof (inv_wake _ HG) as Hw. rewrite Epc in Hq, Hw.
      main_case HG Epc; rewrite ?queue_pc, ?qlen_pc by congruence; auto.
      rewrite Hq. cbn [pending]. by rewrite app_nil_r, <- app_assoc.
    + destruct (m_pc s) eqn:Epc; try done. injection E as <-. by left.
    + pose proof (main_step_inv ch _ HG) as H. by rewrite E in H.
    + destruct (tptr s !! i) as [t|] eqn:Et; [|done].
      pose proof (thread_step_inv _ i t HG Et) as H. rewrite E in H. by right.
    + repeat case_match; try done. injection E as <-. by left.
    + destruct (tptr s !! i); [|done]. right. by apply (wake_inv _ i _ HG).
Qed.

Lemma reachable_good n ls :
  match run_sched step ls (init n) with Blocked => True | Crash => False | Next s => Good s end.
Proof. apply (run_sched_inv step Good step_good). apply init_inv. Qed.

Lemma reachable_inv n ls s : run_sched step ls (init n) = Next s -> exited s = false -> Inv s.
Proof. intros E Ex. pose proof (reachable_good n ls) as H. rewrite E in H. unfold Good in H. by rewrite Ex in H. Qed.

Lemma run_history ls s s' : run_sched step ls s = Next s' ->
  accepted s `prefix_of` accepted s' /\ taken s `prefix_of` taken s'.
Proof.
  revert s. induction ls as [|l ls IH]; cbn; intros s E; [by injection E as <-|].
  destruct (step l s) as [| |s1] eqn:E1; try done.
  destruct (step_history _ _ _ E1) as (? & ? & _), (IH _ E). split; by etrans.
Qed.

(** ** Connections in the hands of a thread *)
Definition hand (t : thread) : list Z :=
  match t_pc t with TUnlock c | TCount c | TServe c | TClose c => [c] | _ => [] end.

Lemma hand_set (ts : list thread) i t t' :
  ts !! i = Some t -> hand t ++ (<[i := t']> ts ≫= hand) ≡ₚ hand t' ++ (ts ≫= hand).
Proof.
  revert i. induction ts as [|u ts IH]; intros [|i] E; simplify_eq/=.
  - rewrite !app_assoc. by rewrite (Permutation_app_comm (hand t) (hand t')).
  - rewrite !(Permutation_app_swap_app _ (hand u)). by rewrite (IH i E).
Qed.

(** [closed] and the hands hold exactly what was taken. *)
Definition Accounted (s : pool) : Prop := taken s ≡ₚ closed s ++ (tptr s ≫= hand).

Lemma accounted_set s i t t' tak clo :
  Accounted s -> tptr s !! i = Some t -> tak ++ closed s ++ hand t ≡ₚ clo ++ hand t' ++ taken s ->
  tak ≡ₚ clo ++ (<[i := t']> (tptr s) ≫= hand).
Proof.
  unfold Accounted. intros HA Et H. pose proof (hand_set _ i t t' Et) as Hh.
  apply (Permutation_app_inv_r (closed s ++ hand t)). rewrite H, HA.
  rewrite <- (app_assoc clo), (Permutation_app_comm (closed s) (hand t)), (app_assoc _ (hand t)),
    (Permutation_app_comm _ (hand t)), Hh.
  by rewrite <- !app_assoc, (Permutation_app_comm (tptr s ≫= hand) (closed s)).
Qed.

Lemma wake_accounted i s s' : Accounted s -> wake i s = Next s' -> Accounted s'.
Proof.
  intros HA E. unfold wake in E. destruct (tptr s !! i) as [t|] eqn:Et; [|done].
  unfold is_waiting in E. destruct (t_pc t) eqn:Epc; try done. injection E as <-.
  rewrite (set_pc_insert i _ _ t) by done. apply (accounted_set s i t); [done..|].
  unfold hand. rewrite Epc. cbn. by rewrite app_nil_r, Permutation_app_comm.
Qed.

Lemma thread_accounted i t s s' :
  Accounted s -> tptr s !! i = Some t -> thread_step i t s = Next s' -> Accounted s'.
Proof.
  intros HA Et E. unfold thread_step, lock, unlock, access in E.
  destruct (t_pc t) eqn:Epc; repeat case_match; simplify_eq/=; try done; unfold Accounted;
    try (rewrite (set_pc_insert i _ _ t) by exact Et); apply (accounted_set s i t _ _ _ HA Et);
    unfold hand; rewrite Epc; cbn [t_pc app set_mutex closed taken];
    rewrite ?app_nil_r, ?(Permutation_app_comm (taken s) (closed s)); try done; solve_Permutation.
Qed.

Lemma step_accounted l s s' : Accounted s -> step l s = Next s' -> Accounted s'.
Proof.
  intros HA E. destruct l as [c| |ch|i|i|i]; cbn [step] in E; unfold with_thread in E.
  - by destruct (m_pc s); simplify_eq.
  - by destruct (m_pc s); simplify_eq.
  - unfold main_step, lock, unlock, access in E. repeat (case_match; simplify_eq/=; try done).
    destruct ch as [i|]; cbn [pool_signal] in E; [|by destruct (existsb _ _); simplify_eq/=].
    destruct (wake i s) as [| |s1] eqn:E1; simplify_eq/=. exact (wake_accounted i s s1 HA E1).
  - repeat case_match; try done. by eapply thread_accounted.
  - repeat case_match; try done. by injection E as <-.
  - repeat case_match; try done. by apply (wake_accounted i s).
Qed.

Lemma accounted_init n : Accounted (init n).
Proof. unfold Accounted. cbn. induction n; [done|]. cbn. done. Qed.

Lemma run_accounted ls s s' : Accounted s -> run_sched step ls s = Next s' -> Accounted s'.
Proof.
  revert s. induction ls as [|l ls IH]; cbn; intros s HA E; [by injection E as <-|].
  destruct (step l s) as [| |s1] eqn:E1; try done. by eapply IH, E; eapply step_accounted.
Qed.

(** C12. Whatever the schedule, the threads of the prethreaded server never
    access the ring outside its bounds, never unlock a mutex they do not hold,
    and are never two inside the critical section; the connections are taken in
    the order main accepted them, those not yet taken are in the ring or in
    main's hand, and every connection taken is in the hand of one thread or
    closed, once. *)
Theorem pool_hands_out_in_order (nthreads : nat) (ls : list label) :
  match run_sched step ls (init nthreads) with
  | Blocked => True
  | Crash => False
  | Next s =>
      taken s `prefix_of` accepted s /\ taken s ≡ₚ closed s ++ (tptr s ≫= hand) /\
      (exited s = false ->
        accepted s = taken s ++ queue s ++ pending (m_pc s) /\
        (forall w w', inside s w = true -> inside s w' = true -> w = w'))
  end.
Proof.
  pose proof (reachable_good nthreads ls) as HG.
  destruct (run_sched step ls (init nthreads)) as [| |s] eqn:E; [done|done|].
  split_and!; [by apply good_prefix|by apply (run_accounted ls (init nthreads)); [apply accounted_init|]|].
  intros Ex. unfold Good in HG. rewrite Ex in HG. split; [apply HG|].
  intros w w' H1 H2. apply (inv_mutex _ HG) in H1, H2. congruence.
Qed.

(** ** Every connection is served *)

(** Transitions left until the thread takes a connection, if there is one. *)
Definition t_cost (pc : thread_pc) : nat :=
  match pc with
  | TUnlock _ => 8 | TCount _ => 7 | TServe _ => 6 | TClose _ => 5 | TLock => 4
  | TWaiting => 5 | TWoken => 4 | TTest => 3 | TFetch => 2 | TInc _ => 1 | TWait => 0
  end.
Definition m_cost (pc : main_pc) : nat :=
  match pc with
  | MTest => 9 | MSignal => 8 | MUnlock => 7 | MAccept => 6 | MLock _ => 5 | MStore _ => 4 | MInc _ => 3
  | MExited => 0
  end.
(** Main can go round its loop once for every free place of the ring. *)
Definition cost (s : pool) : Z :=
  Z.of_nat (total t_cost (tptr s)) + Z.of_nat (m_cost (m_pc s)) + 7 * (32 - qlen s).

Lemma thread_cost i t s s' :
  Inv s -> 0 < qlen s -> tptr s !! i = Some t -> thread_step i t s = Next s' ->
  (length (taken s) < length (taken s'))%nat \/ taken s' = taken s /\ qlen s' = qlen s /\ cost s' < cost s.
Proof.
  intros HI Hq Et E. pose proof (inv_knows _ HI i t Et) as Hk.
  pose proof (main_outside _ _ _ HI Et) as Hout.
  unfold thread_step, lock, unlock, access in E.
  destruct (t_pc t) eqn:Epc; cbn [knows] in Hk; try lia; try done.
  all: repeat case_match; simplify_eq/=; try done.
  all: try (rewrite (set_pc_insert i _ _ t) by exact Et).
  all: try (left; cbn [taken set_tptr]; rewrite length_app; cbn; lia).
  2: { exfalso. rewrite qlen_outside in Hq by auto. ring_lia. }
  all: right; split_and!; try done; unfold cost; cbn [tptr m_pc set_tptr set_mutex].
  all: match goal with |- context [<[?j := ?t']> _] => pose proof (total_set t_cost _ j t t' Et) as Hc end.
  all: rewrite Epc in Hc; cbn [t_cost t_pc] in Hc; unfold set_tptr, set_mutex; cbn [clifd iget iput mutex m_pc tptr accepted taken closed]; same_queue; lia.
Qed.

Lemma wake_cost i s s' : wake i s = Next s' ->
  taken s' = taken s /\ qlen s' = qlen s /\ m_pc s' = m_pc s /\
  (total t_cost (tptr s') + 1 = total t_cost (tptr s))%nat.
Proof.
  intros E. unfold wake in E. destruct (tptr s !! i) as [t|] eqn:Et; [|done].
  unfold is_waiting in E. destruct (t_pc t) eqn:Epc; try done. injection E as <-.
  split_and!; try done. rewrite (set_pc_insert i _ _ t) by done. cbn [tptr set_tptr].
  pose proof (total_set t_cost _ i t (Thread TWoken (thread_count t)) Et) as H. rewrite Epc in H. cbn in H. lia.
Qed.

Lemma main_cost chosen s s' :
  Inv s -> main_step chosen s = Next s' ->
  exited s' = true \/ taken s' = taken s /\ qlen s <= qlen s' /\ cost s' < cost s.
Proof.
  intros HI E. pose proof (inv_stored _ HI) as Hst. unfold cost.
  unfold main_step, lock, unlock, access in E.
  destruct (m_pc s) eqn:Epc; try done.
  - destruct (mutex s); [done|]. injection E as <-. right. unfold set_main, set_mutex.
    cbn [clifd iget iput mutex m_pc tptr accepted taken closed m_cost]. rewrite qlen_pc by congruence. split_and!; [done|lia..].
  - destruct (awrite _ _ _); [|done]. injection E as <-. right.
    cbn [m_pc tptr taken m_cost]. rewrite qlen_pc by congruence. split_and!; [done|lia..].
  - injection E as <-. right. cbn [m_pc tptr taken m_cost].
    destruct (queue_put s connfd (tptr s) (mutex s) (accepted s) (taken s) (closed s)) as [-> _];
      auto using inv_get, inv_put. split_and!; [done|lia..].
  - injection E as <-. destruct (Z.eqb_spec (iput s) (iget s)) as [|Hne]; [by left|right].
    unfold qlen, full. rewrite Epc. cbn [m_pc set_main iget iput taken tptr m_cost]. rewrite (proj2 (Z.eqb_neq _ _) Hne). split_and!; [done|lia..].
  - destruct (pool_signal chosen s) as [| |s1] eqn:E1; try done. injection E as <-. right.
    assert (taken s1 = taken s /\ qlen s1 = qlen s /\ m_pc s1 = m_pc s /\ (total t_cost (tptr s1) <= total t_cost (tptr s))%nat)
      as (Ht & Hq & Hpc & Hc).
    { destruct chosen as [i|]; cbn [pool_signal] in E1.
      - destruct (wake_cost i s s1 E1) as (? & ? & ? & ?). split_and!; done || lia.
      - destruct (existsb _ _); [done|]. by injection E1 as <-. }
    unfold set_main. cbn [m_pc tptr taken m_cost]. rewrite qlen_pc by congruence. rewrite Hq. split; [done|lia].
  - case_decide; [|done]. injection E as <-. right. unfold set_main, set_mutex.
    cbn [clifd iget iput mutex m_pc tptr accepted taken closed m_cost]. rewrite qlen_pc by congruence. split_and!; [done|lia..].
Qed.

Lemma step_cost l s s' :
  Inv s -> 0 < qlen s -> step l s = Next s' ->
  exited s' = true \/ (length (taken s) < length (taken s'))%nat \/
  taken s' = taken s /\ qlen s <= qlen s' /\ cost s' < cost s.
Proof.
  intros HI Hq E. destruct l as [c| |ch|i|i|i]; cbn [step] in E; unfold with_thread in E.
  - destruct (m_pc s) eqn:Epc; try done. injection E as <-. right. right.
    unfold cost. cbn [m_pc tptr taken m_cost]. rewrite qlen_pc, Epc by congruence. cbn [m_cost]. split_and!; [done|lia..].
  - destruct (m_pc s); try done. injection E as <-. by left.
  - destruct (main_cost ch s s' HI E); auto.
  - destruct (exited s); [done|]. destruct (tptr s !! i) as [t|] eqn:Et; [|done].
    destruct (thread_cost i t s s' HI Hq Et E) as [|(? & ? & ?)]; auto 10 with lia.
  - repeat case_match; try done. injection E as <-. by left.
  - destruct (exited s); [done|]. destruct (tptr s !! i); [|done]. right. right.
    destruct (wake_cost i s s' E) as (? & Hq' & Hpc & ?). unfold cost. rewrite Hq', Hpc. split_and!; [done|lia..].
Qed.

Lemma exited_stays ls s s' : exited s = true -> run_sched step ls s = Next s' -> s' = s.
Proof.
  intros Ex E. destruct ls as [|l ls]; [by injection E as <-|]. exfalso. cbn in E.
  assert (step l s = Blocked) as H; [|by rewrite H in E].
  unfold exited in Ex. destruct (m_pc s) eqn:Epc; try done.
  destruct l; cbn [step]; unfold main_step, with_thread, exited; by rewrite Epc.
Qed.

Lemma run_cost ls s s' :
  Good s -> exited s = false -> 0 < qlen s -> run_sched step ls s = Next s' -> cost s < Z.of_nat (length ls) ->
  exited s' = true \/ (length (taken s) < length (taken s'))%nat.
Proof.
  revert s. induction ls as [|l ls IH]; cbn [run_sched length]; intros s HG Ex Hq E Hlen.
  - exfalso. unfold Good in HG. rewrite Ex in HG.
    pose proof (qlen_range s (inv_get _ HG) (inv_put _ HG)). unfold cost in Hlen. lia.
  - destruct (step l s) as [| |s1] eqn:E1; try done. cbn in E.
    pose proof (step_good l s HG) as HG1. rewrite E1 in HG1. unfold Good in HG. rewrite Ex in HG.
    destruct (exited s1) eqn:Ex1; [left; by rewrite (exited_stays ls s1 s' Ex1 E)|].
    destruct (run_history ls s1 s' E) as [_ Hp]. apply prefix_length in Hp.
    destruct (step_cost l s s1 HG Hq E1) as [?|[?|(Ht & ? & ?)]]; [congruence|right; lia|].
    rewrite <- Ht. apply IH; try done; lia.
Qed.

(** *** Some thread can always go on *)
Definition internal (l : label) : bool := match l with Go _ | Run _ => true | _ => false end.

Lemma main_inside_enabled s : Inv s -> main_in (m_pc s) = true ->
  exists chosen s', main_step chosen s = Next s'.
Proof.
  intros HI Hin. pose proof (proj1 (inv_mutex _ HI Main) Hin) as Hm. unfold main_step, unlock.
  destruct (m_pc s) eqn:Epc; try done.
  - exists None. destruct (awrite_is_Some (clifd s) (iput s) connfd) as [a ->]; [|by eexists].
    rewrite (inv_len _ HI). pose proof (inv_put _ HI). lia.
  - by exists None; eexists.
  - by exists None; eexists.
  - destruct (existsb is_waiting (tptr s)) eqn:Ex; [|by exists None; eexists; cbn; rewrite Ex].
    apply existsb_exists in Ex as (t & Hin' & Hw). apply list_elem_of_In, list_elem_of_lookup in Hin' as [i Et].
    exists (Some i). eexists. cbn. unfold wake. by rewrite Et, Hw.
  - exists None. rewrite decide_True by done. by eexists.
Qed.

Lemma thread_enabled s i t :
  Inv s -> exited s = false -> tptr s !! i = Some t -> waiting (t_pc t) = 0%nat ->
  (thread_in (t_pc t) = true \/ mutex s = None) -> exists s', step (Run i) s = Next s'.
Proof.
  intros HI Ex Et Hw Hm. cbn [step]. unfold with_thread. rewrite Ex, Et.
  pose proof (inv_mutex _ HI (Thr i)) as Hi. cbn [inside] in Hi. rewrite Et in Hi.
  pose proof (thread_step_inv s i t HI Et) as Hs.
  destruct (thread_step i t s) as [| |s'] eqn:E; [exfalso|done|by eexists]. clear Hs.
  unfold thread_step, lock, unlock, access in E.
  destruct (t_pc t); cbn [thread_in] in *; try done; repeat case_match; try done; destruct Hm; congruence.
Qed.

Lemma somebody_awake s : Inv s -> (0 < length (tptr s))%nat -> 0 < qlen s -> unsignalled (m_pc s) = 0%nat ->
  exists i t, tptr s !! i = Some t /\ waiting (t_pc t) = 0%nat.
Proof.
  intros HI Hn Hq Hu. destruct (decide (total waiting (tptr s) = 0%nat)) as [H|H].
  - destruct (lookup_lt_is_Some_2 (tptr s) 0 Hn) as [t Et]. exists 0%nat, t. eauto using total_zero.
  - pose proof (inv_wake _ HI ltac:(lia)) as Hw. rewrite Hu in Hw.
    destruct (total_pos awake (tptr s)) as (i & t & Et & Ha); [lia|]. exists i, t.
    split; [done|]. destruct (t_pc t); cbn in *; lia.
Qed.

Lemma some_enabled s : Inv s -> exited s = false -> (0 < length (tptr s))%nat -> 0 < qlen s ->
  exists l s', internal l = true /\ step l s = Next s'.
Proof.
  intros HI Ex Hn Hq. destruct (mutex s) as [[|i]|] eqn:Em.
  - apply (inv_mutex _ HI Main) in Em. destruct (main_inside_enabled s HI Em) as (ch & s' & E).
    by exists (Go ch), s'.
  - pose proof Em as Hi. apply (inv_mutex _ HI (Thr i)) in Hi. cbn [inside] in Hi.
    destruct (tptr s !! i) as [t|] eqn:Et; [|done].
    destruct (thread_enabled s i t HI Ex Et) as [s' E]; [by destruct (t_pc t)|by left|]. by exists (Run i), s'.
  - assert (main_in (m_pc s) = false) as Hm.
    { destruct (main_in (m_pc s)) eqn:E; [|done]. pose proof (proj1 (inv_mutex _ HI Main) E). congruence. }
    destruct (somebody_awake s HI Hn Hq) as (i & t & Et & Hw); [by destruct (m_pc s)|].
    destruct (thread_enabled s i t HI Ex Et Hw) as [s' E]; [by right|]. by exists (Run i), s'.
Qed.

Lemma run_threads ls s s' : run_sched step ls s = Next s' -> length (tptr s') = length (tptr s).
Proof.
  revert s. induction ls as [|l ls IH]; cbn; intros s E; [by injection E as <-|].
  destruct (step l s) as [| |s1] eqn:E1; try done. rewrite (IH s1 E). clear IH E.
  destruct l; cbn [step] in E1; unfold with_thread, main_step, thread_step, pool_signal, wake, lock, unlock, access in E1;
    repeat (case_match; simplify_eq/=; try done); by rewrite ?length_alter, ?length_insert.
Qed.

(** The next element of the longer of two prefixes of a list. *)
Lemma next_taken (t t' : list Z) c q l :
  t `prefix_of` t' -> (length t < length t')%nat -> t' `prefix_of` l -> t ++ (c :: q) `prefix_of` l ->
  t ++ [c] `prefix_of` t'.
Proof.
  intros [r ->] Hlt [k ->] [k' E]. rewrite length_app in Hlt. destruct r as [|x r]; [cbn in Hlt; lia|].
  rewrite <- !app_assoc in E. apply app_inv_head in E. injection E as -> _. exists r. by rewrite <- app_assoc.
Qed.


Lemma queue_length s : 0 <= iget s < 32 -> 0 <= iput s < 32 -> Z.of_nat (length (queue s)) = qlen s.
Proof.
  intros Hg Hp. pose proof (qlen_range s Hg Hp). unfold queue.
  assert (forall a i n, length (ring a i n) = n) as -> by (intros a i n; revert i; induction n; cbn; auto). lia.
Qed.

(** Only main's own steps lead from MTest to the end of the process. *)
Lemma test_exits ch s s' : exited s = false -> step (Go ch) s = Next s' ->
  exited s' = true <-> m_pc s = MTest /\ full s = true.
Proof.
  intros Ex E. cbn [step] in E. unfold full, exited in *. unfold main_step, lock, unlock, access, pool_signal, wake in E.
  destruct (m_pc s); repeat (case_match; simplify_eq/=; try done); naive_solver.
Qed.

(** The ring never overflows silently.  The process ends by a statement of
    main exactly when main tests the ring after the 32nd connection that was
    accepted and not taken: the ring holds 31, its last place tells full from
    empty. *)
Theorem pool_quits_when_full (nthreads : nat) (ls : list label) (s s' : pool) (ch : option nat) :
  run_sched step ls (init nthreads) = Next s -> step (Go ch) s = Next s' ->
  (exited s' = true <-> m_pc s = MTest /\ length (accepted s) = (length (taken s) + 32)%nat).
Proof.
  intros E E1. destruct (exited s) eqn:Ex.
  { unfold exited in Ex. cbn [step] in E1. unfold main_step in E1. by destruct (m_pc s). }
  pose proof (reachable_inv _ _ _ E Ex) as HI. rewrite (test_exits ch s s' Ex E1).
  pose proof (inv_get _ HI) as Hg. pose proof (inv_put _ HI) as Hp. pose proof (queue_length s Hg Hp) as Hl.
  split; intros [Epc H]; (split; [done|]); pose proof (inv_fifo _ HI) as Hf; rewrite Epc in Hf; cbn [pending] in Hf.
  - rewrite Hf, !length_app. unfold qlen in Hl. rewrite H in Hl. cbn [length]. unfold MAXNCLI in Hl. lia.
  - rewrite Hf, !length_app in H. cbn [length] in H. unfold qlen in Hl.
    destruct (full s); [done|]. ring_lia.
Qed.

(** ** Witnesses *)

(** One thread; a connection is stored while the thread serves an earlier one. *)
Definition one_busy : list label :=
  [Acc 7; Go None; Go None; Go None; Go None; Go None; Go None;
   Run 0; Run 0; Run 0; Run 0; Run 0; Run 0;
   Acc 8; Go None; Go None; Go None; Go None; Go None; Go None].
Definition one_busy_state : pool :=
  State (7 :: 8 :: replicate 30 0) 1 2 None MAccept [Thread (TServe 7) 1] [7; 8] [7] [].


(** 32 connections and no thread that takes them. *)
Definition flood : list label :=
  mjoin (map (fun c => [Acc (Z.of_nat c); Go None; Go None; Go None; Go None; Go None; Go None]) (seq 1 31))
  ++ [Acc 32; Go None; Go None; Go None].
Definition flooded : pool :=
  match run_sched step flood (init 0) with Next s => s | _ => init 0 end.

Lemma pool_quits_when_full_witness :
  exited (set_main MExited flooded) = true <->
  m_pc flooded = MTest /\ length (accepted flooded) = (length (taken flooded) + 32)%nat.
Proof. refine (pool_quits_when_full 0 flood flooded (set_main MExited flooded) None _ _); by vm_compute. Defined.
End PoolProofs.

(** * thread/condition_var.c *)
Module CondVarProofs.
Import CondVar.

Definition is_done (t : thread_instance) : bool := bool_decide (e_pc t = EDone).

(** condition_var.c can wait for ever: there is a schedule after which the
    three threads have ended, each having set its flag and signalled, and main
    waits in pthread_cond_wait with ndone still 3; no thread can make a step
    any more.  main waits without testing whether a thread is already done, so a
    signal sent before it waits is lost. *)
Theorem condition_var_deadlocks :
  exists ls s, run_sched cv_step ls cv_init = Next s /\ ndone s = 3 /\ c_pc s = CWaiting /\
    forallb is_done (threads s) = true /\ forall l, cv_step l s = Blocked.
Proof.
  exists (mjoin (map (fun i => replicate 5 (Some i)) [0%nat; 1%nat; 2%nat]) ++ [None; None; None]).
  eexists. split; [by vm_compute|]. split_and!; try done.
  intros [i|]; [|done]. cbn. unfold exec_step. cbn. by do 3 (destruct i as [|i]; [done|]).
Qed.
End CondVarProofs.
