(* ===== verification/Prefork.v ===== *)
(** * The preforked server that passes descriptors

    server/serv05.c and server/child05.c: the parent accepts connections and
    hands each to a child that is not busy, over the stream pipe of that child;
    the child serves the connection and writes one byte back.  The parent waits
    for connections and for bytes with one select, and does not look at the
    listening socket while no child is available.

    The processes run concurrently and share only the pipes, so the model is a
    transition system: a state holds the variables of the parent, the pipes and
    the program point of every process; a transition executes one statement
    that other processes can see, with the private statements that follow it. *)
From stdpp Require Import base list numbers.
From S2P Require Import Prelude Pool.

Module Prefork.

(** The statement a child executes next. *)
Inductive child_pc :=
  | CRead                  (* Read_fd(STDERR_FILENO, &c, 1, &connfd) *)
  | CServe (connfd : Z)    (* web_child(connfd) *)
  | CClose (connfd : Z)    (* Close(connfd) *)
  | CWrite                 (* Write(STDERR_FILENO, "", 1) *)
  | CDead.

(** The element of cptr, which only the parent reads, then the pipe (descriptors on
    their way to the child, bytes on their way to the parent) and the program
    point of the child. *)
Record child := Child { child_status : Z; child_count : Z; down : list Z; up : nat; c_pc : child_pc }.

(** Why the parent has ended: an err_quit of its own, or a call that failed. *)
Inductive why := NoChildren | ChildDied | CallFailed.

(** The statement the parent executes next; [rset] says which pipes select found
    readable. *)
Inductive parent_pc :=
  | PSelect
  | PAccept (rset : list bool) (nsel : Z)
  | PFind (connfd : Z) (rset : list bool) (nsel : Z)             (* for (i = 0; ...) and what follows *)
  | PSend (i : nat) (connfd : Z) (rset : list bool) (nsel : Z)   (* Write_fd *)
  | PClose (connfd : Z) (rset : list bool) (nsel : Z)
  | PScan (i : nat) (rset : list bool) (nsel : Z)                (* the second loop, at i *)
  | PRead (i : nat) (rset : list bool) (nsel : Z)                (* Read(cptr[i].child_pipefd, &rc, 1) *)
  | PExited (w : why).

(** [backlog]: connections that wait to be accepted.  [accepted] and [closed] are the
    history. *)
Record server := Server {
  cptr : list child; navail : Z; p_pc : parent_pc; backlog : list Z; accepted : list Z; closed : list Z }.

Definition set_parent (pc : parent_pc) (s : server) : server :=
  Server (cptr s) (navail s) pc (backlog s) (accepted s) (closed s).
Definition set_child (i : nat) (k : child) (s : server) : server :=
  Server (<[i := k]> (cptr s)) (navail s) (p_pc s) (backlog s) (accepted s) (closed s).

(** ** The parent *)
Definition is_dead (k : child) : bool := match c_pc k with CDead => true | _ => false end.
(** A pipe is readable when it holds a byte, or when its other end is closed. *)
Definition readable (k : child) : bool := (0 <? up k)%nat || is_dead k.
Fixpoint trues (l : list bool) : Z := match l with [] => 0 | b :: l => (if b then 1 else 0) + trues l end.

Definition nonempty {A} (l : list A) : bool := match l with [] => false | _ => true end.

(** rset = masterset; if (navail <= 0) FD_CLR(listenfd); Select. *)
Definition do_select (s : server) : outcome server :=
  let rset := readable <$> cptr s in
  let listen := (0 <? navail s) && nonempty (backlog s) in
  let nsel := trues rset + (if listen then 1 else 0) in
  if nsel =? 0 then Blocked
  else Next (set_parent (if listen then PAccept rset nsel else PScan 0 rset nsel) s).

(** The first child with status 0. *)
Fixpoint find_avail (l : list child) : option nat :=
  match l with
  | [] => None
  | k :: l => if child_status k =? 0 then Some 0%nat else S <$> find_avail l
  end.

Definition do_find (c : Z) (rset : list bool) (nsel : Z) (s : server) : outcome server :=
  match find_avail (cptr s) with
  | None => Next (set_parent (PExited NoChildren) s)
  | Some i =>
      access (cptr s !! i) (fun k =>
      Next (Server (<[i := Child 1 (child_count k + 1) (down k) (up k) (c_pc k)]> (cptr s)) (navail s - 1)
              (PSend i c rset nsel) (backlog s) (accepted s) (closed s)))
  end.

(** A pipe whose other end is closed: the call fails. *)
Definition do_send (i : nat) (c : Z) (rset : list bool) (nsel : Z) (s : server) : outcome server :=
  access (cptr s !! i) (fun k =>
  if is_dead k then Next (set_parent (PExited CallFailed) s)
  else Next (set_parent (PClose c rset nsel) (set_child i (Child (child_status k) (child_count k) (down k ++ [c]) (up k) (c_pc k)) s))).

Definition do_read (i : nat) (rset : list bool) (nsel : Z) (s : server) : outcome server :=
  access (cptr s !! i) (fun k =>
  match up k with
  | O => if is_dead k then Next (set_parent (PExited ChildDied) s) else Blocked
  | S u =>
      Next (Server (<[i := Child 0 (child_count k) (down k) u (c_pc k)]> (cptr s)) (navail s + 1)
              (if nsel - 1 =? 0 then PSelect else PScan (S i) rset (nsel - 1)) (backlog s) (accepted s) (closed s))
  end).

Definition parent_step (s : server) : outcome server :=
  match p_pc s with
  | PSelect => do_select s
  | PAccept rset nsel =>
      match backlog s with
      | [] => Blocked
      | c :: q => Next (Server (cptr s) (navail s) (PFind c rset nsel) q (accepted s ++ [c]) (closed s))
      end
  | PFind c rset nsel => do_find c rset nsel s
  | PSend i c rset nsel => do_send i c rset nsel s
  | PClose c rset nsel => Next (set_parent (if nsel - 1 =? 0 then PSelect else PScan 0 rset (nsel - 1)) s)
  | PScan i rset nsel =>
      if (i <? length (cptr s))%nat then
        access (rset !! i) (fun b => Next (set_parent (if b : bool then PRead i rset nsel else PScan (S i) rset nsel) s))
      else Next (set_parent PSelect s)
  | PRead i rset nsel => do_read i rset nsel s
  | PExited _ => Blocked
  end.

(** ** A child *)
Definition with_pc (pc : child_pc) (k : child) : child := Child (child_status k) (child_count k) (down k) (up k) pc.
Definition exited (s : server) : bool := match p_pc s with PExited _ => true | _ => false end.

Definition child_step (i : nat) (k : child) (s : server) : outcome server :=
  match c_pc k with
  | CRead =>
      match down k with
      | c :: q => Next (set_child i (Child (child_status k) (child_count k) q (up k) (CServe c)) s)
      | [] => if exited s then Next (set_child i (with_pc CDead k) s) else Blocked        (* read_fd returned 0 *)
      end
  | CServe c => Next (set_child i (with_pc (CClose c) k) s)
  | CClose c =>
      Next (set_child i (with_pc CWrite k) (Server (cptr s) (navail s) (p_pc s) (backlog s) (accepted s) (closed s ++ [c])))
  | CWrite =>
      Next (set_child i (if exited s then with_pc CDead k                                  (* the other end is closed *)
                         else Child (child_status k) (child_count k) (down k) (S (up k)) CRead) s)
  | CDead => Blocked
  end.

(** web_child calls err_quit: the message goes to the descriptor of stderr, which is the
    pipe to the parent; then the process ends. *)
Definition child_quits (n : nat) (i : nat) (k : child) (s : server) : outcome server :=
  match c_pc k with
  | CServe c =>
      Next (set_child i (Child (child_status k) (child_count k) (down k) (up k + n) CDead)
        (Server (cptr s) (navail s) (p_pc s) (backlog s) (accepted s) (closed s ++ [c])))
  | _ => Blocked
  end.

(** ** Transitions

    [Arrive c]: a connection completes.  [Abort j]: the client of the [j]-th waiting
    connection resets it.  [Parent] and [Kid i]: the process executes its next
    statement.  [Fail]: the parent's call fails and a wrapper ends the process.
    [Die i n]: child [i] ends in web_child with a message of [n] bytes. *)
Inductive label := Arrive (c : Z) | Abort (j : nat) | Parent | Kid (i : nat) | Fail | Die (i n : nat).

Definition calling (pc : parent_pc) : bool :=
  match pc with PSelect | PAccept _ _ | PSend _ _ _ _ | PClose _ _ _ | PRead _ _ _ => true | _ => false end.

Definition step (l : label) (s : server) : outcome server :=
  match l with
  | Arrive c => Next (Server (cptr s) (navail s) (p_pc s) (backlog s ++ [c]) (accepted s) (closed s))
  | Abort j => Next (Server (cptr s) (navail s) (p_pc s) (delete j (backlog s)) (accepted s) (closed s))
  | Parent => parent_step s
  | Kid i => match cptr s !! i with Some k => child_step i k s | None => Blocked end
  | Fail => if calling (p_pc s) then Next (set_parent (PExited CallFailed) s) else Blocked
  | Die i n => match cptr s !! i with Some k => child_quits n i k s | None => Blocked end
  end.

(** After the loop that forks the children. *)
Definition init (nchildren : nat) : server :=
  Server (replicate nchildren (Child 0 0 [] 0 CRead)) (Z.of_nat nchildren) PSelect [] [] [].
End Prefork.
