(* ===== verification/PreforkProofs.v ===== *)
(** * The preforked server keeps its books

    As long as no child ends in web_child, under every schedule: the parent
    counts the available children correctly, never finds itself with a
    connection and no child, gives each child one connection at a time and
    loses none; and while a connection waits some process can go on, for a
    bounded number of steps until it is accepted.  A child that ends with an
    error message breaks all of this: the message goes to the pipe. *)
From stdpp Require Import base list numbers.
From S2P Require Import Prelude Pool Prefork.

Module PreforkProofs.
Import Prefork.

(** ** Counting *)

(** The connections and bytes a child is busy with: sent, in its hands, or reported. *)
Definition serving (pc : child_pc) : nat := match pc with CServe _ | CClose _ | CWrite => 1 | CRead | CDead => 0 end.
Definition engaged (k : child) : nat := length (down k) + up k + serving (c_pc k).
Definition sending (pc : parent_pc) (i : nat) : nat :=
  match pc with PSend j _ _ _ => if decide (i = j) then 1 else 0 | _ => 0 end.

Fixpoint avail (l : list child) : Z := match l with [] => 0 | k :: l => 1 - child_status k + avail l end.

Lemma avail_insert l i k k' : l !! i = Some k -> avail (<[i := k']> l) = avail l + child_status k - child_status k'.
Proof.
  revert i. induction l as [|x l IH]; intros [|i] H; [done|done| |].
  - injection H as ->. cbn. lia.
  - change (avail (x :: <[i := k']> l) = avail (x :: l) + child_status k - child_status k'). cbn [avail]. rewrite (IH i H). lia.
Qed.
Lemma avail_find l : (forall i k, l !! i = Some k -> 0 <= child_status k <= 1) -> 0 < avail l ->
  exists i k, find_avail l = Some i /\ l !! i = Some k /\ child_status k = 0.
Proof.
  induction l as [|x l IH]; intros Hl Ha; cbn in Ha |- *; [lia|]. destruct (Z.eqb_spec (child_status x) 0) as [E|E]; [by exists 0%nat, x|].
  destruct IH as (i & k & Ef & Ek & E0); [intros i k; apply (Hl (S i))| |].
  - specialize (Hl 0%nat x eq_refl). lia.
  - exists (S i), k. by rewrite Ef.
Qed.

Lemma trues_nonneg l : 0 <= trues l.
Proof. induction l as [|[] l IH]; cbn; lia. Qed.
Lemma trues_drop (l : list bool) i (b : bool) : l !! i = Some b -> trues (drop i l) = (if b then 1 else 0) + trues (drop (S i) l).
Proof. intros H. by rewrite (drop_S l b i H). Qed.

(** ** The invariant *)

(** Every pipe that [rset] announces, from the [i]-th on, holds a byte. *)
Definition tokens (l : list child) (i : nat) (rset : list bool) : Prop :=
  length rset = length l /\ forall j k, (i <= j)%nat -> rset !! j = Some true -> l !! j = Some k -> (0 < up k)%nat.

Definition pc_ok (s : server) : Prop :=
  match p_pc s with
  | PSelect | PExited _ => True
  | PAccept rset nsel | PFind _ rset nsel => 0 < navail s /\ nsel = 1 + trues rset /\ tokens (cptr s) 0 rset
  | PSend i _ rset nsel => (i < length (cptr s))%nat /\ nsel = 1 + trues rset /\ tokens (cptr s) 0 rset
  | PClose _ rset nsel => nsel = 1 + trues rset /\ tokens (cptr s) 0 rset
  | PScan i rset nsel => 0 < nsel /\ nsel = trues (drop i rset) /\ tokens (cptr s) i rset
  | PRead i rset nsel => rset !! i = Some true /\ nsel = trues (drop i rset) /\ tokens (cptr s) i rset
  end.

Definition kid_ok (pc : parent_pc) (i : nat) (k : child) : Prop :=
  is_dead k = false /\ child_status k = Z.of_nat (engaged k + sending pc i) /\ (engaged k + sending pc i <= 1)%nat.

Record Inv (s : server) : Prop := {
  inv_kid : forall i k, cptr s !! i = Some k -> kid_ok (p_pc s) i k;
  inv_avail : navail s = avail (cptr s);
  inv_pc : pc_ok s }.

Lemma prefork_init_inv n : Inv (init n).
Proof.
  split; [|cbn|done].
  - intros i k H. cbn in H. apply lookup_replicate in H as [-> _]. split_and!; cbn; lia || done.
  - induction n as [|n IH]; [done|]. cbn [replicate avail]. rewrite <- IH. cbn. lia.
Qed.

Lemma tokens_insert l i0 rset i k k' : tokens l i0 rset -> l !! i = Some k ->
  ((i0 <= i)%nat -> rset !! i = Some true -> (0 < up k)%nat -> (0 < up k')%nat) -> tokens (<[i := k']> l) i0 rset.
Proof.
  intros [Hl Ht] Hk Hu. split; [by rewrite length_insert|]. intros j x Hj Hr Hx.
  destruct (decide (i = j)) as [<-|Hne].
  - rewrite list_lookup_insert_eq in Hx by (by eapply lookup_lt_Some). injection Hx as <-. eauto.
  - rewrite list_lookup_insert_ne in Hx by done. eauto.
Qed.
Lemma tokens_later l i j rset : tokens l i rset -> (i <= j)%nat -> tokens l j rset.
Proof. intros [Hl Ht] Hij. split; [done|]. intros x k Hx. apply Ht. lia. Qed.

(** A child is replaced, the parent's variables stay. *)
Lemma kid_inv s i k k' s' : Inv s -> cptr s !! i = Some k -> cptr s' = <[i := k']> (cptr s) -> navail s' = navail s -> p_pc s' = p_pc s ->
  is_dead k' = false -> child_status k' = child_status k -> engaged k' = engaged k -> (up k <= up k')%nat -> Inv s'.
Proof.
  intros [H1 H2 H3] Hk Ec En Ep Hd Hst He Hu. pose proof (H1 i k Hk) as (_ & Hs & Hle).
  assert (forall i0 rset, tokens (cptr s) i0 rset -> tokens (cptr s') i0 rset) as Ht.
  { intros i0 rset Ht. rewrite Ec. apply (tokens_insert _ _ _ _ k); [done|done|lia]. }
  split.
  - rewrite Ec, Ep. intros j x Hx. destruct (decide (i = j)) as [<-|Hne].
    + rewrite list_lookup_insert_eq in Hx by (by eapply lookup_lt_Some). injection Hx as <-. split_and!; [done|by rewrite Hst, He|by rewrite He].
    + rewrite list_lookup_insert_ne in Hx by done. by apply H1.
  - rewrite En, Ec, (avail_insert _ i k) by done. lia.
  - unfold pc_ok in *. rewrite Ep, En. destruct (p_pc s); intuition. by rewrite Ec, length_insert.
Qed.

Lemma child_inv s i k : Inv s -> exited s = false -> cptr s !! i = Some k ->
  match child_step i k s with Blocked => True | Crash => False | Next s' => Inv s' end.
Proof.
  intros HI Hx Hk. unfold child_step. destruct (c_pc k) as [|c|c| |] eqn:E; [|..|done].
  - destruct (down k) as [|c q] eqn:Ed; [by rewrite Hx|].
    eapply (kid_inv s i k); try done. unfold engaged. rewrite Ed, E. cbn. lia.
  - eapply (kid_inv s i k); try done. unfold engaged. by rewrite E.
  - eapply (kid_inv s i k); try done. unfold engaged. by rewrite E.
  - rewrite Hx. eapply (kid_inv s i k); try done; [unfold engaged; rewrite E; cbn; lia|cbn; lia].
Qed.

(** The parent at its own: the children and the count stay. *)
Lemma parent_pc_inv s pc : Inv s -> (forall i, sending pc i = sending (p_pc s) i) -> pc_ok (set_parent pc s) -> Inv (set_parent pc s).
Proof. intros [H1 H2 H3] Hs Hok. split; [|done|done]. intros i k Hk. unfold kid_ok. cbn [set_parent p_pc]. rewrite Hs. by apply H1. Qed.

Lemma readable_tokens s : Inv s -> tokens (cptr s) 0 (readable <$> cptr s).
Proof.
  intros [H1 _ _]. split; [by rewrite length_fmap|]. intros j k _ Hr Hk. rewrite list_lookup_fmap, Hk in Hr. injection Hr as Hr.
  destruct (H1 j k Hk) as (Hd & _). unfold readable in Hr. rewrite Hd, orb_false_r in Hr. by apply Nat.ltb_lt.
Qed.

Lemma select_inv s : Inv s -> p_pc s = PSelect ->
  match do_select s with Blocked => True | Crash => False | Next s' => Inv s' /\ exited s' = false end.
Proof.
  intros HI Hpc. pose proof (readable_tokens s HI) as Ht. unfold do_select. set (rset := readable <$> cptr s) in *. pose proof (trues_nonneg rset).
  destruct (Z.eqb_spec (trues rset + (if (0 <? navail s) && nonempty (backlog s) then 1 else 0)) 0) as [E|E]; [done|].
  destruct (Z.ltb_spec 0 (navail s)); cbn [andb] in *; [destruct (nonempty (backlog s))|];
    (split; [|done]); (apply parent_pc_inv; [done|intros i; by rewrite Hpc|]); cbn [pc_ok set_parent p_pc cptr navail] in *; unfold pc_ok; cbn;
    rewrite ?drop_0; split_and!; try done; lia.
Qed.

Lemma find_inv c rset nsel s : Inv s -> p_pc s = PFind c rset nsel ->
  match do_find c rset nsel s with Blocked => True | Crash => False | Next s' => Inv s' /\ exited s' = false end.
Proof.
  intros [H1 H2 H3] Hpc. unfold pc_ok in H3. rewrite Hpc in H3. destruct H3 as (Hn & Hs & Ht). unfold do_find. rewrite H2 in Hn.
  destruct (avail_find (cptr s)) as (i & k & -> & Ek & E0); [|done|].
  { intros i k Hk. destruct (H1 i k Hk) as (_ & -> & Hle). lia. }
  rewrite Ek. cbn [access]. split; [|done]. destruct (H1 i k Ek) as (Hd & Hst & Hle). rewrite Hpc in Hst, Hle. cbn [sending] in Hst, Hle.
  assert (engaged k = 0%nat) as He by lia.
  split; cbn [cptr navail p_pc].
  - intros j x Hx. destruct (decide (i = j)) as [<-|Hne].
    + rewrite list_lookup_insert_eq in Hx by (by eapply lookup_lt_Some). injection Hx as <-. unfold kid_ok, engaged in *. cbn in *.
      rewrite decide_True by done. split_and!; [done|lia|lia].
    + rewrite list_lookup_insert_ne in Hx by done. pose proof (H1 j x Hx) as Hj. unfold kid_ok in *. rewrite Hpc in Hj. cbn [sending] in *.
      by rewrite decide_False by done.
  - rewrite (avail_insert _ i k) by done. cbn. lia.
  - unfold pc_ok. cbn. rewrite length_insert. split_and!; [by eapply lookup_lt_Some|done|].
    apply (tokens_insert _ _ _ _ k); [done|done|]. by cbn.
Qed.

Lemma send_inv i c rset nsel s : Inv s -> p_pc s = PSend i c rset nsel ->
  match do_send i c rset nsel s with Blocked => True | Crash => False | Next s' => Inv s' /\ exited s' = false end.
Proof.
  intros [H1 H2 H3] Hpc. unfold pc_ok in H3. rewrite Hpc in H3. destruct H3 as (Hn & Hs & Ht). unfold do_send.
  destruct (lookup_lt_is_Some_2 _ _ Hn) as [k Hk]. rewrite Hk. cbn [access]. destruct (H1 i k Hk) as (Hd & Hst & Hle). rewrite Hd. split; [|done].
  rewrite Hpc in Hst, Hle. cbn [sending] in Hst, Hle. rewrite decide_True in Hst, Hle by done.
  split; cbn [cptr navail p_pc set_parent set_child].
  - intros j x Hx. destruct (decide (i = j)) as [<-|Hne].
    + rewrite list_lookup_insert_eq in Hx by (by eapply lookup_lt_Some). injection Hx as <-. unfold kid_ok, engaged in *. cbn in *.
      rewrite length_app. cbn. split_and!; [done|lia|lia].
    + rewrite list_lookup_insert_ne in Hx by done. pose proof (H1 j x Hx) as Hj. unfold kid_ok in *. rewrite Hpc in Hj. cbn [sending] in *.
      by rewrite decide_False in Hj by done.
  - rewrite (avail_insert _ i k) by done. cbn. lia.
  - unfold pc_ok. cbn. split; [done|]. apply (tokens_insert _ _ _ _ k); [done|done|]. by cbn.
Qed.

(** After a part of the turn: the rest of the bytes, or the next select. *)
Lemma rest_ok s i rset nsel : tokens (cptr s) i rset -> nsel = trues (drop i rset) ->
  pc_ok (set_parent (if nsel =? 0 then PSelect else PScan i rset nsel) s).
Proof.
  intros Ht Hn. pose proof (trues_nonneg (drop i rset)). destruct (Z.eqb_spec nsel 0); [done|]. unfold pc_ok. cbn. split_and!; [lia|done|done].
Qed.

Lemma read_inv i rset nsel s : Inv s -> p_pc s = PRead i rset nsel ->
  match do_read i rset nsel s with Blocked => True | Crash => False | Next s' => Inv s' /\ exited s' = false end.
Proof.
  intros [H1 H2 H3] Hpc. unfold pc_ok in H3. rewrite Hpc in H3. destruct H3 as (Hr & Hs & Ht). unfold do_read.
  pose proof Ht as [Hlen Hup]. assert (is_Some (cptr s !! i)) as [k Hk].
  { apply lookup_lt_is_Some_2. rewrite <- Hlen. by eapply lookup_lt_Some. }
  rewrite Hk. cbn [access]. destruct (H1 i k Hk) as (Hd & Hst & Hle). pose proof (Hup i k (le_n i) Hr Hk) as Hpos. rewrite Hpc in Hst, Hle. cbn [sending] in Hst, Hle.
  destruct (up k) as [|u] eqn:Eu; [lia|]. assert (sending (if nsel - 1 =? 0 then PSelect else PScan (S i) rset (nsel - 1)) = fun _ => 0%nat) as Hsend by (by destruct (_ =? _)).
  split; [|unfold exited; cbn; by destruct (_ =? _)].
  set (k' := Child 0 (child_count k) (down k) u (c_pc k)). rewrite (trues_drop _ _ _ Hr) in Hs.
  split; cbn [cptr navail p_pc].
  - intros j x Hx. unfold kid_ok. rewrite Hsend. destruct (decide (i = j)) as [<-|Hne].
    + rewrite list_lookup_insert_eq in Hx by (by eapply lookup_lt_Some). injection Hx as <-. unfold engaged in *. cbn in *. rewrite Eu in *. split_and!; [done|lia|lia].
    + rewrite list_lookup_insert_ne in Hx by done. pose proof (H1 j x Hx) as Hj. unfold kid_ok in *. by rewrite Hpc in Hj.
  - rewrite (avail_insert _ i k) by done. cbn. unfold engaged in *. rewrite Eu in *. lia.
  - apply (rest_ok (Server (<[i := k']> (cptr s)) (navail s + 1) PSelect (backlog s) (accepted s) (closed s))); [|lia]. cbn.
    apply (tokens_insert _ _ _ _ k); [by eapply tokens_later; [done|lia]|done|lia].
Qed.

Lemma parent_inv s : Inv s -> exited s = false ->
  match parent_step s with Blocked => True | Crash => False | Next s' => Inv s' /\ exited s' = false end.
Proof.
  intros HI Hx. unfold parent_step. destruct (p_pc s) as [|rset nsel|c rset nsel|i c rset nsel|c rset nsel|i rset nsel|i rset nsel|w] eqn:Hpc.
  - by apply select_inv.
  - destruct (backlog s) as [|c q]; [done|]. destruct HI as [H1 H2 H3]. split; [|done]. split; [|done|].
    + cbn [cptr p_pc]. rewrite Hpc in H1. exact H1.
    + unfold pc_ok in *. rewrite Hpc in H3. exact H3.
  - by apply find_inv.
  - by apply send_inv.
  - pose proof (inv_pc _ HI) as H3. unfold pc_ok in H3. rewrite Hpc in H3. destruct H3 as (Hs & Ht).
    split; [|unfold exited; cbn; by destruct (_ =? _)]. apply parent_pc_inv; [done|intros i; rewrite Hpc; by destruct (_ =? _)|].
    apply (rest_ok s 0); [done|]. rewrite drop_0. lia.
  - pose proof (inv_pc _ HI) as H3. unfold pc_ok in H3. rewrite Hpc in H3. destruct H3 as (Hn & Hs & Ht). destruct Ht as [Hlen Hup].
    destruct (Nat.ltb_spec i (length (cptr s))) as [Hi|Hi].
    + destruct (lookup_lt_is_Some_2 rset i) as [b Hb]; [lia|]. rewrite Hb. cbn [access]. split; [|by destruct b].
      apply parent_pc_inv; [done|intros j; rewrite Hpc; by destruct b|]. unfold pc_ok. destruct b; cbn; [by split_and!|].
      rewrite (trues_drop _ _ _ Hb) in Hs. cbn in Hs. split_and!; [done|done|]. eapply tokens_later; [by split|lia].
    + rewrite drop_ge in Hs by lia. cbn in Hs. lia.
  - by apply read_inv.
  - unfold exited in Hx. by rewrite Hpc in Hx.
Qed.

(** ** No connection is lost *)
Definition hand (k : child) : list Z := down k ++ match c_pc k with CServe c | CClose c => [c] | _ => [] end.
Definition phand (pc : parent_pc) : list Z := match pc with PFind c _ _ | PSend _ c _ _ => [c] | _ => [] end.
Definition Accounted (s : server) : Prop := accepted s ≡ₚ closed s ++ (cptr s ≫= hand) ++ phand (p_pc s).

Lemma hand_split (l : list child) i k : l !! i = Some k -> exists r, l ≫= hand ≡ₚ hand k ++ r /\ forall k', <[i := k']> l ≫= hand ≡ₚ hand k' ++ r.
Proof.
  intros H. apply list_elem_of_split_length in H as (l1 & l2 & -> & ->). exists ((l1 ≫= hand) ++ (l2 ≫= hand)). split; [|intros k'].
  - rewrite bind_app. cbn [mbind list_bind]. solve_Permutation.
  - rewrite insert_app_r_alt, Nat.sub_diag by done. cbn [insert list_insert]. rewrite bind_app. cbn [mbind list_bind]. solve_Permutation.
Qed.

Lemma child_accounted i k s s' : Accounted s -> exited s = false -> cptr s !! i = Some k -> child_step i k s = Next s' -> Accounted s'.
Proof.
  intros Ha Hx Hk. unfold child_step. destruct (hand_split (cptr s) i k Hk) as (r & E1 & E2). unfold Accounted in *. rewrite E1 in Ha.
  destruct (c_pc k) as [|c|c| |] eqn:E; [destruct (down k) as [|c q] eqn:Ed; [by rewrite Hx|]|..|done]; rewrite ?Hx; intros [= <-]; cbn; rewrite E2; rewrite Ha;
    unfold hand; cbn; rewrite ?E, ?Ed; cbn; rewrite ?app_nil_r; solve_Permutation.
Qed.
Lemma parent_accounted s s' : Accounted s -> parent_step s = Next s' -> exited s' = false -> Accounted s'.
Proof.
  intros Ha. unfold parent_step, Accounted in *. destruct (p_pc s) as [|rset nsel|c rset nsel|i c rset nsel|c rset nsel|i rset nsel|i rset nsel|w] eqn:Hpc; cbn [phand] in *.
  - unfold do_select. destruct (_ =? 0); [done|]. intros [= <-] _. cbn. rewrite Ha. by destruct (_ && _).
  - destruct (backlog s) as [|c q]; [done|]. intros [= <-] _. cbn. rewrite Ha. solve_Permutation.
  - unfold do_find. destruct (find_avail (cptr s)) as [i|]; [|by intros [= <-]]. destruct (cptr s !! i) as [k|] eqn:Hk; [|done]. intros [= <-] _.
    destruct (hand_split _ _ _ Hk) as (r & E1 & E2). cbn. by rewrite E2, Ha, E1.
  - unfold do_send. destruct (cptr s !! i) as [k|] eqn:Hk; [|done]. cbn [access]. destruct (is_dead k); [by intros [= <-]|]. intros [= <-] _.
    destruct (hand_split _ _ _ Hk) as (r & E1 & E2). cbn. rewrite E2, Ha, E1. unfold hand. cbn. solve_Permutation.
  - intros [= <-] _. cbn. rewrite Ha. by destruct (_ =? _).
  - destruct (_ <? _)%nat; [|intros [= <-] _; cbn; by rewrite Ha]. destruct (rset !! i) as [b|]; [|done]. intros [= <-] _. cbn. rewrite Ha. by destruct b.
  - unfold do_read. destruct (cptr s !! i) as [k|] eqn:Hk; [|done]. cbn [access]. destruct (up k); [by destruct (is_dead k); [intros [= <-]|]|]. intros [= <-] _.
    destruct (hand_split _ _ _ Hk) as (r & E1 & E2). cbn. rewrite E2, Ha, E1. unfold hand. cbn. by destruct (_ =? _).
  - done.
Qed.

(** ** All schedules without a child that ends *)
Definition calm (l : label) : Prop := match l with Die _ _ => False | _ => True end.
Definition Good (s : server) : Prop := p_pc s = PExited CallFailed \/ (Inv s /\ exited s = false /\ Accounted s).

Lemma prefork_step_good l s : calm l -> Good s -> match step l s with Blocked => True | Crash => False | Next s' => Good s' end.
Proof.
  intros Hl [Hx|(HI & Hx & Ha)].
  { destruct l as [c|j| |i| |i n]; cbn [step]; [by left|by left| | | |done].
    - unfold parent_step. by rewrite Hx.
    - destruct (cptr s !! i) as [k|]; [|done]. unfold child_step. destruct (c_pc k); [destruct (down k); [destruct (exited s)|]|..]; try done; by left.
    - by rewrite Hx. }
  destruct l as [c|j| |i| |i n]; cbn [step]; [| | | | |done].
  1,2: right; split_and!; [|done|done]; destruct HI; split; done.
  - pose proof (parent_inv s HI Hx) as H. destruct (parent_step s) eqn:E; [done|done|]. right. destruct H as [H1 H2]. split_and!; [done|done|by eapply parent_accounted].
  - destruct (cptr s !! i) as [k|] eqn:Hk; [|done]. pose proof (child_inv s i k HI Hx Hk) as H. destruct (child_step i k s) as [| |s'] eqn:E; [done|done|].
    right. split_and!; [done| |by eapply child_accounted].
    revert E. unfold child_step. rewrite Hx. destruct (c_pc k); [destruct (down k)|..]; intros [= <-]; done.
  - destruct (calling (p_pc s)); [by left|done].
Qed.

Lemma run_good ls s : Forall calm ls -> Good s -> match run_sched step ls s with Blocked => True | Crash => False | Next s' => Good s' end.
Proof.
  intros Hc. revert s. induction Hc as [|l ls Hl _ IH]; intros s Hs; [done|]. cbn. pose proof (prefork_step_good l s Hl Hs) as H.
  destruct (step l s); [done|done|]. by apply IH.
Qed.
Lemma prefork_init_good n : Good (init n).
Proof.
  right. split_and!; [apply prefork_init_inv|done|]. unfold Accounted. cbn. induction n as [|n IH]; [done|]. cbn. exact IH.
Qed.

Lemma avail_count l : (forall i k, l !! i = Some k -> 0 <= child_status k <= 1) -> avail l = Z.of_nat (length (filter (fun k => child_status k = 0) l)).
Proof.
  induction l as [|k l IH]; intros Hl; [done|]. cbn [avail]. rewrite IH by (intros i x; apply (Hl (S i))). pose proof (Hl 0%nat k eq_refl).
  rewrite filter_cons. case_decide; cbn [length]; lia.
Qed.

(** C18. The preforked server never commits itself to more connections than it has
    children: under every schedule in which no child ends while it serves, the
    parent's count is the number of children with status 0, these wait for a
    descriptor and nothing is left in their pipes, no child ever has more than
    one connection, every accepted connection is with the parent, with one
    child or closed, exactly once, and the parent ends only when one of its
    calls fails: the messages "no available children" and "terminated
    unexpectedly" are never reached. *)
Theorem prefork_never_overcommits (nchildren : nat) (ls : list label) :
  Forall calm ls ->
  match run_sched step ls (init nchildren) with
  | Blocked => True
  | Crash => False
  | Next s =>
      p_pc s = PExited CallFailed \/
      (exited s = false /\ navail s = Z.of_nat (length (filter (fun k => child_status k = 0) (cptr s))) /\
       Forall (fun k => (length (hand k) <= 1)%nat /\
         (child_status k = 0 -> c_pc k = CRead /\ down k = [] /\ up k = 0%nat)) (cptr s) /\
       accepted s ≡ₚ closed s ++ (cptr s ≫= hand) ++ phand (p_pc s))
  end.
Proof.
  intros Hc. pose proof (run_good ls (init nchildren) Hc (prefork_init_good nchildren)) as H. destruct (run_sched step ls _) as [| |s]; [done|done|].
  destruct H as [H|(HI & Hx & Ha)]; [by left|right]. split_and!; [done| | |done].
  - rewrite (inv_avail _ HI). apply avail_count. intros i k Hk. destruct (inv_kid _ HI i k Hk) as (_ & -> & Hle). lia.
  - apply Forall_lookup. intros i k Hk. destruct (inv_kid _ HI i k Hk) as (Hd & Hst & Hle). unfold engaged, hand in *. split.
    + rewrite length_app. destruct (c_pc k); cbn in *; lia.
    + intros E0. rewrite E0 in Hst. assert (length (down k) = 0%nat /\ up k = 0%nat /\ serving (c_pc k) = 0%nat) as (E1 & E2 & E3) by lia.
      split_and!; [|by apply nil_length_inv|done]. unfold is_dead in Hd. by destruct (c_pc k).
Qed.

(** ** Progress *)
Definition internal (l : label) : bool := match l with Parent | Kid _ => true | _ => false end.
Definition internals (ls : list label) : Z := Z.of_nat (length (filter (fun l => internal l = true) ls)).

(** The cost of a state falls with every step of a process but Accept. *)
Definition W (n : Z) : Z := 2 * n + 4.
Definition k_cost (n : Z) (k : child) : Z :=
  Z.of_nat (up k) * W n + Z.of_nat (length (down k)) * (W n + 4) +
  match c_pc k with CServe _ => W n + 3 | CClose _ => W n + 2 | CWrite => W n + 1 | CRead | CDead => 0 end.
Definition p_cost (n : Z) (pc : parent_pc) : Z :=
  match pc with
  | PSelect => 2 * n + 3
  | PAccept _ _ | PExited _ => 0
  | PFind _ _ _ => 2 * n + W n + 10
  | PSend _ _ _ _ => 2 * n + W n + 9
  | PClose _ _ _ => 2 * n + 4
  | PScan i _ _ => 2 * (n - Z.of_nat i) + 2
  | PRead i _ _ => 2 * (n - Z.of_nat i) + 1
  end.
Fixpoint k_costs (n : Z) (l : list child) : Z := match l with [] => 0 | k :: l => k_cost n k + k_costs n l end.
Definition size (s : server) : Z := Z.of_nat (length (cptr s)).
Definition cost (s : server) : Z := k_costs (size s) (cptr s) + p_cost (size s) (p_pc s).

Lemma k_costs_insert n l i k k' : l !! i = Some k -> k_costs n (<[i := k']> l) = k_costs n l - k_cost n k + k_cost n k'.
Proof.
  revert i. induction l as [|x l IH]; intros [|i] H; [done|done| |].
  - injection H as ->. change (k_costs n (k' :: l) = k_costs n (k :: l) - k_cost n k + k_cost n k'). cbn [k_costs]. lia.
  - change (k_costs n (x :: <[i := k']> l) = k_costs n (x :: l) - k_cost n k + k_cost n k'). cbn [k_costs]. rewrite (IH i H). lia.
Qed.

Definition grown (s s' : server) : Z := Z.of_nat (length (accepted s')) - Z.of_nat (length (accepted s)).
(** A step of a process: the cost falls, except by Accept. *)
Definition pays (s s' : server) : Prop :=
  size s' = size s /\ 0 <= grown s s' /\ cost s' + 1 <= cost s + (4 * size s + 15) * grown s s'.

Lemma child_pays i k s s' : exited s = false -> cptr s !! i = Some k -> child_step i k s = Next s' -> pays s s'.
Proof.
  intros Hx Hk. assert (0 < size s) as Hn by (apply lookup_lt_Some in Hk; unfold size; lia).
  assert (forall k' cl, k_cost (size s) k' + 1 <= k_cost (size s) k ->
    pays s (set_child i k' (Server (cptr s) (navail s) (p_pc s) (backlog s) (accepted s) cl))) as H.
  { intros k' cl Hle. unfold pays, cost, size, grown in *. cbn. rewrite length_insert, (k_costs_insert _ _ _ k) by done. lia. }
  unfold child_step. unfold k_cost, W in H. destruct s as [l na pc bl ac cl]. cbn in *. rewrite Hx.
  destruct (c_pc k) as [|c|c| |] eqn:E; [destruct (down k) as [|c q] eqn:Ed; [done|]|..|done]; intros [= <-]; apply (H _ _); cbn; rewrite ?Ed; cbn [length]; lia.
Qed.

Lemma parent_pays s s' : Inv s -> parent_step s = Next s' -> exited s' = false -> pays s s'.
Proof.
  intros HI. pose proof (inv_pc _ HI) as Hpc. unfold parent_step, pc_ok, pays, cost, size, grown in *.
  set (n := Z.of_nat (length (cptr s))) in *. assert (0 <= n) by lia.
  destruct (p_pc s) as [|rset nsel|c rset nsel|i c rset nsel|c rset nsel|i rset nsel|i rset nsel|w] eqn:E; cbn [p_cost] in *.
  - unfold do_select. destruct (_ =? 0); [done|]. intros [= <-] _. cbn. fold n. destruct (_ && _); cbn; lia.
  - destruct (backlog s) as [|c q]; [done|]. intros [= <-] _. cbn. fold n. rewrite length_app. cbn. unfold W. lia.
  - unfold do_find. destruct (find_avail (cptr s)) as [i|]; [|by intros [= <-]]. destruct (cptr s !! i) as [k|] eqn:Hk; [|done]. intros [= <-] _. cbn.
    rewrite length_insert. fold n. rewrite (k_costs_insert _ _ _ k) by done. unfold k_cost. cbn. lia.
  - unfold do_send. destruct (cptr s !! i) as [k|] eqn:Hk; [|done]. cbn [access]. destruct (is_dead k); [by intros [= <-]|]. intros [= <-] _. cbn.
    rewrite length_insert. fold n. rewrite (k_costs_insert _ _ _ k) by done. unfold k_cost. cbn. rewrite length_app. cbn. lia.
  - intros [= <-] _. cbn. fold n. destruct (_ =? 0); cbn; lia.
  - destruct Hpc as (Hn & Hs & Hlen & _). destruct (Nat.ltb_spec i (length (cptr s))) as [Hi|Hi].
    + destruct (rset !! i) as [b|]; [|done]. intros [= <-] _. cbn. fold n. destruct b; cbn; lia.
    + rewrite drop_ge in Hs by lia. cbn in Hs. lia.
  - destruct Hpc as (Hr & Hs & Hlen & _). apply lookup_lt_Some in Hr. unfold do_read. destruct (cptr s !! i) as [k|] eqn:Hk; [|done]. cbn [access].
    destruct (up k) as [|u] eqn:Eu; [by destruct (is_dead k); [intros [= <-]|]|]. intros [= <-] _. cbn. rewrite length_insert. fold n.
    rewrite (k_costs_insert _ _ _ k) by done. unfold k_cost, W. cbn. rewrite Eu. destruct (_ =? 0); cbn; lia.
  - done.
Qed.

(** After the parent has ended nothing is accepted. *)
Lemma step_exited l s s' : exited s = true -> step l s = Next s' -> exited s' = true.
Proof.
  unfold exited at 1. destruct (p_pc s) eqn:E; try done. intros _. destruct l as [c|j| |i| |i n]; cbn [step].
  1,2: intros [= <-]; unfold exited; cbn; by rewrite E.
  - unfold parent_step. by rewrite E.
  - destruct (cptr s !! i) as [k|]; [|done]. unfold child_step. assert (exited s = true) as -> by (unfold exited; by rewrite E).
    destruct (c_pc k); [destruct (down k)|..]; intros [= <-]; unfold exited; cbn; by rewrite E.
  - by rewrite E.
  - destruct (cptr s !! i) as [k|]; [|done]. unfold child_quits. destruct (c_pc k); try done. intros [= <-]. unfold exited. cbn. by rewrite E.
Qed.
Lemma run_exited ls s s' : exited s = true -> run_sched step ls s = Next s' -> exited s' = true.
Proof.
  revert s. induction ls as [|l ls IH]; intros s Hs; cbn; [by intros [= <-]|]. destruct (step l s) as [| |s1] eqn:E; try done. cbn.
  apply IH. by eapply step_exited.
Qed.

Lemma prefork_run_cost ls s s' : Forall calm ls -> Good s -> run_sched step ls s = Next s' -> exited s' = false ->
  0 <= grown s s' /\ internals ls + cost s' <= cost s + (4 * size s + 15) * grown s s'.
Proof.
  intros Hc. revert s. induction Hc as [|l ls Hl Hls IH]; intros s Hs.
  { intros [= <-] _. unfold grown, internals. cbn. lia. }
  cbn. pose proof (prefork_step_good l s Hl Hs) as Hg. destruct (step l s) as [| |s1] eqn:E; [done|done|]. cbn. intros Hr Hx.
  assert (exited s1 = false) as Hx1 by (destruct (exited s1) eqn:E1; [by rewrite (run_exited ls s1 s' E1 Hr) in Hx|done]).
  destruct (IH s1 Hg Hr Hx) as [IH1 IH2]. destruct Hs as [Hs|(HI & Hxs & _)].
  { assert (exited s = true) as Hxs by (unfold exited; by rewrite Hs). by rewrite (step_exited l s s1 Hxs E) in Hx1. }
  assert (size s1 = size s /\ 0 <= grown s s1 /\ cost s1 + (if internal l then 1 else 0) <= cost s + (4 * size s + 15) * grown s s1) as (Hsz & Hg1 & Hg2).
  { destruct l as [c|j| |i| |i n]; cbn [step internal] in *.
    1,2: injection E as <-; unfold cost, size, grown; cbn; lia.
    - destruct (parent_pays s s1 HI E Hx1) as (? & ? & ?). lia.
    - destruct (cptr s !! i) as [k|] eqn:Hk; [|done]. destruct (child_pays i k s s1 Hxs Hk E) as (? & ? & ?). lia.
    - destruct (calling (p_pc s)); [injection E as <-|]; done.
    - done. }
  rewrite Hsz in IH2. unfold internals, grown in *. rewrite filter_cons. destruct (internal l); [rewrite decide_True by done|rewrite decide_False by done]; cbn [length]; nia.
Qed.

Lemma cost_bound s : Inv s -> cost s <= 2 * size s * size s + 12 * size s + 14.
Proof.
  intros HI. unfold cost. assert (forall l n, 0 <= n -> (forall i k, l !! i = Some k -> (engaged k <= 1)%nat) -> k_costs n l <= Z.of_nat (length l) * (2 * n + 8)) as Hk.
  { induction l as [|k l IH]; intros n Hn Hl; [cbn; lia|]. cbn [k_costs length]. specialize (IH n Hn (fun i => Hl (S i))). pose proof (Hl 0%nat k eq_refl) as H0.
    assert (k_cost n k <= 2 * n + 8); [|lia]. unfold k_cost, W, engaged in *. destruct (c_pc k); cbn in *; destruct (up k) as [|[|]], (down k) as [|? [|]]; cbn in *; lia. }
  assert (k_costs (size s) (cptr s) <= size s * (2 * size s + 8)) as H1.
  { unfold size. apply Hk; [lia|]. intros i k Hi. destruct (inv_kid _ HI i k Hi) as (_ & _ & Hle). lia. }
  assert (p_cost (size s) (p_pc s) <= 4 * size s + 14); [|lia]. unfold W, size in *. destruct (p_pc s); cbn; unfold W; lia.
Qed.

Lemma child_enabled s i k : Inv s -> cptr s !! i = Some k -> child_status k = 1 -> up k = 0%nat -> sending (p_pc s) i = 0%nat -> exists s', step (Kid i) s = Next s'.
Proof.
  intros HI Hk Hst Hu Hse. destruct (inv_kid _ HI i k Hk) as (Hd & Hs & Hle). cbn. rewrite Hk. unfold child_step, is_dead, engaged in *.
  destruct (c_pc k) eqn:E; [|by eexists|by eexists|by eexists|done]. destruct (down k); [cbn in *; lia|by eexists].
Qed.

Lemma prefork_some_enabled s : Inv s -> exited s = false -> 0 < size s -> backlog s <> [] -> exists l s', internal l = true /\ step l s = Next s'.
Proof.
  intros HI Hx Hn Hb. pose proof (parent_inv s HI Hx) as Hp. pose proof (inv_pc _ HI) as Hpc.
  destruct (parent_step s) as [| |s'] eqn:E; [|done|by exists Parent, s'].
  unfold parent_step, pc_ok in *. destruct (p_pc s) as [|rset nsel|c rset nsel|i c rset nsel|c rset nsel|i rset nsel|i rset nsel|w] eqn:Epc.
  - unfold do_select in E. destruct (backlog s) as [|c q]; [done|]. cbn [nonempty] in E. rewrite andb_true_r in E. pose proof (trues_nonneg (readable <$> cptr s)).
    destruct (Z.ltb_spec 0 (navail s)) as [Ha|Ha]; [destruct (Z.eqb_spec (trues (readable <$> cptr s) + 1) 0); [lia|done]|].
    destruct (Z.eqb_spec (trues (readable <$> cptr s) + 0) 0) as [E0|]; [|done].
    assert (exists k, cptr s !! 0%nat = Some k) as [k Hk] by (apply lookup_lt_is_Some_2; unfold size in Hn; lia).
    destruct (cptr s) as [|k0 l] eqn:El; [done|]. injection Hk as ->.
    assert (child_status k = 1) as Hst.
    { rewrite (inv_avail _ HI), El in Ha. destruct (inv_kid _ HI 0%nat k) as (_ & Hk1 & Hk2); [by rewrite El|].
      rewrite (avail_count (k :: l)) in Ha; [|intros i x Hi; destruct (inv_kid _ HI i x) as (_ & -> & ?); [by rewrite El|lia]].
      rewrite filter_cons in Ha. case_decide; cbn [length] in Ha; lia. }
    assert (up k = 0%nat) as Hu.
    { cbn in E0. pose proof (trues_nonneg (readable <$> l)). unfold readable in E0 at 1. destruct (up k); [done|]. cbn in E0. unfold fmap in *. lia. }
    destruct (child_enabled s 0 k HI) as [s' Es]; [by rewrite El|done|done|by rewrite Epc|]. by exists (Kid 0), s'.
  - by destruct (backlog s).
  - exfalso. destruct Hpc as (Hna & _). unfold do_find in E. rewrite (inv_avail _ HI) in Hna. destruct (avail_find (cptr s)) as (i & k & Ef & Ek & _); [|done|by rewrite Ef, Ek in E].
    intros i k Hk. destruct (inv_kid _ HI i k Hk) as (_ & -> & ?). lia.
  - exfalso. destruct Hpc as (Hi & _). unfold do_send in E. destruct (lookup_lt_is_Some_2 _ _ Hi) as [k Hk]. rewrite Hk in E. cbn in E. by destruct (is_dead k).
  - done.
  - exfalso. destruct (_ <? _)%nat; [|done]. by destruct (rset !! i).
  - exfalso. destruct Hpc as (Hr & _ & Hlen & Ht). unfold do_read in E. pose proof (lookup_lt_Some _ _ _ Hr).
    destruct (lookup_lt_is_Some_2 (cptr s) i) as [k Hk]; [lia|]. rewrite Hk in E. cbn in E. pose proof (Ht i k (le_n _) Hr Hk). destruct (up k); [lia|done].
  - unfold exited in Hx. by rewrite Epc in Hx.
Qed.

Lemma step_size l s s' : step l s = Next s' -> size s' = size s.
Proof.
  unfold size. destruct l as [c|j| |i| |i n]; cbn [step].
  1,2: by intros [= <-].
  - unfold parent_step. destruct (p_pc s); unfold do_select, do_find, do_send, do_read, access; repeat case_match; intros [= <-]; cbn; by rewrite ?length_insert.
  - unfold child_step. repeat case_match; intros [= <-]; cbn; by rewrite ?length_insert.
  - case_match; [|done]. by intros [= <-].
  - unfold child_quits. repeat case_match; intros [= <-]; cbn; by rewrite ?length_insert.
Qed.
Lemma run_size ls s s' : run_sched step ls s = Next s' -> size s' = size s.
Proof.
  revert s. induction ls as [|l ls IH]; intros s; cbn; [by intros [= <-]|]. destruct (step l s) as [| |s1] eqn:E; try done. cbn.
  intros H. rewrite (IH s1 H). by eapply step_size.
Qed.
Lemma cost_nonneg s : Inv s -> 0 <= cost s.
Proof.
  intros HI. unfold cost, size. set (n := Z.of_nat (length (cptr s))). assert (0 <= n) by lia.
  assert (forall l, 0 <= k_costs n l) as Hk.
  { intros l. induction l as [|k l IH]; cbn; [lia|]. assert (0 <= k_cost n k); [|lia]. unfold k_cost, W. destruct (c_pc k); nia. }
  specialize (Hk (cptr s)). assert (0 <= p_cost n (p_pc s)); [|lia]. pose proof (inv_pc _ HI) as Hp. unfold pc_ok in Hp.
  destruct (p_pc s) as [| | | | |i rset nsel|i rset nsel|]; cbn; unfold W; try lia.
  - destruct Hp as (Hn & Hs & Hl & _). destruct (decide (i < length (cptr s))%nat); [lia|]. rewrite drop_ge in Hs by lia. cbn in Hs. lia.
  - destruct Hp as (Hr & _ & Hl & _). apply lookup_lt_Some in Hr. lia.
Qed.


(** ** A child that ends *)

(** One connection for the first of two children, and the statements until it serves it. *)
Definition first_served : list label := [Arrive 7; Parent; Parent; Parent; Parent; Parent; Kid 0].


Lemma prefork_never_overcommits_witness :
  match run_sched step (first_served ++ [Arrive 8]) (init 2) with
  | Blocked => True
  | Crash => False
  | Next s =>
      p_pc s = PExited CallFailed \/
      (exited s = false /\ navail s = Z.of_nat (length (filter (fun k => child_status k = 0) (cptr s))) /\
       Forall (fun k => (length (hand k) <= 1)%nat /\
         (child_status k = 0 -> c_pc k = CRead /\ down k = [] /\ up k = 0%nat)) (cptr s) /\
       accepted s ≡ₚ closed s ++ (cptr s ≫= hand) ++ phand (p_pc s))
  end.
Proof. refine (prefork_never_overcommits 2 (first_served ++ [Arrive 8]) _). by repeat constructor. Defined.

(** A child that ends in web_child takes the server with it: its error message goes
    to descriptor 2, which is the pipe to the parent, and the parent takes every
    byte of it for the report of a child that is ready.  After a message of 31
    bytes the parent of two children counts 32 available ones, and then ends. *)
Theorem prefork_child_message_counted :
  let reads n := mjoin (replicate n [Parent; Parent; Parent]) in
  (exists s, run_sched step (first_served ++ [Die 0 31] ++ reads 31%nat) (init 2) = Next s /\ navail s = 32 /\ length (cptr s) = 2%nat) /\
  (exists s, run_sched step (first_served ++ [Die 0 31] ++ reads 32%nat) (init 2) = Next s /\ p_pc s = PExited ChildDied).
Proof. split; (eexists; split; [by vm_compute|by vm_compute]). Qed.
End PreforkProofs.
