(* ===== verification/Ping.v ===== *)
(** * ping: echo requests and replies

    unpv13e/ping: main.c, readloop.c, sig_alrm.c, init_v6.c, send_v4.c,
    send_v6.c, proc_v4.c, proc_v6.c.  Packets are byte arrays: send_v4 fills the
    global sendbuf field by field and sends its first bytes, proc_v4 reads the
    fields of the IP and ICMP headers out of the 1500 byte receive buffer,
    which still holds what earlier packets left behind the end of this one.

    The structure layouts are those of the sources' system headers on an LP64
    host: an ICMP header of 8 bytes (type, code, checksum, id, sequence number),
    a struct timeval of two 8 byte integers, an IP header whose first byte holds
    the header length in its low four bits.  What proc prints is the value of
    type [line], the arguments of its printf calls; rtt is a C double, computed
    with the binary64 operations of the Standard Library. *)
From stdpp Require Import base list numbers strings gmap.
From S2P Require Import Prelude InetAddr Checksum Cnum Sys Error Wrap StreamIO SockAddr Connect.
Import Cksum.

Module Ping.
Definition ICMP_ECHOREPLY : Z := 0.
Definition ICMP_ECHO : Z := 8.
Definition ICMP6_ECHO_REQUEST : Z := 128.
Definition ICMP6_ECHO_REPLY : Z := 129.
Definition IPPROTO_ICMP : Z := 1.
Definition IPPROTO_ICMPV6 : Z := 58.
Definition IPPROTO_IPV6 : Z := 41.
Definition IPV6_HOPLIMIT : Z := 47.
Definition IPV6_RECVHOPLIMIT : Z := 37.
Definition ICMP6_FILTER : Z := 18.
Definition SOCK_RAW : Z := 3.
Definition SO_RCVBUF : Z := 0x1002.
Definition BUFSIZE : Z := 1500.

(** The globals of ping.h, and the static array of sock_ntop_host.  [v6] is
    which of proto_v4 and proto_v6 [pr] points to. *)
Record ping := State {
  sendbuf : list Z; datalen : Z; nsent : Z; pid : Z; sockfd : Z; verbose : Z;
  v6 : bool; sasend : sockaddr; sarecv : sockaddr; salen : Z; static : list Z }.

Definition sent (b : list Z) (p : ping) : ping :=
  State b (datalen p) (nsent p + 1) (pid p) (sockfd p) (verbose p) (v6 p) (sasend p) (sarecv p) (salen p) (static p).
Definition received (sa : sockaddr) (p : ping) : ping :=
  State (sendbuf p) (datalen p) (nsent p) (pid p) (sockfd p) (verbose p) (v6 p) (sasend p) sa (salen p) (static p).
Definition with_static (st : list Z) (p : ping) : ping :=
  State (sendbuf p) (datalen p) (nsent p) (pid p) (sockfd p) (verbose p) (v6 p) (sasend p) (sarecv p) (salen p) st.
Definition with_sockfd (fd : Z) (p : ping) : ping :=
  State (sendbuf p) (datalen p) (nsent p) (pid p) fd (verbose p) (v6 p) (sasend p) (sarecv p) (salen p) (static p).

(** ** send_v4.c and send_v6.c *)

(** The header without its checksum, the pattern and the time stamp. *)
Definition fill_request `{Platform} (type : Z) (p : ping) : prog (list Z) :=
  b0 ← mem (awrite (sendbuf p) 0 type);
  b1 ← mem (awrite b0 1 0);
  b2 ← mem (memcpy b1 4 (store16 (u16 (pid p))));
  b3 ← mem (memcpy b2 6 (store16 (u16 (nsent p))));
  b4 ← mem (memcpy b3 8 (replicate (Z.to_nat (datalen p)) 0xa5));
  tv ← Gettimeofday;
  mem (memcpy b4 8 (store_timeval tv)).

Definition send_v4 `{Platform} (p : ping) : prog ping :=
  b ← fill_request ICMP_ECHO p;
  let len := 8 + datalen p in
  b0 ← mem (memcpy b 2 (store16 0));
  cksum ← mem (in_cksum b0 len);
  b1 ← mem (memcpy b0 2 (store16 cksum));
  bs ← mem (asub b1 0 len);
  _ ← Sendto (sockfd p) bs 0 (sasend p) (salen p);
  Ret (sent b1 p).

Definition send_v6 `{Platform} (p : ping) : prog ping :=
  b ← fill_request ICMP6_ECHO_REQUEST p;
  let len := 8 + datalen p in
  bs ← mem (asub b 0 len);
  _ ← Sendto (sockfd p) bs 0 (sasend p) (salen p);
  Ret (sent b p).

(** ** proc_v4.c and proc_v6.c *)

(** What is printed: an echo reply, with the ttl or hop limit (-1 when the
    ancillary data is missing), or another message when verbose. *)
Inductive line :=
  | Reply (bytes : Z) (host : list Z) (seq hops : Z) (rtt : double)
  | Info (bytes : Z) (host : list Z) (type code : Z).

(** rtt = tvrecv->tv_sec * 1000.0 + tvrecv->tv_usec / 1000.0 *)
Definition rtt_ms (tv : timeval) : double :=
  d_add (d_mul (d_of_Z (tv_sec tv)) (d_of_Z 1000)) (d_div (d_of_Z (tv_usec tv)) (d_of_Z 1000)).

Definition host_text (p : ping) : prog (list Z * ping) :=
  a ← Sock_ntop_host (sarecv p) (salen p) (static p);
  Ret (cstring_at a 0, with_static a p).

Definition proc_v4 `{Platform} (ptr : list Z) (len : Z) (tvrecv : timeval) (p : ping)
  : prog (option line * ping) :=
  b0 ← mem (aread ptr 0);
  let hlen1 := Z.shiftl (Z.land b0 15) 2 in
  ip_p ← mem (aread ptr 9);
  if negb (ip_p =? IPPROTO_ICMP) then Ret (None, p)
  else
    let icmplen := len - hlen1 in
    if icmplen <? 8 then Ret (None, p)
    else
      icmp_type ← mem (aread ptr hlen1);
      if icmp_type =? ICMP_ECHOREPLY then
        icmp_id ← mem (aread16 ptr (hlen1 + 4));
        if negb (icmp_id =? pid p) then Ret (None, p)
        else if icmplen <? 16 then Ret (None, p)
        else
          tvsend ← mem (asub ptr (hlen1 + 8) 16);
          let tv := tv_sub tvrecv (load_timeval tvsend) in
          '(host, p1) ← host_text p;
          icmp_seq ← mem (aread16 ptr (hlen1 + 6));
          ip_ttl ← mem (aread ptr 8);
          Ret (Some (Reply icmplen host icmp_seq ip_ttl (rtt_ms tv)), p1)
      else if negb (verbose p =? 0) then
        '(host, p1) ← host_text p;
        icmp_code ← mem (aread ptr (hlen1 + 1));
        Ret (Some (Info icmplen host icmp_type icmp_code), p1)
      else Ret (None, p).

(** The loop over the control messages. *)
Fixpoint find_hlim (cmsgs : list cmsghdr) : Z :=
  match cmsgs with
  | [] => -1
  | c :: cs => if (cmsg_level c =? IPPROTO_IPV6) && (cmsg_type c =? IPV6_HOPLIMIT) then cmsg_data c else find_hlim cs
  end.

Definition proc_v6 `{Platform} (ptr : list Z) (len : Z) (msg : list cmsghdr) (tvrecv : timeval) (p : ping)
  : prog (option line * ping) :=
  if len <? 8 then Ret (None, p)
  else
    icmp6_type ← mem (aread ptr 0);
    if icmp6_type =? ICMP6_ECHO_REPLY then
      icmp6_id ← mem (aread16 ptr 4);
      if negb (icmp6_id =? pid p) then Ret (None, p)
      else if len <? 16 then Ret (None, p)
      else
        tvsend ← mem (asub ptr 8 16);
        let tv := tv_sub tvrecv (load_timeval tvsend) in
        '(host, p1) ← host_text p;
        icmp6_seq ← mem (aread16 ptr 6);
        Ret (Some (Reply len host icmp6_seq (find_hlim msg) (rtt_ms tv)), p1)
    else if negb (verbose p =? 0) then
      '(host, p1) ← host_text p;
      icmp6_code ← mem (aread ptr 1);
      Ret (Some (Info len host icmp6_type icmp6_code), p1)
    else Ret (None, p).

(** ** sig_alrm.c, init_v6.c and readloop.c *)
Definition sig_alrm `{Platform} (p : ping) : prog ping :=
  p1 ← (if v6 p then send_v6 p else send_v4 p);
  _ ← lib (Ealarm 1);
  Ret p1.

(** The ICMP6 filter is the set of the types it passes, as an integer. *)
Definition init_v6 (p : ping) : prog unit :=
  _ ← (if verbose p =? 0
       then call_ (Esetsockopt (sockfd p) IPPROTO_IPV6 ICMP6_FILTER (OInt (Z.shiftl 1 ICMP6_ECHO_REPLY)))
       else Ret tt);
  call_ (Esetsockopt (sockfd p) IPPROTO_IPV6 IPV6_RECVHOPLIMIT (OInt 1)).

(** One turn of the loop.  recvmsg is interrupted (EINTR) when SIGALRM was
    caught, that is, after [sig_alrm] has run. *)
Definition read_turn `{Platform} (recvbuf : list Z) (p : ping) : prog (list Z * ping * option line) :=
  r ← call (Erecvpkt (sockfd p) BUFSIZE 0);
  match r with
  | Err e =>
      if e =? EINTR then p1 ← sig_alrm p; Ret (recvbuf, p1, None)
      else err_sys (str "recvmsg error")
  | Ok (bs, (name, msg)) =>
      b ← mem (memcpy recvbuf 0 bs);
      let p0 := received name p in
      let n := Z.of_nat (length bs) in
      tval ← Gettimeofday;
      '(l, p1) ← (if v6 p0 then proc_v6 b n msg tval p0 else proc_v4 b n tval p0);
      Ret (b, p1, l)
  end.

(** The first [turns] turns of the loop, and the lines printed. *)
Fixpoint read_turns `{Platform} (turns : nat) (recvbuf : list Z) (p : ping) (out : list line)
  : prog (ping * list line) :=
  match turns with
  | O => Ret (p, out)
  | S t =>
      '(b, p1, l) ← read_turn recvbuf p;
      read_turns t b p1 (out ++ match l with Some x => [x] | None => [] end)
  end.

Definition readloop `{Platform} (turns : nat) (recvbuf : list Z) (p : ping) : prog (ping * list line) :=
  sockfd ← Socket (sa_family (sasend p)) SOCK_RAW (if v6 p then IPPROTO_ICMPV6 else IPPROTO_ICMP);
  uid ← lib Egetuid;
  _ ← call_ (Esetuid uid);
  let p0 := with_sockfd sockfd p in
  _ ← (if v6 p then init_v6 p0 else Ret tt);
  _ ← call_ (Esetsockopt sockfd SOL_SOCKET SO_RCVBUF (OInt (60 * 1024)));
  p1 ← sig_alrm p0;
  read_turns turns recvbuf p1 [].

(** IN6_IS_ADDR_V4MAPPED *)
Definition is_v4mapped (sa : sockaddr) : bool :=
  match sa with
  | SaIn6 s => bool_decide (take 12 (sin6_addr s) = [0; 0; 0; 0; 0; 0; 0; 0; 0; 0; 255; 255])
  | _ => false
  end.

(** main after the options: [verb] counts the -v; the handler of SIGALRM has
    the number [handler]. *)
Definition ping_main `{Platform} (handler : Z) (turns : nat) (recvbuf st : list Z) (verb : Z) (host : list Z)
  : prog (ping * list line) :=
  me ← lib Egetpid;
  let pid := Z.land me 0xffff in
  _ ← Signal SIGALRM handler;
  ai ← Host_serv (Some host) None 0 0;
  match ai with
  | [] => fault
  | a :: _ =>
      s ← Sock_ntop_host (ai_addr a) (ai_addrlen a) st;
      _ ← call_ (Efputs (str "PING " ++ default (cstring_at s 0) (ai_canonname a) ++ str " (" ++ cstring_at s 0 ++
                         str "): " ++ fmt_d 56 ++ str " data bytes" ++ [10]) stdout);
      is6 ← (if ai_family a =? AF_INET then Ret false
             else if ai_family a =? AF_INET6 then
               if is_v4mapped (ai_addr a) then err_quit (str "cannot ping IPv4-mapped IPv6 address") else Ret true
             else err_quit (str "unknown address family " ++ fmt_d (ai_family a)));
      _ ← Calloc 1 (ai_addrlen a);
      readloop turns recvbuf
        (State (replicate (Z.to_nat BUFSIZE) 0) 56 0 pid 0 verb is6 (ai_addr a) (SaOther 0 []) (ai_addrlen a) s)
  end.
End Ping.
