(* ===== verification/PingProofs.v ===== *)
(** * ping measures the round trip of its requests

    The request that send_v4 sends is a well-formed ICMP message, and the reply
    a host makes of it is recognised by proc_v4, with the sequence number and
    the time stamp that were sent.  proc_v4 accesses only its buffer, whatever
    the packet, but on an LP64 host it reads a time stamp that a short reply
    does not contain. *)
From stdpp Require Import base list numbers strings gmap.
From S2P Require Import Prelude InetAddr Checksum Cnum Sys Error Wrap StreamIO SockAddr Connect Bytes Ping.
Import Cksum Ping.

Module PingProofs.

(** ** The request *)

(** An ICMP message with the type, checksum, id, sequence number and data. *)
Definition icmp `{Platform} (type cksum id seq : Z) (data : list Z) : list Z :=
  [type; 0] ++ store16 cksum ++ store16 id ++ store16 seq ++ data.
(** The data of a request: the time stamp and the pattern. *)
Definition stamped `{Platform} (tv : timeval) (n : Z) : list Z :=
  store_timeval tv ++ replicate (Z.to_nat n - 16) 0xa5.

Lemma icmp_length `{Platform} t c i s d : length (icmp t c i s d) = (8 + length d)%nat.
Proof. unfold icmp. by rewrite !length_app, !store16_length. Qed.
Lemma stamped_length `{Platform} tv n : 16 <= n -> Z.of_nat (length (stamped tv n)) = n.
Proof. intros. unfold stamped. rewrite length_app, store_timeval_length, length_replicate. lia. Qed.
Lemma stamped_bytes `{Platform} tv n : Forall is_byte (stamped tv n).
Proof.
  apply Forall_app. split; [apply store_timeval_bytes|]. apply Forall_replicate. unfold is_byte. lia.
Qed.

Record sendable (p : ping) : Prop := {
  ok_buf : Z.of_nat (length (sendbuf p)) = BUFSIZE;
  ok_len : 16 <= datalen p <= BUFSIZE - 8;
  ok_even : Z.Even (datalen p);
  ok_pid : is_u16 (pid p) }.

(** The send buffer as header, data and the rest. *)
Lemma sendbuf_split p : sendable p -> exists a0 a1 a2 a3 a4 a5 a6 a7 d r,
  sendbuf p = [a0; a1; a2; a3; a4; a5; a6; a7] ++ d ++ r /\ Z.of_nat (length d) = datalen p.
Proof.
  intros [Hb Hl _ _]. unfold BUFSIZE in *.
  destruct (sendbuf p) as [|a0 [|a1 [|a2 [|a3 [|a4 [|a5 [|a6 [|a7 b]]]]]]]]; cbn [length] in Hb; try lia.
  eexists _, _, _, _, _, _, _, _, (take (Z.to_nat (datalen p)) b), (drop (Z.to_nat (datalen p)) b).
  cbn [app]. rewrite take_drop. split; [done|]. rewrite length_take. lia.
Qed.

Section Send.
Context {K : Type} `{HK : !Kernel K} `{HP : Platform}.

Lemma fill_request_run type p tv g (k k1 : K) :
  sendable p -> kcall Egettimeofday k = (Ok tv, k1) ->
  exists a2 a3 r, run (fill_request type p) g k =
    (Done ([type; 0; a2; a3] ++ store16 (u16 (pid p)) ++ store16 (u16 (nsent p)) ++ stamped tv (datalen p) ++ r), g, k1).
Proof.
  intros Hok Hk. destruct (sendbuf_split p Hok) as (a0 & a1 & a2 & a3 & a4 & a5 & a6 & a7 & d & r & Eb & Hd).
  pose proof (ok_len _ Hok) as Hl. exists a2, a3, r. unfold fill_request. rewrite Eb.
  set (i := store16 (u16 (pid p))). set (q := store16 (u16 (nsent p))).
  assert (length i = 2%nat /\ length q = 2%nat) as [Hi Hq] by (split; apply store16_length).
  set (pat := replicate (Z.to_nat (datalen p)) 0xa5).
  assert (awrite ([a0; a1; a2; a3; a4; a5; a6; a7] ++ d ++ r) 0 type = Some ([] ++ type :: [a1; a2; a3; a4; a5; a6; a7] ++ d ++ r)) as E0
    by (apply (awrite_app []); done).
  assert (awrite ([type] ++ a1 :: [a2; a3; a4; a5; a6; a7] ++ d ++ r) 1 0 = Some ([type] ++ 0 :: [a2; a3; a4; a5; a6; a7] ++ d ++ r)) as E1
    by (apply awrite_app; done).
  assert (memcpy ([type; 0; a2; a3] ++ [a4; a5] ++ [a6; a7] ++ d ++ r) 4 i = Some ([type; 0; a2; a3] ++ i ++ [a6; a7] ++ d ++ r)) as E2
    by (apply memcpy_app; done).
  assert (memcpy (([type; 0; a2; a3] ++ i) ++ [a6; a7] ++ d ++ r) 6 q = Some (([type; 0; a2; a3] ++ i) ++ q ++ d ++ r)) as E3
    by (apply memcpy_app; [rewrite length_app, Hi|]; done).
  assert (forall m m' x, length m' = length m -> memcpy ([type; 0; a2; a3] ++ i ++ q ++ m ++ x) 8 m' =
    Some ([type; 0; a2; a3] ++ i ++ q ++ m' ++ x)) as E4.
  { intros m m' x Hm.
    replace ([type; 0; a2; a3] ++ i ++ q ++ m ++ x) with (([type; 0; a2; a3] ++ i ++ q) ++ m ++ x) by (by rewrite <- !app_assoc).
    rewrite memcpy_app by (rewrite ?length_app, ?Hi, ?Hq; done). by rewrite <- !app_assoc. }
  assert (pat = replicate 16 0xa5 ++ replicate (Z.to_nat (datalen p) - 16) 0xa5) as Ep.
  { unfold pat. rewrite <- replicate_add. f_equal. lia. }
  etransitivity; [apply (run_mem_then _ _ _ _ _ E0)|].
  etransitivity; [apply (run_mem_then _ _ _ _ _ E1)|].
  etransitivity; [apply (run_mem_then _ _ _ _ _ E2)|].
  etransitivity; [apply (run_mem_then _ _ _ _ _ E3)|].
  etransitivity; [apply (run_mem_then _ _ _ _ _ (E4 d pat r ltac:(unfold pat; rewrite length_replicate; lia)))|].
  unfold Gettimeofday, checked. runs. rewrite Hk. cbn beta iota. rewrite run_ret, run_mem.
  rewrite Ep, <- (app_assoc (replicate 16 _)), E4 by apply store_timeval_length.
  unfold stamped. by rewrite <- !app_assoc.
Qed.

(** send_v4 sends an echo request with a correct checksum. *)
Lemma send_v4_run p tv g (k k1 : K) :
  sendable p -> kcall Egettimeofday k = (Ok tv, k1) ->
  exists c b, let bs := icmp ICMP_ECHO c (u16 (pid p)) (u16 (nsent p)) (stamped tv (datalen p)) in
    run (send_v4 p) g k = run (_ ← Sendto (sockfd p) bs 0 (sasend p) (salen p); Ret (sent b p)) g k1 /\
    in_cksum bs (Z.of_nat (length bs)) = Some 0.
Proof.
  intros Hok Hk. destruct (fill_request_run ICMP_ECHO p tv g k k1 Hok Hk) as (a2 & a3 & r & Ef).
  set (post := store16 (u16 (pid p)) ++ store16 (u16 (nsent p)) ++ stamped tv (datalen p)) in *.
  assert (Forall is_byte post) as Hpost.
  { unfold post. rewrite !Forall_app. auto using store16_bytes, stamped_bytes. }
  pose proof (ok_len _ Hok) as Hl. unfold BUFSIZE in Hl.
  assert (Z.of_nat (length post) = 4 + datalen p) as Hlen.
  { unfold post. rewrite !length_app, !store16_length, !Nat2Z.inj_add, stamped_length by lia. lia. }
  assert (Nat.Even (length ([8; 0] ++ [0; 0] ++ post))) as He.
  { destruct (ok_even _ Hok) as [m Hm]. exists (Z.to_nat (4 + m)). cbn [app length]. lia. }
  assert (Forall is_byte ([8; 0] ++ [0; 0] ++ post)) as Hb.
  { repeat (constructor; [unfold is_byte; lia|]). done. }
  assert (Z.of_nat (length ([8; 0] ++ [0; 0] ++ post)) = 8 + datalen p) as Hlen8 by (cbn [app length]; lia).
  destruct (in_cksum_residue _ Hb) as (res & Ec & _); [lia|]. set (c := 65535 - res) in *.
  exists c. eexists. cbv zeta. split.
  - unfold send_v4. rewrite run_bind, Ef. cbv beta iota zeta.
    assert (store16 0 = [0; 0]) as E0 by (unfold store16; by destruct big_endian).
    assert (memcpy ([8; 0] ++ [a2; a3] ++ (post ++ r)) 2 (store16 0) = Some ([8; 0] ++ [0; 0] ++ (post ++ r))) as E1
      by (rewrite E0; apply memcpy_app; done).
    assert (post ++ r = store16 (u16 (pid p)) ++ store16 (u16 (nsent p)) ++ stamped tv (datalen p) ++ r) as Epost
      by (unfold post; by rewrite <- !app_assoc).
    rewrite <- Epost. etransitivity; [apply (run_mem_then _ _ _ _ _ E1)|].
    assert (in_cksum (([8; 0] ++ [0; 0] ++ post) ++ r) (8 + datalen p) = Some c) as E2
      by (rewrite <- Hlen8, in_cksum_app; done || lia).
    etransitivity; [apply (run_mem_then _ _ _ _ _ E2)|].
    assert (memcpy ([8; 0] ++ [0; 0] ++ (post ++ r)) 2 (store16 c) = Some ([8; 0] ++ store16 c ++ (post ++ r))) as E3
      by (apply memcpy_app; [done|apply store16_length]).
    etransitivity; [apply (run_mem_then _ _ _ _ _ E3)|].
    assert (asub ([] ++ ([8; 0] ++ store16 c ++ post) ++ r) 0 (8 + datalen p) = Some ([8; 0] ++ store16 c ++ post)) as E4.
    { apply asub_app; [done|]. rewrite !length_app, store16_length. cbn [length]. lia. }
    rewrite <- !app_assoc in E4. etransitivity; [apply (run_mem_then _ _ _ _ _ E4)|]. done.
  - change (icmp ICMP_ECHO c (u16 (pid p)) (u16 (nsent p)) (stamped tv (datalen p))) with ([8; 0] ++ store16 c ++ post).
    apply in_cksum_complete; try done; [by repeat (constructor; [unfold is_byte; lia|])|by exists 1%nat|lia].
Qed.

(** ** The reply *)

(** An IP header of an ICMP packet: its length is four times the low bits of
    its first byte. *)
Record ip_header (h : list Z) (ttl : Z) : Prop := {
  ip_len : exists b, h !! 0%nat = Some b /\ Z.of_nat (length h) = Z.shiftl (Z.land b 15) 2;
  ip_min : 20 <= Z.of_nat (length h);
  ip_ttl : h !! 8%nat = Some ttl;
  ip_p : h !! 9%nat = Some IPPROTO_ICMP }.

Lemma host_text_run p a g (k : K) :
  sock_ntop_host (sarecv p) (salen p) (static p) = Some (CPtr a) ->
  run (host_text p) g k = (Done (cstring_at a 0, with_static a p), g, k).
Proof. intros E. unfold host_text, Sock_ntop_host. by rewrite run_bind, (run_mem_then _ _ _ _ _ E). Qed.

(** Where the fields of a message are. *)
Lemma icmp_fields (h : list Z) t c id seq d1 d2 tail :
  is_u16 id -> is_u16 seq ->
  let buf := h ++ icmp t c id seq (d1 ++ d2) ++ tail in let o := Z.of_nat (length h) in
  aread buf o = Some t /\ aread16 buf (o + 4) = Some id /\ aread16 buf (o + 6) = Some seq /\
  asub buf (o + 8) (Z.of_nat (length d1)) = Some d1.
Proof.
  intros Hid Hseq. cbv zeta. unfold icmp. rewrite <- !app_assoc.
  set (h4 := h ++ [t; 0] ++ store16 c).
  assert (Z.of_nat (length h4) = Z.of_nat (length h) + 4) as H4
    by (unfold h4; rewrite !length_app, store16_length; cbn; lia).
  assert (forall x, h ++ [t; 0] ++ store16 c ++ x = h4 ++ x) as Eh by (intros; unfold h4; by rewrite <- !app_assoc).
  split; [by apply (aread_app h)|]. rewrite Eh. split_and!.
  - by apply aread16_app.
  - rewrite (app_assoc h4). apply aread16_app; [done|]. rewrite length_app, store16_length. lia.
  - rewrite (app_assoc h4), (app_assoc (h4 ++ _)). apply asub_app; [|done]. rewrite !length_app, !store16_length. lia.
Qed.

Lemma proc_v4_reply h ttl c seq tv n tail tvrecv p a g (k : K) :
  ip_header h ttl -> is_u16 (pid p) -> is_u16 seq -> tv_int64 tv -> 16 <= n ->
  sock_ntop_host (sarecv p) (salen p) (static p) = Some (CPtr a) ->
  run (proc_v4 (h ++ icmp ICMP_ECHOREPLY c (pid p) seq (stamped tv n) ++ tail)
         (Z.of_nat (length h) + (8 + n)) tvrecv p) g k =
  (Done (Some (Reply (8 + n) (cstring_at a 0) seq ttl (rtt_ms (tv_sub tvrecv tv))), with_static a p), g, k).
Proof.
  intros [(b & Hb & Hlen) Hmin Httl Hp] Hpid Hseq Htv Hn Ea.
  destruct (icmp_fields h ICMP_ECHOREPLY c (pid p) seq (store_timeval tv)
    (replicate (Z.to_nat n - 16) 0xa5) tail Hpid Hseq) as (F1 & F2 & F3 & F4).
  rewrite store_timeval_length in F4. fold (stamped tv n) in F1, F2, F3, F4. unfold proc_v4.
  run_mem (aread_lookup h _ 0 b Hb). cbv beta zeta. rewrite <- Hlen.
  run_mem (aread_lookup h _ 9 _ Hp).
  change (IPPROTO_ICMP =? IPPROTO_ICMP) with true. cbv iota beta. cbn [negb].
  replace (Z.of_nat (length h) + (8 + n) - Z.of_nat (length h)) with (8 + n) by lia.
  destruct (Z.ltb_spec (8 + n) 8); [lia|].
  run_mem F1.
  change (ICMP_ECHOREPLY =? ICMP_ECHOREPLY) with true. cbv iota beta.
  run_mem F2. rewrite Z.eqb_refl. cbn [negb]. destruct (Z.ltb_spec (8 + n) 16); [lia|].
  run_mem F4. cbv zeta. rewrite load_store_timeval by done.
  rewrite run_bind, (host_text_run p a g k Ea). cbv beta iota.
  run_mem F3.
  run_mem (aread_lookup h _ 8 _ Httl). done.
Qed.

(** *** Any packet *)

(** What a printed reply tells about the packet in [buf]. *)
Definition faithful (buf : list Z) (len : Z) (p : ping) (l : line) : Prop :=
  exists b, aread buf 0 = Some b /\ let o := Z.shiftl (Z.land b 15) 2 in
  aread buf 9 = Some IPPROTO_ICMP /\
  match l with
  | Reply n _ seq ttl _ =>
      n = len - o /\ 16 <= n /\ aread buf o = Some ICMP_ECHOREPLY /\ aread16 buf (o + 4) = Some (pid p) /\
      aread16 buf (o + 6) = Some seq /\ aread buf 8 = Some ttl
  | Info n _ type code =>
      n = len - o /\ 8 <= n /\ type <> ICMP_ECHOREPLY /\ aread buf o = Some type /\
      aread buf (o + 1) = Some code /\ verbose p <> 0
  end.

Lemma hlen_range b : 0 <= Z.shiftl (Z.land b 15) 2 <= 60.
Proof.
  rewrite Z.shiftl_mul_pow2 by lia. change 15 with (Z.ones 4). rewrite Z.land_ones by lia.
  pose proof (Z.mod_pos_bound b (2 ^ 4)). lia.
Qed.

(** proc_v4 is memory safe on every packet: it never reads outside the
    receive buffer, returns, and changes nothing but the static array of
    sock_ntop_host; and what it prints is in the packet: a reply line only for
    an ICMP echo reply with this process's id and at least 8 bytes of data, with
    its length, sequence number and ttl, another line only for other ICMP
    messages and when verbose. *)
Theorem proc_v4_safe (buf : list Z) (len : Z) tvrecv p a g (k : K) :
  Z.of_nat (length buf) = BUFSIZE -> sock_ntop_host (sarecv p) (salen p) (static p) = Some (CPtr a) ->
  exists l p', run (proc_v4 buf len tvrecv p) g k = (Done (l, p'), g, k) /\ (p' = p \/ p' = with_static a p) /\
    match l with Some l => faithful buf len p l | None => True end.
Proof.
  intros Hbuf Ea. unfold BUFSIZE in Hbuf. unfold proc_v4.
  destruct (aread_in buf 0) as [b Eb]; [lia|]. rewrite (run_mem_then _ _ _ _ _ Eb). cbv zeta.
  pose proof (hlen_range b) as Ho. set (o := Z.shiftl (Z.land b 15) 2) in *.
  destruct (aread_in buf 9) as [pr Ep]; [lia|]. rewrite (run_mem_then _ _ _ _ _ Ep).
  destruct (Z.eqb_spec pr IPPROTO_ICMP) as [->|]; cbn [negb]; [|by eauto 10].
  destruct (Z.ltb_spec (len - o) 8); [by eauto 10|].
  destruct (aread_in buf o) as [ty Et]; [lia|]. rewrite (run_mem_then _ _ _ _ _ Et).
  destruct (Z.eqb_spec ty ICMP_ECHOREPLY) as [->|].
  - destruct (aread16_in buf (o + 4)) as [id Ei]; [lia|]. rewrite (run_mem_then _ _ _ _ _ Ei).
    destruct (Z.eqb_spec id (pid p)) as [->|]; cbn [negb]; [|by eauto 10].
    destruct (Z.ltb_spec (len - o) 16); [by eauto 10|].
    assert (asub buf (o + 8) 16 = Some (take 16 (drop (Z.to_nat (o + 8)) buf))) as Es by (unfold asub; zbool).
    rewrite (run_mem_then _ _ _ _ _ Es), run_bind, (host_text_run p a g k Ea). cbv beta iota.
    destruct (aread16_in buf (o + 6)) as [seq Eq]; [lia|]. rewrite (run_mem_then _ _ _ _ _ Eq).
    destruct (aread_in buf 8) as [ttl El]; [lia|]. rewrite (run_mem_then _ _ _ _ _ El).
    eexists _, _. split; [done|]. split; [by right|]. exists b. split_and!; done || lia.
  - destruct (Z.eqb_spec (verbose p) 0); cbn [negb]; [by eauto 10|].
    rewrite run_bind, (host_text_run p a g k Ea). cbv beta iota.
    destruct (aread_in buf (o + 1)) as [co Ec]; [lia|]. rewrite (run_mem_then _ _ _ _ _ Ec).
    eexists _, _. split; [done|]. split; [by right|]. exists b. split_and!; done || lia.
Qed.

(** C16. ping measures the round trip of its own requests.  send_v4 hands to
    sendto an echo request that carries the process id, the sequence number and
    the time of sending, and whose checksum verifies; and when the host answers
    it as RFC 792 asks (the type changed to echo reply, the checksum computed
    anew, everything else returned) proc_v4 prints a line with the data length,
    the same sequence number, the ttl of the reply and the time between sending
    and receiving. *)
Theorem ping_measures_reply p tv g (k k1 : K) :
  sendable p -> tv_int64 tv -> kcall Egettimeofday k = (Ok tv, k1) ->
  exists cksum b,
    let n := datalen p in let seq := u16 (nsent p) in
    let bs := icmp ICMP_ECHO cksum (u16 (pid p)) seq (stamped tv n) in
    run (send_v4 p) g k = run (_ ← Sendto (sockfd p) bs 0 (sasend p) (salen p); Ret (sent b p)) g k1 /\
    in_cksum bs (Z.of_nat (length bs)) = Some 0 /\
    forall h ttl c tail tvrecv p' a g' (k' : K),
      ip_header h ttl -> pid p' = pid p ->
      sock_ntop_host (sarecv p') (salen p') (static p') = Some (CPtr a) ->
      run (proc_v4 (h ++ icmp ICMP_ECHOREPLY c (u16 (pid p)) seq (stamped tv n) ++ tail)
             (Z.of_nat (length h + length bs)) tvrecv p') g' k' =
      (Done (Some (Reply (8 + n) (cstring_at a 0) seq ttl (rtt_ms (tv_sub tvrecv tv))), with_static a p'), g', k').
Proof.
  intros Hok Htv Hk. destruct (send_v4_run p tv g k k1 Hok Hk) as (c & b & E & Ec).
  pose proof (ok_len _ Hok) as Hn. exists c, b. split; [done|]. split; [done|].
  intros h ttl c' tail tvrecv p' a g' k' Hh Hpid Ea.
  rewrite u16_small, <- Hpid by apply ok_pid, Hok. pose proof (ok_pid _ Hok) as Hp. rewrite <- Hpid in Hp.
  replace (Z.of_nat (length h + _)) with (Z.of_nat (length h) + (8 + datalen p)).
  - apply proc_v4_reply; try done; [apply u16_range|lia].
  - rewrite icmp_length, !Nat2Z.inj_add, stamped_length by lia. lia.
Qed.
End Send.

(** ** Witnesses *)

Definition clock_kernel : Kernel unit := {|
  kcall X e :=
    match e in sysE X return unit -> res X * unit with
    | Egettimeofday => fun k => (Ok (Timeval 100 5), k)
    | _ => fun k => (Err ENOSYS, k)
    end;
  klib := @klib unit (failing_kernel ENOSYS) |}.

Definition ping0 : ping :=
  State (replicate 1500 0) 56 7 4711 3 0 false (SaIn (SockaddrIn 0 [10; 0; 0; 1])) (SaIn (SockaddrIn 0 [10; 0; 0; 1])) 16
    (replicate 128 0).
Definition ip20 : list Z := [69; 0; 0; 84; 0; 0; 0; 0; 64; 1; 0; 0; 10; 0; 0; 1; 10; 0; 0; 2].

Lemma ping0_sendable : sendable ping0.
Proof. split; [done|by unfold BUFSIZE; cbn; lia|by exists 28|done]. Qed.

Lemma ping_measures_reply_witness :
  exists cksum b,
    let bs := icmp (H := sparc64) ICMP_ECHO cksum 4711 7 (stamped (H := sparc64) (Timeval 100 5) 56) in
    run (Kernel0 := clock_kernel) (send_v4 (H := sparc64) ping0) globals0 tt =
      run (Kernel0 := clock_kernel)
        (_ ← Sendto 3 bs 0 (SaIn (SockaddrIn 0 [10; 0; 0; 1])) 16; Ret (sent b ping0)) globals0 tt /\
    in_cksum (H := sparc64) bs (Z.of_nat (length bs)) = Some 0.
Proof.
  refine (match ping_measures_reply (HK := clock_kernel) (HP := sparc64) ping0 (Timeval 100 5) globals0 tt tt _ _ _ with
          | ex_intro _ c (ex_intro _ b (conj E (conj Ec _))) => ex_intro _ c (ex_intro _ b (conj E Ec)) end);
    [apply ping0_sendable|by split; split|done].
Defined.

Lemma proc_v4_safe_witness :
  exists l p', run (Kernel0 := clock_kernel) (proc_v4 (H := sparc64) (replicate 1500 255) 1500 (Timeval 0 0) ping0) globals0 tt =
      (Done (l, p'), globals0, tt) /\
    (p' = ping0 \/ p' = with_static (str "10.0.0.1" ++ replicate 120 0) ping0) /\
    match l with Some l => faithful (HP := sparc64) (replicate 1500 255) 1500 ping0 l | None => True end.
Proof.
  refine (proc_v4_safe (HK := clock_kernel) (HP := sparc64) (replicate 1500 255) 1500 (Timeval 0 0) ping0
            (str "10.0.0.1" ++ replicate 120 0) globals0 tt _ _); [done|by vm_compute].
Defined.

(** An echo reply with 8 bytes of data, in a buffer whose other bytes are [x]. *)
Definition short_reply (x : Z) : list Z :=
  ip20 ++ icmp (H := sparc64) ICMP_ECHOREPLY 0 4711 7 [0; 0; 0; 0; 0; 0; 0; 100] ++ replicate 1464 x.

(** The time printed for a reply can come from outside the packet: proc_v4
    accepts an echo reply with 8 bytes of data, but a struct timeval has 16
    bytes on an LP64 host, and the last 8 are whatever an earlier packet left in
    the buffer.  Two buffers that hold the same packet print different times. *)
Theorem proc_v4_reads_stale {K} `{!Kernel K} g (k : K) :
  exists len buf1 buf2 l1 l2 p1 p2,
    take (Z.to_nat len) buf1 = take (Z.to_nat len) buf2 /\
    run (proc_v4 (H := sparc64) buf1 len (Timeval 101 0) ping0) g k = (Done (Some l1, p1), g, k) /\
    run (proc_v4 (H := sparc64) buf2 len (Timeval 101 0) ping0) g k = (Done (Some l2, p2), g, k) /\ l1 <> l2.
Proof.
  exists 36, (short_reply 0), (short_reply 1). eexists _, _, _, _.
  split; [by vm_compute|]. split; [by vm_compute|]. split; [by vm_compute|]. by vm_compute.
Qed.
End PingProofs.
