(* ===== verification/Rtt.v ===== *)
(** * Round trip times and reliable datagrams

    lib/rtt.c with lib/unprtt.h, the estimator of the round trip time, and
    rtt/dg_send_recv.c, which uses it to send a datagram, wait for the answer
    with the same sequence number, and retransmit on a timeout.

    The estimators are C floats, the expressions over them C doubles, rounded
    where the code assigns.  SIGALRM is seen at the recvmsg it interrupts, whose
    error EINTR stands for the jump of the handler: siglongjmp takes the
    function to its sigsetjmp, the timeout branch. *)
From Stdlib Require Import Floats.SpecFloat.
From stdpp Require Import base list numbers strings gmap.
From S2P Require Import Prelude InetAddr Checksum Cnum Sys Error Wrap StreamIO SockAddr Connect.
Import Cksum.

Module Rtt.

(** ** lib/unprtt.h *)
Definition RTT_RXTMIN : Z := 2.
Definition RTT_RXTMAX : Z := 60.
Definition RTT_MAXNREXMT : Z := 3.

Record rtt_info := Rtt_info {
  rtt_rtt : float; rtt_srtt : float; rtt_rttvar : float; rtt_rto : float; rtt_nrexmt : Z; rtt_base : Z }.

(** ** lib/rtt.c *)

(** The double constants 0.5 and 0.75. *)
Definition d_half : double := d_div (d_of_Z 1) (d_of_Z 2).
Definition d_threequarters : double := d_div (d_of_Z 3) (d_of_Z 4).

Definition RTT_RTOCALC (ptr : rtt_info) : double :=
  d_add (d_of_f (rtt_srtt ptr)) (d_mul (d_of_Z 4) (d_of_f (rtt_rttvar ptr))).

Definition rtt_minmax (rto : float) : float :=
  if SFltb rto (f_of_Z RTT_RXTMIN) then f_of_Z RTT_RXTMIN
  else if SFltb (f_of_Z RTT_RXTMAX) rto then f_of_Z RTT_RXTMAX
  else rto.

Definition set_rto (r : float) (ptr : rtt_info) : rtt_info :=
  Rtt_info (rtt_rtt ptr) (rtt_srtt ptr) (rtt_rttvar ptr) r (rtt_nrexmt ptr) (rtt_base ptr).

Definition rtt_init (ptr : rtt_info) : prog rtt_info :=
  tv ← Gettimeofday;
  let p := Rtt_info (f_of_Z 0) (f_of_Z 0) (f_of_d d_threequarters) (rtt_rto ptr) (rtt_nrexmt ptr) (u32 (tv_sec tv)) in
  Ret (set_rto (rtt_minmax (f_of_d (RTT_RTOCALC p))) p).

Definition rtt_ts (ptr : rtt_info) : prog Z :=
  tv ← Gettimeofday;
  Ret (u32 ((tv_sec tv - rtt_base ptr) * 1000 + Z.quot (tv_usec tv) 1000)).

Definition rtt_newpack (ptr : rtt_info) : rtt_info :=
  Rtt_info (rtt_rtt ptr) (rtt_srtt ptr) (rtt_rttvar ptr) (rtt_rto ptr) 0 (rtt_base ptr).

Definition rtt_start (ptr : rtt_info) : option Z := int_of_d (d_add (d_of_f (rtt_rto ptr)) d_half).

Definition rtt_stop (ptr : rtt_info) (ms : Z) : rtt_info :=
  let rtt := f_of_d (d_div (d_of_Z ms) (d_of_Z 1000)) in
  let delta := d_of_f (f_sub rtt (rtt_srtt ptr)) in
  let srtt := f_of_d (d_add (d_of_f (rtt_srtt ptr)) (d_div delta (d_of_Z 8))) in
  let delta := if SFltb delta (d_of_Z 0) then SFopp delta else delta in
  let rttvar := f_of_d (d_add (d_of_f (rtt_rttvar ptr)) (d_div (d_sub delta (d_of_f (rtt_rttvar ptr))) (d_of_Z 4))) in
  let p := Rtt_info rtt srtt rttvar (rtt_rto ptr) (rtt_nrexmt ptr) (rtt_base ptr) in
  set_rto (rtt_minmax (f_of_d (RTT_RTOCALC p))) p.

(** The return value and the structure. *)
Definition rtt_timeout (ptr : rtt_info) : Z * rtt_info :=
  let n := rtt_nrexmt ptr + 1 in
  let p := Rtt_info (rtt_rtt ptr) (rtt_srtt ptr) (rtt_rttvar ptr) (f_mul (rtt_rto ptr) (f_of_Z 2)) n (rtt_base ptr) in
  if RTT_MAXNREXMT <? n then (-1, p) else (0, p).

(** The values printed, if the flag is set. *)
Definition rtt_debug (rtt_d_flag : Z) (ptr : rtt_info) : option (float * float * float * float) :=
  if rtt_d_flag =? 0 then None else Some (rtt_rtt ptr, rtt_srtt ptr, rtt_rttvar ptr, rtt_rto ptr).

(** ** rtt/dg_send_recv.c *)
Definition sizeof_hdr : Z := 8.

(** The statics: rttinfo, rttinit, sendhdr.seq, sendhdr.ts and the bytes of
    recvhdr. *)
Record dg := Dg { rttinfo : rtt_info; rttinit : Z; send_seq : Z; send_ts : Z; recvhdr : list Z }.
Definition set_rttinfo (r : rtt_info) (d : dg) : dg := Dg r (rttinit d) (send_seq d) (send_ts d) (recvhdr d).

Definition sendhdr `{Platform} (d : dg) : list Z := store32 (send_seq d) ++ store32 (send_ts d).
Definition recv_seq `{Platform} (d : dg) : Z := load32 (take 4 (recvhdr d)).
Definition recv_ts `{Platform} (d : dg) : Z := load32 (drop 4 (recvhdr d)).

(** A uint32_t printed with %d. *)
Definition int32 (z : Z) : Z := if z <? 2 ^ 31 then z else z - 2 ^ 32.

(** What readv does with a datagram: the first 8 bytes go to recvhdr, the rest
    to inbuff. *)
Definition scatter (bs : list Z) (d : dg) (inbuff : list Z) : option (dg * list Z) :=
  h ← memcpy (recvhdr d) 0 (take (Z.to_nat sizeof_hdr) bs);
  b ← memcpy inbuff 0 (drop (Z.to_nat sizeof_hdr) bs);
  Some (Dg (rttinfo d) (rttinit d) (send_seq d) (send_ts d) h, b).

(** The do ... while loop: [None] when the alarm went off, else n. *)
Fixpoint recv_loop `{Platform} (fuel : nat) (fd : Z) (d : dg) (inbuff : list Z) : prog (option Z * dg * list Z) :=
  match fuel with
  | O => Halt Spin
  | S f =>
      r ← call (Erecvmsg fd (sizeof_hdr + Z.of_nat (length inbuff)) 0);
      match r with
      | Err e => if e =? EINTR then Ret (None, d, inbuff) else err_sys (str "recvmsg error")
      | Ok (bs, _) =>
          '(d1, b1) ← mem (scatter bs d inbuff);
          let n := Z.of_nat (length bs) in
          _ ← call_ (Efputs (str "recv " ++ pad_left 4 (fmt_d (int32 (recv_seq d1))) ++ [10]) stderr);
          if (n <? sizeof_hdr) || negb (recv_seq d1 =? send_seq d1) then recv_loop f fd d1 b1
          else Ret (Some n, d1, b1)
      end
  end.

(** From sendagain to the end, with [tries] turns at most.  The line of
    rtt_debug, four floats printed with %.3f, is left out. *)
Fixpoint sendagain `{Platform} (fuel tries : nat) (fd : Z) (outbuff inbuff : list Z) (dest : sockaddr) (d : dg)
  : prog (Z * dg * list Z) :=
  match tries with
  | O => Halt Spin
  | S t =>
      _ ← call_ (Efputs (str "send " ++ pad_left 4 (fmt_d (int32 (send_seq d))) ++ str ": ") stderr);
      ts ← rtt_ts (rttinfo d);
      let d1 := Dg (rttinfo d) (rttinit d) (send_seq d) ts (recvhdr d) in
      _ ← Sendmsg fd (Msghdr (Some dest) [sendhdr d1; outbuff] None) 0;
      secs ← mem (rtt_start (rttinfo d1));
      _ ← lib (Ealarm secs);
      '(r, d2, b) ← recv_loop fuel fd d1 inbuff;
      match r with
      | None =>
          let '(rc, info) := rtt_timeout (rttinfo d2) in
          if rc <? 0 then
            _ ← err_msg (str "dg_send_recv: no response from server, giving up");
            _ ← put_errno ETIMEDOUT;
            Ret (-1, Dg info 0 (send_seq d2) (send_ts d2) (recvhdr d2), b)
          else
            _ ← err_msg (str "dg_send_recv: timeout, retransmitting");
            sendagain fuel t fd outbuff b dest (set_rttinfo info d2)
      | Some n =>
          _ ← lib (Ealarm 0);
          now ← rtt_ts (rttinfo d2);
          Ret (n - sizeof_hdr, set_rttinfo (rtt_stop (rttinfo d2) (u32 (now - recv_ts d2))) d2, b)
      end
  end.

(** [handler] is the number of sig_alrm; the received datagram is in the last
    component. *)
Definition dg_send_recv `{Platform} (handler : Z) (fuel tries : nat) (fd : Z) (outbuff inbuff : list Z)
    (dest : sockaddr) (d : dg) : prog (Z * dg * list Z) :=
  d0 ← (if rttinit d =? 0 then
          info ← rtt_init (rttinfo d);
          Ret (Dg info 1 (send_seq d) (send_ts d) (recvhdr d))
        else Ret d);
  let d1 := Dg (rttinfo d0) (rttinit d0) (u32 (send_seq d0 + 1)) (send_ts d0) (recvhdr d0) in
  _ ← Signal SIGALRM handler;
  sendagain fuel tries fd outbuff inbuff dest (set_rttinfo (rtt_newpack (rttinfo d1)) d1).

Definition Dg_send_recv `{Platform} (handler : Z) (fuel tries : nat) (fd : Z) (outbuff inbuff : list Z)
    (dest : sockaddr) (d : dg) : prog (Z * dg * list Z) :=
  '(n, d1, b) ← dg_send_recv handler fuel tries fd outbuff inbuff dest d;
  if n <? 0 then err_quit (str "dg_send_recv error") else Ret (n, d1, b).
End Rtt.
