(* ===== verification/RttProofs.v ===== *)
(** * Reliable datagrams: at most four transmissions, and the right answer

    Over any system that counts the datagrams it delivers: dg_send_recv returns,
    it sends the request at most four times, and what it returns is the answer
    to this request.  The retransmission timeout is kept within its bounds when
    a response comes in, and is not when it is doubled. *)
From Stdlib Require Import Floats.SpecFloat.
From stdpp Require Import base list numbers strings gmap.
From S2P Require Import Prelude InetAddr Checksum Cnum Sys Error Wrap StreamIO StreamProofs SockAddr Connect Hoare Rtt.
Import Cksum Rtt.

Module RttProofs.

(** [arrivals] bounds the datagrams still to be delivered; [sends] is what was
    sent. *)
Class DgKernel (K : Type) `{!Kernel K} := {
  arrivals : K -> nat;
  sends : K -> list msghdr;
  seen (k : K) := (arrivals k, sends k);
  dg_quiet : quiet seen;
  dg_time : forall k, seen (kcall Egettimeofday k).2 = seen k;
  dg_sigaction : forall k n a, seen (kcall (Esigaction n a) k).2 = seen k;
  dg_sendmsg : forall k fd m fl n k', kcall (Esendmsg fd m fl) k = (Ok n, k') ->
    sends k' = sends k ++ [m] /\ arrivals k' = arrivals k;
  dg_recvmsg : forall k fd n fl, 0 <= n ->
    match kcall (Erecvmsg fd n fl) k with
    | (Ok (bs, _), k') => Z.of_nat (length bs) <= n /\ (arrivals k' < arrivals k)%nat /\ sends k' = sends k
    | (Err _, k') => (arrivals k' <= arrivals k)%nat /\ sends k' = sends k
    end }.

Section Dg.
Context {K : Type} `{HK : !Kernel K} `{HD : !DgKernel K} `{HP : Platform}.
Implicit Types (k : K) (g : globals).

(** A failed call ends the process with status 1. *)
Definition exits (h : halt) : Prop := h = Exit 1.

Lemma seen_call {X} (e : sysE X) k r k' : seen (kcall e k).2 = seen k -> kcall e k = (r, k') -> seen k' = seen k.
Proof. intros H E. by rewrite E in H. Qed.

Lemma wp_err_msg msg (Q : unit -> globals -> K -> Prop) g k :
  daemon_proc g = 0 -> (forall g' k', daemon_proc g' = 0 -> seen k' = seen k -> Q tt g' k') ->
  wp exits (err_msg msg) Q g k.
Proof.
  intros Hd HQ. rewrite wp_run. unfold err_msg. rewrite run_err_doit_plain.
  unfold err_emit. cbn [run]. rewrite Hd. cbn [negb Z.eqb]. rewrite <- (wp_run exits).
  wp_step. wp_step. wp_step. pose proof dg_quiet as [Q1 Q2 _].
  apply HQ; [by repeat case_match|].
  apply (seen_call _ _ _ _ (Q2 _ _)) in H. apply (seen_call _ _ _ _ (Q1 _ _)) in H0.
  apply (seen_call _ _ _ _ (Q2 _ _)) in H1. congruence.
Qed.

Lemma wp_rtt_ts info (Q : Z -> globals -> K -> Prop) g k :
  daemon_proc g = 0 -> (forall ts k', seen k' = seen k -> Q ts g k') -> wp exits (rtt_ts info) Q g k.
Proof.
  intros Hd HQ. unfold rtt_ts, Gettimeofday. wp_step. apply wp_checked; [done..|].
  intros tv k' E. wp_step. apply HQ. by apply (seen_call _ _ _ _ (dg_time k) E).
Qed.

Lemma wp_fputs s (Q : unit -> globals -> K -> Prop) g k :
  daemon_proc g = 0 -> (forall g' k', daemon_proc g' = 0 -> seen k' = seen k -> Q tt g' k') ->
  wp exits (call_ (Efputs s stderr)) Q g k.
Proof.
  intros Hd HQ. wp_step. apply HQ; [by case_match|]. by apply (seen_call _ _ _ _ (quiet_fputs _ dg_quiet s k)) in H.
Qed.

(** The statics that receiving does not touch. *)
Definition same_statics (d d' : dg) : Prop :=
  rttinfo d' = rttinfo d /\ rttinit d' = rttinit d /\ send_seq d' = send_seq d /\ send_ts d' = send_ts d /\
  length (recvhdr d') = length (recvhdr d).

Lemma scatter_run bs d b :
  length (recvhdr d) = 8%nat -> Z.of_nat (length bs) <= sizeof_hdr + Z.of_nat (length b) ->
  exists d' b', scatter bs d b = Some (d', b') /\ same_statics d d' /\ length b' = length b.
Proof.
  intros Hh Hl. unfold scatter, sizeof_hdr in *.
  destruct (memcpy (recvhdr d) 0 (take (Z.to_nat 8) bs)) as [h|] eqn:E1.
  2: { unfold memcpy in E1. rewrite length_take, Hh in E1. destruct (Z.leb_spec (0 + Z.of_nat (Z.to_nat 8 `min` length bs)) (Z.of_nat 8)); [done|lia]. }
  destruct (memcpy b 0 (drop (Z.to_nat 8) bs)) as [b'|] eqn:E2.
  2: { unfold memcpy in E2. rewrite length_drop in E2. destruct (Z.leb_spec (0 + Z.of_nat (length bs - Z.to_nat 8)) (Z.of_nat (length b))); [done|lia]. }
  apply memcpy_Some_length in E1, E2. eexists _, _. split; [done|]. split; [|done]. by split_and!.
Qed.

Lemma recv_loop_spec fuel fd d b g k :
  (arrivals k < fuel)%nat -> daemon_proc g = 0 -> length (recvhdr d) = 8%nat ->
  wp exits (recv_loop fuel fd d b)
    (fun '(r, d', b') g' k' => daemon_proc g' = 0 /\ sends k' = sends k /\ (arrivals k' <= arrivals k)%nat /\
       same_statics d d' /\ length b' = length b /\
       match r with
       | Some n => sizeof_hdr <= n <= sizeof_hdr + Z.of_nat (length b) /\ recv_seq d' = send_seq d'
       | None => True
       end) g k.
Proof.
  revert d b g k. induction fuel as [|f IH]; intros d b g k Hf Hd Hh; [lia|]. cbn [recv_loop].
  pose proof (dg_recvmsg k fd (sizeof_hdr + Z.of_nat (length b)) 0 ltac:(unfold sizeof_hdr; lia)) as HR.
  wp_step; rewrite H in HR.
  - destruct v as [bs c]. destruct HR as (Hlen & Ha & Hs).
    destruct (scatter_run bs d b Hh Hlen) as (d1 & b1 & E & Hst & Hb1). wp_step; [exact E|].
    apply wp_bind, wp_fputs; [done|]. intros g1 k1 Hd1 Hk1. injection Hk1 as Hk1 Hk2.
    destruct (Z.ltb_spec (Z.of_nat (length bs)) sizeof_hdr); cbn [orb];
      [|destruct (Z.eqb_spec (recv_seq d1) (send_seq d1)); cbn [negb]].
    2: { wp_step. split_and!; try done; try congruence; lia. }
    all: destruct Hst as (S1 & S2 & S3 & S4 & S5); eapply wp_mono;
      [apply IH; [lia|done|congruence]|]; intros [[r d2] b2] g2 k2 (? & ? & ? & (T1 & T2 & T3 & T4 & T5) & ? & Hr);
      split_and!; try congruence; try lia; [by split_and!; congruence|]; destruct r; [|done]; by rewrite <- Hb1.
  - destruct (Z.eqb_spec n EINTR); [|by apply wp_err_sys]. wp_step. destruct HR. by split_and!.
Qed.

(** The timeouts of [n] transmissions are values of int. *)
Fixpoint alarms_ok (n : nat) (info : rtt_info) : Prop :=
  match n with O => True | S n => is_Some (rtt_start info) /\ alarms_ok n (rtt_timeout info).2 end.

(** The datagram with sequence number [seq] and time stamp [ts]. *)
Definition request (dest : sockaddr) (seq : Z) (out : list Z) (ts : Z) : msghdr :=
  Msghdr (Some dest) [store32 seq ++ store32 ts; out] None.

(** What [tries] transmissions come to. *)
Definition answered (tries : nat) (dest : sockaddr) (out : list Z) (room : Z) (d : dg) k (r : Z) (d' : dg) g' k' : Prop :=
  exists tss, sends k' = sends k ++ (request dest (send_seq d) out <$> tss) /\
    (1 <= length tss <= tries)%nat /\ send_seq d' = send_seq d /\
    (r = -1 /\ length tss = tries /\ errno g' = ETIMEDOUT /\ rttinit d' = 0 \/
     0 <= r <= room /\ recv_seq d' = send_seq d /\ rttinit d' = rttinit d /\
       exists info ms, rttinfo d' = rtt_stop info ms).

Lemma sendagain_spec fuel tries fd out b dest d g k :
  (0 < tries)%nat -> rtt_nrexmt (rttinfo d) = 4 - Z.of_nat tries -> alarms_ok tries (rttinfo d) ->
  (arrivals k < fuel)%nat -> daemon_proc g = 0 -> length (recvhdr d) = 8%nat ->
  wp exits (sendagain fuel tries fd out b dest d)
    (fun '(r, d', b') g' k' => answered tries dest out (Z.of_nat (length b)) d k r d' g' k') g k.
Proof.
  revert b d g k. induction tries as [|t IH]; intros b d g k Ht Hn Hal Hf Hd Hh; [lia|]. cbn [sendagain].
  destruct Hal as [Hs Ha].
  apply wp_bind, wp_fputs; [done|]. intros g0 k0 Hd0 Hk0. apply wp_bind, wp_rtt_ts; [done|]. intros ts k1 Hk1.
  unfold Sendmsg, checked_count. wp_step; [|by apply wp_err_sys].
  destruct (_ =? _); [|by apply wp_err_sys]. wp_step.
  apply dg_sendmsg in H as [Hs1 Ha1]. rewrite Hk0 in Hk1. injection Hk1 as Hk1 Hk2.
  destruct Hs as [secs Es]. wp_step; [exact Es|].
  wp_step. pose proof (quiet_lib _ dg_quiet _ (Ealarm secs) k') as Hq. rewrite H in Hq. injection Hq as Hq1 Hq2.
  apply wp_bind. eapply wp_mono; [apply recv_loop_spec; [lia|done|done]|].
  intros [[r d2] b2] g2 k2 (Hd2 & Hs2 & Ha2 & (S1 & S2 & S3 & S4 & S5) & Hb2 & Hr). cbn in S1, S2, S3, S4, S5.
  assert (sends k2 = sends k ++ [request dest (send_seq d) out ts]) as Hsent by (rewrite Hs2, Hq2, Hs1, Hk2; done).
  destruct r as [n|].
  - wp_step. pose proof (quiet_lib _ dg_quiet _ (Ealarm 0) k2) as Hq. rewrite H0 in Hq. injection Hq as Hq3 Hq4.
    apply wp_bind, wp_rtt_ts; [done|]. intros now k4 Hk4. injection Hk4 as Hk4 Hk5. wp_step.
    exists [ts]. unfold sizeof_hdr in Hr. split_and!; [rewrite Hk5, Hq4, Hsent; done|cbn; lia..|done|]. right. destruct Hr as [Hr1 Hr2].
    unfold sizeof_hdr. split_and!; [lia..|by rewrite <- S3|done|]. by eexists _, _.
  - destruct (rtt_timeout (rttinfo d2)) as [rc info] eqn:Et. rewrite S1 in Et.
    unfold rtt_timeout in Et. rewrite Hn in Et. unfold RTT_MAXNREXMT in Et.
    destruct t as [|t].
    + change (3 <? 4 - Z.of_nat 1 + 1) with true in Et. injection Et as <- <-. change (-1 <? 0) with true. cbv iota.
      apply wp_bind, wp_err_msg; [done|]. intros g3 k3 Hd3 Hk3. injection Hk3 as Hk3 Hk4. wp_step. wp_step.
      exists [ts]. split_and!; [rewrite Hk4, Hsent; done|cbn; lia..|done|]. left. by split_and!.
    + destruct (Z.ltb_spec 3 (4 - Z.of_nat (S (S t)) + 1)); [lia|]. injection Et as <- <-. change (0 <? 0) with false. cbv iota.
      apply wp_bind, wp_err_msg; [done|]. intros g3 k3 Hd3 Hk3. injection Hk3 as Hk3 Hk4.
      eapply wp_mono; [apply IH; [lia|cbn; lia| |lia|done|cbn; congruence]|].
      * cbn [rttinfo set_rttinfo]. unfold rtt_timeout in Ha. rewrite Hn in Ha. unfold RTT_MAXNREXMT in Ha.
        destruct (Z.ltb_spec 3 (4 - Z.of_nat (S (S t)) + 1)); [lia|exact Ha].
      * intros [[r d'] b'] g' k5 (tss & E1 & E2 & E3 & E4). cbn in E1, E3, E4. rewrite S3 in *.
        exists (ts :: tss). cbn [fmap list_fmap length].
        split_and!; [rewrite E1, Hk4, Hsent, <- app_assoc; done|lia|lia|done|].
        destruct E4 as [(? & ? & ? & ?)|(? & ? & ? & ?)]; [left; split_and!; done || lia|right; split_and!; try done; congruence || lia].
Qed.

(** The first timeouts after rtt_init. *)
Definition start_of (rto : float) : option Z := int_of_d (d_add (d_of_f rto) d_half).
Definition twice (rto : float) : float := f_mul rto (f_of_Z 2).

Lemma alarms_step n info r : rtt_rto info = r -> is_Some (start_of r) ->
  (forall info', rtt_rto info' = twice r -> alarms_ok n info') -> alarms_ok (S n) info.
Proof.
  intros <- Hs Hn. split; [exact Hs|]. apply Hn. unfold rtt_timeout. by destruct (_ <? _).
Qed.

Lemma init_alarms info : rtt_rto info = f_of_Z 3 -> alarms_ok 4 info.
Proof.
  intros E. apply (alarms_step _ _ _ E); [by vm_compute; eexists|]. clear. intros info E.
  apply (alarms_step _ _ _ E); [by vm_compute; eexists|]. clear. intros info E.
  apply (alarms_step _ _ _ E); [by vm_compute; eexists|]. clear. intros info E.
  apply (alarms_step _ _ _ E); [by vm_compute; eexists|]. done.
Qed.

Lemma wp_Signal signo h (Q : Z -> globals -> K -> Prop) g k :
  daemon_proc g = 0 -> (forall r g' k', daemon_proc g' = 0 -> seen k' = seen k -> Q r g' k') ->
  wp exits (Signal signo h) Q g k.
Proof.
  intros Hd HQ. unfold Signal, signal. apply wp_bind. wp_step;
    apply (seen_call _ _ _ _ (dg_sigaction k signo _)) in H; wp_step; (case_match; [by apply wp_err_sys|wp_step; by apply HQ]).
Qed.

(** The outcomes of dg_send_recv for a request [out] and [room] bytes for the
    answer: the process ended, or the request was sent one to four times, with a
    time stamp each, and either timed out or was answered. *)
Definition delivered (dest : sockaddr) (out : list Z) (room : nat) (d : dg) k
    (x : outcome (Z * dg * list Z) * globals * K) : Prop :=
  match x with
  | (Halted h, _, _) => h = Exit 1
  | (Done (r, d', _), g', k') =>
      exists tss, let seq := u32 (send_seq d + 1) in
        sends k' = sends k ++ (request dest seq out <$> tss) /\ (1 <= length tss <= 4)%nat /\ send_seq d' = seq /\
        (r = -1 /\ length tss = 4%nat /\ errno g' = ETIMEDOUT /\ rttinit d' = 0 \/
         0 <= r <= Z.of_nat room /\ recv_seq d' = seq /\ rttinit d' = 1 /\
           exists info ms, rttinfo d' = rtt_stop info ms)
  end.

(** C15. dg_send_recv is reliable over datagrams that are lost, delayed or
    duplicated: whatever arrives and however often the alarm goes off, it
    returns (or a system call fails and the process ends); it sends the request
    at most four times, always with the same new sequence number; when it
    returns a length, the answer in the buffer carries that number and the
    estimators have been updated; and it gives up with ETIMEDOUT, forgetting
    the estimators, only after four transmissions without an answer. *)
Theorem dg_send_recv_reliable handler fuel fd out b dest d g k :
  (arrivals k < fuel)%nat -> daemon_proc g = 0 -> length (recvhdr d) = 8%nat ->
  (rttinit d = 0 \/ rttinit d = 1 /\ alarms_ok 4 (rtt_newpack (rttinfo d))) ->
  delivered dest out (length b) d k (run (dg_send_recv handler fuel 4 fd out b dest d) g k).
Proof.
  intros Hf Hd Hh Hi.
  assert (wp exits (dg_send_recv handler fuel 4 fd out b dest d)
    (fun '(r, d', b') g' k' => answered 4 dest out (Z.of_nat (length b))
       (Dg (rttinfo d) 1 (u32 (send_seq d + 1)) 0 []) k r d' g' k') g k) as W.
  { unfold dg_send_recv. apply wp_bind. eapply (wp_mono _ _ (fun d0 g' k' => daemon_proc g' = 0 /\ seen k' = seen k /\
      rttinit d0 = 1 /\ send_seq d0 = send_seq d /\ length (recvhdr d0) = 8%nat /\ alarms_ok 4 (rtt_newpack (rttinfo d0)))).
    - destruct (Z.eqb_spec (rttinit d) 0) as [|Hne]; [|destruct Hi as [|[]]; [done|]; wp_step; by split_and!].
      unfold rtt_init, Gettimeofday. apply wp_bind, wp_bind, wp_checked; [done..|]. intros tv k' E.
      apply wp_ret, wp_ret. cbn [rttinit send_seq recvhdr rttinfo].
      split_and!; [done|by apply (seen_call _ _ _ _ (dg_time k) E)|done|done|exact Hh|].
      apply init_alarms. by vm_compute.
    - intros d0 g0 k0 (Hd0 & Hk0 & Hi0 & Hs0 & Hh0 & Ha0). apply wp_bind, wp_Signal; [done|].
      intros r g1 k1 Hd1 Hk1. rewrite Hk0 in Hk1. injection Hk1 as Hk1 Hk2.
      eapply wp_mono; [apply sendagain_spec; [lia|done|exact Ha0|lia|done|done]|].
      intros [[r' d'] b'] g' k' (tss & E1 & E2 & E3 & E4). cbn in E1, E3, E4.
      rewrite Hk2, Hs0 in E1. rewrite Hs0 in E3, E4. rewrite Hi0 in E4. exists tss. cbn. split_and!; done || lia. }
  rewrite wp_run in W. unfold delivered. destruct (run _ g k) as [[[[[r d'] b']|h] g'] k']; exact W.
Qed.
End Dg.

(** ** The bounds of the timeout *)
Lemma SFcompare_antisym x y : SFcompare y x = option_map CompOpp (SFcompare x y).
Proof.
  destruct x as [sx|sx| |sx mx ex], y as [sy|sy| |sy my ey]; try done; try (by destruct sx); try (by destruct sy);
    try (by destruct sx, sy).
  cbn. f_equal. rewrite (Z.compare_antisym ex ey). pose proof (Pos.compare_antisym mx my) as E. unfold Pos.compare in E.
  destruct sx, sy; try done; destruct (ex ?= ey); cbn; rewrite ?E; try done; by destruct (Pos.compare_cont Eq mx my).
Qed.

Lemma not_lt_le x y : x <> S754_nan -> y <> S754_nan -> SFltb x y = false -> SFleb y x = true.
Proof.
  intros Hx Hy. unfold SFltb, SFleb. rewrite (SFcompare_antisym x y).
  assert (exists c, SFcompare x y = Some c) as [c ->]; [|by destruct c].
  destruct x, y; try done; by eexists.
Qed.

(** After every response the retransmission timeout is between RTT_RXTMIN
    and RTT_RXTMAX, 2 and 60 seconds, for every measured time and every value of
    the estimators for which smoothed time plus four deviations is a number. *)
Theorem rtt_stop_in_bounds (ptr : rtt_info) (ms : Z) :
  f_of_d (RTT_RTOCALC (rtt_stop ptr ms)) <> S754_nan ->
  SFleb (f_of_Z RTT_RXTMIN) (rtt_rto (rtt_stop ptr ms)) = true /\
  SFleb (rtt_rto (rtt_stop ptr ms)) (f_of_Z RTT_RXTMAX) = true.
Proof.
  intros Hn. change (rtt_rto (rtt_stop ptr ms)) with (rtt_minmax (f_of_d (RTT_RTOCALC (rtt_stop ptr ms)))).
  set (x := f_of_d _) in *. unfold rtt_minmax.
  destruct (SFltb x (f_of_Z RTT_RXTMIN)) eqn:E1; [by vm_compute|].
  destruct (SFltb (f_of_Z RTT_RXTMAX) x) eqn:E2; [by vm_compute|].
  split; apply not_lt_le; done.
Qed.

Definition fresh_info : rtt_info :=
  Rtt_info (f_of_Z 0) (f_of_Z 0) (f_of_d d_threequarters) (f_of_Z 3) 0 0.

Lemma rtt_stop_in_bounds_witness :
  SFleb (f_of_Z RTT_RXTMIN) (rtt_rto (rtt_stop fresh_info 1500)) = true /\
  SFleb (rtt_rto (rtt_stop fresh_info 1500)) (f_of_Z RTT_RXTMAX) = true.
Proof. refine (rtt_stop_in_bounds fresh_info 1500 _). by vm_compute. Defined.

(** RTT_RXTMAX is not the largest timeout used: rtt_timeout doubles the
    timeout without rtt_minmax, so after a response that took a minute the four
    transmissions of an unanswered request wait 60, 120, 240 and 480 seconds. *)
Theorem rtt_timeout_exceeds_max :
  let i0 := rtt_newpack (rtt_stop fresh_info 60000) in
  let i1 := (rtt_timeout i0).2 in let i2 := (rtt_timeout i1).2 in let i3 := (rtt_timeout i2).2 in
  (rtt_start i0, rtt_start i1, rtt_start i2, rtt_start i3) = (Some 60, Some 120, Some 240, Some 480) /\
  (rtt_timeout i0).1 = 0 /\ (rtt_timeout i1).1 = 0 /\ (rtt_timeout i2).1 = 0 /\ (rtt_timeout i3).1 = -1.
Proof. by vm_compute. Qed.

(** ** A system for the witness: a script of datagrams and alarms *)
Record script := Script { events : list (option (list Z)); log : list msghdr }.

#[export] Instance script_kernel : Kernel script := {|
  kcall X e :=
    match e in sysE X return script -> res X * script with
    | Egettimeofday => fun k => (Ok (Timeval 1000 0), k)
    | Esigaction _ a => fun k => (Ok a, k)
    | Esendmsg _ m _ => fun k => (Ok (iov_bytes (msg_iov m)), Script (events k) (log k ++ [m]))
    | Erecvmsg _ n _ => fun k =>
        match events k with
        | Some bs :: ev => (Ok (take (Z.to_nat n) bs, None), Script ev (log k))
        | None :: ev => (Err EINTR, Script ev (log k))
        | [] => (Err EINTR, k)
        end
    | _ => fun k => (Err ENOSYS, k)
    end;
  klib X e k := ((@klib unit (failing_kernel ENOSYS) _ e tt).1, k) |}.

#[export] Instance script_dg : DgKernel script.
Proof.
  refine {| arrivals k := length (events k); sends := log |}; try done.
  - by intros k fd m fl n k' [= _ <-].
  - intros k fd n fl Hn. cbn. destruct (events k) as [|[bs|] ev] eqn:E; cbn; rewrite ?E; cbn.
    + done.
    + rewrite length_take. split_and!; [lia|lia|done].
    + split; [lia|done].
Defined.

Definition dg0 : dg := Dg fresh_info 0 41 0 (replicate 8 0).
(** A stray answer to request 41, a timeout, and the answer to request 42. *)
Definition three_events : script :=
  Script [Some (store32 (H := sparc64) 41 ++ store32 (H := sparc64) 0 ++ [1]); None;
          Some (store32 (H := sparc64) 42 ++ store32 (H := sparc64) 0 ++ [104; 105])] [].

Lemma dg_send_recv_reliable_witness :
  delivered (HP := sparc64) (SaIn (SockaddrIn 7 [10; 0; 0; 1])) [63] 10 dg0 three_events
    (run (dg_send_recv (H := sparc64) 7 4 4 3 [63] (replicate 10 0) (SaIn (SockaddrIn 7 [10; 0; 0; 1])) dg0) globals0 three_events).
Proof.
  refine (dg_send_recv_reliable (HP := sparc64) 7 4 3 [63] (replicate 10 0) (SaIn (SockaddrIn 7 [10; 0; 0; 1])) dg0 globals0
            three_events _ _ _ _); [cbn; lia|done|done|by left].
Defined.

(** On that script the answer, two bytes long, comes with the second transmission. *)
Example dg_send_recv_example :
  match run (dg_send_recv (H := sparc64) 7 4 4 3 [63] (replicate 10 0) (SaIn (SockaddrIn 7 [10; 0; 0; 1])) dg0) globals0 three_events with
  | (Done (r, _, b), _, k) => r = 2 /\ take 2 b = [104; 105] /\ length (sends k) = 2%nat
  | _ => False
  end.
Proof. by vm_compute. Qed.
End RttProofs.
