(* ===== verification/Clients.v ===== *)
(** * Client loops and the request loop of the servers

    lib/str_cli.c (lines over a stream), lib/dg_cli.c and lib/dg_echo.c
    (datagrams), and server/web_child.c, which every server of unpv13e/server
    runs on a connection: read a line with a number, write back that many
    bytes. *)
From stdpp Require Import base list numbers strings gmap.
From S2P Require Import Prelude InetAddr Sys Error Wrap StreamIO.

Module Clients.

(** The arrays of a function, and the array holding the string that was read. *)
Definition fgets_into (buf s : list Z) : option (list Z) := memcpy buf 0 (s ++ [0]).

(** ** lib/str_cli.c *)

(** [fuel] bounds the lines, [rfuel] and [wfuel] the calls of Readline and Writen. *)
Fixpoint str_cli (fuel rfuel wfuel : nat) (fp sockfd : Z) (sendline recvline : list Z) : prog unit :=
  match fuel with
  | O => Halt Spin
  | S f =>
      r ← Fgets MAXLINE fp;
      match r with
      | None => Ret tt
      | Some s =>
          sl ← mem (fgets_into sendline s);
          _ ← Writen wfuel sockfd sl (Z.of_nat (length (cstring_at sl 0)));
          '(n, rl) ← Readline rfuel sockfd recvline MAXLINE;
          if n =? 0 then err_quit (str "str_cli: server terminated prematurely")
          else
            _ ← Fputs (cstring_at rl 0) stdout;
            str_cli f rfuel wfuel fp sockfd sl rl
      end
  end.

(** ** lib/dg_cli.c *)
Fixpoint dg_cli (fuel : nat) (fp sockfd : Z) (servaddr : sockaddr) (servlen : Z) (sendline recvline : list Z) : prog unit :=
  match fuel with
  | O => Halt Spin
  | S f =>
      r ← Fgets MAXLINE fp;
      match r with
      | None => Ret tt
      | Some s =>
          sl ← mem (fgets_into sendline s);
          _ ← Sendto sockfd (cstring_at sl 0) 0 servaddr servlen;
          '(bs, _) ← Recvfrom sockfd MAXLINE 0;
          rl ← mem (memcpy recvline 0 bs);
          rl1 ← mem (awrite rl (Z.of_nat (length bs)) 0);
          _ ← Fputs (cstring_at rl1 0) stdout;
          dg_cli f fp sockfd servaddr servlen sl rl1
      end
  end.

(** ** lib/dg_echo.c, for the first [turns] datagrams *)
Fixpoint dg_echo (turns : nat) (sockfd : Z) (mesg : list Z) : prog unit :=
  match turns with
  | O => Ret tt
  | S t =>
      '(bs, (cliaddr, len)) ← Recvfrom sockfd MAXLINE 0;
      m ← mem (memcpy mesg 0 bs);
      out ← mem (asub m 0 (Z.of_nat (length bs)));
      _ ← Sendto sockfd out 0 cliaddr len;
      dg_echo t sockfd m
  end.

(** ** server/web_child.c *)
Definition MAXN : Z := 16384.

(** A long assigned to an int. *)
Definition to_int (z : Z) : Z := let u := u32 z in if u <? 2 ^ 31 then u else u - 2 ^ 32.

(** [result] is the array of that name, which the function never fills. *)
Fixpoint web_child (fuel rfuel wfuel : nat) (sockfd : Z) (line result : list Z) : prog unit :=
  match fuel with
  | O => Halt Spin
  | S f =>
      '(nread, l) ← Readline rfuel sockfd line MAXLINE;
      if nread =? 0 then Ret tt
      else
        let ntowrite := to_int (atoi (cstring_at l 0)) in
        if (ntowrite <=? 0) || (MAXN <? ntowrite) then
          err_quit (str "client request for " ++ fmt_d ntowrite ++ str " bytes")
        else
          _ ← Writen wfuel sockfd result ntowrite;
          web_child f rfuel wfuel sockfd l result
  end.
End Clients.
