(* ===== verification/ClientsProofs.v ===== *)
(** * The client loops exchange what they should

    Over any stream that keeps the contract of StreamIO.v: web_child answers
    every request with the number of bytes asked for, and str_cli sends every
    line of its input and prints one line of the peer's answer for each. *)
From stdpp Require Import base list numbers strings gmap.
From S2P Require Import Prelude InetAddr InetV4 Sys Error Wrap StreamIO StreamProofs SockAddr Hoare Clients.
Import V4 Clients.

Module ClientsProofs.

(** A line: no newline nor NUL before its newline. *)
Definition plain (c : Z) : Prop := c <> 10 /\ c <> 0.
Definition is_line (l : list Z) : Prop := exists pre, l = pre ++ [10] /\ Forall plain pre.

Lemma line_is_line m l rest : is_line l -> (length l <= m)%nat -> line m (l ++ rest) = l.
Proof.
  intros (pre & -> & Hp). revert m. induction Hp as [|c pre [H1 H2] Hp IH]; intros [|m] Hl; cbn in *; try lia; try done.
  rewrite (proj2 (Z.eqb_neq c 10)) by done. f_equal. apply IH. lia.
Qed.
Lemma line_not_cut m l rest : is_line l -> (length l <= m)%nat -> line_cut m (l ++ rest) = false.
Proof.
  intros (pre & -> & Hp). revert m. induction Hp as [|c pre [H1 H2] Hp IH]; intros [|m] Hl; cbn in *; try lia; try done.
  rewrite (proj2 (Z.eqb_neq c 10)) by done. apply IH. lia.
Qed.

Lemma is_line_nonul l : is_line l -> Forall (fun c => c <> 0) l.
Proof.
  intros (pre & -> & Hp). apply Forall_app. split; [|by repeat constructor].
  eapply Forall_impl; [exact Hp|]. by intros c [].
Qed.

Section Stream.
Context {K : Type} `{HK : !Kernel K} `{HS : !StreamKernel K}.
Implicit Types (k : K) (g : globals).

(** Readline at a line, and at the end of the stream. *)
Lemma Readline_line fd fuel k g buf l rest :
  connected k fd -> reader_ok MAXLINE g -> (signals k < fuel)%nat -> Z.of_nat (length buf) = MAXLINE ->
  is_line l -> (length l < Z.to_nat MAXLINE)%nat -> stream g k fd = l ++ rest ->
  exists g' k' buf', run (Readline fuel fd buf MAXLINE) g k = (Done (Z.of_nat (length l), buf'), g', k') /\
    cstring_at buf' 0 = l /\ Z.of_nat (length buf') = MAXLINE /\ stream g' k' fd = rest /\ keeps MAXLINE fd g k g' k'.
Proof.
  intros Hc Hr Hf Hb Hl Hlen Es.
  destruct (readline_spec fd fuel k g buf MAXLINE) as (g' & k' & b & E & Ecp & Es' & HKp); [done..|by unfold MAXLINE in *; lia|].
  rewrite Es in E, Ecp, Es'. rewrite line_is_line in E, Ecp, Es' by (done || unfold MAXLINE in *; lia).
  rewrite line_not_cut in E by (done || unfold MAXLINE in *; lia).
  exists g', k', b. split; [|split_and!; try done].
  - unfold Readline. rewrite run_bind, E. cbv beta iota. destruct (Z.ltb_spec (Z.of_nat (length l) + 0) 0); [lia|].
    by rewrite Z.add_0_r.
  - rewrite memcpy_is_Some in Ecp by (rewrite ?length_app; cbn; unfold MAXLINE in *; lia). injection Ecp as <-.
    unfold cstring_at. change (Z.to_nat 0) with 0%nat. cbn [drop take app]. rewrite <- app_assoc. apply until_nul_app. by apply is_line_nonul.
  - by rewrite (memcpy_Some_length _ _ _ _ Ecp).
  - by rewrite Es', drop_app_length.
Qed.

Lemma Readline_end fd fuel k g buf :
  connected k fd -> reader_ok MAXLINE g -> (signals k < fuel)%nat -> Z.of_nat (length buf) = MAXLINE ->
  stream g k fd = [] ->
  exists g' k' buf', run (Readline fuel fd buf MAXLINE) g k = (Done (0, buf'), g', k') /\ keeps MAXLINE fd g k g' k'.
Proof.
  intros Hc Hr Hf Hb Es.
  destruct (readline_spec fd fuel k g buf MAXLINE) as (g' & k' & b & E & _ & _ & HKp); [done..|by unfold MAXLINE in *; lia|].
  rewrite Es in E. exists g', k', b. split; [|done]. unfold Readline. by rewrite run_bind, E.
Qed.

(** ** web_child *)

(** What a client sends to ask for [n] bytes. *)
Definition ask (n : Z) : list Z := fmt_d n ++ [10].

Lemma isdigit_plain c : isdigit c = true -> plain c.
Proof. unfold isdigit, plain. intros H. apply andb_prop in H as [H1 H2]. rewrite Z.leb_le in *. lia. Qed.
Lemma ask_is_line n : 0 <= n -> is_line (ask n).
Proof.
  intros Hn. exists (fmt_d n). split; [done|]. unfold fmt_d. destruct (Z.ltb_spec n 0); [lia|].
  pose proof (fmt_u_isdigit n Hn) as F. eapply Forall_impl; [exact F|]. intros c Hc. by apply isdigit_plain.
Qed.

Lemma atoi_digits_newline v s : Forall (fun c => isdigit c = true) s -> atoi_digits v (s ++ [10]) = atoi_digits v s.
Proof. intros H. revert v. induction H as [|c s Hc Hs IH]; intros v; cbn; [done|]. by rewrite Hc. Qed.

Lemma atoi_ask n : 0 <= n -> atoi (ask n) = n.
Proof.
  intros Hn. rewrite <- (atoi_fmt_d n) at 2. unfold ask, fmt_d. destruct (Z.ltb_spec n 0); [lia|].
  pose proof (fmt_u_isdigit n Hn) as F. destruct (fmt_u n) as [|c s]; [done|].
  pose proof (atoi_digits_newline 0 (c :: s) F) as E. cbn [app atoi] in *. rewrite E.
  inversion_clear F as [|?? Hc Hs]. unfold isdigit in Hc. apply andb_prop in Hc as [H1 H2]. rewrite Z.leb_le in *.
  unfold isspace. zbool.
Qed.

Lemma ask_length n : 0 <= n <= MAXN -> (1 <= length (ask n) <= 6)%nat.
Proof.
  intros Hn. unfold ask, MAXN in *. rewrite length_app. cbn [length].
  rewrite fmt_d_nonneg by lia. pose proof (fmt_u_u16 n) as [H _]; [unfold is_u16; lia|]. lia.
Qed.

Lemma to_int_small n : 0 <= n <= MAXN -> to_int n = n.
Proof. unfold MAXN. intros Hn. unfold to_int. rewrite u32_small by (unfold is_u32; lia). zbool. Qed.

(** web_child answers every request of a connection: for a client that asks,
    line by line, for n1, n2, ... bytes, each between 1 and 16384, and closes,
    it returns at the end of the stream, having written exactly n1 + n2 + ...
    bytes, the first ni of its array for each, whatever the short reads, short
    writes and interruptions. *)
Theorem web_child_answers fd rfuel wfuel fuel k g buf result (ns : list Z) :
  connected k fd -> reader_ok MAXLINE g -> daemon_proc g = 0 ->
  Z.of_nat (length buf) = MAXLINE -> Z.of_nat (length result) = MAXN ->
  Forall (fun n => 1 <= n <= MAXN) ns -> stream g k fd = mjoin (ask <$> ns) ->
  (length ns < fuel)%nat -> (signals k < rfuel)%nat -> (Z.to_nat MAXN + signals k <= wfuel)%nat ->
  exists g' k', run (web_child fuel rfuel wfuel fd buf result) g k = (Done tt, g', k') /\
    outbox k' fd = outbox k fd ++ mjoin ((fun n => take (Z.to_nat n) result) <$> ns).
Proof.
  revert fuel k g buf. induction ns as [|n ns IH]; intros [|fuel] k g buf Hc Hr Hd Hb Hres Hns Hs Hf Hrf Hwf;
    try (cbn in Hf; lia); cbn [web_child].
  - destruct (Readline_end fd rfuel k g buf Hc Hr Hrf Hb Hs) as (g' & k' & b & E & (_ & _ & Ho & _)).
    rewrite run_bind, E. exists g', k'. split; [done|]. by rewrite Ho, app_nil_r.
  - inversion_clear Hns as [|?? Hn Hns']. cbn [fmap list_fmap mjoin list_join] in Hs.
    destruct (Readline_line fd rfuel k g buf (ask n) (mjoin (ask <$> ns))) as (g1 & k1 & b & E & Eb & Hb1 & Es & HKp);
      try done; [by apply ask_is_line; lia|pose proof (ask_length n); unfold MAXLINE; lia|].
    destruct HKp as (Hc1 & Hr1 & Ho1 & Hsig1 & Hd1).
    rewrite run_bind, E. cbv beta iota zeta. rewrite Eb, atoi_ask, to_int_small by lia.
    pose proof (ask_length n). destruct (Z.eqb_spec (Z.of_nat (length (ask n))) 0); [lia|].
    destruct (Z.leb_spec n 0); [lia|]. destruct (Z.ltb_spec MAXN n); [lia|]. cbn [orb].
    destruct (Writen_spec fd wfuel k1 g1 result n) as (g2 & k2 & E2 & (Hc2 & Hi2 & Ho2 & Hsig2) & [e2 ->]); [done|lia|lia|].
    rewrite run_bind, E2. cbv beta iota.
    destruct (IH fuel k2 (set_errno e2 g1) b) as (g' & k' & E' & Ho'); [done|by destruct Hr1; split|exact (eq_trans Hd1 Hd)|done|done|done| |cbn in Hf; lia|lia|lia|].
    { rewrite <- Es. unfold stream. by rewrite Hi2. }
    exists g', k'. split; [done|]. cbn [fmap list_fmap mjoin list_join]. by rewrite Ho', Ho2, Ho1, app_assoc.
Qed.
End Stream.

(** ** str_cli

    Besides the stream, the client sees the lines of its input and what it has
    printed; reading and writing the socket touch neither. *)
Class CliKernel (K : Type) `{!Kernel K} `{!StreamKernel K} := {
  input : K -> list (list Z);
  shown : K -> list Z;
  screen (k : K) := (input k, shown k);
  same_stream (k k' : K) : Prop := forall fd, connected k fd ->
    connected k' fd /\ inbox k' fd = inbox k fd /\ outbox k' fd = outbox k fd /\ (signals k' <= signals k)%nat;
  cli_quiet : quiet screen;
  cli_read : forall k fd n, screen (kcall (Eread fd n) k).2 = screen k;
  cli_write : forall k fd bs, screen (kcall (Ewrite fd bs) k).2 = screen k;
  cli_fgets : forall k n fp, exists k', same_stream k k' /\ shown k' = shown k /\
    match input k with
    | s :: ls => kcall (Efgets n fp) k = (Ok (Some s), k') /\ input k' = ls
    | [] => kcall (Efgets n fp) k = (Ok None, k') /\ input k' = []
    end;
  cli_fputs : forall k s, exists k', kcall (Efputs s stdout) k = (Ok tt, k') /\ same_stream k k' /\
    input k' = input k /\ shown k' = shown k ++ s }.

Section Frame.
Context {K : Type} `{HK : !Kernel K} `{HS : !StreamKernel K} `{HC : !CliKernel K}.

(** A program that leaves the screen alone. *)
Definition frame {A} (p : prog A) : Prop := forall g (k : K), screen (run p g k).2 = screen k.

Lemma frame_ret {A} (a : A) : frame (Ret a).
Proof. done. Qed.
Lemma frame_halt {A} h : frame (Halt h : prog A).
Proof. done. Qed.
Lemma frame_mem {A} (o : option A) : frame (mem o).
Proof. intros g k. rewrite run_mem. by destruct o. Qed.
Lemma frame_bind {A B} (p : prog A) (f : A -> prog B) : frame p -> (forall a, frame (f a)) -> frame (p ≫= f).
Proof.
  intros Hp Hf g k. rewrite run_bind. specialize (Hp g k). destruct (run p g k) as [[[a|h] g'] k']; cbn in *; [|done].
  by rewrite Hf.
Qed.
Lemma frame_call {X} (e : sysE X) : (forall k : K, screen (kcall e k).2 = screen k) -> frame (call e).
Proof. intros H g k. rewrite run_call. specialize (H k). by destruct (kcall e k) as [[]]. Qed.
Lemma frame_get_errno : frame get_errno.
Proof. done. Qed.
Lemma frame_get {A} (f : globals -> prog A) : (forall g, frame (f g)) -> frame (Get f).
Proof. intros H g k. cbn. apply H. Qed.
Lemma frame_put {A} g0 (p : prog A) : frame p -> frame (Put g0 p).
Proof. intros H g k. cbn. apply H. Qed.
Lemma frame_err_sys {A} msg : frame (err_sys msg : prog A).
Proof.
  intros g k. unfold err_sys. rewrite run_bind, run_err_doit_errno.
  pose proof (quiet_lib _ cli_quiet _ (Estrerror (errno g)) k) as E. destruct (klib (Estrerror (errno g)) k) as [es k1].
  pose proof (run_err_emit_quiet screen LOG_ERR (err_line 1 msg es) g k1 cli_quiet) as E2.
  destruct (run (err_emit LOG_ERR (err_line 1 msg es)) g k1) as [[[[]|h] g'] k']; cbn in *; congruence.
Qed.

(** The rule of the head of the program. *)
Ltac frames := repeat lazymatch goal with
  | |- frame (Ret _) => apply frame_ret
  | |- frame (Halt _) => apply frame_halt
  | |- frame (mem _) => apply frame_mem
  | |- frame get_errno => apply frame_get_errno
  | |- frame (err_sys _) => apply frame_err_sys
  | |- frame (call _) => apply frame_call; intros; first [apply cli_read | apply cli_write]
  | |- frame (_ ≫= _) => apply frame_bind; [|intros ?]
  | |- frame (Get _) => apply frame_get; intros ?
  | |- frame (Put _ _) => apply frame_put
  | |- frame (match ?x with _ => _ end) => destruct x
  end; auto.

Lemma frame_writen fuel fd v ptr nleft n : frame (writen_loop fuel fd v ptr nleft n).
Proof.
  revert ptr nleft. induction fuel as [|f IH]; intros ptr nleft; cbn [writen_loop]; frames.
Qed.
Lemma frame_Writen fuel fd v n : frame (Writen fuel fd v n).
Proof. unfold Writen, writen. apply frame_bind; [apply frame_writen|]. intros. frames. Qed.
Lemma frame_my_read size fuel fd : frame (my_read size fuel fd).
Proof.
  assert (frame (my_read_again size fuel fd)) by (induction fuel as [|f IH]; cbn [my_read_again]; frames).
  unfold my_read, my_read_take. frames.
Qed.
Lemma frame_Readline fuel fd buf maxlen : frame (Readline fuel fd buf maxlen).
Proof.
  assert (forall m buf ptr n, frame (readline_loop fuel m fd buf ptr n)) as H.
  { induction m as [|m IH]; intros b ptr n; cbn [readline_loop]; frames; apply frame_my_read. }
  unfold Readline, readline. apply frame_bind; [apply H|]. intros. frames.
Qed.

(** A line of input in the send buffer. *)
Lemma fgets_line buf l : is_line l -> (length l < Z.to_nat MAXLINE)%nat -> Z.of_nat (length buf) = MAXLINE ->
  exists b, fgets_into buf l = Some b /\ cstring_at b 0 = l /\ Z.of_nat (length b) = MAXLINE /\ take (length l) b = l.
Proof.
  intros Hl Hlen Hb. unfold fgets_into. eexists. split; [apply memcpy_is_Some; [done|rewrite length_app; cbn; lia]|].
  change (Z.to_nat 0) with 0%nat. rewrite take_0, app_nil_l, <- app_assoc. split_and!.
  - unfold cstring_at. change (Z.to_nat 0) with 0%nat. apply until_nul_app. by apply is_line_nonul.
  - rewrite !length_app, length_drop. cbn [length]. lia.
  - apply take_app_length.
Qed.

Definition short_line (l : list Z) : Prop := is_line l /\ (length l < Z.to_nat MAXLINE)%nat.

(** One line of the input and one of the stream. *)
Lemma str_cli_turn fp fd rfuel wfuel fuel (k : K) g sl rl s ls r rest :
  connected k fd -> reader_ok MAXLINE g -> daemon_proc g = 0 ->
  Z.of_nat (length sl) = MAXLINE -> Z.of_nat (length rl) = MAXLINE ->
  short_line s -> short_line r -> input k = s :: ls -> stream g k fd = r ++ rest ->
  (signals k < rfuel)%nat -> (Z.to_nat MAXLINE + signals k <= wfuel)%nat ->
  exists g' k' sl' rl',
    run (str_cli (S fuel) rfuel wfuel fp fd sl rl) g k = run (str_cli fuel rfuel wfuel fp fd sl' rl') g' k' /\
    Z.of_nat (length sl') = MAXLINE /\ Z.of_nat (length rl') = MAXLINE /\
    connected k' fd /\ reader_ok MAXLINE g' /\ daemon_proc g' = 0 /\ (signals k' <= signals k)%nat /\
    outbox k' fd = outbox k fd ++ s /\ shown k' = shown k ++ r /\ stream g' k' fd = rest /\ input k' = ls.
Proof.
  intros Hc Hr Hd Hsl Hrl [Hl Hll] [Hr1 Hr2] Ein Hs Hrf Hwf. cbn [str_cli].
  destruct (cli_fgets k MAXLINE fp) as (k1 & Hst & Hsh & Hfg); destruct (Hst fd Hc) as (Hc1 & Hi1 & Ho1 & Hsig1).
  rewrite Ein in Hfg. destruct Hfg as [E Hin1].
  unfold Fgets, checked. rewrite !run_bind, run_call, E. cbv beta iota. rewrite run_ret. cbv beta iota.
  destruct (fgets_line sl s Hl Hll Hsl) as (b & Eb & Ecb & Hbl & Htk). rewrite run_bind, run_mem, Eb. cbv beta iota.
  rewrite Ecb. pose proof (frame_Writen wfuel fd b (Z.of_nat (length s)) g k1) as F1.
  destruct (Writen_spec fd wfuel k1 g b (Z.of_nat (length s))) as (g2 & k2 & E2 & (Hc2 & Hi2 & Ho2 & Hsig2) & [e2 ->]); [done|lia|lia|].
  rewrite E2 in F1. rewrite run_bind, E2. cbv beta iota. injection F1 as F1 F1'. rewrite Nat2Z.id, Htk in Ho2.
  assert (stream (set_errno e2 g) k2 fd = r ++ rest) as Hs2 by (unfold stream in Hs |- *; by rewrite Hi2, Hi1).
  pose proof (frame_Readline rfuel fd rl MAXLINE (set_errno e2 g) k2) as F2.
  destruct (Readline_line fd rfuel k2 (set_errno e2 g) rl r rest) as (g3 & k3 & b3 & E3 & Eb3 & Hb3 & Es3 & HKp);
    [done|by destruct Hr; split|lia|done|done|done|done|].
  destruct HKp as (Hc3 & Hr3 & Ho3 & Hsig3 & Hd3). rewrite E3 in F2. rewrite run_bind, E3. cbv beta iota. injection F2 as F2 F2'.
  destruct (Z.eqb_spec (Z.of_nat (length r)) 0) as [Hz|_]; [destruct Hr1 as (pre & -> & _); rewrite length_app in Hz; cbn in Hz; lia|].
  rewrite Eb3. unfold Fputs, checked_. destruct (cli_fputs k3 r) as (k4 & E4 & Hst4 & Hin4 & Hsh4).
  destruct (Hst4 fd Hc3) as (Hc4 & Hi4 & Ho4 & Hsig4). rewrite !run_bind, run_call, E4. cbv beta iota. rewrite run_ret. cbv beta iota.
  exists g3, k4, b, b3. split; [done|].
  split_and!; [done|done|done|done|exact (eq_trans Hd3 Hd)|lia|by rewrite Ho4, Ho3, Ho2, Ho1|by rewrite Hsh4, F2', F1', Hsh| |].
  - unfold stream in Es3 |- *. by rewrite Hi4.
  - congruence.
Qed.

(** str_cli exchanges lines: for an input of lines and a peer whose stream
    holds a line for each, it returns at the end of the input, having sent
    exactly the input and printed exactly as many lines of the stream, and it
    leaves the rest of the stream unread. *)
Theorem str_cli_exchanges fp fd rfuel wfuel fuel (k : K) g sendline recvline (rs : list (list Z)) rest :
  connected k fd -> reader_ok MAXLINE g -> daemon_proc g = 0 ->
  Z.of_nat (length sendline) = MAXLINE -> Z.of_nat (length recvline) = MAXLINE ->
  Forall short_line (input k) -> Forall short_line rs ->
  length rs = length (input k) -> stream g k fd = mjoin rs ++ rest ->
  (length rs < fuel)%nat -> (signals k < rfuel)%nat -> (Z.to_nat MAXLINE + signals k <= wfuel)%nat ->
  exists g' k', run (str_cli fuel rfuel wfuel fp fd sendline recvline) g k = (Done tt, g', k') /\
    outbox k' fd = outbox k fd ++ mjoin (input k) /\ shown k' = shown k ++ mjoin rs /\
    stream g' k' fd = rest /\ input k' = [].
Proof.
  revert fuel k g sendline recvline. induction rs as [|r rs IH];
    intros [|fuel] k g sl rl Hc Hr Hd Hsl Hrl Hin Hrs Hlen Hs Hf Hrf Hwf; try (cbn in Hf; lia);
    destruct (input k) as [|s ls] eqn:Ein; try done.
  - destruct (cli_fgets k MAXLINE fp) as (k1 & Hst & Hsh & Hfg). rewrite Ein in Hfg. destruct Hfg as [E Hin1].
    destruct (Hst fd Hc) as (Hc1 & Hi1 & Ho1 & Hsig1). cbn [str_cli]. unfold Fgets, checked. runs. rewrite E.
    exists g, k1. split; [done|]. cbn [mjoin list_join]. rewrite !app_nil_r. split_and!; try done. unfold stream. by rewrite Hi1.
  - inversion_clear Hin as [|?? Hl Hin']. inversion_clear Hrs as [|?? Hr1 Hrs'].
    cbn [mjoin list_join] in Hs. rewrite <- app_assoc in Hs.
    destruct (str_cli_turn fp fd rfuel wfuel fuel k g sl rl s ls r (mjoin rs ++ rest))
      as (g1 & k1 & sl1 & rl1 & E & A1 & A2 & A3 & A4 & A5 & A6 & A7 & A8 & A9 & A10); try done.
    rewrite <- A10 in Hin'.
    destruct (IH fuel k1 g1 sl1 rl1) as (g' & k' & E' & O' & S' & T' & I'); try done; [cbn in *; congruence|cbn in *; lia..|].
    exists g', k'. rewrite E, E', O', S', A7, A8, A10. cbn [mjoin list_join]. by rewrite <- !app_assoc.
Qed.
End Frame.
(** Three requests, delivered in pieces. *)
Definition sim_web : sim := Sim [ask 2 ++ [51]; []; [10; 49]; [10]] [1; 0]%nat [].

Definition bytes16k : list Z := replicate (Z.to_nat 16384) 7.

Lemma web_child_answers_witness :
  exists g' k', run (web_child 4 3 (Z.to_nat 16390) 3 (replicate 4096 0) bytes16k) globals0 sim_web = (Done tt, g', k') /\
    outbox k' 3 = outbox sim_web 3 ++ mjoin ((fun n => take (Z.to_nat n) bytes16k) <$> [2; 3; 1]).
Proof.
  refine (web_child_answers 3 3 (Z.to_nat 16390) 4 sim_web globals0 (replicate 4096 0) bytes16k [2; 3; 1] _ _ _ _ _ _ _ _ _ _).
  1, 3, 4: done.
  - apply globals0_reader_ok.
  - unfold bytes16k. rewrite length_replicate. done.
  - repeat constructor; done.
  - by vm_compute.
  - cbn. lia.
  - by vm_compute; lia.
  - change (signals sim_web) with 2%nat. unfold MAXN. lia.
Defined.

(** A terminal: the simulated socket, the lines typed and the text printed. *)
Record term := Term { t_sim : sim; t_in : list (list Z); t_out : list Z }.
Definition on_sim {X} (f : sim -> res X * sim) (k : term) : res X * term :=
  let '(r, s) := f (t_sim k) in (r, Term s (t_in k) (t_out k)).

#[export] Instance term_kernel : Kernel term := {|
  kcall X e :=
    match e in sysE X return term -> res X * term with
    | Eread _ n => on_sim (sim_read n)
    | Ewrite _ bs => on_sim (sim_write bs)
    | Efgets _ _ => fun k =>
        match t_in k with
        | s :: ls => (Ok (Some s), Term (t_sim k) ls (t_out k))
        | [] => (Ok None, k)
        end
    | Efputs s fp => fun k => (Ok tt, if fp =? stdout then Term (t_sim k) (t_in k) (t_out k ++ s) else k)
    | _ => fun k => (Err ENOSYS, k)
    end;
  klib X e k := ((@klib unit (failing_kernel ENOSYS) X e tt).1, k) |}.

#[export] Instance term_stream : StreamKernel term.
Proof.
  refine {| connected _ _ := True; inbox k := inbox (t_sim k); outbox k := outbox (t_sim k);
            signals k := signals (t_sim k) |}.
  - intros k fd n _ Hn. pose proof (read_contract (t_sim k) fd n I Hn) as H. cbn [kcall term_kernel sim_kernel] in *.
    unfold on_sim. destruct (sim_read n (t_sim k)) as [[bs|e] s]; exact H.
  - intros k fd bs _ Hb. pose proof (write_contract (t_sim k) fd bs I Hb) as H. cbn [kcall term_kernel sim_kernel] in *.
    unfold on_sim. destruct (sim_write bs (t_sim k)) as [[n|e] s]; exact H.
Defined.

#[export] Instance term_cli : CliKernel term.
Proof.
  refine {| input := t_in; shown := t_out |}; try done.
  - intros k fd n. cbn. unfold on_sim. by destruct (sim_read n (t_sim k)).
  - intros k fd bs. cbn. unfold on_sim. by destruct (sim_write bs (t_sim k)).
  - intros k n fp. cbn. destruct (t_in k) as [|s ls] eqn:E; eexists; (split; [|split; [|split; [reflexivity|]]]); done.
  - intros k s. eexists. split; [reflexivity|]. done.
Defined.

Definition term0 : term := Term (Sim [[72; 105]; []; [10; 79]; [75; 10; 33]] [1]%nat []) [str "a" ++ [10]; str "bc" ++ [10]] [].

Lemma str_cli_exchanges_witness :
  exists g' k', run (str_cli 3 2 5000 stdin 3 (replicate 4096 0) (replicate 4096 0)) globals0 term0 = (Done tt, g', k') /\
    outbox k' 3 = outbox term0 3 ++ mjoin (input term0) /\ shown k' = shown term0 ++ mjoin [str "Hi" ++ [10]; str "OK" ++ [10]] /\
    stream g' k' 3 = [33] /\ input k' = [].
Proof.
  assert (forall l, Forall plain l -> (length l < 4095)%nat -> short_line (l ++ [10])) as Hl.
  { intros l Hp Hlen. split; [by exists l|]. rewrite length_app. unfold MAXLINE. cbn [length]. lia. }
  refine (str_cli_exchanges stdin 3 2 5000 3 term0 globals0 (replicate 4096 0) (replicate 4096 0)
            [str "Hi" ++ [10]; str "OK" ++ [10]] [33] _ _ _ _ _ _ _ _ _ _ _ _).
  1, 3, 4, 5: done.
  - apply globals0_reader_ok.
  - change (input term0) with [str "a" ++ [10]; str "bc" ++ [10]].
    repeat (apply Forall_cons; split); [..|constructor]; (apply Hl; [repeat constructor; done|cbn; lia]).
  - repeat (apply Forall_cons; split); [..|constructor]; (apply Hl; [repeat constructor; done|cbn; lia]).
  - done.
  - by vm_compute.
  - cbn; lia.
  - by vm_compute; lia.
  - change (signals term0) with 1%nat. unfold MAXLINE. lia.
Defined.
End ClientsProofs.
