(* ===== verification/Trace.v ===== *)
(** * traceroute: probes and the ICMP errors they cause

    unpv13e/traceroute: main.c, traceloop.c, recv_v4.c, recv_v6.c, sig_alrm.c,
    icmpcode_v4.c and icmpcode_v6.c.  A probe is a UDP datagram with a small time
    to live and its own destination port; recv_v4 looks for the ICMP error that
    quotes it among whatever arrives at the raw socket.

    recvfrom fails with EINTR when SIGALRM was caught, that is, after sig_alrm
    has set gotalarm; a signal that arrives between the test of gotalarm and
    recvfrom is not modelled.  Structure layouts are those of an LP64 host: struct
    rec has its time stamp at offset 8 and takes 24 bytes.  What is printed is a
    list of items, the arguments of the printf calls. *)
From stdpp Require Import base list numbers strings gmap.
From S2P Require Import Prelude InetAddr Checksum Cnum Sys Error Wrap StreamIO SockAddr Connect Ping.
Import Cksum.

Module Trace.
Definition IPPROTO_UDP : Z := 17.
Definition IP_TTL : Z := 4.
Definition IPV6_UNICAST_HOPS : Z := 4.
Definition ICMP_UNREACH : Z := 3.
Definition ICMP_UNREACH_PORT : Z := 3.
Definition ICMP_TIMXCEED : Z := 11.
Definition ICMP_TIMXCEED_INTRANS : Z := 0.
Definition ICMP6_DST_UNREACH : Z := 1.
Definition ICMP6_DST_UNREACH_NOPORT : Z := 4.
Definition ICMP6_TIME_EXCEEDED : Z := 3.
Definition ICMP6_TIME_EXCEED_TRANSIT : Z := 0.
Definition sizeof_rec : Z := 24.
Definition sizeof_ip : Z := 20.
Definition sizeof_ip6_hdr : Z := 40.

(** The globals of trace.h, gotalarm of sig_alrm.c and the static array of
    sock_ntop_host; [v6] is which of proto_v4 and proto_v6 [pr] points to. *)
Record trace := State {
  recvbuf : list Z; sendbuf : list Z; datalen : Z; sport : Z; dport : Z; nprobes : Z; max_ttl : Z; verbose : Z;
  recvfd : Z; sendfd : Z; v6 : bool; sasend : sockaddr; sarecv : sockaddr; salast : sockaddr; salen : Z;
  gotalarm : Z; static : list Z }.

Definition with_recv (b : list Z) (sa : sockaddr) (t : trace) : trace :=
  State b (sendbuf t) (datalen t) (sport t) (dport t) (nprobes t) (max_ttl t) (verbose t) (recvfd t) (sendfd t) (v6 t)
    (sasend t) sa (salast t) (salen t) (gotalarm t) (static t).
Definition with_send (b : list Z) (sa : sockaddr) (t : trace) : trace :=
  State (recvbuf t) b (datalen t) (sport t) (dport t) (nprobes t) (max_ttl t) (verbose t) (recvfd t) (sendfd t) (v6 t)
    sa (sarecv t) (salast t) (salen t) (gotalarm t) (static t).
Definition with_last (sa : sockaddr) (t : trace) : trace :=
  State (recvbuf t) (sendbuf t) (datalen t) (sport t) (dport t) (nprobes t) (max_ttl t) (verbose t) (recvfd t) (sendfd t)
    (v6 t) (sasend t) (sarecv t) sa (salen t) (gotalarm t) (static t).
Definition with_alarm (a : Z) (t : trace) : trace :=
  State (recvbuf t) (sendbuf t) (datalen t) (sport t) (dport t) (nprobes t) (max_ttl t) (verbose t) (recvfd t) (sendfd t)
    (v6 t) (sasend t) (sarecv t) (salast t) (salen t) a (static t).
Definition with_static (st : list Z) (t : trace) : trace :=
  State (recvbuf t) (sendbuf t) (datalen t) (sport t) (dport t) (nprobes t) (max_ttl t) (verbose t) (recvfd t) (sendfd t)
    (v6 t) (sasend t) (sarecv t) (salast t) (salen t) (gotalarm t) st.
Definition with_socks (rfd sfd port : Z) (t : trace) : trace :=
  State (recvbuf t) (sendbuf t) (datalen t) port (dport t) (nprobes t) (max_ttl t) (verbose t) rfd sfd
    (v6 t) (sasend t) (sarecv t) (salast t) (salen t) (gotalarm t) (static t).

(** What is printed. *)
Inductive item :=
  | OTtl (ttl : Z)                                     (* "%2d " *)
  | OStar                                              (* " *" *)
  | OHost (name : option (list Z)) (addr : list Z)     (* " %s (%s)" or " %s" *)
  | ORtt (rtt : double)                                (* "  %.3f ms" *)
  | OIcmp (text : list Z)                              (* " (ICMP %s)" *)
  | OFrom (addr : list Z) (type code : Z)              (* " (from %s: type = %d, code = %d)\n" *)
  | ONewline.

(** ** sig_alrm.c and the texts of the codes *)
Definition sig_alrm (t : trace) : trace := with_alarm 1 t.

Definition unknown_code (code : Z) : list Z := str "[unknown code " ++ fmt_d code ++ str "]".

Definition icmpcode_v4 (code : Z) : list Z :=
  match code with
  | 0 => str "network unreachable"
  | 1 => str "host unreachable"
  | 2 => str "protocol unreachable"
  | 3 => str "port unreachable"
  | 4 => str "fragmentation required but DF bit set"
  | 5 => str "source route failed"
  | 6 => str "destination network unknown"
  | 7 => str "destination host unknown"
  | 8 => str "source host isolated (obsolete)"
  | 9 => str "destination network administratively prohibited"
  | 10 => str "destination host administratively prohibited"
  | 11 => str "network unreachable for TOS"
  | 12 => str "host unreachable for TOS"
  | 13 => str "communication administratively prohibited by filtering"
  | 14 => str "host recedence violation"
  | 15 => str "precedence cutoff in effect"
  | _ => unknown_code code
  end.

Definition icmpcode_v6 (code : Z) : list Z :=
  match code with
  | 0 => str "no route to host"
  | 1 => str "administratively prohibited"
  | 2 => str "not a neighbor"
  | 3 => str "address unreachable"
  | 4 => str "port unreachable"
  | _ => unknown_code code
  end.

(** ** recv_v4.c and recv_v6.c *)

(** What the body of the loop does with a packet: continue, fall to the test of
    verbose, or break with the value of ret ([None]: not set). *)
Inductive verdict := Continue | Other (type code : Z) | Break (ret : option Z).

(** Does the quoted IP packet hold the UDP header of the probe?  [None]: there is
    not enough data. *)
Definition quoted_v4 `{Platform} (buf : list Z) (hlen1 icmplen seq : Z) (t : trace) : prog (option bool) :=
  if icmplen <? 8 + sizeof_ip then Ret None
  else
    h ← mem (aread buf (hlen1 + 8));
    let hlen2 := Z.shiftl (Z.land h 15) 2 in
    if icmplen <? 8 + hlen2 + 4 then Ret None
    else
      ip_p ← mem (aread buf (hlen1 + 8 + 9));
      if negb (ip_p =? IPPROTO_UDP) then Ret (Some false)
      else
        uh_sport ← mem (aread16 buf (hlen1 + 8 + hlen2));
        if negb (uh_sport =? htons (sport t)) then Ret (Some false)
        else
          uh_dport ← mem (aread16 buf (hlen1 + 8 + hlen2 + 2));
          Ret (Some (uh_dport =? htons (u16 (dport t + seq)))).

Definition look_v4 `{Platform} (buf : list Z) (n seq : Z) (t : trace) : prog verdict :=
  b ← mem (aread buf 0);
  let hlen1 := Z.shiftl (Z.land b 15) 2 in
  let icmplen := n - hlen1 in
  if icmplen <? 8 then Ret Continue
  else
    type ← mem (aread buf hlen1);
    code ← mem (aread buf (hlen1 + 1));
    if (type =? ICMP_TIMXCEED) && (code =? ICMP_TIMXCEED_INTRANS) then
      q ← quoted_v4 buf hlen1 icmplen seq t;
      Ret (match q with
           | None => Continue
           | Some true => Break (Some (-2))
           | Some false => Other type code
           end)
    else if type =? ICMP_UNREACH then
      q ← quoted_v4 buf hlen1 icmplen seq t;
      Ret (match q with
           | None => Continue
           | Some true => Break (Some (if code =? ICMP_UNREACH_PORT then -1 else code))
           | Some false => Other type code
           end)
    else Ret (Other type code).

Definition quoted_v6 `{Platform} (buf : list Z) (seq : Z) (t : trace) : prog bool :=
  ip6_nxt ← mem (aread buf (8 + 6));
  if negb (ip6_nxt =? IPPROTO_UDP) then Ret false
  else
    uh_sport ← mem (aread16 buf (8 + sizeof_ip6_hdr));
    if negb (uh_sport =? htons (sport t)) then Ret false
    else
      uh_dport ← mem (aread16 buf (8 + sizeof_ip6_hdr + 2));
      Ret (uh_dport =? htons (u16 (dport t + seq))).

(** After a time exceeded message the break is outside the if: it is executed
    whether or not ret was set. *)
Definition look_v6 `{Platform} (buf : list Z) (n seq : Z) (t : trace) : prog verdict :=
  if n <? 8 then Ret Continue
  else
    type ← mem (aread buf 0);
    code ← mem (aread buf 1);
    if (type =? ICMP6_TIME_EXCEEDED) && (code =? ICMP6_TIME_EXCEED_TRANSIT) then
      if n <? 8 + sizeof_ip6_hdr + 4 then Ret Continue
      else q ← quoted_v6 buf seq t; Ret (Break (if (q : bool) then Some (-2) else None))
    else if type =? ICMP6_DST_UNREACH then
      if n <? 8 + sizeof_ip6_hdr + 4 then Ret Continue
      else
        q ← quoted_v6 buf seq t;
        Ret (if (q : bool) then Break (Some (if code =? ICMP6_DST_UNREACH_NOPORT then -1 else code)) else Continue)
    else Ret (Other type code).

(** Sock_ntop_host(pr->sarecv, pr->salen) *)
Definition host_text (t : trace) : prog (list Z * trace) :=
  a ← Sock_ntop_host (sarecv t) (salen t) (static t);
  Ret (cstring_at a 0, with_static a t).

(** The loop around [look], with [fuel] calls of recvfrom at most: the code, the
    time of arrival (not set when the code is -3), the state and the output. *)
Fixpoint recv_packets (look : list Z -> Z -> Z -> trace -> prog verdict) (fuel : nat) (seq : Z) (t : trace) (out : list item)
  : prog (Z * option timeval * trace * list item) :=
  match fuel with
  | O => Halt Spin
  | S f =>
      if negb (gotalarm t =? 0) then Ret (-3, None, t, out)
      else
        r ← call (Erecvfrom (recvfd t) Ping.BUFSIZE 0);
        match r with
        | Err e =>
            if e =? EINTR then recv_packets look f seq (sig_alrm t) out else err_sys (str "recvfrom error")
        | Ok (bs, (sa, _)) =>
            b ← mem (memcpy (recvbuf t) 0 bs);
            let t1 := with_recv b sa t in
            v ← look b (Z.of_nat (length bs)) seq t1;
            match v with
            | Continue => recv_packets look f seq t1 out
            | Other type code =>
                if negb (verbose t1 =? 0) then
                  '(host, t2) ← host_text t1;
                  recv_packets look f seq t2 (out ++ [OFrom host type code])
                else recv_packets look f seq t1 out
            | Break ret =>
                _ ← lib (Ealarm 0);
                tv ← Gettimeofday;
                r ← mem ret;
                Ret (r, Some tv, t1, out)
            end
        end
  end.

Definition recv_v4 `{Platform} (fuel : nat) (seq : Z) (t : trace) (out : list item)
  : prog (Z * option timeval * trace * list item) :=
  let t0 := with_alarm 0 t in
  _ ← lib (Ealarm 3);
  recv_packets look_v4 fuel seq t0 out.

Definition recv_v6 `{Platform} (fuel : nat) (seq : Z) (t : trace) (out : list item)
  : prog (Z * option timeval * trace * list item) :=
  let t0 := with_alarm 0 t in
  _ ← lib (Ealarm 3);
  recv_packets look_v6 fuel seq t0 out.

(** ** traceloop.c *)

(** The reply to a probe: the host if it is another one, the time, the code. *)
Definition show_reply `{Platform} (code : Z) (tvrecv : option timeval) (t : trace) (out : list item)
  : prog (trace * list item) :=
  c ← mem (sock_cmp_addr (sarecv t) (salast t) (salen t));
  '(t1, out1) ←
    (if negb (c =? 0) then
       name ← lib (Egetnameinfo (sarecv t) (salen t) 0);
       '(a, t1) ← host_text t;
       Ret (with_last (sarecv t1) t1, out ++ [OHost name a])
     else Ret (t, out));
  tv ← mem tvrecv;
  rec_tv ← mem (asub (sendbuf t1) 8 16);
  let out2 := out1 ++ [ORtt (Ping.rtt_ms (tv_sub tv (load_timeval rec_tv)))] in
  Ret (t1, if code =? -1 then out2
           else if 0 <=? code then out2 ++ [OIcmp ((if v6 t1 then icmpcode_v6 else icmpcode_v4) code)]
           else out2).

(** One probe: the state, done and the output. *)
Definition send_probe `{Platform} (fuel : nat) (ttl seq done : Z) (t : trace) (out : list item)
  : prog (trace * Z * list item) :=
  b0 ← mem (memcpy (sendbuf t) 0 (store16 (u16 seq)));
  b1 ← mem (memcpy b0 2 (store16 (u16 ttl)));
  rec_tv ← Gettimeofday;
  b2 ← mem (memcpy b1 8 (store_timeval rec_tv));
  let t1 := with_send b2 (sock_set_port (sasend t) (salen t) (htons (u16 (dport t + seq)))) t in
  bs ← mem (asub b2 0 (datalen t1));
  _ ← Sendto (sendfd t1) bs 0 (sasend t1) (salen t1);
  '(code, tvrecv, t2, out1) ← (if v6 t1 then recv_v6 else recv_v4) fuel seq t1 out;
  if code =? -3 then Ret (t2, done, out1 ++ [OStar])
  else
    '(t3, out2) ← show_reply code tvrecv t2 out1;
    Ret (t3, if code =? -1 then done + 1 else done, out2).

(** for (probe = 0; probe < nprobes; probe++), with [n] probes left. *)
Fixpoint send_probes `{Platform} (fuel n : nat) (ttl seq done : Z) (t : trace) (out : list item)
  : prog (trace * Z * Z * list item) :=
  match n with
  | O => Ret (t, seq, done, out)
  | S n' =>
      '(t1, done1, out1) ← send_probe fuel ttl (seq + 1) done t out;
      send_probes fuel n' ttl (seq + 1) done1 t1 out1
  end.

(** for (ttl = 1; ttl <= max_ttl && done == 0; ttl++), with [k] hops left. *)
Fixpoint hops `{Platform} (fuel k : nat) (ttl seq done : Z) (t : trace) (out : list item) : prog (trace * list item) :=
  match k with
  | O => Ret (t, out)
  | S k' =>
      if negb (done =? 0) then Ret (t, out)
      else
        _ ← Setsockopt (sendfd t) (if v6 t then Ping.IPPROTO_IPV6 else IPPROTO_IP)
              (if v6 t then IPV6_UNICAST_HOPS else IP_TTL) (OInt ttl);
        '(t1, seq1, done1, out1) ←
          send_probes fuel (Z.to_nat (nprobes t)) ttl seq done (with_last (SaOther 0 []) t) (out ++ [OTtl ttl]);
        hops fuel k' (ttl + 1) seq1 done1 t1 (out1 ++ [ONewline])
  end.

(** A zeroed structure with its family set. *)
Definition zero_addr (family : Z) : sockaddr :=
  if family =? AF_INET then SaIn (SockaddrIn 0 [0; 0; 0; 0])
  else if family =? AF_INET6 then SaIn6 (SockaddrIn6 0 0 (replicate 16 0) 0)
  else SaOther family [].

Definition traceloop `{Platform} (fuel : nat) (t : trace) : prog (trace * list item) :=
  let family := sa_family (sasend t) in
  rfd ← Socket family Ping.SOCK_RAW (if v6 t then Ping.IPPROTO_ICMPV6 else Ping.IPPROTO_ICMP);
  uid ← lib Egetuid;
  _ ← call_ (Esetuid uid);
  _ ← (if (family =? AF_INET6) && (verbose t =? 0)
       then call_ (Esetsockopt rfd Ping.IPPROTO_IPV6 Ping.ICMP6_FILTER
              (OInt (Z.lor (Z.shiftl 1 ICMP6_TIME_EXCEEDED) (Z.shiftl 1 ICMP6_DST_UNREACH))))
       else Ret tt);
  sfd ← Socket family SOCK_DGRAM 0;
  me ← lib Egetpid;
  let port := Z.lor (Z.land me 0xffff) 0x8000 in
  let t0 := with_socks rfd sfd port t in
  _ ← Bind sfd (sock_set_port (zero_addr family) (salen t) (htons port)) (salen t);
  hops fuel (Z.to_nat (max_ttl t)) 1 0 0 (sig_alrm t0) [].

(** ** main.c, after the options: [verb] counts the -v, [maxttl] is -m's value. *)
Definition traceroute `{Platform} (handler : Z) (fuel : nat) (st : list Z) (maxttl verb : Z) (host : list Z)
  : prog (trace * list item) :=
  _ ← lib Egetpid;
  _ ← Signal SIGALRM handler;
  ai ← Host_serv (Some host) None 0 0;
  match ai with
  | [] => fault
  | a :: _ =>
      s ← Sock_ntop_host (ai_addr a) (ai_addrlen a) st;
      _ ← call_ (Efputs (str "traceroute to " ++ default (cstring_at s 0) (ai_canonname a) ++ str " (" ++ cstring_at s 0 ++
                         str "): " ++ fmt_d maxttl ++ str " hops max, " ++ fmt_d sizeof_rec ++ str " data bytes" ++ [10]) stdout);
      is6 ← (if ai_family a =? AF_INET then Ret false
             else if ai_family a =? AF_INET6 then
               if Ping.is_v4mapped (ai_addr a) then err_quit (str "cannot traceroute IPv4-mapped IPv6 address") else Ret true
             else err_quit (str "unknown address family " ++ fmt_d (ai_family a)));
      _ ← Calloc 1 (ai_addrlen a);
      _ ← Calloc 1 (ai_addrlen a);
      _ ← Calloc 1 (ai_addrlen a);
      traceloop fuel
        (State (replicate (Z.to_nat Ping.BUFSIZE) 0) (replicate (Z.to_nat Ping.BUFSIZE) 0) sizeof_rec 0 (32768 + 666)
           3 maxttl verb 0 0 is6 (ai_addr a) (SaOther 0 []) (SaOther 0 []) (ai_addrlen a) 0 s)
  end.
End Trace.
