(* ===== verification/TraceProofs.v ===== *)
(** * traceroute attributes the replies to its probes

    The reference is a function of the packet alone: the ICMP errors that quote a
    UDP datagram with the ports of the probe.  recv_v4 finds, among whatever
    arrives before the alarm, the first packet the reference accepts, although it
    looks at a buffer in which the packet is followed by the remains of earlier
    ones; and the loops of traceloop.c send the probes and end as the sequence of
    replies demands.  recv_v6 breaks out of its loop on the errors of other
    programs and then returns a variable it has not set. *)
From stdpp Require Import base list numbers strings gmap.
From S2P Require Import Prelude InetAddr InetV4 Checksum Cnum Sys Error Wrap StreamIO SockAddr Connect Bytes Ping PingProofs Trace.
Import Cksum Trace.

Module TraceProofs.
Import PingProofs.

(** ** The reference *)
Definition be16 (z : Z) : list Z := [z / 256 mod 256; z mod 256].
Definition hlen (b : Z) : Z := Z.shiftl (Z.land b 15) 2.

(** [ip] is an IP packet of UDP from port [sp] to port [dp]. *)
Definition quotes (sp dp : Z) (ip : list Z) : bool :=
  match ip with
  | [] => false
  | b :: _ =>
      (20 <=? Z.of_nat (length ip)) && bool_decide (ip !! 9%nat = Some IPPROTO_UDP) &&
      bool_decide (take 4 (drop (Z.to_nat (hlen b)) ip) = be16 sp ++ be16 dp)
  end.

(** What an IP packet of ICMP says about the probe from [sp] to [dp]: -2, the time
    was exceeded in transit; -1, the port is unreachable; another code. *)
Definition classify (sp dp : Z) (pkt : list Z) : option Z :=
  match pkt with
  | [] => None
  | b :: _ =>
      match drop (Z.to_nat (hlen b)) pkt with
      | type :: code :: _ :: _ :: _ :: _ :: _ :: _ :: inner =>
          if quotes sp dp inner then
            if (type =? ICMP_TIMXCEED) && (code =? ICMP_TIMXCEED_INTRANS) then Some (-2)
            else if type =? ICMP_UNREACH then Some (if code =? ICMP_UNREACH_PORT then -1 else code)
            else None
          else None
      | _ => None
      end
  end.

(** ** One packet *)
Lemma load16_htons `{Platform} a b v : is_byte a -> is_byte b -> is_u16 v ->
  load16 a b = htons v <-> [a; b] = be16 v.
Proof.
  intros Ha Hb Hv. unfold load16, htons, be16, is_byte, is_u16 in *.
  destruct big_endian; [rewrite u16_small by done|unfold swap16];
    (split; [intros E|intros [= -> ->]]); try (f_equal; [|f_equal]); Z.div_mod_to_equations; lia.
Qed.

(** The packet [pkt] at the start of [buf]. *)
Lemma aread_drop (pkt tail : list Z) o i x :
  0 <= o -> 0 <= i -> drop (Z.to_nat o) pkt !! Z.to_nat i = Some x -> aread (pkt ++ tail) (o + i) = Some x.
Proof.
  intros Ho Hi H. rewrite lookup_drop in H. unfold aread. zbool.
  replace (Z.to_nat (o + i)) with (Z.to_nat o + Z.to_nat i)%nat by lia. by apply lookup_app_l_Some.
Qed.

Lemma take4_at {A} (l : list A) o x0 x1 x2 x3 :
  l !! o = Some x0 -> l !! S o = Some x1 -> l !! S (S o) = Some x2 -> l !! S (S (S o)) = Some x3 ->
  take 4 (drop o l) = [x0; x1; x2; x3].
Proof.
  intros H0 H1 H2 H3. by rewrite (drop_S _ _ _ H0), (drop_S _ _ _ H1), (drop_S _ _ _ H2), (drop_S _ _ _ H3).
Qed.

Section Packet.
Context {K : Type} `{HK : !Kernel K} `{HP : Platform}.

(** The bytes at [o] are known from the packet. *)
Definition holds (buf : list Z) (o : Z) (l : list Z) : Prop :=
  forall j x, l !! j = Some x -> aread buf (o + Z.of_nat j) = Some x.

Lemma holds_16 buf o l j x y : holds buf o l -> l !! j = Some x -> l !! S j = Some y ->
  aread16 buf (o + Z.of_nat j) = Some (load16 x y).
Proof.
  intros H Hx Hy. unfold aread16. rewrite (H _ _ Hx). cbn [mbind option_bind].
  replace (o + Z.of_nat j + 1) with (o + Z.of_nat (S j)) by lia. by rewrite (H _ _ Hy).
Qed.

Lemma quoted_v4_run buf o seq t inner g (k : K) :
  holds buf (o + 8) inner -> Forall is_byte inner -> is_u16 (sport t) ->
  exists q, run (quoted_v4 buf o (8 + Z.of_nat (length inner)) seq t) g k = (Done q, g, k) /\
    (q = Some true <-> quotes (sport t) (u16 (dport t + seq)) inner = true).
Proof.
  intros Hin Hb Hs. unfold quoted_v4, sizeof_ip. destruct (Z.ltb_spec (8 + Z.of_nat (length inner)) (8 + 20)) as [H20|H20].
  { exists None. split; [done|]. split; [done|]. unfold quotes. destruct inner; [done|]. zbool. }
  destruct inner as [|b inner0] eqn:Ei; [cbn in H20; lia|]. rewrite <- Ei in *.
  assert (inner !! 0%nat = Some b) as Hb0 by (by rewrite Ei).
  rewrite (run_mem_then _ b) by (by rewrite <- (Hin 0%nat b Hb0), Z.add_0_r). cbv zeta. fold (hlen b).
  assert (quotes (sport t) (u16 (dport t + seq)) inner =
    bool_decide (inner !! 9%nat = Some IPPROTO_UDP) &&
    bool_decide (take 4 (drop (Z.to_nat (hlen b)) inner) = be16 (sport t) ++ be16 (u16 (dport t + seq)))) as ->.
  { unfold quotes. rewrite Ei at 1. by rewrite (proj2 (Z.leb_le 20 _)) by lia. }
  pose proof (hlen_range b) as Hh. fold (hlen b) in Hh.
  destruct (Z.ltb_spec (8 + Z.of_nat (length inner)) (8 + hlen b + 4)) as [Hlt|Hge].
  { exists None. split; [done|]. split; [done|]. rewrite andb_true_iff, !bool_decide_eq_true. intros [_ H].
    apply (f_equal length) in H. rewrite length_take, length_drop in H. change (length (be16 (sport t) ++ be16 (u16 (dport t + seq)))) with 4%nat in H. lia. }
  destruct (lookup_lt_is_Some_2 inner 9) as [p Hp]; [lia|].
  rewrite (run_mem_then _ p) by exact (Hin 9%nat p Hp). rewrite Hp.
  destruct (Z.eqb_spec p IPPROTO_UDP) as [->|Hne]; cbn [negb].
  2: { exists (Some false). split; [done|]. split; [done|]. rewrite bool_decide_false by congruence. done. }
  rewrite (bool_decide_true (Some IPPROTO_UDP = _)) by done. rewrite andb_true_l.
  set (h := Z.to_nat (hlen b)). assert (hlen b = Z.of_nat h) as Eh by lia.
  destruct (lookup_lt_is_Some_2 inner h) as [x0 H0]; [lia|]. destruct (lookup_lt_is_Some_2 inner (S h)) as [x1 H1]; [lia|].
  destruct (lookup_lt_is_Some_2 inner (S (S h))) as [x2 H2]; [lia|].
  destruct (lookup_lt_is_Some_2 inner (S (S (S h)))) as [x3 H3]; [lia|].
  rewrite (take4_at inner h _ _ _ _ H0 H1 H2 H3). rewrite Forall_lookup in Hb.
  pose proof (load16_htons x0 x1 (sport t) (Hb _ _ H0) (Hb _ _ H1) Hs) as L1.
  pose proof (load16_htons x2 x3 (u16 (dport t + seq)) (Hb _ _ H2) (Hb _ _ H3) (u16_range _)) as L2.
  rewrite Eh, (run_mem_then _ (load16 x0 x1)) by exact (holds_16 _ _ _ _ _ _ Hin H0 H1).
  destruct (Z.eqb_spec (load16 x0 x1) (htons (sport t))) as [E1|E1]; cbn [negb].
  2: { exists (Some false). split; [done|]. split; [done|]. intros E%bool_decide_eq_true. destruct E1. apply L1. by injection E as -> -> _ _. }
  rewrite (run_mem_then _ (load16 x2 x3))
    by (replace (o + 8 + Z.of_nat h + 2) with (o + 8 + Z.of_nat (S (S h))) by lia; exact (holds_16 _ _ _ _ _ _ Hin H2 H3)).
  eexists. split; [done|]. apply L1 in E1. injection E1 as -> ->. rewrite bool_decide_eq_true. split.
  - intros [= E]. apply Z.eqb_eq, L2 in E. by injection E as -> ->.
  - intros [= -> ->]. do 2 f_equal. apply Z.eqb_eq. by apply L2.
Qed.

(** A verdict, as the reference sees it. *)
Definition found (v : verdict) : option Z := match v with Break (Some c) => Some c | _ => None end.
Definition decided (v : verdict) : Prop := match v with Break None => False | _ => True end.

Lemma look_v4_run pkt tail seq t g (k : K) :
  Forall is_byte pkt -> is_u16 (sport t) -> (0 < length (pkt ++ tail))%nat ->
  exists v, run (look_v4 (pkt ++ tail) (Z.of_nat (length pkt)) seq t) g k = (Done v, g, k) /\
    found v = classify (sport t) (u16 (dport t + seq)) pkt /\ decided v.
Proof.
  intros Hb Hs Hlen. unfold look_v4. destruct pkt as [|b pkt0] eqn:Epkt.
  { destruct (aread_in ([] ++ tail) 0) as [b Hb0]; [lia|]. rewrite (run_mem_then _ _ _ _ _ Hb0). cbv zeta.
    pose proof (hlen_range b). cbn [length]. destruct (Z.ltb_spec (Z.of_nat 0 - Z.shiftl (Z.land b 15) 2) 8); [|lia]. by eexists. }
  rewrite <- Epkt in *. rewrite (run_mem_then _ b) by (by rewrite Epkt). cbv zeta. fold (hlen b).
  pose proof (hlen_range b) as Hh. fold (hlen b) in Hh.
  assert (classify (sport t) (u16 (dport t + seq)) pkt = match drop (Z.to_nat (hlen b)) pkt with
      | type :: code :: _ :: _ :: _ :: _ :: _ :: _ :: inner =>
          if quotes (sport t) (u16 (dport t + seq)) inner then
            if (type =? ICMP_TIMXCEED) && (code =? ICMP_TIMXCEED_INTRANS) then Some (-2)
            else if type =? ICMP_UNREACH then Some (if code =? ICMP_UNREACH_PORT then -1 else code)
            else None
          else None
      | _ => None
      end) as -> by (unfold classify; by rewrite Epkt at 1).
  destruct (Z.ltb_spec (Z.of_nat (length pkt) - hlen b) 8) as [H8|H8].
  { exists Continue. split; [done|]. split; [|done].
    assert (length (drop (Z.to_nat (hlen b)) pkt) < 8)%nat as Hl by (rewrite length_drop; lia).
    by destruct (drop _ _) as [|? [|? [|? [|? [|? [|? [|? [|? ?]]]]]]]]; cbn in Hl; try lia. }
  assert (holds (pkt ++ tail) (hlen b) (drop (Z.to_nat (hlen b)) pkt)) as Hold.
  { intros j x Hj. apply aread_drop; [lia..|]. by rewrite Nat2Z.id. }
  assert (Forall is_byte (drop (Z.to_nat (hlen b)) pkt)) as Hbd by (by apply Forall_drop).
  assert (Z.of_nat (length (drop (Z.to_nat (hlen b)) pkt)) = Z.of_nat (length pkt) - hlen b) as Hl by (rewrite length_drop; lia).
  destruct (drop _ _) as [|ty [|code [|? [|? [|? [|? [|? [|? inner]]]]]]]]; cbn [length] in Hl; try lia.
  rewrite (run_mem_then _ ty) by (by rewrite <- (Hold 0%nat ty eq_refl), Z.add_0_r).
  rewrite (run_mem_then _ code) by exact (Hold 1%nat code eq_refl).
  assert (holds (pkt ++ tail) (hlen b + 8) inner) as Hin.
  { intros j x Hj. rewrite <- (Hold (8 + j)%nat x Hj). f_equal. lia. }
  do 8 apply Forall_inv_tail in Hbd.
  destruct (quoted_v4_run (pkt ++ tail) (hlen b) seq t inner g k Hin Hbd Hs) as (q & Eq & Hq).
  replace (Z.of_nat (length pkt) - hlen b) with (8 + Z.of_nat (length inner)) by lia.
  destruct (_ && _) eqn:Ety; [|destruct (Z.eqb_spec ty ICMP_UNREACH)].
  - rewrite run_bind, Eq. eexists. split; [done|]. destruct q as [[|]|], (quotes _ _ _); naive_solver.
  - rewrite run_bind, Eq. eexists. split; [done|]. destruct q as [[|]|], (quotes _ _ _); naive_solver.
  - eexists. split; [done|]. by destruct (quotes _ _ _).
Qed.
End Packet.

(** ** The system: what arrives at the raw socket, and what was sent

    An arrival is a packet and its sender, or the interruption by the alarm,
    which comes at the latest when there are no more packets. *)
Definition arrival := option (list Z * sockaddr).

Class TraceKernel (K : Type) `{!Kernel K} := {
  arriving : K -> list arrival;
  probed : K -> list (list Z * sockaddr);
  tk_recv : forall k fd n fl, exists k', arriving k' = tail (arriving k) /\ probed k' = probed k /\
    kcall (Erecvfrom fd n fl) k =
      (match head (arriving k) with
       | Some (Some (bs, sa)) => Ok (take (Z.to_nat n) bs, (sa, 16))
       | _ => Err EINTR
       end, k');
  tk_send : forall k fd bs fl sa len, exists k', arriving k' = arriving k /\ probed k' = probed k ++ [(bs, sa)] /\
    kcall (Esendto fd bs fl (Some sa) len) k = (Ok (Z.of_nat (length bs)), k');
  tk_time : forall k, exists tv k', arriving k' = arriving k /\ probed k' = probed k /\ kcall Egettimeofday k = (Ok tv, k');
  tk_option : forall k fd l o v, exists k', arriving k' = arriving k /\ probed k' = probed k /\
    kcall (Esetsockopt fd l o v) k = (Ok tt, k');
  tk_socket : forall k f t p, exists fd k', arriving k' = arriving k /\ probed k' = probed k /\ kcall (Esocket f t p) k = (Ok fd, k');
  tk_bind : forall k fd sa len, exists k', arriving k' = arriving k /\ probed k' = probed k /\ kcall (Ebind fd sa len) k = (Ok tt, k');
  tk_setuid : forall k u, arriving (kcall (Esetuid u) k).2 = arriving k /\ probed (kcall (Esetuid u) k).2 = probed k;
  tk_lib : forall {X} (e : libE X) k, arriving (klib e k).2 = arriving k /\ probed (klib e k).2 = probed k }.

(** An IPv4 address. *)
Definition inet_addr (sa : sockaddr) (quad : list Z) : Prop :=
  exists port a b c d, quad = [a; b; c; d] /\ sa = SaIn (SockaddrIn port quad) /\ V4.bytes4 a b c d.
Definition arrives (a : arrival) : Prop :=
  match a with
  | None => True
  | Some (bs, sa) => Z.of_nat (length bs) <= Ping.BUFSIZE /\ Forall is_byte bs /\ exists q, inet_addr sa q
  end.

(** The first answer to the probe from port [sp] to port [dp], and what arrives after it. *)
Fixpoint first_reply (sp dp : Z) (evs : list arrival) : Z * list arrival :=
  match evs with
  | Some (bs, _) :: evs => match classify sp dp bs with Some c => (c, evs) | None => first_reply sp dp evs end
  | None :: evs => (-3, evs)
  | [] => (-3, [])
  end.

(** The codes of [n] probes after probe [seq], and of the hops: the path ends with
    the hop at which the port was unreachable, or after [k] hops. *)
Fixpoint probe_codes (sp dp : Z) (n : nat) (seq : Z) (evs : list arrival) : list Z * list arrival :=
  match n with
  | O => ([], evs)
  | S n =>
      let r := first_reply sp (u16 (dp + (seq + 1))) evs in
      let '(cs, rest) := probe_codes sp dp n (seq + 1) r.2 in (r.1 :: cs, rest)
  end.
Fixpoint path (sp dp : Z) (np k : nat) (seq : Z) (evs : list arrival) : list (list Z) :=
  match k with
  | O => []
  | S k =>
      let '(cs, rest) := probe_codes sp dp np seq evs in
      cs :: (if existsb (Z.eqb (-1)) cs then [] else path sp dp np k (seq + Z.of_nat np) rest)
  end.

(** The arrays, and an IPv4 destination. *)
Record ready (dst : list Z) (t : trace) : Prop := {
  rd_recv : Z.of_nat (length (recvbuf t)) = Ping.BUFSIZE;
  rd_send : Z.of_nat (length (sendbuf t)) = Ping.BUFSIZE;
  rd_static : length (static t) = 128%nat;
  rd_len : datalen t = sizeof_rec;
  rd_port : is_u16 (sport t);
  rd_v4 : v6 t = false;
  rd_dst : inet_addr (sasend t) dst }.

(** What receiving does not change. *)
Definition setup (t : trace) := (sendbuf t, datalen t, sport t, dport t, nprobes t, max_ttl t, (sendfd t, v6 t, sasend t, salast t)).

(** Of what is printed: for each probe whether there was an answer, and the hops. *)
Definition mark (i : item) : option bool := match i with OStar => Some false | ORtt _ => Some true | _ => None end.
Definition hop (i : item) : option Z := match i with OTtl ttl => Some ttl | _ => None end.
Definition marks (out : list item) : list bool := omap mark out.
Definition ttls (out : list item) : list Z := omap hop out.

Section Receive.
Context {K : Type} `{HK : !Kernel K} `{HT : !TraceKernel K} `{HP : Platform}.
Implicit Types (k : K) (g : globals).

Lemma checked_ok {X} (e : sysE X) msg v g k k' : kcall e k = (Ok v, k') -> run (checked e msg) g k = (Done v, g, k').
Proof. intros E. unfold checked. by rewrite run_bind, run_call, E. Qed.
Lemma checked_ok_ {X} (e : sysE X) msg v g k k' : kcall e k = (Ok v, k') -> run (checked_ e msg) g k = (Done tt, g, k').
Proof. intros E. unfold checked_. by rewrite run_bind, run_call, E. Qed.

Lemma host_text_ok t q g k : inet_addr (sarecv t) q -> length (static t) = 128%nat ->
  exists a s, length s = 128%nat /\ run (host_text t) g k = (Done (a, with_static s t), g, k).
Proof.
  intros (port & a & b & c & d & -> & Esa & Hq) Hst. pose proof (V4.fmt_quad_length _ _ _ _ Hq) as Hlen.
  destruct (V4.inet_ntop4_ok a b c d (static t) 0 128 Hq) as (arr & E & _ & Hl); [lia..|].
  exists (cstring_at arr 0), arr. split; [lia|]. unfold host_text, Sock_ntop_host. rewrite run_bind, run_bind, run_mem, Esa.
  unfold sock_ntop_host, inet_ntop. cbn [sin_addr]. rewrite Z.eqb_refl. cbv iota. by rewrite E.
Qed.

(** The state and the output after receiving. *)
Definition received dst (t t' : trace) (out out' : list item) : Prop :=
  ready dst t' /\ setup t' = setup t /\ marks out' = marks out /\ ttls out' = ttls out.

(** What the loop returns. *)
Definition returns dst (r : Z * list arrival) (t : trace) (out : list item) k (o : outcome (Z * option timeval * trace * list item) * globals * K) : Prop :=
  exists tv t' out' g' k', o = (Done (r.1, tv, t', out'), g', k') /\
    arriving k' = r.2 /\ probed k' = probed k /\ received dst t t' out out' /\
    (r.1 <> -3 -> is_Some tv /\ exists q, inet_addr (sarecv t') q).

Lemma received_trans dst t1 t2 t3 o1 o2 o3 : received dst t1 t2 o1 o2 -> received dst t2 t3 o2 o3 -> received dst t1 t3 o1 o3.
Proof. intros (_ & ? & ? & ?) (? & ? & ? & ?). split_and!; congruence. Qed.

Lemma returns_next dst r t t1 out out1 k k1 o :
  received dst t t1 out out1 -> probed k1 = probed k -> returns dst r t1 out1 k1 o -> returns dst r t out k o.
Proof.
  intros Hr Hp (tv & t' & out' & g' & k' & -> & ? & Hp' & Hr' & ?).
  exists tv, t', out', g', k'. split_and!; try done; [congruence|by eapply received_trans].
Qed.

Lemma recv_alarmed fuel seq dst t out rest g k k0 :
  ready dst t -> (0 < fuel)%nat -> arriving k = rest -> probed k = probed k0 ->
  returns dst (-3, rest) t out k0 (run (recv_packets look_v4 fuel seq (sig_alrm t) out) g k).
Proof.
  intros Hr Hf Hrest Hp. destruct fuel as [|f]; [lia|]. exists None, (sig_alrm t), out, g, k.
  split; [done|]. split_and!; try done. split_and!; try done. destruct Hr. by split.
Qed.

(** The packet is at the start of the buffer. *)
Lemma memcpy_front (buf bs : list Z) : Z.of_nat (length bs) <= Z.of_nat (length buf) ->
  exists tail, memcpy buf 0 bs = Some (bs ++ tail) /\ length (bs ++ tail) = length buf.
Proof.
  intros H. exists (drop (length bs) buf). rewrite memcpy_is_Some by lia. change (Z.to_nat 0) with 0%nat. split; [done|].
  rewrite length_app, length_drop. lia.
Qed.

Lemma ready_recv dst t b sa : ready dst t -> Z.of_nat (length b) = Ping.BUFSIZE -> ready dst (with_recv b sa t).
Proof. intros [] ?. by split. Qed.
Lemma ready_static dst t s : ready dst t -> length s = 128%nat -> ready dst (with_static s t).
Proof. intros [] ?. by split. Qed.

Lemma recv_packets_run fuel seq dst t out g k :
  ready dst t -> gotalarm t = 0 -> Forall arrives (arriving k) -> (length (arriving k) + 1 < fuel)%nat ->
  returns dst (first_reply (sport t) (u16 (dport t + seq)) (arriving k)) t out k (run (recv_packets look_v4 fuel seq t out) g k).
Proof.
  revert t out g k. induction fuel as [|f IH]; intros t out g k Hr Ha Hev Hf; [lia|]. cbn [recv_packets].
  rewrite Ha. change (negb (0 =? 0)) with false. cbv iota.
  destruct (tk_recv k (recvfd t) Ping.BUFSIZE 0) as (k1 & E1 & E2 & Ek). rewrite run_bind, run_call, Ek.
  destruct (arriving k) as [|[[bs sa]|] evs] eqn:Eev; cbn [head tail first_reply length] in *;
    [by apply recv_alarmed; [|lia|..]| |by apply recv_alarmed; [|lia|..]].
  apply Forall_cons in Hev as [(Hlen & Hbs & q & Hsa) Hev']. rewrite take_ge by lia.
  destruct (memcpy_front (recvbuf t) bs) as (tl & Em & Hl); [rewrite (rd_recv _ _ Hr); done|].
  rewrite run_bind, run_mem, Em. cbv beta iota zeta. set (t1 := with_recv (bs ++ tl) sa t).
  assert (ready dst t1) as Hr1 by (apply ready_recv; [done|by rewrite Hl, (rd_recv _ _ Hr)]).
  assert (received dst t t1 out out) as Hrec by (by split_and!).
  destruct (look_v4_run bs tl seq t1 g k1) as (v & Ev & Ec & Hd); [done|apply Hr1|rewrite Hl; pose proof (rd_recv _ _ Hr); unfold Ping.BUFSIZE in *; lia|].
  rewrite run_bind, Ev. cbv beta iota. change (sport t1) with (sport t) in Ec. change (dport t1) with (dport t) in Ec. rewrite <- Ec.
  destruct v as [|ty code|[c|]]; cbn [found]; [| | |done].
  - eapply returns_next; [exact Hrec|exact E2|]. rewrite <- E1. apply (IH t1); [done|done|by rewrite E1|rewrite E1; lia].
  - destruct (negb _).
    + destruct (host_text_ok t1 q g k1 Hsa (rd_static _ _ Hr1)) as (a & s & Hs & Et). rewrite run_bind, Et. cbv beta iota.
      assert (received dst t (with_static s t1) out (out ++ [OFrom a ty code])) as Hrec2.
      { split_and!; [by apply ready_static|done|..]; unfold marks, ttls; by rewrite omap_app, app_nil_r. }
      eapply returns_next; [exact Hrec2|exact E2|]. rewrite <- E1.
      apply (IH (with_static s t1)); [by apply ready_static|done|by rewrite E1|rewrite E1; lia].
    + eapply returns_next; [exact Hrec|exact E2|]. rewrite <- E1. apply (IH t1); [done|done|by rewrite E1|rewrite E1; lia].
  - rewrite run_bind, run_lib. pose proof (tk_lib (Ealarm 0) k1) as [L1 L2]. destruct (klib (Ealarm 0) k1) as [x k2]. cbn in L1, L2.
    cbv beta iota. destruct (tk_time k2) as (tv & k3 & T1 & T2 & Et). unfold Gettimeofday. rewrite run_bind, (checked_ok _ _ _ _ _ _ Et). cbv beta iota.
    exists (Some tv), t1, out, g, k3. split; [done|]. split_and!; cbn; try congruence; eauto.
Qed.

Lemma run_lib_same {X} (e : libE X) k : exists x k', klib e k = (x, k') /\ arriving k' = arriving k /\ probed k' = probed k.
Proof. pose proof (tk_lib e k) as [L1 L2]. destruct (klib e k) as [x k']. by exists x, k'. Qed.

Lemma recv_v4_ok fuel seq dst t out g k :
  ready dst t -> Forall arrives (arriving k) -> (length (arriving k) + 1 < fuel)%nat ->
  returns dst (first_reply (sport t) (u16 (dport t + seq)) (arriving k)) t out k (run (recv_v4 fuel seq t out) g k).
Proof.
  intros Hr Hev Hf. unfold recv_v4. destruct (run_lib_same (Ealarm 3) k) as (x & k1 & E & E1 & E2).
  rewrite run_bind, run_lib, E. cbv beta iota zeta.
  apply (returns_next _ _ _ (with_alarm 0 t) _ out _ k1); [by destruct Hr|done|].
  rewrite <- E1. apply (recv_packets_run fuel seq dst (with_alarm 0 t)); [by destruct Hr|done|by rewrite E1..].
Qed.


(** recv_v4 attributes the replies correctly: whatever arrives at the raw
    socket before the alarm (short packets, errors about other programs' packets,
    other ICMP messages), it stays inside its buffer and returns the code of the
    first ICMP error that quotes a UDP datagram with the ports of the probe, or -3
    when the alarm comes first, and leaves the later packets unread; the remains
    of earlier packets in the buffer never count. *)
Theorem recv_v4_finds_reply fuel seq dst t out g k :
  ready dst t -> Forall arrives (arriving k) -> (length (arriving k) + 1 < fuel)%nat ->
  returns dst (first_reply (sport t) (u16 (dport t + seq)) (arriving k)) t out k (run (recv_v4 fuel seq t out) g k).
Proof. apply recv_v4_ok. Qed.

(** ** The probes *)

(** The datagram of probe [seq] with time to live [ttl]. *)
Definition is_probe (dst : list Z) (dp ttl seq : Z) (p : list Z * sockaddr) : Prop :=
  exists pad tv, length pad = 4%nat /\
    p = (store16 (u16 seq) ++ store16 (u16 ttl) ++ pad ++ store_timeval tv, SaIn (SockaddrIn (htons (u16 (dp + seq))) dst)).

Lemma fill_rec (buf : list Z) s1 s2 tv : Z.of_nat (length buf) = Ping.BUFSIZE -> length s1 = 2%nat -> length s2 = 2%nat -> length tv = 16%nat ->
  exists b0 b1 b2 pad tl, memcpy buf 0 s1 = Some b0 /\ memcpy b0 2 s2 = Some b1 /\ memcpy b1 8 tv = Some b2 /\
    b2 = (s1 ++ s2 ++ pad ++ tv) ++ tl /\ length pad = 4%nat /\ length b2 = length buf.
Proof.
  intros Hb H1 H2 Htv. unfold Ping.BUFSIZE in Hb.
  destruct buf as [|a0 [|a1 [|a2 [|a3 [|a4 [|a5 [|a6 [|a7 buf]]]]]]]]; cbn [length] in Hb; try lia.
  exists (s1 ++ [a2; a3; a4; a5; a6; a7] ++ buf), (s1 ++ s2 ++ [a4; a5; a6; a7] ++ buf),
    ((s1 ++ s2 ++ [a4; a5; a6; a7]) ++ tv ++ drop 16 buf), [a4; a5; a6; a7], (drop 16 buf).
  split; [apply (memcpy_app [] [a0; a1]); done|].
  split; [apply (memcpy_app s1 [a2; a3] ([a4; a5; a6; a7] ++ buf)); [by rewrite H1|done]|].
  split; [|split; [by rewrite <- !app_assoc|split; [done|rewrite !length_app, length_drop, H1, H2, Htv; cbn [length]; lia]]].
  replace (s1 ++ s2 ++ [a4; a5; a6; a7] ++ buf) with ((s1 ++ s2 ++ [a4; a5; a6; a7]) ++ take 16 buf ++ drop 16 buf)
    by (by rewrite take_drop, <- !app_assoc).
  apply memcpy_app; [rewrite !length_app, H1, H2; done|rewrite length_take; lia].
Qed.

Lemma show_reply_run code tv dst t out q g k :
  ready dst t -> inet_addr (sarecv t) q ->
  exists t' out' g' k', run (show_reply code (Some tv) t out) g k = (Done (t', out'), g', k') /\
    arriving k' = arriving k /\ probed k' = probed k /\ ready dst t' /\
    (sport t', dport t', nprobes t', max_ttl t') = (sport t, dport t, nprobes t, max_ttl t) /\
    marks out' = marks out ++ [true] /\ ttls out' = ttls out.
Proof.
  intros Hr Hq. unfold show_reply.
  assert (exists c, sock_cmp_addr (sarecv t) (salast t) (salen t) = Some c) as [c Ec].
  { destruct Hq as (port & a & b & x & d & _ & -> & _). unfold sock_cmp_addr.
    destruct (negb _); [by eexists|]. destruct (salast t); by eexists. }
  rewrite run_bind, run_mem, Ec. cbv beta iota.
  assert (forall t1 out1 g1 k1, ready dst t1 -> arriving k1 = arriving k -> probed k1 = probed k ->
    (sport t1, dport t1, nprobes t1, max_ttl t1) = (sport t, dport t, nprobes t, max_ttl t) ->
    marks out1 = marks out -> ttls out1 = ttls out ->
    exists t' out' g' k', run (tv0 ← mem (Some tv);
      rec_tv ← mem (asub (sendbuf t1) 8 16);
      let out2 := out1 ++ [ORtt (Ping.rtt_ms (tv_sub tv0 (load_timeval rec_tv)))] in
      Ret (t1, if code =? -1 then out2
           else if 0 <=? code then out2 ++ [OIcmp ((if v6 t1 then icmpcode_v6 else icmpcode_v4) code)]
           else out2)) g1 k1 = (Done (t', out'), g', k') /\
    arriving k' = arriving k /\ probed k' = probed k /\ ready dst t' /\
    (sport t', dport t', nprobes t', max_ttl t') = (sport t, dport t, nprobes t, max_ttl t) /\
    marks out' = marks out ++ [true] /\ ttls out' = ttls out) as Hend.
  { intros t1 out1 g1 k1 Hr1 A1 A2 A3 A4 A5.
    assert (exists b, asub (sendbuf t1) 8 16 = Some b) as [b Eb].
    { pose proof (rd_send _ _ Hr1). unfold Ping.BUFSIZE in *. unfold asub. zbool. by eexists. }
    rewrite run_bind, run_mem. cbv beta iota. rewrite run_bind, run_mem, Eb. cbv beta iota zeta.
    eexists _, _, _, _. split; [done|]. split_and!; try done; unfold marks, ttls in *.
    - rewrite <- A4. destruct (code =? -1); [|destruct (0 <=? code)]; by rewrite ?omap_app, ?app_nil_r.
    - rewrite <- A5. destruct (code =? -1); [|destruct (0 <=? code)]; by rewrite ?omap_app, ?app_nil_r. }
  destruct (negb _); [|by rewrite run_bind; apply Hend].
  rewrite run_bind, run_bind, run_lib. destruct (run_lib_same (Egetnameinfo (sarecv t) (salen t) 0) k) as (nm & k1 & E & E1 & E2). rewrite E.
  cbv beta iota. destruct (host_text_ok t q g k1 Hq (rd_static _ _ Hr)) as (a & st & Hs & Et). rewrite run_bind, Et. cbv beta iota.
  rewrite run_ret. cbv beta iota. apply Hend; try done.
  - by destruct Hr.
  - unfold marks. by rewrite omap_app, app_nil_r.
  - unfold ttls. by rewrite omap_app, app_nil_r.
Qed.

Lemma send_probe_run fuel ttl seq done dst t out g k :
  ready dst t -> Forall arrives (arriving k) -> (length (arriving k) + 1 < fuel)%nat ->
  let r := first_reply (sport t) (u16 (dport t + seq)) (arriving k) in
  exists t' out' g' k' p, run (send_probe fuel ttl seq done t out) g k =
      (Done (t', if r.1 =? -1 then done + 1 else done, out'), g', k') /\
    arriving k' = r.2 /\ probed k' = probed k ++ [p] /\ is_probe dst (dport t) ttl seq p /\ ready dst t' /\
    (sport t', dport t', nprobes t', max_ttl t') = (sport t, dport t, nprobes t, max_ttl t) /\
    marks out' = marks out ++ [negb (r.1 =? -3)] /\ ttls out' = ttls out.
Proof.
  intros Hr Hev Hf r. unfold send_probe.
  destruct (tk_time k) as (tv & k1 & T1 & T2 & Et).
  destruct (fill_rec (sendbuf t) (store16 (u16 seq)) (store16 (u16 ttl)) (store_timeval tv)) as (b0 & b1 & b2 & pad & tl & M1 & M2 & M3 & E2 & Hpad & L2);
    [apply Hr|apply store16_length..|apply store_timeval_length|].
  rewrite run_bind, run_mem, M1. cbv beta iota. rewrite run_bind, run_mem, M2. cbv beta iota.
  unfold Gettimeofday. rewrite run_bind, (checked_ok _ _ _ _ _ _ Et). cbv beta iota. rewrite run_bind, run_mem, M3. cbv beta iota zeta.
  set (sa := sock_set_port (sasend t) (salen t) (htons (u16 (dport t + seq)))). set (t1 := with_send b2 sa t).
  set (dg := store16 (u16 seq) ++ store16 (u16 ttl) ++ pad ++ store_timeval tv) in *.
  assert (length dg = 24%nat) as Hdg by (unfold dg; rewrite !length_app, !store16_length, Hpad, store_timeval_length; done).
  assert (asub b2 0 (datalen t1) = Some dg) as Ea.
  { change (datalen t1) with (datalen t). rewrite (rd_len _ _ Hr), E2. apply (asub_app [] dg tl); [done|by rewrite Hdg]. }
  rewrite run_bind, run_mem, Ea. cbv beta iota.
  destruct (tk_send k1 (sendfd t1) dg 0 (sasend t1) (salen t1)) as (k2 & S1 & S2 & Es).
  unfold Sendto, checked_count. rewrite run_bind, run_bind, run_call, Es. cbv beta iota. rewrite Z.eqb_refl, run_ret. cbv beta iota.
  assert (sa = SaIn (SockaddrIn (htons (u16 (dport t + seq))) dst)) as Esa.
  { destruct (rd_dst _ _ Hr) as (port & a & b & c & d & Eq & Ed & Hb). unfold sa. rewrite Ed. cbn [sock_set_port sin_addr].
    do 2 f_equal. apply u16_small, htons_range. }
  assert (ready dst t1) as Hr1.
  { destruct Hr as [? ? ? ? ? ? (port & a & b & c & d & Eq & Ed & Hb)]. split; try done; [cbn; congruence|].
    change (sasend t1) with sa. rewrite Esa. by exists (htons (u16 (dport t + seq))), a, b, c, d. }
  change (v6 t1) with (v6 t). rewrite (rd_v4 _ _ Hr). cbv iota.
  destruct (recv_v4_ok fuel seq dst t1 out g k2 Hr1) as (tvr & t2 & out2 & g3 & k3 & E3 & A3 & P3 & (Hr2 & Hs & Hm & Htt) & Hc);
    [by rewrite S1, T1..|].
  rewrite S1, T1 in E3, A3, Hc. change (sport t1) with (sport t) in *. change (dport t1) with (dport t) in *. fold r in E3, A3, Hc.
  rewrite run_bind, E3. cbv beta iota.
  assert (probed k2 = probed k ++ [(dg, sa)]) as Hpr by (by rewrite S2, T2).
  assert (is_probe dst (dport t) ttl seq (dg, sa)) as Hip by (exists pad, tv; by rewrite Esa).
  assert ((sport t2, dport t2, nprobes t2, max_ttl t2) = (sport t, dport t, nprobes t, max_ttl t)) as Hfix
    by (unfold setup in Hs; injection Hs; intros; cbn in *; congruence).
  destruct (Z.eqb_spec r.1 (-3)) as [Er|Er].
  - exists t2, (out2 ++ [OStar]), g3, k3, (dg, sa). rewrite Er. cbn [negb]. change (-3 =? -1) with false.
    split; [done|]. split_and!; try done; [congruence|unfold marks in *; by rewrite omap_app, Hm|unfold ttls in *; by rewrite omap_app, Htt, app_nil_r].
  - destruct (Hc Er) as [[tv' ->] [q Hq]]. destruct (show_reply_run r.1 tv' dst t2 out2 q g3 k3 Hr2 Hq)
      as (t4 & out4 & g4 & k4 & E4 & A4 & P4 & Hr4 & Hf4 & Hm4 & Ht4).
    rewrite run_bind, E4. cbv beta iota. exists t4, out4, g4, k4, (dg, sa). split; [done|]. cbn [negb].
    split_and!; try done; congruence.
Qed.

Lemma first_reply_rest sp dp evs : Forall arrives evs ->
  Forall arrives (first_reply sp dp evs).2 /\ (length (first_reply sp dp evs).2 <= length evs)%nat.
Proof.
  induction evs as [|[[bs sa]|] evs IH]; intros H; cbn [first_reply]; [done| |by apply Forall_cons in H as [_ H]; cbn; split; [|lia]].
  apply Forall_cons in H as [_ H]. destruct (classify sp dp bs); cbn; [split; [done|lia]|]. destruct (IH H). split; [done|lia].
Qed.

(** [new] are the probes after [seq], [np] for each time to live from [ttl]. *)
Definition are_probes dst dp (np : nat) (ttl seq : Z) (new : list (list Z * sockaddr)) : Prop :=
  forall i p, new !! i = Some p -> is_probe dst dp (ttl + Z.of_nat (i / np)) (seq + 1 + Z.of_nat i) p.

Definition fixed (t : trace) := (sport t, dport t, nprobes t, max_ttl t).

Lemma send_probes_run fuel n ttl seq done dst t out g k :
  ready dst t -> Forall arrives (arriving k) -> (length (arriving k) + 1 < fuel)%nat ->
  let r := probe_codes (sport t) (dport t) n seq (arriving k) in
  exists t' out' g' k' new, run (send_probes fuel n ttl seq done t out) g k =
      (Done (t', seq + Z.of_nat n, done + Z.of_nat (length (filter (eq (-1)) r.1)), out'), g', k') /\
    arriving k' = r.2 /\ Forall arrives (arriving k') /\ (length (arriving k') <= length (arriving k))%nat /\
    probed k' = probed k ++ new /\ length new = n /\ length r.1 = n /\
    (forall i p, new !! i = Some p -> is_probe dst (dport t) ttl (seq + 1 + Z.of_nat i) p) /\ ready dst t' /\ fixed t' = fixed t /\
    marks out' = marks out ++ ((fun c => negb (c =? -3)) <$> r.1) /\ ttls out' = ttls out.
Proof.
  revert seq done t out g k. induction n as [|n IH]; intros seq done t out g k Hr Hev Hf; cbn [send_probes probe_codes].
  { exists t, out, g, k, []. cbn [fst snd filter length fmap list_fmap]. rewrite !app_nil_r. change (Z.of_nat 0) with 0. rewrite !Z.add_0_r.
    split; [done|]. split_and!; done. }
  pose proof (send_probe_run fuel ttl (seq + 1) done dst t out g k Hr Hev Hf) as H1. cbv zeta in H1.
  set (r := first_reply _ _ (arriving k)) in *. destruct H1 as (t1 & out1 & g1 & k1 & p & E & A & P & Hp & Hr1 & Hfx & Hm & Ht).
  rewrite run_bind, E. cbv beta iota. destruct (first_reply_rest (sport t) (u16 (dport t + (seq + 1))) _ Hev) as [Hev1 Hl1]. fold r in Hev1, Hl1.
  set (d1 := if r.1 =? -1 then done + 1 else done).
  destruct (IH (seq + 1) d1 t1 out1 g1 k1 Hr1) as (t2 & out2 & g2 & k2 & new & E2 & A2 & Hev2 & Hl2 & P2 & Ln & Lc & Hn & Hr2 & Hf2 & Hm2 & Ht2);
    [by rewrite A|by rewrite A; lia|].
  injection Hfx as F1 F2 F3 F4. rewrite F1, F2, A in *. destruct (probe_codes _ _ n _ r.2) as [cs rest]. cbn [fst snd] in *.
  exists t2, out2, g2, k2, (p :: new). rewrite E2. split_and!; try done; try lia.
  - do 3 f_equal. unfold d1. replace (seq + 1 + Z.of_nat n) with (seq + Z.of_nat (S n)) by lia. do 2 f_equal.
    destruct (Z.eqb_spec r.1 (-1)) as [E1|E1]; [rewrite filter_cons_True by done; cbn [length]; lia|by rewrite filter_cons_False by congruence].
  - by rewrite P2, P, <- app_assoc.
  - cbn. lia.
  - cbn. lia.
  - intros [|i] x Hx; cbn in Hx; [injection Hx as <-; by rewrite Z.add_0_r|].
    replace (seq + 1 + Z.of_nat (S i)) with (seq + 1 + 1 + Z.of_nat i) by lia. by apply Hn.
  - unfold fixed in *. congruence.
  - by rewrite Hm2, Hm, <- app_assoc.
  - congruence.
Qed.

Lemma done_iff (cs : list Z) : Z.of_nat (length (filter (eq (-1)) cs)) = 0 <-> existsb (Z.eqb (-1)) cs = false.
Proof.
  induction cs as [|c cs IH]; [done|]. cbn [existsb]. destruct (Z.eqb_spec (-1) c) as [<-|Hne].
  - rewrite filter_cons_True by done. split; [cbn; lia|done].
  - by rewrite filter_cons_False by done.
Qed.

Lemma hops_run fuel n ttl seq dst t out g k :
  ready dst t -> Forall arrives (arriving k) -> (length (arriving k) + 1 < fuel)%nat -> 1 <= nprobes t ->
  let hs := path (sport t) (dport t) (Z.to_nat (nprobes t)) n seq (arriving k) in
  exists t' out' g' k' new, run (hops fuel n ttl seq 0 t out) g k = (Done (t', out'), g', k') /\
    probed k' = probed k ++ new /\ length new = (length hs * Z.to_nat (nprobes t))%nat /\
    are_probes dst (dport t) (Z.to_nat (nprobes t)) ttl seq new /\
    marks out' = marks out ++ ((fun c => negb (c =? -3)) <$> mjoin hs) /\ ttls out' = ttls out ++ seqZ ttl (Z.of_nat (length hs)).
Proof.
  revert ttl seq t out g k. induction n as [|n IH]; intros ttl seq t out g k Hr Hev Hf Hnp; cbn [hops path].
  { exists t, out, g, k, []. cbn. rewrite !app_nil_r. split; [done|]. split_and!; done. }
  change (negb (0 =? 0)) with false. cbv iota.
  destruct (tk_option k (sendfd t) (if v6 t then Ping.IPPROTO_IPV6 else IPPROTO_IP) (if v6 t then IPV6_UNICAST_HOPS else IP_TTL) (OInt ttl))
    as (k1 & A1 & P1 & E1). unfold Setsockopt. rewrite run_bind, (checked_ok_ _ _ _ _ _ _ E1). cbv beta iota.
  set (np := Z.to_nat (nprobes t)) in *. set (t0 := with_last (SaOther 0 []) t).
  destruct (send_probes_run fuel np ttl seq 0 dst t0 (out ++ [OTtl ttl]) g k1) as
    (t2 & out2 & g2 & k2 & new & E2 & A2 & Hev2 & Hl2 & P2 & Ln & Lc & Hn & Hr2 & Hf2 & Hm2 & Ht2);
    [by destruct Hr|by rewrite A1..|].
  rewrite run_bind, E2. cbv beta iota. change (sport t0) with (sport t) in *. change (dport t0) with (dport t) in *. rewrite A1 in *.
  destruct (probe_codes (sport t) (dport t) np seq (arriving k)) as [cs rest]. cbn [fst snd] in *.
  rewrite Z.add_0_l. injection Hf2 as F1 F2 F3 F4. cbn in F1, F2, F3, F4.
  pose proof (done_iff cs) as Hd. destruct (existsb (Z.eqb (-1)) cs) eqn:Ex.
  - assert (run (hops fuel n (ttl + 1) (seq + Z.of_nat np) (Z.of_nat (length (filter (eq (-1)) cs))) t2 (out2 ++ [ONewline])) g2 k2 =
      (Done (t2, out2 ++ [ONewline]), g2, k2)) as ->.
    { destruct n; [done|]. cbn [hops]. destruct (Z.eqb_spec (Z.of_nat (length (filter (eq (-1)) cs))) 0) as [E0|E0]; [by apply Hd in E0|done]. }
    exists t2, (out2 ++ [ONewline]), g2, k2, new. cbn [length mjoin list_join]. rewrite app_nil_r, Nat.mul_1_l. split; [done|].
    split_and!; try done; try congruence.
    + intros i p Hi. pose proof (lookup_lt_Some _ _ _ Hi). rewrite Nat.div_small, Z.add_0_r by lia. by apply Hn.
    + unfold marks in *. rewrite omap_app, Hm2, omap_app. cbn. by rewrite !app_nil_r.
    + unfold ttls in *. rewrite omap_app, Ht2, omap_app. cbn. by rewrite !app_nil_r.
  - rewrite (proj2 Hd eq_refl).
    destruct (IH (ttl + 1) (seq + Z.of_nat np) t2 (out2 ++ [ONewline]) g2 k2 Hr2) as (t3 & out3 & g3 & k3 & new3 & E3 & P3 & L3 & Hn3 & Hm3 & Ht3);
      [done|lia|lia|]. rewrite E3. rewrite F1, F2, F3, A2 in *. fold np in L3, Hn3, Hm3, Ht3. set (hs := path _ _ np n _ rest) in *.
    exists t3, out3, g3, k3, (new ++ new3). split; [done|]. cbn [length mjoin list_join].
    split_and!.
    + by rewrite P3, P2, P1, <- app_assoc.
    + rewrite length_app, Ln, L3. lia.
    + intros i p Hi. apply lookup_app_Some in Hi as [Hi|[Hge Hi]].
      * pose proof (lookup_lt_Some _ _ _ Hi). rewrite Nat.div_small, Z.add_0_r by lia. by apply Hn.
      * rewrite Ln in *. specialize (Hn3 _ _ Hi). replace (i / np)%nat with (S ((i - np) / np)).
        2: { replace i with (i - np + 1 * np)%nat at 2 by lia. rewrite Nat.div_add by lia. lia. }
        replace (ttl + Z.of_nat (S ((i - np) / np))) with (ttl + 1 + Z.of_nat ((i - np) / np)) by lia.
        replace (seq + 1 + Z.of_nat i) with (seq + Z.of_nat np + 1 + Z.of_nat (i - np)) by lia. done.
    + rewrite Hm3. unfold marks in *. rewrite !omap_app, Hm2, omap_app. cbn. by rewrite !app_nil_r, fmap_app, <- app_assoc.
    + rewrite Ht3. unfold ttls in *. rewrite !omap_app, Ht2, omap_app. cbn. rewrite app_nil_r, <- app_assoc. f_equal.
      rewrite (seqZ_cons ttl) by lia. cbn [app]. do 2 f_equal; lia.
Qed.

Lemma source_port me : is_u16 (Z.lor (Z.land me 0xffff) 0x8000).
Proof.
  assert (0 <= Z.land me 0xffff < 2 ^ 16) as Ha.
  { change 0xffff with (Z.ones 16). rewrite Z.land_ones by lia. by apply Z.mod_pos_bound. }
  assert (0 <= Z.lor (Z.land me 0xffff) 0x8000) as Hn by (apply Z.lor_nonneg; lia).
  split; [done|]. change 65536 with (2 ^ 16). apply Z.bounded_iff_bits_nonneg; [lia|done|].
  intros l Hl. rewrite Z.lor_spec.
  rewrite (proj1 (Z.bounded_iff_bits_nonneg 16 (Z.land me 0xffff) ltac:(lia) ltac:(lia)) ltac:(lia) l Hl).
  by rewrite (proj1 (Z.bounded_iff_bits_nonneg 16 0x8000 ltac:(lia) ltac:(lia)) ltac:(lia) l Hl).
Qed.

End Receive.

(** ** A system for the witness: a script of packets and alarms *)
Record net := Net { n_in : list arrival; n_out : list (list Z * sockaddr) }.

#[export] Instance net_kernel : Kernel net := {|
  kcall X e :=
    match e in sysE X return net -> res X * net with
    | Erecvfrom _ n _ => fun k =>
        (match head (n_in k) with
         | Some (Some (bs, sa)) => Ok (take (Z.to_nat n) bs, (sa, 16))
         | _ => Err EINTR
         end, Net (tail (n_in k)) (n_out k))
    | Esendto _ bs _ sa _ => fun k => (Ok (Z.of_nat (length bs)), Net (n_in k) (n_out k ++ [(bs, default (SaOther 0 []) sa)]))
    | Egettimeofday => fun k => (Ok (Timeval 1000 0), k)
    | Esocket _ t _ => fun k => (Ok t, k)
    | Ebind _ _ _ | Esetsockopt _ _ _ _ => fun k => (Ok tt, k)
    | _ => fun k => (Err ENOSYS, k)
    end;
  klib X e k := ((@klib unit (failing_kernel ENOSYS) _ e tt).1, k) |}.

#[export] Instance net_trace : TraceKernel net.
Proof. refine {| arriving := n_in; probed := n_out |}; intros; cbn; try done;
  first [by eexists; split_and!; [..|reflexivity] | by eexists _, _; split_and!; [..|reflexivity]].
Defined.

(** An ICMP error about the datagram from port 32768 to port [dp]. *)
Definition icmp_error (type code dp : Z) : list Z :=
  69 :: replicate 19 0 ++ [type; code; 0; 0; 0; 0; 0; 0] ++ (69 :: replicate 8 0 ++ 17 :: replicate 10 0) ++ be16 32768 ++ be16 dp.
Definition router (n : Z) : sockaddr := SaIn (SockaddrIn 0 [10; 0; 0; n]).

(** A router answers the first probe, nobody the second; an echo reply and an
    error about another probe arrive before the destination answers the third. *)
Definition net3 : net := Net
  [Some (icmp_error 11 0 33435, router 1); None; Some (69 :: replicate 27 0, router 7);
   Some (icmp_error 3 3 40000, router 7); Some (icmp_error 3 3 33437, router 9)] [].
Definition trace0 : trace :=
  State (replicate (Z.to_nat Ping.BUFSIZE) 0) (replicate (Z.to_nat Ping.BUFSIZE) 0) sizeof_rec 0 33434 1 30 1 0 0 false (router 9)
    (SaOther 0 []) (SaOther 0 []) 16 0 (replicate 128 0).

Lemma trace0_ready : ready [10; 0; 0; 9] trace0.
Proof. split; try by vm_compute. exists 0, 10, 0, 0, 9. by repeat split. Qed.
Lemma net3_arrives : Forall arrives (arriving net3).
Proof.
  assert (forall bs n, Z.of_nat (length bs) <= Ping.BUFSIZE -> forallb (fun b => (0 <=? b) && (b <? 256)) bs = true -> 0 <= n < 256 ->
    arrives (Some (bs, router n))) as H.
  { intros bs n Hl Hb Hn. split; [done|]. split.
    - apply Forall_forall. intros b Hin. apply list_elem_of_In in Hin. rewrite forallb_forall in Hb. apply Hb in Hin.
      unfold is_byte. lia.
    - exists [10; 0; 0; n], 0, 10, 0, 0, n. unfold V4.bytes4, is_byte. repeat split; lia. }
  repeat (apply Forall_cons; split); [apply H; by vm_compute|done|apply H; by vm_compute..|by apply Forall_nil].
Qed.

Lemma recv_v4_finds_reply_witness :
  returns [10; 0; 0; 9] (first_reply (sport trace0) (u16 (dport trace0 + 1)) (arriving net3)) trace0 [] net3
    (run (recv_v4 (H := sparc64) 10 1 trace0 []) globals0 net3).
Proof.
  refine (recv_v4_finds_reply (HP := sparc64) 10 1 [10; 0; 0; 9] trace0 [] globals0 net3 trace0_ready net3_arrives _).
  cbn. lia.
Defined.


(** The path of that run: a router, a silent hop, the destination. *)
Example net3_path : path 32768 33434 1 30 0 (arriving net3) = [[-2]; [-3]; [-1]].
Proof. by vm_compute. Qed.

(** recv_v6 returns a variable it has not set: after any ICMPv6 time exceeded
    message that is about another datagram the break, which is outside the if,
    leaves the loop, and ret is read without a value. *)
Theorem recv_v6_unset_ret :
  let pkt := 3 :: 0 :: replicate 50 0 in
  (run (recv_v6 (H := sparc64) 10 1 (with_socks 5 6 32768 trace0) []) globals0 (Net [Some (pkt, SaIn6 (SockaddrIn6 0 0 (replicate 16 0) 0))] [])).1.1
  = Halted Fault.
Proof. by vm_compute. Qed.
End TraceProofs.
