(* ===== verification/Route.v ===== *)
(** * Routing sockets: unpv13e/libroute and unpv13e/route/get_ifi_info.c

    sysctl returns a buffer of messages, each a header and a sequence of socket
    addresses of varying length; the functions of this library walk through the
    bytes.  The layout of the fields they read is FreeBSD's: a message starts
    with its length (2 bytes), version, type and the bits of the addresses that
    follow; a socket address starts with its length and family; a sockaddr_dl
    has its index at 2, the lengths of name and hardware address at 5 and 6 and
    both of them from 8 on.  The sizes of the two headers depend on the release
    and are parameters ([RouteLayout]).

    A buffer is the list of the bytes sysctl wrote: reading behind them is
    undefined behaviour.  An allocated block is its address and its contents. *)
From stdpp Require Import base list numbers strings gmap.
From S2P Require Import Prelude InetAddr Checksum Cnum Sys Error Wrap StreamIO SockAddr.
Import Cksum.

Class RouteLayout := {
  sizeof_if_msghdr : Z;
  sizeof_ifa_msghdr : Z;
  (** a header holds at least the fields read and a struct if_data *)
  if_msghdr_size : 32 <= sizeof_if_msghdr;
  ifa_msghdr_size : 16 <= sizeof_ifa_msghdr }.

Module Route.
Definition RTAX_MAX : nat := 8.
Definition RTAX_IFP : nat := 4.
Definition RTAX_IFA : nat := 5.
Definition RTAX_BRD : nat := 7.
Definition RTM_NEWADDR : Z := 0xc.
Definition RTM_IFINFO : Z := 0xe.
Definition CTL_NET : Z := 4.
Definition AF_ROUTE : Z := 17.
Definition NET_RT_DUMP : Z := 1.
Definition NET_RT_IFLIST : Z := 3.
Definition IFNAMSIZ : Z := 16.
Definition sizeof_u_long : Z := 8.

(** The 32-bit integer at [off]. *)
Definition aread32 `{Platform} (a : list Z) (off : Z) : option Z := bs ← asub a off 4; Some (load32 bs).

(** ** get_rtaddrs.c *)
Definition ROUNDUP (a size : Z) : Z := if Z.land a (size - 1) =? 0 then a else 1 + Z.lor a (size - 1).

Definition NEXT_SA (buf : list Z) (ap : Z) : option Z :=
  sa_len ← aread buf ap;
  Some (ap + (if sa_len =? 0 then sizeof_u_long else ROUNDUP sa_len sizeof_u_long)).

(** for (i = 0; i < RTAX_MAX; i++), with [k] rounds left: the rest of rti_info. *)
Fixpoint rtaddrs_loop (k : nat) (i addrs sa : Z) (buf : list Z) : option (list (option Z)) :=
  match k with
  | O => Some []
  | S k' =>
      if negb (Z.land addrs (Z.shiftl 1 i) =? 0) then
        sa1 ← NEXT_SA buf sa;
        rest ← rtaddrs_loop k' (i + 1) addrs sa1 buf;
        Some (Some sa :: rest)
      else
        rest ← rtaddrs_loop k' (i + 1) addrs sa buf;
        Some (None :: rest)
  end.
Definition get_rtaddrs (addrs sa : Z) (buf : list Z) : option (list (option Z)) := rtaddrs_loop RTAX_MAX 0 addrs sa buf.

(** ** net_rt_iflist.c and net_rt_dump.c *)
Definition mib (op family flags : Z) : list Z := [CTL_NET; AF_ROUTE; 0; family; op; flags].

Definition net_rt_iflist (family flags : Z) : prog (option (Z * list Z)) :=
  let m := mib NET_RT_IFLIST family flags in
  l ← call (Esysctl_len m);
  match l with
  | Err _ => Ret None
  | Ok len =>
      p ← call (Emalloc len);
      match p with
      | Err _ => Ret None
      | Ok buf =>
          r ← call (Esysctl_buf m len);
          match r with
          | Err _ => _ ← lib (Efree buf); Ret None
          | Ok bs => Ret (Some (buf, bs))
          end
      end
  end.

Definition Net_rt_iflist (family flags : Z) : prog (Z * list Z) :=
  r ← net_rt_iflist family flags;
  match r with None => err_sys (str "net_rt_iflist error") | Some b => Ret b end.

Definition net_rt_dump (family flags : Z) : prog (option (Z * list Z)) :=
  let m := mib NET_RT_DUMP family flags in
  l ← call (Esysctl_len m);
  match l with
  | Err _ => Ret None
  | Ok len =>
      p ← call (Emalloc len);
      match p with
      | Err _ => Ret None
      | Ok buf =>
          r ← call (Esysctl_buf m len);
          match r with
          | Err _ => Ret None
          | Ok bs => Ret (Some (buf, bs))
          end
      end
  end.

Definition Net_rt_dump (family flags : Z) : prog (Z * list Z) :=
  r ← net_rt_dump family flags;
  match r with None => err_sys (str "net_rt_dump error") | Some b => Ret b end.

(** ** sock_masktop.c: the string returned and the static array *)
Definition dots (l : list Z) : list Z :=
  match l with [] => [] | c :: l => fmt_d c ++ (l ≫= fun c => 46 :: fmt_d c) end.

Definition sock_masktop (sa static : list Z) : option (list Z * list Z) :=
  sa_len ← aread sa 0;
  if sa_len =? 0 then Some (str "0.0.0.0", static)
  else
    text ←
      (if sa_len =? 5 then p0 ← aread sa 4; Some (dots [p0; 0; 0; 0])
       else if sa_len =? 6 then p0 ← aread sa 4; p1 ← aread sa 5; Some (dots [p0; p1; 0; 0])
       else if sa_len =? 7 then p0 ← aread sa 4; p1 ← aread sa 5; p2 ← aread sa 6; Some (dots [p0; p1; p2; 0])
       else if sa_len =? 8 then
         p0 ← aread sa 4; p1 ← aread sa 5; p2 ← aread sa 6; p3 ← aread sa 7; Some (dots [p0; p1; p2; p3])
       else
         sa_family ← aread sa 1;
         Some (str "(unknown mask, len = " ++ fmt_d sa_len ++ str ", family = " ++ fmt_d sa_family ++ str ")"));
    a ← array_snprintf static 46 text;
    Some (cstring_at a 0, a).

(** ** if_nametoindex.c, if_indextoname.c, if_nameindex.c *)

(** for (next = buf; next < lim; next += ifm->ifm_msglen), with [fuel] messages at
    most; the body continues with a new state or returns. *)
Fixpoint for_msgs `{Platform} {A R} (fuel : nat) (buf : list Z) (next : Z) (body : Z -> A -> prog (A + R)) (a : A)
  : prog (A + R) :=
  if next <? Z.of_nat (length buf) then
    match fuel with
    | O => Halt Spin
    | S f =>
        r ← body next a;
        match r with
        | inr v => Ret (inr v)
        | inl a1 => ifm_msglen ← mem (aread16 buf next); for_msgs f buf (next + ifm_msglen) body a1
        end
    end
  else Ret (inl a).

(** The sockaddr_dl of the RTM_IFINFO message at [next], if it has one. *)
Definition if_link `{Platform} `{RouteLayout} (buf : list Z) (next : Z) : prog (option Z) :=
  ifm_type ← mem (aread buf (next + 3));
  if ifm_type =? RTM_IFINFO then
    ifm_addrs ← mem (aread32 buf (next + 4));
    rti_info ← mem (get_rtaddrs ifm_addrs (next + sizeof_if_msghdr) buf);
    match rti_info !! RTAX_IFP with
    | Some (Some sa) =>
        sa_family ← mem (aread buf (sa + 1));
        Ret (if sa_family =? AF_LINK then Some sa else None)
    | _ => Ret None
    end
  else Ret None.

(** strncmp: at most [n] characters, up to a NUL; a list ends with a NUL. *)
Fixpoint strncmp (n : nat) (s1 s2 : list Z) : Z :=
  match n with
  | O => 0
  | S n' =>
      let c1 := hd 0 s1 in let c2 := hd 0 s2 in
      if negb (c1 =? c2) then c1 - c2 else if c1 =? 0 then 0 else strncmp n' (tl s1) (tl s2)
  end.
(** strncpy: at most [n] bytes, and NULs up to [n]. *)
Definition strncpy (dst : list Z) (off : Z) (src : list Z) (n : Z) : option (list Z) :=
  let s := until_nul (take (Z.to_nat n) src) in
  memcpy dst off (s ++ replicate (Z.to_nat n - length s) 0).

Definition if_nametoindex `{Platform} `{RouteLayout} (fuel : nat) (name : list Z) : prog Z :=
  b ← net_rt_iflist 0 0;
  match b with
  | None => Ret 0
  | Some (p, buf) =>
      let namelen := Z.of_nat (length name) in
      r ← for_msgs fuel buf 0 (fun next (_ : unit) =>
        s ← if_link buf next;
        match s with
        | None => Ret (inl tt)
        | Some sdl =>
            sdl_nlen ← mem (aread buf (sdl + 5));
            if sdl_nlen =? namelen then
              sdl_data ← mem (asub buf (sdl + 8) sdl_nlen);
              if strncmp (Z.to_nat sdl_nlen) sdl_data name =? 0 then
                idx ← mem (aread16 buf (sdl + 2)); Ret (inr idx)
              else Ret (inl tt)
            else Ret (inl tt)
        end) tt;
      _ ← lib (Efree p);
      Ret (match r with inr idx => idx | inl _ => 0 end)
  end.

Definition If_nametoindex `{Platform} `{RouteLayout} (fuel : nat) (name : list Z) : prog Z :=
  idx ← if_nametoindex fuel name;
  if idx =? 0 then err_quit (str "if_nametoindex error for " ++ name) else Ret idx.

(** [name] is the caller's array; the array, or NULL. *)
Definition if_indextoname `{Platform} `{RouteLayout} (fuel : nat) (idx : Z) (name : list Z) : prog (option (list Z)) :=
  b ← net_rt_iflist 0 idx;
  match b with
  | None => Ret None
  | Some (p, buf) =>
      r ← for_msgs fuel buf 0 (fun next (_ : unit) =>
        s ← if_link buf next;
        match s with
        | None => Ret (inl tt)
        | Some sdl =>
            sdl_index ← mem (aread16 buf (sdl + 2));
            if sdl_index =? idx then
              sdl_nlen ← mem (aread buf (sdl + 5));
              let slen := Z.min (IFNAMSIZ - 1) sdl_nlen in
              sdl_data ← mem (asub buf (sdl + 8) slen);
              n1 ← mem (strncpy name 0 sdl_data slen);
              n2 ← mem (awrite n1 slen 0);
              Ret (inr n2)
            else Ret (inl tt)
        end) tt;
      _ ← lib (Efree p);
      Ret (match r with inr n => Some n | inl _ => None end)
  end.

Definition If_indextoname `{Platform} `{RouteLayout} (fuel : nat) (idx : Z) (name : list Z) : prog (list Z) :=
  ptr ← if_indextoname fuel idx name;
  match ptr with
  | None => err_quit (str "if_indextoname error for " ++ fmt_d idx)
  | Some n => Ret n
  end.

(** struct if_nameindex: a pointer and an unsigned int, 16 bytes. *)
Definition sizeof_if_nameindex : Z := 16.
Definition put_nameindex `{Platform} (blk : list Z) (ifptr if_name if_index : Z) : option (list Z) :=
  b1 ← memcpy blk ifptr (store64 if_name);
  memcpy b1 (ifptr + 8) (store32 if_index).

(** The block that is returned: its address and its bytes.  The array of structures
    grows up from its start, the names grow down from its end; what malloc left
    in it is never read. *)
Definition if_nameindex `{Platform} `{RouteLayout} (fuel : nat) : prog (option (Z * list Z)) :=
  b ← net_rt_iflist 0 0;
  match b with
  | None => Ret None
  | Some (p, buf) =>
      let len := Z.of_nat (length buf) in
      m ← call (Emalloc len);
      match m with
      | Err _ => Ret None
      | Ok result =>
          r ← for_msgs (R := Empty_set) fuel buf 0 (fun next '(blk, ifptr, namptr) =>
            s ← if_link buf next;
            match s with
            | None => Ret (inl (blk, ifptr, namptr))
            | Some sdl =>
                sdl_nlen ← mem (aread buf (sdl + 5));
                let namptr1 := namptr - (sdl_nlen + 1) in
                sdl_data ← mem (asub buf (sdl + 8) sdl_nlen);
                b1 ← mem (strncpy blk namptr1 sdl_data sdl_nlen);
                b2 ← mem (awrite b1 (namptr1 + sdl_nlen) 0);
                sdl_index ← mem (aread16 buf (sdl + 2));
                b3 ← mem (put_nameindex b2 ifptr (result + namptr1) sdl_index);
                Ret (inl (b3, ifptr + sizeof_if_nameindex, namptr1))
            end) (replicate (Z.to_nat len) 0, 0, len);
          match r with
          | inr v => match (v : Empty_set) with end                  (* the loop has no return *)
          | inl (blk, ifptr, _) =>
              blk1 ← mem (put_nameindex blk ifptr 0 0);
              _ ← lib (Efree p);
              Ret (Some (result, blk1))
          end
      end
  end.

Definition if_freenameindex (ptr : Z) : prog unit := lib (Efree ptr).

Definition If_nameindex `{Platform} `{RouteLayout} (fuel : nat) : prog (Z * list Z) :=
  r ← if_nameindex fuel;
  match r with None => err_quit (str "if_nameindex error") | Some b => Ret b end.
End Route.
