(* ===== verification/RouteProofs.v ===== *)
(** * The routing socket functions read what the kernel wrote

    A message is encoded as the kernel does it: a header with the length, the type
    and the bits of the addresses present, then the addresses, each padded to a
    multiple of eight bytes.  The functions of libroute find the addresses of
    every such message, translate interface names and indexes into each other,
    and list the interfaces inside one block of memory. *)
From stdpp Require Import base list numbers strings gmap.
From S2P Require Import Prelude InetAddr InetV4 Checksum Cnum Sys Error Wrap StreamIO SockAddr Bytes Route.
Import Cksum Route.

Module RouteProofs.

(** ** The encoding *)

(** An address is padded to a multiple of eight bytes. *)
Definition pad8 (n : nat) : nat := Z.to_nat ((8 - Z.of_nat n mod 8) mod 8).
Definition padded (a : list Z) : list Z := a ++ replicate (pad8 (length a)) 0.
(** Its first byte is its length, or 0 in an address of at most eight bytes. *)
Definition addr_ok (a : list Z) : Prop :=
  exists l, a !! 0%nat = Some l /\ is_byte l /\ (l = Z.of_nat (length a) \/ (l = 0 /\ (length a <= 8)%nat)).

Fixpoint bits (slots : list (option (list Z))) : Z :=
  match slots with
  | [] => 0
  | s :: slots => (match s with Some _ => 1 | None => 0 end) + 2 * bits slots
  end.
Definition enc_slots (slots : list (option (list Z))) : list Z :=
  slots ≫= fun s => match s with Some a => padded a | None => [] end.

(** Where the addresses are, the first at [sa]. *)
Fixpoint offsets (sa : Z) (slots : list (option (list Z))) : list (option Z) :=
  match slots with
  | [] => []
  | None :: slots => None :: offsets sa slots
  | Some a :: slots => Some sa :: offsets (sa + Z.of_nat (length (padded a))) slots
  end.

Lemma land_bit a i : 0 <= i -> (Z.land a (Z.shiftl 1 i) =? 0) = negb (Z.testbit a i).
Proof.
  intros Hi. assert (Z.land a (Z.shiftl 1 i) = if Z.testbit a i then 2 ^ i else 0) as ->.
  { apply Z.bits_inj'. intros m Hm. rewrite Z.land_spec, Z.shiftl_1_l, Z.pow2_bits_eqb by done.
    destruct (Z.eqb_spec i m) as [->|Hne].
    - destruct (Z.testbit a m); [by rewrite Z.pow2_bits_true|by rewrite Z.bits_0].
    - rewrite andb_false_r. destruct (Z.testbit a i); [by rewrite Z.pow2_bits_false|by rewrite Z.bits_0]. }
  destruct (Z.testbit a i); [|done]. apply Z.eqb_neq. pose proof (Z.pow_pos_nonneg 2 i). lia.
Qed.

Lemma bits_range slots : 0 <= bits slots < 2 ^ Z.of_nat (length slots).
Proof.
  induction slots as [|s slots IH]; cbn [bits length]; [lia|]. rewrite Nat2Z.inj_succ, Z.pow_succ_r by lia. destruct s; lia.
Qed.

Lemma bits_testbit slots (i : nat) : Z.testbit (bits slots) (Z.of_nat i) = match slots !! i with Some (Some _) => true | _ => false end.
Proof.
  revert i. induction slots as [|s slots IH]; intros [|i]; cbn [bits]; try by rewrite Z.bits_0.
  - destruct s; [by rewrite Z.add_comm, Z.testbit_odd_0|]. by rewrite Z.add_0_l, Z.testbit_even_0.
  - rewrite Nat2Z.inj_succ. destruct s; [rewrite Z.add_comm, Z.testbit_odd_succ by lia|rewrite Z.add_0_l, Z.testbit_even_succ by lia]; apply IH.
Qed.

Lemma roundup_pad l : is_byte l -> ROUNDUP l 8 = l + (8 - l mod 8) mod 8.
Proof.
  intros Hl. assert (forallb (fun l => ROUNDUP l 8 =? l + (8 - l mod 8) mod 8) (seqZ 0 256) = true) as H by (by vm_compute).
  rewrite forallb_forall in H. apply Z.eqb_eq, H, list_elem_of_In, elem_of_seqZ. unfold is_byte in Hl. lia.
Qed.

Lemma next_sa pre a post sa : addr_ok a -> sa = Z.of_nat (length pre) ->
  NEXT_SA (pre ++ padded a ++ post) sa = Some (sa + Z.of_nat (length (padded a))).
Proof.
  intros (l & Hl & Hb & Hlen) ->. unfold NEXT_SA. destruct a as [|l' a]; [done|]. injection Hl as ->.
  unfold padded at 1. cbn [app]. rewrite aread_app by done. cbn [mbind option_bind].
  unfold padded. rewrite length_app, length_replicate. unfold pad8. set (n := length (l :: a)) in *. do 2 f_equal.
  assert (1 <= Z.of_nat n) by (unfold n; cbn; lia). clearbody n. unfold sizeof_u_long.
  pose proof (Z.mod_pos_bound (8 - Z.of_nat n mod 8) 8).
  destruct (Z.eqb_spec l 0) as [->|Hl0].
  - destruct Hlen as [|[_ Hlen]]; [lia|]. rewrite Nat2Z.inj_add, Z2Nat.id by lia. Z.div_mod_to_equations. lia.
  - destruct Hlen as [->|[-> _]]; [|done]. rewrite roundup_pad by done. lia.
Qed.

Lemma rtaddrs_loop_run slots : forall n i addrs pre post sa,
  n = length slots -> 0 <= i -> sa = Z.of_nat (length pre) ->
  (forall j, (j < n)%nat -> Z.testbit addrs (i + Z.of_nat j) = match slots !! j with Some (Some _) => true | _ => false end) ->
  (forall a, Some a ∈ slots -> addr_ok a) ->
  rtaddrs_loop n i addrs sa (pre ++ enc_slots slots ++ post) = Some (offsets sa slots).
Proof.
  induction slots as [|s slots IH]; intros n i addrs pre post sa -> Hi Hsa Hbits Hok; [done|]. cbn [length rtaddrs_loop].
  pose proof (Hbits 0%nat ltac:(cbn; lia)) as H0. cbn in H0. rewrite Z.add_0_r in H0. rewrite land_bit, H0, negb_involutive by done.
  assert (forall j, (j < length slots)%nat -> Z.testbit addrs (i + 1 + Z.of_nat j) =
    match slots !! j with Some (Some _) => true | _ => false end) as Hb'.
  { intros j Hj. pose proof (Hbits (S j) ltac:(cbn; lia)) as H. 
    trans (Z.testbit addrs (i + Z.of_nat (S j))); [f_equal; lia|exact H]. }
  assert (forall a, Some a ∈ slots -> addr_ok a) as Hok' by (intros a Ha; apply Hok; by right).
  destruct s as [a|]; cbn [enc_slots mbind list_bind offsets].
  - rewrite <- app_assoc, next_sa by (done || apply Hok; left). cbn [mbind option_bind].
    rewrite (app_assoc pre). rewrite (IH _ (i + 1) addrs (pre ++ padded a) post) by (done || lia || rewrite length_app; lia). done.
  - rewrite (IH _ (i + 1) addrs pre post) by (done || lia). done.
Qed.

(** ** Messages *)

(** An interface, and the sockaddr_dl that describes it. *)
Record iface := Iface { i_index : Z; i_name : list Z; i_type : Z; i_hw : list Z }.
Definition sdl_length (i : iface) : Z := 8 + Z.of_nat (length (i_name i)) + Z.of_nat (length (i_hw i)).
Definition enc_sdl `{Platform} (i : iface) : list Z :=
  [sdl_length i; AF_LINK] ++ store16 (i_index i) ++
  [i_type i; Z.of_nat (length (i_name i)); Z.of_nat (length (i_hw i)); 0] ++ i_name i ++ i_hw i.

Record iface_ok (i : iface) : Prop := {
  io_index : is_u16 (i_index i);
  io_name : Forall (fun c => c <> 0) (i_name i);
  io_len : sdl_length i < 256 }.

(** A message: its type, the rest of its header, the addresses before and after
    that of the interface, and the interface. *)
Record rmsg := Rmsg {
  m_type : Z; m_rest : list Z; m_before : list (option (list Z)); m_ifp : option iface; m_after : list (option (list Z)) }.
Definition slots `{Platform} (m : rmsg) : list (option (list Z)) := m_before m ++ (enc_sdl <$> m_ifp m) :: m_after m.

Section Encode.
Context `{HP : Platform} `{HL : RouteLayout}.

Definition body_of (m : rmsg) : list Z := store32 (bits (slots m)) ++ m_rest m ++ enc_slots (slots m).
Definition msglen (m : rmsg) : Z := 4 + Z.of_nat (length (body_of m)).
Definition enc_msg (m : rmsg) : list Z := store16 (msglen m) ++ [5; m_type m] ++ body_of m.
Definition enc_msgs (ms : list rmsg) : list Z := ms ≫= enc_msg.

(** The interface of a message about an interface. *)
Definition iface_of (m : rmsg) : option iface := if m_type m =? RTM_IFINFO then m_ifp m else None.
Definition ifaces (ms : list rmsg) : list iface := omap iface_of ms.

Record msg_ok (m : rmsg) : Prop := {
  mo_len : msglen m < 65536;
  mo_hdr : m_type m = RTM_IFINFO -> 8 + Z.of_nat (length (m_rest m)) = sizeof_if_msghdr;
  mo_before : length (m_before m) = 4%nat;
  mo_after : length (m_after m) = 3%nat;
  mo_addrs : forall a, Some a ∈ m_before m ++ m_after m -> addr_ok a;
  mo_ifp : forall i, m_ifp m = Some i -> iface_ok i }.

Lemma store32_length z : length (store32 z) = 4%nat.
Proof. unfold store32. by rewrite host_order_length, le_bytes_length. Qed.
Lemma enc_msg_length m : Z.of_nat (length (enc_msg m)) = msglen m.
Proof. unfold enc_msg, msglen. rewrite !length_app, store16_length. cbn [length]. lia. Qed.
Lemma msglen_min m : 8 + Z.of_nat (length (m_rest m)) + Z.of_nat (length (enc_slots (slots m))) = msglen m.
Proof. unfold msglen, body_of. rewrite !length_app, store32_length. lia. Qed.
Lemma enc_sdl_length i : Z.of_nat (length (enc_sdl i)) = sdl_length i.
Proof. unfold enc_sdl, sdl_length. rewrite !length_app, store16_length. cbn [length]. lia. Qed.

Lemma enc_sdl_ok i : iface_ok i -> addr_ok (enc_sdl i).
Proof.
  intros [_ _ Hl]. exists (sdl_length i). split; [done|]. split; [|left; by rewrite enc_sdl_length].
  unfold is_byte. split; [unfold sdl_length; lia|done].
Qed.

Lemma slots_ok m a : msg_ok m -> Some a ∈ slots m -> addr_ok a.
Proof.
  intros Hm Ha. unfold slots in Ha. rewrite elem_of_app, elem_of_cons in Ha. destruct Ha as [Ha|[Ha|Ha]].
  - apply (mo_addrs _ Hm). apply elem_of_app. by left.
  - destruct (m_ifp m) as [i|] eqn:E; [|done]. injection Ha as ->. apply enc_sdl_ok. by apply (mo_ifp _ Hm).
  - apply (mo_addrs _ Hm). apply elem_of_app. by right.
Qed.

(** Finding the address of the interface in a list of slots. *)
Lemma offsets_lookup sa sl1 sl2 a : exists mid,
  offsets sa (sl1 ++ Some a :: sl2) !! length sl1 = Some (Some (sa + Z.of_nat (length mid))) /\
  enc_slots (sl1 ++ Some a :: sl2) = mid ++ padded a ++ enc_slots sl2.
Proof.
  revert sa. induction sl1 as [|[b|] sl1 IH]; intros sa; cbn [app offsets length].
  - exists []. cbn. by rewrite Z.add_0_r.
  - destruct (IH (sa + Z.of_nat (length (padded b)))) as (mid & H1 & H2). exists (padded b ++ mid).
    split; [etransitivity; [exact H1|do 2 f_equal; rewrite length_app; lia]|].
    unfold enc_slots in *. cbn [mbind list_bind]. rewrite H2, <- app_assoc. done.
  - destruct (IH sa) as (mid & H1 & H2). exists mid. by split.
Qed.
Lemma offsets_none sa sl1 sl2 : offsets sa (sl1 ++ None :: sl2) !! length sl1 = Some None.
Proof. revert sa. induction sl1 as [|[b|] sl1 IH]; intros sa; [done| |]; cbn; apply IH. Qed.

Lemma slots_length m : msg_ok m -> length (slots m) = 8%nat.
Proof. intros Hm. unfold slots. rewrite length_app. cbn. by rewrite (mo_before _ Hm), (mo_after _ Hm). Qed.

(** get_rtaddrs on the addresses of a message. *)
Lemma get_rtaddrs_slots m pre post sa : msg_ok m -> sa = Z.of_nat (length pre) ->
  get_rtaddrs (bits (slots m)) sa (pre ++ enc_slots (slots m) ++ post) = Some (offsets sa (slots m)).
Proof.
  intros Hm Hsa. unfold get_rtaddrs. apply rtaddrs_loop_run; try done.
  - by rewrite slots_length.
  - intros j Hj. rewrite Z.add_0_l. apply bits_testbit.
  - intros a. by apply slots_ok.
Qed.

Lemma bits_u32 m : msg_ok m -> is_u32 (bits (slots m)).
Proof.
  intros Hm. pose proof (bits_range (slots m)) as H. rewrite slots_length in H by done. change (2 ^ Z.of_nat 8) with 256 in H. unfold is_u32. lia.
Qed.

Lemma aread32_app l w r off : is_u32 w -> off = Z.of_nat (length l) -> aread32 (l ++ store32 w ++ r) off = Some w.
Proof.
  intros Hw ->. unfold aread32. rewrite asub_app by (done || by rewrite store32_length). cbn [mbind option_bind].
  by rewrite load32_store32.
Qed.

(** A message in the buffer, and where its fields are. *)
Section Message.
Context (m : rmsg) (pre post : list Z) (Hm : msg_ok m).
Let buf := pre ++ enc_msg m ++ post.
Let next := Z.of_nat (length pre).

Lemma msg_len : aread16 buf next = Some (msglen m).
Proof.
  unfold buf, enc_msg. rewrite <- !app_assoc. apply aread16_app; [|done].
  split; [pose proof (msglen_min m); lia|apply (mo_len _ Hm)].
Qed.
Lemma msg_type : aread buf (next + 3) = Some (m_type m).
Proof.
  unfold buf, enc_msg. rewrite <- !app_assoc. change ([5; m_type m] ++ ?x) with ([5] ++ m_type m :: x).
  rewrite (app_assoc _ [5]), (app_assoc pre). apply aread_app. rewrite !length_app, store16_length. cbn. lia.
Qed.
Lemma msg_addrs : aread32 buf (next + 4) = Some (bits (slots m)).
Proof.
  unfold buf, enc_msg, body_of. rewrite <- !app_assoc, (app_assoc _ [5; m_type m]), (app_assoc pre).
  apply aread32_app; [by apply bits_u32|]. rewrite !length_app, store16_length. cbn. lia.
Qed.

Context {K : Type} `{HK : !Kernel K}.

Lemma if_link_run g (k : K) :
  match iface_of m with
  | None => run (if_link buf next) g k = (Done None, g, k)
  | Some i => exists l r, run (if_link buf next) g k = (Done (Some (Z.of_nat (length l))), g, k) /\
      buf = l ++ enc_sdl i ++ r
  end.
Proof.
  unfold if_link, iface_of. rewrite (run_mem_then _ _ _ _ _ msg_type).
  destruct (Z.eqb_spec (m_type m) RTM_IFINFO) as [Et|Et]; [|done].
  rewrite (run_mem_then _ _ _ _ _ msg_addrs).
  set (hdr := pre ++ store16 (msglen m) ++ [5; m_type m] ++ store32 (bits (slots m)) ++ m_rest m).
  assert (buf = hdr ++ enc_slots (slots m) ++ post) as Eb by (unfold buf, hdr, enc_msg, body_of; by rewrite <- !app_assoc).
  assert (next + sizeof_if_msghdr = Z.of_nat (length hdr)) as Eh.
  { unfold hdr. rewrite !length_app, store16_length, store32_length. cbn [length]. pose proof (mo_hdr _ Hm Et). lia. }
  rewrite Eh, (run_mem_then _ (offsets (Z.of_nat (length hdr)) (slots m))) by (rewrite Eb; by apply get_rtaddrs_slots).
  unfold slots. destruct (m_ifp m) as [i|] eqn:Ei; cbn [fmap option_fmap option_map].
  - destruct (offsets_lookup (Z.of_nat (length hdr)) (m_before m) (m_after m) (enc_sdl i)) as (mid & E1 & E2).
    rewrite (mo_before _ Hm) in E1. change RTAX_IFP with 4%nat. rewrite E1. rewrite <- Nat2Z.inj_add, <- length_app.
    set (l := hdr ++ mid).
    assert (buf = l ++ enc_sdl i ++ (replicate (pad8 (length (enc_sdl i))) 0 ++ enc_slots (m_after m) ++ post)) as Eb2.
    { rewrite Eb. unfold slots. rewrite Ei. cbn [fmap option_fmap option_map]. rewrite E2. unfold padded, l. by rewrite <- !app_assoc. }
    exists l, (replicate (pad8 (length (enc_sdl i))) 0 ++ enc_slots (m_after m) ++ post). split; [|done].
    rewrite (run_mem_then _ AF_LINK).
    2: { rewrite Eb2. unfold enc_sdl. cbn [app].
         match goal with |- aread (l ++ ?a :: ?b :: ?x) _ = _ => replace (l ++ a :: b :: x) with ((l ++ [a]) ++ b :: x) by (by rewrite <- app_assoc) end.
         apply aread_app. rewrite length_app. cbn. lia. }
    done.
  - pose proof (offsets_none (Z.of_nat (length hdr)) (m_before m) (m_after m)) as E1. rewrite (mo_before _ Hm) in E1.
    change RTAX_IFP with 4%nat. by rewrite E1.
Qed.
End Message.

(** The fields of the description of an interface. *)
Lemma sdl_fields i l r : iface_ok i -> let buf := l ++ enc_sdl i ++ r in let sdl := Z.of_nat (length l) in
  aread16 buf (sdl + 2) = Some (i_index i) /\ aread buf (sdl + 5) = Some (Z.of_nat (length (i_name i))) /\
  asub buf (sdl + 8) (Z.of_nat (length (i_name i))) = Some (i_name i).
Proof.
  intros Hi. cbv zeta. unfold enc_sdl. rewrite <- !app_assoc, (app_assoc l). set (l2 := l ++ [_; _]).
  assert (Z.of_nat (length l2) = Z.of_nat (length l) + 2) as H2 by (unfold l2; rewrite length_app; cbn; lia).
  split; [apply aread16_app; [apply Hi|lia]|]. rewrite (app_assoc l2). set (l4 := l2 ++ _).
  assert (Z.of_nat (length l4) = Z.of_nat (length l) + 4) as H4 by (unfold l4; rewrite length_app, store16_length; lia).
  split.
  - change ([i_type i; ?n; ?h; 0] ++ ?x) with ([i_type i] ++ n :: [h; 0] ++ x). rewrite (app_assoc l4).
    apply aread_app. rewrite length_app. cbn. lia.
  - rewrite (app_assoc l4). apply asub_app; [|done]. rewrite length_app. cbn. lia.
Qed.

Lemma sdl_alen i l r : aread (l ++ enc_sdl i ++ r) (Z.of_nat (length l) + 6) = Some (Z.of_nat (length (i_hw i))).
Proof.
  unfold enc_sdl. set (a := Z.of_nat (length (i_hw i))). set (b := Z.of_nat (length (i_name i))).
  replace (l ++ ([sdl_length i; AF_LINK] ++ store16 (i_index i) ++ [i_type i; b; a; 0] ++ i_name i ++ i_hw i) ++ r)
    with ((l ++ [sdl_length i; AF_LINK] ++ store16 (i_index i) ++ [i_type i; b]) ++ a :: 0 :: i_name i ++ i_hw i ++ r)
    by (by rewrite <- !app_assoc).
  apply aread_app. rewrite !length_app, store16_length. cbn. lia.
Qed.

Lemma enc_msgs_app ms1 ms2 : enc_msgs (ms1 ++ ms2) = enc_msgs ms1 ++ enc_msgs ms2.
Proof. apply bind_app. Qed.

(** ** The walk over the messages *)
Fixpoint walk {A R} (step : rmsg -> A -> A + R) (ms : list rmsg) (a : A) : A + R :=
  match ms with
  | [] => inl a
  | m :: ms => match step m a with inl a1 => walk step ms a1 | inr v => inr v end
  end.

Section Walk.
Context {K : Type} `{HK : !Kernel K} {A R : Type}.
Context (body : Z -> A -> prog (A + R)) (all : list rmsg) (g : globals) (k : K).
Hypothesis Hall : Forall msg_ok all.

(** [P pre a] holds of the state [a] after the messages [pre]. *)
Lemma for_msgs_inv (P : list rmsg -> A -> Prop) (Q : R -> Prop) :
  (forall pre m post a, all = pre ++ m :: post -> msg_ok m -> P pre a ->
     exists r, run (body (Z.of_nat (length (enc_msgs pre))) a) g k = (Done r, g, k) /\
       match r with inl a1 => P (pre ++ [m]) a1 | inr v => Q v end) ->
  forall ms pre fuel a, all = pre ++ ms -> (length ms <= fuel)%nat -> P pre a ->
  exists r, run (for_msgs fuel (enc_msgs all) (Z.of_nat (length (enc_msgs pre))) body a) g k = (Done r, g, k) /\
    match r with inl a1 => P all a1 | inr v => Q v end.
Proof.
  intros Hbody ms. induction ms as [|m ms IH]; intros pre fuel a Eall Hf HP0.
  { rewrite app_nil_r in Eall. subst pre. exists (inl a). split; [|done]. destruct fuel; cbn [for_msgs]; by rewrite Z.ltb_irrefl. }
  assert (msg_ok m) as Hm by (rewrite Eall in Hall; apply Forall_app in Hall as [_ H]; by apply Forall_cons in H as [H _]).
  assert (enc_msgs all = enc_msgs pre ++ enc_msg m ++ enc_msgs ms) as Eb by (rewrite Eall, enc_msgs_app; done).
  destruct fuel as [|fuel]; cbn [length] in Hf; [lia|]. cbn [for_msgs].
  assert (Z.of_nat (length (enc_msgs pre)) < Z.of_nat (length (enc_msgs all))) as Hlt.
  { pose proof (enc_msg_length m). pose proof (msglen_min m). rewrite Eb, !length_app. lia. }
  destruct (Hbody pre m ms a Eall Hm HP0) as (r & E & Hr). rewrite (proj2 (Z.ltb_lt _ _) Hlt), run_bind, E. cbv beta iota.
  destruct r as [a1|v]; [|by exists (inr v)].
  rewrite (run_mem_then _ (msglen m)) by (rewrite Eb; by apply msg_len).
  destruct (IH (pre ++ [m]) fuel a1) as (r & E2 & Hr2); [by rewrite <- app_assoc|lia|done|]. exists r. split; [|done]. rewrite <- E2. do 2 f_equal.
  rewrite enc_msgs_app, length_app. cbn [enc_msgs mbind list_bind]. rewrite app_nil_r, <- enc_msg_length. lia.
Qed.

Lemma for_msgs_run (step : rmsg -> A -> A + R) fuel a0 :
  (forall pre m post a, all = pre ++ m :: post -> msg_ok m ->
     run (body (Z.of_nat (length (enc_msgs pre))) a) g k = (Done (step m a), g, k)) ->
  (length all <= fuel)%nat ->
  run (for_msgs fuel (enc_msgs all) 0 body a0) g k = (Done (walk step all a0), g, k).
Proof.
  intros Hbody Hf.
  destruct (for_msgs_inv (fun pre a => forall ms, all = pre ++ ms -> walk step all a0 = walk step ms a)
    (fun v => walk step all a0 = inr v)) with (ms := all) (pre := @nil rmsg) (fuel := fuel) (a := a0) as (r & E & Hr); try done.
  - intros pre m post a Eall Hm HI. exists (step m a). split; [by apply (Hbody _ _ post)|].
    pose proof (HI (m :: post) Eall) as Hw. cbn [walk] in Hw. destruct (step m a); [|done].
    intros ms Ems. assert (ms = post) as ->; [|done]. rewrite Eall, <- app_assoc in Ems. cbn [app] in Ems. apply app_inv_head in Ems. by injection Ems.
  - by intros ms ->.
  - change (Z.of_nat (length (enc_msgs []))) with 0 in E. rewrite E. do 3 f_equal. destruct r as [a1|v]; [|by rewrite Hr]. by rewrite (Hr [] (eq_sym (app_nil_r all))).
Qed.
End Walk.

(** The walk of the functions below looks only at the interfaces. *)
Lemma walk_find {R} (p : iface -> bool) (f : iface -> R) ms :
  walk (fun m (_ : unit) => match iface_of m with
                  | Some i => if p i then inr (f i) else inl tt
                  | None => inl tt
                  end) ms tt =
  match List.find p (ifaces ms) with Some i => inr (f i) | None => inl tt end.
Proof.
  induction ms as [|m ms IH]; [done|]. cbn [walk ifaces omap list_omap].
  destruct (iface_of m) as [i|]; [|done]. cbn [List.find]. by destruct (p i).
Qed.

Lemma strncmp_eq a b : length a = length b -> Forall (fun c => c <> 0) b -> (strncmp (length b) a b =? 0) = bool_decide (a = b).
Proof.
  revert a. induction b as [|c b IH]; intros [|d a] Hl Hb; try done. cbn [strncmp length hd tl].
  apply Forall_cons in Hb as [Hc Hb]. destruct (Z.eqb_spec d c) as [->|Hne]; cbn [negb].
  - rewrite (proj2 (Z.eqb_neq c 0) Hc), IH by (done || by injection Hl). apply bool_decide_ext. split; congruence.
  - rewrite (proj2 (Z.eqb_neq (d - c) 0)) by lia. symmetry. apply bool_decide_eq_false. congruence.
Qed.
End Encode.

(** ** The system

    [table k f]: the messages that sysctl returns for the interface with index
    [f], for all of them when [f] is 0.  [live] are the allocated blocks: there is
    memory for a block as long as they are [few]. *)
Definition max_blocks : Z := 1024.
Definition max_bytes : Z := 2 ^ 32.
Class RouteKernel (K : Type) `{!Kernel K} `{HP : Platform} `{HL : RouteLayout} := {
  table : K -> Z -> list rmsg;
  live : K -> gset Z;
  rt_len : forall k f, exists n k', kcall (Esysctl_len (mib NET_RT_IFLIST 0 f)) k = (Ok n, k') /\
    Z.of_nat (length (enc_msgs (table k f))) <= n < max_bytes /\ table k' = table k /\ live k' = live k;
  rt_buf : forall k f n, Z.of_nat (length (enc_msgs (table k f))) <= n ->
    exists k', kcall (Esysctl_buf (mib NET_RT_IFLIST 0 f) n) k = (Ok (enc_msgs (table k f)), k') /\ table k' = table k /\ live k' = live k;
  rt_malloc : forall k n, 0 <= n < max_bytes -> Z.of_nat (size (live k)) < max_blocks ->
    exists p k', kcall (Emalloc n) k = (Ok p, k') /\ 0 < p /\ p + n < 2 ^ 62 /\ (p ∉ live k) /\ live k' = {[p]} ∪ live k /\ table k' = table k;
  rt_free : forall k p, p ∈ live k -> exists k', klib (Efree p) k = (tt, k') /\ live k' = live k ∖ {[p]} /\ table k' = table k;
  rt_filter : forall k f, f <> 0 -> ifaces (table k f) = filter (fun i => i_index i = f) (ifaces (table k 0)) }.

Section Names.
Context {K : Type} `{HK : !Kernel K} `{HP : Platform} `{HL : RouteLayout} `{HR : !RouteKernel K}.
Implicit Types (k : K) (g : globals).

(** There is memory for [n] more blocks. *)
Definition few (n : Z) k : Prop := Z.of_nat (size (live k)) + n <= max_blocks.
Lemma few_add n p k k' : few (n + 1) k -> live k' = {[p]} ∪ live k -> few n k'.
Proof. intros Hf L. unfold few in *. rewrite L. pose proof (size_union_alt {[p]} (live k)) as E. rewrite E, size_singleton.
  pose proof (subseteq_size (live k ∖ {[p]}) (live k)) as Hs. specialize (Hs ltac:(set_solver)). lia. Qed.

Lemma iflist_run f g k : few 1 k -> exists p k', run (net_rt_iflist 0 f) g k = (Done (Some (p, enc_msgs (table k f))), g, k') /\
  (p ∉ live k) /\ live k' = {[p]} ∪ live k /\ table k' = table k.
Proof.
  intros Hfew. unfold net_rt_iflist. destruct (rt_len k f) as (n & k1 & E1 & Hn & T1 & L1). rewrite run_bind, run_call, E1. cbv beta iota.
  destruct (rt_malloc k1 n) as (p & k2 & E2 & _ & _ & Hp & L2 & T2); [lia|rewrite L1; unfold few in Hfew; lia|]. rewrite run_bind, run_call, E2. cbv beta iota.
  destruct (rt_buf k2 f n) as (k3 & E3 & T3 & L3); [rewrite T2, T1; lia|]. rewrite run_bind, run_call, E3. cbv beta iota.
  exists p, k3. rewrite T2, T1. split_and!; try done; congruence.
Qed.

(** A function that takes the list, walks over it and frees it. *)
Lemma free_list p k g : p ∉ live k -> forall k', live k' = {[p]} ∪ live k ->
  exists k2, run (lib (Efree p)) g k' = (Done tt, g, k2) /\ live k2 = live k /\ table k2 = table k'.
Proof.
  intros Hp k' L. destruct (rt_free k' p) as (k2 & E & L2 & T2); [set_solver|].
  exists k2. rewrite run_lib, E. split_and!; try done. rewrite L2, L. set_solver.
Qed.

(** The body of the loops at a message: it goes on, or looks at the interface. *)
Lemma at_message {B} (all pre : list rmsg) m post (e v : B) (f : Z -> prog B) g k :
  all = pre ++ m :: post -> msg_ok m -> (iface_of m = None -> e = v) ->
  (forall i l r, iface_of m = Some i -> iface_ok i -> enc_msgs all = l ++ enc_sdl i ++ r ->
     run (f (Z.of_nat (length l))) g k = (Done v, g, k)) ->
  run (s ← if_link (enc_msgs all) (Z.of_nat (length (enc_msgs pre))); match s with None => Ret e | Some sdl => f sdl end) g k = (Done v, g, k).
Proof.
  intros Eall Hm He Hf. pose proof (if_link_run m (enc_msgs pre) (enc_msgs post) Hm g k) as E.
  assert (enc_msgs all = enc_msgs pre ++ enc_msg m ++ enc_msgs post) as Eb by (rewrite Eall, enc_msgs_app; done).
  rewrite run_bind. destruct (iface_of m) as [i|] eqn:Ei.
  - destruct E as (l & r & E & El). rewrite <- Eb in E, El. rewrite E. cbv beta iota. apply (Hf i l r); try done.
    apply (mo_ifp _ Hm). unfold iface_of in Ei. by destruct (_ =? _).
  - rewrite <- Eb in E. rewrite E. cbv beta iota. by rewrite He.
Qed.

(** The functions that look for one interface and free the list. *)
Definition looks_for {R} (p : iface -> bool) (f : iface -> R) (m : rmsg) (_ : unit) : unit + R :=
  match iface_of m with Some i => if p i then inr (f i) else inl tt | None => inl tt end.

Lemma nametoindex_run fuel name g k :
  few 1 k -> Forall msg_ok (table k 0) -> (length (table k 0) <= fuel)%nat -> Forall (fun c => c <> 0) name ->
  exists k', run (if_nametoindex fuel name) g k =
      (Done (match List.find (fun i => bool_decide (i_name i = name)) (ifaces (table k 0)) with Some i => i_index i | None => 0 end), g, k') /\
    live k' = live k /\ table k' = table k.
Proof.
  intros Hfew Hok Hf Hn. unfold if_nametoindex. destruct (iflist_run 0 g k Hfew) as (p & k1 & E1 & Hp & L1 & T1).
  rewrite run_bind, E1. cbv beta iota zeta. set (all := table k 0) in *. rewrite run_bind.
  rewrite (for_msgs_run _ all g k1 Hok (looks_for (fun i => bool_decide (i_name i = name)) i_index)); [|clear Hf|done].
  - cbv beta iota. unfold looks_for. rewrite (walk_find (fun i => bool_decide (i_name i = name)) i_index), run_bind.
    destruct (free_list p k g Hp k1 L1) as (k2 & E2 & L2 & T2). rewrite E2. cbv beta iota.
    exists k2. split_and!; [|done|congruence]. by destruct (List.find _ _).
  - intros pre m post [] Eall Hm. apply (at_message all pre m post); try done.
    { unfold looks_for. by intros ->. }
    intros i l r Ei Hi ->. unfold looks_for. rewrite Ei. destruct (sdl_fields i l r Hi) as (F1 & F2 & F3). rewrite (run_mem_then _ _ _ _ _ F2).
    destruct (Z.eqb_spec (Z.of_nat (length (i_name i))) (Z.of_nat (length name))) as [El|El].
    + rewrite (run_mem_then _ _ _ _ _ F3), Nat2Z.id. apply Nat2Z.inj in El. rewrite El, strncmp_eq by done.
      case_bool_decide; [by rewrite (run_mem_then _ _ _ _ _ F1)|done].
    + rewrite bool_decide_eq_false_2; [done|]. congruence.
Qed.

(** The caller's array after the name has been stored. *)
Definition stored (name arr : list Z) : list Z := name ++ [0] ++ drop (S (length name)) arr.

Lemma until_nul_whole s : Forall (fun c => c <> 0) s -> until_nul s = s.
Proof. induction 1 as [|c s Hc _ IH]; [done|]. cbn. by rewrite (proj2 (Z.eqb_neq c 0) Hc), IH. Qed.

Lemma store_name name arr : Forall (fun c => c <> 0) name -> Z.of_nat (length name) < Z.of_nat (length arr) ->
  exists a1, strncpy arr 0 name (Z.of_nat (length name)) = Some a1 /\ awrite a1 (Z.of_nat (length name)) 0 = Some (stored name arr).
Proof.
  intros Hn Hl. unfold strncpy. rewrite Nat2Z.id, take_ge by lia. rewrite until_nul_whole, Nat.sub_diag, app_nil_r by done.
  rewrite memcpy_is_Some by lia. change (Z.to_nat 0) with 0%nat. rewrite take_0, app_nil_l. cbn [Nat.add]. eexists. split; [done|].
  destruct (drop (length name) arr) as [|x d] eqn:Ed.
  { apply (f_equal length) in Ed. rewrite length_drop in Ed. cbn in Ed. lia. }
  rewrite (awrite_app name x) by done. unfold stored. cbn [app]. do 3 f_equal.
  change d with (drop 1 (x :: d)). by rewrite <- Ed, drop_drop, Nat.add_1_r.
Qed.

Lemma indextoname_run fuel idx arr g k :
  few 1 k -> Forall msg_ok (table k idx) -> (length (table k idx) <= fuel)%nat -> Z.of_nat (length arr) = IFNAMSIZ ->
  Forall (fun i => Z.of_nat (length (i_name i)) < IFNAMSIZ) (ifaces (table k idx)) ->
  exists k', run (if_indextoname fuel idx arr) g k =
      (Done (match List.find (fun i => i_index i =? idx) (ifaces (table k idx)) with Some i => Some (stored (i_name i) arr) | None => None end), g, k') /\
    live k' = live k /\ table k' = table k.
Proof.
  intros Hfew Hok Hf Ha Hn. unfold if_indextoname. destruct (iflist_run idx g k Hfew) as (p & k1 & E1 & Hp & L1 & T1).
  rewrite run_bind, E1. cbv beta iota zeta. set (all := table k idx) in *. rewrite run_bind.
  rewrite (for_msgs_run _ all g k1 Hok (looks_for (fun i => i_index i =? idx) (fun i => stored (i_name i) arr))); [|clear Hf|done].
  - cbv beta iota. unfold looks_for. rewrite (walk_find (fun i => i_index i =? idx) (fun i => stored (i_name i) arr)), run_bind.
    destruct (free_list p k g Hp k1 L1) as (k2 & E2 & L2 & T2). rewrite E2. cbv beta iota.
    exists k2. split_and!; [|done|congruence]. by destruct (List.find _ _).
  - intros pre m post [] Eall Hm. apply (at_message all pre m post); try done.
    { unfold looks_for. by intros ->. }
    intros i l r Ei Hi ->. unfold looks_for. rewrite Ei. destruct (sdl_fields i l r Hi) as (F1 & F2 & F3).
    rewrite (run_mem_then _ _ _ _ _ F1). destruct (i_index i =? idx); [|done].
    assert (Z.of_nat (length (i_name i)) < IFNAMSIZ) as Hi15.
    { rewrite Forall_forall in Hn. apply Hn. unfold ifaces. rewrite Eall, omap_app. apply elem_of_app. right. cbn. rewrite Ei. by left. }
    rewrite (run_mem_then _ _ _ _ _ F2). cbv zeta. unfold IFNAMSIZ in *. rewrite Z.min_r by lia.
    rewrite (run_mem_then _ _ _ _ _ F3). destruct (store_name (i_name i) arr) as (a1 & S1 & S2); [apply Hi|lia|].
    by rewrite (run_mem_then _ _ _ _ _ S1), (run_mem_then _ _ _ _ _ S2).
Qed.

Lemma find_unique {B} `{EqDecision B} (f : iface -> B) (l : list iface) i (p : iface -> bool) :
  NoDup (f <$> l) -> i ∈ l -> (forall j, p j = true <-> f j = f i) -> List.find p l = Some i.
Proof.
  intros Hnd Hi Hp. induction l as [|j l IH]; [by apply elem_of_nil in Hi|]. cbn [List.find].
  apply NoDup_cons in Hnd as [Hj Hnd]. destruct (p j) eqn:E.
  - apply Hp in E. apply elem_of_cons in Hi as [->|Hi]; [done|]. destruct Hj. rewrite E. by apply list_elem_of_fmap_2.
  - apply elem_of_cons in Hi as [->|Hi]; [|by apply IH]. by rewrite (proj2 (Hp j) eq_refl) in E.
Qed.

(** C22. Interface names and indexes translate into each other: on a system whose
    interfaces have different names of at most 15 characters and different
    nonzero indexes, if_nametoindex maps the name of every interface to its
    index, and if_indextoname maps that index back to the name, inside the
    caller's array of IFNAMSIZ bytes; an unknown name gives 0, an unknown index
    NULL; the list taken from the kernel is freed in every case. *)
Theorem if_name_index_roundtrip fuel g k arr :
  few 1 k -> (forall f, Forall msg_ok (table k f) /\ (length (table k f) <= fuel)%nat) -> Z.of_nat (length arr) = IFNAMSIZ ->
  let all := ifaces (table k 0) in
  NoDup (i_name <$> all) -> NoDup (i_index <$> all) -> Forall (fun i => i_index i <> 0 /\ Z.of_nat (length (i_name i)) < IFNAMSIZ) all ->
  (forall i, i ∈ all ->
     (exists k', run (if_nametoindex fuel (i_name i)) g k = (Done (i_index i), g, k') /\ live k' = live k) /\
     (exists k' a, run (if_indextoname fuel (i_index i) arr) g k = (Done (Some a), g, k') /\
        cstring_at a 0 = i_name i /\ live k' = live k)) /\
  (forall name, Forall (fun c => c <> 0) name -> name ∉ i_name <$> all ->
     exists k', run (if_nametoindex fuel name) g k = (Done 0, g, k') /\ live k' = live k) /\
  (forall idx, idx <> 0 -> idx ∉ i_index <$> all ->
     exists k', run (if_indextoname fuel idx arr) g k = (Done None, g, k') /\ live k' = live k).
Proof.
  intros Hfew Htab Ha all Hnames Hidx Hall. rewrite Forall_forall in Hall.
  assert (forall m, m ∈ table k 0 -> forall i, iface_of m = Some i -> iface_ok i) as Hio.
  { intros m Hm i Ei. destruct (Htab 0) as [H _]. rewrite Forall_forall in H. apply (mo_ifp _ (H m Hm)). unfold iface_of in Ei. by destruct (_ =? _). }
  assert (forall f, f <> 0 -> Forall (fun i => Z.of_nat (length (i_name i)) < IFNAMSIZ) (ifaces (table k f))) as Hshort.
  { intros f Hf. rewrite rt_filter by done. apply Forall_forall. intros i [_ Hi]%list_elem_of_filter. by apply Hall. }
  split_and!.
  - intros i Hi. destruct (Hall i Hi) as [Hne Hl]. split.
    + assert (Forall (fun c => c <> 0) (i_name i)) as Hn.
      { unfold all, ifaces in Hi. apply list_elem_of_omap in Hi as (m & Hm & Ei). by apply (Hio m Hm). }
      destruct (nametoindex_run fuel (i_name i) g k) as (k' & E & L & _); [done|apply Htab|apply Htab|done|]. fold all in E.
      rewrite (find_unique i_name all i) in E; [eauto|done|done|]. intros j. apply bool_decide_eq_true.
    + destruct (indextoname_run fuel (i_index i) arr g k) as (k' & E & L & _); [done|apply Htab|apply Htab|done|by apply Hshort|].
      rewrite rt_filter in E by done. fold all in E.
      rewrite (find_unique i_index _ i) in E.
      * eexists k', _. split; [exact E|]. split; [|done]. unfold stored, cstring_at. change (Z.to_nat 0) with 0%nat. rewrite drop_0.
        apply V4.until_nul_app. unfold all, ifaces in Hi. apply list_elem_of_omap in Hi as (m & Hm & Ei). by apply (Hio m Hm).
      * eapply sublist_NoDup; [exact Hidx|]. apply fmap_sublist. apply sublist_filter.
      * by apply list_elem_of_filter.
      * intros j. apply Z.eqb_eq.
  - intros name Hn Hnot. destruct (nametoindex_run fuel name g k) as (k' & E & L & _); [done|apply Htab|apply Htab|done|]. fold all in E.
    exists k'. rewrite E. split; [|done]. destruct (List.find _ _) as [i|] eqn:Ef; [|done].
    apply List.find_some in Ef as [Hin Hb]. apply bool_decide_eq_true in Hb as <-. destruct Hnot. apply list_elem_of_fmap_2. by apply list_elem_of_In.
  - intros idx Hne Hnot. destruct (indextoname_run fuel idx arr g k) as (k' & E & L & _); [done|apply Htab|apply Htab|done|by apply Hshort|].
    exists k'. rewrite rt_filter in E by done. rewrite E. split; [|done]. clear E. destruct (List.find _ _) as [i|] eqn:Ef; [|done].
    apply List.find_some in Ef as [Hin Hb]. apply Z.eqb_eq in Hb as <-. apply list_elem_of_In, list_elem_of_filter in Hin as [_ Hin].
    destruct Hnot. by apply list_elem_of_fmap_2.
Qed.

(** ** if_nameindex *)

(** The names at the end of the block, the last one first. *)
Definition tail_of (l : list iface) : list Z := reverse l ≫= fun i => i_name i ++ [0].
(** Where the last of them is, in the block of [len] bytes at address [res]. *)
Definition name_at (res len : Z) (l : list iface) : Z := res + len - Z.of_nat (length (tail_of l)).

Lemma tail_snoc l i : tail_of (l ++ [i]) = i_name i ++ [0] ++ tail_of l.
Proof. unfold tail_of. rewrite reverse_app. cbn. by rewrite <- app_assoc. Qed.

(** What the caller reads: the structures up to the one with a null name. *)
Fixpoint read_entries (n : nat) (res : Z) (blk : list Z) (ifptr : Z) : option (list (Z * list Z)) :=
  match n with
  | O => None
  | S n =>
      p ← asub blk ifptr 8;
      idx ← aread32 blk (ifptr + 8);
      let if_name := load64 p in
      if if_name =? 0 then Some []
      else rest ← read_entries n res blk (ifptr + sizeof_if_nameindex); Some ((idx, cstring_at blk (if_name - res)) :: rest)
  end.

(** A structure is two integers and four bytes of padding that are not written. *)
Definition is_entry (ptr idx : Z) (e : list Z) : Prop := exists pad, length pad = 4%nat /\ e = store64 ptr ++ store32 idx ++ pad.
Lemma is_entry_length ptr idx e : is_entry ptr idx e -> length e = 16%nat.
Proof. intros (pad & Hp & ->). by rewrite !length_app, store64_length, store32_length, Hp. Qed.

Lemma put_entry f mid r ptr idx : (16 <= length mid)%nat -> exists e,
  put_nameindex (f ++ mid ++ r) (Z.of_nat (length f)) ptr idx = Some (f ++ e ++ drop 16 mid ++ r) /\ is_entry ptr idx e.
Proof.
  intros Hm. exists (store64 ptr ++ store32 idx ++ take 4 (drop 12 mid)). split.
  2: { eexists. split; [|done]. rewrite length_take, length_drop. lia. }
  unfold put_nameindex.
  assert (f ++ mid ++ r = f ++ take 8 mid ++ drop 8 mid ++ r) as -> by (by rewrite (app_assoc (take 8 mid)), take_drop).
  rewrite memcpy_app by (done || rewrite store64_length, length_take; lia). cbn [mbind option_bind].
  assert (f ++ store64 ptr ++ drop 8 mid ++ r = (f ++ store64 ptr) ++ take 4 (drop 8 mid) ++ drop 12 mid ++ r) as ->.
  { rewrite <- !app_assoc. do 2 f_equal. rewrite (app_assoc (take 4 _)). f_equal.
    rewrite <- (take_drop 4 (drop 8 mid)) at 1. by rewrite drop_drop. }
  rewrite memcpy_app; [|rewrite length_app, store64_length; lia|rewrite store32_length, length_take, length_drop; lia].
  rewrite <- !app_assoc. do 4 f_equal. rewrite (app_assoc (take 4 _)). f_equal.
  rewrite <- (take_drop 4 (drop 12 mid)) at 1. by rewrite drop_drop.
Qed.

Lemma put_name f mid r name : Forall (fun c => c <> 0) name -> (S (length name) <= length mid)%nat ->
  let o := Z.of_nat (length f) + Z.of_nat (length mid) - (Z.of_nat (length name) + 1) in
  exists b1, strncpy (f ++ mid ++ r) o name (Z.of_nat (length name)) = Some b1 /\
    awrite b1 (o + Z.of_nat (length name)) 0 = Some (f ++ take (length mid - S (length name)) mid ++ name ++ [0] ++ r).
Proof.
  intros Hn Hl o. set (n := (length mid - S (length name))%nat).
  assert (exists m1 x, mid = take n mid ++ m1 ++ [x] /\ length m1 = length name) as (m1 & x & Em & Lm).
  { destruct (drop n mid) as [|y d] eqn:Ed using rev_ind.
    - apply (f_equal length) in Ed. rewrite length_drop in Ed. cbn in Ed. lia.
    - exists d, y. rewrite <- Ed, take_drop. split; [done|]. apply (f_equal length) in Ed. rewrite length_drop, length_app in Ed. cbn in Ed. lia. }
  unfold strncpy. rewrite Nat2Z.id, take_ge, until_nul_whole, Nat.sub_diag, app_nil_r by (done || lia).
  assert (length (take n mid) = n) as Ln by (rewrite length_take; lia).
  assert (f ++ mid ++ r = (f ++ take n mid) ++ m1 ++ x :: r) as -> by (rewrite Em at 1; by rewrite <- !app_assoc).
  exists ((f ++ take n mid) ++ name ++ x :: r). split.
  - apply memcpy_app; [|done]. rewrite length_app, Ln. unfold o. lia.
  - rewrite (app_assoc _ name). rewrite awrite_app; [by rewrite <- !app_assoc|]. rewrite !length_app, Ln. unfold o. lia.
Qed.

(** The structures of the interfaces [l], which follow those of [pre]. *)
Inductive entries (res len : Z) : list iface -> list iface -> list Z -> Prop :=
  | entries_nil pre : entries res len pre [] []
  | entries_cons pre i l e f :
      is_entry (name_at res len (pre ++ [i])) (i_index i) e -> entries res len (pre ++ [i]) l f -> entries res len pre (i :: l) (e ++ f).

Lemma entries_snoc res len pre l f i e : entries res len pre l f -> is_entry (name_at res len (pre ++ l ++ [i])) (i_index i) e ->
  entries res len pre (l ++ [i]) (f ++ e).
Proof.
  induction 1 as [pre|pre j l e' f He' Hl IH]; intros He; cbn [app].
  - rewrite <- (app_nil_r e). by repeat constructor.
  - rewrite <- app_assoc. constructor; [done|]. apply IH. by rewrite <- !app_assoc.
Qed.
Lemma entries_length res len pre l f : entries res len pre l f -> length f = (16 * length l)%nat.
Proof. induction 1 as [|pre i l e f He _ IH]; [done|]. apply is_entry_length in He. rewrite length_app, He, IH. cbn [length]. lia. Qed.

Lemma tail_app l1 l2 : tail_of (l1 ++ l2) = tail_of l2 ++ tail_of l1.
Proof. unfold tail_of. by rewrite reverse_app, bind_app. Qed.

(** One structure is read back. *)
Lemma read_entry ptr idx e l r : is_int64 ptr -> is_u32 idx -> is_entry ptr idx e ->
  asub (l ++ e ++ r) (Z.of_nat (length l)) 8 = Some (store64 ptr) /\ aread32 (l ++ e ++ r) (Z.of_nat (length l) + 8) = Some idx.
Proof.
  intros Hp Hi (pad & _ & ->). rewrite <- !app_assoc. split; [apply asub_app; [done|by rewrite store64_length]|].
  rewrite app_assoc. apply aread32_app; [done|]. rewrite length_app, store64_length. lia.
Qed.

Lemma read_block res len z mid : 0 < res -> res + len < 2 ^ 62 -> is_entry 0 0 z ->
  forall l pre f1 f n blk, entries res len pre l f -> Forall iface_ok l -> (length l < n)%nat ->
  blk = f1 ++ f ++ z ++ mid ++ tail_of (pre ++ l) -> Z.of_nat (length blk) = len ->
  read_entries n res blk (Z.of_nat (length f1)) = Some ((fun i => (i_index i, i_name i)) <$> l).
Proof.
  intros Hres Hlen Hz l. induction l as [|i l IH]; intros pre f1 f [|n] blk He Hok Hn Eb Hb; cbn [length] in Hn; try lia; cbn [read_entries].
  - inversion He; subst f. destruct (read_entry 0 0 z f1 (mid ++ tail_of (pre ++ []))) as [R1 R2]; [by vm_compute|by vm_compute|done|].
    rewrite Eb. cbn [app]. rewrite R1, R2. cbn [mbind option_bind]. by rewrite load64_store64 by (by vm_compute).
  - inversion He as [|? ? ? e f' He1 He2]; subst. apply Forall_cons in Hok as [Hi Hok].
    assert (tail_of (pre ++ i :: l) = tail_of l ++ tail_of (pre ++ [i])) as Et by (change (i :: l) with ([i] ++ l); by rewrite app_assoc, tail_app).
    set (blk := f1 ++ (e ++ f') ++ z ++ mid ++ tail_of (pre ++ i :: l)) in *.
    set (ptr := name_at res (Z.of_nat (length blk)) (pre ++ [i])) in *.
    set (front := f1 ++ (e ++ f') ++ z ++ mid ++ tail_of l).
    assert (blk = front ++ i_name i ++ [0] ++ tail_of pre) as Eb2 by (unfold blk, front; rewrite Et, tail_snoc, <- !app_assoc; done).
    assert (ptr - res = Z.of_nat (length front)) as Ep.
    { unfold ptr, name_at. rewrite tail_snoc. rewrite Eb2 at 1. rewrite !length_app. lia. }
    assert (length front <= length blk)%nat as Hle by (rewrite Eb2, length_app; lia).
    destruct (read_entry ptr (i_index i) e f1 (f' ++ z ++ mid ++ tail_of (pre ++ i :: l))) as [R1 R2]; [unfold is_int64; lia| |done|].
    { destruct (io_index _ Hi). unfold is_u32. lia. }
    assert (blk = f1 ++ e ++ f' ++ z ++ mid ++ tail_of (pre ++ i :: l)) as Eb3 by (unfold blk; by rewrite <- !app_assoc).
    rewrite <- Eb3 in R1, R2. rewrite R1, R2. cbn [mbind option_bind]. rewrite load64_store64 by (unfold is_int64; lia).
    rewrite (proj2 (Z.eqb_neq ptr 0)) by lia. cbv zeta.
    assert (Z.of_nat (length f1) + sizeof_if_nameindex = Z.of_nat (length (f1 ++ e))) as ->.
    { rewrite length_app, (is_entry_length _ _ _ He1). unfold sizeof_if_nameindex. lia. }
    rewrite (IH (pre ++ [i]) (f1 ++ e) f'); try done; [|lia|rewrite Eb3, <- !app_assoc; done].
    cbn [mbind option_bind fmap list_fmap]. do 3 f_equal. unfold cstring_at. rewrite Ep, Nat2Z.id. rewrite Eb2.
    rewrite drop_app_length. apply V4.until_nul_app. apply Hi.
Qed.

(** A message takes more room than the structure and the name of its interface. *)
Lemma room m i : msg_ok m -> iface_of m = Some i -> 33 + Z.of_nat (length (i_name i)) <= msglen m.
Proof.
  intros Hm Hi. unfold iface_of in Hi. destruct (Z.eqb_spec (m_type m) RTM_IFINFO) as [Et|]; [|done].
  pose proof (msglen_min m). pose proof (mo_hdr _ Hm Et). pose proof if_msghdr_size. pose proof (enc_sdl_length i).
  destruct (offsets_lookup 0 (m_before m) (m_after m) (enc_sdl i)) as (mid & _ & E).
  unfold slots in *. rewrite Hi in *. cbn [fmap option_fmap option_map] in *. rewrite E in *. unfold padded, sdl_length in *. rewrite !length_app in *. lia.
Qed.
Definition needed (l : list iface) : Z := 16 * Z.of_nat (length l) + Z.of_nat (length (tail_of l)).
Lemma needed_snoc l i : needed (l ++ [i]) = needed l + 17 + Z.of_nat (length (i_name i)).
Proof. unfold needed. rewrite tail_snoc, !length_app. cbn [length]. lia. Qed.

Lemma room_all ms : Forall msg_ok ms -> needed (ifaces ms) + 16 * Z.of_nat (length (ifaces ms)) <= Z.of_nat (length (enc_msgs ms)).
Proof.
  induction ms as [|m ms IH] using rev_ind; [done|]. intros [Hms [Hm _]%Forall_cons]%Forall_app. specialize (IH Hms).
  rewrite enc_msgs_app, length_app. unfold ifaces in *. rewrite omap_app. cbn [enc_msgs mbind list_bind omap list_omap].
  pose proof (enc_msg_length m). pose proof (msglen_min m). rewrite app_nil_r. destruct (iface_of m) as [i|] eqn:Ei.
  - pose proof (room m i Hm Ei). rewrite needed_snoc, length_app. cbn [length]. lia.
  - rewrite app_nil_r. lia.
Qed.

Lemma ifaces_snoc pre m : ifaces (pre ++ [m]) = ifaces pre ++ match iface_of m with Some i => [i] | None => [] end.
Proof. unfold ifaces. rewrite omap_app. cbn. by destruct (iface_of m). Qed.

(** The state of the loop after the messages [pre]: the block, and the two pointers. *)
Definition listed (res len : Z) (pre : list rmsg) '((blk, ifptr, namptr) : list Z * Z * Z) : Prop :=
  exists f mid, blk = f ++ mid ++ tail_of (ifaces pre) /\ Z.of_nat (length blk) = len /\ entries res len [] (ifaces pre) f /\
    ifptr = Z.of_nat (length f) /\ namptr = len - Z.of_nat (length (tail_of (ifaces pre))).

(** What an interface adds to it. *)
Lemma listed_step res len pre m i blk ifptr namptr :
  listed res len pre (blk, ifptr, namptr) -> iface_of m = Some i -> iface_ok i ->
  needed (ifaces pre) + 17 + Z.of_nat (length (i_name i)) <= len ->
  let n := Z.of_nat (length (i_name i)) in let namptr1 := namptr - (n + 1) in
  exists b1 b2 b3, strncpy blk namptr1 (i_name i) n = Some b1 /\ awrite b1 (namptr1 + n) 0 = Some b2 /\
    put_nameindex b2 ifptr (res + namptr1) (i_index i) = Some b3 /\
    listed res len (pre ++ [m]) (b3, ifptr + sizeof_if_nameindex, namptr1).
Proof.
  intros (f & mid & Eb & Hlen & He & -> & ->) Ei Hi Hroom n namptr1. pose proof (entries_length _ _ _ _ _ He) as Hf.
  assert (length f + length mid + length (tail_of (ifaces pre)) = length blk)%nat as Hsum by (rewrite Eb, !length_app; lia).
  unfold needed in Hroom.
  destruct (put_name f mid (tail_of (ifaces pre)) (i_name i)) as (b1 & W1 & W2); [apply Hi|lia|]. rewrite <- Eb in W1.
  assert (Z.of_nat (length f) + Z.of_nat (length mid) - (Z.of_nat (length (i_name i)) + 1) = namptr1) as En by (unfold namptr1, n; lia).
  rewrite En in W1, W2. set (mid1 := take (length mid - S (length (i_name i))) mid) in *.
  assert (length mid1 = (length mid - S (length (i_name i)))%nat) as Hm1 by (unfold mid1; rewrite length_take; lia).
  destruct (put_entry f mid1 (i_name i ++ [0] ++ tail_of (ifaces pre)) (res + namptr1) (i_index i)) as (e & W3 & He3); [lia|].
  exists b1. do 2 eexists. split; [done|]. split; [done|]. split; [done|].
  pose proof (is_entry_length _ _ _ He3) as He16.
  unfold listed. rewrite ifaces_snoc, Ei. exists (f ++ e), (drop 16 mid1). rewrite tail_snoc. split_and!.
  - by rewrite <- !app_assoc.
  - rewrite !length_app, He16, length_drop, Hm1. cbn [length]. lia.
  - apply entries_snoc; [done|]. cbn [app]. unfold name_at. rewrite tail_snoc, !length_app. cbn [length].
    replace (res + len - _) with (res + namptr1) by (unfold namptr1, n; lia). done.
  - rewrite length_app, He16. unfold sizeof_if_nameindex. lia.
  - rewrite !length_app. cbn [length]. unfold namptr1, n. lia.
Qed.

Lemma ifaces_ok ms : Forall msg_ok ms -> Forall iface_ok (ifaces ms).
Proof.
  intros H. apply Forall_forall. intros i (m & Hm & Ei)%list_elem_of_omap. rewrite Forall_forall in H.
  apply (mo_ifp _ (H m Hm)). unfold iface_of in Ei. by destruct (_ =? _).
Qed.

(** Before an interface is added there is room for it. *)
Lemma room_left all pre m post i : Forall msg_ok all -> all = pre ++ m :: post -> iface_of m = Some i ->
  needed (ifaces pre) + 17 + Z.of_nat (length (i_name i)) <= Z.of_nat (length (enc_msgs all)).
Proof.
  intros Hok Eall Ei. rewrite Eall in *. apply Forall_app in Hok as [Hpre [Hm _]%Forall_cons].
  pose proof (room_all pre Hpre). pose proof (room m i Hm Ei). pose proof (enc_msg_length m).
  rewrite enc_msgs_app, length_app. cbn [enc_msgs mbind list_bind]. rewrite length_app. lia.
Qed.

(** After the loop the terminator fits, and the block can be read. *)
Lemma listed_end res all blk ifptr namptr : let len := Z.of_nat (length (enc_msgs all)) in
  0 < res -> res + len < 2 ^ 62 -> Forall msg_ok all -> ifaces all <> [] -> listed res len all (blk, ifptr, namptr) ->
  exists blk1, put_nameindex blk ifptr 0 0 = Some blk1 /\ Z.of_nat (length blk1) = len /\
    read_entries (S (length (ifaces all))) res blk1 0 = Some ((fun i => (i_index i, i_name i)) <$> ifaces all).
Proof.
  intros len Hres Hmax Hok Hne (f & mid & Eb & Hlen & He & -> & ->). pose proof (entries_length _ _ _ _ _ He) as Hfl.
  pose proof (room_all all Hok) as Hroom. fold len in Hroom.
  assert (1 <= length (ifaces all))%nat by (destruct (ifaces all); [done|cbn; lia]).
  assert (length f + length mid + length (tail_of (ifaces all)) = length blk)%nat as Hsum by (rewrite Eb, !length_app; lia).
  unfold needed in Hroom. destruct (put_entry f mid (tail_of (ifaces all)) 0 0) as (z & W & Hz); [lia|]. rewrite <- Eb in W.
  assert (Z.of_nat (length (f ++ z ++ drop 16 mid ++ tail_of (ifaces all))) = len) as Hl1.
  { rewrite !length_app, (is_entry_length _ _ _ Hz), length_drop. lia. }
  eexists. split; [exact W|]. split; [exact Hl1|].
  apply (read_block res len z (drop 16 mid) Hres Hmax Hz _ [] [] f); try done; [by apply ifaces_ok|lia].
Qed.


(** Without an interface the block has no bytes, and the terminator is written outside of it. *)
Lemma if_nameindex_empty fuel g k : few 2 k -> table k 0 = [] -> exists k', run (if_nameindex fuel) g k = (Halted Fault, g, k').
Proof.
  intros Hfew Ht. unfold if_nameindex. destruct (iflist_run 0 g k) as (p & k1 & E1 & _ & L1 & _); [unfold few in *; lia|].
  rewrite run_bind, E1, Ht. cbv beta iota zeta. pose proof (few_add 1 p k k1 Hfew L1) as Hfew1.
  destruct (rt_malloc k1 0) as (res & k2 & E2 & _); [done|unfold few in Hfew1; lia|].
  change (Z.of_nat (length (enc_msgs []))) with 0. rewrite run_bind, run_call, E2. cbv beta iota.
  exists k2. destruct fuel; cbn -[put_nameindex]; unfold put_nameindex, memcpy; rewrite store64_length; done.
Qed.
End Names.

(** ** A system for the witnesses: two interfaces and an allocator *)
#[export] Instance freebsd_amd64 : RouteLayout.
Proof. refine {| sizeof_if_msghdr := 168; sizeof_ifa_msghdr := 20 |}; done. Defined.

Definition blocks : list Z := (fun j => (j + 1) * max_bytes) <$> seqZ 0 max_blocks.
Definition unused (l : gset Z) : Z := default 0 (List.find (fun p => bool_decide (p ∉ l)) blocks).

Lemma unused_spec l : Z.of_nat (size l) < max_blocks -> (unused l ∉ l) /\ unused l ∈ blocks.
Proof.
  intros Hl. unfold unused. destruct (List.find _ blocks) as [p|] eqn:E; cbn [default].
  { apply List.find_some in E as [Hin Hb]. apply bool_decide_eq_true in Hb. split; [done|by apply list_elem_of_In]. }
  exfalso. assert (list_to_set blocks ⊆ l) as Hsub.
  { intros p Hp. apply elem_of_list_to_set, list_elem_of_In in Hp. pose proof (List.find_none _ _ E p Hp) as Hn. cbn in Hn.
    apply bool_decide_eq_false in Hn. destruct (decide (p ∈ l)); done. }
  apply subseteq_size in Hsub. rewrite size_list_to_set in Hsub.
  - unfold blocks in Hsub. rewrite length_fmap, length_seqZ in Hsub. lia.
  - unfold blocks. apply NoDup_fmap_2_strong; [|apply NoDup_seqZ]. unfold max_bytes. intros. lia.
Qed.
Lemma blocks_range p n : p ∈ blocks -> n < max_bytes -> 0 < p /\ p + n < 2 ^ 62.
Proof. unfold blocks, max_bytes, max_blocks. intros (j & -> & Hj)%list_elem_of_fmap Hn. apply elem_of_seqZ in Hj. lia. Qed.

Definition about (t : Z) (i : iface) : rmsg := Rmsg t (replicate 160 0) (replicate 4 None) (Some i) (replicate 3 None).
Definition lo0 : iface := Iface 1 [108; 111; 48] 24 [].
Definition em0 : iface := Iface 2 [101; 109; 48] 6 [0; 27; 33; 1; 2; 3].
Definition msgs2 (f : Z) : list rmsg :=
  filter (fun m => f = 0 \/ (i_index <$> m_ifp m) = Some f) [about RTM_IFINFO lo0; about RTM_NEWADDR lo0; about RTM_IFINFO em0].

#[export] Instance rtab_kernel : Kernel (gset Z) := {|
  kcall X e :=
    match e in sysE X return gset Z -> res X * gset Z with
    | Emalloc n => fun k => (Ok (unused k), {[unused k]} ∪ k)
    | Esysctl_len m => fun k => (Ok (Z.of_nat (length (enc_msgs (HP := x86_64) (msgs2 (nth 5 m 0))))), k)
    | Esysctl_buf m n => fun k => (Ok (enc_msgs (HP := x86_64) (msgs2 (nth 5 m 0))), k)
    | _ => fun k => (Err ENOSYS, k)
    end;
  klib X e :=
    match e in libE X return gset Z -> X * gset Z with
    | Efree p => fun k => (tt, k ∖ {[p]})
    | e => fun k => ((@klib unit (failing_kernel ENOSYS) _ e tt).1, k)
    end |}.

Lemma msgs2_length f : Z.of_nat (length (enc_msgs (HP := x86_64) (msgs2 f))) < max_bytes.
Proof.
  assert (forall P (Hd : forall m, Decision (P m)) ms, length (enc_msgs (HP := x86_64) (filter P ms)) <= length (enc_msgs (HP := x86_64) ms))%nat as Hf.
  { intros P Hd ms. induction ms as [|m ms IH]; [done|]. rewrite filter_cons. unfold enc_msgs in *. case_decide; cbn [mbind list_bind]; rewrite ?length_app; lia. }
  unfold msgs2. eapply Z.le_lt_trans; [apply Nat2Z.inj_le, Hf|by vm_compute].
Qed.
Lemma msgs2_filter f : f <> 0 -> ifaces (msgs2 f) = filter (fun i => i_index i = f) (ifaces (msgs2 0)).
Proof.
  intros Hf. change (ifaces (msgs2 0)) with [lo0; em0]. unfold msgs2. rewrite !filter_cons. cbn [m_ifp about fmap option_fmap option_map i_index lo0 em0].
  repeat case_decide; try done; exfalso; intuition congruence.
Qed.

#[export] Instance rtab_route : RouteKernel (HP := x86_64) (gset Z).
Proof.
  refine {| table := fun _ => msgs2; live := fun k => k |}; intros; cbn [kcall klib rtab_kernel mib].
  - eexists _, _. split; [reflexivity|]. split; [split; [done|apply msgs2_length]|done].
  - by eexists.
  - destruct (unused_spec k) as [H1 H2]; [done|]. eexists _, _. split; [reflexivity|].
    destruct (blocks_range _ n H2); [lia|]. by split_and!.
  - by eexists.
  - by apply msgs2_filter.
Defined.

Lemma msgs2_ok f : Forall (msg_ok (HP := x86_64)) (msgs2 f) /\ (length (msgs2 f) <= 3)%nat.
Proof.
  unfold msgs2. split; [|etransitivity; [apply length_filter|done]].
  apply Forall_forall. intros m [_ Hm]%list_elem_of_filter. revert m Hm. apply Forall_forall.
  repeat (apply Forall_cons; split); [..|by apply Forall_nil]; (split; [by vm_compute|done|done|done| |]);
    try (intros a Ha; apply list_elem_of_In in Ha; cbn in Ha; intuition congruence);
    intros i [= <-]; (split; [by vm_compute|repeat (apply Forall_cons; split; [done|]); by apply Forall_nil|by vm_compute]).
Qed.

Lemma if_name_index_roundtrip_witness :
  exists k', run (if_nametoindex (H := x86_64) 3 [101; 109; 48]) globals0 (∅ : gset Z) = (Done 2, globals0, k') /\ live (HP := x86_64) k' = ∅.
Proof.
  refine (proj1 (proj1 (if_name_index_roundtrip (HP := x86_64) 3 globals0 (∅ : gset Z) (replicate 16 0) _ _ _ _ _ _) em0 _)).
  - by vm_compute.
  - apply msgs2_ok.
  - done.
  - cbn. change (omap iface_of (msgs2 0)) with [lo0; em0]. by apply (bool_decide_unpack _); vm_compute.
  - by apply (bool_decide_unpack _); vm_compute.
  - change (ifaces (table (HP := x86_64) (∅ : gset Z) 0)) with [lo0; em0]. repeat (apply Forall_cons; split; [split; done|]). by apply Forall_nil.
  - change (ifaces (table (HP := x86_64) (∅ : gset Z) 0)) with [lo0; em0]. right. left.
Defined.


End RouteProofs.
