(* ===== verification/Ifi.v ===== *)
(** * Interface enumeration: lib/get_ifi_info.c and route/get_ifi_info.c

    Both functions return a linked list of struct ifi_info, one per interface
    and, if asked for, per alias.  The first asks the system with ioctl: the
    list of SIOCGIFCONF is a buffer of struct ifreq of varying length, an
    interface name of 16 bytes and a socket address.  The second reads the
    messages of a routing socket (Route.v).

    A struct ifi_info and the addresses it points to are blocks of their own:
    the record has the address of each.  A struct ifreq passed to ioctl is its
    32 bytes. *)
From stdpp Require Import base list numbers strings gmap.
From S2P Require Import Prelude InetAddr Checksum Cnum Sys Error Wrap StreamIO SockAddr Route.
Import Cksum Route.

Module Ifi.
Definition IFI_NAME : Z := 16.
Definition IFI_HADDR : Z := 8.
Definition IFI_ALIAS : Z := 1.
Definition IFF_UP : Z := 1.
Definition IFF_BROADCAST : Z := 2.
Definition IFF_POINTOPOINT : Z := 0x10.
Definition SIOCGIFCONF : Z := 0xc0106924.
Definition SIOCGIFFLAGS : Z := 0xc0206911.
Definition SIOCGIFMTU : Z := 0xc0206933.
Definition SIOCGIFBRDADDR : Z := 0xc0206923.
Definition SIOCGIFDSTADDR : Z := 0xc0206922.
Definition sizeof_ifreq : Z := 32.
Definition sizeof_sockaddr : Z := 16.
Definition sizeof_ifi_info : Z := 72.
Definition sizeof_sockaddr_in : Z := 16.
Definition sizeof_sockaddr_in6 : Z := 28.
Definition s16 (z : Z) : Z := sint 16 z.

Record ifi_info := Ifi_info {
  ifi_self : Z;
  ifi_name : list Z; ifi_index : Z; ifi_mtu : Z; ifi_haddr : list Z; ifi_hlen : Z;
  ifi_flags : Z; ifi_myflags : Z;
  ifi_addr : option (Z * list Z); ifi_brdaddr : option (Z * list Z); ifi_dstaddr : option (Z * list Z) }.

(** ** Pieces of the C library *)

(** strchr, from [off] on: [Some None] is NULL. *)
Fixpoint strchr_from (s : list Z) (off c : Z) : option (option Z) :=
  match s with
  | [] => None
  | x :: s => if x =? c then Some (Some off) else if x =? 0 then Some None else strchr_from s (off + 1) c
  end.
Definition strchr (buf : list Z) (off c : Z) : option (option Z) := strchr_from (drop (Z.to_nat off) buf) off c.
Fixpoint strcmp (s1 s2 : list Z) : option Z :=
  match s1, s2 with
  | c1 :: s1, c2 :: s2 => if negb (c1 =? c2) then Some (c1 - c2) else if c1 =? 0 then Some 0 else strcmp s1 s2
  | _, _ => None
  end.

(** An ioctl on a struct ifreq. *)
Definition Ioctl_ifr (sockfd request : Z) (ifr : list Z) : prog (list Z) :=
  r ← Ioctl sockfd request (IoReq ifr);
  match r with (_, IoReq ifr1) => Ret ifr1 | _ => Halt Fault end.

(** Calloc(1, n) and memcpy of [bs] into the block. *)
Definition copy_block (n : Z) (bs : option (list Z)) : prog (option (Z * list Z)) :=
  p ← Calloc 1 n; b ← mem bs; Ret (Some (p, b)).

(** ** lib/get_ifi_info.c *)

(** The loop that looks for a buffer large enough: the block, and the ifc_len bytes written to it. *)
Fixpoint ifconf_loop (fuel : nat) (sockfd lastlen len : Z) : prog (Z * list Z) :=
  match fuel with
  | O => Halt Spin
  | S f =>
      buf ← Malloc len;
      let again lastlen := _ ← lib (Efree buf); ifconf_loop f sockfd lastlen (len + 10 * sizeof_ifreq) in
      r ← call (Eioctl sockfd SIOCGIFCONF (IoIfconf len []));
      match r with
      | Err _ =>
          e ← get_errno;
          if negb (e =? EINVAL) || negb (lastlen =? 0) then err_sys (str "ioctl error") else again lastlen
      | Ok (_, IoIfconf ifc_len bs) => if ifc_len =? lastlen then Ret (buf, take (Z.to_nat ifc_len) bs) else again ifc_len
      | Ok _ => Halt Fault                                             (* not an answer to SIOCGIFCONF *)
      end
  end.

(** The variables of the second loop; [haddr] is an index into buf. *)
Record vars := Vars {
  v_buf : list Z; v_lastname : list Z; v_sdlname : option Z; v_idx : Z; v_haddr : option Z; v_hlen : Z;
  v_list : list ifi_info }.

(** if (ifr->ifr_addr.sa_family == AF_LINK) *)
Definition note_link `{Platform} (ifr : Z) (v : vars) : option vars :=
  let sdl := ifr + 16 in
  sdl_index ← aread16 (v_buf v) (sdl + 2);
  sdl_nlen ← aread (v_buf v) (sdl + 5);
  sdl_alen ← aread (v_buf v) (sdl + 6);
  Some (Vars (v_buf v) (v_lastname v) (Some ifr) sdl_index (Some (sdl + 8 + sdl_nlen)) sdl_alen (v_list v)).

(** The index and hardware address, if the sockaddr_dl is of the same interface. *)
Definition link_of `{Platform} (ifr : Z) (v : vars) : option vars :=
  same ← (match v_sdlname v with
          | None => Some false
          | Some s =>
              c ← strcmp (drop (Z.to_nat s) (v_buf v)) (drop (Z.to_nat ifr) (v_buf v));
              Some (c =? 0)
          end);
  Some (if same : bool then v else Vars (v_buf v) (v_lastname v) (v_sdlname v) 0 (v_haddr v) 0 (v_list v)).

Definition hw_addr (v : vars) : option (Z * list Z) :=
  let ifi_hlen := if IFI_HADDR <? u16 (v_hlen v) then IFI_HADDR else u16 (v_hlen v) in
  let zero := replicate (Z.to_nat IFI_HADDR) 0 in
  if v_hlen v =? 0 then Some (ifi_hlen, zero)
  else
    haddr ← v_haddr v;
    bs ← asub (v_buf v) haddr ifi_hlen;
    h ← memcpy zero 0 bs;
    Some (ifi_hlen, h).

(** switch (ifr->ifr_addr.sa_family): ifi_addr, ifi_brdaddr and ifi_dstaddr. *)
Definition addrs_of (sockfd ifr sa_family flags : Z) (buf ifrcopy : list Z)
  : prog (option (Z * list Z) * option (Z * list Z) * option (Z * list Z)) :=
  if sa_family =? AF_INET then
    a ← copy_block sizeof_sockaddr_in (asub buf (ifr + 16) sizeof_sockaddr_in);
    '(brd, c1) ← (if negb (Z.land flags IFF_BROADCAST =? 0) then
                    c1 ← Ioctl_ifr sockfd SIOCGIFBRDADDR ifrcopy;
                    b ← copy_block sizeof_sockaddr_in (asub c1 16 sizeof_sockaddr_in); Ret (b, c1)
                  else Ret (None, ifrcopy));
    dst ← (if negb (Z.land flags IFF_POINTOPOINT =? 0) then
             c2 ← Ioctl_ifr sockfd SIOCGIFDSTADDR c1;
             copy_block sizeof_sockaddr_in (asub c2 16 sizeof_sockaddr_in)
           else Ret None);
    Ret (a, brd, dst)
  else if sa_family =? AF_INET6 then
    a ← copy_block sizeof_sockaddr_in6 (asub buf (ifr + 16) sizeof_sockaddr_in6);
    dst ← (if negb (Z.land flags IFF_POINTOPOINT =? 0) then
             c2 ← Ioctl_ifr sockfd SIOCGIFDSTADDR ifrcopy;
             copy_block sizeof_sockaddr_in6 (asub c2 16 sizeof_sockaddr_in6)
           else Ret None);
    Ret (a, None, dst)
  else Ret (None, None, None).

(** The new structure for the struct ifreq at [ifr]. *)
Definition new_ifi `{Platform} (sockfd ifr sa_family flags myflags : Z) (ifrcopy : list Z) (v : vars) : prog vars :=
  self ← Calloc 1 sizeof_ifi_info;
  c1 ← Ioctl_ifr sockfd SIOCGIFMTU ifrcopy;
  mtu ← mem (aread32 c1 16);
  nm ← mem (asub (v_buf v) ifr IFI_NAME);
  name ← mem (awrite nm (IFI_NAME - 1) 0);
  v1 ← mem (link_of ifr v);
  '(hlen, haddr) ← mem (hw_addr v1);
  '(a, brd, dst) ← addrs_of sockfd ifr sa_family flags (v_buf v1) c1;
  let ifi := Ifi_info self name (s16 (v_idx v1)) (s16 mtu) haddr hlen (s16 flags) myflags a brd dst in
  Ret (Vars (v_buf v1) (v_lastname v1) (v_sdlname v1) (v_idx v1) (v_haddr v1) (v_hlen v1) (v_list v1 ++ [ifi])).

(** An address of the wanted family: the variables after the rest of the turn. *)
Definition ifr_entry `{Platform} (sockfd doaliases ifr sa_family : Z) (v : vars) : prog vars :=
  cptr ← mem (strchr (v_buf v) ifr 58);
  buf ← (match cptr with Some c => mem (awrite (v_buf v) c 0) | None => Ret (v_buf v) end);
  nm ← mem (asub buf ifr IFNAMSIZ);
  let seen := strncmp (Z.to_nat IFNAMSIZ) (v_lastname v) nm =? 0 in
  if seen && (doaliases =? 0) then Ret (Vars buf (v_lastname v) (v_sdlname v) (v_idx v) (v_haddr v) (v_hlen v) (v_list v))
  else
    let myflags := if seen then IFI_ALIAS else 0 in
    let v1 := Vars buf nm (v_sdlname v) (v_idx v) (v_haddr v) (v_hlen v) (v_list v) in
    ifr0 ← mem (asub buf ifr sizeof_ifreq);
    ifrcopy ← Ioctl_ifr sockfd SIOCGIFFLAGS ifr0;
    fl ← mem (aread16 ifrcopy 16);
    let flags := s16 fl in
    if Z.land flags IFF_UP =? 0 then Ret v1 else new_ifi sockfd ifr sa_family flags myflags ifrcopy v1.

(** One turn of the loop: the next position and the variables. *)
Definition ifr_turn `{Platform} (sockfd family doaliases ifr : Z) (v : vars) : prog (Z * vars) :=
  sa_len ← mem (aread (v_buf v) (ifr + 16));
  sa_family ← mem (aread (v_buf v) (ifr + 17));
  let next := ifr + 16 + Z.max sizeof_sockaddr sa_len in
  v1 ← (if sa_family =? AF_LINK then mem (note_link ifr v) else Ret v);
  v2 ← (if negb (sa_family =? family) then Ret v1 else ifr_entry sockfd doaliases ifr sa_family v1);
  Ret (next, v2).

(** for (ptr = buf; ptr < buf + ifc.ifc_len; ) *)
Fixpoint ifr_loop `{Platform} (fuel : nat) (sockfd family doaliases ptr ifc_len : Z) (v : vars) : prog (list ifi_info) :=
  if ptr <? ifc_len then
    match fuel with
    | O => Halt Spin
    | S f => '(next, v1) ← ifr_turn sockfd family doaliases ptr v; ifr_loop f sockfd family doaliases next ifc_len v1
    end
  else Ret (v_list v).

Definition get_ifi_info `{Platform} (fuel : nat) (family doaliases : Z) : prog (list ifi_info) :=
  sockfd ← Socket AF_INET SOCK_DGRAM 0;
  '(p, buf) ← ifconf_loop fuel sockfd 0 (100 * sizeof_ifreq);
  ifihead ← ifr_loop fuel sockfd family doaliases 0 (Z.of_nat (length buf)) (Vars buf (replicate 16 0) None 0 None 0 []);
  _ ← lib (Efree p);
  Ret ifihead.

Definition free_block (b : option (Z * list Z)) : prog unit :=
  match b with Some (p, _) => lib (Efree p) | None => Ret tt end.

Fixpoint free_ifi_info (ifihead : list ifi_info) : prog unit :=
  match ifihead with
  | [] => Ret tt
  | ifi :: ifinext =>
      _ ← free_block (ifi_addr ifi);
      _ ← free_block (ifi_brdaddr ifi);
      _ ← free_block (ifi_dstaddr ifi);
      _ ← lib (Efree (ifi_self ifi));
      free_ifi_info ifinext
  end.

Definition Get_ifi_info `{Platform} (fuel : nat) (family doaliases : Z) : prog (list ifi_info) :=
  ifi ← get_ifi_info fuel family doaliases;
  match ifi with [] => err_quit (str "get_ifi_info error") | _ => Ret ifi end.
End Ifi.

(** ** route/get_ifi_info.c *)
Module IfiRoute.
Export Ifi.

(** flags, which is not set before the first message about an interface, and the
    list; ifi is the last structure of the list. *)
Record rvars := Rvars { w_flags : option Z; w_list : list ifi_info }.

(** Two arguments of %*s: a minimal width, and a string that ends with a NUL. *)
Definition string_at (buf : list Z) (off : Z) : option (list Z) := array_str (drop (Z.to_nat off) buf).

Definition sdl_name `{Platform} (buf : list Z) (sdl : Z) : option (list Z) :=
  sdl_nlen ← aread buf (sdl + 5);
  text ← (if 0 <? sdl_nlen then s ← string_at buf (sdl + 8); Some (pad_left sdl_nlen s)
          else i ← aread16 buf (sdl + 2); Some (str "index " ++ fmt_d i));
  array_snprintf (replicate (Z.to_nat IFI_NAME) 0) IFI_NAME text.

Definition sdl_haddr (buf : list Z) (sdl : Z) : option (Z * list Z) :=
  sdl_nlen ← aread buf (sdl + 5);
  sdl_alen ← aread buf (sdl + 6);
  let zero := replicate (Z.to_nat IFI_HADDR) 0 in
  if 0 <? sdl_alen then
    bs ← asub buf (sdl + 8 + sdl_nlen) (Z.min IFI_HADDR sdl_alen);
    h ← memcpy zero 0 bs;
    Some (sdl_alen, h)
  else Some (sdl_alen, zero).

(** The fields of a new structure from the address in rti_info[RTAX_IFP]. *)
Definition link_info `{Platform} (self flags : Z) (buf : list Z) (sa : Z) : option ifi_info :=
  sa_family ← aread buf (sa + 1);
  if sa_family =? AF_LINK then
    sdl_index ← aread16 buf (sa + 2);
    name ← sdl_name buf sa;
    '(hlen, haddr) ← sdl_haddr buf sa;
    Some (Ifi_info self name (s16 sdl_index) 0 haddr hlen (s16 flags) 0 None None None)
  else Some (Ifi_info self (replicate (Z.to_nat IFI_NAME) 0) 0 0 (replicate (Z.to_nat IFI_HADDR) 0) 0 (s16 flags) 0 None None None).

Definition on_ifinfo `{Platform} `{RouteLayout} (buf : list Z) (next : Z) (w : rvars) : prog rvars :=
  fl ← mem (aread32 buf (next + 8));
  let flags := s32 fl in
  if Z.land flags IFF_UP =? 0 then Ret (Rvars (Some flags) (w_list w))
  else
    ifm_addrs ← mem (aread32 buf (next + 4));
    rti_info ← mem (get_rtaddrs ifm_addrs (next + sizeof_if_msghdr) buf);
    match rti_info !! RTAX_IFP with
    | Some (Some sa) =>
        self ← Calloc 1 sizeof_ifi_info;
        ifi ← mem (link_info self flags buf sa);
        Ret (Rvars (Some flags) (w_list w ++ [ifi]))
    | _ => Ret (Rvars (Some flags) (w_list w))
    end.

(** Calloc(1, sa->sa_len) and a copy of the socket address. *)
Definition copy_sa (buf : list Z) (sa : option (option Z)) : prog (option (Z * list Z)) :=
  match sa with
  | Some (Some sa) => sa_len ← mem (aread buf sa); copy_block sa_len (asub buf sa sa_len)
  | _ => Ret None
  end.
Definition or_old {A} (new old : option A) : option A := match new with Some _ => new | None => old end.

Definition on_newaddr `{Platform} `{RouteLayout} (doaliases : Z) (buf : list Z) (next : Z) (w : rvars) : prog rvars :=
  ifi ← mem (last (w_list w));
  match ifi_addr ifi, doaliases =? 0 with
  | Some _, true => Ret w
  | a, _ =>
      '(pre, cur) ← (match a with
        | Some _ =>
            self ← Calloc 1 sizeof_ifi_info;
            Ret (w_list w, Ifi_info self (ifi_name ifi) (ifi_index ifi) 0 (ifi_haddr ifi) (ifi_hlen ifi) (ifi_flags ifi) 0 None None None)
        | None => Ret (removelast (w_list w), ifi)
        end);
      ifam_addrs ← mem (aread32 buf (next + 4));
      rti_info ← mem (get_rtaddrs ifam_addrs (next + sizeof_ifa_msghdr) buf);
      addr ← copy_sa buf (rti_info !! RTAX_IFA);
      flags ← mem (w_flags w);
      brd ← (if negb (Z.land flags IFF_BROADCAST =? 0) then copy_sa buf (rti_info !! RTAX_BRD) else Ret None);
      dst ← (if negb (Z.land flags IFF_POINTOPOINT =? 0) then copy_sa buf (rti_info !! RTAX_BRD) else Ret None);
      let ifi1 := Ifi_info (ifi_self cur) (ifi_name cur) (ifi_index cur) (ifi_mtu cur) (ifi_haddr cur) (ifi_hlen cur) (ifi_flags cur) (ifi_myflags cur)
        (or_old addr (ifi_addr cur)) (or_old brd (ifi_brdaddr cur)) (or_old dst (ifi_dstaddr cur)) in
      Ret (Rvars (w_flags w) (pre ++ [ifi1]))
  end.

Definition get_ifi_info_rt `{Platform} `{RouteLayout} (fuel : nat) (family doaliases : Z) : prog (list ifi_info) :=
  '(_, buf) ← Net_rt_iflist family 0;
  r ← for_msgs (R := Empty_set) fuel buf 0 (fun next w =>
    ifm_type ← mem (aread buf (next + 3));
    if ifm_type =? RTM_IFINFO then w1 ← on_ifinfo buf next w; Ret (inl w1)
    else if ifm_type =? RTM_NEWADDR then w1 ← on_newaddr doaliases buf next w; Ret (inl w1)
    else err_quit (str "unexpected message type " ++ fmt_d ifm_type)) (Rvars None []);
  match r with inl w => Ret (w_list w) | inr v => match (v : Empty_set) with end end.
End IfiRoute.
