(* ===== verification/IfiProofs.v ===== *)
(** * The lists of interfaces

    get_ifi_info of lib/ reads the whole list of the system however its buffer
    has to grow, and returns one structure per address of the wanted family on
    an interface that is up, as a short reference function describes it; all
    memory but that of the list is given back, and free_ifi_info gives back the
    list. *)
From stdpp Require Import base list numbers strings sets gmap.
From S2P Require Import Prelude InetAddr InetV4 Checksum Cnum Sys Error Wrap StreamIO SockAddr Bytes Hoare Heap Route RouteProofs Ifi.
Import Cksum Route Ifi.
Import RouteProofs(iface, i_index, i_name, i_hw, i_type, enc_sdl, iface_ok, io_index, io_len, sdl_length, sdl_fields, sdl_alen, enc_sdl_length, store32_length, aread32_app).

Module IfiProofs.

(** ** C strings in a buffer *)
Definition no_nul (s : list Z) : Prop := Forall (fun c => c <> 0) s.

Lemma strcmp_nul a b t1 t2 : no_nul a -> no_nul b ->
  exists c, strcmp (a ++ 0 :: t1) (b ++ 0 :: t2) = Some c /\ (c =? 0) = bool_decide (a = b).
Proof.
  revert b. induction a as [|x a IH]; intros [|y b] Ha Hb; cbn [app strcmp].
  - eexists. split; [done|]. by rewrite bool_decide_eq_true_2.
  - apply Forall_cons in Hb as [Hy _]. rewrite (proj2 (Z.eqb_neq 0 y)) by done. eexists. split; [done|]. rewrite bool_decide_eq_false_2 by done. apply Z.eqb_neq. lia.
  - apply Forall_cons in Ha as [Hx _]. rewrite (proj2 (Z.eqb_neq x 0)) by done. eexists. split; [done|]. rewrite bool_decide_eq_false_2 by done. apply Z.eqb_neq. lia.
  - apply Forall_cons in Ha as [Hx Ha]. apply Forall_cons in Hb as [Hy Hb]. destruct (Z.eqb_spec x y) as [->|Hne]; cbn [negb].
    + rewrite (proj2 (Z.eqb_neq y 0)) by done. destruct (IH b Ha Hb) as (c & E & Hc). exists c. split; [done|]. rewrite Hc. apply bool_decide_ext. split; congruence.
    + eexists. split; [done|]. rewrite bool_decide_eq_false_2 by congruence. apply Z.eqb_neq. lia.
Qed.

(** As far as it looks strncmp agrees with strcmp. *)
Lemma strncmp_strcmp n a b t1 t2 : (length a < n)%nat -> no_nul a ->
  strcmp (a ++ 0 :: t1) (b ++ 0 :: t2) = Some (strncmp n (a ++ 0 :: t1) (b ++ 0 :: t2)).
Proof.
  revert n b. induction a as [|x a IH]; intros [|n] b Hn Ha; cbn [length] in Hn; try lia; cbn [app strcmp strncmp hd tl].
  - destruct b as [|y b]; cbn [app hd]; [by cbn|]. by destruct (0 =? y); cbn.
  - apply Forall_cons in Ha as [Hx Ha]. destruct b as [|y b]; cbn [app hd tl].
    + by rewrite (proj2 (Z.eqb_neq x 0)) by done.
    + destruct (negb _); [done|]. rewrite (proj2 (Z.eqb_neq x 0)) by done. apply IH; [lia|done].
Qed.

Lemma strncmp_nul n a b t1 t2 : (length a < n)%nat -> no_nul a -> no_nul b ->
  (strncmp n (a ++ 0 :: t1) (b ++ 0 :: t2) =? 0) = bool_decide (a = b).
Proof.
  intros Hn Ha Hb. destruct (strcmp_nul a b t1 t2 Ha Hb) as (c & E & Hc). rewrite (strncmp_strcmp n) in E by done. by injection E as ->.
Qed.

(** The name of an interface without the number of the alias. *)
Fixpoint base (name : list Z) : list Z :=
  match name with [] => [] | c :: s => if c =? 58 then [] else c :: base s end.
Lemma base_no_nul s : no_nul s -> no_nul (base s).
Proof. induction 1 as [|c s Hc _ IH]; [constructor|]. cbn. destruct (_ =? _); by constructor. Qed.
Lemma base_length s : (length (base s) <= length s)%nat.
Proof. induction s as [|c s IH]; [done|]. cbn. destruct (_ =? _); cbn; lia. Qed.

(** strchr finds the colon, and what it is replaced by ends the name. *)
Lemma cut_colon s t off : no_nul s -> 0 <= off ->
  match strchr_from (s ++ 0 :: t) off 58 with
  | None => False
  | Some None => base s = s
  | Some (Some c) => exists suf, s = base s ++ 58 :: suf /\ c = off + Z.of_nat (length (base s))
  end.
Proof.
  intros Hs. revert off. induction Hs as [|x s Hx Hs IH]; intros off Hoff; [done|]. cbn [app strchr_from base].
  destruct (Z.eqb_spec x 58) as [->|Hne]; [exists s; cbn; split; [done|lia]|]. rewrite (proj2 (Z.eqb_neq x 0)) by done.
  specialize (IH (off + 1) ltac:(lia)). destruct (strchr_from _ _ _) as [[c|]|]; [|congruence|done].
  destruct IH as (suf & E & ->). exists suf. cbn [length app]. split; [congruence|lia].
Qed.

Definition field16 (name : list Z) : list Z := name ++ replicate (16 - length name) 0.
(** A name in its field: the string, its NUL, and what is behind it. *)
Lemma field16_nul s : (length s <= 15)%nat -> exists t, field16 s = s ++ 0 :: t /\ length (field16 s) = 16%nat.
Proof.
  intros Hs. unfold field16. exists (replicate (15 - length s) 0). rewrite length_app, length_replicate.
  replace (16 - length s)%nat with (S (15 - length s)) by lia. split; [done|lia].
Qed.

(** The last byte of the field can be cleared without changing the name. *)
Lemma awrite_last_nul n t : no_nul n -> length (n ++ 0 :: t) = 16%nat ->
  exists f, awrite (n ++ 0 :: t) 15 0 = Some f /\ until_nul f = n.
Proof.
  intros Hn Hl. rewrite length_app in Hl. cbn [length] in Hl. destruct t as [|x t] using rev_ind.
  - exists (n ++ [0]). split; [apply awrite_app; cbn in Hl; lia|by apply V4.until_nul_app].
  - clear IHt. exists (n ++ 0 :: t ++ [0]). split; [|by apply V4.until_nul_app].
    rewrite app_comm_cons, app_assoc. rewrite length_app in Hl. cbn [length] in Hl. rewrite awrite_app; [by rewrite <- app_assoc|].
    rewrite length_app. cbn [length]. lia.
Qed.

(** strchr and the assignment on the field of a name in a buffer. *)
Lemma cut_name front s r : no_nul s -> (length s <= 15)%nat ->
  exists c f t, strchr (front ++ field16 s ++ r) (Z.of_nat (length front)) 58 = Some c /\
    (match c with Some c => awrite (front ++ field16 s ++ r) c 0 | None => Some (front ++ field16 s ++ r) end) = Some (front ++ f ++ r) /\
    f = base s ++ 0 :: t /\ length f = 16%nat.
Proof.
  intros Hs Hl. destruct (field16_nul s Hl) as (t0 & Ef & L16). unfold strchr. rewrite Nat2Z.id, drop_app_length, Ef, <- app_assoc. cbn [app].
  pose proof (cut_colon s (t0 ++ r) (Z.of_nat (length front)) Hs ltac:(lia)) as H. destruct (strchr_from _ _ _) as [[c|]|]; [| |done].
  - destruct H as (suf & E & ->). rewrite Ef, length_app in L16. cbn [length] in L16. eexists _, (base s ++ 0 :: suf ++ 0 :: t0), _. split; [done|]. split; [|split; [done|]].
    + rewrite E at 1. rewrite <- !app_assoc. cbn [app]. rewrite (app_assoc front). rewrite awrite_app by (rewrite length_app; lia). rewrite <- !app_assoc. cbn [app]. by rewrite <- ?app_assoc.
    + rewrite E in L16 at 1. rewrite !length_app in *. cbn [length] in *. rewrite length_app. cbn [length]. lia.
  - eexists None, (s ++ 0 :: t0), t0. split; [done|]. rewrite H. split_and!; [by rewrite <- app_assoc|done|by rewrite <- Ef].
Qed.

(** ** The list of SIOCGIFCONF *)

(** An entry: an interface name, and the description of the interface or the bytes of
    one of its addresses. *)
Inductive eaddr := ELink (i : iface) | EAddr (sa : list Z).
Record ifent := Ifent { e_name : list Z; e_addr : eaddr }.
Definition e_sa `{Platform} (e : ifent) : list Z :=
  match e_addr e with ELink i => enc_sdl i ++ replicate (16 - length (enc_sdl i)) 0 | EAddr sa => sa end.
Definition enc_ent `{Platform} (e : ifent) : list Z := field16 (e_name e) ++ e_sa e.
Definition enc_conf `{Platform} (l : list ifent) : list Z := l ≫= enc_ent.
Abbreviation size_of l := (Z.of_nat (length (enc_conf l))).

Definition addr_ok (sa : list Z) : Prop :=
  exists l f r, sa = l :: f :: r /\ f <> AF_LINK /\ Z.of_nat (length sa) = Z.max 16 l /\ (f = AF_INET6 -> l = 28).
Record ent_ok (e : ifent) : Prop := {
  eo_name : no_nul (e_name e);
  eo_len : (length (e_name e) <= 15)%nat;
  eo_addr : match e_addr e with ELink i => iface_ok i | EAddr sa => addr_ok sa end }.

(** What the system knows of its interfaces, by name. *)
Record ifstate := Ifstate {
  conf : list ifent; flags : list Z -> Z; mtu : list Z -> Z; brd : list Z -> list Z; dst : list Z -> list Z }.

(** ** The reference *)

(** A structure without its addresses in memory. *)
Record iview := Iview {
  iv_name : list Z; iv_index : Z; iv_mtu : Z; iv_haddr : list Z; iv_hlen : Z; iv_flags : Z; iv_myflags : Z;
  iv_addr : option (list Z); iv_brdaddr : option (list Z); iv_dstaddr : option (list Z) }.
Definition view (i : ifi_info) : iview :=
  Iview (until_nul (ifi_name i)) (ifi_index i) (ifi_mtu i) (ifi_haddr i) (ifi_hlen i) (ifi_flags i) (ifi_myflags i)
    (snd <$> ifi_addr i) (snd <$> ifi_brdaddr i) (snd <$> ifi_dstaddr i).

(** The last interface described: its name, index and hardware address. *)
Definition link := option (list Z * Z * list Z).
Definition link_index (lk : link) : Z := match lk with Some (_, i, _) => i | None => 0 end.
Definition link_hw (lk : link) : list Z := match lk with Some (_, _, h) => h | None => [] end.
(** It is forgotten, all but the name, at an address of another interface. *)
Definition link_for (n : list Z) (lk : link) : link :=
  match lk with Some (ln, _, _) => if bool_decide (ln = n) then lk else Some (ln, 0, []) | None => None end.

Record rstate := Rstate { r_last : list Z; r_link : link; r_out : list iview }.

Definition has_flag (fl bit : Z) : bool := negb (Z.land fl bit =? 0).
Definition ref_view `{Platform} (I : ifstate) (family : Z) (e : ifent) (myflags : Z) (lk : link) : iview :=
  let n := base (e_name e) in let fl := s16 (flags I n) in
  Iview n (s16 (link_index lk)) (s16 (mtu I n)) (take 8 (link_hw lk) ++ replicate (8 - length (link_hw lk)) 0)
    (Z.min 8 (Z.of_nat (length (link_hw lk)))) fl myflags
    (Some (take (if family =? AF_INET then 16 else 28) (e_sa e)))
    (if (family =? AF_INET) && has_flag fl IFF_BROADCAST then Some (brd I n) else None)
    (if has_flag fl IFF_POINTOPOINT then Some (dst I n) else None).

Definition e_family (e : ifent) : Z := match e_addr e with ELink _ => AF_LINK | EAddr sa => nth 1 sa 0 end.

Definition ref_step `{Platform} (I : ifstate) (family doaliases : Z) (st : rstate) (e : ifent) : rstate :=
  let lk := match e_addr e with ELink i => Some (e_name e, i_index i, i_hw i) | EAddr _ => r_link st end in
  if negb (e_family e =? family) then Rstate (r_last st) lk (r_out st)
  else
    let n := base (e_name e) in
    let seen := bool_decide (r_last st = n) in
    if seen && (doaliases =? 0) then Rstate (r_last st) lk (r_out st)
    else if negb (has_flag (s16 (flags I n)) IFF_UP) then Rstate n lk (r_out st)
    else Rstate n (link_for n lk) (r_out st ++ [ref_view I family e (if seen then IFI_ALIAS else 0) (link_for n lk)]).

Definition interfaces `{Platform} (I : ifstate) (family doaliases : Z) : list iview :=
  r_out (foldl (ref_step I family doaliases) (Rstate [] None []) (conf I)).

(** A struct ifreq of which the bytes behind the name have been replaced. *)
Definition answer (ifr bs : list Z) : list Z := take 16 ifr ++ bs ++ drop (16 + length bs) ifr.
Definition ifr_name (ifr : list Z) : list Z := until_nul (take 16 ifr).

(** What the other requests write into it. *)
Definition reply `{Platform} (I : ifstate) (r : Z) (n : list Z) : option (list Z) :=
  if r =? SIOCGIFFLAGS then Some (store16 (flags I n))
  else if r =? SIOCGIFMTU then Some (store32 (mtu I n))
  else if r =? SIOCGIFBRDADDR then Some (brd I n)
  else if r =? SIOCGIFDSTADDR then Some (dst I n)
  else None.
Record ifs_ok (I : ifstate) : Prop := {
  is_flags : forall n, is_u16 (flags I n);
  is_mtu : forall n, is_u32 (mtu I n);
  is_brd : forall n, length (brd I n) = 16%nat;
  is_dst : forall n, length (dst I n) = 16%nat }.

Section Answer.
Context `{HP : Platform} (ifr : list Z) (H32 : length ifr = 32%nat).

Lemma answer_split bs : (length bs <= 16)%nat -> exists l r, answer ifr bs = l ++ bs ++ r /\ length l = 16%nat /\
  length (answer ifr bs) = 32%nat /\ l = take 16 ifr.
Proof.
  intros Hb. exists (take 16 ifr), (drop (16 + length bs) ifr). split; [done|]. unfold answer.
  rewrite !length_app, length_take, length_drop. split_and!; [lia|lia|done].
Qed.
Lemma answer_name bs : ifr_name (answer ifr bs) = ifr_name ifr.
Proof. unfold ifr_name, answer. rewrite take_app_le, take_take by (rewrite length_take; lia). done. Qed.
Lemma answer_flags w : is_u16 w -> aread16 (answer ifr (store16 w)) 16 = Some w.
Proof. intros Hw. destruct (answer_split (store16 w)) as (l & r & -> & Hl & _); [rewrite store16_length; lia|]. apply aread16_app; [done|lia]. Qed.
Lemma answer_mtu w : is_u32 w -> aread32 (answer ifr (store32 w)) 16 = Some w.
Proof. intros Hw. destruct (answer_split (store32 w)) as (l & r & -> & Hl & _); [rewrite store32_length; lia|]. apply aread32_app; [done|lia]. Qed.
Lemma answer_addr bs : length bs = 16%nat -> asub (answer ifr bs) 16 sizeof_sockaddr_in = Some bs.
Proof. intros Hb. destruct (answer_split bs) as (l & r & -> & Hl & _); [lia|]. apply asub_app; [lia|]. unfold sizeof_sockaddr_in. lia. Qed.
End Answer.

Lemma s16_idem z : s16 (s16 z) = s16 z.
Proof.
  unfold s16, sint, wrap. change (2 ^ 16) with 65536. change (2 ^ (16 - 1)) with 32768.
  destruct (Z.ltb_spec (z mod 65536) 32768).
  - rewrite Z.mod_mod by done. by rewrite (proj2 (Z.ltb_lt _ _)).
  - pose proof (Z.mod_pos_bound z 65536).
    rewrite <- (Z.mod_unique (z mod 65536 - 65536) 65536 (-1) (z mod 65536)) by lia. by rewrite (proj2 (Z.ltb_ge _ _)).
Qed.

(** SIOCGIFCONF writes as many entries as there is room for, and leaves some out only when
    less than 320 bytes remain (an entry has at most 271); or it refuses a
    buffer that is too small with EINVAL. *)
Class IfKernel (K : Type) `{!Kernel K} `{HP : Platform} := {
  ik_heap :: HeapKernel K;
  ifs : K -> ifstate;
  ik_keep : forall X (e : sysE X) k, ifs (kcall e k).2 = ifs k;
  ik_keep_lib : forall X (e : libE X) k, ifs (klib e k).2 = ifs k;
  ik_socket : forall f t p k, live (kcall (Esocket f t p) k).2 = live k;
  ik_ioctl : forall fd r a k, live (kcall (Eioctl fd r a) k).2 = live k;
  ik_conf : forall fd len k,
    match (kcall (Eioctl fd SIOCGIFCONF (IoIfconf len [])) k).1 with
    | Err e => e = EINVAL -> len < size_of (conf (ifs k))
    | Ok (_, a) => exists l rest, conf (ifs k) = l ++ rest /\ a = IoIfconf (size_of l) (enc_conf l) /\
        size_of l <= len /\ (rest <> [] -> len < size_of l + 320)
    end;
  ik_req : forall fd r ifr k z a k' bs, length ifr = 32%nat -> kcall (Eioctl fd r (IoReq ifr)) k = (Ok (z, a), k') ->
    reply (ifs k) r (ifr_name ifr) = Some bs -> a = IoReq (answer ifr bs) }.

(** The process ends only if one of these calls can fail, and then with status 1. *)
Definition checked_call {X} (e : sysE X) : Prop :=
  match e with Esocket _ _ _ | Emalloc _ | Ecalloc _ _ | Eioctl _ _ _ => True | _ => False end.
Definition may_fail (K : Type) `{!Kernel K} : Prop :=
  exists X (e : sysE X) (k k' : K) n, checked_call e /\ kcall e k = (Err n, k').

Section Proofs.
Context {K : Type} `{HK : !Kernel K} `{HP : Platform} `{HI : !IfKernel K} (L : gset Z) (I : ifstate).
Implicit Types (k : K) (g : globals).

Definition exits (h : halt) : Prop := h = Exit 1 /\ may_fail K.
Lemma exits_failed {X} (e : sysE X) k n k' : checked_call e -> kcall e k = (Err n, k') -> exits (Exit 1).
Proof. intros H E. split; [done|]. by exists X, e, k, k', n. Qed.

(** The program owns [bs], and the interfaces are [I]. *)
Definition has (bs : list Z) g k : Prop := owns L bs k /\ ifs k = I /\ daemon_proc g = 0.

Lemma wp_Malloc n (Q : Z -> globals -> K -> Prop) bs g k :
  has bs g k -> (forall p k', has (p :: bs) g k' -> Q p g k') -> wp exits (Malloc n) Q g k.
Proof.
  intros (Ho & Hi & Hd) H. unfold Malloc. apply wp_checked_or; [done|intros n' k'; by apply exits_failed|]. intros p k' E. apply H. split_and!; [|by rewrite <- Hi, <- (ik_keep _ (Emalloc n) k), E|done].
  pose proof (hk_malloc k n) as Ha. rewrite E in Ha. by eapply (owns_alloc _ _ _ _ _ Ha).
Qed.
Lemma wp_Calloc n s (Q : Z -> globals -> K -> Prop) bs g k :
  has bs g k -> (forall p k', has (p :: bs) g k' -> Q p g k') -> wp exits (Calloc n s) Q g k.
Proof.
  intros (Ho & Hi & Hd) H. unfold Calloc. apply wp_checked_or; [done|intros n' k'; by apply exits_failed|]. intros p k' E. apply H. split_and!; [|by rewrite <- Hi, <- (ik_keep _ (Ecalloc n s) k), E|done].
  pose proof (hk_calloc k n s) as Ha. rewrite E in Ha. by eapply (owns_alloc _ _ _ _ _ Ha).
Qed.
Lemma wp_Free {Eh} p (Q : unit -> globals -> K -> Prop) bs g k :
  has (p :: bs) g k -> (forall k', has bs g k' -> Q tt g k') -> wp Eh (lib (Efree p)) Q g k.
Proof.
  intros (Ho & Hi & Hd) H. apply wp_lib. intros [] k' E. apply H. split_and!; [|by rewrite <- Hi, <- (ik_keep_lib _ (Efree p) k), E|done].
  pose proof (owns_free _ _ _ Ho) as H'. by rewrite E in H'.
Qed.
Lemma has_ioctl fd r a bs g k : has bs g k -> has bs g (kcall (Eioctl fd r a) k).2.
Proof. intros (Ho & Hi & Hd). split_and!; [eapply owns_same; [apply ik_ioctl|done]|by rewrite ik_keep|done]. Qed.
Lemma has_errno n bs g k : has bs g k -> has bs (set_errno n g) k.
Proof. done. Qed.

(** The loop ends, and with the whole list: an unchanged length after the buffer has
    grown by 320 bytes means that nothing was left out. *)
Lemma ifconf_run fd fuel : forall lastlen len bs g k, has bs g k -> 0 <= lastlen -> lastlen + 320 <= len ->
  let T := size_of (conf I) in
  (lastlen = T /\ (1 <= fuel)%nat) \/ (T + 320 - len <= 320 * (Z.of_nat fuel - 2) /\ (2 <= fuel)%nat) ->
  wp exits (ifconf_loop fuel fd lastlen len) (fun '(p, buf) g' k' => buf = enc_conf (conf I) /\ has (p :: bs) g' k') g k.
Proof.
  induction fuel as [|fuel IH]; intros lastlen len bs g k Hh Hl0 Hlen T Hfuel; [lia|]. cbn [ifconf_loop].
  apply wp_bind. eapply wp_Malloc; [done|]. intros p k1 Hh1.
  assert (forall lastlen' g k', has (p :: bs) g k' -> 0 <= lastlen' <= len ->
    (lastlen' = T /\ (1 <= fuel)%nat) \/ (T + 320 - (len + 320) <= 320 * (Z.of_nat fuel - 2) /\ (2 <= fuel)%nat) ->
    wp exits (_ ← lib (Efree p); ifconf_loop fuel fd lastlen' (len + 10 * sizeof_ifreq))
      (fun '(p, buf) g' k' => buf = enc_conf (conf I) /\ has (p :: bs) g' k') g k') as Hagain.
  { intros lastlen' g' k' Hh' Hl' Hf. apply wp_bind. eapply wp_Free; [done|]. intros k2 Hh2.
    change (10 * sizeof_ifreq) with 320. apply IH; try done; lia. }
  pose proof (ik_conf fd len k1) as Hc. pose proof (has_ioctl fd SIOCGIFCONF (IoIfconf len []) _ _ _ Hh1) as Hh2.
  destruct Hh1 as (_ & Hi1 & _). rewrite Hi1 in Hc. fold T in Hc.
  apply wp_bind, wp_call.
  - intros [z a] k2 E. rewrite E in Hc, Hh2. cbn in Hc, Hh2. destruct Hc as (l & rest & El & -> & Hll & Hrest).
    assert (size_of l + size_of rest = T) as HT by (unfold T; rewrite El; unfold enc_conf; rewrite bind_app, length_app; lia).
    assert (rest = [] -> size_of l = T) as Hwhole by (intros ->; cbn in HT; lia).
    destruct (Z.eqb_spec (size_of l) lastlen) as [Eq|Hne].
    + apply wp_ret. split; [|done]. rewrite Nat2Z.id, take_ge by done.
      destruct rest; [by rewrite El, app_nil_r|]. specialize (Hrest ltac:(done)). lia.
    + apply Hagain; [done|lia|]. destruct rest; [specialize (Hwhole eq_refl)|specialize (Hrest ltac:(done))]; lia.
  - intros n k2 E. rewrite E in Hc, Hh2. cbn in Hc, Hh2. wp_step. cbn [errno set_errno].
    destruct (Z.eqb_spec n EINVAL) as [->|]; cbn [negb orb]; [|apply wp_err_sys; [apply Hh2|refine (exits_failed _ _ _ _ _ E); exact Logic.I]].
    destruct (Z.eqb_spec lastlen 0) as [->|]; cbn [negb]; [|apply wp_err_sys; [apply Hh2|refine (exits_failed _ _ _ _ _ E); exact Logic.I]].
    specialize (Hc eq_refl). apply Hagain; [done|lia|]. lia.
Qed.

Lemma wp_ifr fd r ifr x (Q : list Z -> globals -> K -> Prop) bs g k :
  has bs g k -> length ifr = 32%nat -> reply I r (ifr_name ifr) = Some x ->
  (forall k', has bs g k' -> Q (answer ifr x) g k') -> wp exits (Ioctl_ifr fd r ifr) Q g k.
Proof.
  intros Hh H32 Hr H. pose proof Hh as (_ & Hi & Hd). unfold Ioctl_ifr, Ioctl. apply wp_bind, wp_checked_or; [done|intros n' k'; by apply exits_failed|].
  intros [z a] k' E. pose proof (has_ioctl fd r (IoReq ifr) _ _ _ Hh) as Hh'. rewrite E in Hh'.
  rewrite (ik_req fd r ifr k z a k' x); [|done|done|by rewrite Hi]. apply wp_ret, H, Hh'.
Qed.
Lemma wp_copy n bytes o (Q : option (Z * list Z) -> globals -> K -> Prop) bs g k :
  has bs g k -> o = Some bytes -> (forall p k', has (p :: bs) g k' -> Q (Some (p, bytes)) g k') -> wp exits (copy_block n o) Q g k.
Proof.
  intros Hh -> H. unfold copy_block. apply wp_bind. eapply wp_Calloc; [done|]. intros p k' Hh'.
  apply wp_bind. eapply wp_mem; [done|]. by apply wp_ret, H.
Qed.

(** ** One entry *)
Definition blocks_of (a b d : option (Z * list Z)) : list Z := opt_block a ++ opt_block b ++ opt_block d.
Definition blocks (l : list ifi_info) : list Z :=
  l ≫= fun i => blocks_of (ifi_addr i) (ifi_brdaddr i) (ifi_dstaddr i) ++ [ifi_self i].

Lemma has_perm bs bs' g k : bs ≡ₚ bs' -> has bs g k -> has bs' g k.
Proof. intros Hp (Ho & Hr). split; [by eapply owns_perm|done]. Qed.

Context (HI_ok : ifs_ok I).

(** The addresses of an entry at [ifr]; the request's name is that of the interface. *)
Lemma addrs_run fd ifr family n fl buf sa c bs g k :
  has bs g k -> length c = 32%nat -> ifr_name c = n -> family = AF_INET \/ (family = AF_INET6 /\ has_flag fl IFF_POINTOPOINT = false) ->
  asub buf (ifr + 16) (if family =? AF_INET then 16 else 28) = Some sa ->
  wp exits (addrs_of fd ifr family fl buf c) (fun '(a, b, d) g' k' => g' = g /\ has (blocks_of a b d ++ bs) g k' /\
    snd <$> a = Some sa /\
    snd <$> b = (if (family =? AF_INET) && has_flag fl IFF_BROADCAST then Some (brd I n) else None) /\
    snd <$> d = (if has_flag fl IFF_POINTOPOINT then Some (dst I n) else None)) g k.
Proof.
  intros Hh Hc Hn Hf Hsa. unfold addrs_of. destruct Hf as [->|[-> Hpp]].
  - change (AF_INET =? AF_INET) with true in *. cbn iota in *. cbn [andb]. apply wp_bind. eapply wp_copy; [done|done|]. intros p k1 Hh1.
    apply wp_bind. eapply wp_mono with (P := fun '(b, c1) g' k' => g' = g /\ has (blocks_of (Some (p, sa)) b None ++ bs) g k' /\ length c1 = 32%nat /\ ifr_name c1 = n /\
      snd <$> b = if has_flag fl IFF_BROADCAST then Some (brd I n) else None).
    + unfold has_flag at 1. destruct (negb (Z.land fl IFF_BROADCAST =? 0)) eqn:Eb; [|by wp_step; split_and!].
      apply wp_bind. eapply (wp_ifr _ _ c (brd I n)); [done|done|by rewrite Hn|]. intros k2 Hh2.
      apply wp_bind. eapply (wp_copy _ (brd I n)); [done|apply answer_addr; [done|apply HI_ok]|]. intros q k3 Hh3. apply wp_ret.
      destruct (answer_split c Hc (brd I n)) as (l & r & _ & _ & L32 & _); [rewrite (is_brd _ HI_ok); lia|].
      split_and!; [done| |done|by rewrite answer_name|done].
      eapply has_perm, Hh3. unfold blocks_of. cbn. solve_Permutation.
    + intros [b c1] g1 k2 (-> & Hh2 & Hc1 & Hn1 & Hb). apply wp_bind. destruct (has_flag fl IFF_POINTOPOINT) eqn:Ep; unfold has_flag in Ep; rewrite Ep.
      * apply wp_bind. eapply (wp_ifr _ _ c1 (dst I n)); [done|done|by rewrite Hn1|]. intros k3 Hh3.
        eapply (wp_copy _ (dst I n)); [done|apply answer_addr; [done|apply HI_ok]|]. intros q k4 Hh4. apply wp_ret. split_and!; try done.
        eapply has_perm, Hh4. unfold blocks_of. cbn. solve_Permutation.
      * wp_step. apply wp_ret. split_and!; done.
  - change (AF_INET6 =? AF_INET) with false in *. change (AF_INET6 =? AF_INET6) with true. cbn iota in *. cbn [andb].
    apply wp_bind. eapply wp_copy; [done|done|]. intros p k1 Hh1. unfold has_flag in *. rewrite Hpp. wp_step. apply wp_ret. split_and!; done.
Qed.
(** The link of the reference is in the part of the buffer that has been passed. *)
Definition link_agrees (front : list Z) (v : vars) (lk : link) : Prop :=
  v_idx v = link_index lk /\ v_hlen v = Z.of_nat (length (link_hw lk)) /\ (length (link_hw lk) < 256)%nat /\
  (link_hw lk <> [] -> exists a b, v_haddr v = Some (Z.of_nat (length a)) /\ front = a ++ link_hw lk ++ b) /\
  match lk with
  | None => v_sdlname v = None
  | Some (n, _, _) => no_nul n /\ exists a b, v_sdlname v = Some (Z.of_nat (length a)) /\ front = a ++ n ++ 0 :: b
  end.
Lemma link_agrees_app front x v lk : link_agrees front v lk -> link_agrees (front ++ x) v lk.
Proof.
  intros (H1 & H2 & H3 & H4 & H5). split_and!; [done..| |].
  - intros Hne. destruct (H4 Hne) as (a & b & E & ->). exists a, (b ++ x). by rewrite <- !app_assoc.
  - destruct lk as [[[n i] h]|]; [|done]. destruct H5 as (Hn & a & b & E & ->). split; [done|]. exists a, (b ++ x). by rewrite <- !app_assoc.
Qed.

(** The variables, the reference's state and the memory agree. *)
Definition agrees (front : list Z) (v : vars) (st : rstate) : Prop :=
  (exists t, v_lastname v = r_last st ++ 0 :: t /\ length (v_lastname v) = 16%nat /\ no_nul (r_last st)) /\
  link_agrees front v (r_link st) /\ view <$> v_list v = r_out st.

(** The comparison with the last link, at an entry whose name is [n]. *)
Lemma link_of_run front v lk n t : link_agrees front v lk -> no_nul n -> v_buf v = front ++ n ++ 0 :: t ->
  exists v1, link_of (Z.of_nat (length front)) v = Some v1 /\ link_agrees front v1 (link_for n lk) /\
    v_buf v1 = v_buf v /\ v_lastname v1 = v_lastname v /\ v_list v1 = v_list v.
Proof.
  intros Hlk Hn Eb. pose proof Hlk as (H1 & H2 & H3 & H4 & H5). unfold link_of. destruct lk as [[[ln i] h]|].
  - destruct H5 as (Hln & a & b & -> & Ef).
    assert (exists c, strcmp (drop (Z.to_nat (Z.of_nat (length a))) (v_buf v)) (drop (Z.to_nat (Z.of_nat (length front))) (v_buf v)) = Some c /\
      (c =? 0) = bool_decide (ln = n)) as (c & E & Hc).
    { rewrite Eb, !Nat2Z.id, drop_app_length. rewrite Ef, <- !app_assoc. cbn [app]. rewrite drop_app_length. by apply strcmp_nul. }
    rewrite E. cbn [mbind option_bind]. rewrite Hc. unfold link_for.
    eexists. split; [done|]. case_bool_decide; [done|]. split; [|done]. split_and!; try done; cbn; eauto 10. lia.
  - rewrite H5. cbn [mbind option_bind]. eexists. split; [done|]. split; [|done]. by split_and!.
Qed.

Lemma hw_run front v lk t : link_agrees front v lk -> v_buf v = front ++ t ->
  hw_addr v = Some (Z.min 8 (Z.of_nat (length (link_hw lk))), take 8 (link_hw lk) ++ replicate (8 - length (link_hw lk)) 0).
Proof.
  intros (_ & H2 & H3 & H4 & _) Eb. unfold hw_addr. set (h := link_hw lk) in *. rewrite H2.
  assert (u16 (Z.of_nat (length h)) = Z.of_nat (length h)) as -> by (unfold u16, wrap; rewrite Z.mod_small; lia).
  assert ((if IFI_HADDR <? Z.of_nat (length h) then IFI_HADDR else Z.of_nat (length h)) = Z.min 8 (Z.of_nat (length h))) as ->.
  { unfold IFI_HADDR. destruct (Z.ltb_spec 8 (Z.of_nat (length h))); lia. }
  destruct (Z.eqb_spec (Z.of_nat (length h)) 0) as [E0|Hne].
  { assert (h = []) as -> by (apply nil_length_inv; lia). done. }
  destruct H4 as (a & b & -> & Ef); [intros E; by rewrite E in Hne|]. cbn [mbind option_bind]. rewrite Eb, Ef.
  rewrite <- (take_drop 8 h) at 1. rewrite <- !app_assoc, asub_app; [|done|rewrite length_take; lia]. cbn [mbind option_bind].
  rewrite memcpy_is_Some; [|lia|rewrite length_replicate, length_take; unfold IFI_HADDR; lia].
  change (Z.to_nat 0) with 0%nat. rewrite take_0, app_nil_l. cbn [mbind option_bind Nat.add]. do 3 f_equal.
  rewrite drop_replicate. f_equal. rewrite length_take. unfold IFI_HADDR. lia.
Qed.

Definition wanted (family : Z) : Prop :=
  family = AF_INET \/ (family = AF_INET6 /\ forall n, has_flag (s16 (flags I n)) IFF_POINTOPOINT = false).

(** A new structure, for the entry [e] whose name field has become [f]. *)
Lemma new_ifi_run fd family myflags e f t rest front v lk c bs g k :
  let n := base (e_name e) in
  ent_ok e -> e_addr e = EAddr (e_sa e) -> e_family e = family -> wanted family -> f = n ++ 0 :: t -> length f = 16%nat ->
  v_buf v = front ++ f ++ e_sa e ++ rest -> link_agrees front v lk -> length c = 32%nat -> ifr_name c = n ->
  has (blocks (v_list v) ++ bs) g k ->
  wp exits (new_ifi fd (Z.of_nat (length front)) family (s16 (flags I n)) myflags c v)
    (fun v' g' k' => v_buf v' = v_buf v /\ v_lastname v' = v_lastname v /\ link_agrees front v' (link_for n lk) /\
       view <$> v_list v' = (view <$> v_list v) ++ [ref_view I family e myflags (link_for n lk)] /\ g' = g /\ has (blocks (v_list v') ++ bs) g' k') g k.
Proof.
  intros n He Ea Efam Hw Ef L16 Eb Hlk Hc Hn Hh. unfold new_ifi.
  assert (no_nul n) as Hnn by (apply base_no_nul, He).
  apply wp_bind. eapply wp_Calloc; [done|]. intros self k1 Hh1.
  apply wp_bind. eapply (wp_ifr _ _ c (store32 (mtu I n))); [done|done|by rewrite Hn|]. intros k2 Hh2.
  apply wp_bind. eapply wp_mem; [apply answer_mtu; [done|apply HI_ok]|].
  apply wp_bind. eapply wp_mem; [rewrite Eb; apply asub_app; [done|by rewrite L16]|].
  assert (exists f1, awrite f (IFI_NAME - 1) 0 = Some f1 /\ until_nul f1 = n) as (f1 & Ef1 & Hf1).
  { destruct (awrite_last_nul n t) as (f1 & E & H); [done|by rewrite <- Ef|]. exists f1. by rewrite Ef. }
  apply wp_bind. eapply wp_mem; [exact Ef1|].
  assert (v_buf v = front ++ n ++ 0 :: t ++ e_sa e ++ rest) as Eb2 by (rewrite Eb, Ef, <- app_assoc; done).
  destruct (link_of_run front v lk n _ Hlk Hnn Eb2) as (v1 & E1 & Hlk1 & Hb1 & Hl1 & Hv1).
  apply wp_bind. eapply wp_mem; [exact E1|]. rewrite Eb in Hb1.
  apply wp_bind. eapply wp_mem; [by eapply hw_run|].
  apply wp_bind. destruct (answer_split c Hc (store32 (mtu I n))) as (l & r & _ & _ & L32 & _); [rewrite store32_length; lia|].
  eapply wp_mono; [eapply (addrs_run _ _ _ n _ _ (take (if family =? AF_INET then 16 else 28) (e_sa e))); [exact Hh2|done|by rewrite answer_name| |]|].
  - destruct Hw as [->|[-> Hw]]; [by left|right; by split].
  - set (N := if family =? AF_INET then 16%nat else 28%nat).
    assert (v_buf v1 = (front ++ f) ++ take N (e_sa e) ++ drop N (e_sa e) ++ rest) as -> by (by rewrite Hb1, (app_assoc (take N _)), take_drop, <- app_assoc).
    apply asub_app; [rewrite length_app; lia|]. pose proof (eo_addr _ He) as Ho. rewrite Ea in Ho. destruct Ho as (sl & sf & sr & Es & _ & Hsl & H6).
    assert (sf = family) as Hsf by (rewrite <- Efam; unfold e_family; rewrite Ea, Es; done).
    unfold N. rewrite length_take. destruct Hw as [->|[-> _]]; [change (AF_INET =? AF_INET) with true|change (AF_INET6 =? AF_INET) with false; specialize (H6 Hsf)]; cbn iota; lia.
  - intros [[a b] d] g' k3 (-> & Hh3 & Ha & Hb & Hd). apply wp_ret. cbn [v_buf v_lastname v_list]. rewrite Hb1, Hl1, Hv1. split_and!; try done.
    + rewrite fmap_app. f_equal. cbn. unfold view, ref_view. cbn. rewrite Hf1, s16_idem, Ha, Hb, Hd. destruct Hlk1 as (-> & _). done.
    + eapply has_perm, Hh3. unfold blocks. rewrite bind_app. cbn [mbind list_bind ifi_addr ifi_brdaddr ifi_dstaddr ifi_self]. rewrite app_nil_r. solve_Permutation.
Qed.
(** The socket address of an entry starts with its length and family. *)
Lemma sa_head e : ent_ok e -> exists l r, e_sa e = l :: e_family e :: r /\ Z.of_nat (length (e_sa e)) = Z.max 16 l.
Proof.
  intros He. pose proof (eo_addr _ He) as Ho. unfold e_family, e_sa. destruct (e_addr e) as [i|sa].
  - exists (sdl_length i). eexists. split; [done|]. pose proof (enc_sdl_length i). rewrite length_app, length_replicate. lia.
  - destruct Ho as (l & f & r & -> & _ & Hl & _). eauto.
Qed.
Lemma enc_ent_length e : ent_ok e -> length (enc_ent e) = (16 + length (e_sa e))%nat.
Proof. intros He. unfold enc_ent. destruct (field16_nul (e_name e)) as (t & _ & L16); [apply He|]. by rewrite length_app, L16. Qed.

(** The description of an interface is noted. *)
Lemma note_link_run front e i v rest : ent_ok e -> e_addr e = ELink i -> v_buf v = front ++ enc_ent e ++ rest ->
  exists v1, note_link (Z.of_nat (length front)) v = Some v1 /\
    link_agrees (front ++ enc_ent e) v1 (Some (e_name e, i_index i, i_hw i)) /\
    v_buf v1 = v_buf v /\ v_lastname v1 = v_lastname v /\ v_list v1 = v_list v.
Proof.
  intros He Ea Eb. pose proof (eo_addr _ He) as Hi. rewrite Ea in Hi. destruct (field16_nul (e_name e)) as (t & Ef & L16); [apply He|].
  set (l := front ++ field16 (e_name e)). set (r := replicate (16 - length (enc_sdl i)) 0 ++ rest).
  assert (v_buf v = l ++ enc_sdl i ++ r) as Eb2 by (rewrite Eb; unfold enc_ent, e_sa, l, r; rewrite Ea; by rewrite <- !app_assoc).
  assert (Z.of_nat (length front) + 16 = Z.of_nat (length l)) as Hl by (unfold l; rewrite length_app, L16; lia).
  destruct (sdl_fields i l r Hi) as (F1 & F2 & _). rewrite <- Eb2 in F1, F2.
  assert (aread (v_buf v) (Z.of_nat (length l) + 6) = Some (Z.of_nat (length (i_hw i)))) as F3 by (rewrite Eb2; apply sdl_alen).
  unfold note_link. rewrite Hl, F1, F2, F3. cbn [mbind option_bind]. eexists. split; [done|]. split; [|done].
  pose proof (io_len _ Hi). unfold sdl_length in *. split_and!; cbn; try done; try lia.
  - intros _. eexists (l ++ [sdl_length i; AF_LINK] ++ store16 (i_index i) ++ [i_type i; _; _; 0] ++ i_name i), _. split.
    + f_equal. rewrite !length_app, store16_length. cbn [length]. lia.
    + unfold enc_ent, e_sa, l. rewrite Ea. unfold enc_sdl. rewrite <- !app_assoc. done.
  - apply He.
  - exists front. eexists. split; [done|]. unfold enc_ent. rewrite Ef, <- !app_assoc. done.
Qed.

(** What a turn does: the entry [e] has been passed, and the reference has made its step. *)
Definition passed (front rest : list Z) (e : ifent) (st : rstate) (bs : list Z) (v' : vars) g k : Prop :=
  exists front', length front' = (length front + length (enc_ent e))%nat /\ v_buf v' = front' ++ rest /\ agrees front' v' st /\
    has (blocks (v_list v') ++ bs) g k.

Lemma link_same front v v' lk : link_agrees front v lk -> v_sdlname v' = v_sdlname v -> v_idx v' = v_idx v -> v_haddr v' = v_haddr v ->
  v_hlen v' = v_hlen v -> link_agrees front v' lk.
Proof. intros (H1 & H2 & H3 & H4 & H5) E1 E2 E3 E4. unfold link_agrees. by rewrite E1, E2, E3, E4. Qed.

Lemma entry_run fd family doaliases e rest front v st bs g k :
  ent_ok e -> e_addr e = EAddr (e_sa e) -> e_family e = family -> wanted family -> agrees front v st ->
  v_buf v = front ++ enc_ent e ++ rest -> has (blocks (v_list v) ++ bs) g k ->
  wp exits (ifr_entry fd doaliases (Z.of_nat (length front)) family v) (passed front rest e (ref_step I family doaliases st e) bs) g k.
Proof.
  intros He Ea Efam Hw (Hlast & Hlk & Hout) Eb Hh. destruct (sa_head e He) as (sl & sr & _ & Hsl). pose proof (enc_ent_length e He) as Hel.
  unfold ifr_entry, ref_step. rewrite Efam, Z.eqb_refl. cbn [negb]. set (n := base (e_name e)). assert (no_nul n) as Hn by (apply base_no_nul, He).
  destruct (cut_name front (e_name e) (e_sa e ++ rest)) as (c & f & t & Ec & Ew & Ef & Lf); [apply He|apply He|]. fold n in Ef.
  assert (v_buf v = front ++ field16 (e_name e) ++ e_sa e ++ rest) as Eb3 by (rewrite Eb; unfold enc_ent; by rewrite <- app_assoc). rewrite <- Eb3 in Ec, Ew.
  apply wp_bind. eapply wp_mem; [exact Ec|]. set (buf := front ++ f ++ e_sa e ++ rest) in *.
  apply wp_bind. eapply wp_mono with (P := fun b g' k' => b = buf /\ g' = g /\ k' = k).
  { destruct c as [c|]; [eapply wp_mem; [exact Ew|done]|apply wp_ret; split; [congruence|done]]. }
  intros b g' k' (-> & -> & ->). apply wp_bind. eapply wp_mem; [apply asub_app; [done|by rewrite Lf]|].
  destruct Hlast as (tl & El & L16l & Hnl).
  assert ((strncmp (Z.to_nat IFNAMSIZ) (v_lastname v) f =? 0) = bool_decide (r_last st = n)) as ->.
  { rewrite El, length_app in L16l. cbn [length] in L16l. rewrite El, Ef. apply strncmp_nul; [|done|done].
    change (Z.to_nat IFNAMSIZ) with 16%nat. lia. }
  set (front' := front ++ f ++ e_sa e).
  assert (length front' = (length front + length (enc_ent e))%nat) as Hlf by (unfold front'; rewrite !length_app, Lf; lia).
  assert (buf = front' ++ rest) as Ebuf by (unfold buf, front'; by rewrite <- !app_assoc).
  assert (link_agrees front' v (r_link st)) as Hlk' by (unfold front'; by apply link_agrees_app). rewrite Ea.
  destruct (bool_decide (r_last st = n) && (doaliases =? 0)).
  { apply wp_ret. exists front'. split_and!; [done|done| |done]. split_and!; [by exists tl|by apply (link_same _ _ _ _ Hlk')|done]. }
  cbv zeta. apply wp_bind. eapply wp_mem.
  { unfold buf. assert (e_sa e = take 16 (e_sa e) ++ drop 16 (e_sa e)) as -> by (by rewrite take_drop).
    rewrite <- !app_assoc, (app_assoc f). apply asub_app; [done|]. rewrite length_app, Lf, length_take. unfold sizeof_ifreq. lia. }
  set (ifr0 := f ++ take 16 (e_sa e)). assert (length ifr0 = 32%nat) as L32 by (unfold ifr0; rewrite length_app, Lf, length_take; lia).
  assert (ifr_name ifr0 = n) as Hname by (unfold ifr_name, ifr0; rewrite <- Lf, take_app_length, Ef; by apply V4.until_nul_app).
  apply wp_bind. eapply (wp_ifr _ _ ifr0 (store16 (flags I n))); [done|done|by rewrite Hname|]. intros k2 Hh2.
  apply wp_bind. eapply wp_mem; [apply answer_flags; [done|apply HI_ok]|]. unfold has_flag. rewrite negb_involutive.
  destruct (Z.land (s16 (flags I n)) IFF_UP =? 0).
  { apply wp_ret. exists front'. split_and!; [done|done| |done]. split_and!; [by exists t|by apply (link_same _ _ _ _ Hlk')|done]. }
  destruct (answer_split ifr0 L32 (store16 (flags I n))) as (l & r & _ & _ & L32a & _); [rewrite store16_length; lia|].
  eapply wp_mono.
  { apply (new_ifi_run fd family _ e f t rest front _ (r_link st) _ bs);
      [exact He|exact Ea|exact Efam|exact Hw|exact Ef|exact Lf|reflexivity|by apply (link_same _ _ _ _ Hlk)|exact L32a|by rewrite answer_name|exact Hh2]. }
  cbn [v_buf v_lastname v_list]. intros v' g1 k3 (Hb' & Hl' & Hlk2 & Hv' & -> & Hh'). exists front'.
  split_and!; [done|by rewrite Hb'| |done].
  split_and!; [exists t; rewrite Hl'; done|unfold front'; by apply link_agrees_app|by rewrite Hv', Hout].
Qed.

Lemma turn_run fd family doaliases e rest front v st bs g k :
  ent_ok e -> wanted family -> agrees front v st -> v_buf v = front ++ enc_ent e ++ rest -> has (blocks (v_list v) ++ bs) g k ->
  wp exits (ifr_turn fd family doaliases (Z.of_nat (length front)) v) (fun '(next, v') g' k' =>
    next = Z.of_nat (length front + length (enc_ent e)) /\ passed front rest e (ref_step I family doaliases st e) bs v' g' k') g k.
Proof.
  intros He Hw Hag Eb Hh. destruct (sa_head e He) as (sl & sr & Es & Hsl). pose proof (enc_ent_length e He) as Hel.
  destruct (field16_nul (e_name e)) as (t0 & _ & L16); [apply He|]. unfold ifr_turn.
  assert (v_buf v = (front ++ field16 (e_name e)) ++ sl :: e_family e :: sr ++ rest) as Eb2 by (rewrite Eb; unfold enc_ent; rewrite Es, <- !app_assoc; done).
  assert (length (front ++ field16 (e_name e)) = (length front + 16)%nat) as Hlen by (by rewrite length_app, L16).
  apply wp_bind. eapply wp_mem; [rewrite Eb2; apply aread_app; lia|].
  apply wp_bind. eapply wp_mem.
  { rewrite Eb2. change (?a ++ sl :: ?x) with (a ++ [sl] ++ x). rewrite app_assoc. apply aread_app. rewrite length_app, Hlen. cbn. lia. }
  cbv zeta. set (next := Z.of_nat (length front) + 16 + Z.max sizeof_sockaddr sl).
  assert (next = Z.of_nat (length front + length (enc_ent e))) as Hnext by (unfold next, sizeof_sockaddr; lia).
  destruct (e_addr e) as [i|sa] eqn:Ea.
  - assert (e_family e = AF_LINK) as Hf by (unfold e_family; by rewrite Ea). unfold ref_step. rewrite Hf, Ea. change (AF_LINK =? AF_LINK) with true. cbn iota.
    destruct (note_link_run front e i v rest He Ea Eb) as (v1 & E1 & Hlk1 & Hb1 & Hl1 & Hv1). destruct Hag as (Hlast & _ & Hout).
    apply wp_bind. eapply wp_mem; [exact E1|]. assert ((AF_LINK =? family) = false) as -> by (by destruct Hw as [->|[-> _]]). cbn [negb].
    apply wp_bind, wp_ret, wp_ret. split; [done|]. exists (front ++ enc_ent e). rewrite length_app, Hb1, Hv1. split_and!; [done|by rewrite <- app_assoc| |done].
    split_and!; [by rewrite Hl1|done|by rewrite Hv1].
  - assert ((e_family e =? AF_LINK) = false) as ->.
    { pose proof (eo_addr _ He) as Ho. rewrite Ea in Ho. destruct Ho as (l & f & r & -> & Hf & _). unfold e_family. rewrite Ea. by apply Z.eqb_neq. }
    apply wp_bind, wp_ret, wp_bind. destruct (Z.eqb_spec (e_family e) family) as [Efam|Hne]; cbn [negb].
    + assert (e_addr e = EAddr (e_sa e)) as Ea' by (unfold e_sa; by rewrite Ea). rewrite Efam.
      eapply wp_mono; [by apply entry_run|]. intros v' g' k' Hp. by apply wp_ret.
    + unfold ref_step. rewrite Ea, (proj2 (Z.eqb_neq _ _) Hne). cbn [negb]. destruct Hag as (Hlast & Hlk & Hout).
      apply wp_ret, wp_ret. split; [done|]. exists (front ++ enc_ent e). rewrite length_app. split_and!; [done|by rewrite <- app_assoc| |done].
      split_and!; [done|by apply link_agrees_app|done].
Qed.

Lemma loop_run fd family doaliases : wanted family -> forall es front v st bs g k fuel,
  Forall ent_ok es -> agrees front v st -> v_buf v = front ++ enc_conf es -> has (blocks (v_list v) ++ bs) g k -> (length es <= fuel)%nat ->
  wp exits (ifr_loop fuel fd family doaliases (Z.of_nat (length front)) (Z.of_nat (length front + length (enc_conf es))) v)
    (fun l g' k' => view <$> l = r_out (foldl (ref_step I family doaliases) st es) /\ has (blocks l ++ bs) g' k') g k.
Proof.
  intros Hw es. induction es as [|e es IH]; intros front v st bs g k fuel Hes Hag Eb Hh Hf.
  - cbn [enc_conf mbind list_bind length]. rewrite Nat.add_0_r. destruct fuel; cbn [ifr_loop]; rewrite Z.ltb_irrefl; apply wp_ret; split; [apply Hag|done|apply Hag|done].
  - apply Forall_cons in Hes as [He Hes]. destruct fuel as [|fuel]; cbn [length] in Hf; [lia|]. cbn [ifr_loop].
    pose proof (enc_ent_length e He). assert (enc_conf (e :: es) = enc_ent e ++ enc_conf es) as Ec by done. rewrite Ec, length_app in *.
    rewrite (proj2 (Z.ltb_lt _ _)) by lia. apply wp_bind. eapply wp_mono; [by eapply turn_run|].
    intros [next v'] g' k' (-> & front' & Hl & Eb' & Hag' & Hh'). cbn [foldl]. rewrite <- Hl.
    replace (length front + (length (enc_ent e) + length (enc_conf es)))%nat with (length front' + length (enc_conf es))%nat by lia.
    apply IH; try done. lia.
Qed.

(** ** free_ifi_info *)
Lemma free_block_run {Eh} b bs g k : has (opt_block b ++ bs) g k -> wp Eh (free_block b) (fun _ g' k' => g' = g /\ has bs g k') g k.
Proof. destruct b as [[p x]|]; cbn; intros Hh; [|by apply wp_ret]. eapply wp_Free; [done|]. auto. Qed.
Lemma free_run {Eh} l : forall bs g k, has (blocks l ++ bs) g k -> wp Eh (free_ifi_info l) (fun _ g' k' => g' = g /\ has bs g k') g k.
Proof.
  induction l as [|i l IH]; intros bs g k Hh; [by apply wp_ret|]. cbn [free_ifi_info].
  change (blocks (i :: l)) with ((blocks_of (ifi_addr i) (ifi_brdaddr i) (ifi_dstaddr i) ++ [ifi_self i]) ++ blocks l) in Hh.
  unfold blocks_of in Hh. rewrite <- !app_assoc in Hh.
  do 3 (eapply wp_seq; [by eapply free_block_run|]; clear Hh; intros ? ? ? [-> Hh]).
  apply wp_bind. eapply wp_Free; [exact Hh|]. intros k9 Hh'. by apply IH.
Qed.
Lemma get_run fuel family doaliases g k : wanted family -> Forall ent_ok (conf I) ->
  (length (conf I) <= fuel)%nat -> size_of (conf I) <= 320 * Z.of_nat fuel -> (2 <= fuel)%nat -> has [] g k ->
  wp exits (get_ifi_info fuel family doaliases) (fun l g' k' => view <$> l = interfaces I family doaliases /\ has (blocks l) g' k') g k.
Proof.
  intros Hw He Hf1 Hf2 Hf3 Hh. unfold get_ifi_info. apply wp_bind. unfold Socket.
  apply wp_checked_or; [apply Hh|intros n k'; by apply exits_failed|]. intros fd k1 E1.
  assert (has [] g k1) as Hh1.
  { destruct Hh as (Ho & Hi & Hd). pose proof (ik_socket AF_INET SOCK_DGRAM 0 k) as Hl. pose proof (ik_keep _ (Esocket AF_INET SOCK_DGRAM 0) k) as Hk.
    rewrite E1 in Hl, Hk. cbn in Hl, Hk. split_and!; [by eapply owns_same|congruence|done]. }
  apply wp_bind. eapply wp_mono; [apply (ifconf_run fd fuel 0 (100 * sizeof_ifreq) [] g k1 Hh1); unfold sizeof_ifreq; lia|].
  intros [p buf] g2 k2 (-> & Hh2). apply wp_bind.
  eapply wp_mono; [apply (loop_run fd family doaliases Hw (conf I) [] (Vars _ _ _ _ _ _ []) (Rstate [] None []) [p])|]; try done.
  - split_and!; [exists (replicate 15 0); split_and!; [done|done|constructor]| |done]. split_and!; try done. cbn; lia.
  - cbn beta. intros l g3 k3 (Hv & Hh3). apply wp_bind. eapply (wp_Free p _ (blocks l)); [eapply has_perm, Hh3; symmetry; apply Permutation_cons_append|].
    intros k4 Hh4. apply wp_ret. by split.
Qed.
End Proofs.

(** ** A system for the witnesses

    Its interfaces are part of the state; it refuses a buffer that is too small. *)
#[local] Existing Instance x86_64.
Record ifsys := Ifsys { s_ifs : ifstate; s_live : gset Z }.
Definition if_alloc (k : ifsys) : res Z * ifsys := (Ok (fresh (s_live k)), Ifsys (s_ifs k) ({[fresh (s_live k)]} ∪ s_live k)).

#[export] Instance ifsys_kernel : Kernel ifsys := {|
  kcall X e :=
    match e in sysE X return ifsys -> res X * ifsys with
    | Ecalloc _ _ | Emalloc _ | Estrdup _ => if_alloc
    | Esocket _ _ _ => fun k => (Ok 3, k)
    | Eioctl _ r (IoIfconf len _) => fun k =>
        (if size_of (conf (s_ifs k)) <=? len then Ok (0, IoIfconf (size_of (conf (s_ifs k))) (enc_conf (conf (s_ifs k)))) else Err EINVAL, k)
    | Eioctl _ r (IoReq ifr) => fun k =>
        (match reply (s_ifs k) r (ifr_name ifr) with Some bs => Ok (0, IoReq (answer ifr bs)) | None => Err EINVAL end, k)
    | _ => fun k => (Err ENOSYS, k)
    end;
  klib X e :=
    match e in libE X return ifsys -> X * ifsys with
    | Efree p => fun k => (tt, Ifsys (s_ifs k) (s_live k ∖ {[p]}))
    | e => fun k => ((@klib unit (failing_kernel ENOSYS) _ e tt).1, k)
    end |}.

#[export] Instance ifsys_heap : HeapKernel ifsys.
Proof.
  refine {| live := s_live |}; try (intros; cbn; split; [apply is_fresh|done]); [done|].
  intros X e k Hn. by destruct e.
Defined.
#[export] Instance ifsys_if : IfKernel ifsys.
Proof.
  refine {| ik_heap := ifsys_heap; ifs := s_ifs |}.
  - intros X e k. destruct e; try done. by destruct arg.
  - intros X e k. by destruct e.
  - done.
  - intros fd r a k. by destruct a.
  - intros fd len k. cbn. destruct (Z.leb_spec (size_of (conf (s_ifs k))) len); cbn; [|done].
    exists (conf (s_ifs k)), []. by rewrite app_nil_r.
  - intros fd r ifr k z a k' bs _ E Hr. cbn in E. rewrite Hr in E. by injection E as _ <- _.
Defined.

(** Two interfaces, one of them with an alias, and a tunnel. *)
Definition inet_sa (d : Z) : list Z := [16; 2; 0; 0; 10; 0; 0; d] ++ replicate 8 0.
Definition inet6_sa (d : Z) : list Z := [28; 28] ++ replicate 25 0 ++ [d].
Definition lo0 : list Z := str "lo0".
Definition em0 : list Z := str "em0".
Definition tun0 : list Z := str "tun0".
Definition is_name (n m : list Z) : bool := bool_decide (n = m).
Definition ifs3 : ifstate := Ifstate
  [Ifent lo0 (ELink (RouteProofs.Iface 1 lo0 24 [])); Ifent lo0 (EAddr (inet_sa 1)); Ifent lo0 (EAddr (inet6_sa 1));
   Ifent em0 (ELink (RouteProofs.Iface 2 em0 6 [0; 27; 33; 1; 2; 3])); Ifent em0 (EAddr (inet_sa 5)); Ifent (str "em0:1") (EAddr (inet_sa 6));
   Ifent tun0 (EAddr (inet_sa 7))]
  (fun n => if is_name n tun0 then 0x11 else if is_name n em0 then 3 else 1) (fun n => 1500)
  (fun n => inet_sa 255) (fun n => inet_sa 8).

Lemma ifs3_ok : ifs_ok ifs3.
Proof. split; intros n; cbn; try done. by repeat case_match. Qed.
Lemma ifs3_entries : Forall ent_ok (conf ifs3).
Proof.
  assert (forall s, forallb (fun c => negb (c =? 0)) s = true -> no_nul s) as Hs.
  { intros s H1. apply Forall_forall. intros c Hc. apply list_elem_of_In in Hc. rewrite forallb_forall in H1. specialize (H1 c Hc). by intros ->. }
  repeat (apply Forall_cons; split); [..|by apply Forall_nil]; (split; [by apply Hs|cbn; lia|cbn]);
    try (split; [done|by apply Hs|done]); by do 3 eexists.
Qed.


(** The list of that system: the alias is marked, the tunnel has no index. *)
Example ifs3_listed : (fun v => (iv_name v, iv_index v, iv_hlen v, iv_myflags v)) <$> interfaces ifs3 AF_INET 1 =
  [(lo0, 1, 0, 0); (em0, 2, 6, 0); (em0, 2, 6, IFI_ALIAS); (tun0, 0, 0, 0)].
Proof. by vm_compute. Qed.

(** For the IPv6 address of a point-to-point interface get_ifi_info copies 28 bytes
    from the 16 bytes of ifr_dstaddr at the end of a struct ifreq: it reads
    behind the variable. *)
Theorem get_ifi_info_reads_behind_ifreq :
  let I := Ifstate [Ifent tun0 (EAddr (inet6_sa 7))] (flags ifs3) (mtu ifs3) (brd ifs3) (dst ifs3) in
  (run (get_ifi_info 10 AF_INET6 1) globals0 (Ifsys I ∅)).1.1 = Halted Fault.
Proof. by vm_compute. Qed.

(** ** route/get_ifi_info.c

    A system whose routing socket returns the given messages. *)
#[local] Existing Instance RouteProofs.freebsd_amd64.
Record rtsys := Rtsys { rt_bytes : list Z }.
#[export] Instance rtsys_kernel : Kernel rtsys := {|
  kcall X e :=
    match e in sysE X return rtsys -> res X * rtsys with
    | Esysctl_len _ => fun k => (Ok (Z.of_nat (length (rt_bytes k))), k)
    | Esysctl_buf _ _ => fun k => (Ok (rt_bytes k), k)
    | Emalloc _ | Ecalloc _ _ => fun k => (Ok 4096, k)
    | _ => fun k => (Err ENOSYS, k)
    end;
  klib X e k := ((@klib unit (failing_kernel ENOSYS) _ e tt).1, k) |}.

Definition ifinfo (fl : Z) (i : iface) : RouteProofs.rmsg :=
  RouteProofs.Rmsg RTM_IFINFO (store32 fl ++ replicate 156 0) (replicate 4 None) (Some i) (replicate 3 None).
Definition newaddr (d : Z) : RouteProofs.rmsg := RouteProofs.Rmsg RTM_NEWADDR (replicate 12 0) (replicate 4 None) None [Some (inet_sa d); None; None].
Definition if_em0 : iface := RouteProofs.Iface 1 em0 6 [0; 27; 33; 1; 2; 3].
Definition if_em1 : iface := RouteProofs.Iface 2 (str "em1") 6 [8; 0; 32; 1; 2; 3].
Definition listed_by (ms : list RouteProofs.rmsg) : outcome (list (list Z * Z * option (list Z))) :=
  match (run (IfiRoute.get_ifi_info_rt 10 AF_INET 1) globals0 (Rtsys (RouteProofs.enc_msgs ms))).1.1 with
  | Done l => Done ((fun v => (iv_name v, iv_index v, iv_addr v)) <$> (view <$> l))
  | Halted h => Halted h
  end.

(** The version for routing sockets (route/get_ifi_info.c): the address of an
    interface that is down becomes an alias of the interface before it, and
    without one before it a pointer is followed that has not been set; and since
    the length of a name is given to printf as a width, the hardware address
    appears behind the name of em1 (the bytes 8, up to a NUL). *)
Theorem route_get_ifi_info_defects :
  listed_by [ifinfo 1 if_em0; newaddr 1; ifinfo 0 if_em1; newaddr 2] =
    Done [(em0, 1, Some (inet_sa 1)); (em0, 1, Some (inet_sa 2))] /\
  listed_by [ifinfo 0 if_em1; newaddr 2; ifinfo 1 if_em0; newaddr 1] = Halted Fault /\
  listed_by [ifinfo 1 if_em1; newaddr 2] = Done [(str "em1" ++ [8], 2, Some (inet_sa 2))].
Proof. by vm_compute. Qed.
End IfiProofs.
