(* ===== verification/Icmpd.v ===== *)
(** * The ICMP daemon: unpv13e/icmpd

    A client passes its UDP socket to the daemon over a Unix domain socket; the
    daemon notes family and port of the socket in the client's entry of the
    table, and reports the ICMP errors that quote a datagram from that port.

    The buffer a packet is received into is an automatic array: only the bytes
    received have a value, reading others is undefined behaviour.  The
    structure written to a client is the 144 bytes of a variable, of which the
    code assigns some; [err0] is what the variable held before. *)
From stdpp Require Import base list numbers strings gmap.
From S2P Require Import Prelude InetAddr Checksum Cnum Sys Error Wrap StreamIO StreamProofs SockAddr Connect Server Route.
Import Cksum.

Module Icmpd.
Definition IPPROTO_ICMP : Z := 1.
Definition IPPROTO_ICMPV6 : Z := 58.
Definition IPPROTO_UDP : Z := 17.
Definition SOCK_RAW : Z := 3.
Definition ICMP_UNREACH : Z := 3.
Definition ICMP_SOURCEQUENCH : Z := 4.
Definition ICMP_TIMXCEED : Z := 11.
Definition ICMP_UNREACH_PORT : Z := 3.
Definition ICMP_UNREACH_NEEDFRAG : Z := 4.
Definition ICMP6_DST_UNREACH : Z := 1.
Definition ICMP6_PACKET_TOO_BIG : Z := 2.
Definition ICMP6_TIME_EXCEEDED : Z := 3.
Definition ICMP6_DST_UNREACH_NOPORT : Z := 4.
Definition EMSGSIZE : Z := 40.
Definition EHOSTUNREACH : Z := 65.
Definition ICMPD_PATH : list Z := str "/tmp/icmpd".
Definition sizeof_ip6_hdr : Z := 40.

(** struct client: -1 in connfd marks a free entry. *)
Record client := Client { connfd : Z; family : Z; lport : Z }.

(** The globals of icmpd.h, and what has been printed. *)
Record icmpd := State {
  clients : list client; fd4 : Z; fd6 : Z; listenfd : Z; maxi : Z; maxfd : Z; nready : Z;
  rset : fd_set; allset : fd_set; static : list Z; d_out : list Z }.

Definition set_clients (cl : list client) (d : icmpd) : icmpd :=
  State cl (fd4 d) (fd6 d) (listenfd d) (maxi d) (maxfd d) (nready d) (rset d) (allset d) (static d) (d_out d).
Definition set_allset (s : fd_set) (d : icmpd) : icmpd :=
  State (clients d) (fd4 d) (fd6 d) (listenfd d) (maxi d) (maxfd d) (nready d) (rset d) s (static d) (d_out d).
Definition print (s : list Z) (d : icmpd) : icmpd :=
  State (clients d) (fd4 d) (fd6 d) (listenfd d) (maxi d) (maxfd d) (nready d) (rset d) (allset d) (static d) (d_out d ++ s).
(** return(--nready) *)
Definition done_one (d : icmpd) : prog (Z * icmpd) :=
  Ret (nready d - 1,
       State (clients d) (fd4 d) (fd6 d) (listenfd d) (maxi d) (maxfd d) (nready d - 1) (rset d) (allset d) (static d) (d_out d)).

(** ** readable_listen.c *)
Fixpoint save_entry (k : nat) (i : Z) (cl : list client) (fd : Z) : option (Z * list client) :=
  match k with
  | O => Some (i, cl)
  | S k' =>
      c ← aread cl i;
      if connfd c <? 0 then cl1 ← awrite cl i (Client fd (family c) (lport c)); Some (i, cl1)
      else save_entry k' (i + 1) cl fd
  end.

Definition readable_listen (fuel : nat) (d : icmpd) : prog (Z * icmpd) :=
  '(fd, _) ← Accept fuel (listenfd d);
  '(i, cl) ← mem (save_entry (Z.to_nat FD_SETSIZE) 0 (clients d) fd);
  if i =? FD_SETSIZE then
    _ ← call_ (Eclose fd);
    done_one d
  else
    let d1 := print (str "new connection, i = " ++ fmt_d i ++ str ", connfd = " ++ fmt_d fd ++ [10]) d in
    all1 ← mem (FD_SET fd (allset d1));
    done_one (State cl (fd4 d1) (fd6 d1) (listenfd d1) (if maxi d1 <? i then i else maxi d1)
      (if maxfd d1 <? fd then fd else maxfd d1) (nready d1) (rset d1) all1 (static d1) (d_out d1)).

(** ** readable_conn.c *)

(** From the label clientdone. *)
Definition client_done (i unixfd recvfd : Z) (d : icmpd) : prog (Z * icmpd) :=
  _ ← Close unixfd;
  _ ← (if 0 <=? recvfd then Close recvfd else Ret tt);
  all1 ← mem (FD_CLR unixfd (allset d));
  c ← mem (aread (clients d) i);
  cl ← mem (awrite (clients d) i (Client (-1) (family c) (lport c)));
  done_one (set_clients cl (set_allset all1 d)).
(** From the label clienterr. *)
Definition client_err (i unixfd recvfd : Z) (d : icmpd) : prog (Z * icmpd) :=
  _ ← Write unixfd [48];
  client_done i unixfd recvfd d.

Definition readable_conn `{Platform} (i : Z) (d : icmpd) : prog (Z * icmpd) :=
  c ← mem (aread (clients d) i);
  let unixfd := connfd c in
  '(n, (_, r)) ← Read_fd unixfd 1;
  let recvfd := default (-1) r in
  if n =? 0 then
    _ ← err_msg (str "client " ++ fmt_d i ++ str " terminated, recvfd = " ++ fmt_d recvfd);
    client_done i unixfd recvfd d
  else if recvfd <? 0 then
    _ ← err_msg (str "read_fd did not return descriptor");
    client_err i unixfd recvfd d
  else
    r ← call (Egetsockname recvfd);
    match r with
    | Err _ => _ ← err_ret (str "getsockname error"); client_err i unixfd recvfd d
    | Ok (ss, len) =>
        let fam := sa_family ss in
        let p := sock_get_port ss len in
        p1 ← (if p =? 0 then sock_bind_wild recvfd fam else Ret p);
        cl ← mem (awrite (clients d) i (Client unixfd fam p1));
        let d1 := set_clients cl d in
        if (p =? 0) && (p1 <=? 0) then
          _ ← err_ret (str "error binding ephemeral port"); client_err i unixfd recvfd d1
        else
          _ ← Write unixfd [49];
          _ ← Close recvfd;
          done_one d1
    end.

(** ** readable_v4.c and readable_v6.c *)

(** The variable icmpd_err after the assignments, with [dest] the bytes of the socket
    address: errno at 0, type and code at 4 and 5, the length at 8, the address at 16. *)
Definition icmpd_err `{Platform} (err0 : list Z) (type code errno : Z) (dest : list Z) : option (list Z) :=
  e1 ← awrite err0 4 type;
  e2 ← awrite e1 5 code;
  e3 ← memcpy e2 8 (store32 (Z.of_nat (length dest)));
  e4 ← memcpy e3 16 dest;
  memcpy e4 0 (store32 errno).

(** for (i = 0; i <= maxi; i++), with [k] rounds left. *)
Fixpoint report_clients (k : nat) (i : Z) (cl : list client) (fam sport : Z) (e : option (list Z)) : prog unit :=
  match k with
  | O => Ret tt
  | S k' =>
      c ← mem (aread cl i);
      _ ← (if (0 <=? connfd c) && (family c =? fam) && (lport c =? sport) then bs ← mem e; Write (connfd c) bs else Ret tt);
      report_clients k' (i + 1) cl fam sport e
  end.

Definition errno_v4 (type code : Z) : Z :=
  if type =? ICMP_UNREACH then
    if code =? ICMP_UNREACH_PORT then ECONNREFUSED else if code =? ICMP_UNREACH_NEEDFRAG then EMSGSIZE else EHOSTUNREACH
  else EHOSTUNREACH.

(** The text of an address in the buffer. *)
Definition show_addr (fam : Z) (buf : list Z) (off len size : Z) : prog (list Z) :=
  a ← mem (asub buf off len);
  r ← Inet_ntop fam a (Some (replicate (Z.to_nat size) 0)) size;
  Ret (until_nul r).

Definition readable_v4 `{Platform} (err0 : list Z) (d : icmpd) : prog (Z * icmpd) :=
  '(buf, (from, len)) ← Recvfrom (fd4 d) MAXLINE 0;
  let n := Z.of_nat (length buf) in
  host ← Sock_ntop_host from len (static d);
  let d1 := print (fmt_d n ++ str " bytes ICMPv4 from " ++ until_nul host ++ str ":") d in
  b1 ← mem (aread buf 0);
  let hlen1 := Z.shiftl (Z.land b1 15) 2 in
  let icmplen := n - hlen1 in
  if icmplen <? 8 then err_quit (str "icmplen (" ++ fmt_d icmplen ++ str ") < 8")
  else
    type ← mem (aread buf hlen1);
    code ← mem (aread buf (hlen1 + 1));
    let d2 := print (str " type = " ++ fmt_d type ++ str ", code = " ++ fmt_d code ++ [10]) d1 in
    if (type =? ICMP_UNREACH) || (type =? ICMP_TIMXCEED) || (type =? ICMP_SOURCEQUENCH) then
      if icmplen <? 8 + 20 + 8 then err_quit (str "icmplen (" ++ fmt_d icmplen ++ str ") < 8 + 20 + 8")
      else
        let hip := hlen1 + 8 in
        b2 ← mem (aread buf hip);
        let hlen2 := Z.shiftl (Z.land b2 15) 2 in
        src ← show_addr AF_INET buf (hip + 12) 4 16;
        dst ← show_addr AF_INET buf (hip + 16) 4 16;
        ip_p ← mem (aread buf (hip + 9));
        let d3 := print ([9] ++ str "srcip = " ++ src ++ str ", dstip = " ++ dst ++ str ", proto = " ++ fmt_d ip_p ++ [10]) d2 in
        _ ← (if ip_p =? IPPROTO_UDP then
               let udp := hip + hlen2 in
               sport ← mem (aread16 buf udp);
               let dest :=
                 addr ← asub buf (hip + 16) 4;
                 dport ← aread16 buf (udp + 2);
                 Some ([16; AF_INET] ++ store16 dport ++ addr ++ replicate 8 0) in
               report_clients (Z.to_nat (maxi d3 + 1)) 0 (clients d3) AF_INET sport
                 (dest ≫= icmpd_err err0 type code (errno_v4 type code))
             else Ret tt);
        done_one d3
    else done_one d2.

Definition errno_v6 (type code : Z) : Z :=
  if type =? ICMP6_PACKET_TOO_BIG then EMSGSIZE
  else if (type =? ICMP6_DST_UNREACH) && (code =? ICMP6_DST_UNREACH_NOPORT) then ECONNREFUSED
  else EHOSTUNREACH.

Definition readable_v6 `{Platform} (err0 : list Z) (d : icmpd) : prog (Z * icmpd) :=
  '(buf, (from, len)) ← Recvfrom (fd6 d) MAXLINE 0;
  let icmp6len := Z.of_nat (length buf) in
  host ← Sock_ntop_host from len (static d);
  let d1 := print (fmt_d icmp6len ++ str " bytes ICMPv6 from " ++ until_nul host ++ str ":") d in
  if icmp6len <? 8 then err_quit (str "icmp6len (" ++ fmt_d icmp6len ++ str ") < 8")
  else
    type ← mem (aread buf 0);
    code ← mem (aread buf 1);
    let d2 := print (str " type = " ++ fmt_d type ++ str ", code = " ++ fmt_d code ++ [10]) d1 in
    if (type =? ICMP6_DST_UNREACH) || (type =? ICMP6_PACKET_TOO_BIG) || (type =? ICMP6_TIME_EXCEEDED) then
      if icmp6len <? 8 + 8 then err_quit (str "icmp6len (" ++ fmt_d icmp6len ++ str ") < 8 + 8")
      else
        let hip6 := 8 in
        src ← show_addr AF_INET6 buf (hip6 + 8) 16 46;
        dst ← show_addr AF_INET6 buf (hip6 + 24) 16 46;
        ip6_nxt ← mem (aread buf (hip6 + 6));
        let d3 := print ([9] ++ str "srcip = " ++ src ++ str ", dstip = " ++ dst ++ str ", next hdr = " ++ fmt_d ip6_nxt ++ [10]) d2 in
        _ ← (if ip6_nxt =? IPPROTO_UDP then
               let udp := hip6 + sizeof_ip6_hdr in
               sport ← mem (aread16 buf udp);
               let dest :=
                 addr ← asub buf (hip6 + 24) 16;
                 dport ← aread16 buf (udp + 2);
                 Some ([28; AF_INET6] ++ store16 dport ++ replicate 4 0 ++ addr ++ replicate 4 0) in
               report_clients (Z.to_nat (maxi d3 + 1)) 0 (clients d3) AF_INET6 sport
                 (dest ≫= icmpd_err err0 type code (errno_v6 type code))
             else Ret tt);
        done_one d3
    else done_one d2.

(** ** icmpd.c *)

(** if (FD_ISSET(fd, &rset)) if (readable() <= 0) continue; *)
Definition when_set (fd : Z) (readable : icmpd -> prog (Z * icmpd)) (d : icmpd) (rest : icmpd -> prog icmpd) : prog icmpd :=
  set ← mem (FD_ISSET fd (rset d));
  if (set : bool) then '(r, d1) ← readable d; (if r <=? 0 then Ret d1 else rest d1) else rest d.

(** The loop over the clients; maxi can not change in it. *)
Fixpoint conn_loop `{Platform} (k : nat) (i : Z) (d : icmpd) : prog icmpd :=
  match k with
  | O => Ret d
  | S k' =>
      c ← mem (aread (clients d) i);
      if connfd c <? 0 then conn_loop k' (i + 1) d
      else when_set (connfd c) (readable_conn i) d (conn_loop k' (i + 1))
  end.

Definition icmpd_turn `{Platform} (fuel : nat) (err0 : list Z) (d : icmpd) : prog icmpd :=
  '(nr, (rs, _, _)) ← Select (maxfd d + 1) (allset d) ∅ ∅ None;
  let d0 := State (clients d) (fd4 d) (fd6 d) (listenfd d) (maxi d) (maxfd d) nr rs (allset d) (static d) (d_out d) in
  when_set (listenfd d0) (readable_listen fuel) d0 (fun d1 =>
  when_set (fd4 d1) (readable_v4 err0) d1 (fun d2 =>
  when_set (fd6 d2) (readable_v6 err0) d2 (fun d3 =>
  conn_loop (Z.to_nat (maxi d3 + 1)) 0 d3))).

Fixpoint icmpd_loop `{Platform} (fuel turns : nat) (err0 : list Z) (d : icmpd) : prog icmpd :=
  match turns with
  | O => Ret d
  | S t => d1 ← icmpd_turn fuel err0 d; icmpd_loop fuel t err0 d1
  end.

(** main, for the first [turns] turns.  The table is a global: all zero but connfd. *)
Definition icmpd_main `{Platform} (fuel turns : nat) (err0 static0 : list Z) : prog icmpd :=
  f4 ← Socket AF_INET SOCK_RAW IPPROTO_ICMP;
  s1 ← mem (FD_SET f4 ∅);
  f6 ← Socket AF_INET6 SOCK_RAW IPPROTO_ICMPV6;
  s2 ← mem (FD_SET f6 s1);
  l ← Socket AF_UNIX SOCK_STREAM 0;
  _ ← call_ (Eunlink ICMPD_PATH);
  _ ← Bind l (SaUn (SockaddrUn (ICMPD_PATH ++ replicate (104 - length ICMPD_PATH) 0))) 106;
  _ ← Listen l LISTENQ;
  s3 ← mem (FD_SET l s2);
  icmpd_loop fuel turns err0
    (State (replicate (Z.to_nat FD_SETSIZE) (Client (-1) 0 0)) f4 f6 l (-1) (Z.max (Z.max f4 f6) l) 0 ∅ s3 static0 []).
End Icmpd.
