(* ===== verification/IcmpdProofs.v ===== *)
(** * What the ICMP daemon tells its clients

    An ICMP error that quotes a UDP datagram is reported to exactly the clients
    that registered the port the datagram came from, with the errno, type, code
    and destination of the error. *)
From stdpp Require Import base list numbers strings sets gmap.
From S2P Require Import Prelude InetAddr InetV4 InetV6 Checksum Cnum Sys Error Wrap StreamIO SockAddr Connect Server Hoare Bytes Route RouteProofs Icmpd.
Import Cksum RouteProofs(store32_length).

Module IcmpdProofs.
Import Icmpd.

(** ** Fields of a packet *)
Section Fields.
Context (l m r : list Z).
Lemma aread_mid (o : nat) x : m !! o = Some x -> aread (l ++ m ++ r) (Z.of_nat (length l) + Z.of_nat o) = Some x.
Proof.
  intros H. rewrite <- Nat2Z.inj_add. rewrite app_assoc. apply aread_lookup. rewrite lookup_app_r by lia. by replace (length l + o - length l)%nat with o by lia.
Qed.
Lemma asub_mid (o n : nat) : (o + n <= length m)%nat ->
  asub (l ++ m ++ r) (Z.of_nat (length l) + Z.of_nat o) (Z.of_nat n) = Some (take n (drop o m)).
Proof.
  intros H. assert (m = take o m ++ take n (drop o m) ++ drop n (drop o m)) as Em by (by rewrite !take_drop).
  rewrite Em at 1. rewrite <- !app_assoc, app_assoc. apply asub_app; [rewrite length_app, length_take; lia|rewrite length_take, length_drop; lia].
Qed.
End Fields.

(** ** The system: the reports it has taken *)
Class ReportKernel (K : Type) `{!Kernel K} := {
  reports : K -> list (Z * list Z);
  rk_write : forall k fd bs k', kcall (Ewrite fd bs) k = (Ok (Z.of_nat (length bs)), k') -> reports k' = reports k ++ [(fd, bs)];
  rk_recv : forall k fd n f, reports (kcall (Erecvfrom fd n f) k).2 = reports k }.

(** Whom a report goes to. *)
Definition registered (fam sport : Z) (c : client) : bool := (0 <=? connfd c) && (family c =? fam) && (lport c =? sport).
Definition told (fam sport : Z) (rep : list Z) (cl : list client) : list (Z * list Z) :=
  (fun c => (connfd c, rep)) <$> filter (fun c => registered fam sport c = true) cl.

(** The 144 bytes of a report: what the code assigns, and what the variable held before. *)
Definition report `{Platform} (err0 : list Z) (type code errno : Z) (dest : list Z) : list Z :=
  store32 errno ++ [type; code] ++ take 2 (drop 6 err0) ++ store32 (Z.of_nat (length dest)) ++ take 4 (drop 12 err0) ++
  dest ++ drop (16 + length dest) err0.

Lemma icmpd_err_report `{Platform} err0 type code errno dest : length err0 = 144%nat -> (length dest <= 128)%nat ->
  icmpd_err err0 type code errno dest = Some (report err0 type code errno dest).
Proof.
  intros Hl Hd. unfold icmpd_err, report. set (a := take 4 err0). set (p := take 2 (drop 6 err0)). set (b := take 4 (drop 8 err0)).
  set (q := take 4 (drop 12 err0)). set (c := take (length dest) (drop 16 err0)). set (d := drop (16 + length dest) err0).
  assert (exists x y, err0 = a ++ x :: y :: p ++ b ++ q ++ c ++ d) as (x & y & E).
  { destruct (drop 4 err0) as [|x [|y t]] eqn:E4; [apply (f_equal length) in E4; rewrite length_drop, Hl in E4; done..|]. exists x, y.
    assert (t = drop 6 err0) as Et by (change 6%nat with (4 + 2)%nat; by rewrite <- drop_drop, E4).
    rewrite <- (take_drop 4 err0) at 1. fold a. rewrite E4, Et. do 3 f_equal.
    unfold p, b, q, c, d. rewrite <- (take_drop 2 (drop 6 err0)) at 1. rewrite drop_drop. f_equal.
    rewrite <- (take_drop 4 (drop (6 + 2) err0)) at 1. rewrite drop_drop. f_equal.
    rewrite <- (take_drop 4 (drop (6 + 2 + 4) err0)) at 1. rewrite drop_drop. f_equal.
    rewrite <- (take_drop (length dest) (drop (6 + 2 + 4 + 4) err0)) at 1. by rewrite drop_drop. }
  assert (length a = 4%nat /\ length p = 2%nat /\ length b = 4%nat /\ length q = 4%nat /\ length c = length dest) as (La & Lp & Lb & Lq & Lc).
  { unfold a, p, b, q, c. rewrite !length_take, !length_drop. lia. }
  rewrite E. clear E. clearbody a p b q c d. rewrite awrite_app by (rewrite La; done). cbn [mbind option_bind].
  rewrite (cons_middle type), app_assoc, awrite_app by (rewrite length_app, La; done). cbn [mbind option_bind].
  rewrite (cons_middle code), !app_assoc. rewrite <- (app_assoc _ b), <- !(app_assoc _ c), <- (app_assoc _ q).
  rewrite <- (app_assoc (((a ++ [type]) ++ [code]) ++ p)), <- (app_assoc b).
  rewrite memcpy_app; [|rewrite !length_app, La, Lp; done|by rewrite store32_length]. cbn [mbind option_bind].
  rewrite (app_assoc (store32 _)), (app_assoc (((a ++ [type]) ++ [code]) ++ p)).
  rewrite memcpy_app; [|rewrite !length_app, store32_length, La, Lp, Lq; done|done]. cbn [mbind option_bind].
  rewrite <- !app_assoc. etransitivity; [apply (memcpy_app [] a); [done|by rewrite store32_length]|done].
Qed.

Section Reports.
Context {K : Type} `{HK : !Kernel K} `{HP : Platform} `{HR : !ReportKernel K}.
Implicit Types (k : K) (g : globals).

(** The process ends only if a write can fail or be cut short. *)
Definition exits (h : halt) : Prop :=
  h = Exit 1 /\ exists fd bs k, (kcall (Ewrite fd bs) k).1 <> Ok (Z.of_nat (length bs)).

Lemma wp_Write fd bs (Q : unit -> globals -> K -> Prop) g k : daemon_proc g = 0 ->
  (forall k', reports k' = reports k ++ [(fd, bs)] -> Q tt g k') -> wp exits (Write fd bs) Q g k.
Proof.
  intros Hd HQ. unfold Write, checked_count. apply wp_bind, wp_call.
  - intros n k' E. destruct (Z.eqb_spec n (Z.of_nat (length bs))) as [->|Hne].
    + apply wp_ret, HQ. by eapply rk_write.
    + apply wp_err_sys; [done|]. split; [done|]. exists fd, bs, k. rewrite E. cbn. congruence.
  - intros n k' E. apply wp_err_sys; [done|]. split; [done|]. exists fd, bs, k. by rewrite E.
Qed.

(** The loop tells the registered clients, each once and in the order of the table. *)
Lemma report_run fam sport rep cl1 : forall cl0 cl2 e g k, daemon_proc g = 0 -> e = Some rep ->
  wp exits (report_clients (length cl1) (Z.of_nat (length cl0)) (cl0 ++ cl1 ++ cl2) fam sport e)
    (fun _ g' k' => g' = g /\ reports k' = reports k ++ told fam sport rep cl1) g k.
Proof.
  induction cl1 as [|c cl1 IH]; intros cl0 cl2 e g k Hd ->; cbn [length report_clients].
  { apply wp_ret. unfold told. cbn. by rewrite app_nil_r. }
  apply wp_bind. eapply wp_mem; [by apply aread_app|].
  assert (forall k1, wp exits (report_clients (length cl1) (Z.of_nat (length cl0) + 1) (cl0 ++ (c :: cl1) ++ cl2) fam sport (Some rep))
    (fun _ g' k' => g' = g /\ reports k' = reports k1 ++ told fam sport rep cl1) g k1) as Hrest.
  { intros k1. replace (Z.of_nat (length cl0) + 1) with (Z.of_nat (length (cl0 ++ [c]))) by (rewrite length_app; cbn; lia).
    replace (cl0 ++ (c :: cl1) ++ cl2) with ((cl0 ++ [c]) ++ cl1 ++ cl2) by (by rewrite <- app_assoc). by apply IH. }
  unfold told. rewrite filter_cons. fold (registered fam sport c). destruct (registered fam sport c) eqn:Er.
  - rewrite decide_True by done. apply wp_bind, wp_bind. eapply wp_mem; [done|]. apply wp_Write; [done|]. intros k1 E1.
    eapply wp_mono; [apply Hrest|]. intros ? ? ? [-> E2]. split; [done|]. by rewrite E2, E1, <- app_assoc.
  - rewrite decide_False by done. apply wp_bind, wp_ret, Hrest.
Qed.

(** An address of the packet is printed. *)
Definition printable (fam len size : Z) : Prop := (fam = AF_INET /\ len = 4 /\ size = 16) \/ (fam = AF_INET6 /\ len = 16 /\ size = 46).
Lemma show_run fam buf off len size a (Q : list Z -> globals -> K -> Prop) g k : printable fam len size ->
  asub buf off len = Some a -> Z.of_nat (length a) = len -> Forall is_byte a -> (forall t, Q t g k) -> wp exits (show_addr fam buf off len size) Q g k.
Proof.
  intros Hp Ea Hl Hb HQ. unfold show_addr. apply wp_bind. eapply wp_mem; [done|]. unfold Inet_ntop, inet_ntop.
  destruct Hp as [(-> & -> & ->)|(-> & -> & ->)].
  - do 4 (destruct a as [|? a]; [done|]). destruct a; [|cbn in Hl; lia]. rewrite !Forall_cons in Hb. destruct Hb as (B1 & B2 & B3 & B4 & _).
    assert (V4.bytes4 z z0 z1 z2) as Hq by done. pose proof (V4.fmt_quad_length _ _ _ _ Hq).
    destruct (V4.inet_ntop4_ok z z0 z1 z2 (replicate 16 0) 0 16 Hq) as (arr & E & _); [done|done|lia|].
    change (AF_INET =? AF_INET) with true. cbn iota. change (Z.to_nat 16) with 16%nat. apply wp_bind, wp_bind. eapply wp_mem; [exact E|]. by apply wp_ret, wp_ret.
  - destruct (inet_ntop6_text a (replicate 46 0) 0 46) as (txt & _ & _ & E & _); [lia|done|done|done|done|].
    change (AF_INET6 =? AF_INET) with false. change (AF_INET6 =? AF_INET6) with true. cbn iota. change (Z.to_nat 46) with 46%nat.
    apply wp_bind, wp_bind. eapply wp_mem; [exact E|]. by apply wp_ret, wp_ret.
Qed.
Lemma host_run sa len st (Q : list Z -> globals -> K -> Prop) g k : length st = 128%nat ->
  (exists s, sa = SaIn s /\ length (sin_addr s) = 4%nat /\ Forall is_byte (sin_addr s)) \/
  (exists s, sa = SaIn6 s /\ length (sin6_addr s) = 16%nat /\ Forall is_byte (sin6_addr s)) ->
  (forall t, Q t g k) -> wp exits (Sock_ntop_host sa len st) Q g k.
Proof.
  intros Hst Hsa HQ. unfold Sock_ntop_host, sock_ntop_host, inet_ntop. destruct Hsa as [(s & -> & Hl & Hb)|(s & -> & Hl & Hb)].
  - destruct (sin_addr s) as [|a0 [|a1 [|a2 [|a3 [|]]]]]; try done. rewrite !Forall_cons in Hb. destruct Hb as (B1 & B2 & B3 & B4 & _).
    assert (V4.bytes4 a0 a1 a2 a3) as Hq by done. pose proof (V4.fmt_quad_length _ _ _ _ Hq).
    destruct (V4.inet_ntop4_ok a0 a1 a2 a3 st 0 128 Hq) as (arr & E & _); [done|lia|lia|].
    change (AF_INET =? AF_INET) with true. cbn iota. apply wp_bind. eapply wp_mem; [exact E|]. by apply wp_ret.
  - destruct (inet_ntop6_text (sin6_addr s) st 0 128) as (txt & _ & _ & E & _); [done|done|done|done|lia|].
    change (AF_INET6 =? AF_INET) with false. change (AF_INET6 =? AF_INET6) with true. cbn iota. apply wp_bind. eapply wp_mem; [exact E|]. by apply wp_ret.
Qed.

(** The ports have been found: the clients of the source port are told. *)
Lemma tell_run fam buf udp sport dest0 dest err0 type code eno d g k : daemon_proc g = 0 -> -1 <= maxi d -> maxi d < Z.of_nat (length (clients d)) ->
  aread16 buf udp = Some sport -> dest0 = Some dest -> (length dest <= 128)%nat -> length err0 = 144%nat ->
  wp exits (s ← mem (aread16 buf udp); report_clients (Z.to_nat (maxi d + 1)) 0 (clients d) fam s (dest0 ≫= icmpd_err err0 type code eno))
    (fun _ g' k' => g' = g /\ reports k' = reports k ++ told fam sport (report err0 type code eno dest) (take (Z.to_nat (maxi d + 1)) (clients d))) g k.
Proof.
  intros Hd Hm1 Hm2 Es -> Hl He. apply wp_bind. eapply wp_mem; [exact Es|]. set (n := Z.to_nat (maxi d + 1)).
  assert (length (take n (clients d)) = n) as Hn by (rewrite length_take; unfold n; lia). rewrite <- Hn at 1.
  rewrite <- (take_drop n (clients d)) at 2. apply (report_run fam sport _ (take n (clients d)) [] (drop n (clients d))); [done|].
  by apply icmpd_err_report.
Qed.

(** ** readable_v4 *)

(** An ICMP message: the IP header it came with, type, code and rest of its header, the
    IP header and the ports it quotes, and what follows. *)
Record quote := Quote {
  q_ip : list Z; q_type : Z; q_code : Z; q_rest : list Z; q_hip : list Z; q_sport : Z; q_dport : Z; q_tail : list Z }.
Definition enc (q : quote) : list Z :=
  q_ip q ++ [q_type q; q_code q] ++ q_rest q ++ q_hip q ++ store16 (q_sport q) ++ store16 (q_dport q) ++ q_tail q.

(** The first byte of an IPv4 header holds its length in words. *)
Definition header4 (h : list Z) : Prop := exists b, h !! 0%nat = Some b /\ Z.shiftl (Z.land b 15) 2 = Z.of_nat (length h) /\ Forall is_byte h.
Record quote4_ok (q : quote) : Prop := {
  q4_ip : header4 (q_ip q);
  q4_rest : length (q_rest q) = 6%nat;
  q4_hip : header4 (q_hip q);
  q4_min : (20 <= length (q_hip q))%nat;
  q4_sport : is_u16 (q_sport q);
  q4_dport : is_u16 (q_dport q);
  q4_tail : (4 <= length (q_tail q))%nat }.

Definition proto4 (q : quote) : Z := nth 9 (q_hip q) 0.
Definition dest4 (q : quote) : list Z := [16; AF_INET] ++ store16 (q_dport q) ++ take 4 (drop 16 (q_hip q)) ++ replicate 8 0.
Definition is_error4 (type : Z) : bool := (type =? ICMP_UNREACH) || (type =? ICMP_TIMXCEED) || (type =? ICMP_SOURCEQUENCH).

(** What a turn with a packet leaves: one descriptor less to look at, and the reports. *)
Definition reported (d : icmpd) (rs : list (Z * list Z)) (g : globals) (k : K) : Z * icmpd -> globals -> K -> Prop :=
  fun '(r, d') g' k' => r = nready d - 1 /\ nready d' = r /\ clients d' = clients d /\ allset d' = allset d /\ maxi d' = maxi d /\
    maxfd d' = maxfd d /\ g' = g /\ reports k' = reports k ++ rs.

Lemma readable_v4_run err0 q s len d g k k1 :
  quote4_ok q -> kcall (Erecvfrom (fd4 d) MAXLINE 0) k = (Ok (enc q, (SaIn s, len)), k1) ->
  length (sin_addr s) = 4%nat -> Forall is_byte (sin_addr s) -> length err0 = 144%nat -> length (static d) = 128%nat ->
  -1 <= maxi d -> maxi d < Z.of_nat (length (clients d)) -> daemon_proc g = 0 ->
  wp exits (readable_v4 err0 d)
    (reported d (if is_error4 (q_type q) && (proto4 q =? IPPROTO_UDP)
                 then told AF_INET (q_sport q) (report err0 (q_type q) (q_code q) (errno_v4 (q_type q) (q_code q)) (dest4 q))
                        (take (Z.to_nat (maxi d + 1)) (clients d))
                 else []) g k) g k.
Proof.
  intros [(b1 & Hb1 & Hlen1 & _) Hrest (b2 & Hb2 & Hlen2 & Hbytes) Hmin Hsp Hdp Htail] Erecv Hs1 Hs2 Herr Hst Hm1 Hm2 Hd.
  set (p1 := Z.of_nat (length (q_ip q))) in *. set (hip := q_hip q) in *.
  assert (reports k1 = reports k) as Hk1 by (pose proof (rk_recv k (fd4 d) MAXLINE 0) as H; by rewrite Erecv in H).
  unfold readable_v4. apply wp_bind. unfold Recvfrom. apply wp_checked_or; [done|intros ? ? E; by rewrite Erecv in E|]. intros v k' E. rewrite Erecv in E. injection E as <- <-.
  cbv beta iota zeta. apply wp_bind, host_run; [done|left; eauto|]. intros host.
  assert (enc q = [] ++ q_ip q ++ ([q_type q; q_code q] ++ q_rest q ++ hip ++ store16 (q_sport q) ++ store16 (q_dport q) ++ q_tail q)) as E0 by done.
  assert (enc q = q_ip q ++ [q_type q; q_code q] ++ (q_rest q ++ hip ++ store16 (q_sport q) ++ store16 (q_dport q) ++ q_tail q)) as E1 by done.
  set (l2 := q_ip q ++ [q_type q; q_code q] ++ q_rest q).
  assert (enc q = l2 ++ hip ++ (store16 (q_sport q) ++ store16 (q_dport q) ++ q_tail q)) as E2 by (unfold l2, enc; by rewrite <- !app_assoc).
  assert (Z.of_nat (length l2) = p1 + 8) as Hl2 by (unfold l2; rewrite !length_app, Hrest; cbn [length]; unfold p1; lia).
  apply wp_bind. eapply wp_mem; [rewrite E0; apply (aread_mid [] _ _ 0 b1 Hb1)|]. rewrite Hlen1. fold p1.
  assert (Z.of_nat (length (enc q)) - p1 = 8 + Z.of_nat (length hip) + 4 + Z.of_nat (length (q_tail q))) as Hn.
  { rewrite E2, !length_app, !store16_length. lia. }
  rewrite (proj2 (Z.ltb_ge _ _)) by lia.
  apply wp_bind. eapply wp_mem; [rewrite E1, <- (Z.add_0_r p1); apply (aread_mid _ [_; _] _ 0); done|].
  apply wp_bind. eapply wp_mem; [rewrite E1; apply (aread_mid _ [_; _] _ 1); done|].
  fold (is_error4 (q_type q)). destruct (is_error4 (q_type q)); cbn [andb].
  2: { apply wp_ret. unfold reported. rewrite app_nil_r. by split_and!. }
  rewrite (proj2 (Z.ltb_ge _ _)) by lia. rewrite <- Hl2.
  apply wp_bind. eapply wp_mem; [rewrite E2, <- (Z.add_0_r (Z.of_nat (length l2))); apply (aread_mid _ _ _ 0); exact Hb2|]. rewrite Hlen2.
  assert (forall o, Forall is_byte (take 4 (drop o hip))) as Hby by (intros o; by apply Forall_take, Forall_drop).
  apply wp_bind. eapply (show_run AF_INET _ _ 4 16 (take 4 (drop 12 hip))); [by left|rewrite E2; apply (asub_mid _ _ _ 12 4); lia|rewrite length_take, length_drop; lia|apply Hby|].
  intros src. apply wp_bind.
  eapply (show_run AF_INET _ _ 4 16 (take 4 (drop 16 hip))); [by left|rewrite E2; apply (asub_mid _ _ _ 16 4); lia|rewrite length_take, length_drop; lia|apply Hby|].
  assert (hip !! 9%nat = Some (proto4 q)) as H9.
  { destruct (lookup_lt_is_Some_2 hip 9) as [x Hx]; [lia|]. unfold proto4. fold hip. by rewrite (nth_lookup_Some _ _ _ _ Hx). }
  intros dst. apply wp_bind. eapply wp_mem; [rewrite E2; apply (aread_mid _ _ _ 9); exact H9|]. set (udp := l2 ++ hip).
  assert (enc q = udp ++ store16 (q_sport q) ++ store16 (q_dport q) ++ q_tail q) as E3 by (unfold udp; by rewrite E2, <- app_assoc).
  assert (Z.of_nat (length l2) + Z.of_nat (length hip) = Z.of_nat (length udp)) as Hudp by (unfold udp; rewrite length_app; lia). rewrite Hudp.
  apply wp_bind. cbv zeta. eapply wp_mono with (P := fun _ g' k' => g' = g /\ reports k' = reports k1 ++
    if proto4 q =? IPPROTO_UDP then told AF_INET (q_sport q) (report err0 (q_type q) (q_code q) (errno_v4 (q_type q) (q_code q)) (dest4 q))
      (take (Z.to_nat (maxi d + 1)) (clients d)) else []).
  - destruct (proto4 q =? IPPROTO_UDP); [|apply wp_ret; by rewrite app_nil_r].
    assert (aread16 (enc q) (Z.of_nat (length udp) + 2) = Some (q_dport q)) as ->.
    { rewrite E3, app_assoc. apply aread16_app; [done|]. rewrite length_app, store16_length. lia. }
    assert (asub (enc q) (Z.of_nat (length l2) + 16) 4 = Some (take 4 (drop 16 hip))) as -> by (rewrite E2; apply (asub_mid _ _ _ 16 4); lia).
    cbn [maxi clients print]. apply (tell_run AF_INET _ _ _ _ (dest4 q)); [done|done|done|rewrite E3; by apply aread16_app|done| |done].
    unfold dest4. rewrite !length_app, store16_length, length_take, length_replicate, length_drop. cbn [length]. lia.
  - intros [] g' k' [-> Hk']. apply wp_ret. unfold reported. rewrite Hk1 in Hk'. by split_and!.
Qed.

(** ** readable_v6: no IP header before the message, and a quoted header of 40 bytes *)
Record quote6_ok (q : quote) : Prop := {
  q6_ip : q_ip q = [];
  q6_rest : length (q_rest q) = 6%nat;
  q6_hip : length (q_hip q) = 40%nat;
  q6_bytes : Forall is_byte (q_hip q);
  q6_sport : is_u16 (q_sport q);
  q6_dport : is_u16 (q_dport q) }.
Definition proto6 (q : quote) : Z := nth 6 (q_hip q) 0.
Definition dest6 (q : quote) : list Z := [28; AF_INET6] ++ store16 (q_dport q) ++ replicate 4 0 ++ take 16 (drop 24 (q_hip q)) ++ replicate 4 0.
Definition is_error6 (type : Z) : bool := (type =? ICMP6_DST_UNREACH) || (type =? ICMP6_PACKET_TOO_BIG) || (type =? ICMP6_TIME_EXCEEDED).

Lemma readable_v6_run err0 q s len d g k k1 :
  quote6_ok q -> kcall (Erecvfrom (fd6 d) MAXLINE 0) k = (Ok (enc q, (SaIn6 s, len)), k1) ->
  length (sin6_addr s) = 16%nat -> Forall is_byte (sin6_addr s) -> length err0 = 144%nat -> length (static d) = 128%nat ->
  -1 <= maxi d -> maxi d < Z.of_nat (length (clients d)) -> daemon_proc g = 0 ->
  wp exits (readable_v6 err0 d)
    (reported d (if is_error6 (q_type q) && (proto6 q =? IPPROTO_UDP)
                 then told AF_INET6 (q_sport q) (report err0 (q_type q) (q_code q) (errno_v6 (q_type q) (q_code q)) (dest6 q))
                        (take (Z.to_nat (maxi d + 1)) (clients d))
                 else []) g k) g k.
Proof.
  intros [Hip Hrest Hhip Hbytes Hsp Hdp] Erecv Hs1 Hs2 Herr Hst Hm1 Hm2 Hd. set (hip := q_hip q) in *.
  assert (reports k1 = reports k) as Hk1 by (pose proof (rk_recv k (fd6 d) MAXLINE 0) as H; by rewrite Erecv in H).
  unfold readable_v6. apply wp_bind. unfold Recvfrom. apply wp_checked_or; [done|intros ? ? E; by rewrite Erecv in E|].
  intros v k' E. rewrite Erecv in E. injection E as <- <-. cbv beta iota zeta. apply wp_bind, host_run; [done|right; eauto|]. intros host.
  set (l2 := [q_type q; q_code q] ++ q_rest q).
  assert (enc q = l2 ++ hip ++ (store16 (q_sport q) ++ store16 (q_dport q) ++ q_tail q)) as E2 by (unfold l2, enc; rewrite Hip; by rewrite <- !app_assoc).
  assert (length l2 = 8%nat) as Hl2 by (unfold l2; by rewrite length_app, Hrest).
  assert (52 <= Z.of_nat (length (enc q))) as Hn by (rewrite E2, !length_app, !store16_length, Hl2, Hhip; lia).
  rewrite (proj2 (Z.ltb_ge _ _)) by lia.
  apply wp_bind. eapply wp_mem; [rewrite E2; apply (aread_mid [] l2 _ 0); done|].
  apply wp_bind. eapply wp_mem; [rewrite E2; apply (aread_mid [] l2 _ 1); done|].
  fold (is_error6 (q_type q)). destruct (is_error6 (q_type q)); cbn [andb].
  2: { apply wp_ret. unfold reported. rewrite app_nil_r. by split_and!. }
  rewrite (proj2 (Z.ltb_ge _ _)) by lia.
  assert (forall o, Forall is_byte (take 16 (drop o hip))) as Hby by (intros o; by apply Forall_take, Forall_drop).
  assert (forall o, o = 8%nat \/ o = 24%nat -> asub (enc q) (8 + Z.of_nat o) 16 = Some (take 16 (drop o hip))) as Hsub.
  { intros o Ho. rewrite E2. replace 8 with (Z.of_nat (length l2)) by lia. apply (asub_mid _ _ _ o 16). lia. }
  apply wp_bind. eapply (show_run AF_INET6 _ _ 16 46 (take 16 (drop 8 hip))); [by right|apply (Hsub 8%nat); by left|rewrite length_take, length_drop; lia|apply Hby|].
  intros src. apply wp_bind.
  eapply (show_run AF_INET6 _ _ 16 46 (take 16 (drop 24 hip))); [by right|apply (Hsub 24%nat); by right|rewrite length_take, length_drop; lia|apply Hby|].
  assert (hip !! 6%nat = Some (proto6 q)) as H6.
  { destruct (lookup_lt_is_Some_2 hip 6) as [x Hx]; [lia|]. unfold proto6. fold hip. by rewrite (nth_lookup_Some _ _ _ _ Hx). }
  intros dst. apply wp_bind. eapply wp_mem; [rewrite E2; replace 8 with (Z.of_nat (length l2)) by lia; apply (aread_mid _ _ _ 6); exact H6|].
  set (udp := l2 ++ hip).
  assert (enc q = udp ++ store16 (q_sport q) ++ store16 (q_dport q) ++ q_tail q) as E3 by (unfold udp; by rewrite E2, <- app_assoc).
  assert (Z.of_nat (length udp) = 8 + sizeof_ip6_hdr) as Hudp by (unfold udp; rewrite length_app, Hl2, Hhip; done). rewrite <- Hudp.
  apply wp_bind. cbv zeta. eapply wp_mono with (P := fun _ g' k' => g' = g /\ reports k' = reports k1 ++
    if proto6 q =? IPPROTO_UDP then told AF_INET6 (q_sport q) (report err0 (q_type q) (q_code q) (errno_v6 (q_type q) (q_code q)) (dest6 q))
      (take (Z.to_nat (maxi d + 1)) (clients d)) else []).
  - destruct (proto6 q =? IPPROTO_UDP); [|apply wp_ret; by rewrite app_nil_r].
    assert (aread16 (enc q) (Z.of_nat (length udp) + 2) = Some (q_dport q)) as ->.
    { rewrite E3, app_assoc. apply aread16_app; [done|]. rewrite length_app, store16_length. lia. }
    change (8 + 24) with (8 + Z.of_nat 24). rewrite (Hsub 24%nat) by (by right).
    cbn [maxi clients print]. apply (tell_run AF_INET6 _ _ _ _ (dest6 q)); [done|done|done|rewrite E3; by apply aread16_app|done| |done].
    unfold dest6. rewrite !length_app, store16_length, length_take, !length_replicate, length_drop. cbn [length]. lia.
  - intros [] g' k' [-> Hk']. apply wp_ret. unfold reported. rewrite Hk1 in Hk'. by split_and!.
Qed.
End Reports.


(** ** A system for the witness: scripts of what select, recvmsg and recvfrom return *)
#[local] Existing Instance x86_64.
Record dsys := Dsys {
  ds_select : list (list Z); ds_msgs : list (list Z * option cmsghdr); ds_pkts : list (list Z * sockaddr); ds_log : list (Z * list Z) }.
#[export] Instance dsys_kernel : Kernel dsys := {|
  kcall X e :=
    match e in sysE X return dsys -> res X * dsys with
    | Esocket f _ _ => fun k => (Ok (if f =? AF_INET then 3 else if f =? AF_INET6 then 4 else 5), k)
    | Ebind _ _ _ | Elisten _ _ | Eclose _ | Eunlink _ => fun k => (Ok tt, k)
    | Eaccept _ => fun k => (Ok (7, (SaUn (SockaddrUn []), 0)), k)
    | Eselect _ _ _ _ _ => fun k =>
        (match head (ds_select k) with
         | Some l => Ok (Z.of_nat (length l), (list_to_set l, ∅, ∅))
         | None => Err EINTR
         end, Dsys (tail (ds_select k)) (ds_msgs k) (ds_pkts k) (ds_log k))
    | Erecvmsg _ _ _ => fun k =>
        (match head (ds_msgs k) with Some m => Ok m | None => Err EINTR end, Dsys (ds_select k) (tail (ds_msgs k)) (ds_pkts k) (ds_log k))
    | Erecvfrom _ _ _ => fun k =>
        (match head (ds_pkts k) with Some (bs, sa) => Ok (bs, (sa, 16)) | None => Err EINTR end,
         Dsys (ds_select k) (ds_msgs k) (tail (ds_pkts k)) (ds_log k))
    | Egetsockname _ => fun k => (Ok (SaIn (SockaddrIn 5000 [0; 0; 0; 0]), 16), k)
    | Ewrite fd bs => fun k => (Ok (Z.of_nat (length bs)), Dsys (ds_select k) (ds_msgs k) (ds_pkts k) (ds_log k ++ [(fd, bs)]))
    | _ => fun k => (Err ENOSYS, k)
    end;
  klib X e k := ((@klib unit (failing_kernel ENOSYS) _ e tt).1, k) |}.
#[export] Instance dsys_reports : ReportKernel dsys.
Proof.
  refine {| reports := ds_log |}.
  - intros k fd bs k' E. cbn in E. by injection E as <-.
  - intros k fd n f. done.
Defined.

Definition ip_header : list Z := 69 :: replicate 8 0 ++ [17; 0; 0; 10; 0; 0; 1; 10; 0; 0; 9].
Definition refused : quote := Quote ip_header ICMP_UNREACH ICMP_UNREACH_PORT (replicate 6 0) ip_header 5000 53 (replicate 4 0).
Definition from9 : sockaddr_in := SockaddrIn 0 [10; 0; 0; 9].
Definition daemon (cl : list client) : icmpd :=
  State cl 3 4 5 (Z.of_nat (length cl) - 1) 9 1 ∅ ∅ (replicate 128 0) [].

Lemma header_ok : header4 ip_header.
Proof.
  exists 69. split_and!; [done|done|]. assert (forallb (fun b => (0 <=? b) && (b <? 256)) ip_header = true) as H by (by vm_compute).
  apply Forall_forall. intros b Hb. apply list_elem_of_In in Hb. rewrite forallb_forall in H. apply H in Hb. unfold is_byte. lia.
Qed.
Lemma refused_ok : quote4_ok refused.
Proof. split; first [done|apply header_ok|cbn; lia]. Qed.


(** The entry of a client keeps family and port when the client ends, and a new
    client that gets the entry inherits them: after the first client has
    registered its port and ended, the second, which has registered nothing, is
    sent the errors of the first one's port. *)
Theorem icmpd_inherits_port :
  let rights := Some (Cmsghdr CMSG_LEN_int SOL_SOCKET SCM_RIGHTS 9) in
  let k := Dsys [[5]; [7]; [7]; [5]; [3]] [([0], rights); ([], None)] [(enc refused, SaIn from9)] [] in
  reports (run (icmpd_main 10 5 (replicate 144 0) (replicate 128 0)) globals0 k).2 =
    [(7, [49]); (7, report (replicate 144 0) 3 3 ECONNREFUSED (dest4 refused))].
Proof. by vm_compute. Qed.

(** The lengths are checked against the smallest headers only: an ICMPv6 error of 16
    bytes passes the test although the quoted header has 40, and an ICMPv4 error
    of 36 bytes passes it although the quoted header says it has 60; the daemon
    then reads bytes that it has not received. *)
Theorem icmpd_reads_unreceived :
  (run (readable_v6 (replicate 144 0) (daemon [])) globals0
     (Dsys [] [] [([1; 0] ++ replicate 14 0, SaIn6 (SockaddrIn6 0 0 (replicate 16 0) 0))] [])).1.1 = Halted Fault /\
  (run (readable_v4 (replicate 144 0) (daemon [])) globals0
     (Dsys [] [] [(ip_header ++ [3; 3] ++ replicate 6 0 ++ (79 :: replicate 8 0 ++ [17]) ++ replicate 18 0, SaIn from9)] [])).1.1 = Halted Fault.
Proof. split; by vm_compute. Qed.
End IcmpdProofs.
