(* ===== verification/Sigio.v ===== *)
(** * The signal-driven echo server: sigio/dgecho01.c

    The handler of SIGIO reads the datagrams that have arrived into a ring of
    eight buffers; the main loop, which blocks the signal while it looks at the
    counter nqueue, sends them back.  The handler runs between any two
    statements of the main loop at which the signal is not blocked, and
    datagrams arrive at any time, so the model is a transition system: a state
    holds the static variables, the signal mask, the socket and the program
    points; a transition executes one statement of the main loop or of the
    handler, or is an event. *)
From stdpp Require Import base list numbers.
From S2P Require Import Prelude Sys StreamIO Pool.

Module Sigio.
Definition QSIZE : Z := 8.
Definition MAXDG : Z := 4096.

(** The structure of a slot, with the blocks its pointers point to. *)
Record DG := Dg { dg_data : list Z; dg_len : Z; dg_sa : list Z; dg_salen : Z }.

(** A datagram: its bytes and the address of its sender. *)
Record dgram := Dgram { d_data : list Z; d_addr : list Z }.

(** The statement the main loop executes next. *)
Inductive main_pc :=
  | MAsync      (* Ioctl(sockfd, FIOASYNC, &on) *)
  | MNonbio     (* Ioctl(sockfd, FIONBIO, &on) *)
  | MStart      (* Sigprocmask(SIG_BLOCK, &newmask, &oldmask), before the loop *)
  | MTest       (* while (nqueue == 0) *)
  | MCall       (* sigsuspend is called *)
  | MSuspend    (* inside sigsuspend(&zeromask) *)
  | MUnblock    (* Sigprocmask(SIG_SETMASK, &oldmask, NULL) *)
  | MSend       (* Sendto *)
  | MInc        (* if (++iget >= QSIZE) iget = 0 *)
  | MBlock      (* Sigprocmask(SIG_BLOCK, &newmask, &oldmask) *)
  | MDec        (* nqueue-- *)
  | MOverflow   (* err_quit("receive overflow") has ended the process *)
  | MFailed.    (* a call has failed and err_sys has ended the process *)

(** The statement the handler executes next, with its variable nread. *)
Inductive handler_pc :=
  | HTest (nread : Z)     (* if (nqueue >= QSIZE) err_quit *)
  | HRecv (nread : Z)     (* recvfrom and the rest of the loop's body *)
  | HCount (nread : Z).   (* cntread[nread]++ *)

(** [blocked] and [oldmask]: whether SIGIO is in the signal mask of the process
    and in the variable oldmask.  [pending]: SIGIO has been raised and not
    delivered.  [async], [nonbio]: the modes of the socket, and [rcvq] the
    datagrams in it.  [arrived], [sent] and [printed] are the history: the
    datagrams that arrived and that were sent, and what sig_hup printed. *)
Record server := State {
  dg : list DG; cntread : list Z; iget : Z; iput : Z; nqueue : Z;
  blocked : bool; oldmask : bool; pending : bool; async : bool; nonbio : bool;
  m_pc : main_pc; handler : option handler_pc;
  rcvq : list dgram; arrived : list dgram; sent : list dgram; printed : list (list Z) }.

Definition set_main (pc : main_pc) (s : server) : server :=
  State (dg s) (cntread s) (iget s) (iput s) (nqueue s) (blocked s) (oldmask s) (pending s) (async s) (nonbio s)
    pc (handler s) (rcvq s) (arrived s) (sent s) (printed s).
Definition set_mask (b o : bool) (s : server) : server :=
  State (dg s) (cntread s) (iget s) (iput s) (nqueue s) b o (pending s) (async s) (nonbio s)
    (m_pc s) (handler s) (rcvq s) (arrived s) (sent s) (printed s).
Definition set_modes (a n : bool) (s : server) : server :=
  State (dg s) (cntread s) (iget s) (iput s) (nqueue s) (blocked s) (oldmask s) (pending s) a n
    (m_pc s) (handler s) (rcvq s) (arrived s) (sent s) (printed s).
Definition set_pending (p : bool) (s : server) : server :=
  State (dg s) (cntread s) (iget s) (iput s) (nqueue s) (blocked s) (oldmask s) p (async s) (nonbio s)
    (m_pc s) (handler s) (rcvq s) (arrived s) (sent s) (printed s).
Definition set_handler (h : option handler_pc) (s : server) : server :=
  State (dg s) (cntread s) (iget s) (iput s) (nqueue s) (blocked s) (oldmask s) (pending s) (async s) (nonbio s)
    (m_pc s) h (rcvq s) (arrived s) (sent s) (printed s).
Definition set_iget (i : Z) (s : server) : server :=
  State (dg s) (cntread s) i (iput s) (nqueue s) (blocked s) (oldmask s) (pending s) (async s) (nonbio s)
    (m_pc s) (handler s) (rcvq s) (arrived s) (sent s) (printed s).
Definition set_nqueue (n : Z) (s : server) : server :=
  State (dg s) (cntread s) (iget s) (iput s) n (blocked s) (oldmask s) (pending s) (async s) (nonbio s)
    (m_pc s) (handler s) (rcvq s) (arrived s) (sent s) (printed s).
Definition add_sent (d : dgram) (s : server) : server :=
  State (dg s) (cntread s) (iget s) (iput s) (nqueue s) (blocked s) (oldmask s) (pending s) (async s) (nonbio s)
    (m_pc s) (handler s) (rcvq s) (arrived s) (sent s ++ [d]) (printed s).

(** if (++i >= QSIZE) i = 0 *)
Definition advance (i : Z) : Z := if QSIZE <=? i + 1 then 0 else i + 1.

(** ** The main loop *)
Definition do_send (s : server) : outcome server :=
  access (aread (dg s) (iget s)) (fun p =>
  access (asub (dg_data p) 0 (dg_len p)) (fun data =>
  access (asub (dg_sa p) 0 (dg_salen p)) (fun sa =>
  Next (set_main MInc (add_sent (Dgram data sa) s))))).

(** While the handler runs, the main loop does not. *)
Definition main_step (s : server) : outcome server :=
  match handler s with
  | Some _ => Blocked
  | None =>
      match m_pc s with
      | MAsync => Next (set_main MNonbio (set_modes true (nonbio s) s))
      | MNonbio => Next (set_main MStart (set_modes (async s) true s))
      | MStart => Next (set_main MTest (set_mask true (blocked s) s))
      | MTest => Next (set_main (if nqueue s =? 0 then MCall else MUnblock) s)
      | MCall => Next (set_main MSuspend s)
      | MSuspend => Blocked
      | MUnblock => Next (set_main MSend (set_mask (oldmask s) (oldmask s) s))
      | MSend => do_send s
      | MInc => Next (set_main MBlock (set_iget (advance (iget s)) s))
      | MBlock => Next (set_main MDec (set_mask true (blocked s) s))
      | MDec => Next (set_main MTest (set_nqueue (nqueue s - 1) s))
      | MOverflow | MFailed => Blocked
      end
  end.

(** ** The handler sig_io *)

(** recvfrom into dg[iput], whose dg_salen was set to clilen, and the updates that
    follow.  A datagram longer than MAXDG is cut. *)
Definition receive (clilen nread : Z) (d : dgram) (q : list dgram) (s : server) : outcome server :=
  access (aread (dg s) (iput s)) (fun p =>
  let data := take (Z.to_nat MAXDG) (d_data d) in
  access (memcpy (dg_data p) 0 data) (fun data1 =>
  access (memcpy (dg_sa p) 0 (take (Z.to_nat clilen) (d_addr d))) (fun sa1 =>
  let p1 := Dg data1 (Z.of_nat (length data)) sa1 (Z.of_nat (length (d_addr d))) in
  access (awrite (dg s) (iput s) p1) (fun dg1 =>
  Next (State dg1 (cntread s) (iget s) (advance (iput s)) (nqueue s + 1) (blocked s) (oldmask s) (pending s) (async s)
    (nonbio s) (m_pc s) (Some (HTest (nread + 1))) q (arrived s) (sent s) (printed s)))))).

(** The handler returns; so does a sigsuspend it has interrupted. *)
Definition resume (pc : main_pc) : main_pc := match pc with MSuspend => MTest | _ => pc end.
Definition count (nread : Z) (s : server) : outcome server :=
  access (aread (cntread s) nread) (fun c =>
  access (awrite (cntread s) nread (c + 1)) (fun cnt =>
  Next (State (dg s) cnt (iget s) (iput s) (nqueue s) (blocked s) (oldmask s) (pending s) (async s) (nonbio s)
    (resume (m_pc s)) None (rcvq s) (arrived s) (sent s) (printed s)))).

Definition handler_step (clilen : Z) (h : handler_pc) (s : server) : outcome server :=
  match h with
  | HTest nread => if QSIZE <=? nqueue s then Next (set_main MOverflow s) else Next (set_handler (Some (HRecv nread)) s)
  | HRecv nread =>
      match rcvq s with
      | d :: q => receive clilen nread d q s
      | [] => if nonbio s then Next (set_handler (Some (HCount nread)) s) else Blocked
      end
  | HCount nread => count nread s
  end.

(** ** Transitions

    [Arrive d]: a datagram arrives, and raises SIGIO if the socket is in that mode.
    [Raise]: SIGIO for another reason.  [Deliver]: the handler is called.  [Loop]
    and [Handle]: the main loop or the handler executes its next statement.
    [Fail]: the call it is about to make fails.  [Hup]: SIGHUP. *)
Inductive label := Arrive (d : dgram) | Raise | Deliver | Loop | Handle | Fail | Hup.

Definition exited (s : server) : bool := match m_pc s with MOverflow | MFailed => true | _ => false end.

Definition deliver (s : server) : outcome server :=
  match handler s with
  | Some _ => Blocked
  | None =>
      if pending s && (negb (blocked s) || match m_pc s with MSuspend => true | _ => false end)
      then Next (set_handler (Some (HTest 0)) (set_pending false s))
      else Blocked
  end.

Definition calling (s : server) : bool :=
  match handler s with
  | Some (HRecv _) => true
  | Some _ => false
  | None => match m_pc s with MAsync | MNonbio | MStart | MUnblock | MSend | MBlock => true | _ => false end
  end.

(** for (i = 0; i <= QSIZE; i++) printf *)
Definition sig_hup (s : server) : outcome server :=
  access (asub (cntread s) 0 (QSIZE + 1)) (fun cnt =>
  Next (State (dg s) (cntread s) (iget s) (iput s) (nqueue s) (blocked s) (oldmask s) (pending s) (async s) (nonbio s)
    (match handler s with None => resume (m_pc s) | Some _ => m_pc s end) (handler s)
    (rcvq s) (arrived s) (sent s) (printed s ++ [cnt]))).

Definition step (clilen : Z) (l : label) (s : server) : outcome server :=
  if exited s then Blocked
  else match l with
  | Arrive d =>
      Next (State (dg s) (cntread s) (iget s) (iput s) (nqueue s) (blocked s) (oldmask s) (pending s || async s) (async s)
        (nonbio s) (m_pc s) (handler s) (rcvq s ++ [d]) (arrived s ++ [d]) (sent s) (printed s))
  | Raise => Next (set_pending true s)
  | Deliver => deliver s
  | Loop => main_step s
  | Handle => match handler s with Some h => handler_step clilen h s | None => Blocked end
  | Fail => if calling s then Next (set_main MFailed s) else Blocked
  | Hup => sig_hup s
  end.

(** dg_echo up to the first ioctl: the blocks that Malloc has returned, the mask the
    process was started with. *)
Definition init (clilen : Z) (blocks : list (list Z * list Z)) (mask : bool) : server :=
  State (map (fun b => Dg b.1 0 b.2 clilen) blocks) (replicate 9 0) 0 0 0 mask false false false false MAsync None [] [] [] [].
End Sigio.
