(* ===== verification/SigioProofs.v ===== *)
(** * The signal-driven server echoes every datagram once and in order

    An invariant ties the ring, the counter that main loop and handler share and
    the two indices to the numbers of datagrams read and sent.  It holds
    wherever the handler interrupts the main loop.  Once the socket has been
    set up no wake-up is lost; during the set-up one can be. *)
From stdpp Require Import base list numbers.
From S2P Require Import Prelude Sys StreamIO StreamProofs Pool Sigio.

Module SigioProofs.
Import Sigio.

(** A datagram as the server sees it. *)
Definition clip (d : dgram) : dgram := Dgram (take (Z.to_nat MAXDG) (d_data d)) (d_addr d).

(** The datagrams the histogram accounts for. *)
Fixpoint hist_from (i : Z) (l : list Z) : Z := match l with [] => 0 | c :: l => i * c + hist_from (i + 1) l end.
Definition hist (l : list Z) : Z := hist_from 0 l.

Lemma hist_from_insert (l : list Z) i (n : nat) (c : Z) :
  l !! n = Some c -> hist_from i (<[n := c + 1]> l) = hist_from i l + i + Z.of_nat n.
Proof.
  revert i n. induction l as [|x l IH]; intros i [|n] E; [done|done| |].
  - injection E as ->. cbn. lia.
  - change (i * x + hist_from (i + 1) (<[n := c + 1]> l) = hist_from i (x :: l) + i + Z.of_nat (S n)). cbn [hist_from].
    rewrite (IH _ n E). lia.
Qed.

(** ** Arrays *)
Lemma asub_0 {A} (l : list A) (n : nat) : (n <= length l)%nat -> asub l 0 (Z.of_nat n) = Some (take n l).
Proof. intros. unfold asub. zbool. by rewrite Nat2Z.id. Qed.

Lemma memcpy_head {A} (l bs : list A) : (length bs <= length l)%nat -> memcpy l 0 bs = Some (bs ++ drop (length bs) l).
Proof. intros. by rewrite memcpy_is_Some by lia. Qed.

Lemma advance_mod (n : nat) : advance (Z.of_nat (n `mod` 8)) = Z.of_nat (S n `mod` 8).
Proof.
  unfold advance, QSIZE. rewrite !Nat2Z.inj_mod, (Nat2Z.inj_succ n). change (Z.of_nat 8) with 8.
  assert (0 <= Z.of_nat n) as H by lia. revert H. generalize (Z.of_nat n) as z. intros z Hz.
  destruct (Z.leb_spec 8 (z `mod` 8 + 1)).
  all: Z.to_euclidean_division_equations; lia.
Qed.

Lemma mod8_neq (k m : nat) : (k < m)%nat -> (m - k < 8)%nat -> (m `mod` 8 <> k `mod` 8)%nat.
Proof. intros. pose proof (Nat.div_mod_eq m 8). pose proof (Nat.div_mod_eq k 8). lia. Qed.

(** ** The invariant *)
Section Inv.
Context (clilen : Z).

Definition addr_ok (d : dgram) : Prop := Z.of_nat (length (d_addr d)) <= clilen.
Definition slot_ok (p : DG) : Prop := length (dg_data p) = 4096%nat /\ Z.of_nat (length (dg_sa p)) = clilen.
Definition holds (p : DG) (d : dgram) : Prop :=
  asub (dg_data p) 0 (dg_len p) = Some (d_data (clip d)) /\ asub (dg_sa p) 0 (dg_salen p) = Some (d_addr d).

(** The datagram that was sent is still counted in nqueue. *)
Definition counted (pc : main_pc) : nat := match pc with MInc | MBlock | MDec => 1 | _ => 0 end.
(** ... and iget is still its slot. *)
Definition behind (pc : main_pc) : nat := match pc with MInc => 1 | _ => 0 end.
Definition h_read (h : option handler_pc) : Z :=
  match h with Some (HTest n) | Some (HRecv n) | Some (HCount n) => n | None => 0 end.

(** What holds at a program point: from the test of nqueue to sigsuspend the signal
    is blocked, so the handler cannot run in between. *)
Definition pc_ok (pc : main_pc) (b : bool) (h : option handler_pc) (n : Z) (some : Prop) : Prop :=
  match pc with
  | MUnblock | MSend => some
  | MTest | MDec => b = true
  | MCall => b = true /\ h = None /\ n = 0
  | MSuspend => b = true /\ (h = None -> n = 0)
  | _ => True
  end.

Lemma pc_ok_handler pc b h h' n n' (P P' : Prop) : (P -> P') -> pc_ok pc b (Some h) n P -> pc_ok pc b (Some h') n' P'.
Proof. destruct pc; cbn; naive_solver. Qed.
Lemma pc_ok_return pc b h n P : pc_ok pc b (Some h) n P -> pc_ok (resume pc) b None n P.
Proof. destruct pc; cbn; naive_solver. Qed.

(** [got]: the datagrams the handler has read. *)
Record Inv (got : list dgram) (s : server) : Prop := {
  inv_arrived : arrived s = got ++ rcvq s;
  inv_addr : Forall addr_ok (rcvq s);
  inv_sent : sent s = map clip (take (length (sent s)) got);
  inv_le : (length (sent s) <= length got)%nat;
  inv_dg : length (dg s) = 8%nat;
  inv_slot : forall i p, dg s !! i = Some p -> slot_ok p;
  inv_holds : forall k d p, (length (sent s) <= k)%nat -> got !! k = Some d -> dg s !! (k `mod` 8)%nat = Some p -> holds p d;
  inv_put : iput s = Z.of_nat (length got `mod` 8);
  inv_get : exists n : nat, (n + behind (m_pc s) = length (sent s))%nat /\ iget s = Z.of_nat (n `mod` 8);
  inv_n : nqueue s = Z.of_nat (length got) - Z.of_nat (length (sent s)) + Z.of_nat (counted (m_pc s));
  inv_full : nqueue s <= 8;
  inv_pc : pc_ok (m_pc s) (blocked s) (handler s) (nqueue s) (length (sent s) < length got)%nat;
  inv_cnt : length (cntread s) = 9%nat;
  inv_hist : hist (cntread s) + h_read (handler s) = Z.of_nat (length got);
  inv_h : 0 <= h_read (handler s) <= nqueue s /\ match handler s with Some (HRecv _) => nqueue s < 8 | _ => True end;
  inv_live : exited s = false }.

(** After the end of the process. *)
Definition Ended (got : list dgram) (s : server) : Prop :=
  exited s = true /\ arrived s = got ++ rcvq s /\ sent s = map clip (take (length (sent s)) got) /\
  (length (sent s) <= length got <= length (sent s) + 8)%nat /\ hist (cntread s) + h_read (handler s) = Z.of_nat (length got) /\
  (m_pc s = MOverflow -> nqueue s = 8 /\ (length (sent s) + 7 <= length got)%nat).

Definition Good (s : server) : Prop := exists got, Inv got s \/ Ended got s.

Lemma inv_ended got s pc : Inv got s -> (pc = MFailed \/ pc = MOverflow /\ nqueue s = 8) -> Ended got (set_main pc s).
Proof.
  intros HI Hpc. pose proof (inv_n _ _ HI). pose proof (inv_full _ _ HI). pose proof (inv_le _ _ HI).
  assert (counted (m_pc s) <= 1)%nat by (destruct (m_pc s); cbn; lia).
  split_and!; cbn; try apply HI; try done; try lia; destruct Hpc as [->|[-> ?]]; try done; intros; split; lia.
Qed.

(** ** The statements of the main loop *)

(** A change of masks, modes and the program point. *)
Lemma inv_move got s b o pe a n pc pr :
  Inv got s -> counted pc = counted (m_pc s) -> behind pc = behind (m_pc s) -> pc <> MOverflow -> pc <> MFailed ->
  pc_ok pc b (handler s) (nqueue s) (length (sent s) < length got)%nat ->
  Inv got (State (dg s) (cntread s) (iget s) (iput s) (nqueue s) b o pe a n pc (handler s) (rcvq s) (arrived s) (sent s) pr).
Proof.
  intros HI Hc Hb H1 H2 Hpc. destruct HI. split; cbn; rewrite ?Hc, ?Hb; try done. by destruct pc.
Qed.

Lemma inv_do_send got s : Inv got s -> handler s = None -> m_pc s = MSend -> exists s', do_send s = Next s' /\ Inv got s'.
Proof.
  intros HI Hh Epc. pose proof (inv_get _ _ HI) as (n & Hn & Hget). pose proof (inv_pc _ _ HI) as Hlt. rewrite Epc in Hn, Hlt.
  cbn [behind] in Hn. cbn [pc_ok] in Hlt. assert (n = length (sent s)) as -> by lia. clear Hn.
  destruct (lookup_lt_is_Some_2 got (length (sent s)) Hlt) as [d Hd].
  destruct (lookup_lt_is_Some_2 (dg s) (length (sent s) `mod` 8)) as [p Hp]; [rewrite (inv_dg _ _ HI); apply Nat.mod_upper_bound; lia|].
  destruct (inv_holds _ _ HI _ d p (le_n _) Hd Hp) as [H1 H2].
  unfold do_send. rewrite Hget, (aread_nat _ _ _ Hp). cbn [access]. rewrite H1, H2. cbn [access]. eexists. split; [done|].
  pose proof (inv_n _ _ HI) as Hq. pose proof (inv_sent _ _ HI) as Hs. rewrite Epc in Hq. destruct HI. split; cbn; rewrite ?length_app; cbn [length]; try done.
  - rewrite Nat.add_1_r, (take_S_r _ _ d) by done. rewrite map_app. cbn. by rewrite <- Hs.
  - lia.
  - intros k d' p' Hk. apply inv_holds0. lia.
  - exists (length (sent s)). split; [lia|done].
  - cbn in Hq. lia.
Qed.

Lemma inv_do_inc got s : Inv got s -> m_pc s = MInc -> Inv got (set_main MBlock (set_iget (advance (iget s)) s)).
Proof.
  intros HI Epc. pose proof (inv_get _ _ HI) as (n & Hn & Hget). pose proof (inv_n _ _ HI) as Hq. rewrite Epc in Hn, Hq. cbn [behind counted] in *.
  destruct HI. split; cbn; try done. exists (length (sent s)). split; [lia|]. rewrite Hget, advance_mod. by replace (length (sent s)) with (S n) by lia.
Qed.

Lemma inv_do_dec got s : Inv got s -> handler s = None -> m_pc s = MDec -> Inv got (set_main MTest (set_nqueue (nqueue s - 1) s)).
Proof.
  intros HI Hh Epc. pose proof (inv_get _ _ HI) as (n & Hn & Hget). pose proof (inv_n _ _ HI) as Hq. pose proof (inv_le _ _ HI).
  pose proof (inv_pc _ _ HI) as Hb. rewrite Epc in Hn, Hq, Hb. cbn [behind counted pc_ok] in *.
  destruct HI. split; cbn; rewrite ?Hh in *; cbn in *; try done; try lia.
  by exists n.
Qed.

(** The side conditions of [inv_move] at a known program point. *)
Ltac move_to Epc := unfold set_main, set_mask, set_modes, set_pending; cbn; apply inv_move; rewrite ?Epc; try done.

Lemma inv_main got s : Inv got s -> match main_step s with Blocked => True | Crash => False | Next s' => Inv got s' end.
Proof.
  intros HI. unfold main_step. destruct (handler s) as [h|] eqn:Hh; [done|]. pose proof (inv_pc _ _ HI) as Hp.
  pose proof (inv_n _ _ HI) as Hq. pose proof (inv_le _ _ HI).
  destruct (m_pc s) eqn:Epc; try done.
  1-3, 6, 9: move_to Epc.
  - destruct (Z.eqb_spec (nqueue s) 0); move_to Epc. cbn in Hq |- *. lia.
  - destruct Hp as (? & ? & ?). by move_to Epc.
  - destruct (inv_do_send got s HI Hh Epc) as (s' & -> & H'). done.
  - by apply inv_do_inc.
  - by apply inv_do_dec.
Qed.

(** ** The handler *)
Lemma inv_receive got s nread d q :
  Inv got s -> handler s = Some (HRecv nread) -> rcvq s = d :: q ->
  exists s', receive clilen nread d q s = Next s' /\ Inv (got ++ [d]) s'.
Proof.
  intros HI Hh Hq. pose proof (inv_addr _ _ HI) as Ha. rewrite Hq in Ha. apply Forall_cons_1 in Ha as [Ha Hqs]. unfold addr_ok in Ha.
  set (n := (length got `mod` 8)%nat). assert (n < 8)%nat as Hn by (apply Nat.mod_upper_bound; lia).
  destruct (lookup_lt_is_Some_2 (dg s) n) as [p Hp]; [by rewrite (inv_dg _ _ HI)|].
  destruct (inv_slot _ _ HI n p Hp) as [Hs1 Hs2].
  assert (length (take (Z.to_nat MAXDG) (d_data d)) <= 4096)%nat as Hl by (rewrite length_take; unfold MAXDG; lia).
  unfold receive. rewrite (inv_put _ _ HI). fold n. rewrite (aread_nat _ _ _ Hp). cbn [access].
  rewrite memcpy_head by lia. cbn [access].
  rewrite (take_ge (d_addr d)) by lia. rewrite memcpy_head by lia. cbn [access].
  rewrite awrite_nat by (rewrite (inv_dg _ _ HI); lia). cbn [access]. eexists. split; [done|].
  set (p1 := Dg _ _ _ _).
  assert (slot_ok p1) as Hok by (unfold p1; split; cbn [dg_data dg_sa]; rewrite length_app, length_drop; lia).
  assert (holds p1 d) as Hd.
  { unfold p1. split; cbn [dg_data dg_sa dg_len dg_salen]; rewrite asub_0 by (rewrite length_app, length_drop; lia); apply (f_equal Some), take_app_length. }
  pose proof (inv_n _ _ HI) as Hnq. pose proof (inv_h _ _ HI) as [Hr Hr']. rewrite Hh in Hr, Hr'. cbn in Hr. pose proof (inv_le _ _ HI).
  pose proof (inv_hist _ _ HI) as Hhi. rewrite Hh in Hhi. cbn in Hhi.
  destruct HI. split; cbn; rewrite ?length_app; cbn [length]; try done; try lia.
  - rewrite inv_arrived0, Hq, <- app_assoc. done.
  - rewrite take_app_le by done. done.
  - by rewrite length_insert.
  - intros i p'. destruct (decide (n = i)) as [<-|Hne].
    + rewrite list_lookup_insert_eq by (rewrite inv_dg0; lia). by intros [= <-].
    + rewrite list_lookup_insert_ne by done. apply inv_slot0.
  - intros k d' p' Hk. destruct (decide (k = length got)) as [->|Hne].
    + rewrite lookup_app_r, Nat.sub_diag by lia. intros [= <-]. fold n. rewrite list_lookup_insert_eq by (rewrite inv_dg0; lia). by intros [= <-].
    + intros Hk'. assert (k < length got)%nat as Hlt.
      { apply lookup_lt_Some in Hk'. rewrite length_app in Hk'. cbn in Hk'. lia. }
      rewrite lookup_app_l in Hk' by done.
      rewrite list_lookup_insert_ne; [by apply inv_holds0|]. apply mod8_neq; lia.
  - rewrite Nat.add_1_r. apply advance_mod.
  - rewrite Hh in inv_pc0. revert inv_pc0. apply pc_ok_handler. lia.
  - unfold hist in Hhi. lia.
Qed.

Lemma inv_count got s nread :
  Inv got s -> handler s = Some (HCount nread) -> exists s', count nread s = Next s' /\ Inv got s'.
Proof.
  intros HI Hh. pose proof (inv_h _ _ HI) as [Hr _]. rewrite Hh in Hr. cbn in Hr. pose proof (inv_full _ _ HI).
  destruct (Z_of_nat_complete nread) as [n ->]; [lia|].
  destruct (lookup_lt_is_Some_2 (cntread s) n) as [c Hc]; [rewrite (inv_cnt _ _ HI); lia|].
  unfold count. rewrite (aread_nat _ _ _ Hc). cbn [access]. rewrite awrite_nat by (by eapply lookup_lt_Some). cbn [access].
  eexists. split; [done|]. pose proof (inv_hist _ _ HI) as Hhi. rewrite Hh in Hhi. cbn in Hhi.
  assert (counted (resume (m_pc s)) = counted (m_pc s) /\ behind (resume (m_pc s)) = behind (m_pc s)) as [E1 E2] by (by destruct (m_pc s)).
  destruct HI. split; cbn; rewrite ?E1, ?E2; try done.
  - rewrite Hh in inv_pc0. by eapply pc_ok_return.
  - by rewrite length_insert.
  - unfold hist in *. rewrite (hist_from_insert _ _ n c) by done. lia.
  - split; [lia|done].
  - unfold exited in *. cbn. by destruct (m_pc s).
Qed.

Lemma inv_handler got s h : Inv got s -> handler s = Some h ->
  match handler_step clilen h s with Blocked => True | Crash => False | Next s' => Good s' end.
Proof.
  intros HI Hh. pose proof (inv_full _ _ HI). unfold handler_step, QSIZE. destruct h as [nread|nread|nread].
  - destruct (Z.leb_spec 8 (nqueue s)).
    + exists got. right. apply inv_ended; [done|right; split; [done|lia]].
    + exists got. left. destruct HI. split; cbn; rewrite ?Hh in *; cbn in *; try done; try lia. by eapply pc_ok_handler.
  - destruct (rcvq s) as [|d q] eqn:Eq.
    + destruct (nonbio s); [|done]. exists got. left. destruct HI. split; cbn; rewrite ?Hh in *; cbn in *; try done; try lia. by eapply pc_ok_handler.
    + destruct (inv_receive got s nread d q HI Hh Eq) as (s' & -> & H'). by exists (got ++ [d]); left.
  - destruct (inv_count got s nread HI Hh) as (s' & -> & H'). by exists got; left.
Qed.

Lemma inv_deliver got s : Inv got s -> match deliver s with Blocked => True | Crash => False | Next s' => Inv got s' end.
Proof.
  intros HI. unfold deliver. destruct (handler s) as [h|] eqn:Hh; [done|]. destruct (_ && _) eqn:Hd; [|done].
  destruct HI. split; cbn; rewrite ?Hh in *; cbn in *; try done; try lia.
  revert inv_pc0. destruct (m_pc s); cbn; try done; try naive_solver. intros (E & _). rewrite E in Hd. by destruct (pending s).
Qed.

Lemma inv_sig_hup got s : Inv got s -> match sig_hup s with Blocked => True | Crash => False | Next s' => Inv got s' end.
Proof.
  intros HI. unfold sig_hup, QSIZE. rewrite (asub_0 _ 9) by (rewrite (inv_cnt _ _ HI); lia). cbn [access].
  apply inv_move; try done; pose proof (inv_pc _ _ HI); pose proof (inv_live _ _ HI); unfold exited in *; destruct (handler s), (m_pc s); cbn in *; naive_solver.
Qed.

Definition label_ok (l : label) : Prop := match l with Arrive d => addr_ok d | _ => True end.

Lemma sigio_step_good l s : label_ok l -> Good s -> match step clilen l s with Blocked => True | Crash => False | Next s' => Good s' end.
Proof.
  intros Hl [got [HI|HE]]; [|unfold step; by rewrite (proj1 HE)]. unfold step. rewrite (inv_live _ _ HI).
  destruct l as [d| | | | | |].
  - exists got. left. destruct HI. split; cbn; try done.
    + by rewrite inv_arrived0, app_assoc.
    + apply Forall_app; auto.
  - exists got. left. apply inv_move; try done; pose proof (inv_pc _ _ HI); pose proof (inv_live _ _ HI); unfold exited in *; by destruct (m_pc s).
  - pose proof (inv_deliver got s HI) as H. destruct (deliver s); try done. by exists got; left.
  - pose proof (inv_main got s HI) as H. destruct (main_step s); try done. by exists got; left.
  - destruct (handler s) as [h|] eqn:Hh; [|done]. by apply (inv_handler got).
  - destruct (calling s); [|done]. exists got. right. apply inv_ended; [done|by left].
  - pose proof (inv_sig_hup got s HI) as H. destruct (sig_hup s); try done. by exists got; left.
Qed.

Lemma sigio_run_good ls s : Forall label_ok ls -> Good s ->
  match run_sched (step clilen) ls s with Blocked => True | Crash => False | Next s' => Good s' end.
Proof.
  intros Hls. revert s. induction Hls as [|l ls Hl _ IH]; intros s Hs; [done|]. cbn. pose proof (sigio_step_good l s Hl Hs) as H.
  destruct (step clilen l s); [done|done|]. by apply IH.
Qed.

Definition blocks_ok (blocks : list (list Z * list Z)) : Prop :=
  length blocks = 8%nat /\ Forall (fun b => length b.1 = 4096%nat /\ Z.of_nat (length b.2) = clilen) blocks.

Lemma sigio_init_inv blocks mask : blocks_ok blocks -> Inv [] (init clilen blocks mask).
Proof.
  intros [Hl Hb]. split; cbn; try done; try lia.
  - by rewrite length_map.
  - intros i p. rewrite list_lookup_fmap. destruct (blocks !! i) as [b|] eqn:E; [|done]. intros [= <-].
    rewrite Forall_lookup in Hb. by apply (Hb i).
  - by exists 0%nat.
Qed.

(** ** No wake-up is lost once the socket is set up *)
Definition reading (h : option handler_pc) : bool := match h with Some (HTest _) | Some (HRecv _) => true | _ => false end.
Definition set_up (pc : main_pc) : bool := match pc with MAsync | MNonbio => false | _ => true end.

Record Live (s : server) : Prop := {
  live_modes : async s = true /\ nonbio s = true /\ set_up (m_pc s) = true;
  live_wake : rcvq s <> [] -> pending s = true \/ reading (handler s) = true }.

Definition internal (l : label) : bool := match l with Loop | Handle | Deliver => true | _ => false end.

Lemma internal_ok ls : Forall (fun l => internal l = true) ls -> Forall label_ok ls.
Proof. intros H. induction H as [|[] ls Hl _ IH]; by constructor. Qed.

Lemma live_step l s s' : Live s -> step clilen l s = Next s' -> Live s'.
Proof.
  intros [(Ha & Hn & Hu) Hw]. unfold step. destruct (exited s); [done|]. destruct l as [d| | | | | |].
  - intros [= <-]. split; [done|]. cbn. rewrite Ha, orb_true_r. by left.
  - intros [= <-]. split; [done|]. by left.
  - unfold deliver. destruct (handler s); [done|]. destruct (_ && _); [|done]. intros [= <-]. split; [done|]. by right.
  - unfold main_step, do_send, access. destruct (handler s) eqn:Hh; [done|]. destruct (m_pc s) eqn:Epc; try done; repeat case_match; try done;
      intros [= <-]; split; cbn; rewrite ?Hh; try done; by rewrite Epc.
  - unfold handler_step, receive, count, access. destruct (handler s) as [[n|n|n]|] eqn:Hh; try done.
    + destruct (_ <=? _); intros [= <-]; split; cbn; rewrite ?Hh; auto.
    + destruct (rcvq s) eqn:Eq; rewrite ?Hn; repeat case_match; try done; intros [= <-]; split; cbn; rewrite ?Eq; auto; done.
    + repeat case_match; try done; intros [= <-]; split; cbn; auto; by destruct (m_pc s).
  - destruct (calling s); [|done]. by intros [= <-].
  - unfold sig_hup, access. repeat case_match; try done; intros [= <-]; (split; [|done]); cbn; split_and!; try done; by destruct (m_pc s).
Qed.

Definition h_cost (h : option handler_pc) : Z :=
  match h with Some (HTest _) => 5 | Some (HRecv _) => 4 | Some (HCount _) => 3 | None => 0 end.
Definition m_cost (pc : main_pc) : Z :=
  match pc with MStart => 3 | MTest => 2 | MCall => 1 | MSend => -1 | MInc => -2 | MBlock => -3 | MDec => -4 | _ => 0 end.
Definition size (s : server) : Z := Z.of_nat (length (rcvq s)).
Definition cost (s : server) : Z :=
  9 * size s + 7 * nqueue s + (if pending s then 6 else 0) + h_cost (handler s) + m_cost (m_pc s).

Definition pays (s s' : server) : Prop :=
  nqueue s' + size s' <= nqueue s + size s /\ (exited s' = true -> 8 <= nqueue s) /\ (exited s' = false -> cost s' < cost s).

(** What remains of [pays] when both states are known. *)
Ltac pay := intros [= <-]; unfold pays, cost, size, exited; cbn -[Z.mul Z.add];
  repeat match goal with H : ?f ?s = _ |- context [?f ?s] => rewrite H end; cbn -[Z.mul Z.add]; (split_and!; [lia|done || lia|done || lia]).

Lemma sigio_cost_step l s s' : Live s -> internal l = true -> step clilen l s = Next s' -> pays s s'.
Proof.
  intros [(Ha & Hn & Hu) _] Hi. unfold step. destruct (exited s) eqn:Hx; [done|]. unfold exited in Hx. destruct l; try done; clear Hi.
  - unfold deliver. destruct (handler s) eqn:Hh; [done|]. destruct (pending s) eqn:Ep; [|done]. destruct (_ && _); [|done].
    destruct (m_pc s) eqn:Epc; done || pay.
  - unfold main_step, do_send, access. destruct (handler s) eqn:Hh; [done|].
    destruct (m_pc s) eqn:Epc; try done; repeat case_match; done || pay.
  - unfold handler_step, receive, count, access, QSIZE. destruct (handler s) as [[n|n|n]|] eqn:Hh; try done.
    + destruct (Z.leb_spec 8 (nqueue s)); [pay|]. destruct (m_pc s) eqn:Epc; done || pay.
    + destruct (rcvq s) eqn:Eq; rewrite ?Hn; repeat case_match; done || pay.
    + repeat case_match; done || (destruct (m_pc s) eqn:Epc; pay).
Qed.

Lemma sigio_run_live ls s s' : Live s -> run_sched (step clilen) ls s = Next s' -> Live s'.
Proof.
  revert s. induction ls as [|l ls IH]; intros s Hs; cbn; [by intros [= <-]|]. destruct (step clilen l s) as [| |s1] eqn:E; try done. cbn.
  apply IH. by eapply live_step.
Qed.

Lemma sigio_run_cost ls s s' : Live s -> Forall (fun l => internal l = true) ls -> run_sched (step clilen) ls s = Next s' ->
  nqueue s' + size s' <= nqueue s + size s /\ (exited s' = true -> exited s = true \/ 8 <= nqueue s + size s) /\
  (exited s' = false -> Z.of_nat (length ls) + cost s' <= cost s) /\ (exited s' = true -> ls = [] \/ exists ls0 l s0,
     ls = ls0 ++ [l] /\ run_sched (step clilen) ls0 s = Next s0 /\ exited s0 = false).
Proof.
  intros Hs Hls. revert s' . induction ls as [|l ls IH] using rev_ind; intros s'.
  { intros [= <-]. split_and!; auto with lia. cbn. lia. }
  apply Forall_app in Hls as [Hls Hl]. apply Forall_cons_1 in Hl as [Hl _]. rewrite run_sched_app.
  destruct (run_sched (step clilen) ls s) as [| |s1] eqn:E1; try done. cbn. destruct (step clilen l s1) as [| |s2] eqn:E2; try done. intros [= <-].
  assert (exited s1 = false) as Hx1 by (unfold step in E2; by destruct (exited s1)).
  destruct (IH Hls s1 eq_refl) as (H1 & H2 & H3 & _). destruct (sigio_cost_step l s1 s2 (sigio_run_live ls s s1 Hs E1) Hl E2) as (P1 & P2 & P3).
  split_and!.
  - lia.
  - intros Hx. right. specialize (P2 Hx). unfold size in *. lia.
  - intros Hx. specialize (H3 Hx1). specialize (P3 Hx). rewrite length_app. cbn [length]. lia.
  - intros _. right. by exists ls, l, s1.
Qed.

Lemma sigio_stuck got s : Inv got s -> Live s -> (forall l, internal l = true -> step clilen l s = Blocked) ->
  rcvq s = [] /\ length (sent s) = length got.
Proof.
  intros HI [(Ha & Hn & Hu) Hw] Hb. pose proof (Hb Loop eq_refl) as H1. pose proof (Hb Handle eq_refl) as H2. pose proof (Hb Deliver eq_refl) as H3.
  unfold step in *. rewrite (inv_live _ _ HI) in *. destruct (handler s) as [h|] eqn:Hh.
  - exfalso. unfold handler_step in H2. destruct h as [n|n|n].
    + by destruct (_ <=? _).
    + destruct (rcvq s) as [|d q] eqn:Eq; [by rewrite Hn in H2|]. destruct (inv_receive got s n d q HI Hh Eq) as (s' & E & _). by rewrite E in H2.
    + destruct (inv_count got s n HI Hh) as (s' & E & _). by rewrite E in H2.
  - clear H2. unfold main_step in H1. unfold deliver in H3. rewrite Hh in H1, H3.
    pose proof (inv_pc _ _ HI) as Hp. pose proof (inv_n _ _ HI) as Hq. pose proof (inv_live _ _ HI) as Hx. pose proof (inv_le _ _ HI). unfold exited in Hx.
    destruct (m_pc s) eqn:Epc; try done.
    + rewrite orb_true_r, andb_true_r in H3. apply (proj2 Hp) in Hh as Hz. cbn in Hq. split; [|lia].
      destruct (rcvq s); [done|]. destruct (Hw ltac:(done)) as [Hpe|]; [by rewrite Hpe in H3|done].
    + destruct (inv_do_send got s HI Hh Epc) as (s' & E & _). by rewrite E in H1.
Qed.
End Inv.

(** C24. The signal-driven server echoes every datagram once, to its sender and in the
    order of arrival, wherever its handler interrupts the main loop: under every
    schedule no buffer is overrun, what was sent is a prefix of what arrived (cut
    to 4096 bytes), at most eight datagrams are read and not yet sent, and the
    histogram accounts for every datagram read.  The process ends with "receive
    overflow" only with eight datagrams counted in nqueue. *)
Theorem sigio_echoes_in_order (clilen : Z) (blocks : list (list Z * list Z)) (mask : bool) (ls : list label) :
  blocks_ok clilen blocks -> Forall (label_ok clilen) ls ->
  match run_sched (step clilen) ls (init clilen blocks mask) with
  | Blocked => True
  | Crash => False
  | Next s =>
      exists q, map clip (arrived s) = sent s ++ q ++ map clip (rcvq s) /\ (length q <= 8)%nat /\
        hist (cntread s) + h_read (handler s) = Z.of_nat (length (sent s) + length q) /\
        (m_pc s = MOverflow -> nqueue s = 8 /\ (7 <= length q)%nat)
  end.
Proof.
  intros Hb Hls. pose proof (sigio_run_good clilen ls (init clilen blocks mask) Hls) as H.
  specialize (H (ex_intro _ [] (or_introl (sigio_init_inv clilen blocks mask Hb)))).
  destruct (run_sched _ _ _) as [| |s]; [done|done|]. destruct H as [got [HI|(Hx & Ha & Hs & Hl & Hh & Ho)]].
  - exists (map clip (drop (length (sent s)) got)). pose proof (inv_le _ _ _ HI). pose proof (inv_n _ _ _ HI). pose proof (inv_full _ _ _ HI).
    rewrite length_map, length_drop. split_and!; [|lia|rewrite (inv_hist _ _ _ HI); lia|].
    + rewrite (inv_arrived _ _ _ HI), map_app, app_assoc. f_equal. rewrite (inv_sent _ _ _ HI) at 1. by rewrite <- map_app, take_drop.
    + intros E. pose proof (inv_live _ _ _ HI) as Hx. unfold exited in Hx. by rewrite E in Hx.
  - exists (map clip (drop (length (sent s)) got)). rewrite length_map, length_drop. split_and!; [|lia|rewrite Hh; lia|].
    + rewrite Ha, map_app, app_assoc. f_equal. rewrite Hs at 1. by rewrite <- map_app, take_drop.
    + intros E. destruct (Ho E). lia.
Qed.


(** ** Witnesses *)
Definition blocks8 : list (list Z * list Z) := replicate 8 (replicate 4096 0, [0; 0]).
Definition dg1 : dgram := Dgram [104; 105] [1; 9].
Definition dg2 : dgram := Dgram [33] [2; 9].
Lemma blocks8_ok : blocks_ok 2 blocks8.
Proof. split; [done|]. unfold blocks8. by repeat constructor. Qed.

(** A datagram arrives while the first is being sent. *)
Definition busy : list label := [Loop; Arrive dg1; Loop; Loop; Deliver; Handle; Handle; Handle; Handle; Handle; Loop; Loop; Arrive dg2; Deliver; Handle].
Definition busy_state : server :=
  match run_sched (step 2) (Loop :: Loop :: busy) (init 2 blocks8 false) with Next s => s | _ => init 2 blocks8 false end.
Definition rest : list label :=
  [Handle; Handle; Handle; Handle; Loop; Loop; Loop; Loop; Loop; Loop; Loop; Loop; Loop; Loop; Loop; Loop].
Definition rest_state : server := match run_sched (step 2) rest busy_state with Next s => s | _ => busy_state end.

Lemma sigio_echoes_in_order_witness :
  match run_sched (step 2) (Loop :: Loop :: busy) (init 2 blocks8 false) with
  | Blocked => True
  | Crash => False
  | Next s =>
      exists q, map clip (arrived s) = sent s ++ q ++ map clip (rcvq s) /\ (length q <= 8)%nat /\
        hist (cntread s) + h_read (handler s) = Z.of_nat (length (sent s) + length q) /\
        (m_pc s = MOverflow -> nqueue s = 8 /\ (7 <= length q)%nat)
  end.
Proof. refine (sigio_echoes_in_order 2 blocks8 false (Loop :: Loop :: busy) blocks8_ok _). by repeat constructor. Defined.


(** The rest of the run answers both. *)
Example sigio_rest : sent rest_state = [dg1; dg2] /\ m_pc rest_state = MSuspend /\ cntread rest_state = [0; 2; 0; 0; 0; 0; 0; 0; 0].
Proof. by vm_compute. Qed.

(** Three defects.  A datagram that arrives before FIOASYNC raises no signal: the
    server goes to sleep with it in the socket.  One that arrives between
    FIOASYNC and FIONBIO brings the handler to a socket that still blocks: it
    waits in recvfrom for a second datagram, and the first is not answered.  The
    server ends with "receive overflow" when the eighth datagram is read, though
    all have found a place and none is left to read. *)
Theorem sigio_defects :
  (exists s, run_sched (step 2) [Arrive dg1; Loop; Loop; Loop; Loop; Loop] (init 2 blocks8 false) = Next s /\ rcvq s = [dg1] /\
     forall l, internal l = true -> step 2 l s = Blocked) /\
  (exists s, run_sched (step 2) [Loop; Arrive dg1; Deliver; Handle; Handle; Handle] (init 2 blocks8 false) = Next s /\
     rcvq s = [] /\ nqueue s = 1 /\ sent s = [] /\ forall l, internal l = true -> step 2 l s = Blocked) /\
  (exists s, run_sched (step 2) ([Loop; Loop] ++ replicate 8 (Arrive dg1) ++ [Deliver] ++ replicate 17 Handle) (init 2 blocks8 false) = Next s /\
     rcvq s = [] /\ nqueue s = 8 /\ m_pc s = MOverflow).
Proof.
  split_and!.
  - eexists. split; [by vm_compute|]. split; [done|]. by intros [].
  - eexists. split; [by vm_compute|]. split_and!; try done. by intros [].
  - eexists. split; [by vm_compute|]. by split_and!.
Qed.
End SigioProofs.
