(* ===== verification/WebThreads.v ===== *)
(** * Web clients with one thread for each file: threads/web02.c and web03.c

    The main thread creates a thread for each file, at most maxnconn at a time;
    a thread fetches its file, sets the F_DONE flag of the file and increments
    ndone under a mutex; main waits until ndone is not 0 and joins the threads
    whose flag is F_DONE.  In web03.c main waits with a condition variable, in
    the earlier web02.c it polls.  socket/web_thread.c, the owner's program, is
    web03.c without the checks of the calls.

    A transition executes one statement of one thread; the network answers a
    thread with events. *)
From stdpp Require Import base list numbers.
From S2P Require Import Prelude Pool.

Module WebThreads.
Definition F_CONNECTING : Z := 1.
Definition F_READING : Z := 2.
Definition F_DONE : Z := 4.
Definition F_JOINED : Z := 8.

Inductive version := Web02 | Web03 | WebThread.

(** The statement the thread of a file executes next. *)
Inductive thread_pc :=
  | TNone        (* not created *)
  | TConnect     (* fd = Tcp_connect(fptr->f_host, SERV) *)
  | TWrite       (* Writen, in write_get_cmd *)
  | TReading     (* fptr->f_flags = F_READING *)
  | TRead        (* Read *)
  | TClose       (* Close(fd) *)
  | TFlag        (* fptr->f_flags = F_DONE *)
  | TLock        (* Pthread_mutex_lock *)
  | TInc         (* ndone++ *)
  | TSignal      (* Pthread_cond_signal *)
  | TUnlock      (* Pthread_mutex_unlock *)
  | TReturned
  | TSpin.       (* reading from a socket on which read fails *)

(** An element of the array file, with the thread that was created for it. *)
Record file := File { f_flags : Z; t_pc : thread_pc }.

(** The statement main executes next. *)
Inductive main_pc :=
  | MLoop              (* while (nlefttoread > 0) *)
  | MFill              (* while (nconn < maxnconn && nlefttoconn > 0), and the search *)
  | MFlag (i : nat)    (* file[i].f_flags = F_CONNECTING *)
  | MCreate (i : nat)  (* Pthread_create, file[i].f_tid = tid *)
  | MCount             (* nconn++; nlefttoconn-- *)
  | MLock              (* Pthread_mutex_lock *)
  | MTest              (* while (ndone == 0); in web02.c if (ndone > 0) *)
  | MWait              (* Pthread_cond_wait is called *)
  | MWaiting           (* inside Pthread_cond_wait, mutex released *)
  | MWoken             (* woken, about to lock the mutex again *)
  | MFor (i : nat)     (* for (i = 0; i < nfiles; i++) if (file[i].f_flags & F_DONE) *)
  | MJoin (i : nat)    (* Pthread_join and what follows *)
  | MUnlock            (* Pthread_mutex_unlock *)
  | MDone              (* exit(0) *)
  | MNothing           (* err_quit("... nothing found") *)
  | MFailed.           (* a call has failed and a wrapper has ended the process *)

#[export] Instance web_main_pc_eq_dec : EqDecision main_pc.
Proof. solve_decision. Defined.

Record web := Web {
  files : list file; nconn : Z; nlefttoconn : Z; nlefttoread : Z; ndone : Z; mutex : option who; m_pc : main_pc }.

Definition set_main (pc : main_pc) (s : web) : web :=
  Web (files s) (nconn s) (nlefttoconn s) (nlefttoread s) (ndone s) (mutex s) pc.
Definition set_mutex (m : option who) (s : web) : web :=
  Web (files s) (nconn s) (nlefttoconn s) (nlefttoread s) (ndone s) m (m_pc s).
Definition set_file (i : nat) (f : file) (s : web) : web :=
  Web (<[i := f]> (files s)) (nconn s) (nlefttoconn s) (nlefttoread s) (ndone s) (mutex s) (m_pc s).
Definition set_ndone (n : Z) (s : web) : web :=
  Web (files s) (nconn s) (nlefttoconn s) (nlefttoread s) n (mutex s) (m_pc s).

Definition lock (w : who) (s : web) : outcome web :=
  match mutex s with Some _ => Blocked | None => Next (set_mutex (Some w) s) end.
Definition unlock (w : who) (s : web) : outcome web :=
  if decide (mutex s = Some w) then Next (set_mutex None s) else Crash.

(** ** main *)

(** for (i = 0; i < nfiles; i++) if (file[i].f_flags == 0) break; *)
Fixpoint find_file (l : list file) : option nat :=
  match l with
  | [] => None
  | f :: l => if f_flags f =? 0 then Some 0%nat else S <$> find_file l
  end.

Definition fill (v : version) (maxnconn : Z) (s : web) : outcome web :=
  if (nconn s <? maxnconn) && (0 <? nlefttoconn s) then
    match find_file (files s) with
    | None => Next (set_main MNothing s)
    | Some i => Next (set_main (match v with Web02 => MCreate i | _ => MFlag i end) s)
    end
  else Next (set_main MLock s).

Definition set_connecting (v : version) (i : nat) (s : web) : outcome web :=
  access (files s !! i) (fun f =>
  Next (set_main (match v with Web02 => MCount | _ => MCreate i end) (set_file i (File F_CONNECTING (t_pc f)) s))).

(** A thread for the file exists at most once; another is not an outcome of the model. *)
Definition create (v : version) (i : nat) (s : web) : outcome web :=
  access (files s !! i) (fun f =>
  match t_pc f with
  | TNone => Next (set_main (match v with Web02 => MFlag i | _ => MCount end) (set_file i (File (f_flags f) TConnect) s))
  | _ => Crash
  end).

(** Pthread_join waits until the thread has returned; it returned &file[i]. *)
Definition join (i : nat) (s : web) : outcome web :=
  access (files s !! i) (fun f =>
  match t_pc f with
  | TReturned =>
      Next (Web (<[i := File F_JOINED TReturned]> (files s)) (nconn s - 1) (nlefttoconn s) (nlefttoread s - 1) (ndone s - 1)
              (mutex s) (MFor (S i)))
  | _ => Blocked
  end).

Definition main_step (v : version) (maxnconn : Z) (s : web) : outcome web :=
  match m_pc s with
  | MLoop => Next (set_main (if 0 <? nlefttoread s then MFill else MDone) s)
  | MFill => fill v maxnconn s
  | MFlag i => set_connecting v i s
  | MCreate i => create v i s
  | MCount => Next (Web (files s) (nconn s + 1) (nlefttoconn s - 1) (nlefttoread s) (ndone s) (mutex s) MFill)
  | MLock => obind (fun s => Next (set_main MTest s)) (lock Main s)
  | MTest =>
      Next (set_main (match v with
                      | Web02 => if 0 <? ndone s then MFor 0 else MUnlock
                      | _ => if ndone s =? 0 then MWait else MFor 0
                      end) s)
  | MWait => obind (fun s => Next (set_main MWaiting s)) (unlock Main s)
  | MWaiting => Blocked
  | MWoken => obind (fun s => Next (set_main MTest s)) (lock Main s)
  | MFor i =>
      if (i <? length (files s))%nat then
        access (files s !! i) (fun f =>
        Next (set_main (if negb (Z.land (f_flags f) F_DONE =? 0) then MJoin i else MFor (S i)) s))
      else Next (set_main MUnlock s)
  | MJoin i => join i s
  | MUnlock => obind (fun s => Next (set_main MLoop s)) (unlock Main s)
  | MDone | MNothing | MFailed => Blocked
  end.

(** ** do_get_read *)

(** Only main waits, so a signal wakes main or nobody. *)
Definition signal (s : web) : web := match m_pc s with MWaiting => set_main MWoken s | _ => s end.

Definition thread_step (v : version) (i : nat) (f : file) (s : web) : outcome web :=
  let goto pc := set_file i (File (f_flags f) pc) in
  match t_pc f with
  | TNone | TReturned | TSpin => Blocked
  | TConnect => Next (goto TWrite s)
  | TWrite => Next (goto TReading s)
  | TReading => Next (set_file i (File F_READING TRead) s)
  | TRead => Next (goto TClose s)                                   (* Read returned 0 *)
  | TClose => Next (goto TFlag s)
  | TFlag => Next (set_file i (File F_DONE TLock) s)
  | TLock => obind (fun s => Next (goto TInc s)) (lock (Thr i) s)
  | TInc => Next (goto (match v with Web02 => TUnlock | _ => TSignal end) (set_ndone (ndone s + 1) s))
  | TSignal => Next (goto TUnlock (signal s))
  | TUnlock => obind (fun s => Next (goto TReturned s)) (unlock (Thr i) s)
  end.

(** A call of the thread fails: a wrapper ends the process.  Of the owner's program
    only the failing read is modelled: it tests for 0 alone and reads again. *)
Definition thread_fails (v : version) (i : nat) (f : file) (s : web) : outcome web :=
  match v, t_pc f with
  | WebThread, TRead => Next (set_file i (File (f_flags f) TSpin) s)
  | WebThread, _ => Blocked
  | _, (TConnect | TWrite | TRead | TClose) => Next (set_main MFailed s)
  | _, _ => Blocked
  end.

(** ** Transitions

    [Go]: main executes its next statement.  [Run i]: the thread of file [i] does;
    its Read finds the end of the file.  [Data i]: its Read returns bytes.  [Bad i]:
    a call of it fails.  [Spurious]: Pthread_cond_wait returns without a signal. *)
Inductive label := Go | Run (i : nat) | Data (i : nat) | Bad (i : nat) | Spurious.

Definition ended (s : web) : bool := match m_pc s with MDone | MNothing | MFailed => true | _ => false end.

Definition with_thread (i : nat) (s : web) (k : file -> outcome web) : outcome web :=
  if ended s then Blocked else match files s !! i with None => Blocked | Some f => k f end.

Definition step (v : version) (maxnconn : Z) (l : label) (s : web) : outcome web :=
  match l with
  | Go => main_step v maxnconn s
  | Run i => with_thread i s (fun f => thread_step v i f s)
  | Data i => with_thread i s (fun f => match t_pc f with TRead | TSpin => Next s | _ => Blocked end)
  | Bad i => with_thread i s (fun f => thread_fails v i f s)
  | Spurious => match m_pc s with MWaiting => Next (set_main MWoken s) | _ => Blocked end
  end.

(** main up to its loop, after home_page. *)
Definition init (nfiles : nat) : web :=
  let n := Z.of_nat nfiles in Web (replicate nfiles (File 0 TNone)) 0 n n 0 None MLoop.
End WebThreads.
