(* ===== verification/WebThreadsProofs.v ===== *)
(** * Threads that fetch files: what main counts, and where the program can stop

    For web03.c and the owner's web_thread.c the counters of main agree with the
    threads under every schedule, and the only state in which nobody can go on
    is one where main joins a thread while it holds the mutex that the thread
    waits for.  Such a state can be reached.  web02.c, which sets a flag after
    it has created the thread, can lose a thread. *)
From stdpp Require Import base list numbers.
From S2P Require Import Prelude Pool WebThreads.

Module WebThreadsProofs.
Import WebThreads.

(** ** Sums over the files *)
Fixpoint total (g : file -> Z) (l : list file) : Z := match l with [] => 0 | f :: l => g f + total g l end.

Lemma total_insert g l i f f' : l !! i = Some f -> total g (<[i := f']> l) = total g l - g f + g f'.
Proof.
  revert i. induction l as [|x l IH]; intros [|i] E; [done|done| |].
  - injection E as ->. cbn. lia.
  - change (g x + total g (<[i := f']> l) = g x + total g l - g f + g f'). rewrite (IH i E). lia.
Qed.
Lemma files_le (g h : file -> Z) l : (forall i f, l !! i = Some f -> g f <= h f) -> total g l <= total h l.
Proof.
  induction l as [|x l IH]; intros H; cbn; [lia|]. pose proof (H 0%nat x eq_refl). specialize (IH (fun i => H (S i))). lia.
Qed.
Lemma files_pos g l : 0 < total g l -> exists i f, l !! i = Some f /\ 0 < g f.
Proof.
  induction l as [|x l IH]; cbn; intros H; [lia|]. destruct (Z.ltb_spec 0 (g x)).
  - by exists 0%nat, x.
  - destruct IH as (i & f & E & Hf); [lia|]. by exists (S i), f.
Qed.
Lemma total_one l : total (fun _ => 1) l = Z.of_nat (length l).
Proof. induction l as [|x l IH]; cbn [total length]; lia. Qed.
Lemma total_0 l : total (fun _ => 0) l = 0.
Proof. induction l as [|x l IH]; cbn [total]; lia. Qed.
Lemma total_0_at g l i f : (forall f, 0 <= g f) -> total g l = 0 -> l !! i = Some f -> g f = 0.
Proof.
  intros Hg. revert i. induction l as [|x l IH]; intros [|i] H E; [done|done| |]; cbn in H.
  all: assert (0 <= total g l) by (rewrite <- (total_0 l); by apply files_le).
  - injection E as ->. specialize (Hg f). lia.
  - apply (IH i); [specialize (Hg x); lia|done].
Qed.

Definition created (f : file) : Z := match t_pc f with TNone => 0 | _ => 1 end.
Definition joined (f : file) : Z := if f_flags f =? F_JOINED then 1 else 0.
(** Threads that have incremented ndone and are not joined; those among them past their signal. *)
Definition told (f : file) : Z :=
  match t_pc f with TSignal | TUnlock | TReturned => if f_flags f =? F_JOINED then 0 else 1 | _ => 0 end.
Definition late (f : file) : Z :=
  match t_pc f with TUnlock | TReturned => if f_flags f =? F_JOINED then 0 else 1 | _ => 0 end.

Lemma total_app g l1 l2 : total g (l1 ++ l2) = total g l1 + total g l2.
Proof. induction l1 as [|x l1 IH]; cbn; lia. Qed.

Lemma find_file_Some l : (exists i f, l !! i = Some f /\ f_flags f = 0) -> exists i f, find_file l = Some i /\ l !! i = Some f /\ f_flags f = 0.
Proof.
  induction l as [|x l IH]; intros (i & f & E & Hf); [done|]. cbn. destruct (Z.eqb_spec (f_flags x) 0) as [H0|H0]; [by exists 0%nat, x|].
  destruct i as [|i]; [by injection E as ->|]. destruct IH as (j & g & Ej & Eg & Hg); [by exists i, f|]. exists (S j), g. by rewrite Ej.
Qed.

(** ** The invariant *)
Section Inv.
Context (v : version) (maxnconn : Z).

Definition flag_ok (pc : main_pc) (i : nat) (f : file) : Prop :=
  match t_pc f with
  | TNone => f_flags f = if decide (pc = MCreate i) then F_CONNECTING else 0
  | TConnect | TWrite | TReading => f_flags f = F_CONNECTING
  | TRead | TClose | TFlag | TSpin => f_flags f = F_READING
  | TLock | TInc | TSignal | TUnlock => f_flags f = F_DONE
  | TReturned => f_flags f = F_DONE \/ f_flags f = F_JOINED
  end.

Definition main_in (pc : main_pc) : bool :=
  match pc with MTest | MWait | MFor _ | MJoin _ | MUnlock => true | _ => false end.
Definition thread_in (pc : thread_pc) : bool := match pc with TInc | TSignal | TUnlock => true | _ => false end.
Definition inside (s : web) (w : who) : bool :=
  match w with
  | Main => main_in (m_pc s)
  | Thr i => match files s !! i with Some f => thread_in (t_pc f) | None => false end
  end.

(** A thread that is created and not counted in yet. *)
Definition uncounted (pc : main_pc) : Z := match pc with MCount => 1 | _ => 0 end.

Definition pc_ok (s : web) : Prop :=
  match m_pc s with
  | MFill => 0 < nlefttoread s
  | MFlag i | MCreate i =>
      0 < nlefttoread s /\ nconn s < maxnconn /\ exists f, files s !! i = Some f /\ t_pc f = TNone
  | MCount => 0 < nlefttoread s /\ nconn s < maxnconn
  | MLock | MTest | MWoken => 0 < nlefttoread s /\ (maxnconn <= nconn s \/ nlefttoconn s = 0)
  | MWait | MWaiting => 0 < nlefttoread s /\ (maxnconn <= nconn s \/ nlefttoconn s = 0) /\ total late (files s) = 0
  | MJoin i => exists f, files s !! i = Some f /\ f_flags f = F_DONE
  | MDone => nlefttoread s = 0
  | MNothing => False
  | _ => True
  end.

Record Inv (s : web) : Prop := {
  inv_file : forall i f, files s !! i = Some f -> flag_ok (m_pc s) i f;
  inv_conn : nconn s = total created (files s) - total joined (files s) - uncounted (m_pc s);
  inv_left : nlefttoconn s = Z.of_nat (length (files s)) - total created (files s) + uncounted (m_pc s);
  inv_read : nlefttoread s = Z.of_nat (length (files s)) - total joined (files s);
  inv_ndone : ndone s = total told (files s);
  inv_max : nconn s <= Z.max 0 maxnconn;
  inv_mutex : forall w, inside s w = true <-> mutex s = Some w;
  inv_pc : pc_ok s }.

(** *** A thread *)

(** The other threads keep their invariant when one changes. *)
Lemma web_inside_set s i f' l' nc nl nr nd m pc : (i < length (files s))%nat -> l' = <[i := f']> (files s) ->
  forall w, inside (Web l' nc nl nr nd m pc) w =
    match w with Main => main_in pc | Thr j => if decide (i = j) then thread_in (t_pc f') else inside s (Thr j) end.
Proof.
  intros Hi -> [|j]; [done|]. cbn [inside files]. case_decide as E; [subst j|].
  - by rewrite list_lookup_insert_eq.
  - by rewrite list_lookup_insert_ne.
Qed.

Section Thread.
Context (s : web) (i : nat) (f f' : file) (m : option who) (nd : Z) (pc : main_pc).
Let s' := Web (<[i := f']> (files s)) (nconn s) (nlefttoconn s) (nlefttoread s) nd m pc.

Lemma thread_keeps :
  Inv s -> files s !! i = Some f -> (pc = m_pc s \/ m_pc s = MWaiting /\ pc = MWoken) ->
  flag_ok pc i f' -> created f' = created f -> joined f' = joined f -> nd = ndone s - told f + told f' ->
  m = (if thread_in (t_pc f') then Some (Thr i) else if thread_in (t_pc f) then None else mutex s) ->
  (thread_in (t_pc f') = true -> thread_in (t_pc f) = true \/ mutex s = None) ->
  (created f = 1) -> (f_flags f' = f_flags f \/ f_flags f <> F_DONE) ->
  (late f' = late f \/ main_in (m_pc s) = false /\ pc <> MWaiting) -> Inv s'.
Proof.
  intros HI Ef Hpc Hok Hc Hj Hnd Hm Hfree Hcr Hfl Hlate. pose proof (lookup_lt_Some _ _ _ Ef) as Hi.
  pose proof (inv_mutex _ HI) as Hmx.
  assert (inside s (Thr i) = thread_in (t_pc f)) as Hii by (cbn; by rewrite Ef).
  assert (main_in pc = main_in (m_pc s)) as Hmi by (destruct Hpc as [->|[-> ->]]; done).
  assert (uncounted pc = uncounted (m_pc s)) as Hun by (destruct Hpc as [->|[-> ->]]; done).
  pose proof (web_inside_set s i f' _ (nconn s) (nlefttoconn s) (nlefttoread s) nd m pc Hi eq_refl) as Hin. fold s' in Hin.
  split; cbn [files nconn nlefttoconn nlefttoread ndone m_pc s'];
    rewrite ?length_insert, ?(total_insert _ _ i f f' Ef), ?Hc, ?Hj, ?Hun.
  - intros j x. destruct (decide (i = j)) as [<-|Hne].
    + rewrite list_lookup_insert_eq by done. by intros [= <-].
    + rewrite list_lookup_insert_ne by done. intros Ex. pose proof (inv_file _ HI j x Ex) as H.
      destruct Hpc as [->|[E ->]]; [done|]. rewrite E in H. unfold flag_ok in *. by destruct (t_pc x).
  - rewrite (inv_conn _ HI). lia.
  - rewrite (inv_left _ HI). lia.
  - rewrite (inv_read _ HI). lia.
  - rewrite <- (inv_ndone _ HI). lia.
  - apply HI.
  - intros w. rewrite (Hin w). specialize (Hmx w) as Hw. specialize (Hmx (Thr i)). rewrite Hii in Hmx. cbn [mutex s']. rewrite Hm.
    destruct w as [|j]; [cbn [inside] in Hw; rewrite Hmi|case_decide as E; [subst j; rewrite Hii in Hw|]].
    all: destruct (thread_in (t_pc f')), (thread_in (t_pc f)); try (destruct Hfree as [F|F]; [done| |]); rewrite ?Hw, ?Hmx; try naive_solver congruence.
  - pose proof (inv_pc _ HI) as Hp. unfold pc_ok in *. cbn [files nconn nlefttoconn nlefttoread ndone m_pc s'].
    assert (forall j x, files s !! j = Some x -> t_pc x = TNone -> (<[i := f']> (files s)) !! j = Some x) as Hnone.
    { intros j x Ex En. rewrite list_lookup_insert_ne; [done|]. intros <-. unfold created in Hcr. rewrite Ef in Ex. injection Ex as ->. by rewrite En in Hcr. }
    destruct Hpc as [->|[E ->]]; [|rewrite E in Hp; naive_solver].
    destruct (m_pc s) as [| |j|j| | | | | | |j|j| | | |] eqn:Epc; try done.
    + destruct Hp as (? & ? & x & Ex & En). eauto 10.
    + destruct Hp as (? & ? & x & Ex & En). eauto 10.
    + rewrite (total_insert _ _ i f f' Ef). destruct Hlate as [->|[? ?]]; [|done]. split_and!; try apply Hp. lia.
    + rewrite (total_insert _ _ i f f' Ef). destruct Hlate as [->|[? ?]]; [|done]. split_and!; try apply Hp. lia.
    + destruct Hp as (x & Ex & Hx). destruct (decide (i = j)) as [<-|Hne].
      * rewrite Ef in Ex. injection Ex as <-. exists f'. rewrite list_lookup_insert_eq by done. split; [done|]. destruct Hfl; congruence.
      * exists x. by rewrite list_lookup_insert_ne.
Qed.
End Thread.

(** The conditions of [thread_keeps] for a thread whose next statement is known. *)
Ltac thread_case HI Ef Epc Hok :=
  match type of Ef with files _ !! ?i = Some ?f => refine (thread_keeps _ i f _ _ _ _ HI Ef _ _ _ _ _ _ _ _ _ _) end;
  unfold flag_ok, created, joined, told, late in *; rewrite ?Epc in *; cbn [t_pc f_flags thread_in] in *; try rewrite Hok; auto; try done; try (cbn; lia).

(** A thread inside the critical section keeps main out of it. *)
Lemma main_out s i f : Inv s -> files s !! i = Some f -> thread_in (t_pc f) = true -> mutex s = Some (Thr i) /\ main_in (m_pc s) = false.
Proof.
  intros HI Ef Hin. pose proof (inv_mutex _ HI (Thr i)) as Hm. cbn [inside] in Hm. rewrite Ef in Hm. apply Hm in Hin. split; [done|].
  destruct (main_in (m_pc s)) eqn:E; [|done]. pose proof (proj1 (inv_mutex _ HI Main) E). congruence.
Qed.

Lemma web_thread_inv s i f : Inv s -> v <> Web02 -> files s !! i = Some f ->
  match thread_step v i f s with Blocked => True | Crash => False | Next s' => Inv s' end.
Proof.
  intros HI Hv Ef. pose proof (inv_file _ HI i f Ef) as Hok. pose proof (main_out s i f HI Ef) as Hm.
  unfold thread_step, set_file, signal, lock, unlock, set_ndone, set_mutex, set_main.
  destruct (t_pc f) eqn:Epc; try done; cbn [thread_in] in Hm; unfold flag_ok in Hok; rewrite Epc in Hok.
  all: try (by thread_case HI Ef Epc Hok).
  - destruct (mutex s) eqn:Em; [done|]. cbn [obind]. thread_case HI Ef Epc Hok.
  - destruct (Hm eq_refl) as [Hmu Hmi]. destruct v; [done|..]; cbn; thread_case HI Ef Epc Hok.
  - destruct (Hm eq_refl) as [Hmu Hmi]. destruct (m_pc s) eqn:Em; try done; cbn; thread_case HI Ef Epc Hok; right; split; congruence || done.
  - destruct (Hm eq_refl) as [Hmu Hmi]. rewrite decide_True by done. cbn [obind]. thread_case HI Ef Epc Hok.
Qed.

(** *** main *)
Definition creating (pc : main_pc) : bool := match pc with MCreate _ => true | _ => false end.

Lemma flag_ok_move pc pc' i f : creating pc = false -> creating pc' = false -> flag_ok pc i f -> flag_ok pc' i f.
Proof. unfold flag_ok. intros H1 H2. destruct (t_pc f); try done. rewrite !decide_False; [done|by intros ->..]. Qed.

(** main changes its program point, and locks or unlocks the mutex. *)
Lemma main_moves s pc m :
  Inv s -> creating (m_pc s) = false -> creating pc = false -> uncounted pc = uncounted (m_pc s) ->
  m = (if main_in pc then Some Main else if main_in (m_pc s) then None else mutex s) ->
  (main_in pc = true -> main_in (m_pc s) = true \/ mutex s = None) ->
  let s' := Web (files s) (nconn s) (nlefttoconn s) (nlefttoread s) (ndone s) m pc in pc_ok s' -> Inv s'.
Proof.
  intros HI Hc Hc' Hu Hm Hfree s' Hpc. pose proof (inv_mutex _ HI) as Hmx. split; cbn [files nconn nlefttoconn nlefttoread ndone m_pc s'];
    rewrite ?Hu; try apply HI; [| |done].
  - intros i f Ef. apply (flag_ok_move (m_pc s)); [done..|]. by apply HI.
  - intros w. specialize (Hmx w) as Hw. specialize (Hmx Main). cbn [inside] in Hmx. cbn [mutex s']. rewrite Hm.
    destruct w as [|j]; cbn [inside files m_pc s'] in *;
      destruct (main_in pc), (main_in (m_pc s)); try (destruct Hfree as [F|F]; [done| |]); rewrite ?Hw, ?Hmx; naive_solver congruence.
Qed.

(** A new value for file [i], at which nobody is inside. *)
Lemma inside_same s i f f' nc nl nr nd m pc :
  files s !! i = Some f -> thread_in (t_pc f') = thread_in (t_pc f) -> main_in pc = main_in (m_pc s) ->
  forall w, inside (Web (<[i := f']> (files s)) nc nl nr nd m pc) w = inside s w.
Proof.
  intros Ef Ht Hp w. rewrite (web_inside_set s i f' _ nc nl nr nd m pc (lookup_lt_Some _ _ _ Ef) eq_refl). destruct w as [|j]; [done|].
  case_decide; [subst; cbn; by rewrite Ef|done].
Qed.

(** What a file adds to the counters. *)
Definition counts (f : file) : Z * Z * Z := (created f, joined f, told f).

Lemma main_sets s i f f' nc nl nr nd pc c j t c' j' t' :
  Inv s -> files s !! i = Some f -> counts f = (c, j, t) -> counts f' = (c', j', t') ->
  nc = nconn s + (c' - c) - (j' - j) - uncounted pc + uncounted (m_pc s) ->
  nl = nlefttoconn s - (c' - c) + uncounted pc - uncounted (m_pc s) ->
  nr = nlefttoread s - (j' - j) -> nd = ndone s + (t' - t) -> nc <= Z.max 0 maxnconn ->
  thread_in (t_pc f') = thread_in (t_pc f) -> main_in pc = main_in (m_pc s) ->
  flag_ok pc i f' -> (forall k x, i <> k -> flag_ok (m_pc s) k x -> flag_ok pc k x) ->
  let s' := Web (<[i := f']> (files s)) nc nl nr nd (mutex s) pc in pc_ok s' -> Inv s'.
Proof.
  intros HI Ef [= C1 C2 C3] [= D1 D2 D3] Hnc Hnl Hnr Hnd Hmax Ht Hm Hok Hother s' Hpc.
  pose proof (inv_conn _ HI). pose proof (inv_left _ HI). pose proof (inv_read _ HI). pose proof (inv_ndone _ HI).
  split; cbn [files nconn nlefttoconn nlefttoread ndone m_pc s']; rewrite ?length_insert, ?(total_insert _ _ i f f' Ef); try lia; [| |done].
  - intros k x. destruct (decide (i = k)) as [<-|Hne].
    + rewrite list_lookup_insert_eq by (by eapply lookup_lt_Some). by intros [= <-].
    + rewrite list_lookup_insert_ne by done. intros Ex. apply Hother; [done|]. by apply HI.
  - intros w. unfold s'. rewrite (inside_same s i f) by done. apply HI.
Qed.

Lemma flag_ok_create i pc k x : creating pc = false -> i <> k -> flag_ok pc k x <-> flag_ok (MCreate i) k x.
Proof.
  intros Hp Hne. unfold flag_ok. destruct (t_pc x); try done. rewrite !decide_False; [done|naive_solver|by intros ->].
Qed.

Lemma inv_connecting s i : Inv s -> v <> Web02 -> m_pc s = MFlag i -> exists s', set_connecting v i s = Next s' /\ Inv s'.
Proof.
  intros HI Hv Epc. pose proof (inv_pc _ HI) as Hp. unfold pc_ok in Hp. rewrite Epc in Hp. destruct Hp as (H1 & H2 & [fl t] & Ef & Ht). cbn in Ht. subst t.
  pose proof (inv_file _ HI i _ Ef) as Hok. unfold flag_ok in Hok. rewrite Epc, decide_False in Hok by done. cbn in Hok. subst fl.
  unfold set_connecting. rewrite Ef. cbn [access]. eexists. split; [done|]. unfold set_main, set_file.
  cbn [t_pc files nconn nlefttoconn nlefttoread ndone mutex].
  replace (match v with Web02 => MCount | _ => MCreate i end) with (MCreate i) by (by destruct v).
  eapply (main_sets s i _ _ _ _ _ _ _ 0 0 0 0 0 0 HI Ef eq_refl); rewrite ?Epc; cbn [uncounted]; try lia; try done.
  - unfold flag_ok. cbn. by rewrite decide_True.
  - intros k x Hne Hk. by apply (flag_ok_create i (MFlag i)).
  - unfold pc_ok. cbn. split_and!; try done. eexists. rewrite list_lookup_insert_eq by (by eapply lookup_lt_Some). by split.
Qed.

Lemma inv_create s i : Inv s -> v <> Web02 -> m_pc s = MCreate i -> exists s', create v i s = Next s' /\ Inv s'.
Proof.
  intros HI Hv Epc. pose proof (inv_pc _ HI) as Hp. unfold pc_ok in Hp. rewrite Epc in Hp. destruct Hp as (H1 & H2 & [fl t] & Ef & Ht). cbn in Ht. subst t.
  pose proof (inv_file _ HI i _ Ef) as Hok. unfold flag_ok in Hok. rewrite Epc, decide_True in Hok by done. cbn in Hok. subst fl.
  unfold create. rewrite Ef. cbn [access t_pc]. eexists. split; [done|]. unfold set_main, set_file.
  cbn [f_flags files nconn nlefttoconn nlefttoread ndone mutex].
  replace (match v with Web02 => MFlag i | _ => MCount end) with MCount by (by destruct v).
  eapply (main_sets s i _ _ _ _ _ _ _ 0 0 0 1 0 0 HI Ef eq_refl); rewrite ?Epc; cbn [uncounted]; try lia; try done.
  intros k x Hne Hk. by apply (flag_ok_create i MCount).
Qed.

Lemma inv_join s i : Inv s -> m_pc s = MJoin i -> match join i s with Blocked => True | Crash => False | Next s' => Inv s' end.
Proof.
  intros HI Epc. pose proof (inv_pc _ HI) as Hp. unfold pc_ok in Hp. rewrite Epc in Hp. destruct Hp as ([fl t] & Ef & Hfl). cbn in Hfl. subst fl.
  unfold join. rewrite Ef. cbn [access t_pc]. destruct t; try done. pose proof (inv_max _ HI).
  eapply (main_sets s i _ _ _ _ _ _ _ 1 0 1 1 1 0 HI Ef eq_refl); rewrite ?Epc; cbn [uncounted]; try lia; try done.
  by right.
Qed.

Lemma inv_fill s : Inv s -> v <> Web02 -> m_pc s = MFill -> exists s', fill v maxnconn s = Next s' /\ Inv s'.
Proof.
  intros HI Hv Epc. pose proof (inv_pc _ HI) as Hp. unfold pc_ok in Hp. rewrite Epc in Hp. pose proof (inv_left _ HI) as Hl. rewrite Epc in Hl. cbn in Hl.
  assert (total created (files s) <= Z.of_nat (length (files s))) as Hle.
  { rewrite <- total_one. apply files_le. intros i f _. unfold created. destruct (t_pc f); lia. }
  assert (forall pc, main_in pc = false -> creating pc = false -> uncounted pc = 0 -> pc_ok (set_main pc s) -> Inv (set_main pc s)) as Hmove.
  { intros pc E1 E2 E3 Hok. apply main_moves; rewrite ?Epc, ?E1; try done. }
  unfold fill. destruct (Z.ltb_spec (nconn s) maxnconn) as [H1|H1]; [destruct (Z.ltb_spec 0 (nlefttoconn s)) as [H2|H2]|]; cbn [andb].
  - destruct (find_file_Some (files s)) as (i & f & -> & Ef & H0).
    + destruct (files_pos (fun f => 1 - created f) (files s)) as (i & f & Ef & Hf).
      { assert (forall l, total (fun f => 1 - created f) l = Z.of_nat (length l) - total created l) as -> by (induction l as [|x l IH]; cbn [total length]; lia). lia. }
      exists i, f. split; [done|]. pose proof (inv_file _ HI i f Ef) as Hok. unfold created, flag_ok in *. destruct (t_pc f); try lia.
      by rewrite Epc, decide_False in Hok.
    + eexists. split; [done|]. replace (match v with Web02 => MCreate i | _ => MFlag i end) with (MFlag i) by (by destruct v).
      apply Hmove; try done. unfold pc_ok. cbn. split_and!; try done. exists f. split; [done|].
      pose proof (inv_file _ HI i f Ef) as Hok. unfold flag_ok in Hok. rewrite H0 in Hok. destruct (t_pc f); try done. by destruct Hok.
  - eexists. split; [done|]. apply Hmove; try done. unfold pc_ok. cbn. split; [done|]. right. lia.
  - eexists. split; [done|]. apply Hmove; try done. unfold pc_ok. cbn. split; [done|]. by left.
Qed.

(** The flags that main tests with &. *)
Lemma flag_done pc i f : flag_ok pc i f -> (negb (Z.land (f_flags f) F_DONE =? 0) = true <-> f_flags f = F_DONE).
Proof. unfold flag_ok. destruct (t_pc f); [case_decide as Hc|..]; intros H; try (rewrite H; done). by destruct H as [-> | ->]. Qed.

Ltac main_case HI Epc := unfold set_main, set_mutex; cbn [files nconn nlefttoconn nlefttoread ndone mutex m_pc]; apply main_moves; rewrite ?Epc; try done; unfold pc_ok; cbn; auto with lia.

Lemma late_told l : total late l <= total told l.
Proof. apply files_le. intros i f _. unfold late, told. destruct (t_pc f); try lia; by destruct (_ =? _). Qed.

Lemma web_main_inv s : Inv s -> v <> Web02 -> match main_step v maxnconn s with Blocked => True | Crash => False | Next s' => Inv s' end.
Proof.
  intros HI Hv. pose proof (inv_pc _ HI) as Hp. unfold pc_ok in Hp. pose proof (inv_mutex _ HI Main) as Hm. cbn [inside] in Hm.
  unfold main_step, lock, unlock. destruct (m_pc s) as [| |i|i| | | | | | |i|i| | | |] eqn:Epc; try done; cbn [main_in] in Hm.
  - destruct (Z.ltb_spec 0 (nlefttoread s)); main_case HI Epc. pose proof (inv_read _ HI).
    assert (total joined (files s) <= Z.of_nat (length (files s))); [|lia]. rewrite <- total_one. apply files_le. intros i f _. unfold joined. destruct (_ =? _); lia.
  - destruct (inv_fill s HI Hv Epc) as (s' & -> & H'). done.
  - destruct (inv_connecting s i HI Hv Epc) as (s' & -> & H'). done.
  - destruct (inv_create s i HI Hv Epc) as (s' & -> & H'). done.
  - destruct Hp as [H1 H2]. pose proof (inv_conn _ HI) as Hc. pose proof (inv_left _ HI) as Hl. rewrite Epc in Hc, Hl. cbn in Hc, Hl.
    destruct HI. split; cbn; try done; try lia.
    + intros i f Ef. apply (flag_ok_move (m_pc s)); [by rewrite Epc|done|]. by apply inv_file0.
    + intros [|j]; [done|apply (inv_mutex0 (Thr j))].
  - destruct (mutex s) eqn:Em; [done|]. cbn [obind]. main_case HI Epc.
  - pose proof (proj1 Hm eq_refl) as Hmu. pose proof (inv_ndone _ HI) as Hn. pose proof (late_told (files s)).
    assert (0 <= total late (files s)) by (rewrite <- (total_0 (files s)); apply files_le; intros i f _; unfold late; repeat case_match; lia).
    replace (match v with Web02 => _ | _ => if ndone s =? 0 then MWait else MFor 0 end) with (if ndone s =? 0 then MWait else MFor 0) by (by destruct v).
    destruct (Z.eqb_spec (ndone s) 0); main_case HI Epc.
  - rewrite decide_True by (by apply Hm). cbn [obind]. main_case HI Epc.
  - destruct (mutex s) eqn:Em; [done|]. cbn [obind]. main_case HI Epc.
  - pose proof (proj1 Hm eq_refl) as Hmu. destruct (Nat.ltb_spec i (length (files s))) as [Hi|Hi]; [|main_case HI Epc].
    destruct (lookup_lt_is_Some_2 _ _ Hi) as [f Ef]. rewrite Ef. cbn [access]. pose proof (flag_done _ i f (inv_file _ HI i f Ef)) as Hd.
    destruct (negb _); main_case HI Epc. exists f. naive_solver.
  - by apply inv_join.
  - rewrite decide_True by (by apply Hm). cbn [obind]. main_case HI Epc.
Qed.

(** A failed call ends the process wherever main is. *)
Definition Good (s : web) : Prop := Inv s \/ m_pc s = MFailed.

Lemma web_step_good l s : v <> Web02 -> Good s -> match step v maxnconn l s with Blocked => True | Crash => False | Next s' => Good s' end.
Proof.
  intros Hv [HI|HF].
  2: { destruct l; cbn [step]; unfold main_step, with_thread, ended; by rewrite HF. }
  destruct l as [|i|i|i|]; cbn [step]; unfold with_thread.
  - pose proof (web_main_inv s HI Hv). destruct (main_step _ _ _); try done. by left.
  - destruct (ended s); [done|]. destruct (files s !! i) as [f|] eqn:Ef; [|done]. pose proof (web_thread_inv s i f HI Hv Ef).
    destruct (thread_step _ _ _ _); try done. by left.
  - destruct (ended s); [done|]. destruct (files s !! i) as [f|]; [|done]. destruct (t_pc f); try done; by left.
  - destruct (ended s) eqn:Hx; [done|]. destruct (files s !! i) as [f|] eqn:Ef; [|done]. unfold thread_fails.
    pose proof (inv_file _ HI i f Ef) as Hok. unfold flag_ok in Hok.
    destruct v, (t_pc f) eqn:Ht; try done; try (by right). left. by thread_case HI Ef Ht Hok.
  - destruct (m_pc s) eqn:Epc; try done. left. pose proof (inv_pc _ HI) as Hp. unfold pc_ok in Hp. rewrite Epc in Hp. main_case HI Epc. 
Qed.

Lemma web_run_good ls s : v <> Web02 -> Good s -> match run_sched (step v maxnconn) ls s with Blocked => True | Crash => False | Next s' => Good s' end.
Proof. intros Hv. apply run_sched_inv. intros l s0. by apply web_step_good. Qed.

Lemma web_init_inv n : Inv (init n).
Proof.
  assert (forall g, g (File 0 TNone) = 0 -> total g (replicate n (File 0 TNone)) = 0) as H0.
  { intros g Hg. induction n as [|n IH]; cbn; lia. }
  split; cbn; rewrite ?length_replicate, ?H0 by done; try lia; try done.
  - intros i f E. by apply lookup_replicate in E as [-> _].
  - intros [|i]; cbn; [done|]. destruct (_ !! i) as [f|] eqn:E; [|done]. by apply lookup_replicate in E as [-> _].
Qed.

(** *** Where nobody can go on *)
#[local] Instance web_label_eq_dec : EqDecision label.
Proof. solve_decision. Defined.
Definition internal (l : label) : bool := match l with Go | Run _ => true | _ => false end.

Lemma web_stuck s : Inv s -> v <> Web02 -> 0 < maxnconn -> ended s = false ->
  (forall i f, files s !! i = Some f -> t_pc f <> TSpin) ->
  (forall l, internal l = true -> step v maxnconn l s = Blocked) ->
  exists i f, m_pc s = MJoin i /\ mutex s = Some Main /\ files s !! i = Some f /\ t_pc f = TLock.
Proof.
  intros HI Hv Hmax Hx Hspin Hb. pose proof (Hb Go eq_refl) as Hgo. cbn [step] in Hgo. pose proof (inv_mutex _ HI) as Hmx.
  assert (forall i f, files s !! i = Some f -> thread_step v i f s = Blocked) as Hth.
  { intros i f Ef. pose proof (Hb (Run i) eq_refl) as H. cbn [step] in H. unfold with_thread in H. by rewrite Hx, Ef in H. }
  assert (forall j, mutex s <> Some (Thr j)) as Hown.
  { intros j Ej. pose proof (proj2 (Hmx (Thr j)) Ej) as Hj. cbn [inside] in Hj. destruct (files s !! j) as [g|] eqn:Eg; [|done].
    specialize (Hth j g Eg). unfold thread_step, unlock in Hth. destruct (t_pc g); try done. by rewrite decide_True in Hth by done. }
  assert (forall i f, files s !! i = Some f -> t_pc f = TNone \/ t_pc f = TReturned \/ t_pc f = TLock /\ mutex s = Some Main) as Hpcs.
  { intros i f Ef. specialize (Hth i f Ef). specialize (Hspin i f Ef). pose proof (main_out s i f HI Ef) as Hin. unfold thread_step, lock in Hth.
    destruct (t_pc f) eqn:Et; auto; try done.
    - destruct (mutex s) as [[|j]|] eqn:Em; try done; [by auto|]. by destruct (Hown j).
    - destruct (Hin eq_refl) as [Hj _]. by destruct (Hown i). }
  pose proof (inv_pc _ HI) as Hp. unfold pc_ok in Hp. pose proof (Hmx Main) as Hm. cbn [inside] in Hm.
  assert (main_in (m_pc s) = false -> mutex s = None) as Hfree.
  { intros E. destruct (mutex s) as [[|j]|] eqn:Em; [|by destruct (Hown j)|done]. by rewrite (proj2 Hm eq_refl) in E. }
  unfold main_step, lock, unlock, ended in *. destruct (m_pc s) as [| |i|i| | | | | | |i|i| | | |] eqn:Epc; try done; cbn [main_in] in Hm.
  - destruct (inv_fill s HI Hv Epc) as (s' & E & _). by rewrite E in Hgo.
  - destruct (inv_connecting s i HI Hv Epc) as (s' & E & _). by rewrite E in Hgo.
  - destruct (inv_create s i HI Hv Epc) as (s' & E & _). by rewrite E in Hgo.
  - by rewrite (Hfree eq_refl) in Hgo.
  - rewrite decide_True in Hgo by (by apply Hm). done.
  - exfalso. destruct Hp as (Hr & Hfull & Hlate). specialize (Hfree eq_refl).
    assert (total joined (files s) = total created (files s)) as Hjc.
    { assert (forall i f, files s !! i = Some f -> joined f = created f) as H.
      { intros i f Ef. pose proof (inv_file _ HI i f Ef) as Hok. pose proof (total_0_at late (files s) i f) as H0.
        unfold flag_ok, joined, created, late in *. destruct (Hpcs i f Ef) as [E|[E|[E ?]]]; [| |congruence]; rewrite E in *.
        - rewrite Epc, decide_False in Hok by done. by rewrite Hok.
        - destruct (f_flags f =? F_JOINED); [done|]. exfalso. enough (1 = 0) by lia. apply H0; [|done|done].
          intros g. repeat case_match; lia. }
      apply Z.le_antisymm; apply files_le; intros i f Ef; rewrite (H i f Ef); lia. }
    pose proof (inv_conn _ HI) as Hc. pose proof (inv_left _ HI) as Hl. pose proof (inv_read _ HI). rewrite Epc in Hc, Hl. cbn in Hc, Hl. lia.
  - by rewrite (Hfree eq_refl) in Hgo.
  - exfalso. destruct (Nat.ltb_spec i (length (files s))) as [Hi|Hi]; [|done]. destruct (lookup_lt_is_Some_2 _ _ Hi) as [f Ef]. by rewrite Ef in Hgo.
  - destruct Hp as (f & Ef & Hfl). exists i, f. pose proof (proj1 Hm eq_refl) as Hmu. split_and!; try done.
    unfold join in Hgo. rewrite Ef in Hgo. cbn in Hgo. pose proof (inv_file _ HI i f Ef) as Hok. unfold flag_ok in Hok. rewrite Hfl in Hok.
    destruct (Hpcs i f Ef) as [E|[E|[E ?]]]; rewrite E in *; try done. by rewrite Epc, decide_False in Hok.
  - rewrite decide_True in Hgo by (by apply Hm). done.
Qed.

(** *** Every statement brings the end nearer *)
Definition size (s : web) : Z := Z.of_nat (length (files s)).
Definition done_from (i : nat) (l : list file) : bool := existsb (fun f => f_flags f =? F_DONE) (drop i l).

(** What is left to do for a file; a signal pays for main's next look at the flags,
    and joining a thread for main's next turn. *)
Definition f_cost (n : Z) (f : file) : Z :=
  (match t_pc f with
   | TNone => 15 | TConnect => 10 | TWrite => 9 | TReading => 8 | TRead => 7 | TClose => 6 | TFlag => 5 | TLock => 4
   | TInc => 3 | TSignal => 2 | TUnlock => 1 | TReturned | TSpin => 0
   end) + (match t_pc f with TUnlock | TReturned | TSpin => 0 | _ => 2 * n + 6 end) + (1 - joined f) * (2 * n + 7).
Definition m_cost (n : Z) (l : list file) (pc : main_pc) : Z :=
  match pc with
  | MUnlock => 2 * n + 8 | MLoop | MCount => 2 * n + 7 | MFill => 2 * n + 6 | MFlag _ | MLock | MWoken => 2 * n + 5
  | MCreate _ | MTest => 2 * n + 4 | MWait => 2 * n + 3
  | MFor i => 2 * Z.of_nat (length l - i) + 2 + (if done_from i l then 0 else 2 * n + 7)
  | MJoin i => 2 * Z.of_nat (length l - i) + 1
  | MWaiting | MDone | MNothing | MFailed => 0
  end.
Definition cost (s : web) : Z := total (f_cost (size s)) (files s) + m_cost (size s) (files s) (m_pc s).

Lemma done_from_insert i k l f f' : l !! k = Some f -> (f_flags f' = F_DONE \/ f_flags f <> F_DONE) ->
  done_from i l = true -> done_from i (<[k := f']> l) = true.
Proof.
  intros Ef Hf. unfold done_from. rewrite !existsb_exists. intros (x & Hin & Hx). apply Z.eqb_eq in Hx.
  apply list_elem_of_In, list_elem_of_lookup in Hin as [j Ej]. rewrite lookup_drop in Ej.
  destruct (decide (k = i + j)%nat) as [->|Hne].
  - exists f'. rewrite Ef in Ej. injection Ej as ->. split; [|apply Z.eqb_eq; destruct Hf; congruence].
    apply list_elem_of_In, list_elem_of_lookup. exists j. by rewrite lookup_drop, list_lookup_insert_eq by (by eapply lookup_lt_Some).
  - exists x. split; [|by apply Z.eqb_eq]. apply list_elem_of_In, list_elem_of_lookup. exists j. by rewrite lookup_drop, list_lookup_insert_ne.
Qed.
Lemma done_from_S i l f : l !! i = Some f -> done_from i l = (f_flags f =? F_DONE) || done_from (S i) l.
Proof. intros Ef. unfold done_from. by rewrite (drop_S l f i Ef). Qed.

Lemma m_cost_insert n k l f f' pc : 0 <= n -> l !! k = Some f -> (f_flags f' = F_DONE \/ f_flags f <> F_DONE) ->
  m_cost n (<[k := f']> l) pc <= m_cost n l pc.
Proof.
  intros Hn Ef Hf. destruct pc as [| | | | | | | | | |i|i| | | |]; cbn [m_cost]; rewrite ?length_insert; try lia.
  pose proof (done_from_insert i k l f f' Ef Hf). destruct (done_from i l); [rewrite H by done; lia|destruct (done_from _ _); lia].
Qed.

Lemma web_thread_cost s i f s' : Inv s -> v <> Web02 -> files s !! i = Some f -> thread_step v i f s = Next s' -> size s' = size s /\ cost s' + 1 <= cost s.
Proof.
  intros HI Hv Ef. pose proof (inv_file _ HI i f Ef) as Hok.
  assert (0 <= size s) as Hn by (unfold size; lia).
  assert (forall f' nd m pc, (f_flags f' = F_DONE \/ f_flags f <> F_DONE) ->
    f_cost (size s) f' + m_cost (size s) (files s) pc + 1 <= f_cost (size s) f + m_cost (size s) (files s) (m_pc s) ->
    let s1 := Web (<[i := f']> (files s)) (nconn s) (nlefttoconn s) (nlefttoread s) nd m pc in size s1 = size s /\ cost s1 + 1 <= cost s) as H.
  { intros f' nd m pc Hf Hle s1. assert (size s1 = size s) as Hs by (unfold size; cbn; by rewrite length_insert). split; [done|].
    unfold cost. rewrite Hs. cbn [files m_pc s1]. rewrite (total_insert _ _ i f f' Ef). pose proof (m_cost_insert (size s) i (files s) f f' pc Hn Ef Hf). lia. }
  unfold thread_step, set_file, signal, lock, unlock, set_ndone, set_mutex, set_main, flag_ok in *.
  destruct (t_pc f) eqn:Epc; try done; cbn.
  all: repeat case_match; try done; cbn; intros [= <-]; apply H; rewrite ?Hok; auto; unfold f_cost, joined; rewrite Epc; cbn [t_pc f_flags]; rewrite ?Hok; cbn -[Z.mul Z.add];
    try match goal with E : m_pc _ = _ |- _ => rewrite E; cbn -[Z.mul Z.add] end; lia.
Qed.

Lemma web_main_cost s s' : Inv s -> v <> Web02 -> main_step v maxnconn s = Next s' -> size s' = size s /\ cost s' + 1 <= cost s.
Proof.
  intros HI Hv. pose proof (inv_pc _ HI) as Hp. unfold pc_ok in Hp. assert (0 <= size s) as Hn by (unfold size; lia).
  assert (forall m nc nl pc, m_cost (size s) (files s) pc + 1 <= m_cost (size s) (files s) (m_pc s) ->
    let s1 := Web (files s) nc nl (nlefttoread s) (ndone s) m pc in size s1 = size s /\ cost s1 + 1 <= cost s) as Hmove.
  { intros m nc nl pc H s1. split; [done|]. unfold cost, size in *. cbn [files m_pc s1]. lia. }
  assert (forall i f f' nc nl nr nd pc, files s !! i = Some f ->
    f_cost (size s) f' + m_cost (size s) (<[i := f']> (files s)) pc + 1 <= f_cost (size s) f + m_cost (size s) (files s) (m_pc s) ->
    let s1 := Web (<[i := f']> (files s)) nc nl nr nd (mutex s) pc in size s1 = size s /\ cost s1 + 1 <= cost s) as Hset.
  { intros i f f' nc nl nr nd pc Ef H s1. assert (size s1 = size s) as Hs by (unfold size; cbn; by rewrite length_insert). split; [done|].
    unfold cost. rewrite Hs. cbn [files m_pc s1]. rewrite (total_insert _ _ i f f' Ef). lia. }
  unfold main_step, lock, unlock, fill, set_connecting, create, join, access, set_main, set_mutex, set_file.
  destruct (m_pc s) as [| |i|i| | | | | | |i|i| | | |] eqn:Epc; try done.
  - intros [= <-]. apply Hmove. destruct (0 <? _); cbn [m_cost]; lia.
  - destruct v; try done; repeat case_match; intros [= <-]; apply Hmove; cbn [m_cost]; lia.
  - destruct Hp as (_ & _ & [fl t] & Ef & Ht). cbn in Ht. subst t. rewrite Ef. pose proof (inv_file _ HI i _ Ef) as Hok. unfold flag_ok in Hok.
    rewrite Epc, decide_False in Hok by done. cbn in Hok. subst fl.
    destruct v; try done; intros [= <-]; cbn; apply (Hset i _ _ _ _ _ _ _ Ef); unfold f_cost, joined; cbn -[Z.mul Z.add]; lia.
  - destruct Hp as (_ & _ & [fl t] & Ef & Ht). cbn in Ht. subst t. rewrite Ef. pose proof (inv_file _ HI i _ Ef) as Hok. unfold flag_ok in Hok.
    rewrite Epc, decide_True in Hok by done. cbn in Hok. subst fl.
    destruct v; try done; intros [= <-]; cbn; apply (Hset i _ _ _ _ _ _ _ Ef); unfold f_cost, joined; cbn -[Z.mul Z.add]; lia.
  - intros [= <-]. apply Hmove. cbn [m_cost]. lia.
  - destruct (mutex s); [done|]. intros [= <-]. apply Hmove. cbn [m_cost]. lia.
  - intros [= <-]. apply Hmove. replace (match v with Web02 => _ | _ => if ndone s =? 0 then MWait else MFor 0 end) with (if ndone s =? 0 then MWait else MFor 0) by (by destruct v).
    destruct (Z.eqb_spec (ndone s) 0) as [E0|E0]; cbn [m_cost]; [lia|]. assert (done_from 0 (files s) = true) as ->; [|unfold size; lia].
    destruct (files_pos told (files s)) as (i & f & Ef & Hf).
    { rewrite <- (inv_ndone _ HI). assert (0 <= total told (files s)); [|rewrite (inv_ndone _ HI) in *; lia].
      rewrite <- (total_0 (files s)). apply files_le. intros i f _. unfold told. repeat case_match; lia. }
    unfold done_from. apply existsb_exists. exists f. split; [apply list_elem_of_In, list_elem_of_lookup; by exists i|]. apply Z.eqb_eq.
    pose proof (inv_file _ HI i f Ef) as Hok. unfold told, flag_ok in *. destruct (t_pc f); try lia; try done.
    destruct Hok as [|Hj]; [done|]. rewrite Hj in Hf. cbn in Hf. lia.
  - case_decide; [|done]. intros [= <-]. apply Hmove. cbn [m_cost]. lia.
  - destruct (mutex s); [done|]. intros [= <-]. apply Hmove. cbn [m_cost]. lia.
  - destruct (Nat.ltb_spec i (length (files s))) as [Hi|Hi].
    + destruct (lookup_lt_is_Some_2 _ _ Hi) as [f Ef]. rewrite Ef. intros [= <-]. apply Hmove. pose proof (flag_done _ i f (inv_file _ HI i f Ef)) as Hd.
      cbn [m_cost]. rewrite (done_from_S i _ f Ef). destruct (negb _); cbn [m_cost].
      * rewrite (proj2 (Z.eqb_eq _ _) (proj1 Hd eq_refl)). cbn [orb]. lia.
      * destruct (Z.eqb_spec (f_flags f) F_DONE) as [E|E]; [by apply Hd in E|]. cbn [orb]. destruct (done_from _ _); lia.
    + intros [= <-]. apply Hmove. cbn [m_cost]. assert (done_from i (files s) = false) as -> by (unfold done_from; by rewrite drop_ge). lia.
  - destruct Hp as ([fl t] & Ef & Hfl). cbn in Hfl. subst fl. rewrite Ef. destruct t; try done. intros [= <-]. apply (Hset i _ _ _ _ _ _ _ Ef).
    pose proof (lookup_lt_Some _ _ _ Ef). unfold f_cost, joined. cbn -[Z.mul Z.add done_from Nat.sub]. rewrite length_insert.
    destruct (done_from _ _); unfold size in *; lia.
  - case_decide; [|done]. intros [= <-]. apply Hmove. cbn [m_cost]. lia.
Qed.

Definition spurious (ls : list label) : Z := Z.of_nat (length (filter (fun l => l = Spurious) ls)).
Definition internals (ls : list label) : Z := Z.of_nat (length (filter (fun l => internal l = true) ls)).

Lemma joined_range f : 0 <= joined f <= 1.
Proof. unfold joined. destruct (_ =? _); lia. Qed.
Lemma m_cost_nonneg n l pc : 0 <= n -> 0 <= m_cost n l pc.
Proof. intros Hn. destruct pc; cbn [m_cost]; try destruct (done_from _ _); lia. Qed.
Lemma web_cost_nonneg s : 0 <= cost s.
Proof.
  unfold cost. assert (0 <= size s) as Hn by (unfold size; lia). pose proof (m_cost_nonneg (size s) (files s) (m_pc s) Hn).
  assert (0 <= total (f_cost (size s)) (files s)); [|lia]. rewrite <- (total_0 (files s)). apply files_le. intros i f _.
  unfold f_cost. pose proof (joined_range f). destruct (t_pc f); nia.
Qed.

Lemma web_step_cost l s s' : Good s -> v <> Web02 -> step v maxnconn l s = Next s' ->
  size s' = size s /\ cost s' + (if internal l then 1 else 0) <= cost s + (if decide (l = Spurious) then 2 * size s + 5 else 0).
Proof.
  intros HG Hv E. assert (Inv s) as HI.
  { destruct HG as [|HF]; [done|]. destruct l; cbn [step] in E; unfold main_step, with_thread, ended in E; by rewrite HF in E. }
  assert (0 <= size s) as Hn by (unfold size; lia). pose proof (m_cost_nonneg (size s) (files s) (m_pc s) Hn).
  destruct l as [|i|i|i|]; cbn [step internal] in *; unfold with_thread in E; [rewrite decide_False by done..|rewrite decide_True by done].
  - destruct (web_main_cost s s' HI Hv E). lia.
  - destruct (ended s); [done|]. destruct (files s !! i) as [f|] eqn:Ef; [|done]. destruct (web_thread_cost s i f s' HI Hv Ef E). lia.
  - destruct (ended s); [done|]. destruct (files s !! i) as [f|] eqn:Ef; [|done]. destruct (t_pc f); try done; injection E as <-; lia.
  - destruct (ended s); [done|]. destruct (files s !! i) as [f|] eqn:Ef; [|done]. pose proof (inv_file _ HI i f Ef) as Hok. unfold thread_fails, flag_ok in *.
    destruct v, (t_pc f) eqn:Ht; try done; injection E as <-; (split; [unfold size; cbn; by rewrite ?length_insert|]); unfold cost, size in *; cbn -[Z.mul Z.add total m_cost] in *.
    1-4: change (m_cost _ _ MFailed) with 0; lia.
    rewrite length_insert, (total_insert _ _ i f _ Ef). set (n := Z.of_nat (length (files s))) in *.
    pose proof (m_cost_insert n i (files s) f (File (f_flags f) TSpin) (m_pc s) Hn Ef ltac:(right; by rewrite Hok)).
    unfold f_cost, joined. rewrite Ht. cbn -[Z.mul Z.add total m_cost]. rewrite Hok. cbn -[Z.mul Z.add total m_cost]. unfold f_cost, joined in *. rewrite Hok in *. lia.
  - destruct (m_pc s) eqn:Epc; try done. injection E as <-. split; [done|]. unfold cost. rewrite Epc. cbn [files m_pc set_main m_cost]. unfold size. cbn. lia.
Qed.

Lemma web_run_cost ls s s' : v <> Web02 -> Good s -> run_sched (step v maxnconn) ls s = Next s' ->
  size s' = size s /\ internals ls + cost s' <= cost s + (2 * size s + 5) * spurious ls.
Proof.
  intros Hv. revert s. induction ls as [|l ls IH]; intros s HG; cbn [run_sched].
  { intros [= <-]. unfold internals, spurious. cbn. lia. }
  pose proof (web_step_good l s Hv HG) as HG'. destruct (step v maxnconn l s) as [| |s1] eqn:E; try done. cbn [obind]. intros Hr.
  destruct (IH s1 HG' Hr) as [IH1 IH2]. destruct (web_step_cost l s s1 HG Hv E) as [H1 H2]. split; [congruence|]. rewrite H1 in IH2.
  unfold internals, spurious in *. rewrite !filter_cons. destruct (internal l) eqn:El; [rewrite decide_True by done|rewrite decide_False by done];
    (destruct (decide (l = Spurious)) as [->|]); cbn [length]; lia.
Qed.

(** The threads that run: created, and not returned. *)
Definition running (f : file) : Z := match t_pc f with TNone | TReturned => 0 | _ => 1 end.

Lemma web_running s : Inv s -> total running (files s) <= Z.max 0 maxnconn.
Proof.
  intros HI. assert (total running (files s) <= total created (files s) - total joined (files s)) as H.
  { assert (total running (files s) <= total (fun f => created f - joined f) (files s)) as H.
    { apply files_le. intros i f Ef. pose proof (inv_file _ HI i f Ef) as Hok. unfold running, created, joined, flag_ok in *.
      destruct (t_pc f); [case_decide| | | | | | | | | | | |]; try (rewrite Hok; done). destruct Hok as [-> | ->]; done. }
    assert (forall l, total (fun f => created f - joined f) l = total created l - total joined l) as <-; [|done].
    induction l as [|x l IH]; cbn [total]; lia. }
  pose proof (inv_conn _ HI). pose proof (inv_max _ HI). pose proof (inv_pc _ HI) as Hp. unfold pc_ok in Hp. destruct (m_pc s); cbn in *; lia.
Qed.

Lemma web_all_joined s : Inv s -> nlefttoread s = 0 -> Forall (fun f => f_flags f = F_JOINED /\ t_pc f = TReturned) (files s).
Proof.
  intros HI H0. apply Forall_lookup_2. intros i f Ef. pose proof (inv_read _ HI) as Hr.
  assert (1 - joined f = 0) as Hj.
  { apply (total_0_at (fun f => 1 - joined f) (files s) i f); [intros g; pose proof (joined_range g); lia| |done].
    assert (forall l, total (fun f => 1 - joined f) l = Z.of_nat (length l) - total joined l) as -> by (induction l as [|x l IH]; cbn [total length]; lia). lia. }
  pose proof (inv_file _ HI i f Ef) as Hok. unfold joined, flag_ok in *. destruct (Z.eqb_spec (f_flags f) F_JOINED) as [E|]; [|lia]. split; [done|].
  rewrite E in Hok. destruct (t_pc f); try done. by case_decide.
Qed.
End Inv.

(** C27. web03.c keeps its books under every schedule: it never runs more than maxnconn
    threads at a time, never finds nlefttoconn positive with no file left, creates
    one thread for each file, and ends only when every thread has been joined. *)
Theorem web_threads_account (v : version) (maxnconn : Z) (nfiles : nat) (ls : list label) :
  v <> Web02 ->
  match run_sched (step v maxnconn) ls (init nfiles) with
  | Blocked => True
  | Crash => False
  | Next s =>
      m_pc s = MFailed \/
      (total running (files s) <= Z.max 0 maxnconn /\ m_pc s <> MNothing /\
       (m_pc s = MDone -> Forall (fun f => f_flags f = F_JOINED /\ t_pc f = TReturned) (files s)))
  end.
Proof.
  intros Hv. pose proof (web_run_good v maxnconn ls (init nfiles) Hv (or_introl (web_init_inv maxnconn nfiles))) as H.
  destruct (run_sched _ _ _) as [| |s]; [done|done|]. destruct H as [HI|HF]; [right|by left]. pose proof (inv_pc _ _ HI) as Hp. unfold pc_ok in Hp.
  split_and!; [by apply (web_running maxnconn)|by intros E; rewrite E in Hp|].
  intros E. rewrite E in Hp. by apply (web_all_joined maxnconn).
Qed.


(** Two files; main joins the first thread, the second has set F_DONE and not yet
    locked the mutex. *)
Definition to_deadlock : list label := replicate 10 Go ++ replicate 10 (Run 0) ++ replicate 6 (Run 1) ++ replicate 5 Go.

(** The deadlock of web03.c can be reached: the flag F_DONE is set outside the mutex,
    so main can see it, after another thread has made ndone positive, before the
    thread has locked the mutex; main then joins the thread with the mutex held. *)
Theorem web03_deadlocks :
  exists s, run_sched (step Web03 2) to_deadlock (init 2) = Next s /\ ended s = false /\ m_pc s = MJoin 1 /\
    forall l, internal l = true -> step Web03 2 l s = Blocked.
Proof.
  eexists. split; [by vm_compute|]. split_and!; try done. intros [|[|[|i]]| | |]; done.
Qed.

(** The only thread has returned and its flag is F_CONNECTING. *)
Definition lost (s : web) : Prop :=
  files s = [File F_CONNECTING TReturned] /\ 0 < nlefttoread s /\ nlefttoconn s = uncounted (m_pc s) /\
  mutex s = (if main_in (m_pc s) then Some Main else None) /\
  match m_pc s with MLoop | MFill | MCount | MLock | MTest | MFor _ | MUnlock => True | _ => False end.

Lemma lost_step l s : lost s -> match step Web02 1 l s with Blocked => True | Crash => False | Next s' => lost s' end.
Proof.
  intros (Hf & Hn & Hl & Hm & Hpc). destruct l as [|i|i|i|]; cbn [step]; unfold with_thread.
  2-4: destruct (ended s); [done|]; rewrite Hf; by destruct i as [|i].
  2: by destruct (m_pc s).
  unfold main_step, fill, lock, unlock. destruct (m_pc s) as [| |i|i| | | | | | |i|i| | | |] eqn:Epc; try done; cbn [main_in uncounted] in *; rewrite ?Hm.
  - rewrite (proj2 (Z.ltb_lt _ _) Hn). done.
  - rewrite Hl, andb_false_r. done.
  - unfold lost. cbn. split_and!; try done. lia.
  - done.
  - by destruct (0 <? ndone s).
  - destruct (Nat.ltb_spec i (length (files s))) as [Hi|Hi]; [|done]. rewrite Hf in *. destruct i as [|i]; [|cbn in Hi; lia]. cbn.
    unfold lost. cbn. by split_and!.
  - rewrite decide_True by done. done.
Qed.

(** web02.c can lose a thread: it sets f_flags to F_CONNECTING after it has created the
    thread, and so can overwrite the F_DONE of a thread that is already done; from
    then on no schedule ends the program. *)
Theorem web02_loses_thread :
  exists s, run_sched (step Web02 1) ([Go; Go; Go] ++ replicate 9 (Run 0) ++ [Go]) (init 1) = Next s /\ ended s = false /\
    files s = [File F_CONNECTING TReturned] /\ forall ls s', run_sched (step Web02 1) ls s = Next s' -> ended s' = false.
Proof.
  eexists. split; [by vm_compute|]. split_and!; try done. intros ls s' Hr.
  match type of Hr with run_sched _ _ ?s0 = _ => pose proof (run_sched_inv (step Web02 1) lost lost_step ls s0) as H end.
  rewrite Hr in H. destruct H as (_ & _ & _ & _ & Hpc); [by split_and!|]. unfold ended. by destruct (m_pc s').
Qed.

(** ** Witnesses *)
Lemma web_threads_account_witness :
  match run_sched (step Web03 1) (replicate 6 Go ++ replicate 9 (Run 0)) (init 2) with
  | Blocked => True
  | Crash => False
  | Next s =>
      m_pc s = MFailed \/
      (total running (files s) <= Z.max 0 1 /\ m_pc s <> MNothing /\
       (m_pc s = MDone -> Forall (fun f => f_flags f = F_JOINED /\ t_pc f = TReturned) (files s)))
  end.
Proof. by refine (web_threads_account Web03 1 2 (replicate 6 Go ++ replicate 9 (Run 0)) _). Defined.

End WebThreadsProofs.
