(* ===== verification/UdpCksum.v ===== *)
(** * Does a host send UDP checksums?  unpv13e/udpcksum

    The program writes a DNS query with its own IP and UDP headers to a raw
    socket, up to three times, and captures the answer with the packet capture
    library to look at its UDP checksum.

    Packets are byte arrays; struct udpiphdr is the 28 bytes of an IP header
    overlaid with the pseudo-header of the UDP checksum (nine unused bytes, the
    protocol, the length, the addresses) and the UDP header.  The capture library
    is not part of the repository: what its calls return is the parameter
    [capture], a list of what happens while the program waits. *)
From stdpp Require Import base list numbers strings gmap.
From S2P Require Import Prelude InetAddr Checksum Cnum Sys Error Wrap StreamIO SockAddr Connect.
Import Cksum.

Module UdpCksum.
Definition TTL_OUT : Z := 64.
Definition IPVERSION : Z := 4.
Definition IPPROTO_UDP : Z := 17.
Definition IPPROTO_IP : Z := 0.
Definition IP_HDRINCL : Z := 2.
Definition SOCK_RAW : Z := 3.
Definition INADDR_ANY : list Z := [0; 0; 0; 0].
Definition ETHERTYPE_IP : Z := 0x800.
Definition DLT_NULL : Z := 0.
Definition DLT_EN10MB : Z := 1.
Definition DLT_SLIP : Z := 8.
Definition DLT_PPP : Z := 9.
Definition sizeof_ip : Z := 20.
Definition sizeof_udphdr : Z := 8.
Definition sizeof_udpiphdr : Z := 28.

(** The globals of udpcksum.h. *)
Record udp := Udp {
  dest : sockaddr; destlen : Z; local : sockaddr; locallen : Z; rawfd : Z; datalink : Z; verbose : Z; zerosum : Z }.

(** (struct sockaddr_in * ) sa *)
Definition as_in (sa : sockaddr) : option sockaddr_in := match sa with SaIn s => Some s | _ => None end.

(** ** udpwrite.c *)
Definition open_output (u : udp) : prog udp :=
  fd ← Socket (sa_family (dest u)) SOCK_RAW 0;
  _ ← Setsockopt fd IPPROTO_IP IP_HDRINCL (OInt 1);
  Ret (Udp (dest u) (destlen u) (local u) (locallen u) fd (datalink u) (verbose u) (zerosum u)).

(** The UDP header and the pseudo-header: the buffer and the new value of userlen. *)
Definition fill_udp `{Platform} (u : udp) (buf : list Z) (userlen : Z) : option (list Z * Z) :=
  b0 ← memcpy buf 0 (replicate (Z.to_nat sizeof_udpiphdr) 0);
  b1 ← memcpy b0 10 (store16 (htons (u16 (sizeof_udphdr + userlen))));
  let userlen1 := userlen + sizeof_udpiphdr in
  b2 ← awrite b1 9 IPPROTO_UDP;
  l ← as_in (local u);
  d ← as_in (dest u);
  b3 ← memcpy b2 12 (sin_addr l);
  b4 ← memcpy b3 16 (sin_addr d);
  b5 ← memcpy b4 20 (store16 (sin_port l));
  b6 ← memcpy b5 22 (store16 (sin_port d));
  ui_len ← aread16 b6 10;
  b7 ← memcpy b6 24 (store16 ui_len);
  if zerosum u =? 0 then
    sum ← in_cksum b7 userlen1;
    b8 ← memcpy b7 26 (store16 sum);
    b9 ← (if sum =? 0 then memcpy b8 26 (store16 0xffff) else Some b8);
    Some (b9, userlen1)
  else Some (b7, userlen1).

(** The rest of the IP header; ip_v and ip_hl share the first byte. *)
Definition fill_ip `{Platform} (buf : list Z) (userlen : Z) : option (list Z) :=
  v0 ← aread buf 0;
  b0 ← awrite buf 0 (Z.lor (Z.shiftl IPVERSION 4) (Z.land v0 0x0f));
  v1 ← aread b0 0;
  b1 ← awrite b0 0 (Z.lor (Z.land v1 0xf0) (Z.shiftr sizeof_ip 2));
  b2 ← awrite b1 1 0;
  b3 ← memcpy b2 2 (store16 (u16 userlen));
  b4 ← memcpy b3 4 (store16 0);
  b5 ← memcpy b4 6 (store16 0);
  awrite b5 8 TTL_OUT.

Definition udp_write `{Platform} (u : udp) (buf : list Z) (userlen : Z) : prog unit :=
  '(b1, userlen1) ← mem (fill_udp u buf userlen);
  b2 ← mem (fill_ip b1 userlen1);
  bs ← mem (asub b2 0 userlen1);
  Sendto (rawfd u) bs 0 (dest u) (destlen u).

(** ** senddnsquery-raw.c *)

(** The stores through ptr, one after the other. *)
Fixpoint put_all (buf : list Z) (ptr : Z) (l : list (list Z)) : option (list Z * Z) :=
  match l with
  | [] => Some (buf, ptr)
  | bs :: l => b ← memcpy buf ptr bs; put_all b (ptr + Z.of_nat (length bs)) l
  end.
Definition dns_name : list Z := [1] ++ str "a" ++ [12] ++ str "root-servers" ++ [3] ++ str "net" ++ [0].
Definition dns_fields `{Platform} : list (list Z) :=
  [store16 (htons 1234); store16 (htons 0x0100); store16 (htons 1); store16 0; store16 0; store16 0;
   dns_name; store16 (htons 1); store16 (htons 1)].

(** The block is never freed. *)
Definition send_dns_query `{Platform} (u : udp) : prog unit :=
  _ ← Malloc (sizeof_udpiphdr + 100);
  let buf := replicate (Z.to_nat (sizeof_udpiphdr + 100)) 0 in        (* what it holds is not read *)
  '(b, ptr) ← mem (put_all buf sizeof_udpiphdr dns_fields);
  let nbytes := ptr - sizeof_udpiphdr in
  _ ← udp_write u b nbytes;
  if verbose u =? 0 then Ret tt
  else call_ (Efputs (str "sent: " ++ fmt_d nbytes ++ str " bytes of data" ++ [10]) stdout).

(** ** udpread.c *)

(** An int compared with a size_t. *)
Definition lt_size (a b : Z) : bool := u64 a <? u64 b.

(** The bytes of the frame from [ptr] on, of which [len] were captured. *)
Definition udp_check `{Platform} (pkt : list Z) (len : Z) : prog (list Z) :=
  if lt_size len (sizeof_ip + sizeof_udphdr) then err_quit (str "len = " ++ fmt_d len) else
  b0 ← mem (aread pkt 0);
  let ip_v := Z.shiftr b0 4 in let ip_hl := Z.land b0 0x0f in
  if negb (ip_v =? IPVERSION) then err_quit (str "ip_v = " ++ fmt_d ip_v) else
  let hlen := Z.shiftl ip_hl 2 in
  if lt_size hlen sizeof_ip then err_quit (str "ip_hl = " ++ fmt_d ip_hl) else
  if lt_size len (hlen + sizeof_udphdr) then err_quit (str "len = " ++ fmt_d len ++ str ", hlen = " ++ fmt_d hlen) else
  sum ← mem (in_cksum pkt hlen);
  p1 ← mem (memcpy pkt 10 (store16 sum));
  if negb (sum =? 0) then err_quit (str "ip checksum error") else
  ip_p ← mem (aread p1 9);
  if ip_p =? IPPROTO_UDP then Ret p1 else err_quit (str "not a UDP packet").

(** The body of the loop of udp_read for a captured frame; it returns or ends the process. *)
Definition on_frame `{Platform} (u : udp) (frame : list Z) : prog (list Z) :=
  let len := Z.of_nat (length frame) in
  let check n := udp_check (drop (Z.to_nat n) frame) (len - n) in
  if datalink u =? DLT_NULL then check 4
  else if datalink u =? DLT_EN10MB then
    ether_type ← mem (aread16 frame 12);
    if negb (ntohs ether_type =? ETHERTYPE_IP) then err_quit (str "Ethernet type " ++ fmt_x (ntohs ether_type) ++ str " not IP")
    else check 14
  else if datalink u =? DLT_SLIP then check 24
  else if datalink u =? DLT_PPP then check 24
  else err_quit (str "unsupported datalink (" ++ fmt_d (datalink u) ++ str ")").

(** ** udpcksum.c *)

(** What happens while pcap_next waits: it returns NULL, it returns a frame, or the
    alarm goes off. *)
Inductive capture := Nothing | Frame (bs : list Z) | Alarm.

Definition report `{Platform} (u : udp) (ui : list Z) : prog unit :=
  ui_sum ← mem (aread16 ui 26);
  _ ← call_ (Efputs (str (if ui_sum =? 0 then "UDP checksums off" else "UDP checksums on") ++ [10]) stdout);
  if verbose u =? 0 then Ret tt
  else call_ (Efputs (str "received UDP checksum = " ++ fmt_x (ntohs ui_sum) ++ [10]) stdout).

(** From canjump = 1 on: [waiting] once the query has been sent and the alarm set.
    siglongjmp leads back to the test of nsent. *)
Fixpoint waiting `{Platform} (u : udp) (nsent timeout : Z) (ev : list capture) : prog unit :=
  match ev with
  | [] => Halt Spin                                                  (* still waiting *)
  | Nothing :: ev => waiting u nsent timeout ev
  | Frame bs :: _ =>
      ui ← on_frame u bs;
      _ ← lib (Ealarm 0);
      report u ui
  | Alarm :: ev =>
      if 3 <=? nsent then err_quit (str "no response") else
      _ ← call_ (Efputs (str "timeout" ++ [10]) stdout);
      _ ← send_dns_query u;
      _ ← lib (Ealarm (timeout * 2));
      waiting u (nsent + 1) (timeout * 2) ev
  end.

(** [handler] is the number of sig_alrm. *)
Definition test_udp `{Platform} (handler : Z) (u : udp) (ev : list capture) : prog unit :=
  _ ← Signal SIGALRM handler;
  _ ← send_dns_query u;
  _ ← lib (Ealarm 3);
  waiting u 1 3 ev.

(** ** main.c, after the options: the addresses *)
Definition set_addrs (d : sockaddr) (dl : Z) (l : sockaddr) (ll : Z) (u : udp) : udp :=
  Udp d dl l ll (rawfd u) (datalink u) (verbose u) (zerosum u).

(** [lopt]: the name and service of the -l option. *)
Definition addresses (host serv : list Z) (lopt : option (list Z * list Z)) (u : udp) : prog udp :=
  res ← Host_serv (Some host) (Some serv) AF_INET SOCK_DGRAM;
  aip ← mem (head res);
  let d := ai_addr aip in let dl := ai_addrlen aip in
  match lopt with
  | Some (localname, localport) =>
      res2 ← Host_serv (Some localname) (Some localport) AF_INET SOCK_DGRAM;
      aip2 ← mem (head res2);
      Ret (set_addrs d dl (ai_addr aip2) (ai_addrlen aip2) u)
  | None =>
      s ← Socket AF_INET SOCK_DGRAM 0;
      _ ← Connect s d dl;
      '(sa, len) ← Getsockname s;
      l ← mem (as_in sa);
      if bool_decide (sin_addr l = INADDR_ANY) then err_quit (str "Can't determine local address - use -l" ++ [10]) else
      _ ← call_ (Eclose s);
      Ret (set_addrs d dl sa len u)
  end.
End UdpCksum.
