(* ===== verification/UdpCksumProofs.v ===== *)
(** * Queries with a UDP checksum that verifies

    What udp_write sends is an IP datagram whose UDP checksum a receiver finds
    correct: the one's complement sum over pseudo-header, header and data, as RFC
    768 defines it, computed here by the program's own in_cksum.  The probe is
    sent at most three times, and what is printed is decided by the answer's
    checksum field. *)
From stdpp Require Import base list numbers strings gmap.
From S2P Require Import Prelude InetAddr Checksum Cnum Sys Error Wrap StreamIO StreamProofs SockAddr Connect ConnectProofs Bytes UdpCksum.
Import Cksum.

Module UdpCksumProofs.
Import UdpCksum.

(** ** The checksum reads the bytes it is given, and no more *)
Lemma in_cksum_loop_prefix `{Platform} bs rest sum :
  in_cksum_loop (bs ++ rest) (Z.of_nat (length bs)) sum =
  '(w, n, s) ← in_cksum_loop bs (Z.of_nat (length bs)) sum; Some (w ++ rest, n, s).
Proof.
  revert sum. induction bs as [|a|a b bs IH] using list_ind2; intros sum.
  - by destruct rest as [|? [|? ?]].
  - done.
  - cbn [app in_cksum_loop length]. destruct (Z.ltb_spec 1 (Z.of_nat (S (S (length bs))))); [|lia].
    replace (Z.of_nat (S (S (length bs))) - 2) with (Z.of_nat (length bs)) by lia. apply IH.
Qed.
Lemma in_cksum_prefix `{Platform} bs rest : Forall is_byte bs -> Z.of_nat (length bs) <= 131074 ->
  in_cksum (bs ++ rest) (Z.of_nat (length bs)) = in_cksum bs (Z.of_nat (length bs)).
Proof.
  intros Hb Hl. unfold in_cksum. rewrite in_cksum_loop_prefix.
  destruct (in_cksum_loop_sum bs 0 Hb) as (w & n & s & E & Hn); [lia|by rewrite Z.add_0_l; apply words16_sum_range|].
  rewrite E. cbn [mbind option_bind]. destruct Hn as [[-> _]|[-> (b & -> & _)]]; done.
Qed.

(** ** The packet *)
Definition in_ok (s : sockaddr_in) : Prop := length (sin_addr s) = 4%nat /\ Forall is_byte (sin_addr s) /\ is_u16 (sin_port s).

(** RFC 768: what the checksum of a UDP datagram in an IP datagram without options covers. *)
Definition pseudo (pkt : list Z) : list Z :=
  take 8 (drop 12 pkt) ++ [0] ++ take 1 (drop 9 pkt) ++ take 2 (drop 24 pkt) ++ drop 20 pkt.

(** A datagram with the given UDP checksum. *)
Definition datagram `{Platform} (l d : sockaddr_in) (sum : Z) (data : list Z) : list Z :=
  let n := Z.of_nat (length data) in
  let ulen := store16 (htons (u16 (8 + n))) in
  [0x45; 0] ++ store16 (u16 (n + 28)) ++ [0; 0; 0; 0; TTL_OUT; IPPROTO_UDP] ++ ulen ++ sin_addr l ++ sin_addr d ++
  store16 (sin_port l) ++ store16 (sin_port d) ++ ulen ++ store16 sum ++ data.

Section Write.
Context `{HP : Platform}.

(** The header as fill_udp leaves it, with a checksum. *)
Definition overlay (l d : sockaddr_in) (sum : Z) (n : Z) : list Z :=
  let ulen := store16 (htons (u16 (8 + n))) in
  replicate 9 0 ++ [IPPROTO_UDP] ++ ulen ++ sin_addr l ++ sin_addr d ++
  store16 (sin_port l) ++ store16 (sin_port d) ++ ulen ++ store16 sum.

Lemma addr_parts s : in_ok s -> exists a b c e, sin_addr s = [a; b; c; e].
Proof. intros (Hl & _ & _). destruct (sin_addr s) as [|a [|b [|c [|e [|]]]]]; try done. by exists a, b, c, e. Qed.

Lemma htons_u16 z : is_u16 (htons z).
Proof. unfold htons. destruct big_endian; [|apply swap16_range]. unfold u16, is_u16, wrap. pose proof (Z.mod_pos_bound z (2 ^ 16)). lia. Qed.

(** One store into a buffer that begins with known bytes. *)
Ltac put := rewrite memcpy_is_Some by (cbn [length]; lia); cbn [mbind option_bind];
  match goal with |- context [take ?n ?l ++ ?bs ++ drop ?m ?l] =>
    let x := eval lazy beta iota delta [take drop app Z.to_nat Pos.to_nat Pos.iter_op Init.Nat.add Nat.add length] in (take n l ++ bs ++ drop m l) in change (take n l ++ bs ++ drop m l) with x end.

Lemma fill_udp_eq u l d (hdr data rest : list Z) :
  local u = SaIn l -> dest u = SaIn d -> in_ok l -> in_ok d -> length hdr = 28%nat ->
  fill_udp u (hdr ++ data ++ rest) (Z.of_nat (length data)) =
    (let n := Z.of_nat (length data) in
     if zerosum u =? 0 then
       sum ← in_cksum (overlay l d 0 n ++ data ++ rest) (n + 28);
       Some (overlay l d (if sum =? 0 then 0xffff else sum) n ++ data ++ rest, n + 28)
     else Some (overlay l d 0 n ++ data ++ rest, n + 28)).
Proof.
  intros El Ed Hl Hd Hh. unfold fill_udp. rewrite El, Ed. cbn [as_in].
  pose proof (memcpy_app [] hdr (data ++ rest) (replicate (Z.to_nat sizeof_udpiphdr) 0) 0 eq_refl) as E. rewrite Hh in E. specialize (E eq_refl).
  cbn [app] in E. rewrite E. clear E. cbn [mbind option_bind]. set (tl := data ++ rest).
  change (replicate (Z.to_nat sizeof_udpiphdr) 0) with [0;0;0;0;0;0;0;0;0;0;0;0;0;0;0;0;0;0;0;0;0;0;0;0;0;0;0;0].
  destruct (addr_parts l Hl) as (a0 & a1 & a2 & a3 & Ea). destruct (addr_parts d Hd) as (c0 & c1 & c2 & c3 & Ec). rewrite Ea, Ec.
  destruct (load16_store16 (sin_port l)) as (p0 & p1 & Ep & _); [apply Hl|]. destruct (load16_store16 (sin_port d)) as (q0 & q1 & Eq & _); [apply Hd|].
  unfold overlay. rewrite Ea, Ec, Ep, Eq. change (sizeof_udphdr + Z.of_nat (length data)) with (8 + Z.of_nat (length data)).
  destruct (load16_store16 (htons (u16 (8 + Z.of_nat (length data))))) as (u0 & u1 & Eu & Lu); [apply htons_u16|]. rewrite Eu. cbn [app].
  put. rewrite awrite_memcpy. put. put. put. put. put.
  change (aread16 _ 10) with (Some (load16 u0 u1)). cbn [mbind option_bind]. rewrite Lu, Eu. put.
  assert (store16 0 = [0; 0]) as E0 by (unfold store16; by destruct big_endian). rewrite E0.
  cbn [replicate app]. change sizeof_udpiphdr with 28. destruct (zerosum u =? 0); [|done].
  destruct (in_cksum _ _) as [sum|]; [|done]. cbn [mbind option_bind].
  assert (exists s0 s1, store16 sum = [s0; s1]) as (s0 & s1 & Es) by (unfold store16; destruct big_endian; by eexists _, _).
  rewrite Es. put. destruct (sum =? 0); [|by rewrite Es].
  assert (store16 65535 = [255; 255]) as -> by (unfold store16; by destruct big_endian). put. done.
Qed.

Lemma store16_parts w : exists s0 s1, store16 w = [s0; s1].
Proof. unfold store16. destruct big_endian; by eexists _, _. Qed.

Lemma aread_first (x : Z) r : aread (x :: r) 0 = Some x.
Proof. done. Qed.

Lemma fill_ip_eq l d sum data rest :
  let n := Z.of_nat (length data) in
  fill_ip (overlay l d sum n ++ data ++ rest) (n + 28) = Some (datagram l d sum data ++ rest).
Proof.
  intros n. unfold overlay, datagram. fold n. destruct (store16_parts (htons (u16 (8 + n)))) as (u0 & u1 & ->).
  destruct (store16_parts (u16 (n + 28))) as (s0 & s1 & Es). unfold fill_ip. rewrite Es.
  assert (store16 0 = [0; 0]) as -> by (unfold store16; by destruct big_endian).
  set (mid := sin_addr l ++ sin_addr d ++ store16 (sin_port l) ++ store16 (sin_port d) ++ [u0; u1] ++ store16 sum).
  assert (sin_addr l ++ sin_addr d ++ store16 (sin_port l) ++ store16 (sin_port d) ++ [u0; u1] ++ store16 sum ++ data = mid ++ data) as ->
    by (unfold mid; by rewrite <- !app_assoc).
  rewrite <- !app_assoc. set (tl := mid ++ data ++ rest). cbn [replicate app].
  rewrite aread_first. cbn [mbind option_bind]. rewrite awrite_memcpy. put.
  rewrite aread_first. cbn [mbind option_bind]. rewrite awrite_memcpy. put. rewrite awrite_memcpy. put. put. put. put.
  rewrite awrite_memcpy. put. done.
Qed.

(** A total that is a positive multiple of 65535 has the residue of a correct checksum. *)
Lemma residue_full t r : residue t r -> t mod 65535 = 0 -> 0 < t -> r = 65535.
Proof.
  intros (Hr & Hm & H0) Ht Hp. rewrite Ht in Hm. destruct (decide (r = 65535)); [done|]. rewrite Z.mod_small in Hm by lia. lia.
Qed.

Lemma overlay_bytes l d sum n : in_ok l -> in_ok d -> Forall is_byte (overlay l d sum n) /\ length (overlay l d sum n) = 28%nat.
Proof.
  intros (Hl & Hl' & _) (Hd & Hd' & _). unfold overlay. split.
  - rewrite !Forall_app. split_and!; auto using store16_bytes; by repeat constructor.
  - by rewrite !length_app, !store16_length, Hl, Hd.
Qed.

Lemma datagram_bytes l d sum data : in_ok l -> in_ok d -> Forall is_byte data ->
  Forall is_byte (datagram l d sum data) /\ length (datagram l d sum data) = (28 + length data)%nat.
Proof.
  intros (Hl & Hl' & _) (Hd & Hd' & _) Hb. unfold datagram. split.
  - rewrite !Forall_app. split_and!; auto using store16_bytes; by repeat constructor.
  - rewrite !length_app, !store16_length, Hl, Hd. cbn. lia.
Qed.

(** The words of the pseudo-header are those that fill_udp sums. *)
Lemma pseudo_sum l d sum data : in_ok l -> in_ok d -> is_u16 sum ->
  sumZ (words16 (pseudo (datagram l d sum data))) = sumZ (words16 (overlay l d 0 (Z.of_nat (length data)) ++ data)) + sum.
Proof.
  intros Hl Hd Hs. unfold pseudo, datagram, overlay. set (n := Z.of_nat (length data)).
  destruct (addr_parts l Hl) as (a0 & a1 & a2 & a3 & ->). destruct (addr_parts d Hd) as (c0 & c1 & c2 & c3 & ->).
  destruct (store16_parts (sin_port l)) as (p0 & p1 & ->). destruct (store16_parts (sin_port d)) as (q0 & q1 & ->).
  destruct (store16_parts (htons (u16 (8 + n)))) as (u0 & u1 & ->). destruct (store16_parts (u16 (n + 28))) as (v0 & v1 & ->).
  destruct (load16_store16 sum Hs) as (s0 & s1 & -> & Es).
  assert (store16 0 = [0; 0]) as -> by (unfold store16; by destruct big_endian).
  cbn [app replicate take drop words16 sumZ foldr]. unfold sumZ. unfold load16 in *. destruct big_endian; lia.
Qed.

Lemma cksum_verifies l d data rest : in_ok l -> in_ok d -> Forall is_byte data -> Z.of_nat (length data) <= 65507 ->
  let n := Z.of_nat (length data) in
  exists s, in_cksum (overlay l d 0 n ++ data ++ rest) (n + 28) = Some s /\
    let sum := if s =? 0 then 0xffff else s in
    0 < sum <= 65535 /\ let p := pseudo (datagram l d sum data) in in_cksum p (Z.of_nat (length p)) = Some 0.
Proof.
  intros Hl Hd Hb Hn n. destruct (overlay_bytes l d 0 n Hl Hd) as [Ob Ol].
  assert (Forall is_byte (overlay l d 0 n ++ data)) as Hob by (by apply Forall_app).
  assert (Z.of_nat (length (overlay l d 0 n ++ data)) = n + 28) as Hlen by (rewrite length_app, Ol; lia).
  destruct (in_cksum_residue (overlay l d 0 n ++ data) Hob) as (r & E & Hr); [lia|].
  exists (65535 - r). rewrite app_assoc, <- Hlen, in_cksum_prefix, E by (done || lia). split; [done|].
  pose proof Hr as (Hr1 & Hr2 & Hr3). cbv zeta. set (sum := if 65535 - r =? 0 then 65535 else 65535 - r).
  assert (0 < sum <= 65535) as Hs by (unfold sum; destruct (Z.eqb_spec (65535 - r) 0); lia). split; [done|].
  destruct (datagram_bytes l d sum data Hl Hd Hb) as [Db Dl]. set (p := pseudo _).
  assert (Forall is_byte p) as Hpb.
  { unfold p, pseudo. rewrite !Forall_app. split_and!; auto using Forall_take, Forall_drop. by repeat constructor. }
  assert (Z.of_nat (length p) <= 131074) as Hpl.
  { unfold p, pseudo. rewrite !length_app, !length_take, !length_drop, Dl. cbn [length]. lia. }
  destruct (in_cksum_residue p Hpb Hpl) as (r' & -> & Hr'). unfold p in Hr'. rewrite pseudo_sum in Hr' by (done || (unfold is_u16; lia)).
  fold n in Hr'. set (t := sumZ (words16 (overlay l d 0 n ++ data))) in *.
  assert (0 <= t) by (apply sumZ_nonneg, words16_range, Hob).
  rewrite (residue_full _ _ Hr'); [done| |lia].
  rewrite Z.add_mod, <- Hr2, <- Z.add_mod by lia. unfold sum. destruct (Z.eqb_spec (65535 - r) 0); [replace (r + 65535) with (2 * 65535) by lia|replace (r + (65535 - r)) with (1 * 65535) by lia]; by rewrite Z.mod_mul.
Qed.

(** ** The query *)
Lemma mjoin_cons {A} (x : list A) l : mjoin (x :: l) = x ++ mjoin l.
Proof. done. Qed.
Lemma put_all_eq (l : list (list Z)) pre mid : (length (mjoin l) <= length mid)%nat ->
  put_all (pre ++ mid) (Z.of_nat (length pre)) l =
  Some (pre ++ mjoin l ++ drop (length (mjoin l)) mid, Z.of_nat (length pre + length (mjoin l))).
Proof.
  revert pre mid. induction l as [|bs l IH]; intros pre mid Hl; cbn [put_all mjoin list_join].
  { cbn. by rewrite Nat.add_0_r. }
  rewrite mjoin_cons in *. rewrite length_app in Hl.
  rewrite <- (take_drop (length bs) mid) at 1. rewrite memcpy_app by (rewrite ?length_take; done || lia). cbn [mbind option_bind].
  rewrite app_assoc. replace (Z.of_nat (length pre) + Z.of_nat (length bs)) with (Z.of_nat (length (pre ++ bs))) by (rewrite length_app; lia).
  rewrite IH by (rewrite length_drop; lia). rewrite drop_drop, !length_app, <- !app_assoc. by rewrite <- Nat.add_assoc.
Qed.

Definition query : list Z := mjoin dns_fields.
Lemma query_length : length query = 36%nat.
Proof. unfold query, dns_fields. by rewrite !mjoin_cons, !length_app, !store16_length. Qed.
Lemma query_bytes : Forall is_byte query.
Proof.
  assert (Forall is_byte dns_name) as Hn by (apply (bool_decide_unpack _); by vm_compute).
  unfold query, dns_fields. rewrite !mjoin_cons, !Forall_app. split_and!; auto using store16_bytes.
Qed.
End Write.

(** ** The system: what was written to raw sockets, and to standard output *)
Class ProbeKernel (K : Type) `{!Kernel K} := {
  raw : K -> list (list Z);
  out : K -> list (list Z);
  pk_quiet : quiet (fun k => (raw k, out k));
  pk_malloc : forall k n, exists p k', kcall (Emalloc n) k = (Ok p, k') /\ (raw k', out k') = (raw k, out k);
  pk_sigaction : forall k signo act, exists old k', kcall (Esigaction signo act) k = (Ok old, k') /\ sa_handler old <> -1 /\
    (raw k', out k') = (raw k, out k);
  pk_sendto : forall k fd bs fl sa len, exists k', kcall (Esendto fd bs fl sa len) k = (Ok (Z.of_nat (length bs)), k') /\
    (raw k', out k') = (raw k ++ [bs], out k);
  pk_print : forall k s, exists k', kcall (Efputs s stdout) k = (Ok tt, k') /\ (raw k', out k') = (raw k, out k ++ [s]) }.

Section Probe.
Context `{HP : Platform} {K : Type} `{HK : !Kernel K} `{HR : !ProbeKernel K}.
Implicit Types (k : K) (g : globals) (u : udp).
Context (u : udp) (l d : sockaddr_in).
Context (Hlocal : local u = SaIn l) (Hdest : dest u = SaIn d) (Hlok : in_ok l) (Hdok : in_ok d) (Hquiet : verbose u = 0).

Definition seen k : list (list Z) * list (list Z) := (raw k, out k).

Lemma run_alarm n g k : exists k', (forall B (f : Z -> prog B), exists v, run (lib (Ealarm n) ≫= f) g k = run (f v) g k') /\ seen k' = seen k.
Proof.
  pose proof (quiet_lib _ pk_quiet _ (Ealarm n) k) as H. destruct (klib (Ealarm n) k) as [v k'] eqn:E. exists k'. split; [|done].
  intros B f. exists v. by rewrite run_bind, run_lib, E.
Qed.
Lemma run_print s g k : exists k', (forall B (f : unit -> prog B), run (call_ (Efputs s stdout) ≫= f) g k = run (f tt) g k') /\ seen k' = (raw k, out k ++ [s]).
Proof.
  destruct (pk_print k s) as (k' & E & H). exists k'. split; [|done]. intros B f. by rewrite run_bind, run_call_, E.
Qed.

(** The checksum of the query. *)
Definition query_sum : Z :=
  if zerosum u =? 0 then
    let s := default 0 (in_cksum (overlay l d 0 36 ++ query) 64) in if s =? 0 then 0xffff else s
  else 0.
Definition sent_query : list Z := datagram l d query_sum query.

(** A datagram with any user data: what is sent, and that its checksum is right. *)
Lemma run_udp_write (hdr data rest : list Z) g k :
  length hdr = 28%nat -> Forall is_byte data -> Z.of_nat (length data) <= 65507 ->
  exists sum k', (forall B (f : unit -> prog B), run (udp_write u (hdr ++ data ++ rest) (Z.of_nat (length data)) ≫= f) g k = run (f tt) g k') /\
    seen k' = (raw k ++ [datagram l d sum data], out k) /\
    sum = (if zerosum u =? 0 then
             let s := default 0 (in_cksum (overlay l d 0 (Z.of_nat (length data)) ++ data) (Z.of_nat (length data) + 28)) in if s =? 0 then 0xffff else s
           else 0) /\
    (if zerosum u =? 0 then 0 < sum <= 65535 /\ let p := pseudo (datagram l d sum data) in in_cksum p (Z.of_nat (length p)) = Some 0 else True).
Proof.
  intros Hh Hb Hn. set (n := Z.of_nat (length data)).
  destruct (cksum_verifies l d data rest Hlok Hdok Hb Hn) as (s & E & Hs & Hv). fold n in E, Hs, Hv.
  destruct (cksum_verifies l d data [] Hlok Hdok Hb Hn) as (s2 & E2 & _). fold n in E2. rewrite app_nil_r in E2.
  assert (s2 = s) as ->.
  { destruct (overlay_bytes l d 0 n Hlok Hdok) as [Ob Ol]. rewrite app_assoc in E.
    assert (n + 28 = Z.of_nat (length (overlay l d 0 n ++ data))) as Hlen by (rewrite length_app, Ol; lia).
    rewrite Hlen, in_cksum_prefix, <- Hlen, E2 in E; [by injection E|by apply Forall_app|lia]. }
  set (sum := if zerosum u =? 0 then (if s =? 0 then 0xffff else s) else 0).
  assert (fill_udp u (hdr ++ data ++ rest) n = Some (overlay l d sum n ++ data ++ rest, n + 28)) as Ef.
  { unfold n. rewrite (fill_udp_eq u l d) by done. fold n. cbv zeta. rewrite E. unfold sum. by destruct (zerosum u =? 0). }
  destruct (datagram_bytes l d sum data Hlok Hdok Hb) as [_ Dl].
  destruct (pk_sendto k (rawfd u) (datagram l d sum data) 0 (Some (dest u)) (destlen u)) as (k' & Es & Hk').
  exists sum, k'. split_and!.
  - intros B f. rewrite !run_bind. unfold udp_write. rewrite run_bind, run_mem, Ef. cbn iota beta. rewrite run_bind, run_mem. unfold n at 1 2.
    rewrite fill_ip_eq. cbn iota beta. rewrite run_bind, run_mem.
    assert (asub (datagram l d sum data ++ rest) 0 (n + 28) = Some (datagram l d sum data)) as ->.
    { apply (asub_app [] (datagram l d sum data) rest); [done|]. rewrite Dl. lia. }
    cbn iota beta. unfold Sendto, checked_count. rewrite run_bind, run_call, Es. cbn iota beta. by rewrite Z.eqb_refl.
  - exact Hk'.
  - rewrite E2. done.
  - unfold sum. by destruct (zerosum u =? 0).
Qed.

Lemma run_query g k : exists k', (forall B (f : unit -> prog B), run (send_dns_query u ≫= f) g k = run (f tt) g k') /\
  seen k' = (raw k ++ [sent_query], out k).
Proof.
  destruct (pk_malloc k (sizeof_udpiphdr + 100)) as (p & k1 & Em & Hk1). injection Hk1 as H1 H2.
  destruct (run_udp_write (replicate 28 0) query (drop 36 (replicate 100 0)) g k1) as (sum & k' & Ew & Hs & Hsum & _);
    [done|apply query_bytes|rewrite query_length; lia|]. rewrite query_length in Hsum.
  exists k'. split.
  - intros B f. rewrite run_bind. unfold send_dns_query, Malloc, checked. rewrite run_bind, (run_bind (call _)), run_call, Em. cbn iota beta zeta.
    rewrite run_ret. rewrite run_bind, run_mem.
    change (replicate (Z.to_nat (sizeof_udpiphdr + 100)) 0) with (replicate 28 0 ++ replicate 100 0).
    pose proof (put_all_eq dns_fields (replicate 28 0) (replicate 100 0)) as E. fold query in E. rewrite query_length, !length_replicate in E.
    specialize (E ltac:(lia)). change (Z.of_nat 28) with sizeof_udpiphdr in E. rewrite E. cbn iota beta zeta.
    change (Z.of_nat (28 + 36) - sizeof_udpiphdr) with 36. rewrite query_length in Ew. change (Z.of_nat 36) with 36 in Ew. rewrite Ew, Hquiet. done.
  - rewrite Hs, H1, H2. unfold sent_query, query_sum. by rewrite Hsum.
Qed.

Definition timeout_line : list Z := str "timeout" ++ [10].
Definition verdict (ui_sum : Z) : list Z := str (if ui_sum =? 0 then "UDP checksums off" else "UDP checksums on") ++ [10].
Definition is_frame (c : capture) : bool := match c with Frame _ => true | _ => false end.
Fixpoint alarms (ev : list capture) : nat := match ev with [] => 0 | Alarm :: ev => S (alarms ev) | _ :: ev => alarms ev end.

Section Answer.
Context (frame ui : list Z) (sum : Z).
Context (Hframe : forall g k, run (on_frame u frame) g k = (Done ui, g, k)) (Hsum : aread16 ui 26 = Some sum).

Lemma run_waiting pre ev nsent timeout g k :
  Forall (fun c => is_frame c = false) pre -> daemon_proc g = 0 -> (1 <= nsent <= 3)%nat ->
  let a := alarms pre in let n := (a `min` (3 - nsent))%nat in
  exists g' k', run (waiting u (Z.of_nat nsent) timeout (pre ++ Frame frame :: ev)) g k =
    (if (nsent + a <=? 3)%nat then Done tt else Halted (Exit 1), g', k') /\
    seen k' = (raw k ++ replicate n sent_query,
               out k ++ replicate n timeout_line ++ (if (nsent + a <=? 3)%nat then [verdict sum] else [])).
Proof.
  intros Hpre. revert nsent timeout g k. induction Hpre as [|c pre Hc Hpre IH]; intros nsent timeout g k Hd Hn.
  - cbn [alarms app waiting Nat.min replicate]. rewrite Nat.add_0_r. assert ((nsent <=? 3)%nat = true) as -> by (apply Nat.leb_le; lia).
    destruct (run_alarm 0 g k) as (k1 & Ea & H1). destruct (run_print (verdict sum) g k1) as (k2 & Ep & H2). exists g, k2.
    injection H1 as H1 H1'. rewrite run_bind, Hframe. cbn iota beta. destruct (Ea _ (fun _ => report u ui)) as [x ->]. split.
    + unfold report. rewrite run_bind, run_mem, Hsum. cbn iota beta. fold (verdict sum). by rewrite Ep, Hquiet.
    + rewrite H2, H1, H1', app_nil_r. done.
  - destruct c as [|bs|]; [by apply IH|done|]. cbn [app waiting alarms]. cbv zeta.
    destruct (Z.leb_spec 3 (Z.of_nat nsent)) as [H3|H3].
    + assert (nsent = 3%nat) as -> by lia. rewrite Nat.min_0_r. destruct (run_err_quit_quiet (A := unit) seen (str "no response") g k pk_quiet Hd) as (g' & k' & E & H).
      exists g', k'. split; [exact E|]. rewrite H. cbn. by rewrite !app_nil_r.
    + destruct (run_print timeout_line g k) as (k1 & Ep & H1). destruct (run_query g k1) as (k2 & Eq & H2).
      destruct (run_alarm (timeout * 2) g k2) as (k3 & Ea & H3'). injection H1 as H1 H1'. injection H2 as H2 H2'. injection H3' as H3' H3''.
      destruct (IH (S nsent) (timeout * 2) g k3 Hd) as (g' & k' & E & Hs); [lia|]. exists g', k'.
      fold timeout_line. rewrite Ep, Eq. destruct (Ea _ (fun _ => waiting u (Z.of_nat nsent + 1) (timeout * 2) (pre ++ Frame frame :: ev))) as [x ->].
      replace (Z.of_nat nsent + 1) with (Z.of_nat (S nsent)) by lia. rewrite E, Hs, H3', H3'', H2, H2', H1, H1'.
      replace (nsent + S (alarms pre))%nat with (S nsent + alarms pre)%nat by lia. split; [done|].
      replace (S (alarms pre) `min` (3 - nsent))%nat with (S (alarms pre `min` (3 - S nsent))) by lia. cbn [replicate].
      by rewrite <- !app_assoc.
Qed.

Lemma run_test handler pre ev g k :
  Forall (fun c => is_frame c = false) pre -> daemon_proc g = 0 ->
  let a := alarms pre in
  exists g' k', run (test_udp handler u (pre ++ Frame frame :: ev)) g k = (if (a <? 3)%nat then Done tt else Halted (Exit 1), g', k') /\
    raw k' = raw k ++ replicate (S a `min` 3) sent_query /\
    out k' = out k ++ replicate (a `min` 2) timeout_line ++ (if (a <? 3)%nat then [verdict sum] else []).
Proof.
  intros Hpre Hd a. destruct (pk_sigaction k SIGALRM (Sigaction handler [] 0)) as (old & k1 & Es & Hne & H1). injection H1 as H1 H1'.
  destruct (run_query g k1) as (k2 & Eq & H2). injection H2 as H2 H2'. destruct (run_alarm 3 g k2) as (k3 & Ea & H3). injection H3 as H3 H3'.
  destruct (run_waiting pre ev 1 3 g k3 Hpre Hd ltac:(lia)) as (g' & k' & E & Hs). injection Hs as Hs Hs'. exists g', k'. split_and!.
  - unfold test_udp. rewrite run_bind. unfold Signal, signal. rewrite run_bind, run_bind, run_call. change (if SIGALRM =? SIGALRM then 0 else SA_RESTART) with 0.
    rewrite Es. cbn iota beta. rewrite run_ret. cbn iota beta. destruct (Z.eqb_spec (sa_handler old) (-1)); [done|]. rewrite run_ret. cbn iota beta.
    rewrite Eq. destruct (Ea _ (fun _ => waiting u 1 3 (pre ++ Frame frame :: ev))) as [x ->]. change (waiting u 1 3) with (waiting u (Z.of_nat 1) 3). rewrite E. done.
  - rewrite Hs, H3, H2, H1, <- app_assoc. done.
  - rewrite Hs', H3', H2', H1'. done.
Qed.
End Answer.
End Probe.

(** ** An answer on an Ethernet *)
Lemma lt_size_small a b : 0 <= a < 2 ^ 63 -> 0 <= b < 2 ^ 63 -> lt_size a b = (a <? b).
Proof. intros. unfold lt_size, u64, wrap. change (2 ^ 63) with 9223372036854775808 in *. change (2 ^ 64) with 18446744073709551616. by rewrite !Z.mod_small by lia. Qed.

Lemma run_on_frame `{HP : Platform} {K : Type} `{HK : !Kernel K} u (mac hdr rest : list Z) g (k : K) :
  datalink u = DLT_EN10MB -> length mac = 12%nat -> length hdr = 20%nat -> Forall is_byte hdr ->
  hdr !! 0%nat = Some 0x45 -> hdr !! 9%nat = Some IPPROTO_UDP -> in_cksum hdr 20 = Some 0 ->
  (8 <= length rest)%nat -> Z.of_nat (length rest) < 2 ^ 62 ->
  run (on_frame u (mac ++ [8; 0] ++ hdr ++ rest)) g k = (Done (take 10 hdr ++ [0; 0] ++ drop 12 hdr ++ rest), g, k).
Proof.
  intros Hdl Hm Hh Hb H0 H9 Hc Hr Hmax. change (2 ^ 62) with 4611686018427387904 in Hmax. unfold on_frame. rewrite Hdl. cbn [DLT_NULL DLT_EN10MB Z.eqb Pos.eqb].
  assert (aread16 (mac ++ [8; 0] ++ hdr ++ rest) 12 = Some (load16 8 0)) as E1.
  { destruct mac as [|m0 [|m1 [|m2 [|m3 [|m4 [|m5 [|m6 [|m7 [|m8 [|m9 [|m10 [|m11 [|]]]]]]]]]]]]]; done. }
  change (1 =? 0) with false. change (1 =? 1) with true. cbn iota. rewrite run_bind, run_mem, E1. cbn iota beta.
  assert (ntohs (load16 8 0) = ETHERTYPE_IP) as -> by (unfold ntohs, htons, load16; destruct big_endian; by vm_compute).
  rewrite Z.eqb_refl. cbn [negb]. cbn iota.
  assert (drop (Z.to_nat 14) (mac ++ [8; 0] ++ hdr ++ rest) = hdr ++ rest) as ->.
  { change (Z.to_nat 14) with 14%nat. rewrite app_assoc, drop_app_ge by (rewrite length_app, Hm; cbn; lia). rewrite length_app, Hm. done. }
  replace (Z.of_nat (length (mac ++ [8; 0] ++ hdr ++ rest)) - 14) with (20 + Z.of_nat (length rest)) by (rewrite !length_app, Hm, Hh; cbn; lia).
  unfold udp_check, sizeof_ip, sizeof_udphdr. rewrite lt_size_small by (change (2 ^ 63) with 9223372036854775808; lia).
  destruct (Z.ltb_spec (20 + Z.of_nat (length rest)) (20 + 8)); [lia|].
  assert (aread (hdr ++ rest) 0 = Some 0x45) as -> by (apply (aread_lookup hdr rest 0 _ H0)). rewrite run_bind, run_mem. cbn iota beta zeta.
  change (negb (0x45 ≫ 4 =? IPVERSION)) with false. change (Z.land 0x45 15 ≪ 2) with 20. change (lt_size 20 20) with false. cbn iota.
  rewrite lt_size_small by (change (2 ^ 63) with 9223372036854775808; lia). destruct (Z.ltb_spec (20 + Z.of_nat (length rest)) (20 + 8)); [lia|].
  pose proof (in_cksum_prefix hdr rest Hb ltac:(lia)) as Ep. rewrite Hh in Ep. change (Z.of_nat 20) with 20 in Ep. rewrite run_bind, run_mem, Ep, Hc. cbn iota beta.
  rewrite run_bind, run_mem. assert (store16 0 = [0; 0]) as -> by (unfold store16; by destruct big_endian).
  assert (memcpy (hdr ++ rest) 10 [0; 0] = Some (take 10 hdr ++ [0; 0] ++ drop 12 hdr ++ rest)) as ->.
  { rewrite <- (take_drop 10 hdr) at 1. rewrite <- app_assoc. replace (drop 10 hdr ++ rest) with (take 2 (drop 10 hdr) ++ drop 12 hdr ++ rest).
    - apply memcpy_app; [rewrite length_take; lia|by rewrite length_take, length_drop, Hh].
    - rewrite app_assoc. f_equal. change (drop 12 hdr) with (drop (10 + 2) hdr). by rewrite <- drop_drop, take_drop. }
  cbn iota beta. change (negb (0 =? 0)) with false. cbn iota. rewrite run_bind, run_mem.
  assert (aread (take 10 hdr ++ [0; 0] ++ drop 12 hdr ++ rest) 9 = Some IPPROTO_UDP) as ->.
  { apply (aread_lookup (take 10 hdr) _ 9). by rewrite lookup_take_lt by lia. }
  done.
Qed.

Lemma ui_sum_at `{HP : Platform} (hdr rest : list Z) sum : length hdr = 20%nat -> (8 <= length rest)%nat -> aread16 rest 6 = Some sum ->
  aread16 (take 10 hdr ++ [0; 0] ++ drop 12 hdr ++ rest) 26 = Some sum.
Proof.
  intros Hh Hr. rewrite !app_assoc. set (p := (take 10 hdr ++ [0; 0]) ++ drop 12 hdr).
  assert (length p = 20%nat) as Hp by (unfold p; rewrite !length_app, length_take, length_drop, Hh; done).
  assert (forall i, 0 <= i -> aread (p ++ rest) (20 + i) = aread rest i) as Ha.
  { intros i Hi. unfold aread. destruct (Z.ltb_spec (20 + i) 0); [lia|]. destruct (Z.ltb_spec i 0); [lia|].
    rewrite lookup_app_r by (rewrite Hp; lia). f_equal. rewrite Hp. lia. }
  unfold aread16. change 26 with (20 + 6). rewrite (Ha 6), <- Z.add_assoc, (Ha (6 + 1)) by lia. done.
Qed.

(** ** The theorems *)
Section Theorems.
Context `{HP : Platform} {K : Type} `{HK : !Kernel K} `{HR : !ProbeKernel K}.

(** C28. What udp_write sends is an IP datagram with the addresses, ports, lengths and
    data it was given, and its UDP checksum is right: the receiver's sum over the
    pseudo-header, the UDP header and the data is zero, for user data of any length
    that fits a datagram, odd lengths included; the checksum field is not zero,
    which would mean that there is no checksum.  With the -0 option it is zero. *)
Theorem udp_write_verifies (u : udp) (l d : sockaddr_in) (hdr data rest : list Z) (g : globals) (k : K) :
  local u = SaIn l -> dest u = SaIn d -> in_ok l -> in_ok d ->
  length hdr = 28%nat -> Forall is_byte data -> Z.of_nat (length data) <= 65507 ->
  exists sum k', run (udp_write u (hdr ++ data ++ rest) (Z.of_nat (length data))) g k = (Done tt, g, k') /\
    raw k' = raw k ++ [datagram l d sum data] /\
    (if zerosum u =? 0 then 0 < sum <= 65535 /\ let p := pseudo (datagram l d sum data) in in_cksum p (Z.of_nat (length p)) = Some 0
     else sum = 0).
Proof.
  intros Hl Hd Hlok Hdok Hh Hb Hn. destruct (run_udp_write u l d Hl Hd Hlok Hdok hdr data rest g k Hh Hb Hn) as (sum & k' & E & Hs & Esum & Hv).
  exists sum, k'. split_and!; [|by injection Hs|by destruct (zerosum u =? 0)].
  specialize (E unit Ret). rewrite run_bind in E. destruct (run (udp_write _ _ _) g k) as [[[[]|h] g1] k1]; rewrite ?run_ret in E; by simplify_eq.
Qed.

(** The probe sends its query once and again after each of the first two alarms,
    always the same datagram.  When the answer (an IP datagram without options
    whose header checksum verifies, in an Ethernet frame) is captured before the
    third alarm, the program prints "UDP checksums off" if the checksum field of the
    answer is zero and "UDP checksums on" if it is not; at the third alarm it gives
    up. *)
Theorem test_udp_verdict (u : udp) (l d : sockaddr_in) handler (pre ev : list capture) (mac hdr rest : list Z) (sum : Z) (g : globals) (k : K) :
  local u = SaIn l -> dest u = SaIn d -> in_ok l -> in_ok d -> verbose u = 0 -> datalink u = DLT_EN10MB -> daemon_proc g = 0 ->
  Forall (fun c => is_frame c = false) pre ->
  length mac = 12%nat -> length hdr = 20%nat -> Forall is_byte hdr -> hdr !! 0%nat = Some 0x45 -> hdr !! 9%nat = Some IPPROTO_UDP ->
  in_cksum hdr 20 = Some 0 -> (8 <= length rest)%nat -> Z.of_nat (length rest) < 2 ^ 62 -> aread16 rest 6 = Some sum ->
  let a := alarms pre in
  exists g' k', run (test_udp handler u (pre ++ Frame (mac ++ [8; 0] ++ hdr ++ rest) :: ev)) g k =
      (if (a <? 3)%nat then Done tt else Halted (Exit 1), g', k') /\
    raw k' = raw k ++ replicate (S a `min` 3) (sent_query u l d) /\
    out k' = out k ++ replicate (a `min` 2) timeout_line ++ (if (a <? 3)%nat then [verdict sum] else []).
Proof.
  intros Hl Hd Hlok Hdok Hv Hdl Hdp Hpre Hm Hh Hb H0 H9 Hc Hr Hmax Hsum.
  apply (run_test u l d Hl Hd Hlok Hdok Hv (mac ++ [8; 0] ++ hdr ++ rest) (take 10 hdr ++ [0; 0] ++ drop 12 hdr ++ rest) sum); [|by apply ui_sum_at|done|done].
  intros g0 k0. by apply run_on_frame.
Qed.
End Theorems.

(** ** A system *)
Record line_log := Line_log { l_raw : list (list Z); l_out : list (list Z) }.

#[export] Instance line_log_kernel : Kernel line_log := {|
  kcall X e :=
    match e in sysE X return line_log -> res X * line_log with
    | Emalloc _ => fun k => (Ok 4096, k)
    | Esigaction _ _ => fun k => (Ok (Sigaction 0 [] 0), k)
    | Esendto _ bs _ _ _ => fun k => (Ok (Z.of_nat (length bs)), Line_log (l_raw k ++ [bs]) (l_out k))
    | Efputs s fp => fun k => (Ok tt, if fp =? stdout then Line_log (l_raw k) (l_out k ++ [s]) else k)
    | Efflush _ => fun k => (Ok tt, k)
    | _ => fun k => (Err ENOSYS, k)
    end;
  klib X e k := ((@klib unit (failing_kernel ENOSYS) _ e tt).1, k) |}.

#[export] Instance line_log_probe : ProbeKernel line_log.
Proof.
  refine {| raw := l_raw; out := l_out |}.
  - by split.
  - intros k n. by eexists _, k.
  - intros k signo act. by eexists _, k.
  - intros k fd bs fl sa len. by eexists.
  - intros k s. by eexists.
Defined.

#[local] Existing Instance x86_64.
Definition here : sockaddr_in := SockaddrIn (swap16 4000) [10; 0; 0; 1].
Definition there : sockaddr_in := SockaddrIn (swap16 53) [10; 0; 0; 2].
Definition probe : udp := Udp (SaIn there) 16 (SaIn here) 16 3 DLT_EN10MB 0 0.

Lemma in_ok_here : in_ok here.
Proof. split; [done|]. split; [by repeat constructor|by split]. Qed.
Lemma in_ok_there : in_ok there.
Proof. split; [done|]. split; [by repeat constructor|by split]. Qed.

(** Three bytes of data. *)
Lemma udp_write_verifies_witness :
  exists sum k', run (udp_write probe (replicate 28 7 ++ [104; 105; 33] ++ [9]) 3) globals0 (Line_log [] []) = (Done tt, globals0, k') /\
    raw k' = [] ++ [datagram here there sum [104; 105; 33]] /\
    (0 < sum <= 65535 /\ let p := pseudo (datagram here there sum [104; 105; 33]) in in_cksum p (Z.of_nat (length p)) = Some 0).
Proof.
  refine (udp_write_verifies probe here there (replicate 28 7) [104; 105; 33] [9] globals0 (Line_log [] []) eq_refl eq_refl in_ok_here in_ok_there eq_refl _ _);
    [by repeat constructor|cbn; lia].
Defined.

(** An answer with a checksum. *)
Definition answer_hdr : list Z := [0x45; 0; 0; 29; 0; 1; 0; 0; 64; 17; 102; 205; 10; 0; 0; 2; 10; 0; 0; 1].
Definition answer_udp : list Z := [0; 53; 15; 160; 0; 9; 0x12; 0x34; 0].

Lemma test_udp_verdict_witness :
  exists g' k', run (test_udp 7 probe ([Nothing; Alarm] ++ Frame (replicate 12 1 ++ [8; 0] ++ answer_hdr ++ answer_udp) :: [])) globals0 (Line_log [] []) =
      (Done tt, g', k') /\
    raw k' = [] ++ replicate 2 (sent_query probe here there) /\
    out k' = [] ++ replicate 1 timeout_line ++ [verdict 0x3412].
Proof.
  refine (test_udp_verdict probe here there 7 [Nothing; Alarm] [] (replicate 12 1) answer_hdr answer_udp 0x3412 globals0 (Line_log [] [])
    eq_refl eq_refl in_ok_here in_ok_there eq_refl eq_refl eq_refl _ eq_refl eq_refl _ eq_refl eq_refl _ _ _ _).
  - by repeat constructor.
  - by repeat constructor.
  - by vm_compute.
  - cbn. lia.
  - by vm_compute.
  - by vm_compute.
Defined.

(** Two defects of udp_read.  The checksum is looked for behind an IP header of 20
    bytes, whatever the length of the header is: for an answer with IP options and
    without a checksum the program reads the destination port and prints that
    checksums are on.  And lengths are compared as unsigned numbers: a frame shorter
    than the link header has a negative length, passes the test, and is read behind
    its end. *)
Definition options_hdr : list Z := [0x46; 0; 0; 33; 0; 1; 0; 0; 64; 17; 101; 201; 10; 0; 0; 2; 10; 0; 0; 1; 0; 0; 0; 0].
Theorem udp_read_defects :
  let udp_without_sum := [0; 53; 15; 160; 0; 9; 0; 0; 0] in
  out (run (test_udp 7 probe [Frame (replicate 12 1 ++ [8; 0] ++ options_hdr ++ udp_without_sum)]) globals0 (Line_log [] [])).2 = [verdict 1] /\
  (run (on_frame (Udp (SaIn there) 16 (SaIn here) 16 3 DLT_NULL 0 0) [0; 0; 0]) globals0 (Line_log [] [])).1.1 = Halted Fault.
Proof. split; by vm_compute. Qed.
End UdpCksumProofs.
