(* ===== verification/ThreadLine.v ===== *)
(** * Line readers for several threads

    threads/readline.c keeps the read buffer of readline in thread-specific data
    instead of static variables; server/readline_r.c keeps it in a structure of
    the caller; socket/thread_readline.c is the owner's version of the first.

    A structure Rline is a value that is passed along.  The data that
    pthread_setspecific has bound to the key rl_key is a map from threads to
    their structures ([tsd_map]); [self] is the thread that runs. *)
From stdpp Require Import base list numbers strings gmap.
From S2P Require Import Prelude InetAddr Sys Error Wrap StreamIO.

Module ThreadLine.

(** [rl_bufptr] is an index into [rl_buf]; [None]: it points nowhere. *)
Record Rline := Rl { rl_cnt : Z; rl_bufptr : option Z; rl_buf : list Z }.
Abbreviation tsd_map := (gmap Z Rline).

(** ** threads/readline.c *)

(** From the label [again]: 1 when rl_buf was refilled, else the return value. *)
Fixpoint refill (size : Z) (fuel : nat) (fd : Z) (r : Rline) : prog (Z * Rline) :=
  match fuel with
  | O => Halt Spin
  | S f =>
      x ← call (Eread fd size);
      match x with
      | Err _ =>
          e ← get_errno;
          let r1 := Rl (-1) (rl_bufptr r) (rl_buf r) in
          if e =? EINTR then refill size f fd r1 else Ret (-1, r1)
      | Ok bs =>
          buf ← mem (memcpy (rl_buf r) 0 bs);
          let cnt := Z.of_nat (length bs) in
          if cnt =? 0 then Ret (0, Rl 0 (rl_bufptr r) buf) else Ret (1, Rl cnt (Some 0) buf)
      end
  end.

(** tsd->rl_cnt--; *ptr = *tsd->rl_bufptr++; return 1 *)
Definition take_byte (r : Rline) : prog (Z * Z * Rline) :=
  p ← mem (rl_bufptr r);
  c ← mem (aread (rl_buf r) p);
  Ret (1, c, Rl (rl_cnt r - 1) (Some (p + 1)) (rl_buf r)).

Definition my_read_t (size : Z) (fuel : nat) (fd : Z) (tsd : Rline) : prog (Z * Z * Rline) :=
  if rl_cnt tsd <=? 0 then
    '(rc, r1) ← refill size fuel fd tsd;
    if rc =? 1 then take_byte r1 else Ret (rc, 0, r1)
  else take_byte tsd.

(** The for loop, with [k] rounds left. *)
Fixpoint line_loop (fuel k : nat) (fd : Z) (tsd : Rline) (buf : list Z) (ptr n : Z) : prog (Z * list Z * Rline) :=
  match k with
  | O => buf1 ← mem (awrite buf ptr 0); Ret (n, buf1, tsd)
  | S k' =>
      '(rc, c, t1) ← my_read_t MAXLINE fuel fd tsd;
      if rc =? 1 then
        buf1 ← mem (awrite buf ptr c);
        if c =? 10 then buf2 ← mem (awrite buf1 (ptr + 1) 0); Ret (n, buf2, t1)
        else line_loop fuel k' fd t1 buf1 (ptr + 1) (n + 1)
      else if rc =? 0 then buf1 ← mem (awrite buf ptr 0); Ret (n - 1, buf1, t1)
      else Ret (-1, buf, t1)
  end.

(** Calloc(1, sizeof(Rline)). *)
Definition zero_rline : Rline := Rl 0 None (replicate 4096 0).
Definition sizeof_Rline : Z := 4112.
Definition rl_once : Z := 1.
Definition rl_key : Z := 2.
Definition readline_once_fn : Z := 3.

Definition readline_t (self : Z) (fuel : nat) (fd : Z) (vptr : list Z) (maxlen : Z) (tsds : tsd_map) : prog (Z * list Z * tsd_map) :=
  _ ← Pthread_once rl_once readline_once_fn;
  tsd ← (match tsds !! self with
         | Some t => Ret t
         | None => p ← Calloc 1 sizeof_Rline; _ ← Pthread_setspecific rl_key p; Ret zero_rline
         end);
  '(n, buf, t1) ← line_loop fuel (Z.to_nat (maxlen - 1)) fd tsd vptr 0 1;
  Ret (n, buf, <[self := t1]> tsds).

Definition Readline_t (self : Z) (fuel : nat) (fd : Z) (ptr : list Z) (maxlen : Z) (tsds : tsd_map) : prog (Z * list Z * tsd_map) :=
  '(n, buf, t) ← readline_t self fuel fd ptr maxlen tsds;
  if n <? 0 then err_sys (str "readline error") else Ret (n, buf, t).

(** ** server/readline_r.c *)
Record Rline_r := Rlr { read_fd : Z; read_maxlen : Z; rl : Rline }.

(** The caller's buffer is passed beside the structure; what rl_buf holds is not set. *)
Definition readline_rinit (fd maxlen : Z) (r : Rline_r) : Rline_r := Rlr fd maxlen (Rl 0 (Some 0) (rl_buf (rl r))).

Definition my_read_r (fuel : nat) (fd : Z) (r : Rline) : prog (Z * Z * Rline) :=
  '(rc, c, r1) ← my_read_t MAXLINE fuel fd r;
  Ret (rc, Z.land c 255, r1).

(** The for loop; at the end of the file the loop is left, unless nothing was read. *)
Fixpoint loop_r (fuel k : nat) (fd : Z) (r : Rline) (buf : list Z) (ptr n : Z) : prog (Z * list Z * Rline) :=
  match k with
  | O => buf1 ← mem (awrite buf ptr 0); Ret (n, buf1, r)
  | S k' =>
      '(rc, c, r1) ← my_read_r fuel fd r;
      if rc =? 1 then
        buf1 ← mem (awrite buf ptr c);
        if c =? 10 then buf2 ← mem (awrite buf1 (ptr + 1) 0); Ret (n, buf2, r1)
        else loop_r fuel k' fd r1 buf1 (ptr + 1) (n + 1)
      else if rc =? 0 then
        if n =? 1 then Ret (0, buf, r1)
        else buf1 ← mem (awrite buf ptr 0); Ret (n, buf1, r1)
      else Ret (-1, buf, r1)
  end.

Definition readline_r (fuel : nat) (r : Rline_r) (buf : list Z) : prog (Z * list Z * Rline_r) :=
  '(n, b, l) ← loop_r fuel (Z.to_nat (read_maxlen r - 1)) (read_fd r) (rl r) buf 0 1;
  Ret (n, b, Rlr (read_fd r) (read_maxlen r) l).

Definition Readline_r (fuel : nat) (r : Rline_r) (buf : list Z) : prog (Z * list Z * Rline_r) :=
  '(n, b, r1) ← readline_r fuel r buf;
  if n =? -1 then err_sys (str "readline_r error") else Ret (n, b, r1).

(** ** socket/thread_readline.c *)

(** A pointer that was assigned, or not. *)
Fixpoint own_loop (fuel k : nat) (fd : Z) (tsd : option Rline) (buf : list Z) (pstr cnt : Z) : prog (Z * list Z * option Rline) :=
  match k with
  | O => buf1 ← mem (awrite buf pstr 0); Ret (cnt, buf1, tsd)
  | S k' =>
      t ← mem tsd;
      '(result, c, t1) ← my_read_t MAXLINE fuel fd t;
      if result =? 1 then
        buf1 ← mem (awrite buf pstr c);
        if c =? 10 then buf2 ← mem (awrite buf1 (pstr + 1) 0); Ret (cnt + 1, buf2, Some t1)
        else own_loop fuel k' fd (Some t1) buf1 (pstr + 1) (cnt + 1)
      else if result =? 0 then buf1 ← mem (awrite buf pstr 0); Ret (0, buf1, Some t1)
      else Ret (-1, buf, Some t1)
  end.

(** [garbage]: what malloc left in the block.  tsd is assigned only when the thread has no
    structure yet. *)
Definition thread_readline (self : Z) (garbage : Rline) (fuel : nat) (fd : Z) (buffer : list Z) (maxlen : Z) (tsds : tsd_map)
  : prog (Z * list Z * tsd_map) :=
  _ ← lib (Epthread (POnce rl_once readline_once_fn));
  tsd ← (match tsds !! self with
         | Some _ => Ret None
         | None =>
             r ← call (Emalloc sizeof_Rline);
             match r with
             | Ok p => _ ← lib (Epthread (PSetspecific rl_key p)); Ret (Some garbage)
             | Err _ => Halt Fault                                 (* the null pointer is used *)
             end
         end);
  '(n, buf, t1) ← own_loop fuel (Z.to_nat (maxlen - 1)) fd tsd buffer 0 0;
  Ret (n, buf, match t1 with Some t => <[self := t]> tsds | None => tsds end).
End ThreadLine.
