(* ===== verification/ThreadLineProofs.v ===== *)
(** * Each thread reads its own lines

    The thread-specific readline simulates the library's readline, with the
    structure of the thread in the place of the static variables; so every call
    takes one line off the stream of its thread, and calls of other threads,
    which have other structures and other descriptors, do not change that
    stream. *)
From stdpp Require Import base list numbers strings gmap.
From S2P Require Import Prelude InetAddr Sys Error Wrap StreamIO StreamProofs ThreadLine.

Module ThreadLineProofs.
Import ThreadLine.

(** ** The simulation *)

(** The static variables of lib/readline.c with the contents of a structure. *)
Definition load (r : Rline) (g : globals) : globals := set_reader (rl_cnt r) (rl_bufptr r) (rl_buf r) g.

Section Sim.
Context {K : Type} `{HK : !Kernel K}.
Implicit Types (k : K) (g : globals).

(** Two results that agree, the second with the structure as a value. *)
Definition sim {A} (x : outcome A * globals * K) (y : outcome (A * Rline) * globals * K) : Prop :=
  match x, y with
  | (Done a, g1, k1), (Done (a', r), g2, k2) => a = a' /\ g1 = load r g2 /\ k1 = k2
  | (Halted h, _, k1), (Halted h', _, k2) => h = h' /\ k1 = k2
  | _, _ => False
  end.

Lemma sim_bind {A B} (p : prog A) (q : prog (A * Rline)) (f : A -> prog B) (f' : A * Rline -> prog (B * Rline)) r g k :
  sim (run p (load r g) k) (run q g k) ->
  (forall a r' g' k', sim (run (f a) (load r' g') k') (run (f' (a, r')) g' k')) ->
  sim (run (p ≫= f) (load r g) k) (run (q ≫= f') g k).
Proof.
  intros Hp Hf. rewrite !run_bind. unfold sim in Hp. destruct (run p (load r g) k) as [[[a|h] g1] k1], (run q g k) as [[[[a' r']|h'] g2] k2]; try done.
  - destruct Hp as (<- & -> & <-). apply Hf.
Qed.

Lemma sim_mem {A B} (o : option A) (f : A -> prog B) (f' : A -> prog (B * Rline)) r g k :
  (forall a, sim (run (f a) (load r g) k) (run (f' a) g k)) -> sim (run (mem o ≫= f) (load r g) k) (run (mem o ≫= f') g k).
Proof. intros H. rewrite !run_bind, !run_mem. destruct o; [apply H|done]. Qed.

Lemma sim_refill size fuel fd r g k : sim (run (my_read_again size fuel fd) (load r g) k) (run (refill size fuel fd r) g k).
Proof.
  revert r g k. induction fuel as [|f IH]; intros r g k; [done|]. cbn [my_read_again refill]. rewrite !run_bind, !run_call.
  destruct (kcall (Eread fd size) k) as [[bs|e] k1]; cbn iota beta.
  - cbn [run]. rewrite !run_bind, !run_mem. change (read_buf (load r g)) with (rl_buf r). destruct (memcpy (rl_buf r) 0 bs) as [buf|]; [|done].
    cbn iota beta zeta. destruct (_ =? 0); done.
  - cbn [run]. rewrite run_bind, run_get_errno. cbn iota beta zeta. cbn [errno set_errno load set_reader].
    destruct (e =? EINTR); [|done]. apply (IH (Rl (-1) (rl_bufptr r) (rl_buf r)) (set_errno e g) k1).
Qed.

Lemma sim_take r g k : sim (run my_read_take (load r g) k) (run (take_byte r) g k).
Proof.
  unfold my_read_take, take_byte. cbn [run]. rewrite !run_bind, !run_mem. change (read_ptr (load r g)) with (rl_bufptr r).
  destruct (rl_bufptr r) as [p|]; [|done]. cbn iota beta. rewrite !run_bind, !run_mem. change (read_buf (load r g)) with (rl_buf r).
  by destruct (aread (rl_buf r) p).
Qed.

Lemma sim_my_read size fuel fd r g k : sim (run (my_read size fuel fd) (load r g) k) (run (my_read_t size fuel fd r) g k).
Proof.
  unfold my_read, my_read_t. cbn [run]. change (read_cnt (load r g)) with (rl_cnt r). destruct (rl_cnt r <=? 0); [|apply sim_take].
  apply sim_bind; [apply sim_refill|]. intros rc r' g' k'. destruct (rc =? 1); [apply sim_take|done].
Qed.

Lemma sim_line_loop fuel m fd r buf ptr n g k :
  sim (run (readline_loop fuel m fd buf ptr n) (load r g) k) (run (line_loop fuel m fd r buf ptr n) g k).
Proof.
  revert r buf ptr n g k. induction m as [|m IH]; intros r buf ptr n g k; cbn [readline_loop line_loop].
  - apply sim_mem. by intros.
  - apply sim_bind; [apply sim_my_read|]. intros [rc c] r' g' k'. destruct (rc =? 1).
    + apply sim_mem. intros b1. destruct (c =? 10); [|apply IH]. apply sim_mem. by intros.
    + destruct (rc =? 0); [|done]. apply sim_mem. by intros.
Qed.
End Sim.

(** ** The system: threads with descriptors of their own *)
Class ThreadKernel (K : Type) `{!Kernel K} `{!StreamKernel K} := {
  (** a read of one descriptor leaves the bytes of the others *)
  tk_frame : forall k fd n fd', fd <> fd' -> inbox (kcall (Eread fd n) k).2 fd' = inbox k fd';
  (** allocation and the thread calls work, and leave the streams alone *)
  tk_calloc : forall k n s, exists p k', kcall (Ecalloc n s) k = (Ok p, k') /\
    (forall fd, connected k fd -> connected k' fd) /\ inbox k' = inbox k /\ signals k' = signals k;
  tk_pthread : forall k op, exists k', klib (Epthread op) k = (0, k') /\
    (forall fd, connected k fd -> connected k' fd) /\ inbox k' = inbox k /\ signals k' = signals k }.

Section Threads.
Context {K : Type} `{HK : !Kernel K} `{HS : !StreamKernel K} `{HT : !ThreadKernel K}.
Implicit Types (k : K) (g : globals).

Section Frame.
Context (fd fd' : Z) (Hne : fd <> fd').

Lemma refill_frame size fuel r g k : inbox (run (refill size fuel fd r) g k).2 fd' = inbox k fd'.
Proof.
  revert r g k. induction fuel as [|f IH]; intros r g k; [done|]. cbn [refill]. rewrite run_bind, run_call.
  pose proof (tk_frame k fd size fd' Hne) as H. destruct (kcall (Eread fd size) k) as [[bs|e] k1]; cbn iota beta; cbn in H.
  - rewrite run_bind, run_mem. destruct (memcpy _ _ _); cbn iota beta zeta; [destruct (_ =? 0)|]; done.
  - rewrite run_bind, run_get_errno. cbn iota beta zeta. destruct (_ =? EINTR); [|done]. by rewrite IH.
Qed.
Lemma take_byte_frame r g k : (run (take_byte r) g k).2 = k.
Proof.
  unfold take_byte. rewrite run_bind, run_mem. destruct (rl_bufptr r) as [p|]; [|done]. cbn iota beta. rewrite run_bind, run_mem. by destruct (aread _ _).
Qed.
Lemma my_read_t_frame size fuel r g k : inbox (run (my_read_t size fuel fd r) g k).2 fd' = inbox k fd'.
Proof.
  unfold my_read_t. destruct (rl_cnt r <=? 0); [|by rewrite take_byte_frame]. rewrite run_bind. pose proof (refill_frame size fuel r g k) as H.
  destruct (run (refill size fuel fd r) g k) as [[[[rc r1]|h] g1] k1]; [|done]. cbn in H |- *. destruct (rc =? 1); [by rewrite take_byte_frame|done].
Qed.
Lemma line_loop_frame fuel m r buf ptr n g k : inbox (run (line_loop fuel m fd r buf ptr n) g k).2 fd' = inbox k fd'.
Proof.
  revert r buf ptr n g k. induction m as [|m IH]; intros r buf ptr n g k; cbn [line_loop].
  - rewrite run_bind, run_mem. by destruct (awrite _ _ _).
  - rewrite run_bind. pose proof (my_read_t_frame MAXLINE fuel r g k) as H. destruct (run (my_read_t _ _ _ _) g k) as [[[[[rc c] r1]|h] g1] k1]; [|done].
    cbn in H. cbn iota beta. destruct (rc =? 1).
    + rewrite run_bind, run_mem. destruct (awrite _ _ _) as [b1|]; [|done]. cbn iota beta. destruct (c =? 10); [|by rewrite IH].
      rewrite run_bind, run_mem. by destruct (awrite _ _ _).
    + destruct (rc =? 0); [|done]. rewrite run_bind, run_mem. by destruct (awrite _ _ _).
Qed.
End Frame.

Definition rl_ok (r : Rline) : Prop := reader_ok MAXLINE (load r globals0).
Definition tsds_ok (tsds : tsd_map) : Prop := forall t r, tsds !! t = Some r -> rl_ok r.
(** The bytes a thread will still get: those in its structure, and those to come. *)
Definition tstream (tsds : tsd_map) k (t fd : Z) : list Z := stream (load (default zero_rline (tsds !! t)) globals0) k fd.

Lemma run_pthread op msg g k : exists k', (forall B (f : unit -> prog B), run (pthread_checked op msg ≫= f) g k = run (f tt) g k') /\
  (forall fd, connected k fd -> connected k' fd) /\ inbox k' = inbox k /\ signals k' = signals k.
Proof.
  destruct (tk_pthread k op) as (k' & E & H). exists k'. split; [|done]. intros B f. unfold pthread_checked. by rewrite run_bind, run_bind, run_lib, E.
Qed.

(** The structure of the calling thread, allocated at its first call. *)
Lemma run_tsd (self : Z) (tsds : tsd_map) g k : exists k', (forall B (f : Rline -> prog B),
    run ((match tsds !! self with
          | Some t => Ret t
          | None => p ← Calloc 1 sizeof_Rline; _ ← Pthread_setspecific rl_key p; Ret zero_rline
          end) ≫= f) g k = run (f (default zero_rline (tsds !! self))) g k') /\
  (forall fd, connected k fd -> connected k' fd) /\ inbox k' = inbox k /\ signals k' = signals k.
Proof.
  destruct (tsds !! self) as [t|]; [by exists k|]. destruct (tk_calloc k 1 sizeof_Rline) as (p & k1 & E1 & C1 & I1 & S1).
  destruct (run_pthread (PSetspecific rl_key p) (str "pthread_setspecific error") g k1) as (k2 & E2 & C2 & I2 & S2).
  exists k2. split; [|split_and!; [auto|congruence|congruence]]. intros B f. rewrite run_bind. unfold Calloc, checked. rewrite run_bind, (run_bind (call _)), run_call, E1.
  cbn iota beta. rewrite run_ret. cbn iota beta. unfold Pthread_setspecific. by rewrite E2.
Qed.

End Threads.

(** ** A system with several connections *)
Record streams := Streams { s_in : gmap Z (list Z); s_out : gmap Z (list Z) }.
Definition bytes_of (m : gmap Z (list Z)) (fd : Z) : list Z := default [] (m !! fd).

#[export] Instance streams_kernel : Kernel streams := {|
  kcall X e :=
    match e in sysE X return streams -> res X * streams with
    | Eread fd n => fun k =>
        let bs := bytes_of (s_in k) fd in
        (Ok (take (Z.to_nat n) bs), Streams (<[fd := drop (Z.to_nat n) bs]> (s_in k)) (s_out k))
    | Ewrite fd bs => fun k => (Ok (Z.of_nat (length bs)), Streams (s_in k) (<[fd := bytes_of (s_out k) fd ++ bs]> (s_out k)))
    | Ecalloc _ _ | Emalloc _ => fun k => (Ok 4096, k)
    | _ => fun k => (Err ENOSYS, k)
    end;
  klib X e :=
    match e in libE X return streams -> X * streams with
    | Epthread _ => fun k => (0, k)
    | e => fun k => ((@klib unit (failing_kernel ENOSYS) _ e tt).1, k)
    end |}.

Lemma bytes_of_insert m fd fd' bs : bytes_of (<[fd := bs]> m) fd' = if decide (fd = fd') then bs else bytes_of m fd'.
Proof. unfold bytes_of. case_decide as E; [subst; by rewrite lookup_insert_eq|by rewrite lookup_insert_ne]. Qed.

#[export] Instance streams_stream : StreamKernel streams.
Proof.
  refine {| connected _ _ := True; inbox k := bytes_of (s_in k); outbox k := bytes_of (s_out k); signals _ := 0%nat |}.
  - intros k fd n _ Hn. cbn. rewrite bytes_of_insert, decide_True by done. split_and!; try done.
    + by rewrite take_drop.
    + rewrite length_take. lia.
    + intros E. apply (f_equal length) in E. rewrite length_take in E. cbn in E. destruct (bytes_of (s_in k) fd); [done|cbn in E; lia].
  - intros k fd bs _ Hbs. cbn. rewrite bytes_of_insert, decide_True by done. split_and!; try done.
    + destruct bs; [done|cbn; lia].
    + by rewrite Nat2Z.id, firstn_all.
Defined.

#[export] Instance streams_threads : ThreadKernel streams.
Proof.
  split.
  - intros k fd n fd' Hne. cbn. by rewrite bytes_of_insert, decide_False.
  - intros k n s. by eexists _, k.
  - intros k op. by exists k.
Defined.

(** Thread 1 has read a line of its descriptor 5, thread 2 reads descriptor 6. *)
Definition two_lines : streams := Streams {[5 := str "one" ++ [10] ++ str "two" ++ [10]; 6 := str "six" ++ [10]]} ∅.


(** The library's readline is not made for two descriptors: what it has read ahead from
    one is delivered to the reader of the other.  The version with a structure of the
    caller returns one more than the length of a line that ends with the file. *)
Theorem readline_shares_buffer :
  let '(o1, g1, k1) := run (readline 1 5 (replicate 8 0) 8) globals0 two_lines in
  (o1 = Done (4, str "one" ++ [10; 0; 0; 0; 0])) /\
  (run (readline 1 6 (replicate 8 0) 8) g1 k1).1.1 = Done (4, str "two" ++ [10; 0; 0; 0; 0]).
Proof. by vm_compute. Qed.

Theorem readline_r_counts_eof :
  match (run (readline_r 2 (readline_rinit 5 8 (Rlr 0 0 zero_rline)) (replicate 8 0)) globals0 (Streams {[5 := str "ab"]} ∅)).1.1 with
  | Done (n, b, _) => n = 3 /\ b = str "ab" ++ replicate 6 0
  | Halted _ => False
  end.
Proof. by vm_compute. Qed.

(** The owner's version uses a pointer that it has not set from the second call of a
    thread on, and at the end of the file it drops the line it has read so far. *)
Theorem thread_readline_defects :
  (forall (K : Type) (HK : Kernel K) self garbage fuel fd buf maxlen (tsds : tsd_map) r g (k : K), tsds !! self = Some r -> 1 < maxlen ->
     (run (thread_readline self garbage fuel fd buf maxlen tsds) g k).1.1 = Halted Fault) /\
  match (run (thread_readline 1 zero_rline 2 5 (replicate 8 0) 8 ∅) globals0 (Streams {[5 := str "ab"]} ∅)).1.1 with
  | Done (n, _, _) => n = 0
  | Halted _ => False
  end.
Proof.
  split; [|by vm_compute]. intros K HK self garbage fuel fd buf maxlen tsds r g k Er Hm. unfold thread_readline. rewrite Er, run_bind, run_lib.
  destruct (klib (Epthread (POnce rl_once readline_once_fn)) k) as [x k1]. cbn iota beta. rewrite run_bind, run_ret. cbn iota beta. rewrite run_bind.
  destruct (Z.to_nat (maxlen - 1)) as [|m] eqn:E; [lia|]. cbn [own_loop]. rewrite run_bind, run_mem. done.
Qed.
End ThreadLineProofs.
