(* ===== verification/PollServer.v ===== *)
(** * The poll server: unpv13e/tcpcliserv/tcpservpoll01.c

    The table of the server is the array of struct pollfd that poll reads and
    fills in.  poll writes the revents of the entries it is given, those up to
    maxi; an entry's revents is indeterminate ([None]) until then, and reading
    it is undefined behaviour.  A client accepted in this turn gets an entry that
    may be beyond what poll was given, so that the loop over the clients is
    correct only because it leaves when the nready descriptors were counted. *)
From stdpp Require Import base list numbers strings gmap.
From S2P Require Import Prelude InetAddr Sys Error Wrap StreamIO StreamProofs Connect Server Hoare.

Module PollServer.
Definition OPEN_MAX : Z := 64.
Definition POLLRDNORM : Z := 0x40.
Definition POLLERR : Z := 8.
Definition POLLHUP : Z := 0x10.
Definition INFTIM : Z := -1.

Record entry := Entry { e_fd : Z; e_events : Z; e_revents : option Z }.
Record pstate := PState { client : list entry; maxi : Z; buf : list Z }.

(** poll writes revents, and nothing else, of the entries it was given. *)
Definition to_pollfd (e : entry) : pollfd := Pollfd (e_fd e) (e_events e) 0.
Fixpoint set_revents (cl : list entry) (out : list pollfd) : list entry :=
  match cl, out with
  | e :: cl, o :: out => Entry (e_fd e) (e_events e) (Some (p_revents o)) :: set_revents cl out
  | _, _ => cl
  end.

(** client[i].revents *)
Definition revents (cl : list entry) (i : Z) : option Z := e ← aread cl i; e_revents e.

(** for (i = 1; i < OPEN_MAX; i++) if (client[i].fd < 0) { client[i].fd = connfd; break; }
    with [k] rounds left: the final i and the array. *)
Fixpoint poll_save_client (k : nat) (i : Z) (cl : list entry) (connfd : Z) : option (Z * list entry) :=
  match k with
  | O => Some (i, cl)
  | S k' =>
      e ← aread cl i;
      if e_fd e <? 0 then cl1 ← awrite cl i (Entry connfd (e_events e) (e_revents e)); Some (i, cl1)
      else poll_save_client k' (i + 1) cl connfd
  end.

(** The new connection, up to the test of nready. *)
Definition poll_new_client (fuel : nat) (listenfd : Z) (st : pstate) : prog pstate :=
  '(connfd, _) ← Accept fuel listenfd;
  '(i, cl) ← mem (poll_save_client (Z.to_nat (OPEN_MAX - 1)) 1 (client st) connfd);
  if i =? OPEN_MAX then err_quit (str "too many clients")
  else
    e ← mem (aread cl i);
    cl1 ← mem (awrite cl i (Entry (e_fd e) POLLRDNORM (e_revents e)));
    Ret (PState cl1 (if maxi st <? i then i else maxi st) (buf st)).

Definition poll_close_client (i sockfd : Z) (st : pstate) : prog pstate :=
  _ ← Close sockfd;
  e ← mem (aread (client st) i);
  cl ← mem (awrite (client st) i (Entry (-1) (e_events e) (e_revents e)));
  Ret (PState cl (maxi st) (buf st)).

(** A client with an event: read and echo, or close. *)
Definition poll_serve_client (wfuel : nat) (i sockfd : Z) (st : pstate) : prog pstate :=
  r ← call (Eread sockfd MAXLINE);
  match r with
  | Err _ =>
      e ← get_errno;
      if e =? ECONNRESET then poll_close_client i sockfd st else err_sys (str "read error")
  | Ok bs =>
      b ← mem (memcpy (buf st) 0 bs);
      let n := Z.of_nat (length bs) in
      let st1 := PState (client st) (maxi st) b in
      if n =? 0 then poll_close_client i sockfd st1
      else _ ← Writen wfuel sockfd b n; Ret st1
  end.

(** for (i = 1; i <= maxi; i++), with [k] rounds left. *)
Fixpoint poll_check_clients (wfuel k : nat) (i nready : Z) (st : pstate) : prog pstate :=
  match k with
  | O => Ret st
  | S k' =>
      e ← mem (aread (client st) i);
      let sockfd := e_fd e in
      if sockfd <? 0 then poll_check_clients wfuel k' (i + 1) nready st
      else
        rev ← mem (revents (client st) i);
        if negb (Z.land rev (Z.lor POLLRDNORM POLLERR) =? 0) then
          st1 ← poll_serve_client wfuel i sockfd st;
          if nready - 1 <=? 0 then Ret st1
          else poll_check_clients wfuel k' (i + 1) (nready - 1) st1
        else poll_check_clients wfuel k' (i + 1) nready st
  end.

(** One turn of the for ( ; ; ) loop. *)
Definition poll_turn (fuel : nat) (listenfd : Z) (st : pstate) : prog pstate :=
  '(nready, out) ← Poll (to_pollfd <$> take (Z.to_nat (maxi st + 1)) (client st)) INFTIM;
  let st0 := PState (set_revents (client st) out) (maxi st) (buf st) in
  rev ← mem (revents (client st0) 0);
  if negb (Z.land rev POLLRDNORM =? 0) then
    st1 ← poll_new_client fuel listenfd st0;
    if nready - 1 <=? 0 then Ret st1
    else poll_check_clients fuel (Z.to_nat (maxi st1)) 1 (nready - 1) st1
  else poll_check_clients fuel (Z.to_nat (maxi st0)) 1 nready st0.

Fixpoint poll_loop (fuel turns : nat) (listenfd : Z) (st : pstate) : prog pstate :=
  match turns with
  | O => Ret st
  | S t => st1 ← poll_turn fuel listenfd st; poll_loop fuel t listenfd st1
  end.

(** client[0] is the listening socket; the fd of the others is -1, their other
    fields are not set. *)
Definition poll_init (listenfd : Z) (b : list Z) : pstate :=
  PState (Entry listenfd POLLRDNORM None :: replicate (Z.to_nat OPEN_MAX - 1) (Entry (-1) 0 None)) 0 b.

(** main, for the first [turns] turns. *)
Definition tcpservpoll01 `{Platform} (fuel turns : nat) (b : list Z) : prog pstate :=
  listenfd ← Socket AF_INET SOCK_STREAM 0;
  _ ← Bind listenfd (SaIn (SockaddrIn (htons SERV_PORT) INADDR_ANY)) 16;
  _ ← Listen listenfd LISTENQ;
  poll_loop fuel turns listenfd (poll_init listenfd b).
End PollServer.
