(* ===== verification/PollProofs.v ===== *)
(** * The poll server never reads an indeterminate event

    Over any system whose poll reports readable or failed descriptors with
    POLLRDNORM or POLLERR, the server accesses its arrays in range and reads
    only events that poll has written, for any number of turns.  The argument
    counts: the descriptors poll announced are among the entries it was given,
    and the loop leaves when it has met them all.  With a system that also
    announces a hang-up alone, the count does not run out and the entry of a new
    client is read before poll ever saw it. *)
From stdpp Require Import base list numbers strings gmap.
From S2P Require Import Prelude InetAddr Sys Error Wrap StreamIO StreamProofs Connect Server Hoare PollServer.
Import PollServer.

Module PollProofs.

Definition bits : Z := Z.lor POLLRDNORM POLLERR.

(** What poll reports of one entry. *)
Definition reported (f o : pollfd) : Prop :=
  (p_fd f < 0 -> p_revents o = 0) /\ (p_revents o <> 0 -> Z.land (p_revents o) bits <> 0).

Class PollKernel (K : Type) `{!Kernel K} := {
  pk_poll : forall k fds t n out k', kcall (Epoll fds t) k = (Ok (n, out), k') ->
    Forall2 reported fds out /\ n = Z.of_nat (length (filter (fun o => p_revents o <> 0) out));
  pk_read : forall k fd n bs k', 0 <= n -> kcall (Eread fd n) k = (Ok bs, k') -> Z.of_nat (length bs) <= n;
  pk_write : forall k fd bs n k', kcall (Ewrite fd bs) k = (Ok n, k') -> n <= Z.of_nat (length bs) }.

(** ** Counting the entries with an event *)
Definition ready (e : entry) : Prop := 0 <= e_fd e /\ exists r, e_revents e = Some r /\ Z.land r bits <> 0.
#[export] Instance ready_dec e : Decision (ready e).
Proof.
  unfold ready. destruct (e_revents e) as [r|].
  - destruct (decide (0 <= e_fd e)), (decide (Z.land r bits <> 0)); [left; eauto|right..]; intros [? (? & [= <-] & ?)]; done.
  - right. by intros [_ (? & ? & _)].
Defined.

(** The entries with an event among those from [i] up to [hi]. *)
Definition pending (cl : list entry) (i hi : nat) : nat := length (filter ready (take (hi - i) (drop i cl))).

Lemma pending_step cl i hi e : cl !! i = Some e -> (i < hi)%nat ->
  pending cl i hi = ((if decide (ready e) then 1 else 0) + pending cl (S i) hi)%nat.
Proof.
  intros He Hi. unfold pending. rewrite (drop_S _ _ _ He).
  replace (hi - i)%nat with (S (hi - S i)) by lia. cbn [take].
  destruct (decide (ready e)); [rewrite filter_cons_True by done|rewrite filter_cons_False by done]; done.
Qed.

Lemma pending_insert cl i j hi e : (j < i)%nat -> pending (<[j := e]> cl) i hi = pending cl i hi.
Proof. intros H. unfold pending. by rewrite drop_insert_lt. Qed.

Lemma pending_replace cl i j hi e e' :
  cl !! j = Some e -> ~ ready e -> ~ ready e' \/ (hi <= j)%nat -> pending (<[j := e']> cl) i hi = pending cl i hi.
Proof.
  intros He Hn Hn'. remember (hi - i)%nat as m eqn:Em. revert i Em. induction m as [|m IH]; intros i Em.
  { unfold pending. by rewrite <- Em. }
  destruct (decide (i < length cl)%nat) as [Hi|Hi].
  2: { unfold pending. rewrite !drop_ge by (rewrite ?length_insert; lia). done. }
  destruct (lookup_lt_is_Some_2 cl i Hi) as [x Hx].
  destruct (decide (i = j)) as [->|Hne].
  - rewrite (pending_step (<[j := e']> cl) j hi e') by (lia || by apply list_lookup_insert_eq).
    rewrite (pending_step cl j hi e He) by lia. rewrite pending_insert by lia.
    rewrite (decide_False (P := ready e)) by done. rewrite decide_False by (destruct Hn'; [done|lia]). done.
  - rewrite (pending_step (<[j := e']> cl) i hi x) by (lia || by rewrite list_lookup_insert_ne).
    rewrite (pending_step cl i hi x Hx) by lia. f_equal. apply IH. lia.
Qed.

(** ** Memory safety *)
Definition no_fault (h : halt) : Prop := h <> Fault.

Record pinv (st : pstate) : Prop := {
  pi_len : Z.of_nat (length (client st)) = OPEN_MAX;
  pi_maxi : 0 <= maxi st < OPEN_MAX;
  pi_buf : Z.of_nat (length (buf st)) = MAXLINE }.

Section Safe.
Context {K : Type} `{HK : !Kernel K} `{HP : !PollKernel K}.
Implicit Types (k : K) (g : globals).

Lemma wp_Writen_safe fuel fd v n (Q : unit -> globals -> K -> Prop) g k :
  0 <= n <= Z.of_nat (length v) -> daemon_proc g = 0 ->
  (forall g' k', daemon_proc g' = 0 -> Q tt g' k') -> wp no_fault (Writen fuel fd v n) Q g k.
Proof.
  intros Hn Hd HQ. unfold Writen, writen. apply wp_bind.
  apply (wp_mono _ _ (fun _ g' _ => daemon_proc g' = 0)).
  - assert (forall ptr nleft g k, 0 <= ptr -> ptr + nleft <= Z.of_nat (length v) -> daemon_proc g = 0 ->
      wp no_fault (writen_loop fuel fd v ptr nleft n) (fun _ g' (_ : K) => daemon_proc g' = 0) g k) as H; [|apply H; lia].
    clear Hn Hd HQ g k Q. induction fuel as [|f IH]; intros ptr nleft g k Hp Hl Hd; cbn [writen_loop].
    { destruct (0 <? nleft); [by apply wp_halt|by apply wp_ret]. }
    destruct (Z.ltb_spec 0 nleft); [|by apply wp_ret].
    wp_step; [unfold asub; zbool|]. wp_step.
    + apply pk_write in H0. rewrite length_take, length_drop in H0.
      destruct (Z.leb_spec v0 0); [by apply wp_ret|apply IH; done || lia].
    + wp_step. destruct (_ =? _); [by apply IH|by apply wp_ret].
  - intros r g' k' Hd'. destruct (_ =? _); [by apply wp_ret, HQ|by apply wp_err_sys].
Qed.

(** What a turn leaves as it was. *)
Definition upd (i : Z) (st st' : pstate) : Prop :=
  pinv st' /\ maxi st' = maxi st /\
  (client st' = client st \/
   exists e fd, client st !! Z.to_nat i = Some e /\
     client st' = <[Z.to_nat i := Entry fd (e_events e) (e_revents e)]> (client st)).

Lemma aread_at {A} (a : list A) i : 0 <= i < Z.of_nat (length a) -> exists x, a !! Z.to_nat i = Some x /\ aread a i = Some x.
Proof.
  intros H. destruct (lookup_lt_is_Some_2 a (Z.to_nat i)) as [x Hx]; [lia|]. exists x. split; [done|]. unfold aread. by zbool.
Qed.
Lemma awrite_in {A} (a : list A) i x : 0 <= i < Z.of_nat (length a) -> awrite a i x = Some (<[Z.to_nat i := x]> a).
Proof. intros H. unfold awrite. by zbool. Qed.

Lemma wp_close_client i fd st g k :
  pinv st -> 0 <= i < OPEN_MAX -> daemon_proc g = 0 ->
  wp no_fault (poll_close_client i fd st) (fun st' g' (_ : K) => upd i st st' /\ daemon_proc g' = 0) g k.
Proof.
  intros [Hl Hm Hb] Hi Hd. unfold poll_close_client. apply wp_bind.
  apply wp_checked_; [done|done|]. intros _ k' _.
  destruct (aread_at (client st) i) as (e & He & Er); [lia|].
  wp_step; [exact Er|]. wp_step; [apply awrite_in; lia|]. wp_step.
  split; [|done]. split; [|split; [done|right; eauto]].
  split; cbn; [by rewrite length_insert|done..].
Qed.

Lemma wp_serve_client wf i fd st g k :
  pinv st -> 0 <= i < OPEN_MAX -> daemon_proc g = 0 ->
  wp no_fault (poll_serve_client wf i fd st) (fun st' g' (_ : K) => upd i st st' /\ daemon_proc g' = 0) g k.
Proof.
  intros Hst Hi Hd. pose proof Hst as [Hl Hm Hb]. unfold poll_serve_client. wp_step.
  - apply pk_read in H; [|done]. pose proof (memcpy_is_Some (buf st) v 0 ltac:(lia) ltac:(lia)) as Eb.
    set (b := take _ _ ++ _) in Eb. wp_step; [exact Eb|]. apply memcpy_Some_length in Eb.
    assert (pinv (PState (client st) (maxi st) b)) as Hst' by (split; cbn; lia).
    destruct (Z.eqb_spec (Z.of_nat (length v)) 0).
    + exact (wp_close_client i fd (PState (client st) (maxi st) b) _ _ Hst' Hi Hd).
    + apply wp_bind, wp_Writen_safe; [lia|done|]. intros g' k'' Hd'. wp_step. by split; [|done]; split; [|split; [|left]].
  - wp_step. destruct (_ =? _); [by apply wp_close_client|by apply wp_err_sys].
Qed.

(** Poll has written the events of the entries below [hi]. *)
Definition defined (cl : list entry) (hi : nat) : Prop :=
  forall j e, (j < hi)%nat -> cl !! j = Some e -> exists r, e_revents e = Some r.

Lemma upd_defined i st st' hi : upd i st st' -> defined (client st) hi -> defined (client st') hi.
Proof.
  intros (_ & _ & [->|(e & fd & He & ->)]) Hd; [done|]. intros j e' Hj Hj'.
  destruct (decide (j = Z.to_nat i)) as [->|Hne].
  - rewrite list_lookup_insert_eq in Hj' by (by apply lookup_lt_is_Some_1; rewrite He). injection Hj' as <-. exact (Hd _ e Hj He).
  - rewrite list_lookup_insert_ne in Hj' by done. exact (Hd _ _ Hj Hj').
Qed.
Lemma upd_pending i st st' hi : upd i st st' -> pending (client st') (S (Z.to_nat i)) hi = pending (client st) (S (Z.to_nat i)) hi.
Proof. intros (_ & _ & [->|(e & fd & He & ->)]); [done|]. apply pending_insert. lia. Qed.

(** The loop stays among the entries poll was given: either all the entries are,
    or the descriptors still to be met are. *)
Definition covered (i nready : Z) (st : pstate) (hi : nat) : Prop :=
  (Z.to_nat (maxi st) < hi)%nat \/ (nready = Z.of_nat (pending (client st) (Z.to_nat i) hi) /\ 0 < nready).

Lemma covered_lt i nready st hi : covered i nready st hi -> 0 <= i <= maxi st -> (Z.to_nat i < hi)%nat.
Proof.
  intros [H|[-> H]] Hi; [lia|]. unfold pending in H. destruct (decide (Z.to_nat i < hi)%nat); [done|].
  replace (hi - Z.to_nat i)%nat with 0%nat in H by lia. rewrite take_0 in H. cbn in H. lia.
Qed.

Lemma wp_check_clients wf n i nready st hi g k :
  pinv st -> 1 <= i -> i + Z.of_nat n = maxi st + 1 -> defined (client st) hi -> covered i nready st hi -> daemon_proc g = 0 ->
  wp no_fault (poll_check_clients wf n i nready st) (fun st' g' (_ : K) => pinv st' /\ daemon_proc g' = 0) g k.
Proof.
  revert i nready st g k. induction n as [|n IH]; intros i nready st g k Hst Hi En Hdf Hcv Hd; cbn [poll_check_clients].
  { by apply wp_ret. }
  pose proof Hst as [Hl Hm Hb]. pose proof (covered_lt _ _ _ _ Hcv ltac:(lia)) as Hlt.
  destruct (aread_at (client st) i) as (e & He & Er); [lia|]. destruct (Hdf _ _ Hlt He) as [r Hr].
  pose proof (pending_step _ _ hi _ He Hlt) as Hs. replace (S (Z.to_nat i)) with (Z.to_nat (i + 1)) in Hs by lia.
  assert (~ ready e -> covered (i + 1) nready st hi) as Hskip.
  { intros Hn. rewrite decide_False in Hs by done. destruct Hcv as [|[? ?]]; [by left|right]. lia. }
  wp_step; [exact Er|]. destruct (Z.ltb_spec (e_fd e) 0).
  { apply IH; try done; try lia. apply Hskip. intros [? _]. lia. }
  wp_step; [unfold revents; rewrite Er; exact Hr|]. destruct (Z.eqb_spec (Z.land r (Z.lor POLLRDNORM POLLERR)) 0) as [Ez|Ez]; cbn [negb].
  { apply IH; try done; try lia. apply Hskip. intros [_ (r' & Hr' & Hn)]. by rewrite Hr in Hr'; injection Hr' as ->. }
  assert (ready e) as Hready by (split; eauto). rewrite decide_True in Hs by done.
  eapply wp_seq; [by apply wp_serve_client; [|lia|]|]. cbv beta. intros st1 g1 k1 [Hu Hd1].
  destruct (Z.leb_spec (nready - 1) 0); [apply wp_ret; by destruct Hu|].
  pose proof (upd_pending _ _ _ hi Hu) as Hp. replace (S (Z.to_nat i)) with (Z.to_nat (i + 1)) in Hp by lia.
  pose proof Hu as (Hst1 & Hmx & _). apply IH; try done; try lia; [by eapply upd_defined|].
  destruct Hcv as [|[? ?]]; [left; lia|right]. lia.
Qed.

(** ** What poll wrote *)
Lemma set_revents_spec cl out : Forall2 reported (to_pollfd <$> take (length out) cl) out ->
  length (set_revents cl out) = length cl /\
  pending (set_revents cl out) 0 (length out) = length (filter (fun o => p_revents o <> 0) out) /\
  forall j e, set_revents cl out !! j = Some e -> (j < length out)%nat ->
    exists r, e_revents e = Some r /\ (e_fd e < 0 -> r = 0) /\ (r <> 0 -> Z.land r bits <> 0).
Proof.
  unfold pending. rewrite Nat.sub_0_r, drop_0. revert cl. induction out as [|o out IH]; intros [|e cl] H; cbn [length take] in H; try by inversion H.
  - split_and!; [done..|]. intros. cbn in *. lia.
  - apply Forall2_cons in H as [[H1 H2] H]. destruct (IH _ H) as (L & P & D). cbn [set_revents length take].
    split_and!; [by rewrite L| |].
    + destruct (decide (p_revents o <> 0)) as [Hr|Hr].
      * rewrite (filter_cons_True (fun o => p_revents o <> 0)) by done. rewrite filter_cons_True; [cbn; by rewrite P|].
        split; cbn; [|by eauto]. destruct (Z.ltb_spec (e_fd e) 0); [by destruct Hr; apply H1|done].
      * rewrite (filter_cons_False (fun o => p_revents o <> 0)) by done. rewrite filter_cons_False; [exact P|].
        intros [_ (r & [= <-] & Hb)]. apply Hb. destruct (decide (p_revents o = 0)) as [->|]; [apply Z.land_0_l|done].
    + intros [|j] x Hx Hj; cbn in Hx; [injection Hx as <-; cbn; eauto|]. apply (D _ _ Hx). lia.
Qed.

(** ** The new client *)
Lemma poll_save_spec n i cl fd : 1 <= i -> i + Z.of_nat n = Z.of_nat (length cl) ->
  poll_save_client n i cl fd = Some (Z.of_nat (length cl), cl) \/
  exists j e, i <= j < Z.of_nat (length cl) /\ cl !! Z.to_nat j = Some e /\ e_fd e < 0 /\
    poll_save_client n i cl fd = Some (j, <[Z.to_nat j := Entry fd (e_events e) (e_revents e)]> cl).
Proof.
  revert i. induction n as [|n IH]; intros i Hi En; cbn [poll_save_client].
  { left. do 2 f_equal. lia. }
  destruct (aread_at cl i) as (e & He & ->); [lia|]. cbn [mbind option_bind].
  destruct (Z.ltb_spec (e_fd e) 0).
  - right. exists i, e. rewrite awrite_in by lia. split_and!; try done; lia.
  - destruct (IH (i + 1)) as [E|(j & x & Hj & Hx & Hf & E)]; [lia..|by left|].
    right. exists j, x. split_and!; try done; lia.
Qed.

Lemma wp_Accept fuel fd (Q : Z * (sockaddr * Z) -> globals -> K -> Prop) g k :
  daemon_proc g = 0 -> (forall r g' k', daemon_proc g' = 0 -> Q r g' k') -> wp no_fault (Accept fuel fd) Q g k.
Proof.
  intros Hd HQ. revert g k Hd. induction fuel as [|f IH]; intros g k Hd; cbn [Accept]; [by apply wp_halt|].
  wp_step; [by apply wp_ret, HQ|]. wp_step. destruct (_ || _); [by apply IH|by apply wp_err_sys].
Qed.

(** The entry of the new client was free: poll gave it no event, or did not see it. *)
Definition idle (cl : list entry) (hi : nat) : Prop :=
  forall j e, (j < hi)%nat -> cl !! j = Some e -> e_fd e < 0 -> e_revents e = Some 0.

Lemma wp_new_client fuel lfd st hi g k :
  pinv st -> defined (client st) hi -> idle (client st) hi -> daemon_proc g = 0 ->
  wp no_fault (poll_new_client fuel lfd st)
    (fun st' g' (_ : K) => pinv st' /\ defined (client st') hi /\ pending (client st') 1 hi = pending (client st) 1 hi /\ daemon_proc g' = 0) g k.
Proof.
  intros Hst Hdf Hid Hd. pose proof Hst as [Hl Hm Hb]. unfold poll_new_client. apply wp_bind, wp_Accept; [done|].
  intros [fd peer] g' k' Hd'.
  destruct (poll_save_spec (Z.to_nat (OPEN_MAX - 1)) 1 (client st) fd) as [E|(j & e & Hj & He & Hf & E)].
  { done. } { rewrite Hl. done. }
  { wp_step; [exact E|]. rewrite Hl, Z.eqb_refl. by apply wp_err_quit. }
  wp_step; [exact E|]. cbv beta iota. destruct (Z.eqb_spec j OPEN_MAX); [lia|].
  assert (Z.to_nat j < length (client st))%nat as Hjl by lia.
  set (cl := <[Z.to_nat j := _]> (client st)).
  wp_step; [unfold aread, cl; zbool; by rewrite list_lookup_insert_eq|].
  wp_step; [apply awrite_in; unfold cl; rewrite length_insert; lia|]. wp_step. cbn [e_fd e_revents].
  unfold cl. rewrite list_insert_insert_eq. cbn [client maxi].
  split_and!; [| | |done].
  - split; cbn; [by rewrite length_insert|destruct (_ <? _); lia|done].
  - intros a x Ha Hx. destruct (decide (a = Z.to_nat j)) as [->|Hne].
    + rewrite list_lookup_insert_eq in Hx by done. injection Hx as <-. exact (Hdf _ _ Ha He).
    + rewrite list_lookup_insert_ne in Hx by done. exact (Hdf _ _ Ha Hx).
  - eapply pending_replace; [exact He|intros [? _]; lia|].
    destruct (decide (hi <= Z.to_nat j)%nat); [by right|left]. intros [_ (r & Hr & Hn)]. cbn in Hr.
    rewrite (Hid (Z.to_nat j) e ltac:(lia) He Hf) in Hr. injection Hr as <-. by rewrite Z.land_0_l in Hn.
Qed.

Lemma wp_poll_turn fuel lfd st g k : pinv st -> daemon_proc g = 0 ->
  wp no_fault (poll_turn fuel lfd st) (fun st' g' (_ : K) => pinv st' /\ daemon_proc g' = 0) g k.
Proof.
  intros Hst Hd. pose proof Hst as [Hl Hm Hb]. unfold poll_turn. apply wp_bind, wp_checked; [done..|].
  intros [nready out] k' [Hrep En]%pk_poll. cbv beta iota.
  assert (length out = Z.to_nat (maxi st + 1)) as Lo.
  { apply Forall2_length in Hrep. rewrite length_fmap, length_take in Hrep. lia. }
  rewrite <- Lo in Hrep. destruct (set_revents_spec _ _ Hrep) as (L & P & D).
  set (cl := set_revents (client st) out) in *. set (hi := length out) in *.
  assert (pinv (PState cl (maxi st) (buf st))) as Hst0 by (split; cbn; lia).
  assert (defined cl hi) as Hdf by (intros j e Hj He; destruct (D _ _ He Hj) as (r & ? & _); eauto).
  assert (idle cl hi) as Hid by (intros j e Hj He Hf; destruct (D _ _ He Hj) as (r & Hr & Hz & _); by rewrite Hr, Hz).
  destruct (aread_at cl 0) as (e0 & He0 & Er0); [lia|]. destruct (D _ _ He0) as (r0 & Hr0 & Hz0 & Hb0); [lia|].
  wp_step; [unfold revents; cbn [client]; rewrite Er0; exact Hr0|].
  destruct (Z.eqb_spec (Z.land r0 POLLRDNORM) 0) as [E0|E0]; cbn [negb].
  { apply (wp_check_clients _ _ _ _ _ hi); try done; cbn; try lia. left. cbn. lia. }
  assert (r0 <> 0) as Hr00 by (intros ->; by rewrite Z.land_0_l in E0).
  assert (ready e0) as Hre by (split; [destruct (Z.ltb_spec (e_fd e0) 0); [by destruct Hr00; apply Hz0|done]|eauto]).
  eapply wp_seq; [apply (wp_new_client _ _ _ hi); done|]. cbv beta. intros st1 g1 k1 (Hst1 & Hdf1 & Hp1 & Hd1).
  destruct (Z.leb_spec (nready - 1) 0); [by apply wp_ret|].
  pose proof Hst1 as [_ Hm1 _].
  apply (wp_check_clients _ _ _ _ _ hi); try done; try lia. right. split; [|done].
  change (Z.to_nat 1) with 1%nat. rewrite Hp1. cbn [client].
  change (Z.to_nat 0) with 0%nat in He0.
  rewrite (pending_step cl 0 hi e0 He0) in P by lia. rewrite decide_True in P by done. lia.
Qed.

Lemma wp_poll_loop fuel turns lfd st g k : pinv st -> daemon_proc g = 0 ->
  wp no_fault (poll_loop fuel turns lfd st) (fun st' g' (_ : K) => pinv st' /\ daemon_proc g' = 0) g k.
Proof.
  revert st g k. induction turns as [|t IH]; intros st g k Hst Hd; cbn [poll_loop]; [by apply wp_ret|].
  eapply wp_seq; [by apply wp_poll_turn|]. cbv beta. intros st1 g1 k1 [? ?]. by apply IH.
Qed.

(** C40. The poll server is memory safe, for any number of turns: over a system
    whose poll gives an event only to descriptors that are readable or failed,
    and counts them, it never leaves its arrays and never reads the revents of an
    entry that poll has not written, also in the turn in which it accepts a
    client whose entry poll did not see. *)
Theorem poll_server_reads_defined `{Platform} fuel turns b g k :
  Z.of_nat (length b) = MAXLINE -> daemon_proc g = 0 ->
  (run (tcpservpoll01 fuel turns b) g k).1.1 <> Halted Fault.
Proof.
  intros Hb Hd.
  assert (wp no_fault (tcpservpoll01 fuel turns b) (fun _ _ _ => True) g k) as W.
  { unfold tcpservpoll01. apply wp_bind, wp_checked; [done..|]. intros lfd k1 _.
    apply wp_bind, wp_checked_; [done..|]. intros _ k2 _.
    unfold Listen. apply wp_bind, wp_bind, wp_lib. intros ptr k3 _.
    apply wp_checked_; [done..|]. intros _ k4 _.
    eapply wp_mono; [apply wp_poll_loop; [|done]|done].
    split; [by vm_compute|by vm_compute|done]. }
  rewrite wp_run in W. destruct (run _ g k) as [[[a|h] g'] k']; [done|]. cbn. by intros [= ->].
Qed.
End Safe.

(** ** Systems for the witness: a script of poll reports *)
Record polls := Polls { reports : list (list (Z * Z)); next : Z }.

(** The events of a descriptor in a report. *)
Fixpoint event (r : list (Z * Z)) (fd : Z) : Z :=
  match r with
  | [] => 0
  | (fd', ev) :: r => if fd' =? fd then ev else event r fd
  end.

(** [filt] is the part of an event that this system reports. *)
Definition polls_poll (filt : Z -> Z) (fds : list pollfd) (k : polls) : res (Z * list pollfd) * polls :=
  let out := (fun f => Pollfd (p_fd f) (p_events f) (if p_fd f <? 0 then 0 else filt (event (hd [] (reports k)) (p_fd f)))) <$> fds in
  (Ok (Z.of_nat (length (filter (fun o => p_revents o <> 0) out)), out), Polls (tl (reports k)) (next k)).

Definition polls_kernel (filt : Z -> Z) : Kernel polls := {|
  kcall X e :=
    match e in sysE X return polls -> res X * polls with
    | Esocket _ _ _ => fun k => (Ok 3, k)
    | Ebind _ _ _ | Elisten _ _ | Eclose _ => fun k => (Ok tt, k)
    | Eaccept _ => fun k => (Ok (next k, (SaIn (SockaddrIn 0 INADDR_ANY), 16)), Polls (reports k) (next k + 1))
    | Epoll fds _ => polls_poll filt fds
    | Eread fd n => fun k => (Ok (take (Z.to_nat n) [104; fd]), k)
    | Ewrite _ bs => fun k => (Ok (Z.of_nat (length bs)), k)
    | _ => fun k => (Err ENOSYS, k)
    end;
  klib X e k := ((@klib unit (failing_kernel ENOSYS) X e tt).1, k) |}.

(** A system that reports what the server asks for, and errors. *)
Definition asked (ev : Z) : Z := Z.land ev bits.

Lemma polls_ok : @PollKernel polls (polls_kernel asked).
Proof.
  split.
  - intros k fds t n out k' [= <- <- <-]. split; [|done].
    apply Forall2_fmap_r, Forall_Forall2_diag, Forall_true. intros f. split; cbn; intros Hf.
    + by zbool.
    + revert Hf. destruct (p_fd f <? 0); [done|]. unfold asked. by rewrite <- Z.land_assoc, Z.land_diag.
  - intros k fd n bs k' Hn [= <- _]. rewrite length_take. cbn. lia.
  - by intros k fd bs n k' [= <- _].
Qed.

(** A client connects; then another one, while the first hangs up. *)
Definition hang_up : polls := Polls [[(3, POLLRDNORM)]; [(3, POLLRDNORM); (4, POLLHUP)]; [(4, POLLERR)]] 4.
Definition pbuf : list Z := replicate (Z.to_nat MAXLINE) 0.

Lemma poll_server_reads_defined_witness :
  (@run polls (polls_kernel asked) _ (tcpservpoll01 (H := sparc64) 4096 3 pbuf) globals0 hang_up).1.1 <> Halted Fault.
Proof.
  refine (@poll_server_reads_defined polls (polls_kernel asked) polls_ok sparc64 4096 3 pbuf globals0 hang_up _ _); by vm_compute.
Defined.

(** On a system whose poll announces a hang-up alone (POLLHUP without
    POLLRDNORM or POLLERR) the count of the server does not run out: in the turn
    in which another client connects it reads the revents of the new client's
    entry, which nothing has ever written. *)
Theorem poll_server_reads_uninitialised :
  (@run polls (polls_kernel id) _ (tcpservpoll01 (H := sparc64) 4096 2 pbuf) globals0 hang_up).1.1 = Halted Fault.
Proof. by vm_compute. Qed.
End PollProofs.
