(* ===== verification/Containers.v ===== *)
(** * The stack and the singly linked list of func/

    func/stack.c keeps at most [STACK_SIZE] integers in an array inside one
    allocated structure; func/list.c links allocated nodes.  Both work on an
    explicit store: a block is a cell at a location, a freed block is gone,
    and using a block that is gone, NULL, a field that was never written or an
    index outside an array is undefined behaviour ([UB]).  A call that ends the
    process is [Exited], with what it printed first. *)
From stdpp Require Import base list numbers gmap strings.
From S2P Require Import Prelude.

Module Mem.
Definition loc := positive.

(** The blocks, and how many more times malloc will succeed. *)
Record store (C : Type) := Store { cells : gmap loc C; avail : nat }.
#[global] Arguments Store {C}.
#[global] Arguments cells {C}.
#[global] Arguments avail {C}.

Inductive fail := UB | OutOfFuel | Exited (message : string).

Definition M (C A : Type) : Type := store C -> fail + (A * store C).
#[export] Instance M_ret {C} : MRet (M C) := fun A a s => inr (a, s).
#[export] Instance M_bind {C} : MBind (M C) := fun A B f m s =>
  match m s with inl e => inl e | inr (a, s') => f a s' end.

Section Mem.
Context {C : Type}.
Implicit Types (s : store C).

Definition throw {A} (e : fail) : M C A := fun _ => inl e.
(** The value of a pointer that is dereferenced, of a field that is read. *)
Definition need {A} (p : option A) : M C A := match p with Some v => mret v | None => throw UB end.
Definition get (l : loc) : M C C := fun s =>
  match cells s !! l with Some c => inr (c, s) | None => inl UB end.
Definition set (l : loc) (c : C) : M C unit := fun s =>
  match cells s !! l with
  | Some _ => inr (tt, Store (<[l := c]> (cells s)) (avail s))
  | None => inl UB
  end.
(** malloc, with the unspecified contents it leaves. *)
Definition malloc (c : C) : M C (option loc) := fun s =>
  match avail s with
  | O => inr (None, s)
  | S a => let l := fresh (dom (cells s)) in inr (Some l, Store (<[l := c]> (cells s)) a)
  end.
Definition free (p : option loc) : M C unit := fun s =>
  match p with
  | None => inr (tt, s)
  | Some l =>
      match cells s !! l with
      | Some _ => inr (tt, Store (delete l (cells s)) (avail s))
      | None => inl UB
      end
  end.

Lemma bind_eq {A B} (m : M C A) (f : A -> M C B) s :
  (m ≫= f) s = match m s with inl e => inl e | inr (a, s') => f a s' end.
Proof. done. Qed.
End Mem.
#[global] Typeclasses Opaque M.
End Mem.

(** ** func/stack.c *)
Module Stack.
Import Mem.
#[local] Open Scope Z_scope.

Definition STACK_SIZE : Z := 100.

Record stack_type := Stack_type { contents : list (option Z); top : option Z }.
Definition fresh_stack : stack_type := Stack_type (replicate (Z.to_nat STACK_SIZE) None) None.

Abbreviation M := (M stack_type).

Definition terminate {A} (message : string) : M A := throw (Exited message).

(** s->top and s->top = v *)
Definition top_of (s : option loc) : M Z := l ← need s; c ← get l; need (top c).
Definition set_top (s : option loc) (v : Z) : M unit :=
  l ← need s; c ← get l; set l (Stack_type (contents c) (Some v)).
(** s->contents[i] and s->contents[i] = v *)
Definition slot (s : option loc) (i : Z) : M Z :=
  l ← need s; c ← get l; if i <? 0 then throw UB else v ← need (contents c !! Z.to_nat i); need v.
Definition set_slot (s : option loc) (i v : Z) : M unit :=
  l ← need s; c ← get l;
  if (0 <=? i) && (i <? Z.of_nat (length (contents c)))
  then set l (Stack_type (<[Z.to_nat i := Some v]> (contents c)) (top c)) else throw UB.

Definition create : M (option loc) :=
  s ← malloc fresh_stack;
  match s with
  | None => terminate "Error in create: Stack could not be created"
  | Some _ => _ ← set_top s 0; mret s
  end.

Definition destory (s : option loc) : M unit := free s.

Definition make_empty (s : option loc) : M unit := set_top s 0.

Definition is_empty (s : option loc) : M Z := t ← top_of s; mret (if t =? 0 then 1 else 0).

Definition is_full (s : option loc) : M Z := t ← top_of s; mret (if t =? STACK_SIZE then 1 else 0).

Definition push (s : option loc) (i : Z) : M unit :=
  f ← is_full s;
  if negb (f =? 0) then terminate "Error in push: stack is full"
  else t ← top_of s; _ ← set_top s (t + 1); set_slot s t i.

Definition pop (s : option loc) : M Z :=
  e ← is_empty s;
  if negb (e =? 0) then mret 0
  else t ← top_of s; _ ← set_top s (t - 1); slot s (t - 1).
End Stack.

(** ** func/list.c *)
Module SList.
Import Mem.
#[local] Open Scope Z_scope.

(** struct Node; a next field that was never written is [None]. *)
Record Node := MkNode { value : option Z; next : option (option loc) }.
Definition fresh_node : Node := MkNode None None.

Abbreviation M := (M Node).

Definition value_of (p : option loc) : M Z := l ← need p; n ← get l; need (value n).
Definition next_of (p : option loc) : M (option loc) := l ← need p; n ← get l; need (next n).
Definition set_value (p : option loc) (v : Z) : M unit :=
  l ← need p; n ← get l; set l (MkNode (Some v) (next n)).
Definition set_next (p q : option loc) : M unit :=
  l ← need p; n ← get l; set l (MkNode (value n) (Some q)).

Definition add_node (list : option loc) (n : Z) : M (option loc) :=
  new_node ← malloc fresh_node;
  match new_node with
  | None => throw (Exited "Error: malloc failed in add_node")
  | Some _ => _ ← set_value new_node n; _ ← set_next new_node list; mret new_node
  end.

(** for (p = list; p->next != NULL; p = p->next) if (p->value == n) return p; *)
Fixpoint search_list (fuel : nat) (p : option loc) (n : Z) : M (option loc) :=
  match fuel with
  | O => throw OutOfFuel
  | S f =>
      nx ← next_of p;
      match nx with
      | None => mret None
      | Some _ => v ← value_of p; if v =? n then mret p else search_list f nx n
      end
  end.

Fixpoint remove_loop (fuel : nat) (list prev cur : option loc) (n : Z) : M Z :=
  match cur with
  | None => mret 0
  | Some _ =>
      match fuel with
      | O => throw OutOfFuel
      | S f =>
          v ← value_of cur;
          if v =? n then
            match prev with
            | None => _ ← next_of list; _ ← free cur; mret 1
            | Some _ =>
                nx ← next_of cur;
                _ ← (match nx with
                     | None => set_next prev None
                     | Some _ => nx' ← next_of cur; set_next prev nx'
                     end);
                _ ← free cur; mret 1
            end
          else nx ← next_of cur; remove_loop f list cur nx n
      end
  end.

(** [list] is the callee's copy of the caller's pointer: the assignment to it
    when the first node goes is not seen by the caller. *)
Definition remove_node (fuel : nat) (list : option loc) (n : Z) : M Z :=
  remove_loop fuel list None list n.

(** What is printed: a message, or the values one per line. *)
Inductive printed := Empty_message | Line (v : Z).

Fixpoint display_loop (fuel : nat) (list : option loc) : M (Datatypes.list printed) :=
  match list with
  | None => mret []
  | Some _ =>
      match fuel with
      | O => throw OutOfFuel
      | S f => v ← value_of list; nx ← next_of list; r ← display_loop f nx; mret (Line v :: r)
      end
  end.

Definition display_list (fuel : nat) (list : option loc) : M (Datatypes.list printed) :=
  r ← display_loop fuel list;
  mret (match list with None => Empty_message :: r | Some _ => r end).
End SList.
