(* ===== verification/ContainersProofs.v ===== *)
(** * The stack refines a map of sequences; the list keeps a sequence

    Every sequence of calls of func/stack.c, on any number of stacks, does
    exactly what the specification [Spec.step] does on finite sequences of at
    most a hundred integers, the two ways of ending the process included, and
    keeps every stack well typed.  func/list.c keeps the sequence of the
    values, except where it removes the first node and where it searches. *)
From stdpp Require Import base list numbers sets gmap strings.
From S2P Require Import Prelude Containers.

Module StackProofs.
Import Mem Stack.
#[local] Open Scope Z_scope.

(** A call of the interface and what it returns. *)
Inductive op :=
  | Create | Destory (s : option loc) | MakeEmpty (s : option loc)
  | IsEmpty (s : option loc) | IsFull (s : option loc)
  | Push (s : option loc) (i : Z) | Pop (s : option loc).
Inductive ret := Unit | Ptr (p : option loc) | Int (v : Z).

Definition exec (o : op) : M ret :=
  match o with
  | Create => p ← create; mret (Ptr p)
  | Destory s => _ ← destory s; mret Unit
  | MakeEmpty s => _ ← make_empty s; mret Unit
  | IsEmpty s => v ← is_empty s; mret (Int v)
  | IsFull s => v ← is_full s; mret (Int v)
  | Push s i => _ ← push s i; mret Unit
  | Pop s => v ← pop s; mret (Int v)
  end.

(** Calls one after the other, with what they returned and how they ended. *)
Fixpoint exec_all {S A B F : Type} (f : A -> S -> F + (B * S)) (os : list A) (s : S) : list B * (F + S) :=
  match os with
  | [] => ([], inr s)
  | o :: r =>
      match f o s with
      | inl e => ([], inl e)
      | inr (v, s') => let '(vs, e) := exec_all f r s' in (v :: vs, e)
      end
  end.

(** The specification: stacks are sequences, the last pushed first. *)
Module Spec.
Definition state : Type := gmap loc (list Z) * nat.

Definition on {B} (s : option loc) (m : state) (f : loc -> list Z -> fail + B) : fail + B :=
  match s with
  | None => inl UB
  | Some l => match m.1 !! l with Some xs => f l xs | None => inl UB end
  end.

Definition step (o : op) (m : state) : fail + (ret * state) :=
  match o with
  | Create =>
      match m.2 with
      | O => inl (Exited "Error in create: Stack could not be created")
      | S a => let l := fresh (dom m.1) in inr (Ptr (Some l), (<[l := []]> m.1, a))
      end
  | Destory None => inr (Unit, m)
  | Destory s => on s m (fun l _ => inr (Unit, (delete l m.1, m.2)))
  | MakeEmpty s => on s m (fun l _ => inr (Unit, (<[l := []]> m.1, m.2)))
  | IsEmpty s => on s m (fun _ xs => inr (Int (match xs with [] => 1 | _ => 0 end), m))
  | IsFull s => on s m (fun _ xs => inr (Int (if decide (length xs = 100%nat) then 1 else 0), m))
  | Push s i => on s m (fun l xs =>
      if decide (length xs = 100%nat) then inl (Exited "Error in push: stack is full")
      else inr (Unit, (<[l := i :: xs]> m.1, m.2)))
  | Pop s => on s m (fun l xs =>
      match xs with [] => inr (Int 0, m) | x :: r => inr (Int x, (<[l := r]> m.1, m.2)) end)
  end.
End Spec.

(** The structure [c] holds the sequence [xs]. *)
Definition holds (c : stack_type) (xs : list Z) : Prop :=
  length (contents c) = 100%nat /\ top c = Some (Z.of_nat (length xs)) /\ (length xs <= 100)%nat /\
  forall i x, rev xs !! i = Some x -> contents c !! i = Some (Some x).

Definition rep (s : store stack_type) (m : Spec.state) : Prop :=
  (forall l, option_Forall2 holds (cells s !! l) (m.1 !! l)) /\ avail s = m.2.

(** Results that correspond: the same value and end, related states. *)
Definition sim {A S S'} (R : S -> S' -> Prop) (x : fail + (A * S)) (y : fail + (A * S')) : Prop :=
  match x, y with
  | inl e, inl e' => e = e'
  | inr (v, s), inr (v', s') => v = v' /\ R s s'
  | _, _ => False
  end.

(** A structure is well typed when its top is an index or one past the array,
    and every element below it has been written. *)
Definition typed (c : stack_type) : Prop :=
  length (contents c) = 100%nat /\
  exists t, top c = Some t /\ 0 <= t <= STACK_SIZE /\
    forall i, (i < Z.to_nat t)%nat -> exists v, contents c !! i = Some (Some v).
Definition typed_store (s : store stack_type) : Prop := map_Forall (fun _ => typed) (cells s).

(** ** Lemmas *)

Lemma rep_dom s m : rep s m -> dom (cells s) = dom m.1.
Proof.
  intros [H _]. apply set_eq. intros l. rewrite !elem_of_dom. specialize (H l).
  inversion H; split; intros [? ?]; eauto; congruence.
Qed.

Lemma rep_insert s m l c xs :
  rep s m -> holds c xs -> rep (Store (<[l := c]> (cells s)) (avail s)) (<[l := xs]> m.1, m.2).
Proof.
  intros [H Ha] Hc. split; [|done]. intros l'. simpl.
  destruct (decide (l' = l)) as [->|]; [rewrite !lookup_insert_eq|rewrite !lookup_insert_ne by done]; eauto.
  by constructor.
Qed.

(** A block that is live on one side is on the other. *)
Lemma rep_live s m l : rep s m ->
  (cells s !! l = None /\ m.1 !! l = None) \/
  (exists c xs, cells s !! l = Some c /\ m.1 !! l = Some xs /\ holds c xs).
Proof. intros [H _]. specialize (H l). inversion H; eauto 10. Qed.

Lemma holds_empty c v : holds c v -> holds (Stack_type (contents c) (Some 0)) [].
Proof. intros (? & ? & ? & ?). split_and!; simpl; [done..|lia|]. intros i x. by rewrite lookup_nil. Qed.

Lemma holds_push c xs i : holds c xs -> length xs <> 100%nat ->
  holds (Stack_type (<[length xs := Some i]> (contents c)) (Some (Z.of_nat (length xs) + 1))) (i :: xs).
Proof.
  intros (Hl & Ht & Hn & He) Hx. split_and!; cbn [contents top].
  - by rewrite length_insert.
  - f_equal. simpl length. lia.
  - simpl. lia.
  - intros j x. cbn [rev]. intros [Hj|[Hj Hs]]%lookup_app_Some.
    + pose proof (lookup_lt_Some _ _ _ Hj) as Hlt. rewrite length_rev in Hlt.
      rewrite list_lookup_insert_ne by lia. auto.
    + rewrite length_rev in *. apply list_lookup_singleton_Some in Hs as [Hs <-].
      replace j with (length xs) by lia. apply list_lookup_insert_eq. lia.
Qed.

Lemma holds_pop c x xs : holds c (x :: xs) ->
  contents c !! length xs = Some (Some x) /\
  holds (Stack_type (contents c) (Some (Z.of_nat (length xs)))) xs.
Proof.
  intros (Hl & Ht & Hn & He). simpl in Hn. split.
  - apply He. cbn [rev]. rewrite lookup_app_r by (rewrite length_rev; lia).
    by rewrite length_rev, Nat.sub_diag.
  - split_and!; cbn [contents top]; [done..|lia|]. intros i y Hi. apply He. cbn [rev].
    by apply lookup_app_l_Some.
Qed.

Lemma holds_typed c xs : holds c xs -> typed c.
Proof.
  intros (Hl & Ht & Hn & He). split; [done|]. exists (Z.of_nat (length xs)).
  split; [done|]. split; [unfold STACK_SIZE; lia|]. intros i Hi.
  destruct (lookup_lt_is_Some_2 (rev xs) i) as [v Hv]; [rewrite length_rev; lia|]. eauto.
Qed.

(** The sequence that a structure holds. *)
Definition elements (c : stack_type) : list Z :=
  rev (omap id (take (Z.to_nat (default 0 (top c))) (contents c))).

Lemma all_written (l : list (option Z)) : Forall is_Some l -> l = Some <$> omap id l.
Proof. induction 1 as [|y l [v ->] _ IH]; [done|]. simpl. by f_equal. Qed.

Lemma typed_holds c : typed c -> holds c (elements c).
Proof.
  intros (Hl & t & Ht & Hb & He). unfold STACK_SIZE in Hb.
  unfold elements. rewrite Ht. cbn [default from_option id].
  set (w := take (Z.to_nat t) (contents c)). pose proof (all_written w) as Hw.
  assert (Forall is_Some w) as Hf.
  { apply Forall_lookup_2. intros i y [Hy Hi]%lookup_take_Some.
    destruct (He i Hi) as [v Hv]. rewrite Hy in Hv. by simplify_eq. }
  specialize (Hw Hf). set (vs := omap id w) in *.
  assert (length vs = Z.to_nat t) as Hln.
  { apply (f_equal length) in Hw. unfold w in Hw. rewrite length_take, length_fmap in Hw. lia. }
  split_and!; rewrite ?length_rev, ?Hln; [done|rewrite Z2Nat.id by lia; done|lia|].
  rewrite rev_involutive. intros i x Hi.
  assert (w !! i = Some (Some x)) as Hx by (rewrite Hw, list_lookup_fmap, Hi; done).
  by apply lookup_take_Some in Hx as [Hx _].
Qed.

(** A well typed store represents the sequences of its stacks, and only a
    well typed store represents anything. *)
Lemma typed_rep s : typed_store s -> rep s (elements <$> cells s, avail s).
Proof.
  intros Ht. split; [|done]. intros l. simpl. rewrite lookup_fmap.
  destruct (cells s !! l) as [c|] eqn:E; constructor. apply typed_holds. by apply (Ht l).
Qed.
Lemma rep_typed s m : rep s m -> typed_store s.
Proof.
  intros H l c E. destruct (rep_live _ _ l H) as [[? ?]|(? & xs & ? & _ & Hc)]; simplify_eq.
  by eapply holds_typed.
Qed.

(** The accesses to a live structure and to one that is gone. *)
Section Access.
Context (s : store stack_type) (l : loc).

Lemma top_of_dead : cells s !! l = None -> top_of (Some l) s = inl UB.
Proof. intros E. unfold top_of, need, get, mbind, M_bind, mret, M_ret. by rewrite E. Qed.
Lemma set_top_dead v : cells s !! l = None -> set_top (Some l) v s = inl UB.
Proof. intros E. unfold set_top, need, get, mbind, M_bind, mret, M_ret. by rewrite E. Qed.

Context (c : stack_type) (Hc : cells s !! l = Some c).
Lemma top_of_live xs : holds c xs -> top_of (Some l) s = inr (Z.of_nat (length xs), s).
Proof.
  intros (_ & Ht & _). unfold top_of, need, get, mbind, M_bind, mret, M_ret. by rewrite Hc, Ht.
Qed.
Lemma set_top_live v :
  set_top (Some l) v s = inr (tt, Store (<[l := Stack_type (contents c) (Some v)]> (cells s)) (avail s)).
Proof. unfold set_top, need, get, set, mbind, M_bind, mret, M_ret. by rewrite Hc, Hc. Qed.
Lemma set_slot_live (n : nat) v : length (contents c) = 100%nat -> (n < 100)%nat ->
  set_slot (Some l) (Z.of_nat n) v s =
  inr (tt, Store (<[l := Stack_type (<[n := Some v]> (contents c)) (top c)]> (cells s)) (avail s)).
Proof.
  intros Hl Hn. unfold set_slot, need, get, set, mbind, M_bind, mret, M_ret. rewrite Hc, Hl.
  rewrite (proj2 (Z.leb_le _ _)), (proj2 (Z.ltb_lt _ _)) by lia. cbn [andb]. by rewrite Hc, Nat2Z.id.
Qed.
Lemma slot_live (n : nat) v :
  contents c !! n = Some (Some v) -> slot (Some l) (Z.of_nat n) s = inr (v, s).
Proof.
  intros Hn. unfold slot, need, get, mbind, M_bind, mret, M_ret. rewrite Hc.
  rewrite (proj2 (Z.ltb_ge _ _)) by lia. by rewrite Nat2Z.id, Hn.
Qed.
End Access.

(** The rules that run a call on a live structure. *)
Ltac run_live Hc Hh :=
  repeat first [ rewrite bind_eq | rewrite (top_of_live _ _ _ Hc _ Hh) | rewrite (set_top_live _ _ _ Hc)
               | progress cbn [sim mret M_ret] ].

Lemma length_eqb (xs : list Z) (n : nat) :
  (Z.of_nat (length xs) =? Z.of_nat n) = bool_decide (length xs = n).
Proof. case_bool_decide; [apply Z.eqb_eq|apply Z.eqb_neq]; lia. Qed.

(** ** The calls *)

Lemma create_step s m : rep s m -> sim rep (exec Create s) (Spec.step Create m).
Proof.
  intros H. pose proof (rep_dom _ _ H) as Hd. pose proof H as [Hc Ha].
  unfold exec, create, Spec.step. rewrite !bind_eq. unfold malloc. rewrite Ha, Hd.
  destruct m.2 as [|a]; [done|]. rewrite bind_eq.
  rewrite (set_top_live _ _ fresh_stack) by apply lookup_insert_eq.
  cbn [sim mret M_ret cells avail contents fresh_stack]. rewrite insert_insert_eq. split; [done|].
  apply (rep_insert (Store (cells s) a) (m.1, a)); [by split|].
  split_and!; [done..|simpl; lia|]. intros [] ?; done.
Qed.

Lemma push_step s m l i : rep s m -> sim rep (exec (Push (Some l) i) s) (Spec.step (Push (Some l) i) m).
Proof.
  intros H. unfold exec, push, is_full, Spec.step, Spec.on.
  destruct (rep_live _ _ l H) as [[Hc Hm]|(c & xs & Hc & Hm & Hh)]; rewrite Hm.
  { by rewrite !bind_eq, (top_of_dead _ _ Hc). }
  run_live Hc Hh. change STACK_SIZE with (Z.of_nat 100). rewrite length_eqb.
  pose proof Hh as (Hl & _ & Hx & _).
  destruct (decide _) as [E|E]; [by rewrite bool_decide_eq_true_2 by done|].
  rewrite bool_decide_eq_false_2 by done. cbn [negb Z.eqb]. run_live Hc Hh.
  rewrite (set_slot_live _ _ _ (lookup_insert_eq _ _ _)) by (simpl; lia).
  cbn [sim mret M_ret cells avail contents top]. rewrite insert_insert_eq. split; [done|].
  apply rep_insert; [done|by apply holds_push].
Qed.

Lemma pop_step s m l : rep s m -> sim rep (exec (Pop (Some l)) s) (Spec.step (Pop (Some l)) m).
Proof.
  intros H. unfold exec, pop, is_empty, Spec.step, Spec.on.
  destruct (rep_live _ _ l H) as [[Hc Hm]|(c & xs & Hc & Hm & Hh)]; rewrite Hm.
  { by rewrite !bind_eq, (top_of_dead _ _ Hc). }
  run_live Hc Hh. destruct xs as [|x xs]; [done|]. cbn [length].
  rewrite (proj2 (Z.eqb_neq (Z.of_nat (S (length xs))) 0)) by lia. cbn [negb Z.eqb]. run_live Hc Hh.
  destruct (holds_pop _ _ _ Hh) as [Hx Hr].
  replace (Z.of_nat (length (x :: xs)) - 1) with (Z.of_nat (length xs)) by (simpl; lia).
  erewrite slot_live by (apply lookup_insert_eq || exact Hx). cbn [sim mret M_ret]. split; [done|].
  by apply rep_insert.
Qed.

(** One call refines one step of the specification. *)
Lemma exec_step o s m : rep s m -> sim rep (exec o s) (Spec.step o m).
Proof.
  intros H. destruct o as [|[l|]|[l|]|[l|]|[l|]|[l|] i|[l|]]; try done;
    [by apply create_step| | | | |by apply push_step|by apply pop_step].
  all: destruct (rep_live _ _ l H) as [[Hc Hm]|(c & xs & Hc & Hm & Hh)].
  all: unfold exec, destory, make_empty, is_empty, is_full, Spec.step, Spec.on; rewrite ?bind_eq, Hm.
  - unfold free. by rewrite Hc.
  - unfold free. rewrite Hc. split; [done|]. destruct H as [Hr Ha]. split; [|done]. intros l'. simpl.
    destruct (decide (l' = l)) as [->|]; [rewrite !lookup_delete_eq; constructor|by rewrite !lookup_delete_ne].
  - by rewrite (set_top_dead _ _ _ Hc).
  - rewrite (set_top_live _ _ _ Hc). split; [done|]. apply rep_insert; [done|by eapply holds_empty].
  - by rewrite (top_of_dead _ _ Hc).
  - run_live Hc Hh. split; [|done]. by destruct xs.
  - by rewrite (top_of_dead _ _ Hc).
  - run_live Hc Hh. change STACK_SIZE with (Z.of_nat 100). rewrite length_eqb.
    split; [|done]. by destruct (decide _); case_bool_decide.
Qed.

(** Every sequence of calls of the stack interface, on any number of
    stacks, returns what the specification on sequences returns and ends the
    way it does: a pop gives the last value pushed and 0 on an empty stack, the
    hundred-and-first push ends the process, and so does a create without
    memory; the stacks left represent the sequences the specification leaves. *)
Theorem stack_refines_sequences os s m : rep s m ->
  (exec_all exec os s).1 = (exec_all Spec.step os m).1 /\
  match (exec_all exec os s).2, (exec_all Spec.step os m).2 with
  | inl e, inl e' => e = e'
  | inr s', inr m' => rep s' m'
  | _, _ => False
  end.
Proof.
  revert s m. induction os as [|o os IH]; intros s m H; [done|]. simpl.
  pose proof (exec_step o s m H) as Ho. unfold sim in Ho.
  destruct (exec o s) as [e|[v s']], (Spec.step o m) as [e'|[v' m']]; try done.
  destruct Ho as [-> Hr]. specialize (IH s' m' Hr).
  destruct (exec_all exec os s') as [vs e], (exec_all Spec.step os m') as [vs' e']. simpl in *.
  by destruct IH as [-> IH].
Qed.

Lemma stack_refines_sequences_witness :
  let os := [Create; Create; Push (Some 1%positive) 7; Push (Some 1%positive) 8; Push (Some 2%positive) 9;
             Pop (Some 1%positive); Pop (Some 1%positive); Pop (Some 1%positive); IsEmpty (Some 2%positive)] in
  (exec_all exec os (Store ∅ 2)).1 =
  [Ptr (Some 1%positive); Ptr (Some 2%positive); Unit; Unit; Unit; Int 8; Int 7; Int 0; Int 0].
Proof.
  intros os. destruct (stack_refines_sequences os (Store ∅ 2) (∅, 2%nat)) as [E _].
  - split; [|done]. intros l. simpl. rewrite !lookup_empty. constructor.
  - etransitivity; [exact E|]. vm_compute. reflexivity.
Defined.

(** The operation works on a structure that has not been destroyed. *)
Definition on_live (o : op) (s : store stack_type) : bool :=
  let live p := match p with Some l => bool_decide (is_Some (cells s !! l)) | None => false end in
  match o with
  | Create => true
  | Destory None => true
  | Destory p | MakeEmpty p | IsEmpty p | IsFull p | Push p _ | Pop p => live p
  end.

(** C30. The stack is type safe: in a store of well typed stacks (top within
    the array, every element below it written) a call on a live stack leaves
    every stack well typed, or ends the process with its message because memory
    or room is exhausted; it never reads an element that was not written nor
    touches one outside the array. *)
Theorem stack_ops_typed o s : typed_store s -> on_live o s = true ->
  match exec o s with
  | inr (_, s') => typed_store s'
  | inl e =>
      (o = Create /\ avail s = O /\ e = Exited "Error in create: Stack could not be created") \/
      (exists l i c, o = Push (Some l) i /\ cells s !! l = Some c /\ top c = Some STACK_SIZE /\
         e = Exited "Error in push: stack is full")
  end.
Proof.
  intros Ht Hl. pose proof (exec_step o s _ (typed_rep s Ht)) as Ho. unfold sim in Ho.
  destruct (exec o s) as [e|[v s']], (Spec.step o _) as [e'|[v' m']] eqn:E; try done.
  2:{ destruct Ho as [_ Hr]. by eapply rep_typed. }
  subst e'. unfold on_live in Hl.
  assert (forall l, bool_decide (is_Some (cells s !! l)) = true -> exists c, cells s !! l = Some c)
    as Hlive by (intros l [c Hc]%bool_decide_eq_true; eauto).
  destruct o as [|[l|]|[l|]|[l|]|[l|]|[l|] i|[l|]]; try done.
  { simpl in E. destruct (avail s) eqn:Ea; simplify_eq. by left. }
  all: destruct (Hlive _ Hl) as [c Hc]; unfold Spec.step, Spec.on in E;
    cbn [fst] in E; rewrite lookup_fmap, Hc in E; cbn [fmap option_fmap option_map] in E; try done.
  - destruct (decide _) as [En|]; simplify_eq. right. exists l, i, c. split_and!; try done.
    destruct (typed_holds _ (Ht _ _ Hc)) as (_ & -> & _). by rewrite En.
  - by destruct (elements c).
Qed.

Lemma stack_ops_typed_witness :
  let s := Store {[1%positive := Stack_type (replicate 100 (Some 5)) (Some 100)]} 0 in
  match exec (Push (Some 1%positive) 7) s with inr (_, s') => typed_store s' | inl e =>
    (Push (Some 1%positive) 7 = Create /\ avail s = O /\ e = Exited "Error in create: Stack could not be created") \/
    (exists l i c, Push (Some 1%positive) 7 = Push (Some l) i /\ cells s !! l = Some c /\ top c = Some STACK_SIZE /\
         e = Exited "Error in push: stack is full") end.
Proof.
  intros s. apply (stack_ops_typed (Push (Some 1%positive) 7) s); [|reflexivity].
  apply map_Forall_singleton. split; [done|]. exists 100. split; [done|]. split; [unfold STACK_SIZE; lia|].
  intros i Hi. exists 5. apply lookup_replicate_2. lia.
Defined.
End StackProofs.

Module SListProofs.
Import Mem SList.
#[local] Open Scope Z_scope.

Abbreviation entry := (loc * Z)%type.
Definition first (es : list entry) : option loc := match es with [] => None | e :: _ => Some e.1 end.

(** The entries are linked one to the next, up to NULL. *)
Fixpoint chain (h : gmap loc Node) (es : list entry) : Prop :=
  match es with
  | [] => True
  | e :: r => h !! e.1 = Some (MkNode (Some e.2) (Some (first r))) /\ chain h r
  end.

(** The pointer [p] is to a list of the values [vs]. *)
Definition holds (s : store Node) (p : option loc) (vs : list Z) : Prop :=
  exists es, es.*2 = vs /\ first es = p /\ NoDup es.*1 /\ chain (cells s) es.

(** Without the first [n]. *)
Fixpoint without (n : Z) (vs : list Z) : list Z :=
  match vs with [] => [] | v :: r => if v =? n then r else v :: without n r end.

Section Lists.
Implicit Types (s : store Node) (es : list entry) (l : loc).

Lemma chain_frame h h' es : (forall l, l ∈ es.*1 -> h' !! l = h !! l) -> chain h es -> chain h' es.
Proof.
  induction es as [|e es IH]; intros Hh; simpl; [done|]. intros [He Hs].
  split; [rewrite Hh; [done|simpl; left]|]. apply IH; [|done]. intros l Hl. apply Hh. by right.
Qed.

Lemma first_entry_app a e b : first (a ++ e :: b) = first (a ++ [e]).
Proof. by destruct a. Qed.

Lemma node_run {A} s l v nx : cells s !! l = Some (MkNode (Some v) (Some nx)) ->
  (forall (f : Z -> M A), (value_of (Some l) ≫= f) s = f v s) /\
  (forall (f : option loc -> M A), (next_of (Some l) ≫= f) s = f nx s).
Proof.
  intros E. unfold value_of, next_of, need, get, mbind, M_bind, mret, M_ret. by rewrite E.
Qed.

Lemma set_next_run s l n q : cells s !! l = Some n ->
  set_next (Some l) q s = inr (tt, Store (<[l := MkNode (value n) (Some q)]> (cells s)) (avail s)).
Proof. intros E. unfold set_next, need, get, set, mbind, M_bind, mret, M_ret. by rewrite E, E. Qed.

Lemma set_value_run s l n v : cells s !! l = Some n ->
  set_value (Some l) v s = inr (tt, Store (<[l := MkNode (Some v) (next n)]> (cells s)) (avail s)).
Proof. intros E. unfold set_value, need, get, set, mbind, M_bind, mret, M_ret. by rewrite E, E. Qed.

Lemma free_cell_run s l n : cells s !! l = Some n ->
  free (Some l) s = inr (tt, Store (delete l (cells s)) (avail s)).
Proof. intros E. unfold free. by rewrite E. Qed.

Lemma display_chain s fuel es : chain (cells s) es -> (length es <= fuel)%nat ->
  display_loop fuel (first es) s = inr (Line <$> es.*2, s).
Proof.
  revert fuel. induction es as [|[l v] es IH]; intros fuel Hc Hf; [by destruct fuel|].
  destruct fuel as [|f]; [simpl in Hf; lia|]. destruct Hc as [He Hc]. cbn [display_loop first fst].
  rewrite (proj1 (node_run _ _ _ _ He)), (proj2 (node_run _ _ _ _ He)).
  unfold mbind, M_bind. by rewrite IH by (simpl in Hf; lia || done).
Qed.

(** The last entry before a node is relinked past it, and the node freed. *)
Lemma chain_unlink s pre (p : entry) l v post :
  let es := pre ++ p :: (l, v) :: post in
  chain (cells s) es -> NoDup es.*1 ->
  chain (delete l (<[p.1 := MkNode (Some p.2) (Some (first post))]> (cells s))) (pre ++ p :: post).
Proof.
  cbn zeta. induction pre as [|e pre IH]; cbn [app fmap list_fmap chain]; intros Hc Hd.
  - destruct Hc as (Hp & _ & Hr). apply NoDup_cons in Hd as [Hp1 Hd].
    apply NoDup_cons in Hd as [Hl _]. simpl in Hl.
    apply not_elem_of_cons in Hp1 as [Hpl Hpp]. simpl in Hpl.
    split; [by rewrite lookup_delete_ne, lookup_insert_eq|].
    revert Hr. apply chain_frame. intros l' Hl'.
    assert (l' <> l /\ l' <> p.1) as [? ?] by (split; intros ->; done).
    by rewrite lookup_delete_ne, lookup_insert_ne.
  - destruct Hc as [He Hc]. apply NoDup_cons in Hd as [Hn Hd]. split; [|by apply IH].
    rewrite fmap_app in Hn. cbn in Hn. rewrite !not_elem_of_app, !not_elem_of_cons in Hn.
    destruct Hn as (_ & ? & ? & _). rewrite lookup_delete_ne, lookup_insert_ne, He by done. do 3 f_equal. by destruct pre.
Qed.

Lemma remove_tail s fuel list pre (p : entry) es n :
  chain (cells s) (pre ++ p :: es) -> NoDup (pre ++ p :: es).*1 -> (length es <= fuel)%nat ->
  exists s', remove_loop fuel list (Some p.1) (first es) n s =
      inr ((if bool_decide (n ∈ es.*2) then 1 else 0), s') /\
    exists es', es'.*2 = (pre ++ [p]).*2 ++ without n es.*2 /\ first es' = first (pre ++ [p]) /\
      NoDup es'.*1 /\ chain (cells s') es'.
Proof.
  revert pre p fuel. induction es as [|[l v] es IH]; intros pre p fuel Hc Hd Hf.
  { exists s. split; [by destruct fuel|]. exists (pre ++ [p]). simpl. by rewrite app_nil_r. }
  destruct fuel as [|f]; [simpl in Hf; lia|].
  assert (exists h, chain h (p :: (l, v) :: es) /\ h = cells s) as (? & (Hp & Hl & _) & ->).
  { exists (cells s). split; [|done]. clear - Hc. induction pre; [done|]. apply IHpre, Hc. }
  cbn [remove_loop first fst]. rewrite (proj1 (node_run _ _ _ _ Hl)).
  cbn [fmap list_fmap snd without]. destruct (Z.eqb_spec v n) as [->|Hv].
  - rewrite bool_decide_eq_true_2 by left. rewrite (proj2 (node_run _ _ _ _ Hl)).
    assert ((match first es with
             | None => set_next (Some p.1) None
             | Some _ => nx' ← next_of (Some l); set_next (Some p.1) nx'
             end) s = set_next (Some p.1) (first es) s) as Hset.
    { destruct (first es) eqn:E; [|done]. by rewrite (proj2 (node_run _ _ _ _ Hl)). }
    rewrite bind_eq, Hset, (set_next_run _ _ _ _ Hp), bind_eq.
    assert (p.1 <> l) as Hpl.
    { rewrite fmap_app in Hd. apply NoDup_app in Hd as (_ & _ & Hd). cbn in Hd.
      apply NoDup_cons in Hd as [Hd _]. apply not_elem_of_cons in Hd. naive_solver. }
    rewrite (free_cell_run _ l (MkNode (Some n) (Some (first es)))) by (simpl; by rewrite lookup_insert_ne).
    eexists. split; [done|]. exists (pre ++ p :: es). split_and!.
    + rewrite !fmap_app, <- app_assoc. done.
    + apply first_entry_app.
    + rewrite fmap_app in *. cbn in *. clear - Hd. rewrite !NoDup_app, !NoDup_cons in *. set_solver.
    + by apply (chain_unlink s pre p l n es).
  - rewrite (proj2 (node_run _ _ _ _ Hl)).
    destruct (IH (pre ++ [p]) (l, v) f) as (s' & Hr & es' & Hv' & Hf' & Hd' & Hc').
    + by rewrite <- app_assoc.
    + by rewrite <- app_assoc.
    + simpl in Hf. lia.
    + exists s'. split.
      * cbn [fst] in Hr. rewrite Hr. do 2 f_equal. case_bool_decide as H1; case_bool_decide as H2; try done; exfalso; set_solver.
      * exists es'. split_and!; [|rewrite Hf'; by destruct pre|done..].
        rewrite Hv', !fmap_app, <- !app_assoc. done.
Qed.
End Lists.

(** func/list.c keeps a sequence of integers: display_list prints it,
    add_node puts a value in front, and remove_node takes out the first
    occurrence of a value that is not the first of the list and says whether
    there was one; the loops end, and no freed or unwritten memory is used. *)
Theorem slist_refines_sequence s p vs fuel n : holds s p vs -> (length vs <= fuel)%nat ->
  display_list fuel p s = inr (match vs with [] => [Empty_message] | _ => Line <$> vs end, s) /\
  match add_node p n s with
  | inl e => avail s = O /\ e = Exited "Error: malloc failed in add_node"
  | inr (q, s') => holds s' q (n :: vs)
  end /\
  (head vs <> Some n ->
   exists s', remove_node fuel p n s = inr ((if bool_decide (n ∈ vs) then 1 else 0), s') /\
     holds s' p (without n vs)).
Proof.
  intros (es & <- & <- & Hd & Hc) Hf. rewrite length_fmap in Hf. split_and!.
  - unfold display_list, mbind, M_bind. rewrite display_chain by done. by destruct es.
  - unfold add_node, malloc, mbind, M_bind. destruct (avail s) as [|a]; [done|].
    set (l := fresh (dom (cells s))).
    assert (l ∉ dom (cells s)) as Hl by apply is_fresh.
    erewrite set_value_run by apply lookup_insert_eq. erewrite set_next_run by apply lookup_insert_eq.
    cbn [cells avail mret M_ret value]. rewrite !insert_insert_eq.
    assert (forall e, e ∈ es.*1 -> e <> l) as Hne.
    { intros e He ->. apply Hl. clear - He Hc. induction es as [|x es IH]; [set_solver|].
      destruct Hc as [Hx Hc]. apply elem_of_cons in He as [->|He]; [apply elem_of_dom; eauto|auto]. }
    exists ((l, n) :: es). split_and!; [done..|apply NoDup_cons; split; [|done]; intros H; by apply (Hne l)|].
    split; [apply lookup_insert_eq|]. revert Hc. apply chain_frame. intros e He.
    apply lookup_insert_ne. intros ->. by apply (Hne e).
  - intros Hh. destruct es as [|[l v] es]; [exists s; split; [by destruct fuel|exists []; done]|].
    destruct fuel as [|f]; [simpl in Hf; lia|]. pose proof Hc as [Hl _]. cbn [fst snd] in Hl.
    unfold remove_node. cbn [remove_loop first fst]. rewrite (proj1 (node_run _ _ _ _ Hl)).
    cbn [head fmap list_fmap snd without] in *. rewrite (proj2 (Z.eqb_neq v n)) by congruence.
    rewrite (proj2 (node_run _ _ _ _ Hl)).
    destruct (remove_tail s f (Some l) [] (l, v) es n) as (s' & Hr & es' & Hv & Hf' & Hd' & Hc');
      [done|done|simpl in Hf; lia|].
    exists s'. split; [|exists es'; done].
    cbn [fst] in Hr. rewrite Hr. do 2 f_equal. case_bool_decide as H1; case_bool_decide as H2; try done; exfalso; set_solver.
Qed.

(** The list 1, 2, 3 in three blocks. *)
Definition three : store Node :=
  Store (list_to_map [(1%positive, MkNode (Some 1) (Some (Some 2%positive)));
                      (2%positive, MkNode (Some 2) (Some (Some 3%positive)));
                      (3%positive, MkNode (Some 3) (Some None))]) 1.
Lemma three_holds : holds three (Some 1%positive) [1; 2; 3].
Proof.
  exists [(1%positive, 1); (2%positive, 2); (3%positive, 3)]. split_and!; try done.
  apply (bool_decide_eq_true_1 _). vm_compute. reflexivity.
Qed.

Lemma slist_refines_sequence_witness :
  exists s', remove_node 3 (Some 1%positive) 2 three = inr (1, s') /\ holds s' (Some 1%positive) [1; 3].
Proof.
  destruct (slist_refines_sequence three (Some 1%positive) [1; 2; 3] 3 2 three_holds) as (_ & _ & H);
    [simpl; lia|]. apply H. discriminate.
Defined.

(** Three things func/list.c does not do.  A value at the head is removed, but
    the caller's pointer is then to freed memory and displaying the list is
    undefined; search_list never looks at the last node; and it dereferences
    the empty list. *)
Theorem slist_defects :
  (forall s p vs n f, holds s p (n :: vs) ->
     exists s', remove_node (S f) p n s = inr (1, s') /\ display_list (S f) p s' = inl UB) /\
  (forall s p vs n f, holds s p (vs ++ [n]) -> n ∉ vs -> (length vs < f)%nat ->
     search_list f p n s = inr (None, s)) /\
  (forall s n f, search_list (S f) None n s = inl UB).
Proof.
  split_and!; [| |done].
  - intros s p vs n f (es & Hv & <- & Hd & Hc). destruct es as [|[l v] es]; [done|].
    cbn in Hv. simplify_eq. destruct Hc as [Hl Hc]. cbn [fst snd] in Hl.
    unfold remove_node. cbn [remove_loop first fst]. rewrite (proj1 (node_run _ _ _ _ Hl)), Z.eqb_refl.
    rewrite (proj2 (node_run _ _ _ _ Hl)), bind_eq, (free_cell_run _ _ _ Hl). eexists. split; [done|].
    unfold display_list. cbn [display_loop]. rewrite !bind_eq. unfold value_of, need, get, mbind, M_bind, mret, M_ret.
    cbn [cells]. by rewrite lookup_delete_eq.
  - intros s p vs n f (es & Hv & <- & _ & Hc). revert vs f Hv. induction es as [|[l v] es IH]; intros vs f Hv Hn Hf.
    { by destruct vs. }
    destruct f as [|f]; [lia|]. destruct Hc as [Hl Hc]. cbn [fst snd] in Hl. cbn [search_list first fst].
    rewrite (proj2 (node_run _ _ _ _ Hl)). destruct vs as [|w vs]; cbn in Hv; simplify_eq.
    { by destruct es. }
    destruct es as [|e es]; [by destruct vs|]. cbn [first].
    rewrite (proj1 (node_run _ _ _ _ Hl)). rewrite (proj2 (Z.eqb_neq w n)) by set_solver.
    apply (IH Hc vs f); [done|set_solver|simpl in Hf; lia].
Qed.
End SListProofs.
