(* ===== verification/WebClient.v ===== *)
(** * The nonblocking web client: unpv13e/nonblock/web.c

    One process fetches a home page and then up to MAXFILES files, at most
    maxnconn connections at a time: start_connect begins a nonblocking connect,
    the loop of main waits in select for the connections that are established
    (writable) or have data (readable).  The globals are a record; [files] is
    file[0], ..., file[nfiles - 1]. *)
From stdpp Require Import base list numbers strings gmap.
From S2P Require Import Prelude InetAddr Sys Error Wrap StreamIO SockAddr Connect Server.

Module WebClient.
Definition MAXFILES : Z := 20.
Definition SERV : list Z := str "80".
Definition F_CONNECTING : Z := 1.
Definition F_READING : Z := 2.
Definition F_DONE : Z := 4.

Record file := File { f_name : list Z; f_host : list Z; f_fd : Z; f_flags : Z }.

Record web := Web {
  files : list file; nconn : Z; nlefttoconn : Z; nlefttoread : Z; maxfd : Z; rset : fd_set; wset : fd_set }.

(** GET_CMD with its argument. *)
Definition GET_CMD (fname : list Z) : list Z := str "GET " ++ fname ++ str " HTTP/1.0" ++ [13; 10; 13; 10].

(** n = snprintf(line, sizeof(line), GET_CMD, fname); Writen(fd, line, n) *)
Definition send_get (wfuel : nat) (fd : Z) (fname line : list Z) : prog Z :=
  line1 ← mem (array_snprintf line MAXLINE (GET_CMD fname));
  let n := Z.of_nat (length (GET_CMD fname)) in
  _ ← Writen wfuel fd line1 n;
  Ret n.

Definition printf (msg : list Z) : prog unit := call_ (Efputs (msg ++ [10]) stdout).

(** What an array on the stack holds before it is written is not read. *)
Definition stack_array : list Z := replicate (Z.to_nat MAXLINE) 0.

(** ** home_page.c *)
Fixpoint home_loop (fuel : nat) (fd : Z) : prog unit :=
  match fuel with
  | O => Halt Spin
  | S f =>
      bs ← Read fd MAXLINE;
      let n := Z.of_nat (length bs) in
      if n =? 0 then Ret tt
      else _ ← printf (str "read " ++ fmt_d n ++ str " bytes of home page"); home_loop f fd
  end.

Definition home_page (fuel : nat) (host fname : list Z) : prog unit :=
  fd ← Tcp_connect (Some host) (Some SERV);
  _ ← send_get fuel fd fname stack_array;
  _ ← home_loop fuel fd;
  _ ← printf (str "end-of-file on home page");
  Close fd.

(** ** write_get_cmd.c: for file[i] *)
Definition set_file (i : nat) (f : file) (st : web) : web :=
  Web (<[i := f]> (files st)) (nconn st) (nlefttoconn st) (nlefttoread st) (maxfd st) (rset st) (wset st).
Definition set_sets (m : Z) (r w : fd_set) (st : web) : web :=
  Web (files st) (nconn st) (nlefttoconn st) (nlefttoread st) m r w.

Definition write_get_cmd (wfuel : nat) (i : nat) (st : web) : prog web :=
  f ← mem (files st !! i);
  n ← send_get wfuel (f_fd f) (f_name f) stack_array;
  _ ← printf (str "wrote " ++ fmt_d n ++ str " bytes for " ++ f_name f);
  let st1 := set_file i (File (f_name f) (f_host f) (f_fd f) F_READING) st in
  r ← mem (FD_SET (f_fd f) (rset st1));
  Ret (set_sets (if maxfd st1 <? f_fd f then f_fd f else maxfd st1) r (wset st1) st1).

(** ** start_connect.c *)
Definition start_connect (wfuel : nat) (i : nat) (st : web) : prog web :=
  f ← mem (files st !! i);
  res ← Host_serv (Some (f_host f)) (Some SERV) 0 SOCK_STREAM;
  ai ← mem (head res);
  fd ← Socket (ai_family ai) (ai_socktype ai) (ai_protocol ai);
  let f1 := File (f_name f) (f_host f) fd (f_flags f) in
  let st1 := set_file i f1 st in
  _ ← printf (str "start_connect for " ++ f_name f ++ str ", fd " ++ fmt_d fd);
  flags ← Fcntl fd F_GETFL 0;
  _ ← Fcntl fd F_SETFL (Z.lor flags O_NONBLOCK);
  n ← call (Econnect fd (ai_addr ai) (ai_addrlen ai));
  match n with
  | Err _ =>
      e ← get_errno;
      if negb (e =? EINPROGRESS) then err_sys (str "nonblocking connect error")
      else
        let st2 := set_file i (File (f_name f) (f_host f) fd F_CONNECTING) st1 in
        r ← mem (FD_SET fd (rset st2));
        w ← mem (FD_SET fd (wset st2));
        Ret (set_sets (if maxfd st2 <? fd then fd else maxfd st2) r w st2)
  | Ok _ => write_get_cmd wfuel i st1
  end.

(** ** web.c *)

(** for (i = 0; i < nfiles; i++) if (file[i].f_flags == 0) break; *)
Fixpoint find_file (l : list file) : nat :=
  match l with
  | [] => 0
  | f :: l => if f_flags f =? 0 then 0 else S (find_file l)
  end.

(** while (nconn < maxnconn && nlefttoconn > 0) *)
Fixpoint connect_loop (wfuel fuel : nat) (maxnconn : Z) (st : web) : prog web :=
  if (nconn st <? maxnconn) && (0 <? nlefttoconn st) then
    match fuel with
    | O => Halt Spin
    | S f =>
        let i := find_file (files st) in
        if bool_decide (i = length (files st))
        then err_quit (str "nlefttoconn = " ++ fmt_d (nlefttoconn st) ++ str " but nothing found")
        else
          st1 ← start_connect wfuel i st;
          connect_loop wfuel f maxnconn
            (Web (files st1) (nconn st1 + 1) (nlefttoconn st1 - 1) (nlefttoread st1) (maxfd st1) (rset st1) (wset st1))
    end
  else Ret st.

(** The connection of file[i] is established; or so the code says, whatever getsockopt has told. *)
Definition established (wfuel : nat) (i : nat) (f : file) (st : web) : prog web :=
  r ← call (Egetsockopt (f_fd f) SOL_SOCKET SO_ERROR);
  failed ← (match r with
            | Err _ => Ret true
            | Ok (OInt error) => Ret (negb (error =? 0))
            | Ok _ => fault
            end);
  _ ← (if (failed : bool) then err_ret (str "nonblocking connect failed for " ++ f_name f) else Ret tt);
  _ ← printf (str "connection established for " ++ f_name f);
  w ← mem (FD_CLR (f_fd f) (wset st));
  write_get_cmd wfuel i (set_sets (maxfd st) (rset st) w st).

(** file[i] is readable. *)
Definition readable (i : nat) (f : file) (st : web) : prog web :=
  bs ← Read (f_fd f) MAXLINE;
  let n := Z.of_nat (length bs) in
  if n =? 0 then
    _ ← printf (str "end-of-file on " ++ f_name f);
    _ ← Close (f_fd f);
    let st1 := set_file i (File (f_name f) (f_host f) (f_fd f) F_DONE) st in
    r ← mem (FD_CLR (f_fd f) (rset st1));
    Ret (Web (files st1) (nconn st1 - 1) (nlefttoconn st1) (nlefttoread st1 - 1) (maxfd st1) r (wset st1))
  else
    _ ← printf (str "read " ++ fmt_d n ++ str " bytes from " ++ f_name f);
    Ret st.

(** The body of the for loop. *)
Definition serve_file (wfuel : nat) (rs ws : fd_set) (i : nat) (st : web) : prog web :=
  f ← mem (files st !! i);
  let flags := f_flags f in
  if (flags =? 0) || negb (Z.land flags F_DONE =? 0) then Ret st
  else
    connected ← (if negb (Z.land flags F_CONNECTING =? 0) then
                   r ← mem (FD_ISSET (f_fd f) rs);
                   if (r : bool) then Ret true else mem (FD_ISSET (f_fd f) ws)
                 else Ret false);
    if (connected : bool) then established wfuel i f st
    else if negb (Z.land flags F_READING =? 0) then
      r ← mem (FD_ISSET (f_fd f) rs);
      if (r : bool) then readable i f st else Ret st
    else Ret st.

(** for (i = 0; i < nfiles; i++), with [k] rounds left. *)
Fixpoint serve_files (wfuel : nat) (rs ws : fd_set) (k i : nat) (st : web) : prog web :=
  match k with
  | O => Ret st
  | S k' => st1 ← serve_file wfuel rs ws i st; serve_files wfuel rs ws k' (S i) st1
  end.

(** The body of while (nlefttoread > 0). *)
Definition web_turn (wfuel : nat) (maxnconn : Z) (st : web) : prog web :=
  st1 ← connect_loop wfuel (length (files st)) maxnconn st;
  '(_, (rs, ws, _)) ← Select (maxfd st1 + 1) (rset st1) (wset st1) ∅ None;
  serve_files wfuel rs ws (length (files st1)) 0 st1.

Fixpoint web_loop (wfuel turns : nat) (maxnconn : Z) (st : web) : prog web :=
  if 0 <? nlefttoread st then
    match turns with
    | O => Halt Spin
    | S t => st1 ← web_turn wfuel maxnconn st; web_loop wfuel t maxnconn st1
    end
  else Ret st.

Definition web_init (host : list Z) (names : list (list Z)) : web :=
  let fs := map (fun n => File n host 0 0) (take (Z.to_nat MAXFILES) names) in
  let nfiles := Z.of_nat (length fs) in
  Web fs 0 nfiles nfiles (-1) ∅ ∅.

(** main with its arguments [maxnconn], [host], [home] and [names], up to exit(0). *)
Definition web_main (wfuel turns : nat) (maxnconn : Z) (host home : list Z) (names : list (list Z)) : prog web :=
  let st := web_init host names in
  _ ← printf (str "nfiles = " ++ fmt_d (Z.of_nat (length (files st))));
  _ ← home_page wfuel host home;
  web_loop wfuel turns maxnconn st.
End WebClient.
