(* ===== verification/WebClientProofs.v ===== *)
(** * The nonblocking web client fetches every file

    Over a system in which a connection that is open has been sent some bytes
    ([opens]) and a connection that was closed had been sent some ([shut]):
    web.c sends each file's request exactly once on a connection of its own,
    keeps its two descriptor sets and its counters in step with the flags of
    the files, never has more than maxnconn connections, never waits in select
    for nothing, and comes to its exit(0) with every connection closed. *)
From stdpp Require Import base list numbers strings sets gmap.
From S2P Require Import Prelude InetAddr InetV4 Sys Error Wrap StreamIO StreamProofs SockAddr Connect Server Hoare WebClient.

Module WebClientProofs.
Import WebClient.

(** The calls that do not change the connections. *)
Definition quiet {X} (e : sysE X) : bool :=
  match e with
  | Efcntl _ _ _ | Egetsockopt _ _ _ | Econnect _ _ _ | Eselect _ _ _ _ _ | Efputs _ _ | Efflush _ => true
  | _ => false
  end.

(** The calls whose failure ends the process. *)
Definition fatal {X} (e : sysE X) : bool :=
  match e with
  | Efcntl _ _ _ | Eselect _ _ _ _ _ | Eread _ _ | Eclose _ => true
  | _ => false
  end.

(** The process may have this many connections open. *)
Definition few : nat := 64.

(** [budget]: how many more reads will return data; [patience]: how many more writes can
    be interrupted. *)
Class WebKernel (K : Type) `{!Kernel K} := {
  opens : K -> gmap Z (list Z);
  shut : K -> list (list Z);
  budget : K -> nat;
  patience : K -> nat;
  (** some call can fail, other than by an interruption or with a connect in progress *)
  may_fail : Prop;
  nonblocking : K -> gset Z;
  becomes (k k' : K) (o : gmap Z (list Z)) (s : list (list Z)) : Prop :=
    opens k' = o /\ shut k' = s /\ (budget k' <= budget k)%nat /\ (patience k' <= patience k)%nat;
  same (k k' : K) : Prop := becomes k k' (opens k) (shut k);
  wk_quiet : forall X (e : sysE X) k, quiet e = true -> same k (kcall e k).2;
  wk_lib : forall X (e : libE X) k, same k (klib e k).2;
  wk_fatal : forall X (e : sysE X) k n k', fatal e = true -> kcall e k = (Err n, k') -> may_fail;
  (** a successful lookup has a result *)
  wk_gai : forall h s hints k, match (klib (Egetaddrinfo h s hints) k).1 with inl _ => may_fail | inr res => res <> [] end;
  wk_soerror : forall fd k v k', kcall (Egetsockopt fd SOL_SOCKET SO_ERROR) k = (Ok v, k') -> exists e, v = OInt e;
  wk_socket : forall f t p k,
    match kcall (Esocket f t p) k with
    | (Ok fd, k') => 0 <= fd < FD_SETSIZE /\ opens k !! fd = None /\ (fd ∉ nonblocking k') /\ becomes k k' (<[fd := []]> (opens k)) (shut k)
    | (Err _, k') => same k k' /\ (may_fail \/ (few <= size (opens k))%nat)
    end;
  wk_connect : forall fd sa n k e k', kcall (Econnect fd sa n) k = (Err e, k') -> may_fail \/ e = EINPROGRESS /\ (fd ∈ nonblocking k);
  wk_read : forall fd n s k, opens k !! fd = Some s -> 0 < n ->
    match kcall (Eread fd n) k with
    | (Ok bs, k') => same k k' /\ (bs <> [] -> (budget k' < budget k)%nat)
    | _ => True
    end;
  wk_write : forall fd bs s k, opens k !! fd = Some s -> bs <> [] ->
    match kcall (Ewrite fd bs) k with
    | (Ok n, k') =>
        0 <= n <= Z.of_nat (length bs) /\ (n = 0 -> may_fail) /\ becomes k k' (<[fd := s ++ take (Z.to_nat n) bs]> (opens k)) (shut k)
    | (Err e, k') => same k k' /\ (may_fail \/ e = EINTR) /\ (e = EINTR -> (patience k' < patience k)%nat)
    end;
  wk_close : forall fd s k, opens k !! fd = Some s ->
    match kcall (Eclose fd) k with
    | (Ok _, k') => becomes k k' (delete fd (opens k)) (shut k ++ [s])
    | _ => True
    end;
  (** select answers once one of the descriptors below its first argument is ready *)
  wk_select : forall n r w k,
    match kcall (Eselect n r w ∅ None) k with
    | (Ok (_, (r', w', _)), _) =>
        (r' ⊆ r) /\ (w' ⊆ w) /\ ((exists fd, fd ∈ r ∪ w /\ fd < n) -> exists fd, fd ∈ r' ∪ w')
    | _ => True
    end }.

(** ** The calls *)
Section Calls.
Context {K : Type} `{HK : !Kernel K} `{HW : !WebKernel K}.
Implicit Types (k : K) (g : globals).

(** Failing calls end the process with status 1. *)
Abbreviation W := (wp (fun h => h = Exit 1 /\ may_fail)).

Lemma becomes_trans k1 k2 k3 o s : same k1 k2 -> becomes k2 k3 o s -> becomes k1 k3 o s.
Proof. intros (E1 & E2 & B1 & P1) (E3 & E4 & B2 & P2). split_and!; [done|done|lia|lia]. Qed.
Lemma becomes_same k1 k2 k3 o s : becomes k1 k2 o s -> same k2 k3 -> becomes k1 k3 o s.
Proof. intros (E1 & E2 & B1 & P1) (E3 & E4 & B2 & P2). split_and!; [congruence|congruence|lia|lia]. Qed.
Lemma web_same_refl k : same k k.
Proof. unfold same, becomes. auto with lia. Qed.
Lemma web_same_trans k1 k2 k3 : same k1 k2 -> same k2 k3 -> same k1 k3.
Proof. intros H1 H2. eapply becomes_same; [exact H1|done]. Qed.
Lemma same_quiet {X} (e : sysE X) k r k' : kcall e k = (r, k') -> quiet e = true -> same k k'.
Proof. intros E Hq. pose proof (wk_quiet X e k Hq) as H. by rewrite E in H. Qed.
Lemma same_lib {X} (e : libE X) k r k' : klib e k = (r, k') -> same k k'.
Proof. intros E. pose proof (wk_lib X e k) as H. by rewrite E in H. Qed.

Lemma wp_fatal {X} (e : sysE X) msg (Q : X -> globals -> K -> Prop) g k :
  fatal e = true -> daemon_proc g = 0 -> (forall v k', kcall e k = (Ok v, k') -> Q v g k') -> W (checked e msg) Q g k.
Proof. intros Hf Hd HQ. apply wp_checked_or; [done| |done]. intros n k' E. split; [done|]. by eapply wk_fatal. Qed.

(** What leaves the system the same, for any result. *)
Lemma wp_printf msg (Q : unit -> globals -> K -> Prop) g k :
  (forall g' k', daemon_proc g' = daemon_proc g -> same k k' -> Q tt g' k') -> W (printf msg) Q g k.
Proof.
  intros HQ. unfold printf. wp_step. apply HQ; [by destruct r|by eapply same_quiet].
Qed.

Lemma wp_Fcntl fd c a (Q : Z -> globals -> K -> Prop) g k :
  daemon_proc g = 0 -> (forall v k', same k k' -> Q v g k') -> W (Fcntl fd c a) Q g k.
Proof. intros Hd HQ. unfold Fcntl. apply wp_fatal; [done|done|]. intros v k' E. apply HQ. by eapply same_quiet. Qed.

Lemma wp_err_ret msg (Q : unit -> globals -> K -> Prop) g k :
  daemon_proc g = 0 -> (forall g' k', daemon_proc g' = 0 -> same k k' -> Q tt g' k') -> W (err_ret msg) Q g k.
Proof.
  intros Hd HQ. unfold err_ret. rewrite wp_run, run_err_doit_errno. destruct (klib (Estrerror (errno g)) k) as [es k1] eqn:E1.
  apply same_lib in E1. rewrite <- wp_run. unfold err_emit. rewrite wp_run. cbn [run]. rewrite Hd. cbn [negb Z.eqb]. rewrite <- wp_run.
  do 3 wp_step. apply HQ; [by destruct r, r0, r1|].
  eapply web_same_trans; [exact E1|]. eapply web_same_trans; [by eapply same_quiet|]. eapply web_same_trans; by eapply same_quiet.
Qed.
Lemma writen_loop_sends fd fuel v n : forall ptr nleft bs s g k,
  opens k !! fd = Some s -> daemon_proc g = 0 -> 0 <= nleft -> asub v ptr nleft = Some bs ->
  (Z.to_nat nleft + patience k <= fuel)%nat ->
  W (writen_loop fuel fd v ptr nleft n)
    (fun r g' k' => daemon_proc g' = 0 /\ (r = -1 /\ may_fail \/ r = n /\ becomes k k' (<[fd := s ++ bs]> (opens k)) (shut k))) g k.
Proof.
  induction fuel as [|f IH]; intros ptr nleft bs s g k Ho Hd Hn Hbs Hf; cbn [writen_loop];
    pose proof (asub_length _ _ _ _ Hbs) as Hlen.
  1: replace nleft with 0 in * by lia.
  2: destruct (Z.ltb_spec 0 nleft) as [Hl|Hl]; [|replace nleft with 0 in * by lia].
  1, 3: wp_step; split; [done|]; right; split; [done|];
    assert (bs = []) as -> by (destruct bs; [done|simpl in Hlen; lia]);
    rewrite app_nil_r, insert_id by done; apply web_same_refl.
  wp_step; [done|]. assert (bs <> []) as Hne by (intros ->; simpl in Hlen; lia).
  pose proof (wk_write fd bs s k Ho Hne) as HWr. wp_step; rewrite H in HWr.
  - destruct HWr as (Hm & Hz & Eo & Es & Hb & Hp). destruct (Z.leb_spec v0 0) as [|Hm0]; [wp_step; split; [done|]; left; split; [done|]; apply Hz; lia|].
    eapply wp_mono.
    { eapply (IH (ptr + v0) (nleft - v0) _ _ g k'); [by rewrite Eo, lookup_insert_eq|done|lia|by apply asub_drop; [|lia]|lia]. }
    intros r g' k2 [Hd' [[-> ?]|[-> (E1 & E2 & B2 & P2)]]]; (split; [done|]); [by left|right].
    split; [done|]. split_and!; [|congruence|lia|lia]. rewrite E1, Eo, insert_insert_eq, <- app_assoc. by rewrite take_drop.
  - destruct HWr as (Hs & Hm & Hp). wp_step. cbn [errno set_errno].
    destruct (Z.eqb_spec n0 EINTR) as [->|]; [|by wp_step; split; [|left; destruct Hm]]. specialize (Hp eq_refl).
    pose proof Hs as (Eo & Es & Hb & _). eapply wp_mono.
    { eapply (IH ptr nleft bs s (set_errno EINTR g) k'); [by rewrite Eo|done|done|done|lia]. }
    intros r g' k2 [Hd' [[-> ?]|[-> HB]]]; (split; [done|]); [by left|right]. split; [done|].
    rewrite Eo, Es in HB. by eapply becomes_trans.
Qed.

Lemma wp_Writen fd fuel v n bs s (Q : unit -> globals -> K -> Prop) g k :
  opens k !! fd = Some s -> daemon_proc g = 0 -> 0 <= n -> asub v 0 n = Some bs -> (Z.to_nat n + patience k <= fuel)%nat ->
  (forall g' k', daemon_proc g' = 0 -> becomes k k' (<[fd := s ++ bs]> (opens k)) (shut k) -> Q tt g' k') ->
  W (Writen fuel fd v n) Q g k.
Proof.
  intros Ho Hd Hn Hbs Hf HQ. unfold Writen, writen. eapply wp_seq; [by eapply writen_loop_sends|].
  intros r g' k' [Hd' [[-> ?]|[-> HB]]]; cbn beta.
  - rewrite (proj2 (Z.eqb_neq _ _)) by lia. by apply wp_err_sys.
  - rewrite Z.eqb_refl. apply wp_ret. by apply HQ.
Qed.

Lemma wp_Read fd n s (Q : list Z -> globals -> K -> Prop) g k :
  opens k !! fd = Some s -> 0 < n -> daemon_proc g = 0 ->
  (forall bs k', same k k' -> (bs <> [] -> (budget k' < budget k)%nat) -> Q bs g k') -> W (Read fd n) Q g k.
Proof.
  intros Ho Hn Hd HQ. unfold Read. apply wp_fatal; [done|done|]. intros bs k' E.
  pose proof (wk_read fd n s k Ho Hn) as H. rewrite E in H. destruct H. by apply HQ.
Qed.

Lemma wp_Close fd s (Q : unit -> globals -> K -> Prop) g k :
  opens k !! fd = Some s -> daemon_proc g = 0 ->
  (forall k', becomes k k' (delete fd (opens k)) (shut k ++ [s]) -> Q tt g k') -> W (Close fd) Q g k.
Proof.
  intros Ho Hd HQ. unfold Close, checked_. apply wp_bind, wp_call; intros v k' E.
  2:{ apply wp_err_sys; [done|]. split; [done|]. by eapply (wk_fatal _ (Eclose fd)). }
  apply wp_ret. pose proof (wk_close fd s k Ho) as H. rewrite E in H. by apply HQ.
Qed.

Lemma wp_Socket f t p (Q : Z -> globals -> K -> Prop) g k :
  daemon_proc g = 0 -> (size (opens k) < few)%nat ->
  (forall fd k', 0 <= fd < FD_SETSIZE -> opens k !! fd = None -> becomes k k' (<[fd := []]> (opens k)) (shut k) -> Q fd g k') ->
  W (Socket f t p) Q g k.
Proof.
  intros Hd Hsz HQ. unfold Socket. pose proof (wk_socket f t p k) as H. apply wp_checked_or; [done| |].
  - intros n k' E. rewrite E in H. destruct H as [_ [?|?]]; [done|lia].
  - intros fd k' E. rewrite E in H. destruct H as (? & ? & _ & ?). by apply HQ.
Qed.

(** The request fits the array line. *)
Definition short (fname : list Z) : Prop := Z.of_nat (length (GET_CMD fname)) < MAXLINE.

Lemma wp_send_get fuel fd fname s (Q : Z -> globals -> K -> Prop) g k :
  opens k !! fd = Some s -> daemon_proc g = 0 -> short fname -> (Z.to_nat MAXLINE + patience k <= fuel)%nat ->
  (forall n g' k', daemon_proc g' = 0 -> becomes k k' (<[fd := s ++ GET_CMD fname]> (opens k)) (shut k) -> Q n g' k') ->
  W (send_get fuel fd fname stack_array) Q g k.
Proof.
  intros Ho Hd Hs Hf HQ. unfold short in Hs. unfold send_get. wp_step.
  { unfold array_snprintf, truncstr. rewrite take_ge by (unfold MAXLINE in *; lia).
    apply V4.strcpy_ok; [done|]. unfold stack_array. rewrite length_replicate. unfold MAXLINE in *. lia. }
  change (take (Z.to_nat 0) stack_array) with (@nil Z). cbn [app]. set (line1 := _ ++ _). apply wp_bind. eapply wp_Writen; [done|done|lia| |lia|].
  { apply asub_take. unfold line1. rewrite length_app. lia. }
  intros g' k' Hd' HB. apply wp_ret. apply HQ; [done|]. revert HB.
  by replace (take _ line1) with (GET_CMD fname) by (unfold line1; by rewrite Nat2Z.id, take_app_length).
Qed.
(** ** The home page *)

(** A connection was opened, after [n] attempts that failed. *)
Definition opened (k k' : K) (fd : Z) : Prop :=
  opens k !! fd = None /\ exists n, becomes k k' (<[fd := []]> (opens k)) (shut k ++ replicate n []).

Lemma wp_first_usable res (Q : option (Z * addrinfo) -> globals -> K -> Prop) g k :
  daemon_proc g = 0 -> (size (opens k) < few)%nat ->
  (forall r g' k', daemon_proc g' = 0 ->
     match r with Some (fd, _) => opened k k' fd | None => may_fail \/ res = [] end -> Q r g' k') ->
  W (first_usable try_connect res) Q g k.
Proof.
  revert g k Q. induction res as [|ai res IH]; intros g k Q Hd Hsz HQ; cbn [first_usable]; [by wp_step; apply HQ; [|right]|].
  apply wp_bind. unfold try_connect. pose proof (wk_socket (ai_family ai) (ai_socktype ai) (ai_protocol ai) k) as HS.
  wp_step; rewrite H in HS.
  2:{ destruct HS as [HS Hbad]. wp_step. apply IH; [done|by rewrite (proj1 HS)|]. intros [[fd a]|] g' k2 Hd' Hr; apply HQ; try done; [|left; destruct Hbad; [done|lia]].
      pose proof HS as (Eo & Es & _). destruct Hr as [Hn [m Hr]]. rewrite Eo, Es in *. split; [done|]. exists m. by eapply becomes_trans. }
  destruct HS as (_ & Hnone & Hblock & HB). wp_step.
  - wp_step. wp_step. apply HQ; [done|]. split; [done|]. exists 0%nat. cbn [replicate]. rewrite app_nil_r.
    eapply becomes_same; [exact HB|by eapply same_quiet].
  - pose proof (wk_connect _ _ _ _ _ _ H0) as Hbad. apply same_quiet in H0; [|done]. pose proof (becomes_same _ _ _ _ _ HB H0) as HB1. pose proof HB1 as (Eo & Es & ? & ?).
    apply wp_bind, (wp_Close _ []); [by rewrite Eo, lookup_insert_eq|done|]. intros k2 (Eo2 & Es2 & ? & ?). wp_step.
    rewrite Eo, delete_insert_id in Eo2 by done. rewrite Es in Es2.
    apply IH; [done|by rewrite Eo2|]. intros [[fd a]|] g' k3 Hd' Hr; apply HQ; try done; [|by left; destruct Hbad as [|[_ ?]]].
    destruct Hr as [Hn [m (Eo3 & Es3 & ? & ?)]]. rewrite Eo2 in *. split; [done|]. exists (S m).
    split_and!; [done| |lia|lia]. rewrite Es3, Es2, <- app_assoc. done.
Qed.

Lemma wp_Tcp_connect h s (Q : Z -> globals -> K -> Prop) g k :
  daemon_proc g = 0 -> (size (opens k) < few)%nat -> (forall fd g' k', daemon_proc g' = 0 -> opened k k' fd -> Q fd g' k') ->
  W (Tcp_connect h s) Q g k.
Proof.
  intros Hd Hsz HQ. unfold Tcp_connect, tcp_connect, resolve. apply wp_bind. wp_step.
  pose proof (wk_gai h s (Hints 0 AF_UNSPEC SOCK_STREAM 0) k) as Hg. rewrite H in Hg. apply same_lib in H.
  destruct v as [n|[|ai res]]; [|done|].
  { wp_step. by apply wp_err_quit. }
  wp_step. apply wp_bind, wp_first_usable; [done|by rewrite (proj1 H)|]. intros [[fd a]|] g' k2 Hd' Hr; [|by apply wp_err_sys; [|destruct Hr]].
  wp_step. wp_step. apply HQ; [done|]. destruct Hr as [Hn [n Hr]]. pose proof H as (Eo & Es & _). rewrite Eo, Es in *.
  split; [done|]. exists n. eapply becomes_trans; [exact H|]. eapply becomes_same; [exact Hr|by eapply same_lib].
Qed.

Lemma wp_home_loop fuel fd s (Q : unit -> globals -> K -> Prop) g k :
  opens k !! fd = Some s -> daemon_proc g = 0 -> (budget k < fuel)%nat ->
  (forall g' k', daemon_proc g' = 0 -> same k k' -> Q tt g' k') -> W (home_loop fuel fd) Q g k.
Proof.
  revert g k. induction fuel as [|f IH]; intros g k Ho Hd Hf HQ; [lia|]. cbn [home_loop].
  apply wp_bind. eapply wp_Read; [done|done|done|]. intros bs k1 H1 Hb. destruct (Z.eqb_spec (Z.of_nat (length bs)) 0) as [E|E].
  - wp_step. by apply HQ.
  - apply wp_bind, wp_printf. intros g2 k2 Hd2 H2. pose proof (web_same_trans _ _ _ H1 H2) as H12.
    assert (budget k1 < budget k)%nat by (apply Hb; intros ->; done). pose proof H2 as (_ & _ & ? & _).
    apply IH; [by rewrite (proj1 H12)|congruence|lia|]. intros g3 k3 Hd3 H3. apply HQ; [done|by eapply web_same_trans].
Qed.

Lemma wp_home_page fuel host fname (Q : unit -> globals -> K -> Prop) g k :
  daemon_proc g = 0 -> (size (opens k) < few)%nat -> short fname -> (Z.to_nat MAXLINE + patience k <= fuel)%nat -> (budget k < fuel)%nat ->
  (forall g' k' n, daemon_proc g' = 0 -> becomes k k' (opens k) (shut k ++ replicate n [] ++ [GET_CMD fname]) -> Q tt g' k') ->
  W (home_page fuel host fname) Q g k.
Proof.
  intros Hd Hsz Hs Hp Hb HQ. unfold home_page. apply wp_bind, wp_Tcp_connect; [done|done|].
  intros fd g1 k1 Hd1 [Hn [n (Eo1 & Es1 & B1 & P1)]].
  apply wp_bind. eapply wp_send_get; [by rewrite Eo1, lookup_insert_eq|done|done|lia|].
  intros _ g2 k2 Hd2 (Eo2 & Es2 & B2 & P2). rewrite Eo1, insert_insert_eq in Eo2. rewrite Es1 in Es2. cbn [app] in Eo2.
  apply wp_bind. eapply wp_home_loop; [by rewrite Eo2, lookup_insert_eq|done|lia|]. intros g3 k3 Hd3 (Eo3 & Es3 & B3 & P3).
  apply wp_bind, wp_printf. intros g4 k4 Hd4 (Eo4 & Es4 & B4 & P4).
  eapply wp_Close; [by rewrite Eo4, Eo3, Eo2, lookup_insert_eq|congruence|]. intros k5 (Eo5 & Es5 & B5 & P5).
  apply (HQ _ _ n); [congruence|]. split_and!; [|by rewrite Es5, Es4, Es3, Es2, app_assoc|lia|lia].
  by rewrite Eo5, Eo4, Eo3, Eo2, delete_insert_id.
Qed.

(** ** The operations on one file *)
Definition with_file (a : list file) (f : file) (b : list file) (st : web) : web :=
  Web (a ++ f :: b) (nconn st) (nlefttoconn st) (nlefttoread st) (maxfd st) (rset st) (wset st).
Definition flagged (f : file) (fd fl : Z) : file := File (f_name f) (f_host f) fd fl.
Definition larger (m fd : Z) : Z := if m <? fd then fd else m.

Lemma set_file_at a f b f' st : files st = a ++ f :: b -> set_file (length a) f' st = with_file a f' b st.
Proof. intros E. unfold set_file. rewrite E, insert_app_r_alt, Nat.sub_diag by done. done. Qed.
Lemma file_at a f b (st : web) : files st = a ++ f :: b -> files st !! length a = Some f.
Proof. intros ->. by rewrite lookup_app_r, Nat.sub_diag. Qed.

Lemma FD_SET_ok fd s : 0 <= fd < FD_SETSIZE -> FD_SET fd s = Some ({[fd]} ∪ s).
Proof. intros. unfold FD_SET. zbool. Qed.
Lemma FD_CLR_ok fd s : 0 <= fd < FD_SETSIZE -> FD_CLR fd s = Some (s ∖ {[fd]}).
Proof. intros. unfold FD_CLR. zbool. Qed.
Lemma FD_ISSET_ok fd s : 0 <= fd < FD_SETSIZE -> FD_ISSET fd s = Some (bool_decide (fd ∈ s)).
Proof. intros. unfold FD_ISSET. zbool. Qed.

Lemma wp_write_get_cmd fuel a f b st (Q : web -> globals -> K -> Prop) g k :
  files st = a ++ f :: b -> opens k !! f_fd f = Some [] -> 0 <= f_fd f < FD_SETSIZE -> short (f_name f) ->
  daemon_proc g = 0 -> (Z.to_nat MAXLINE + patience k <= fuel)%nat ->
  (forall g' k', daemon_proc g' = 0 -> becomes k k' (<[f_fd f := GET_CMD (f_name f)]> (opens k)) (shut k) ->
     Q (set_sets (larger (maxfd st) (f_fd f)) ({[f_fd f]} ∪ rset st) (wset st) (with_file a (flagged f (f_fd f) F_READING) b st)) g' k') ->
  W (write_get_cmd fuel (length a) st) Q g k.
Proof.
  intros Hf Ho Hr Hs Hd Hp HQ. unfold write_get_cmd. wp_step; [by eapply file_at|].
  apply wp_bind. eapply wp_send_get; [done|done|done|done|]. intros n g1 k1 Hd1 HB.
  apply wp_bind, wp_printf. intros g2 k2 Hd2 H2. rewrite (set_file_at a f b) by done.
  wp_step; [by apply FD_SET_ok|]. wp_step. apply HQ; [congruence|]. by eapply becomes_same.
Qed.

(** The connection of the file is being established, or is established and has been
    sent the request. *)
Definition started (a : list file) (f : file) (b : list file) (st st' : web) (k k' : K) : Prop :=
  exists fd, 0 <= fd < FD_SETSIZE /\ opens k !! fd = None /\
    ((st' = set_sets (larger (maxfd st) fd) ({[fd]} ∪ rset st) ({[fd]} ∪ wset st) (with_file a (flagged f fd F_CONNECTING) b st) /\
      becomes k k' (<[fd := []]> (opens k)) (shut k)) \/
     (st' = set_sets (larger (maxfd st) fd) ({[fd]} ∪ rset st) (wset st) (with_file a (flagged f fd F_READING) b st) /\
      becomes k k' (<[fd := GET_CMD (f_name f)]> (opens k)) (shut k))).

Lemma wp_start_connect fuel a f b st (Q : web -> globals -> K -> Prop) g k :
  files st = a ++ f :: b -> short (f_name f) -> daemon_proc g = 0 -> (Z.to_nat MAXLINE + patience k <= fuel)%nat ->
  (size (opens k) < few)%nat -> (forall st' g' k', daemon_proc g' = 0 -> started a f b st st' k k' -> Q st' g' k') ->
  W (start_connect fuel (length a) st) Q g k.
Proof.
  intros Hf Hs Hd Hp Hsz HQ. unfold start_connect. wp_step; [by eapply file_at|].
  unfold Host_serv. apply wp_bind. wp_step.
  match goal with H : klib (Egetaddrinfo ?h ?s ?hi) k = _ |- _ => pose proof (wk_gai h s hi k) as Hg; rewrite H in Hg; apply same_lib in H as H1; clear H end.
  destruct v as [n|[|ai res]]; [|done|].
  { wp_step. by apply wp_err_quit. }
  wp_step. wp_step; [done|]. apply wp_bind, wp_Socket; [done|by rewrite (proj1 H1)|]. intros fd k2 Hr Hn H2.
  rewrite (set_file_at a f b) by done. apply wp_bind, wp_printf. intros g3 k3 Hd3 H3.
  apply wp_bind, wp_Fcntl; [congruence|]. intros fl k4 H4. apply wp_bind, wp_Fcntl; [congruence|]. intros _ k5 H5.
  pose proof H1 as (Eo & Es & _). rewrite Eo in Hn. rewrite Eo, Es in H2. cbn [snd] in H2.
  assert (becomes k k5 (<[fd := []]> (opens k)) (shut k)) as HB.
  { eapply becomes_trans; [exact H1|]. eapply becomes_same; [exact H2|]. eapply web_same_trans; [exact H3|]. by eapply web_same_trans. }
  wp_step.
  - apply same_quiet in H; [|done]. pose proof (becomes_same _ _ _ _ _ HB H) as HB6. pose proof HB6 as (Eo6 & Es6 & B6 & P6).
    apply (wp_write_get_cmd fuel a (flagged f fd (f_flags f)) b); cbn [f_fd f_name flagged]; [done|by rewrite Eo6, lookup_insert_eq|done|done|congruence|lia|].
    intros g7 k7 Hd7 (Eo7 & Es7 & B7 & P7). apply HQ; [done|]. exists fd. split; [done|]. split; [done|]. right. split; [done|].
    split_and!; [by rewrite Eo7, Eo6, insert_insert_eq|congruence|lia|lia].
  - pose proof (wk_connect _ _ _ _ _ _ H) as Hbad. apply same_quiet in H; [|done]. wp_step. cbn [errno set_errno].
    destruct (Z.eqb_spec n EINPROGRESS) as [_|Hne]; cbn [negb]; [|apply wp_err_sys; [cbn; congruence|split; [done|by destruct Hbad as [|[? _]]]]].
    rewrite (set_file_at a (flagged f fd (f_flags f)) b) by done. wp_step; [by apply FD_SET_ok|]. wp_step; [by apply FD_SET_ok|]. wp_step.
    apply HQ; [cbn; congruence|]. exists fd. split; [done|]. split; [done|]. left. split; [done|]. by eapply becomes_same.
Qed.
End Calls.

(** ** The state of the files *)
Definition active (f : file) : bool := (f_flags f =? F_CONNECTING) || (f_flags f =? F_READING).
Definition fds (fs : list file) : list Z := omap (fun f => if active f then Some (f_fd f) else None) fs.
Definition connecting (fs : list file) : list Z := omap (fun f => if f_flags f =? F_CONNECTING then Some (f_fd f) else None) fs.
Definition fetched (fs : list file) : list (list Z) := omap (fun f => if f_flags f =? F_DONE then Some (GET_CMD (f_name f)) else None) fs.
Definition sum (w : file -> Z) (fs : list file) : Z := foldr (fun f n => w f + n) 0 fs.
Definition to_connect (f : file) : Z := if f_flags f =? 0 then 1 else 0.
Definition to_read (f : file) : Z := if f_flags f =? F_DONE then 0 else 1.
(** How much of the file's work is left. *)
Definition weight (f : file) : Z :=
  if f_flags f =? 0 then 3 else if f_flags f =? F_CONNECTING then 2 else if f_flags f =? F_READING then 1 else 0.

Lemma sum_middle w a f b : sum w (a ++ f :: b) = w f + sum w (a ++ b).
Proof. unfold sum. rewrite !foldr_app. cbn [foldr]. revert f. induction a as [|x a IH]; intros f; cbn [foldr]; [done|]. rewrite IH. lia. Qed.

Definition file_ok (m : gmap Z (list Z)) (f : file) : Prop :=
  short (f_name f) /\
  (f_flags f = 0 \/ f_flags f = F_DONE \/
   0 <= f_fd f < FD_SETSIZE /\
   (f_flags f = F_CONNECTING /\ m !! f_fd f = Some [] \/ f_flags f = F_READING /\ m !! f_fd f = Some (GET_CMD (f_name f)))).

(** The fields that depend on one file [f] and the others. *)
Definition own (f : file) : gset Z := if active f then {[f_fd f]} else ∅.
Definition own_w (f : file) : gset Z := if f_flags f =? F_CONNECTING then {[f_fd f]} else ∅.
Lemma fds_middle a f b : list_to_set (fds (a ++ f :: b)) = own f ∪ list_to_set (C := gset Z) (fds (a ++ b)).
Proof.
  unfold fds. rewrite !omap_app. cbn [omap list_omap]. unfold own. destruct (active f); rewrite ?list_to_set_app_L; cbn; set_solver.
Qed.
Lemma connecting_middle a f b : list_to_set (connecting (a ++ f :: b)) = own_w f ∪ list_to_set (C := gset Z) (connecting (a ++ b)).
Proof.
  unfold connecting. rewrite !omap_app. cbn [omap list_omap]. unfold own_w. destruct (f_flags f =? _); rewrite ?list_to_set_app_L; cbn; set_solver.
Qed.
Lemma fetched_middle a f b :
  fetched (a ++ f :: b) ≡ₚ fetched (a ++ b) ++ (if f_flags f =? F_DONE then [GET_CMD (f_name f)] else []).
Proof.
  unfold fetched. rewrite !omap_app. cbn [omap list_omap]. destruct (f_flags f =? F_DONE); [|by rewrite app_nil_r].
  rewrite <- app_assoc. apply Permutation_app_head. apply Permutation_cons_append.
Qed.
Lemma connecting_fds fs : list_to_set (connecting fs) ⊆@{gset Z} list_to_set (fds fs).
Proof.
  induction fs as [|f fs IH]; [done|]. unfold connecting, fds in *. cbn [omap list_omap]. unfold active.
  destruct (f_flags f =? F_CONNECTING); cbn [orb]; [cbn; set_solver|]. destruct (f_flags f =? F_READING); [cbn; set_solver|done].
Qed.
Lemma fds_in a f b : active f = true -> f_fd f ∈ fds (a ++ f :: b).
Proof.
  intros H. unfold fds. rewrite omap_app, elem_of_app. right. cbn [omap list_omap]. rewrite H. left.
Qed.

Section Inv.
Context {K : Type} `{HK : !Kernel K} `{HW : !WebKernel K}.
Implicit Types (k : K) (g : globals).
Abbreviation W := (wp (fun h => h = Exit 1 /\ may_fail)).
Context (maxnconn : Z) (base : list (list Z)) (names : list (list Z)) (Hnames : (length names <= 20)%nat).

Record Inv k (st : web) : Prop := {
  inv_names : map f_name (files st) = names;
  inv_files : Forall (file_ok (opens k)) (files st);
  inv_nodup : NoDup (fds (files st));
  inv_opens : dom (opens k) = list_to_set (fds (files st));
  inv_rset : rset st = list_to_set (fds (files st));
  inv_wset : wset st = list_to_set (connecting (files st));
  inv_max : forall fd, fd ∈ rset st -> fd <= maxfd st;
  inv_nconn : nconn st = sum (fun f => if active f then 1 else 0) (files st);
  inv_conn : nlefttoconn st = sum to_connect (files st);
  inv_read : nlefttoread st = sum to_read (files st);
  inv_limit : nconn st <= Z.max 0 maxnconn;
  inv_shut : shut k ≡ₚ base ++ fetched (files st) }.

Definition measure k (st : web) : Z := Z.of_nat (budget k) + sum weight (files st).

Lemma fds_nodup a f b :
  NoDup (fds (a ++ f :: b)) <-> NoDup (fds (a ++ b)) /\ (active f = true -> f_fd f ∉ fds (a ++ b)).
Proof.
  assert (fds (a ++ f :: b) ≡ₚ (if active f then [f_fd f] else []) ++ fds (a ++ b)) as ->.
  { unfold fds. rewrite !omap_app. cbn [omap list_omap]. destruct (active f); [|done]. cbn [app]. symmetry. apply Permutation_middle. }
  destruct (active f); cbn [app]; [rewrite NoDup_cons|]; naive_solver.
Qed.

(** The other files do not notice that the descriptor of one of them changes. *)
Lemma files_frame (m m' : gmap Z (list Z)) (l : list file) :
  Forall (file_ok m) l -> (forall fd, fd ∈ fds l -> m' !! fd = m !! fd) -> Forall (file_ok m') l.
Proof.
  induction 1 as [|f l Hf _ IH]; intros Hm; [done|].
  assert (Forall (file_ok m') l) as Hl.
  { apply IH. intros fd Hfd. apply Hm. unfold fds. cbn [omap list_omap]. destruct (active f); [by right|done]. }
  constructor; [|done]. destruct Hf as [Hs Hf]. split; [done|]. destruct Hf as [H|[H|[Hr Hf]]]; [by left|by right; left|]. right; right. split; [done|].
  rewrite Hm; [done|]. unfold fds, active. cbn [omap list_omap]. destruct Hf as [[-> _]|[-> _]]; cbn; left.
Qed.

Lemma inv_replace k st k' a f b f' n c rd m r w :
  Inv k st -> files st = a ++ f :: b -> f_name f' = f_name f ->
  (forall fd, fd ∈ fds (a ++ b) -> opens k' !! fd = opens k !! fd) ->
  file_ok (opens k') f' -> (active f' = true -> f_fd f' ∉ fds (a ++ b)) ->
  dom (opens k') = own f' ∪ list_to_set (fds (a ++ b)) ->
  r = own f' ∪ list_to_set (fds (a ++ b)) -> w = own_w f' ∪ list_to_set (connecting (a ++ b)) ->
  (forall fd, fd ∈ r -> fd <= m) ->
  n = (if active f' then 1 else 0) + (nconn st - (if active f then 1 else 0)) ->
  c = to_connect f' + (nlefttoconn st - to_connect f) -> rd = to_read f' + (nlefttoread st - to_read f) ->
  n <= Z.max 0 maxnconn ->
  shut k' ≡ₚ base ++ fetched (a ++ f' :: b) ->
  Inv k' (Web (a ++ f' :: b) n c rd m r w).
Proof.
  intros HI Ef En Ho Hok Hnew Hdom Hr Hw Hm Hn Hc Hrd Hlim Hs. destruct HI as [I1 I2 I3 I4 I5 I6 I7 I8 I9 I10 I11 I12].
  rewrite Ef in *. rewrite sum_middle in I8, I9, I10. apply fds_nodup in I3 as [I3 _].
  rewrite map_app in I1. cbn [map] in I1.
  split; cbn [files nconn nlefttoconn nlefttoread maxfd rset wset]; rewrite ?sum_middle, ?fds_middle, ?connecting_middle; try done; try lia.
  - rewrite map_app. cbn [map]. by rewrite En.
  - rewrite Forall_app, Forall_cons in I2 |- *. destruct I2 as (A1 & A2 & A3).
    assert (Forall (file_ok (opens k')) (a ++ b)) as [? ?]%Forall_app.
    { eapply files_frame; [by apply Forall_app|done]. }
    done.
  - by apply fds_nodup.
Qed.

(** What the invariant says of one file and of the others. *)
Lemma inv_at k st a f b : Inv k st -> files st = a ++ f :: b ->
  file_ok (opens k) f /\ (active f = true -> f_fd f ∉ fds (a ++ b)) /\
  dom (opens k) = own f ∪ list_to_set (fds (a ++ b)) /\ rset st = own f ∪ list_to_set (fds (a ++ b)) /\
  wset st = own_w f ∪ list_to_set (connecting (a ++ b)) /\ shut k ≡ₚ base ++ fetched (a ++ f :: b) /\
  measure k st = Z.of_nat (budget k) + (weight f + sum weight (a ++ b)).
Proof.
  intros HI Ef. destruct HI as [I1 I2 I3 I4 I5 I6 I7 I8 I9 I10 I11 I12]. rewrite Ef in *. unfold measure.
  rewrite Ef, sum_middle, <- fds_middle, <- connecting_middle. apply Forall_app in I2 as [_ [I2 _]%Forall_cons]. apply fds_nodup in I3 as [_ I3].
  by split_and!.
Qed.

Lemma larger_le m fd (s : gset Z) : (forall x, x ∈ s -> x <= m) -> forall x, x ∈ {[fd]} ∪ s -> x <= larger m fd.
Proof.
  intros Hm x. unfold larger. rewrite elem_of_union, elem_of_singleton. intros [->|Hx]; [|specialize (Hm x Hx)]; destruct (Z.ltb_spec m fd); lia.
Qed.

(** ** One file *)

(** A file whose connection is opened, or established. *)
Lemma inv_moves k st k' a f b fd fl bs n c w :
  Inv k st -> files st = a ++ f :: b -> 0 <= fd < FD_SETSIZE -> fd ∉ fds (a ++ b) ->
  (f_flags f = 0 \/ f_flags f = F_CONNECTING /\ f_fd f = fd) -> (fl = F_CONNECTING /\ bs = [] \/ fl = F_READING /\ bs = GET_CMD (f_name f)) ->
  becomes k k' (<[fd := bs]> (opens k)) (shut k) ->
  w = own_w (flagged f fd fl) ∪ list_to_set (connecting (a ++ b)) ->
  n = nconn st + to_connect f -> c = nlefttoconn st - to_connect f -> n <= Z.max 0 maxnconn ->
  Inv k' (Web (a ++ flagged f fd fl :: b) n c (nlefttoread st) (larger (maxfd st) fd) ({[fd]} ∪ rset st) w) /\
  (f_flags f = 0 \/ fl = F_READING -> measure k' (Web (a ++ flagged f fd fl :: b) n c (nlefttoread st) (larger (maxfd st) fd) ({[fd]} ∪ rset st) w) < measure k st).
Proof.
  intros HI Ef Hr Hnew Hf Hfl (Eo & Es & Hb & Hp) Hw Hn Hc Hlim.
  destruct (inv_at k st a f b HI Ef) as ([Hs _] & _ & Hdom & Hrs & _ & Hsh & Hme).
  assert (active (flagged f fd fl) = true /\ to_connect (flagged f fd fl) = 0 /\ to_read (flagged f fd fl) = 1 /\ to_read f = 1 /\
          to_connect f = 1 - (if active f then 1 else 0)) as (A1 & A2 & A3 & A4 & A5).
  { unfold active, to_connect, to_read. cbn [f_flags flagged]. destruct Hfl as [[-> _]|[-> _]], Hf as [->|[-> _]]; done. }
  assert (own (flagged f fd fl) = {[fd]}) as Hown by (unfold own; by rewrite A1).
  assert (own f ⊆ {[fd]}) as Hof.
  { unfold own, active. destruct Hf as [->|[-> ->]]; cbn; set_solver. }
  split.
  - eapply (inv_replace k st k' a f b (flagged f fd fl)); rewrite ?A1, ?A2, ?A3, ?A4, ?Hown; try done; try lia.
    + intros x Hx. rewrite Eo. apply lookup_insert_ne. by intros ->.
    + split; [done|]. right; right. cbn [f_fd f_flags f_name flagged]. split; [done|]. rewrite Eo, lookup_insert_eq.
      destruct Hfl as [[-> ->]|[-> ->]]; auto.
    + rewrite Eo, dom_insert_L, Hdom. set_solver.
    + rewrite Hrs. set_solver.
    + apply larger_le. apply (inv_max _ _ HI).
    + rewrite Es, Hsh, !fetched_middle. cbn [f_flags flagged]. destruct Hfl as [[-> _]|[-> _]], Hf as [->|[-> _]]; done.
  - intros Hdec. rewrite Hme. unfold measure. cbn [files]. rewrite sum_middle. unfold weight. cbn [f_flags flagged].
    destruct Hfl as [[-> _]|[-> _]], Hf as [E|[E _]]; rewrite E in *; cbn -[Z.add Z.of_nat]; try lia. by destruct Hdec.
Qed.

Lemma started_inv a f b st st' k k' :
  Inv k st -> files st = a ++ f :: b -> f_flags f = 0 -> nconn st < maxnconn -> started a f b st st' k k' ->
  let st2 := Web (files st') (nconn st' + 1) (nlefttoconn st' - 1) (nlefttoread st') (maxfd st') (rset st') (wset st') in
  Inv k' st2 /\ measure k' st2 < measure k st /\ (patience k' <= patience k)%nat /\ (budget k' <= budget k)%nat.
Proof.
  intros HI Ef E0 Hlim (fd & Hr & Hn & Hst). cbn zeta.
  destruct (inv_at k st a f b HI Ef) as (_ & _ & Hdom & _ & Hws & _ & _).
  assert (own_w f = ∅) as Hw0 by (unfold own_w; by rewrite E0). rewrite Hw0, union_empty_l_L in Hws.
  assert (to_connect f = 1) as Hc by (unfold to_connect; by rewrite E0).
  assert (fd ∉ fds (a ++ b)) as Hnew.
  { intros Hin. assert (fd ∈ dom (opens k)) as [? Hd]%elem_of_dom; [|congruence].
    rewrite Hdom, elem_of_union, elem_of_list_to_set. by right. }
  destruct Hst as [[-> HB]|[-> HB]].
  - destruct (inv_moves k st k' a f b fd F_CONNECTING [] (nconn st + 1) (nlefttoconn st - 1) ({[fd]} ∪ wset st)) as [HI' Hm];
      auto with lia; [by rewrite Hws|rewrite Hc; lia..|]. split; [done|]. split; [by apply Hm; left|]. split; apply HB.
  - destruct (inv_moves k st k' a f b fd F_READING (GET_CMD (f_name f)) (nconn st + 1) (nlefttoconn st - 1) (wset st)) as [HI' Hm];
      auto with lia; [by rewrite Hws; unfold own_w; cbn; rewrite union_empty_l_L|]. split; [done|]. split; [by apply Hm; left|]. split; apply HB.
Qed.

(** ** The connect loop *)
Lemma find_file_spec fs : 
  match fs !! find_file fs with
  | Some f => f_flags f = 0
  | None => find_file fs = length fs /\ sum to_connect fs = 0
  end.
Proof.
  induction fs as [|f fs IH]; [done|]. cbn [find_file]. destruct (Z.eqb_spec (f_flags f) 0) as [E|E]; [done|].
  change ((f :: fs) !! S (find_file fs)) with (fs !! find_file fs).
  destruct (fs !! find_file fs); [done|]. destruct IH as [-> IH]. split; [done|]. unfold sum, to_connect in *. cbn [foldr].
  rewrite (proj2 (Z.eqb_neq _ _) E). lia.
Qed.

Lemma inv_few k st : Inv k st -> (size (opens k) < few)%nat.
Proof using Hnames.
  intros HI. rewrite <- size_dom, (inv_opens _ _ HI). pose proof (f_equal length (inv_names _ _ HI)) as Hl. rewrite length_map in Hl.
  rewrite size_list_to_set by apply (inv_nodup _ _ HI). assert (length (fds (files st)) <= length (files st))%nat; [|unfold few; lia].
  clear. induction (files st) as [|f l IH]; [done|]. unfold fds in *. cbn [omap list_omap]. destruct (active f); cbn [length]; lia.
Qed.

Definition room (fuel : nat) k : Prop := (Z.to_nat MAXLINE + patience k <= fuel)%nat.

Lemma connect_loop_spec wfuel fuel : forall st g k (Q : web -> globals -> K -> Prop),
  Inv k st -> nlefttoconn st <= Z.of_nat fuel -> daemon_proc g = 0 -> room wfuel k ->
  (forall st' g' k', Inv k' st' -> measure k' st' <= measure k st -> room wfuel k' -> daemon_proc g' = 0 ->
     (maxnconn <= nconn st' \/ nlefttoconn st' = 0) -> nlefttoread st' = nlefttoread st -> Q st' g' k') ->
  W (connect_loop wfuel fuel maxnconn st) Q g k.
Proof.
  induction fuel as [|fuel IH]; intros st g k Q HI Hf Hd Hr HQ; cbn [connect_loop];
    assert (0 <= nlefttoconn st) as H0 by (rewrite (inv_conn _ _ HI); clear; induction (files st); unfold sum, to_connect in *; cbn [foldr]; [lia|case_match; lia]);
    destruct (Z.ltb_spec (nconn st) maxnconn) as [Hm|Hm]; cbn [andb]; [|by wp_step; apply HQ; auto with lia| |by wp_step; apply HQ; auto with lia];
    destruct (Z.ltb_spec 0 (nlefttoconn st)); [lia|wp_step; apply HQ; auto with lia| |wp_step; apply HQ; auto with lia].
  pose proof (find_file_spec (files st)) as Hfind. destruct (files st !! find_file (files st)) as [f|] eqn:Ef.
  2:{ destruct Hfind as [_ Hz]. rewrite <- (inv_conn _ _ HI) in Hz. lia. }
  rewrite bool_decide_eq_false_2 by (intros E; apply lookup_lt_Some in Ef; lia).
  apply list_elem_of_split_length in Ef as (a & b & Ef & Hi). rewrite Hi.
  pose proof (inv_at k st a f b HI Ef) as ([Hs _] & _).
  apply wp_bind. eapply (wp_start_connect wfuel a f b); [done|done|done|done|by eapply inv_few|]. intros st' g' k' Hd' Hst.
  destruct (started_inv a f b st st' k k' HI Ef Hfind Hm Hst) as (HI' & Hme & Hp & _).
  apply IH; [done| |done|unfold room in *; lia|].
  - destruct Hst as (fd & _ & _ & [[-> _]|[-> _]]); cbn; lia.
  - intros st2 g2 k2 HI2 Hm2 Hr2 Hd2 Hor Hrd. apply HQ; try done; [lia|]. rewrite Hrd.
    by destruct Hst as (fd & _ & _ & [[-> _]|[-> _]]).
Qed.

(** ** The files that select has reported *)
Definition ready (rs ws : gset Z) (f : file) : Prop :=
  f_flags f = F_CONNECTING /\ (f_fd f ∈ rs \/ f_fd f ∈ ws) \/ f_flags f = F_READING /\ (f_fd f ∈ rs).

(** The invariant after a step on one file, which made progress if [P]. *)
Definition after (P : Prop) (wfuel : nat) (a b : list file) k st : web -> globals -> K -> Prop := fun st' g' k' =>
  Inv k' st' /\ (exists f', files st' = a ++ f' :: b) /\ room wfuel k' /\ daemon_proc g' = 0 /\
  measure k' st' <= measure k st /\ (P -> measure k' st' < measure k st).

Lemma web_inv_same k k' st : same k k' -> Inv k st -> Inv k' st.
Proof. intros (Eo & Es & _) [I1 I2 I3 I4 I5 I6 I7 I8 I9 I10 I11 I12]. by split; rewrite ?Eo, ?Es. Qed.
Lemma measure_same k k' st : same k k' -> measure k' st <= measure k st.
Proof. intros (_ & _ & Hb & _). unfold measure. lia. Qed.

Lemma file_connecting m f : file_ok m f -> f_flags f = F_CONNECTING -> 0 <= f_fd f < FD_SETSIZE /\ m !! f_fd f = Some [].
Proof. intros [_ [E|[E|[Hr [[_ Ho]|[E _]]]]]] E'; [by rewrite E' in E..|done|by rewrite E' in E]. Qed.
Lemma file_reading m f : file_ok m f -> f_flags f = F_READING ->
  0 <= f_fd f < FD_SETSIZE /\ m !! f_fd f = Some (GET_CMD (f_name f)).
Proof. intros [_ [E|[E|[Hr [[E _]|[_ Ho]]]]]] E'; [by rewrite E' in E..|done]. Qed.

(** The check of SO_ERROR changes nothing that matters. *)
Lemma wp_check_error {B} fd msg (p : prog B) (Q : B -> globals -> K -> Prop) g k :
  daemon_proc g = 0 -> (forall g' k', daemon_proc g' = 0 -> same k k' -> W p Q g' k') ->
  W (r ← call (Egetsockopt fd SOL_SOCKET SO_ERROR);
     failed ← (match r with Err _ => Ret true | Ok (OInt error) => Ret (negb (error =? 0)) | Ok _ => fault end);
     _ ← (if (failed : bool) then err_ret msg else Ret tt);
     p) Q g k.
Proof.
  intros Hd HQ.
  assert (forall (failed : bool) g1 k1, daemon_proc g1 = 0 -> same k k1 -> W (_ ← (if failed then err_ret msg else Ret tt); p) Q g1 k1) as Hif.
  { intros [] g1 k1 Hd1 H1; [|by wp_step; apply HQ]. apply wp_bind, wp_err_ret; [done|]. intros g2 k2 Hd2 H2. apply HQ; [done|by eapply web_same_trans]. }
  wp_step.
  - destruct (wk_soerror _ _ _ _ H) as [e ->]. wp_step. apply Hif; [done|by eapply same_quiet].
  - wp_step. apply (Hif true); [done|by eapply same_quiet].
Qed.

Lemma established_spec wfuel a f b st g k (P : Prop) :
  Inv k st -> files st = a ++ f :: b -> f_flags f = F_CONNECTING -> daemon_proc g = 0 -> room wfuel k ->
  W (established wfuel (length a) f st) (after P wfuel a b k st) g k.
Proof.
  intros HI Ef E Hd Hroom. destruct (inv_at k st a f b HI Ef) as (Hfok & Hnew & _ & _ & Hws & _ & _).
  destruct (file_connecting _ _ Hfok E) as [Hr Ho]. specialize (Hnew ltac:(unfold active; by rewrite E)).
  unfold established. apply wp_check_error; [done|]. intros g2 k2 Hd2 H2. apply wp_bind, wp_printf. intros g3 k3 Hd3 H3.
  wp_step; [by apply FD_CLR_ok|]. pose proof (web_same_trans _ _ _ H2 H3) as H23. pose proof H23 as (Eo & Es & B & Pt).
  apply (wp_write_get_cmd wfuel a f b); [done|by rewrite Eo|done|apply Hfok|congruence|unfold room in Hroom; lia|].
  intros g4 k4 Hd4 H4. rewrite Eo, Es in H4. pose proof (becomes_trans _ _ _ _ _ H23 H4) as HB.
  assert (to_connect f = 0) as Hc by (unfold to_connect; by rewrite E).
  assert (wset st ∖ {[f_fd f]} = list_to_set (connecting (a ++ b))) as Hw.
  { rewrite Hws. unfold own_w. rewrite E. cbn. pose proof (connecting_fds (a ++ b)) as Hsub.
    apply set_eq. intros x. rewrite elem_of_difference, elem_of_union, elem_of_singleton. split; [set_solver|]. intros Hx. split; [by right|].
    intros ->. by apply Hsub, elem_of_list_to_set in Hx. }
  destruct (inv_moves k st k4 a f b (f_fd f) F_READING (GET_CMD (f_name f)) (nconn st) (nlefttoconn st) (wset st ∖ {[f_fd f]})) as [HI' Hm]; auto with lia.
  { rewrite Hw. unfold own_w. cbn. by rewrite union_empty_l_L. }
  { apply (inv_limit _ _ HI). }
  specialize (Hm (or_intror eq_refl)). split; [exact HI'|]. split; [by eexists|]. split; [unfold room in *; destruct HB as (_ & _ & _ & ?); lia|].
  split; [done|]. split; [|done]. apply Z.lt_le_incl. exact Hm.
Qed.

Lemma readable_spec wfuel a f b st g k (P : Prop) :
  Inv k st -> files st = a ++ f :: b -> f_flags f = F_READING -> daemon_proc g = 0 -> room wfuel k ->
  W (readable (length a) f st) (after P wfuel a b k st) g k.
Proof.
  intros HI Ef E Hd Hroom. destruct (inv_at k st a f b HI Ef) as (Hfok & Hnew & Hdom & Hrs & Hws & Hsh & Hme).
  destruct (file_reading _ _ Hfok E) as [Hr Ho]. assert (active f = true) as Ha by (unfold active; by rewrite E). specialize (Hnew Ha).
  unfold own in Hdom, Hrs. rewrite Ha in Hdom, Hrs.
  unfold readable. apply wp_bind. eapply wp_Read; [done|done|done|]. intros bs k1 H1 Hb1.
  destruct (Z.eqb_spec (Z.of_nat (length bs)) 0) as [En|En].
  - apply wp_bind, wp_printf. intros g2 k2 Hd2 H2. pose proof (web_same_trans _ _ _ H1 H2) as H12. pose proof H12 as (Eo & Es & B & Pt).
    apply wp_bind. eapply wp_Close; [by rewrite Eo|congruence|]. intros k3 (Eo3 & Es3 & B3 & P3). rewrite Eo in Eo3. rewrite Es in Es3.
    rewrite (set_file_at a f b) by done. wp_step; [by apply FD_CLR_ok|]. wp_step. cbn [with_file files nconn nlefttoconn nlefttoread maxfd rset wset].
    assert (forall X : gset Z, X = list_to_set (fds (a ++ b)) -> ({[f_fd f]} ∪ X) ∖ {[f_fd f]} = X) as Hdiff.
    { intros X ->. apply set_eq. intros x. rewrite elem_of_difference, elem_of_union, elem_of_singleton, elem_of_list_to_set. split; [tauto|].
      intros Hx. split; [by right|]. by intros ->. }
    split.
    { eapply (inv_replace k st k3 a f b (File (f_name f) (f_host f) (f_fd f) F_DONE)); unfold own, own_w, to_connect, to_read, active; cbn [f_flags f_fd f_name]; rewrite ?E;
        cbn -[Z.sub Z.add list_to_set fetched]; rewrite ?union_empty_l_L; try done; try lia.
      - intros x Hx. rewrite Eo3. apply lookup_delete_ne. intros Hq. by rewrite Hq in Hnew.
      - split; [apply Hfok|]. by right; left.
      - rewrite Eo3, dom_delete_L, Hdom. by apply Hdiff.
      - rewrite Hrs. by apply Hdiff.
      - by rewrite Hws; unfold own_w; rewrite E; cbn; rewrite union_empty_l_L.
      - intros x Hx. apply (inv_max _ _ HI). revert Hx. apply elem_of_difference.
      - pose proof (inv_limit _ _ HI). lia.
      - rewrite Es3, Hsh, !fetched_middle, E. cbn [f_flags f_name]. cbn. by rewrite app_nil_r, <- app_assoc. }
    split; [by eexists|]. split; [unfold room in *; lia|]. split; [congruence|]. rewrite Hme. unfold measure. cbn [files]. rewrite sum_middle.
    unfold weight. cbn [f_flags]. rewrite E. cbn -[Z.add sum]. split; lia.
  - apply wp_bind, wp_printf. intros g2 k2 Hd2 H2. pose proof (web_same_trans _ _ _ H1 H2) as H12. wp_step.
    assert (budget k1 < budget k)%nat by (apply Hb1; intros ->; done). destruct H2 as (_ & _ & B2 & P2). destruct H1 as (_ & _ & _ & P1).
    split; [by eapply web_inv_same|]. split; [by exists f|]. split; [unfold room in *; lia|]. split; [congruence|]. unfold measure. split; lia.
Qed.

Lemma after_idle (P : Prop) wfuel a f b k st g :
  Inv k st -> files st = a ++ f :: b -> room wfuel k -> daemon_proc g = 0 -> ~ P -> after P wfuel a b k st st g k.
Proof. intros. split; [done|]. split; [by exists f|]. split; [done|]. split; [done|]. split; [lia|tauto]. Qed.

(** Evaluate the tests of a known flag. *)
Ltac test_flags :=
  repeat match goal with
  | |- context [negb (Z.land ?x ?y =? 0)] => let v := eval vm_compute in (negb (Z.land x y =? 0)) in change (negb (Z.land x y =? 0)) with v
  end; cbn -[FD_ISSET].

Lemma serve_file_spec wfuel rs ws a f b st g k :
  Inv k st -> files st = a ++ f :: b -> daemon_proc g = 0 -> room wfuel k ->
  W (serve_file wfuel rs ws (length a) st) (after (ready rs ws f) wfuel a b k st) g k.
Proof.
  intros HI Ef Hd Hroom. destruct (inv_at k st a f b HI Ef) as (Hfok & _).
  unfold serve_file. wp_step; [by eapply file_at|].
  pose proof Hfok as [_ [E|[E|[Hr [[E _]|[E _]]]]]]; rewrite E; test_flags.
  - wp_step. eapply after_idle; try done. unfold ready. rewrite E. intros [[? _]|[? _]]; done.
  - wp_step. eapply after_idle; try done. unfold ready. rewrite E. intros [[? _]|[? _]]; done.
  - apply wp_bind, wp_bind. eapply wp_mem; [by apply FD_ISSET_ok|]. case_bool_decide as H1; cbn iota.
    { wp_step. by apply established_spec. }
    eapply wp_mem; [by apply FD_ISSET_ok|]. case_bool_decide as H2; cbn iota; [by apply established_spec|].
    wp_step. eapply after_idle; try done. unfold ready. rewrite E. intros [[_ [?|?]]|[? _]]; done.
  - wp_step; [by apply FD_ISSET_ok|]. case_bool_decide as H1; cbn iota; [by apply readable_spec|].
    wp_step. eapply after_idle; try done. unfold ready. rewrite E. intros [[? _]|[_ ?]]; done.
Qed.

Lemma serve_files_spec wfuel rs ws b : forall a st g k (Q : web -> globals -> K -> Prop),
  Inv k st -> files st = a ++ b -> daemon_proc g = 0 -> room wfuel k ->
  (forall st' g' k', Inv k' st' -> room wfuel k' -> daemon_proc g' = 0 -> measure k' st' <= measure k st ->
     (Exists (ready rs ws) b -> measure k' st' < measure k st) -> Q st' g' k') ->
  W (serve_files wfuel rs ws (length b) (length a) st) Q g k.
Proof.
  induction b as [|f b IH]; intros a st g k Q HI Ef Hd Hroom HQ; cbn [length serve_files].
  { wp_step. apply HQ; try done. intros HE. by apply Exists_nil in HE. }
  apply wp_bind. eapply wp_mono; [by apply (serve_file_spec wfuel rs ws a f b)|].
  intros st1 g1 k1 (HI1 & [f' Ef1] & Hroom1 & Hd1 & Hm1 & Hp1).
  replace (S (length a)) with (length (a ++ [f'])) by (rewrite length_app; cbn; lia).
  apply IH; [done|by rewrite <- app_assoc|done|done|]. intros st2 g2 k2 HI2 Hroom2 Hd2 Hm2 Hp2. apply HQ; try done; [lia|].
  intros [Hf|Hb]%Exists_cons; [specialize (Hp1 Hf)|specialize (Hp2 Hb)]; lia.
Qed.

(** A descriptor that select reports belongs to a file that is ready. *)
Lemma ready_file k st rs ws : Inv k st -> (rs ⊆ rset st) -> (ws ⊆ wset st) -> (exists fd, fd ∈ rs ∪ ws) -> Exists (ready rs ws) (files st).
Proof.
  intros HI Hrs Hws [fd Hfd]. apply elem_of_union in Hfd as [H|H].
  - apply Hrs in H as H'. rewrite (inv_rset _ _ HI), elem_of_list_to_set in H'. unfold fds in H'. apply list_elem_of_omap in H' as (f & Hin & Hf).
    apply Exists_exists. exists f. split; [done|]. unfold active in Hf. unfold ready.
    destruct (Z.eqb_spec (f_flags f) F_CONNECTING); cbn in Hf; simplify_eq; [by left; split; [|left]|].
    destruct (Z.eqb_spec (f_flags f) F_READING); simplify_eq. by right.
  - apply Hws in H as H'. rewrite (inv_wset _ _ HI), elem_of_list_to_set in H'. unfold connecting in H'. apply list_elem_of_omap in H' as (f & Hin & Hf).
    apply Exists_exists. exists f. split; [done|]. unfold ready. destruct (Z.eqb_spec (f_flags f) F_CONNECTING); simplify_eq. by left; split; [|right].
Qed.

(** While files are to be read there is a connection, unless there could be none. *)
Lemma some_connection k st : Inv k st -> 0 < maxnconn -> (maxnconn <= nconn st \/ nlefttoconn st = 0) -> 0 < nlefttoread st ->
  exists fd, fd ∈ rset st.
Proof.
  intros HI Hmax Hor Hrd. pose proof (inv_nconn _ _ HI) as H1. pose proof (inv_conn _ _ HI) as H2. pose proof (inv_read _ _ HI) as H3. pose proof (inv_files _ _ HI) as H4.
  assert (nlefttoread st = nlefttoconn st + nconn st) as Hsum.
  { rewrite H1, H2, H3. clear - H4. induction H4 as [|f l Hf _ IH]; [done|]. unfold sum in *. cbn [foldr]. rewrite IH. unfold to_read, to_connect, active.
    destruct Hf as [_ [->|[->|[_ [[-> _]|[-> _]]]]]]; cbn -[Z.add foldr]; lia. }
  assert (0 < nconn st) as Hn by lia. rewrite H1 in Hn. rewrite (inv_rset _ _ HI). clear - Hn.
  induction (files st) as [|f l IH]; [done|]. unfold sum in *. cbn [foldr] in Hn. unfold fds. cbn [omap list_omap]. destruct (active f).
  - exists (f_fd f). cbn. set_solver.
  - destruct IH as [fd Hfd]; [lia|]. by exists fd.
Qed.

Lemma web_turn_spec wfuel st g k (Q : web -> globals -> K -> Prop) :
  Inv k st -> 0 < maxnconn -> 0 < nlefttoread st -> daemon_proc g = 0 -> room wfuel k ->
  (forall st' g' k', Inv k' st' -> room wfuel k' -> daemon_proc g' = 0 -> measure k' st' < measure k st -> Q st' g' k') ->
  W (web_turn wfuel maxnconn st) Q g k.
Proof.
  intros HI Hmax Hrd Hd Hroom HQ. unfold web_turn. apply wp_bind, connect_loop_spec; try done.
  { rewrite (inv_conn _ _ HI). clear. induction (files st); [done|]. unfold sum, to_connect in *. cbn [foldr length]. case_match; lia. }
  intros st1 g1 k1 HI1 Hm1 Hroom1 Hd1 Hor Hrd1. unfold Select. apply wp_bind, wp_fatal; [done|done|]. intros [m [[rs ws] xs]] k2 E.
  pose proof (wk_select (maxfd st1 + 1) (rset st1) (wset st1) k1) as HS. rewrite E in HS. destruct HS as (Hrs & Hws & Hsome).
  apply same_quiet in E; [|done]. pose proof (web_inv_same _ _ _ E HI1) as HI2.
  apply (serve_files_spec wfuel rs ws (files st1) [] st1); [done|done|done|destruct E as (_ & _ & _ & ?); unfold room in *; lia|].
  intros st3 g3 k3 HI3 Hroom3 Hd3 Hm3 Hp3. pose proof (measure_same _ _ st1 E) as Hme.
  apply HQ; try done. assert (measure k3 st3 < measure k2 st1); [|lia]. apply Hp3. eapply ready_file; try done. apply Hsome.
  destruct (some_connection k1 st1 HI1 Hmax Hor) as [fd Hfd]; [lia|]. exists fd. split; [set_solver|]. pose proof (inv_max _ _ HI1 fd Hfd). lia.
Qed.

Lemma web_loop_spec wfuel turns : forall st g k (Q : web -> globals -> K -> Prop),
  Inv k st -> 0 < maxnconn -> measure k st <= Z.of_nat turns -> daemon_proc g = 0 -> room wfuel k ->
  (forall st' g' k', Inv k' st' -> nlefttoread st' <= 0 -> Q st' g' k') ->
  W (web_loop wfuel turns maxnconn st) Q g k.
Proof.
  assert (forall l, 0 <= sum weight l) as Hw.
  { intros l. induction l; unfold sum, weight in *; cbn [foldr]; [done|]. repeat case_match; lia. }
  induction turns as [|t IH]; intros st g k Q HI Hmax Hme Hd Hroom HQ; cbn [web_loop];
    (destruct (Z.ltb_spec 0 (nlefttoread st)) as [Hrd|Hrd]; [|by wp_step; apply HQ]).
  - exfalso. rewrite (inv_read _ _ HI) in Hrd. unfold measure in Hme. assert (sum weight (files st) = 0) as H0 by (specialize (Hw (files st)); lia).
    pose proof (inv_files _ _ HI) as Hf. clear - H0 Hrd Hf Hw. induction Hf as [|f l Hf _ IH]; [done|].
    specialize (Hw l). unfold sum, to_read, weight in *. cbn [foldr] in *.
    destruct Hf as [_ [E|[E|[_ [[E _]|[E _]]]]]]; rewrite E in *; cbn -[Z.add foldr] in *; lia || (apply IH; lia).
  - apply wp_bind, web_turn_spec; try done. intros st1 g1 k1 HI1 Hroom1 Hd1 Hm1. apply IH; try done. lia.
Qed.
End Inv.

Section Main.
Context {K : Type} `{HK : !Kernel K} `{HW : !WebKernel K}.
Implicit Types (k : K) (g : globals).

Definition wanted (names : list (list Z)) : list (list Z) := take (Z.to_nat MAXFILES) names.

Lemma client_init_inv maxnconn base host names k :
  Forall short (wanted names) -> opens k = ∅ -> shut k ≡ₚ base ->
  Inv maxnconn base (wanted names) k (web_init host names).
Proof.
  intros Hs Ho Hsh. unfold web_init. fold (wanted names). set (ns := wanted names) in *.
  assert (forall l, fds (map (fun n => File n host 0 0) l) = [] /\ connecting (map (fun n => File n host 0 0) l) = [] /\ fetched (map (fun n => File n host 0 0) l) = [] /\
    sum (fun f => if active f then 1 else 0) (map (fun n => File n host 0 0) l) = 0 /\
    sum to_connect (map (fun n => File n host 0 0) l) = Z.of_nat (length l) /\ sum to_read (map (fun n => File n host 0 0) l) = Z.of_nat (length l)) as Hinit.
  { induction l as [|x l (H1 & H2 & H3 & H4 & H5 & H6)]; [done|]. split_and!; [done..| | |].
    - exact H4.
    - transitivity (1 + sum to_connect (map (fun n => File n host 0 0) l)); [done|]. rewrite H5. cbn [length]. lia.
    - transitivity (1 + sum to_read (map (fun n => File n host 0 0) l)); [done|]. rewrite H6. cbn [length]. lia. }
  destruct (Hinit ns) as (H1 & H2 & H3 & H4 & H5 & H6).
  split; cbn [files nconn nlefttoconn nlefttoread maxfd rset wset]; rewrite ?H1, ?H2, ?H3, ?H4, ?H5, ?H6, ?length_map; try done; try lia.
  - rewrite map_map. apply map_id.
  - apply Forall_map. eapply Forall_impl; [exact Hs|]. intros n Hn. split; [done|]. by left.
  - constructor.
  - by rewrite Ho.
  - by rewrite app_nil_r.
Qed.

Lemma done_inv maxnconn base ns k st : Inv maxnconn base ns k st -> nlefttoread st <= 0 ->
  opens k = ∅ /\ Forall (fun f => f_flags f = F_DONE) (files st) /\ shut k ≡ₚ base ++ map GET_CMD ns.
Proof.
  intros HI Hrd. pose proof (inv_read _ _ _ _ _ HI) as Hr.
  assert (Forall (fun f => f_flags f = F_DONE) (files st)) as Hall.
  { rewrite Hr in Hrd. clear - Hrd.
    assert (forall l, 0 <= sum to_read l) as Hpos by (intros l; induction l; unfold sum, to_read in *; cbn [foldr]; [done|case_match; lia]).
    induction (files st) as [|f l IH]; [done|]. specialize (Hpos l). unfold sum, to_read in *. cbn [foldr] in Hrd.
    destruct (Z.eqb_spec (f_flags f) F_DONE); [|lia]. constructor; [done|]. apply IH. lia. }
  assert (fds (files st) = [] /\ fetched (files st) = map GET_CMD (map f_name (files st))) as [Hf Hg].
  { clear - Hall. induction Hall as [|f l Hf _ [H1 H2]]; [done|]. unfold fds, fetched, active in *. cbn [omap list_omap map]. by rewrite Hf, H1, H2. }
  split; [|split; [done|]].
  - apply dom_empty_iff_L. by rewrite (inv_opens _ _ _ _ _ HI), Hf.
  - by rewrite (inv_shut _ _ _ _ _ HI), Hg, (inv_names _ _ _ _ _ HI).
Qed.

End Main.

(** ** A system *)

(** [n_data]: how many reads still return bytes. *)
Record net := Net { n_open : gmap Z (list Z); n_shut : list (list Z); n_data : nat; n_nonb : gset Z }.

Definition unused (o : gmap Z (list Z)) : option Z := head (filter (fun fd => fd ∉ dom o) (seqZ 3 1000)).

#[export] Instance net_kernel : Kernel net := {|
  kcall X e :=
    match e in sysE X return net -> res X * net with
    | Esocket _ _ _ => fun k =>
        match unused (n_open k) with
        | Some fd => (Ok fd, Net (<[fd := []]> (n_open k)) (n_shut k) (n_data k) (n_nonb k ∖ {[fd]}))
        | None => (Err ENOSYS, k)
        end
    | Econnect fd _ _ => fun k => (if bool_decide (fd ∈ n_nonb k) then Err EINPROGRESS else Ok tt, k)
    | Efcntl fd _ arg => fun k =>
        (Ok 0, if Z.testbit arg 2 then Net (n_open k) (n_shut k) (n_data k) ({[fd]} ∪ n_nonb k) else k)
    | Egetsockopt _ _ _ => fun k => (Ok (OInt 0), k)
    | Eselect _ r w _ _ => fun k => (Ok (Z.of_nat (size r + size w), (r, w, ∅)), k)
    | Eread _ _ => fun k =>
        match n_data k with
        | S d => (Ok (str "ok"), Net (n_open k) (n_shut k) d (n_nonb k))
        | O => (Ok [], k)
        end
    | Ewrite fd bs => fun k =>
        match n_open k !! fd with
        | Some s => let n := Z.min 10 (Z.of_nat (length bs)) in
            (Ok n, Net (<[fd := s ++ take (Z.to_nat n) bs]> (n_open k)) (n_shut k) (n_data k) (n_nonb k))
        | None => (Err EBADF, k)
        end
    | Eclose fd => fun k =>
        match n_open k !! fd with
        | Some s => (Ok tt, Net (delete fd (n_open k)) (n_shut k ++ [s]) (n_data k) (n_nonb k))
        | None => (Ok tt, k)
        end
    | Efputs _ _ => fun k => (Ok tt, k)
    | Efflush _ => fun k => (Ok tt, k)
    | _ => fun k => (Err ENOSYS, k)
    end;
  klib X e k :=
    (match e in libE X return X with
     | Egetaddrinfo _ _ _ => inr [Addrinfo 0 AF_INET SOCK_STREAM 0 16 None (SaIn (SockaddrIn 80 [127; 0; 0; 1]))]
     | e => (@klib unit (failing_kernel ENOSYS) _ e tt).1
     end, k) |}.

Lemma unused_fresh o fd : unused o = Some fd -> 0 <= fd < FD_SETSIZE /\ o !! fd = None.
Proof.
  unfold unused. intros H. apply head_Some_elem_of in H. apply list_elem_of_filter in H as [Hn Hin]. apply elem_of_seqZ in Hin.
  split; [unfold FD_SETSIZE; lia|]. by apply not_elem_of_dom.
Qed.
Lemma unused_some o : unused o = None -> (few <= size o)%nat.
Proof.
  unfold unused. intros H. destruct (filter _ _) as [|x l] eqn:E; [|done]. rewrite <- size_dom.
  assert (list_to_set (seqZ 3 1000) ⊆ dom o) as Hsub.
  { intros x Hx. apply elem_of_list_to_set in Hx. destruct (decide (x ∈ dom o)) as [|Hn]; [done|].
    assert (x ∈ filter (fun fd => fd ∉ dom o) (seqZ 3 1000)) as Hf by (by apply list_elem_of_filter). rewrite E in Hf. by apply elem_of_nil in Hf. }
  apply subseteq_size in Hsub. rewrite size_list_to_set in Hsub by apply NoDup_seqZ. rewrite length_seqZ in Hsub. unfold few. lia.
Qed.

#[export] Instance net_web : WebKernel net.
Proof.
  refine {| opens := n_open; shut := n_shut; budget := n_data; patience := fun _ => 0%nat; may_fail := False; nonblocking := n_nonb |}.
  - intros X e k Hq. destruct e; try done. cbn -[Z.testbit]. by destruct (Z.testbit arg 2).
  - done.
  - intros X e k n k' Hf. destruct e; try done; cbn; by repeat case_match.
  - done.
  - intros fd k v k' [= <- <-]. by exists 0.
  - intros f t p k. cbn -[unused]. destruct (unused (n_open k)) as [fd|] eqn:E.
    + destruct (unused_fresh _ _ E). split_and!; try done; try lia. set_solver.
    + split; [done|]. right. by apply unused_some.
  - intros fd sa n k e k'. cbn. case_bool_decide; [|done]. intros [= <- <-]. by right.
  - intros fd n s k Ho Hn. cbn. destruct (n_data k) as [|d] eqn:E; [split; [split_and!; try done; lia|by intros []]|]. split; [|cbn; lia]. split_and!; cbn; try done; lia.
  - intros fd bs s k Ho Hne. cbn -[Z.min]. rewrite Ho. destruct bs as [|b bs]; [done|].
    split; [lia|]. split; [cbn [length]; lia|]. split_and!; try done; cbn; lia.
  - intros fd s k Ho. cbn. by rewrite Ho.
  - intros n r w k. cbn. split_and!; try done. intros (fd & Hfd & _). by exists fd.
Defined.

Definition some_names : list (list Z) := [str "/a"; str "/b"; str "/c"].


(** In that system no call can fail: the client returns. *)
Example web_returns :
  exists st g k, run (web_main 4097 20 2 (str "host") (str "/") some_names) globals0 (Net ∅ [] 5 ∅) = (Done st, g, k) /\
    n_shut k = map GET_CMD [str "/"; str "/a"; str "/b"; str "/c"].
Proof. eexists _, _, _. split; vm_compute; reflexivity. Qed.

(** A request that does not fit the array is cut by snprintf, but Writen is given the length
    it would have had: bytes behind the array are sent. *)
Theorem send_get_overreads {K : Type} `{!Kernel K} (wfuel : nat) (fd : Z) (fname : list Z) (g : globals) (k : K) :
  MAXLINE < Z.of_nat (length (GET_CMD fname)) -> (0 < wfuel)%nat ->
  (run (send_get wfuel fd fname stack_array) g k).1.1 = Halted Fault.
Proof.
  intros Hl Hf. unfold send_get. rewrite run_bind, run_mem. unfold array_snprintf.
  rewrite V4.strcpy_ok; [|done|unfold truncstr, stack_array; rewrite length_take, length_replicate; unfold MAXLINE in *; lia].
  rewrite run_bind. unfold Writen, writen. rewrite run_bind. destruct wfuel as [|f]; [lia|]. cbn [writen_loop].
  rewrite (proj2 (Z.ltb_lt _ _)) by (unfold MAXLINE in *; lia).
  rewrite run_bind, run_mem. unfold asub.
  match goal with |- context [if ?b then _ else None] => assert (b = false) as -> end; [|done].
  apply andb_false_iff. right. apply Z.leb_gt.
  rewrite !length_app, length_take. cbn [length]. rewrite length_drop. unfold truncstr, stack_array. rewrite length_take, length_replicate. unfold MAXLINE in *. lia.
Qed.
End WebClientProofs.
