(* ===== verification/SockProg.v ===== *)
(** * The sock program: unpv13e/sock

    The parts of the test program that move data: its own error functions, the
    conversion of line ends, the pattern of source mode, writes in chunks, the
    loop that copies standard input to a TCP socket and the socket to standard
    output, and the source and sink modes.  The global option variables are a
    record ([opts]); rbuf and wbuf are arrays passed along. *)
From stdpp Require Import base list numbers strings gmap.
From S2P Require Import Prelude InetAddr Sys Error StreamIO Connect Server Nonblock.

Module SockProg.
Definition UIO_MAXIOV : Z := 16.
Definition MSG_PEEK : Z := 2.
Definition MSG_OOB : Z := 1.
Definition SO_SNDBUF : Z := 0x1001.
Definition SO_RCVBUF : Z := 0x1002.

Record opts := Opts {
  chunkwrite : Z; crlf : Z; halfclose : Z; ignorewerr : Z; msgpeek : Z; nbuf : Z;
  pauseclose : Z; pauseinit : Z; pauserw : Z; readlen : Z; writelen : Z;
  rcvbuflen : Z; sndbuflen : Z; urgwrite : Z; verbose : Z; usewritev : Z }.

(** ** error.c: messages are formatted without a bound into an array of MAXLINE bytes *)
Definition err_doit (errnoflag : Z) (msg : list Z) : prog unit :=
  errno_save ← get_errno;
  buf ← mem (strcat MAXLINE [] msg);
  buf1 ← (if errnoflag =? 0 then Ret buf
          else es ← lib (Estrerror errno_save); mem (strcat MAXLINE buf (str ": " ++ es)));
  buf2 ← mem (strcat MAXLINE buf1 [10]);
  _ ← call_ (Efflush stdout);
  _ ← call_ (Efputs buf2 stderr);
  call_ (Efflush stderr).
Definition err_ret (msg : list Z) : prog unit := err_doit 1 msg.
Definition err_sys {A} (msg : list Z) : prog A := _ ← err_doit 1 msg; Halt (Exit 1).
Definition err_dump {A} (msg : list Z) : prog A := _ ← err_doit 1 msg; Halt Aborted.
Definition err_msg (msg : list Z) : prog unit := err_doit 0 msg.
Definition err_quit {A} (msg : list Z) : prog A := _ ← err_doit 0 msg; Halt (Exit 1).

(** ** crlf.c *)
Definition too_small (f : string) {A} : prog A := err_quit (str f ++ str ": destination not big enough").

(** for ( ; lenin > 0; lenin--), with [lenin] rounds left; [s] and [d] are src and dst. *)
Fixpoint add_loop (lenin : nat) (dst : list Z) (dstsize d : Z) (src : list Z) (s lenout : Z) : prog (Z * list Z) :=
  match lenin with
  | O => Ret (lenout, dst)
  | S n =>
      c ← mem (aread src s);
      if c =? 10 then
        if dstsize <=? lenout + 1 then too_small "crlf_add"
        else
          dst1 ← mem (awrite dst d 13);
          dst2 ← mem (awrite dst1 (d + 1) c);
          add_loop n dst2 dstsize (d + 2) src (s + 1) (lenout + 1)
      else
        dst1 ← mem (awrite dst d c);
        add_loop n dst1 dstsize (d + 1) src (s + 1) lenout
  end.

Definition crlf_add (dst : list Z) (dstsize : Z) (src : list Z) (lenin : Z) : prog (Z * list Z) :=
  if dstsize <? lenin then too_small "crlf_add"
  else add_loop (Z.to_nat lenin) dst dstsize 0 src 0 lenin.

Fixpoint strip_loop (lenin : nat) (dst : list Z) (dstsize d : Z) (src : list Z) (s lenout : Z) : prog (Z * list Z) :=
  match lenin with
  | O => Ret (lenout, dst)
  | S n =>
      c ← mem (aread src s);
      if negb (c =? 13) then
        if dstsize <=? lenout + 1 then too_small "crlf_strip"
        else
          dst1 ← mem (awrite dst d c);
          strip_loop n dst1 dstsize (d + 1) src (s + 1) (lenout + 1)
      else strip_loop n dst dstsize d src (s + 1) lenout
  end.

Definition crlf_strip (dst : list Z) (dstsize : Z) (src : list Z) (lenin : Z) : prog (Z * list Z) :=
  strip_loop (Z.to_nat lenin) dst dstsize 0 src 0 0.

(** ** pattern.c *)
Definition isprint (c : Z) : bool := (32 <=? c) && (c <=? 126).

(** while (isprint(c & 0x7F) == 0) c++; a char has 8 bits. *)
Fixpoint skip_nonprinting (fuel : nat) (c : Z) : option Z :=
  if isprint (Z.land c 0x7f) then Some c
  else match fuel with O => None | S f => skip_nonprinting f (u8 (c + 1)) end.

Fixpoint pattern_loop (len : nat) (buf : list Z) (ptr c : Z) : option (list Z) :=
  match len with
  | O => Some buf
  | S n =>
      c1 ← skip_nonprinting 128 c;
      buf1 ← awrite buf ptr (Z.land c1 0x7f);
      pattern_loop n buf1 (ptr + 1) (u8 (c1 + 1))
  end.
Definition pattern (buf : list Z) (len : Z) : option (list Z) := pattern_loop (Z.to_nat len) buf 0 0.

(** ** write.c *)

(** The iovec: for (i = 0; i < UIO_MAXIOV; i++), with [k] rounds left; [None] when the loop
    is not left by the break.  The verbose output is not modelled. *)
Fixpoint chunks (k : nat) (v : list Z) (ptr nleft chunksize : Z) : option (option (list (list Z))) :=
  match k with
  | O => Some None
  | S k' =>
      let n := if chunksize <=? nleft then chunksize else nleft in
      c ← asub v ptr n;
      if nleft - n =? 0 then Some (Some [c])
      else
        r ← chunks k' v (ptr + n) (nleft - n) chunksize;
        Some (match r with Some l => Some (c :: l) | None => None end)
  end.

Definition chunk_size (nbytes : Z) : Z :=
  let chunksize := nbytes / UIO_MAXIOV in
  if chunksize <=? 0 then 1
  else if negb (nbytes mod UIO_MAXIOV =? 0) then chunksize + 1 else chunksize.

(** for (n = 0; n <= i; n++) *)
Fixpoint write_chunks (fd : Z) (iov : list (list Z)) (ntotal : Z) : prog Z :=
  match iov with
  | [] => Ret ntotal
  | c :: iov' =>
      r ← call (Ewrite fd c);
      match r with
      | Ok nwritten => if negb (nwritten =? Z.of_nat (length c)) then Ret (-1) else write_chunks fd iov' (ntotal + nwritten)
      | Err _ => Ret (-1)
      end
  end.

(** write, with the -1 of an error. *)
Definition sys_write (fd : Z) (bs : list Z) : prog Z :=
  r ← call (Ewrite fd bs);
  match r with Ok n => Ret n | Err _ => Ret (-1) end.

(** writev writes the elements one after the other. *)
Definition dowrite (o : opts) (fd : Z) (v : list Z) (nbytes : Z) : prog Z :=
  if (chunkwrite o =? 0) && (usewritev o =? 0) then
    bs ← mem (asub v 0 nbytes); sys_write fd bs
  else
    r ← mem (chunks (Z.to_nat UIO_MAXIOV) v 0 nbytes (chunk_size nbytes));
    match r with
    | None => err_quit (str "i == UIO_MAXIOV")
    | Some iov => if negb (usewritev o =? 0) then sys_write fd (concat iov) else write_chunks fd iov 0
    end.

(** ** writen.c: nwritten is a size_t, so the -1 of an error is a large number *)
Fixpoint writen_loop (fuel : nat) (fd : Z) (v : list Z) (ptr nleft n : Z) : prog Z :=
  if 0 <? nleft then
    match fuel with
    | O => Halt Spin
    | S f =>
        bs ← mem (asub v ptr nleft);
        r ← sys_write fd bs;
        let nwritten := u64 r in
        if nwritten <=? 0 then Ret nwritten
        else writen_loop f fd v (ptr + sint 64 nwritten) (u64 (nleft - nwritten)) n
    end
  else Ret n.
Definition writen (fuel : nat) (fd : Z) (v : list Z) (n : Z) : prog Z := writen_loop fuel fd v 0 n n.

(** ** sleepus.c *)
Fixpoint sleep_us (fuel : nat) (nusecs : Z) : prog unit :=
  match fuel with
  | O => Halt Spin
  | S f =>
      r ← call (Eselect 0 ∅ ∅ ∅ (Some (Timeval (nusecs / 1000000) (nusecs mod 1000000))));
      match r with
      | Ok (n, _) => if n =? 0 then Ret tt else e ← get_errno; if e =? EINTR then sleep_us f nusecs else err_sys (str "sleep_us: select error")
      | Err _ => e ← get_errno; if e =? EINTR then sleep_us f nusecs else err_sys (str "sleep_us: select error")
      end
  end.

(** if (p) sleep_us(p*1000); *)
Definition pause (fuel : nat) (p : Z) : prog unit := if p =? 0 then Ret tt else sleep_us fuel (u32 (p * 1000)).
Definition fprintf_stderr (msg : list Z) : prog unit := call_ (Efputs (msg ++ [10]) stderr).
Definition if_verbose (o : opts) (msg : list Z) : prog unit := if verbose o =? 0 then Ret tt else fprintf_stderr msg.

(** The end of loop_tcp, source_tcp and sink_tcp. *)
Definition finish (fuel : nat) (o : opts) (sockfd : Z) : prog unit :=
  _ ← (if pauseclose o =? 0 then Ret tt
       else _ ← if_verbose o (str "pausing before close"); sleep_us fuel (u32 (pauseclose o * 1000)));
  r ← call (Eclose sockfd);
  match r with Ok _ => Ret tt | Err _ => err_sys (str "close error") end.

(** ** looptcp.c *)
Record bufs := Bufs { rbuf : list Z; wbuf : list Z }.

(** How a turn of the loop goes on. *)
Inductive next := Continue | Break.

(** The variables of the loop. *)
Record loop := Loop { l_bufs : bufs; stdineof : Z; rset : fd_set }.

(** Data on standard input: the new state, and whether the rest of the turn is skipped
    ([Some]). *)
Definition from_stdin (o : opts) (sockfd : Z) (l : loop) : prog (loop * option next) :=
  let b := l_bufs l in
  r ← call (Eread 0 (readlen o));
  match r with
  | Err _ => err_sys (str "read error from stdin")
  | Ok bs =>
      rb ← mem (memcpy (rbuf b) 0 bs);
      let nread := Z.of_nat (length bs) in
      if nread =? 0 then
        if negb (halfclose o =? 0) then
          s ← call (Eshutdown sockfd SHUT_WR);
          match s with
          | Err _ => err_sys (str "shutdown() error")
          | Ok _ => r1 ← mem (FD_CLR 0 (rset l)); Ret (Loop (Bufs rb (wbuf b)) 1 r1, Some Continue)
          end
        else Ret (Loop (Bufs rb (wbuf b)) (stdineof l) (rset l), Some Break)
      else if negb (crlf o =? 0) then
        '(ntowrite, wb) ← crlf_add (wbuf b) (writelen o) rb nread;
        n ← dowrite o sockfd wb ntowrite;
        if negb (n =? ntowrite) then err_sys (str "write error") else Ret (Loop (Bufs rb wb) (stdineof l) (rset l), None)
      else
        n ← dowrite o sockfd rb nread;
        if negb (n =? nread) then err_sys (str "write error") else Ret (Loop (Bufs rb (wbuf b)) (stdineof l) (rset l), None)
  end.

(** One receive with [flags] and the write to standard output. *)
Definition receive (fuel : nat) (o : opts) (sockfd flags : Z) (b : bufs) : prog (bufs * next) :=
  r ← call (Erecvfrom sockfd (readlen o) flags);
  match r with
  | Err _ => err_sys (str "recv error")
  | Ok (bs, _) =>
      rb ← mem (memcpy (rbuf b) 0 bs);
      let nread := Z.of_nat (length bs) in
      if nread =? 0 then _ ← if_verbose o (str "connection closed by peer"); Ret (Bufs rb (wbuf b), Break)
      else if negb (crlf o =? 0) then
        '(ntowrite, wb) ← crlf_strip (wbuf b) (writelen o) rb nread;
        n ← writen fuel 1 wb ntowrite;
        if negb (n =? ntowrite) then err_sys (str "writen error to stdout") else Ret (Bufs rb wb, Continue)
      else
        n ← writen fuel 1 rb nread;
        if negb (n =? nread) then err_sys (str "writen error to stdout") else Ret (Bufs rb (wbuf b), Continue)
  end.

(** From flags = msgpeek: at most twice. *)
Definition from_socket (fuel : nat) (o : opts) (sockfd : Z) (b : bufs) : prog (bufs * next) :=
  '(b1, nx) ← receive fuel o sockfd (msgpeek o) b;
  match nx with
  | Break => Ret (b1, Break)
  | Continue => if negb (msgpeek o =? 0) then receive fuel o sockfd 0 b1 else Ret (b1, Continue)
  end.

(** The body of for ( ; ; ). *)
Definition loop_turn (fuel : nat) (o : opts) (sockfd : Z) (l : loop) : prog (loop * next) :=
  r0 ← (if stdineof l =? 0 then mem (FD_SET 0 (rset l)) else Ret (rset l));
  r1 ← mem (FD_SET sockfd r0);
  s ← call (Eselect (sockfd + 1) r1 ∅ ∅ None);
  match s with
  | Err _ => err_sys (str "select error")
  | Ok (_, (rs, _, _)) =>
      in0 ← mem (FD_ISSET 0 rs);
      '(l1, skip) ← (let l0 := Loop (l_bufs l) (stdineof l) rs in
                     if (in0 : bool) then from_stdin o sockfd l0 else Ret (l0, None));
      match skip with
      | Some nx => Ret (l1, nx)
      | None =>
          inS ← mem (FD_ISSET sockfd (rset l1));
          if (inS : bool) then '(b2, nx) ← from_socket fuel o sockfd (l_bufs l1); Ret (Loop b2 (stdineof l1) (rset l1), nx)
          else Ret (l1, Continue)
      end
  end.

(** The loop, for at most [turns] turns: whether it was left. *)
Fixpoint loop_turns (fuel turns : nat) (o : opts) (sockfd : Z) (l : loop) : prog (loop * next) :=
  match turns with
  | O => Ret (l, Continue)
  | S t =>
      '(l1, nx) ← loop_turn fuel o sockfd l;
      match nx with Break => Ret (l1, Break) | Continue => loop_turns fuel t o sockfd l1 end
  end.

(** [None]: still in the loop. *)
Definition loop_tcp (fuel turns : nat) (o : opts) (sockfd : Z) (b : bufs) : prog (option loop) :=
  _ ← pause fuel (pauseinit o);
  '(l, nx) ← loop_turns fuel turns o sockfd (Loop b 0 ∅);
  match nx with
  | Break => _ ← finish fuel o sockfd; Ret (Some l)
  | Continue => Ret None
  end.

(** ** sourcetcp.c *)
Definition send_urgent (o : opts) (sockfd i : Z) : prog unit :=
  if urgwrite o =? i then
    r ← call (Esendto sockfd [u8 (urgwrite o)] MSG_OOB None 0);
    let n := match r with Ok n => n | Err _ => -1 end in
    if negb (n =? 1)
    then err_sys (str "send of MSG_OOB returned " ++ fmt_d n ++ str ", expected " ++ fmt_d (writelen o))
    else if_verbose o (str "wrote " ++ fmt_d n ++ str " byte of urgent data")
  else Ret tt.

(** The write of one buffer. *)
Definition send_buffer (o : opts) (sockfd : Z) (wb : list Z) : prog unit :=
  bs ← mem (asub wb 0 (writelen o));
  n ← sys_write sockfd bs;
  let msg := str "write returned " ++ fmt_d n ++ str ", expected " ++ fmt_d (writelen o) in
  if negb (n =? writelen o) then
    if negb (ignorewerr o =? 0) then
      _ ← err_ret msg;
      r ← call (Egetsockopt sockfd SOL_SOCKET SO_ERROR);
      match r with Ok _ => Ret tt | Err _ => err_sys (str "SO_ERROR getsockopt error") end
    else err_sys msg
  else if_verbose o (str "wrote " ++ fmt_d n ++ str " bytes").

(** for (i = 1; i <= nbuf; i++), with [k] rounds left *)
Fixpoint source_loop (fuel k : nat) (i : Z) (o : opts) (sockfd : Z) (wb : list Z) : prog unit :=
  match k with
  | O => Ret tt
  | S k' =>
      _ ← send_urgent o sockfd i;
      _ ← send_buffer o sockfd wb;
      _ ← pause fuel (pauserw o);
      source_loop fuel k' (i + 1) o sockfd wb
  end.

Definition source_tcp (fuel : nat) (o : opts) (sockfd : Z) (b : bufs) : prog unit :=
  wb ← mem (pattern (wbuf b) (writelen o));
  _ ← pause fuel (pauseinit o);
  _ ← source_loop fuel (Z.to_nat (nbuf o)) 1 o sockfd wb;
  finish fuel o sockfd.

(** ** sinktcp.c *)

(** From the label oncemore; [fuel] rounds. *)
Fixpoint sink_loop (fuel : nat) (o : opts) (sockfd flags : Z) (rb : list Z) : prog unit :=
  match fuel with
  | O => Halt Spin
  | S f =>
      r ← call (Erecvfrom sockfd (readlen o) flags);
      match r with
      | Err _ => err_sys (str "recv error")
      | Ok (bs, _) =>
          rb1 ← mem (memcpy rb 0 bs);
          let n := Z.of_nat (length bs) in
          if n =? 0 then if_verbose o (str "connection closed by peer")
          else
            _ ← if_verbose o (str "received " ++ fmt_d n ++ str " bytes" ++ (if flags =? MSG_PEEK then str " (MSG_PEEK)" else []));
            _ ← pause f (pauserw o);
            sink_loop f o sockfd (if negb (flags =? 0) then 0 else msgpeek o) rb1
      end
  end.

Definition sink_tcp (fuel : nat) (o : opts) (sockfd : Z) (b : bufs) : prog unit :=
  _ ← pause fuel (pauseinit o);
  _ ← sink_loop fuel o sockfd (msgpeek o) (rbuf b);
  finish fuel o sockfd.

(** ** buffers.c: the sizes of the socket's buffers; the blocks are rbuf and wbuf *)
Definition set_size (o : opts) (sockfd optname len : Z) (lname oname : list Z) : prog unit :=
  if len =? 0 then Ret tt
  else
    r ← call (Esetsockopt sockfd SOL_SOCKET optname (OInt len));
    match r with
    | Err _ => err_sys (oname ++ str " setsockopt error")
    | Ok _ =>
        v ← call (Egetsockopt sockfd SOL_SOCKET optname);
        match v with
        | Err _ => err_sys (oname ++ str " getsockopt error")
        | Ok (OInt n) =>
            if negb (n =? len) then err_quit (lname ++ str " = " ++ fmt_d len ++ str ", " ++ oname ++ str " = " ++ fmt_d n)
            else if_verbose o (oname ++ str " = " ++ fmt_d n)
        | Ok _ => fault
        end
    end.
Definition malloc_if (p : option Z) (size : Z) (what : list Z) : prog Z :=
  match p with
  | Some a => Ret a
  | None =>
      r ← call (Emalloc size);
      match r with Ok a => Ret a | Err _ => err_sys (str "malloc error for " ++ what ++ str " buffer") end
  end.
Definition buffers (o : opts) (sockfd : Z) (rb wb : option Z) : prog (Z * Z) :=
  r ← malloc_if rb (readlen o) (str "read");
  w ← malloc_if wb (writelen o) (str "write");
  _ ← set_size o sockfd SO_RCVBUF (rcvbuflen o) (str "rcvbuflen") (str "SO_RCVBUF");
  _ ← set_size o sockfd SO_SNDBUF (sndbuflen o) (str "sndbuflen") (str "SO_SNDBUF");
  Ret (r, w).
End SockProg.
