(* ===== verification/SockProgProofs.v ===== *)
(** * The sock program relays what it reads

    The conversion of line ends is a pair of functions on byte sequences that
    undo each other and stay within their arrays; pattern writes the printing
    characters in a cycle; a write in chunks writes the bytes of one write; and
    the loop of looptcp.c has at every turn sent what it took from standard
    input and written what it received. *)
From stdpp Require Import base list numbers strings sets gmap.
From S2P Require Import Prelude InetAddr Sys Error StreamIO Connect Server Nonblock StreamProofs Bytes Hoare SockProg.

Module SockProgProofs.
Import SockProg.

(** ** Line ends *)
Fixpoint to_crlf (bs : list Z) : list Z :=
  match bs with
  | [] => []
  | c :: r => if c =? 10 then 13 :: 10 :: to_crlf r else c :: to_crlf r
  end.
Definition no_cr (bs : list Z) : list Z := filter (fun c => c <> 13) bs.

(** The checks of the size: a conversion needs a byte to spare. *)
Definition add_fits (size n : Z) (bs : list Z) : bool := bool_decide (n < size \/ to_crlf bs = bs).
Definition strip_fits (size n : Z) (bs : list Z) : bool := bool_decide (n < size \/ no_cr bs = []).

Lemma to_crlf_app a b : to_crlf (a ++ b) = to_crlf a ++ to_crlf b.
Proof. induction a as [|c a IH]; cbn; [done|]. by destruct (c =? 10); rewrite IH. Qed.
Lemma to_crlf_length bs : (length bs <= length (to_crlf bs) <= 2 * length bs)%nat.
Proof. induction bs as [|c r IH]; cbn; [lia|]. destruct (c =? 10); cbn; lia. Qed.
Lemma no_cr_app a b : no_cr (a ++ b) = no_cr a ++ no_cr b.
Proof. apply filter_app. Qed.
Lemma no_cr_length bs : (length (no_cr bs) <= length bs)%nat.
Proof. apply length_filter. Qed.
Lemma no_cr_cons c r : no_cr (c :: r) = if c =? 13 then no_cr r else c :: no_cr r.
Proof. unfold no_cr. rewrite filter_cons. by destruct (Z.eqb_spec c 13), (decide (c <> 13)). Qed.
Lemma no_cr_to_crlf bs : 13 ∉ bs -> no_cr (to_crlf bs) = bs.
Proof.
  induction bs as [|c r IH]; intros H; [done|]. apply not_elem_of_cons in H as [Hc Hr]. cbn [to_crlf].
  destruct (Z.eqb_spec c 10) as [->|]; rewrite !no_cr_cons, ?IH by done; [done|]. by destruct (Z.eqb_spec c 13).
Qed.

(** An array that has been written up to [d]. *)
Lemma awrite_at {A} (a r : list A) c : r <> [] -> awrite (a ++ r) (Z.of_nat (length a)) c = Some ((a ++ [c]) ++ drop 1 r).
Proof. intros Hr. destruct r as [|x r]; [done|]. rewrite (awrite_app a x c r) by done. by rewrite <- app_assoc. Qed.

Lemma drop_step {A} (l : list A) x r i : drop i l = x :: r -> l !! i = Some x /\ drop (S i) l = r.
Proof.
  intros E. split; [by rewrite <- (Nat.add_0_r i), <- lookup_drop, E|].
  replace (S i) with (i + 1)%nat by lia. by rewrite <- drop_drop, E.
Qed.

(** [add_loop] from [s] bytes read, [a] written and [rest] of the array free. *)
Lemma add_loop_spec bs : forall s (a rest src : list Z) size lenout,
  take (length bs) (drop s src) = bs ->
  size = Z.of_nat (length a + length rest) -> lenout = Z.of_nat (length a + length bs) -> lenout <= size ->
  add_loop (length bs) (a ++ rest) size (Z.of_nat (length a)) src (Z.of_nat s) lenout =
  let n := Z.of_nat (length a + length (to_crlf bs)) in
  if add_fits size n bs then Ret (n, a ++ to_crlf bs ++ drop (length (to_crlf bs)) rest) else too_small "crlf_add".
Proof.
  unfold add_fits. induction bs as [|c r IH]; intros s a rest src size lenout Hs -> -> Hl.
  { cbn. rewrite bool_decide_eq_true_2 by (by right). done. }
  cbn [length] in Hs, Hl. destruct (drop s src) as [|x l] eqn:Ed; [done|]. cbn in Hs. injection Hs as -> Hr.
  apply drop_step in Ed as [Hx <-]. cbn [length add_loop]. rewrite (aread_nat src s c Hx). cbn [mem mbind prog_bind bind to_crlf].
  pose proof (to_crlf_length r) as Hlen. assert (length rest > 0)%nat as Hrest by lia.
  replace (Z.of_nat s + 1) with (Z.of_nat (S s)) by lia.
  destruct (Z.eqb_spec c 10) as [->|Hc].
  - destruct (Z.leb_spec (Z.of_nat (length a + length rest)) (Z.of_nat (length a + S (length r)) + 1)) as [Hsm|Hsm].
    { rewrite bool_decide_eq_false_2; [done|]. cbn [length]. intros [?|E]; [lia|]. done. }
    rewrite awrite_at by (intros ->; cbn in Hrest; lia). cbn [mem mbind prog_bind bind].
    replace (Z.of_nat (length a) + 1) with (Z.of_nat (length (a ++ [13]))) by (rewrite length_app; cbn; lia).
    assert (drop 1 rest <> []) as Hne by (intros E; apply (f_equal length) in E; rewrite length_drop in E; cbn in *; lia).
    rewrite awrite_at by done. cbn [mem mbind prog_bind bind].
    rewrite drop_drop. replace (Z.of_nat (length a) + 2) with (Z.of_nat (length ((a ++ [13]) ++ [10]))) by (rewrite !length_app; cbn; lia).
    rewrite IH by (rewrite ?length_app, ?length_drop; cbn; done || lia). rewrite !length_app, <- !app_assoc, drop_drop. cbn [length app].
    replace (length a + S (S (length (to_crlf r))))%nat with (length a + 1 + 1 + length (to_crlf r))%nat by lia.
    match goal with |- (if ?x then _ else _) = (if ?y then _ else _) => assert (x = y) as -> end; [|done].
    apply bool_decide_ext. split; [|intros [H|H]; [by left|done]]. intros [H|H]; [by left|]. left. rewrite H. lia.
  - rewrite awrite_at by (intros ->; cbn in Hrest; lia). cbn [mem mbind prog_bind bind].
    replace (Z.of_nat (length a) + 1) with (Z.of_nat (length (a ++ [c]))) by (rewrite length_app; cbn; lia).
    rewrite IH by (rewrite ?length_app, ?length_drop; cbn; done || lia). rewrite !length_app, <- !app_assoc, drop_drop. cbn [length app].
    replace (length a + S (length (to_crlf r)))%nat with (length a + 1 + length (to_crlf r))%nat by lia.
    match goal with |- (if ?x then _ else _) = (if ?y then _ else _) => assert (x = y) as -> end; [|done].
    apply bool_decide_ext. split; (intros [H|H]; [by left|right]); congruence.
Qed.

(** crlf_add: the converted bytes and their number, or the end of the process. *)
Lemma crlf_add_spec dst src n bs :
  asub src 0 n = Some bs ->
  crlf_add dst (Z.of_nat (length dst)) src n =
  let m := Z.of_nat (length (to_crlf bs)) in
  if (n <=? Z.of_nat (length dst)) && add_fits (Z.of_nat (length dst)) m bs
  then Ret (m, to_crlf bs ++ drop (length (to_crlf bs)) dst) else too_small "crlf_add".
Proof.
  intros Hbs. pose proof (asub_length _ _ _ _ Hbs) as Hlen. unfold asub in Hbs. destruct (_ && _) eqn:Eb; [|done].
  injection Hbs as Hbs. unfold crlf_add. destruct (Z.ltb_spec (Z.of_nat (length dst)) n), (Z.leb_spec n (Z.of_nat (length dst))); try lia; [done|].
  assert (0 <= n) as Hn by lia. replace (Z.to_nat n) with (length bs) in * by lia.
  apply (add_loop_spec bs 0 [] dst src); [done|done|cbn; lia|cbn; lia].
Qed.

Lemma strip_loop_spec bs : forall s (a rest src : list Z) size,
  take (length bs) (drop s src) = bs -> size = Z.of_nat (length a + length rest) ->
  strip_loop (length bs) (a ++ rest) size (Z.of_nat (length a)) src (Z.of_nat s) (Z.of_nat (length a)) =
  let n := Z.of_nat (length a + length (no_cr bs)) in
  if strip_fits size n bs then Ret (n, a ++ no_cr bs ++ drop (length (no_cr bs)) rest) else too_small "crlf_strip".
Proof.
  unfold strip_fits. induction bs as [|c r IH]; intros s a rest src size Hs ->.
  { cbn. rewrite bool_decide_eq_true_2 by (by right). by rewrite Nat.add_0_r. }
  cbn [length] in Hs. destruct (drop s src) as [|x l] eqn:Ed; [done|]. cbn in Hs. injection Hs as -> Hr.
  apply drop_step in Ed as [Hx <-]. cbn [length strip_loop]. rewrite (aread_nat src s c Hx). cbn [mem mbind prog_bind bind].
  replace (Z.of_nat s + 1) with (Z.of_nat (S s)) by lia. rewrite no_cr_cons.
  destruct (Z.eqb_spec c 13) as [->|Hc]; cbn [negb]; [by apply IH|].
  destruct (Z.leb_spec (Z.of_nat (length a + length rest)) (Z.of_nat (length a) + 1)) as [Hsm|Hsm].
  { rewrite bool_decide_eq_false_2; [done|]. cbn [length]. intros [?|E]; [lia|]. done. }
  rewrite awrite_at by (intros ->; cbn in Hsm; lia). cbn [mem mbind prog_bind bind].
  replace (Z.of_nat (length a) + 1) with (Z.of_nat (length (a ++ [c]))) by (rewrite length_app; cbn; lia).
  rewrite IH by (rewrite ?length_app, ?length_drop; cbn; done || lia). rewrite !length_app, <- !app_assoc, drop_drop. cbn [length app].
  replace (length a + S (length (no_cr r)))%nat with (length a + 1 + length (no_cr r))%nat by lia.
  match goal with |- (if ?x then _ else _) = (if ?y then _ else _) => assert (x = y) as -> end; [|done].
  apply bool_decide_ext. split; (intros [H|H]; [by left|]); [|done]. left. rewrite H. cbn. lia.
Qed.

Lemma crlf_strip_spec dst src n bs :
  asub src 0 n = Some bs ->
  crlf_strip dst (Z.of_nat (length dst)) src n =
  let m := Z.of_nat (length (no_cr bs)) in
  if strip_fits (Z.of_nat (length dst)) m bs
  then Ret (m, no_cr bs ++ drop (length (no_cr bs)) dst) else too_small "crlf_strip".
Proof.
  intros Hbs. pose proof (asub_length _ _ _ _ Hbs) as Hlen. unfold asub in Hbs. destruct (_ && _) eqn:Eb; [|done].
  injection Hbs as Hbs. unfold crlf_strip.
  assert (0 <= n) as Hn by lia. replace (Z.to_nat n) with (length bs) in * by lia.
  by apply (strip_loop_spec bs 0 [] dst src).
Qed.

Lemma asub_front {A} (m r : list A) : asub (m ++ r) 0 (Z.of_nat (length m)) = Some m.
Proof. by apply (asub_app [] m r). Qed.

(** crlf_strip undoes crlf_add: text without carriage returns, sent through crlf_add into an array with room
    for every line end and a byte to spare and back through crlf_strip, comes back byte for byte with its length,
    and neither function leaves its arrays or ends the process. *)
Theorem crlf_roundtrip (dst back src bs : list Z) (n : Z) :
  asub src 0 n = Some bs -> 13 ∉ bs ->
  Z.of_nat (length (to_crlf bs)) < Z.of_nat (length dst) -> n < Z.of_nat (length back) ->
  ('(m, wire) ← crlf_add dst (Z.of_nat (length dst)) src n;
   crlf_strip back (Z.of_nat (length back)) wire m) = Ret (n, bs ++ drop (length bs) back).
Proof.
  intros Hbs Hcr Hd Hb. pose proof (asub_length _ _ _ _ Hbs) as Hn. pose proof (to_crlf_length bs) as Hl.
  rewrite (crlf_add_spec dst src n bs Hbs). cbn zeta.
  destruct (Z.leb_spec n (Z.of_nat (length dst))); [|lia]. unfold add_fits. rewrite bool_decide_eq_true_2 by (by left). cbn [andb mbind prog_bind bind].
  rewrite (crlf_strip_spec back _ _ (to_crlf bs) (asub_front _ _)). cbn zeta. rewrite no_cr_to_crlf by done.
  unfold strip_fits. rewrite bool_decide_eq_true_2 by (left; lia). by replace n with (Z.of_nat (length bs)) by lia.
Qed.
Lemma crlf_roundtrip_witness :
  ('(m, wire) ← crlf_add (replicate 6 0) 6 [104; 10; 105; 7] 3; crlf_strip (replicate 4 0) 4 wire m) = Ret (3, [104; 10; 105; 0]).
Proof. apply (crlf_roundtrip (replicate 6 0) (replicate 4 0) [104; 10; 105; 7] [104; 10; 105] 3); [reflexivity|set_solver by lia|cbn; lia|cbn; lia]. Defined.

(** ** The pattern *)
Definition printing (i : nat) : Z := 32 + Z.of_nat i mod 95.

(** From a character that prints, the next one found is the next of the cycle. *)
Definition steps_to (c j : Z) : bool :=
  match skip_nonprinting 128 c with Some c1 => (0 <=? c1) && (c1 <? 256) && (Z.land c1 0x7f =? 32 + j) | None => false end.
Lemma steps_all : forallb (fun n => let c := Z.of_nat n in let l := Z.land c 0x7f in
  negb (isprint l) || steps_to (u8 (c + 1)) ((l - 32 + 1) mod 95)) (seq 0 256) = true.
Proof. by vm_compute. Qed.

Lemma steps_next c i : 0 <= c < 256 -> Z.land c 0x7f = printing i -> steps_to (u8 (c + 1)) (Z.of_nat (S i) mod 95) = true.
Proof.
  intros Hc Hl. unfold printing in Hl. pose proof steps_all as H. rewrite forallb_forall in H.
  specialize (H (Z.to_nat c)). cbv zeta in H. rewrite Z2Nat.id, Hl in H by lia.
  assert (0 <= Z.of_nat i mod 95 < 95) as Hm by (apply Z.mod_pos_bound; lia).
  assert (isprint (32 + Z.of_nat i mod 95) = true) as Hp by (unfold isprint; zbool). rewrite Hp in H. cbn [negb orb] in H.
  replace (32 + Z.of_nat i mod 95 - 32 + 1) with (Z.of_nat i mod 95 + 1) in H by lia.
  rewrite Zplus_mod_idemp_l in H. replace (Z.of_nat (S i)) with (Z.of_nat i + 1) by lia. apply H, in_seq. lia.
Qed.

Lemma pattern_loop_spec n : forall (a rest : list Z) c,
  (n <= length rest)%nat -> steps_to c (Z.of_nat (length a) mod 95) = true ->
  pattern_loop n (a ++ rest) (Z.of_nat (length a)) c = Some (a ++ map printing (seq (length a) n) ++ drop n rest).
Proof.
  induction n as [|n IH]; intros a rest c Hn Hc; [done|].
  cbn [pattern_loop]. unfold steps_to in Hc. destruct (skip_nonprinting 128 c) as [c1|]; [|done]. cbn [mbind option_bind].
  assert (0 <= c1 < 256 /\ Z.land c1 0x7f = printing (length a)) as [Hr Hl] by (unfold printing; zbool).
  rewrite awrite_at by (intros ->; cbn in Hn; lia). cbn [mbind option_bind].
  pose proof (steps_next c1 (length a) Hr Hl) as Hs.
  replace (Z.of_nat (length a) + 1) with (Z.of_nat (length (a ++ [Z.land c1 127]))) by (rewrite length_app; cbn; lia).
  rewrite IH; [| |]; rewrite ?length_app, ?length_drop; cbn [length]; [|lia|].
  - rewrite <- app_assoc, drop_drop, Nat.add_1_r. cbn [seq map app]. by rewrite Hl.
  - by rewrite Nat.add_1_r.
Qed.

(** pattern fills a buffer with the 95 printing characters in turn, from the space to the tilde and round again,
    whatever its length, leaves the rest of the buffer alone and never writes outside it. *)
Theorem pattern_cycles (buf : list Z) (len : Z) :
  len <= Z.of_nat (length buf) ->
  pattern buf len = Some (map printing (seq 0 (Z.to_nat len)) ++ drop (Z.to_nat len) buf).
Proof. intros H. apply (pattern_loop_spec (Z.to_nat len) [] buf 0); [lia|by vm_compute]. Qed.
Lemma pattern_cycles_witness :
  pattern (replicate 100 0) 98 = Some (map printing (seq 0 98) ++ [0; 0]).
Proof. apply (pattern_cycles (replicate 100 0) 98). vm_compute. discriminate. Defined.

(** ** Writes in chunks *)
Lemma asub_head (v bs : list Z) off n m : asub v off n = Some bs -> 0 <= m <= n -> asub v off m = Some (take (Z.to_nat m) bs).
Proof.
  unfold asub. intros H Hm. destruct (_ && _) eqn:E in H; [|done]. injection H as <-. rewrite take_take, Nat.min_l by lia. zbool.
Qed.
Lemma asub_nonneg (v bs : list Z) off n : asub v off n = Some bs -> 0 <= n.
Proof. intros H%asub_length. lia. Qed.

Lemma chunks_spec k : forall (v : list Z) ptr nleft size bs,
  asub v ptr nleft = Some bs -> 0 < size -> 0 < Z.of_nat k -> nleft <= Z.of_nat k * size ->
  exists iov, chunks k v ptr nleft size = Some (Some iov) /\ concat iov = bs /\ (length iov <= k)%nat.
Proof.
  induction k as [|k IH]; intros v ptr nleft size bs Hbs Hs Hk Hle; [lia|]. cbn [chunks].
  pose proof (asub_length _ _ _ _ Hbs) as Hlen.
  set (n := if size <=? nleft then size else nleft). assert (0 <= n <= nleft) as Hn by (subst n; destruct (Z.leb_spec size nleft); lia).
  rewrite (asub_head v bs ptr nleft n Hbs Hn). cbn [mbind option_bind].
  pose proof (asub_drop v bs ptr nleft n Hbs Hn) as Er.
  destruct (Z.eqb_spec (nleft - n) 0) as [Hz|Hz].
  - eexists. split; [done|]. cbn. split; [rewrite app_nil_r; apply take_ge; lia|lia].
  - assert (n = size) as En by (subst n; zbool; lia).
    destruct (IH v (ptr + n) (nleft - n) size (drop (Z.to_nat n) bs) Er Hs) as (iov & Ei & Ec2 & Hl2); [|nia|].
    { destruct k; [nia|lia]. }
    rewrite Ei. cbn [mbind option_bind]. eexists. split; [done|]. cbn [concat length]. rewrite Ec2, take_drop. split; [done|lia].
Qed.

Lemma chunk_size_covers n : 0 < chunk_size n /\ n <= 16 * chunk_size n.
Proof.
  unfold chunk_size, UIO_MAXIOV. pose proof (Z.div_mod n 16 ltac:(lia)). pose proof (Z.mod_pos_bound n 16 ltac:(lia)).
  destruct (Z.leb_spec (n / 16) 0); [lia|]. destruct (Z.eqb_spec (n mod 16) 0); cbn; lia.
Qed.

(** ** The relay *)

(** The calls that move no data. *)
Definition still {X} (e : sysE X) : bool :=
  match e with
  | Eselect _ _ _ _ _ | Eshutdown _ _ | Eclose _ | Efputs _ _ | Efflush _ => true
  | _ => false
  end.

(** A system with standard input, standard output and a connected socket: the bytes taken
    from standard input, sent on the socket, received from it and written to standard
    output. [naps]: how many more sleeps can be interrupted. *)
Class RelayKernel (K : Type) `{!Kernel K} (sockfd : Z) := {
  taken : K -> list Z; sent : K -> list Z; got : K -> list Z; shown : K -> list Z;
  naps : K -> nat;
  (** some call on the socket or on standard input can fail *)
  may_fail : Prop;
  moved (k k' : K) (t s r w : list Z) : Prop :=
    taken k' = taken k ++ t /\ sent k' = sent k ++ s /\ got k' = got k ++ r /\ shown k' = shown k ++ w /\ (naps k' <= naps k)%nat;
  rk_still : forall X (e : sysE X) k, still e = true -> moved k (kcall e k).2 [] [] [] [];
  rk_lib : forall X (e : libE X) k, moved k (klib e k).2 [] [] [] [];
  rk_strerror : forall n k, Z.of_nat (length (klib (Estrerror n) k).1) < 1024;
  rk_fatal : forall X (e : sysE X) k n k', kcall e k = (Err n, k') ->
    match e with Eshutdown _ _ | Eclose _ | Eselect _ _ _ _ None => may_fail | _ => True end;
  rk_sleep : forall tv k,
    match kcall (Eselect 0 ∅ ∅ ∅ (Some tv)) k with
    | (Ok (n, _), _) => n = 0
    | (Err e, k') => e = EINTR /\ (naps k' < naps k)%nat
    end;
  rk_read : forall n k, 0 < n ->
    match kcall (Eread 0 n) k with (Ok bs, k') => Z.of_nat (length bs) <= n /\ moved k k' bs [] [] [] | _ => may_fail end;
  rk_recv : forall n k, 0 < n ->
    match kcall (Erecvfrom sockfd n 0) k with (Ok (bs, _), k') => Z.of_nat (length bs) <= n /\ moved k k' [] [] bs [] | _ => may_fail end;
  rk_send : forall bs k,
    match kcall (Ewrite sockfd bs) k with
    | (Ok n, k') => 0 <= n <= Z.of_nat (length bs) /\ moved k k' [] (take (Z.to_nat n) bs) [] [] /\ (n < Z.of_nat (length bs) -> may_fail)
    | _ => may_fail
    end;
  (** standard output takes some bytes of every write and does not fail *)
  rk_show : forall bs k, bs <> [] -> exists n k',
    kcall (Ewrite 1 bs) k = (Ok n, k') /\ 0 < n <= Z.of_nat (length bs) /\ moved k k' [] [] [] (take (Z.to_nat n) bs) }.

Section Relay.
Context {K : Type} `{HK : !Kernel K} {sockfd : Z} `{HR : !RelayKernel K sockfd} (o : opts).
Implicit Types (k : K) (g : globals).
Hypothesis Hsock : 1 < sockfd < FD_SETSIZE.
Hypothesis Hlens : 0 < readlen o < 2 ^ 31.

(** What is sent for what was taken, and written for what was received. *)
Definition enc (bs : list Z) : list Z := if crlf o =? 0 then bs else to_crlf bs.
Definition dec (bs : list Z) : list Z := if crlf o =? 0 then bs else no_cr bs.

(** Why the process may end early, at least when a call fails. *)
Variable excused : Prop.
Hypothesis Hfail : may_fail -> excused.
Abbreviation W := (wp (fun h => h = Exit 1 /\ excused)).

Lemma moved_nil k : moved k k [] [] [] [].
Proof. unfold moved. rewrite !app_nil_r. auto. Qed.
Lemma moved_trans k1 k2 k3 t s r w t' s' r' w' :
  moved k1 k2 t s r w -> moved k2 k3 t' s' r' w' -> moved k1 k3 (t ++ t') (s ++ s') (r ++ r') (w ++ w').
Proof.
  intros (A1 & A2 & A3 & A4 & A5) (B1 & B2 & B3 & B4 & B5). unfold moved. rewrite !app_assoc.
  split_and!; [congruence..|lia].
Qed.
Lemma moved_still {X} (e : sysE X) k r k' : kcall e k = (r, k') -> still e = true -> moved k k' [] [] [] [].
Proof. intros E Hq. pose proof (rk_still X e k Hq) as H. by rewrite E in H. Qed.
Lemma moved_lib {X} (e : libE X) k r k' : klib e k = (r, k') -> moved k k' [] [] [] [].
Proof. intros E. pose proof (rk_lib X e k) as H. by rewrite E in H. Qed.

Lemma strcat_ok cap (s t : list Z) : Z.of_nat (length s) + Z.of_nat (length t) < cap -> strcat cap s t = Some (s ++ t).
Proof. intros. unfold strcat. zbool. Qed.

(** The messages of the program are short, so the arrays of error.c hold them. *)
Lemma wp_err_doit flag msg (Q : unit -> globals -> K -> Prop) g k :
  Z.of_nat (length msg) < 1024 -> (forall g' k', moved k k' [] [] [] [] -> Q tt g' k') -> W (err_doit flag msg) Q g k.
Proof.
  intros Hm HQ. unfold err_doit. wp_step. apply wp_bind. eapply wp_mem; [apply strcat_ok; cbn; unfold MAXLINE; lia|]. cbn [app].
  assert (W (if flag =? 0 then Ret msg else es ← lib (Estrerror (errno g)); mem (strcat MAXLINE msg (str ": " ++ es)))
     (fun s g' k' => Z.of_nat (length s) < 2060 /\ moved k k' [] [] [] []) g k) as Hb.
  { destruct (flag =? 0); [wp_step; split; [lia|apply moved_nil]|].
    wp_step. pose proof (rk_strerror (errno g) k) as Hs. rewrite H in Hs. cbn in Hs.
    eapply wp_mem; [apply strcat_ok; rewrite length_app; cbn; unfold MAXLINE; lia|].
    split; [rewrite !length_app; cbn; lia|by eapply moved_lib]. }
  eapply wp_seq; [exact Hb|]. clear Hb. intros s g1 k1 [Hs H1]. apply wp_bind.
  eapply wp_mem; [apply strcat_ok; cbn; unfold MAXLINE; lia|]. do 3 wp_step. apply HQ.
  eapply (moved_trans k k1 _ [] [] [] []); [done|]. eapply (moved_trans _ _ _ [] [] [] []); [by eapply moved_still|].
  eapply (moved_trans _ _ _ [] [] [] []); by eapply moved_still.
Qed.

Definition short (msg : list Z) : Prop := Z.of_nat (length msg) < 1024.
Lemma wp_err_exit {A} flag msg (Q : A -> globals -> K -> Prop) g k :
  short msg -> excused -> W (_ ← err_doit flag msg; Halt (Exit 1)) Q g k.
Proof. intros Hm HE. apply wp_bind, wp_err_doit; [done|]. intros. by apply wp_halt. Qed.
Lemma wp_sys {A} msg (Q : A -> globals -> K -> Prop) g k : short msg -> excused -> W (err_sys msg) Q g k.
Proof. apply wp_err_exit. Qed.
Lemma wp_quit {A} msg (Q : A -> globals -> K -> Prop) g k : short msg -> excused -> W (err_quit msg) Q g k.
Proof. apply wp_err_exit. Qed.

(** ** The writes *)
Lemma wp_sys_write bs (Q : Z -> globals -> K -> Prop) g k :
  (forall k', moved k k' [] bs [] [] -> Q (Z.of_nat (length bs)) g k') ->
  (forall n g' k', n <> Z.of_nat (length bs) -> may_fail -> Q n g' k') -> W (sys_write sockfd bs) Q g k.
Proof.
  intros HQ HF. unfold sys_write. pose proof (rk_send bs k) as H. wp_step; rewrite H0 in H; wp_step.
  - destruct H as (Hn & HM & Hs). destruct (Z.eq_dec v (Z.of_nat (length bs))) as [->|Hne].
    + apply HQ. by rewrite Nat2Z.id, take_ge in HM by lia.
    + apply HF; [done|]. apply Hs. lia.
  - apply HF; [lia|done].
Qed.

Lemma wp_write_chunks iov : forall total (Q : Z -> globals -> K -> Prop) g k,
  0 <= total ->
  (forall k', moved k k' [] (concat iov) [] [] -> Q (total + Z.of_nat (length (concat iov))) g k') ->
  (forall g' k', may_fail -> Q (-1) g' k') -> W (write_chunks sockfd iov total) Q g k.
Proof.
  induction iov as [|c iov IH]; intros total Q g k Ht HQ HF; cbn [write_chunks].
  { wp_step. specialize (HQ k). rewrite Z.add_0_r in HQ. apply HQ, moved_nil. }
  pose proof (rk_send c k) as H. wp_step; rewrite H0 in H; [|wp_step; by apply HF].
  destruct H as (Hn & HM & Hs). destruct (Z.eqb_spec v (Z.of_nat (length c))) as [->|Hne]; cbn [negb]; [|wp_step; apply HF, Hs; lia].
  rewrite Nat2Z.id, take_ge in HM by lia. apply IH; [lia| |done]. intros k2 H2.
  replace (total + Z.of_nat (length c) + Z.of_nat (length (concat iov))) with (total + Z.of_nat (length (concat (c :: iov)))) by (cbn; rewrite length_app; lia).
  apply HQ. by apply (moved_trans k k' k2 [] c [] []).
Qed.

(** All of the bytes are written, in whichever way was chosen; the chunks always suffice. *)
Lemma wp_dowrite v nbytes bs (Q : Z -> globals -> K -> Prop) g k :
  asub v 0 nbytes = Some bs ->
  (forall k', moved k k' [] bs [] [] -> Q nbytes g k') ->
  (forall n g' k', n <> nbytes -> may_fail -> Q n g' k') -> W (dowrite o sockfd v nbytes) Q g k.
Proof.
  intros Hbs HQ HF. pose proof (asub_length _ _ _ _ Hbs) as Hlen. unfold dowrite.
  destruct (_ && _).
  { apply wp_bind. eapply wp_mem; [done|]. apply wp_sys_write; rewrite Hlen; auto. }
  destruct (chunk_size_covers nbytes) as [Hs Hc].
  destruct (chunks_spec (Z.to_nat UIO_MAXIOV) v 0 nbytes (chunk_size nbytes) bs Hbs Hs) as (iov & Ei & Ec & _); [vm_compute; done|exact Hc|].
  apply wp_bind. eapply wp_mem; [exact Ei|]. cbv beta iota. destruct (negb _).
  - rewrite Ec. apply wp_sys_write; rewrite Hlen; auto.
  - apply wp_write_chunks; [done|rewrite Ec, Hlen; auto|]. intros. apply HF; [|done]. pose proof (asub_nonneg _ _ _ _ Hbs). lia.
Qed.

(** writen to standard output: every byte, in order. *)
Lemma wp_writen_loop fuel : forall (v bs : list Z) ptr nleft n (Q : Z -> globals -> K -> Prop) g k,
  asub v ptr nleft = Some bs -> nleft < 2 ^ 63 -> (Z.to_nat nleft <= fuel)%nat ->
  (forall k', moved k k' [] [] [] bs -> Q n g k') -> W (writen_loop fuel 1 v ptr nleft n) Q g k.
Proof.
  induction fuel as [|f IH]; intros v bs ptr nleft n Q g k Hbs Hbig Hf HQ; cbn [writen_loop];
    pose proof (asub_length _ _ _ _ Hbs) as Hlen; destruct (Z.ltb_spec 0 nleft) as [Hl|Hl]; [lia| | |].
  1, 3: wp_step; apply HQ; assert (bs = []) as -> by (destruct bs; [done|cbn in Hlen; lia]); apply moved_nil.
  apply wp_bind. eapply wp_mem; [exact Hbs|]. assert (bs <> []) as Hne by (intros ->; cbn in Hlen; lia).
  destruct (rk_show bs k Hne) as (m & k' & Em & Hm & HM). unfold sys_write.
  apply wp_bind, wp_bind, wp_call; intros ? ? E; rewrite Em in E; [|discriminate E]. injection E as <- <-.
  apply wp_ret. cbv zeta. assert (u64 m = m) as -> by (apply Z.mod_small; lia).
  destruct (Z.leb_spec m 0); [lia|]. replace (sint 64 m) with m by (unfold sint, wrap; cbv zeta; rewrite Z.mod_small by lia; change (2 ^ (64 - 1)) with (2 ^ 63); destruct (Z.ltb_spec m (2 ^ 63)); lia).
  replace (u64 (nleft - m)) with (nleft - m) by (symmetry; apply Z.mod_small; lia).
  apply (IH v (drop (Z.to_nat m) bs)); [apply asub_drop; [done|lia]|lia|lia|]. intros k2 H2. apply HQ.
  rewrite <- (take_drop (Z.to_nat m) bs). by apply (moved_trans k k' k2 [] [] [] _ [] [] []).
Qed.

Lemma wp_writen fuel (v bs : list Z) n (Q : Z -> globals -> K -> Prop) g k :
  asub v 0 n = Some bs -> n < 2 ^ 63 -> (Z.to_nat n <= fuel)%nat ->
  (forall k', moved k k' [] [] [] bs -> Q n g k') -> W (writen fuel 1 v n) Q g k.
Proof. apply wp_writen_loop. Qed.

(** ** The pauses *)
Lemma wp_sleep_us fuel n : forall (Q : unit -> globals -> K -> Prop) g k,
  (naps k < fuel)%nat -> (forall g' k', moved k k' [] [] [] [] -> Q tt g' k') -> W (sleep_us fuel n) Q g k.
Proof.
  induction fuel as [|f IH]; intros Q g k Hf HQ; [lia|]. cbn [sleep_us].
  pose proof (rk_sleep (Timeval (n / 1000000) (n mod 1000000)) k) as H.
  wp_step; rewrite H0 in H; apply moved_still in H0 as HM; [|done| |done].
  - destruct v as [m r]. subst m. cbn [Z.eqb]. wp_step. by apply HQ.
  - destruct H as [-> Hn]. wp_step. cbn [errno set_errno]. rewrite Z.eqb_refl. apply IH; [lia|]. intros g2 k2 H2. apply HQ.
    by apply (moved_trans k k' k2 [] [] [] []).
Qed.

Lemma wp_if_verbose msg (Q : unit -> globals -> K -> Prop) g k :
  (forall g' k', moved k k' [] [] [] [] -> Q tt g' k') -> W (if_verbose o msg) Q g k.
Proof.
  intros HQ. unfold if_verbose, fprintf_stderr. destruct (verbose o =? 0); wp_step; [apply HQ, moved_nil|].
  apply HQ. by eapply moved_still.
Qed.

Lemma wp_finish fuel (Q : unit -> globals -> K -> Prop) g k :
  (naps k < fuel)%nat -> (forall g' k', moved k k' [] [] [] [] -> Q tt g' k') -> W (finish fuel o sockfd) Q g k.
Proof.
  intros Hf HQ. unfold finish.
  assert (forall g1 k1, moved k k1 [] [] [] [] -> W (r ← call (Eclose sockfd); match r with Ok _ => Ret tt | Err _ => err_sys (str "close error") end) Q g1 k1) as Hrest.
  { intros g1 k1 H1. apply wp_bind, wp_call; intros v k2 E; [|apply wp_sys; [done|by apply rk_fatal, Hfail in E]].
    wp_step. apply HQ. eapply (moved_trans k k1 k2 [] [] [] []); [done|]. by eapply moved_still. }
  apply wp_bind. destruct (pauseclose o =? 0); [wp_step; apply Hrest, moved_nil|].
  apply wp_bind, wp_if_verbose. intros g1 k1 H1. apply wp_sleep_us; [pose proof H1 as (_ & _ & _ & _ & Hn); lia|].
  intros g2 k2 H2. apply Hrest. by apply (moved_trans k k1 k2 [] [] [] []).
Qed.
(** ** Source mode *)
Lemma wp_pause fuel n (Q : unit -> globals -> K -> Prop) g k :
  (naps k < fuel)%nat -> (forall g' k', moved k k' [] [] [] [] -> Q tt g' k') -> W (pause fuel n) Q g k.
Proof.
  intros Hf HQ. unfold pause. destruct (n =? 0); [wp_step; apply HQ, moved_nil|]. by apply wp_sleep_us.
Qed.

Lemma fmt_d_length n : - 10 ^ 19 < n < 10 ^ 19 -> (length (fmt_d n) <= 20)%nat.
Proof.
  intros Hn. unfold fmt_d. destruct (Z.ltb_spec n 0); cbn [length];
    [pose proof (fmt_u_length (- n) 19)|pose proof (fmt_u_length n 19)]; change (10 ^ Z.of_nat 19) with (10 ^ 19) in *; lia.
Qed.

(** One buffer, all of it or the end of the process. *)
Lemma wp_send_buffer wb bs (Q : unit -> globals -> K -> Prop) g k :
  asub wb 0 (writelen o) = Some bs -> writelen o < 2 ^ 31 -> ignorewerr o = 0 ->
  (forall g' k', moved k k' [] bs [] [] -> Q tt g' k') -> W (send_buffer o sockfd wb) Q g k.
Proof.
  intros Hbs Hw Hi HQ. pose proof (asub_length _ _ _ _ Hbs) as Hlen. unfold send_buffer. apply wp_bind. eapply wp_mem; [exact Hbs|].
  unfold sys_write. pose proof (rk_send bs k) as H. apply wp_bind, wp_bind, wp_call; intros v k' E; rewrite E in H; wp_step; cbv zeta.
  - destruct H as (Hn & HM & Hs). destruct (Z.eqb_spec v (writelen o)) as [->|Hne]; cbn [negb].
    + apply wp_if_verbose. intros g2 k2 H2. apply HQ. rewrite <- Hlen, Nat2Z.id, take_ge in HM by lia.
      rewrite <- (app_nil_r bs). by apply (moved_trans k k' k2 [] bs [] []).
    + rewrite Hi. cbn [negb Z.eqb]. apply wp_sys; [|apply Hfail, Hs; lia].
      unfold short. rewrite !length_app. pose proof (fmt_d_length v). pose proof (fmt_d_length (writelen o)). cbn [length str] in *. cbn. lia.
  - destruct (Z.eqb_spec (-1) (writelen o)) as [E1|_]; [lia|]. cbn [negb]. rewrite Hi. cbn [negb Z.eqb].
    apply wp_sys; [|by apply Hfail]. unfold short. rewrite !length_app. pose proof (fmt_d_length (writelen o)).
    change (length (fmt_d (-1))) with 2%nat. cbn. lia.
Qed.

Lemma wp_source_loop fuel wb bs n : forall i (Q : unit -> globals -> K -> Prop) g k,
  asub wb 0 (writelen o) = Some bs -> writelen o < 2 ^ 31 -> ignorewerr o = 0 -> urgwrite o < i -> (naps k < fuel)%nat ->
  (forall g' k', moved k k' [] (concat (replicate n bs)) [] [] -> Q tt g' k') -> W (source_loop fuel n i o sockfd wb) Q g k.
Proof.
  induction n as [|n IH]; intros i Q g k Hbs Hw Hi Hu Hf HQ; cbn [source_loop]; [wp_step; apply HQ, moved_nil|].
  unfold send_urgent. rewrite (proj2 (Z.eqb_neq (urgwrite o) i)) by lia. apply wp_bind, wp_ret, wp_bind, (wp_send_buffer wb bs); [done..|].
  intros g1 k1 H1. pose proof H1 as (_ & _ & _ & _ & Hn). apply wp_bind, wp_pause; [lia|]. intros g2 k2 H2. pose proof H2 as (_ & _ & _ & _ & Hn2).
  apply (IH (i + 1)); [done|done|done|lia|lia|]. intros g3 k3 H3. apply HQ. cbn [replicate concat].
  pose proof (moved_trans _ _ _ _ _ _ _ _ _ _ _ H1 (moved_trans _ _ _ _ _ _ _ _ _ _ _ H2 H3)) as H. cbn [app] in H. exact H.
Qed.

(** ** The loop *)
Hypothesis Hpeek : msgpeek o = 0.

Definition sized (b : bufs) : Prop :=
  Z.of_nat (length (rbuf b)) = readlen o /\ Z.of_nat (length (wbuf b)) = writelen o.
(** From [k] to [k'], what was taken was sent and what was received was written. *)
Definition relays (k k' : K) : Prop := exists t r, moved k k' t (enc t) r (dec r).

Lemma enc_app a b : enc (a ++ b) = enc a ++ enc b.
Proof. unfold enc. destruct (crlf o =? 0); [done|apply to_crlf_app]. Qed.
Lemma dec_app a b : dec (a ++ b) = dec a ++ dec b.
Proof. unfold dec. destruct (crlf o =? 0); [done|apply no_cr_app]. Qed.
Lemma enc_nil : enc [] = [].
Proof. unfold enc. by destruct (crlf o =? 0). Qed.
Lemma dec_nil : dec [] = [].
Proof. unfold dec. by destruct (crlf o =? 0). Qed.
Lemma relays_trans k1 k2 k3 : relays k1 k2 -> relays k2 k3 -> relays k1 k3.
Proof. intros (t & r & H1) (t' & r' & H2). exists (t ++ t'), (r ++ r'). rewrite enc_app, dec_app. by eapply moved_trans. Qed.
Lemma relays_still k k' : moved k k' [] [] [] [] -> relays k k'.
Proof. intros H. exists [], []. by rewrite enc_nil, dec_nil. Qed.
Lemma relays_in k k1 k2 t : moved k k1 t [] [] [] -> moved k1 k2 [] (enc t) [] [] -> relays k k2.
Proof. intros H1 H2. exists t, []. rewrite dec_nil. pose proof (moved_trans _ _ _ _ _ _ _ _ _ _ _ H1 H2) as H. by rewrite !app_nil_r in H. Qed.
Lemma relays_out k k1 k2 r : moved k k1 [] [] r [] -> moved k1 k2 [] [] [] (dec r) -> relays k k2.
Proof. intros H1 H2. exists [], r. rewrite enc_nil. pose proof (moved_trans _ _ _ _ _ _ _ _ _ _ _ H1 H2) as H. by rewrite !app_nil_r in H. Qed.

Hypothesis Hroom : crlf o <> 0 -> writelen o <= 2 * readlen o -> excused.

(** The conversions into wbuf of the bytes at the front of rbuf. *)
Lemma wp_crlf_add b rb bs rest (Q : Z * list Z -> globals -> K -> Prop) g k :
  sized b -> crlf o <> 0 -> rb = bs ++ rest -> Z.of_nat (length bs) <= readlen o ->
  (forall wb rest', wb = to_crlf bs ++ rest' -> length wb = length (wbuf b) -> Q (Z.of_nat (length (to_crlf bs)), wb) g k) ->
  W (crlf_add (wbuf b) (writelen o) rb (Z.of_nat (length bs))) Q g k.
Proof.
  intros [_ Hw] Hc -> Hle HQ. rewrite <- Hw, (crlf_add_spec _ _ _ bs (asub_front bs rest)). cbv zeta. pose proof (to_crlf_length bs).
  destruct (Z.leb_spec (Z.of_nat (length bs)) (Z.of_nat (length (wbuf b)))) as [Hl|Hl]; cbn [andb].
  - unfold add_fits. destruct (bool_decide_reflect (Z.of_nat (length (to_crlf bs)) < Z.of_nat (length (wbuf b)) \/ to_crlf bs = bs)) as [Hfit|Hfit].
    + wp_step. eapply HQ; [done|]. rewrite length_app, length_drop. destruct Hfit as [|E]; [lia|rewrite E; lia].
    + apply wp_quit; [done|]. apply Hroom; [done|lia].
  - apply wp_quit; [done|]. apply Hroom; [done|lia].
Qed.
Lemma wp_crlf_strip b rb bs rest (Q : Z * list Z -> globals -> K -> Prop) g k :
  sized b -> crlf o <> 0 -> rb = bs ++ rest -> Z.of_nat (length bs) <= readlen o ->
  (forall wb rest', wb = no_cr bs ++ rest' -> length wb = length (wbuf b) -> Q (Z.of_nat (length (no_cr bs)), wb) g k) ->
  W (crlf_strip (wbuf b) (writelen o) rb (Z.of_nat (length bs))) Q g k.
Proof.
  intros [_ Hw] Hc -> Hle HQ. rewrite <- Hw, (crlf_strip_spec _ _ _ bs (asub_front bs rest)). cbv zeta. pose proof (no_cr_length bs).
  unfold strip_fits. destruct (bool_decide_reflect (Z.of_nat (length (no_cr bs)) < Z.of_nat (length (wbuf b)) \/ no_cr bs = [])) as [Hfit|Hfit].
  - wp_step. eapply HQ; [done|]. rewrite length_app, length_drop. destruct Hfit as [|E]; [lia|rewrite E; cbn; lia].
  - apply wp_quit; [done|]. apply Hroom; [done|lia].
Qed.

(** What was read goes to the front of rbuf. *)
Lemma rbuf_filled b bs : sized b -> Z.of_nat (length bs) <= readlen o ->
  exists rest, memcpy (rbuf b) 0 bs = Some (bs ++ rest) /\ Z.of_nat (length (bs ++ rest)) = readlen o.
Proof.
  intros [Hr _] Hl. exists (drop (length bs) (rbuf b)). split; [rewrite memcpy_is_Some by lia; done|]. rewrite length_app, length_drop. lia.
Qed.

Lemma wp_from_stdin l (Q : loop * option next -> globals -> K -> Prop) g k :
  sized (l_bufs l) ->
  (forall l' skip g' k', sized (l_bufs l') -> relays k k' -> Q (l', skip) g' k') -> W (from_stdin o sockfd l) Q g k.
Proof.
  intros Hb HQ. unfold from_stdin. cbv zeta. pose proof (rk_read (readlen o) k (proj1 Hlens)) as H.
  wp_step; rewrite H0 in H; [|apply wp_sys; [done|by apply Hfail]]. destruct H as [Hle HM].
  destruct (rbuf_filled (l_bufs l) v Hb Hle) as (rest & Em & Hlen). apply wp_bind. eapply wp_mem; [exact Em|].
  destruct (Z.eqb_spec (Z.of_nat (length v)) 0) as [Hz|Hz].
  { assert (v = []) as -> by (destruct v; [done|cbn in Hz; lia]). apply relays_still in HM. destruct (negb _).
    - apply wp_bind, wp_call; intros ? k2 E.
      + apply wp_bind. eapply wp_mem; [unfold FD_CLR; zbool|]. wp_step. apply HQ; [by split; [|apply Hb]|]. eapply relays_trans; [done|]. by eapply relays_still, moved_still.
      + apply wp_sys; [done|by apply rk_fatal, Hfail in E].
    - wp_step. apply HQ; [by split; [|apply Hb]|done]. }
  destruct (Z.eqb_spec (crlf o) 0) as [Hc|Hc]; cbn [negb].
  - apply wp_bind, (wp_dowrite _ _ v); [apply asub_front| |].
    + intros k2 H2. rewrite Z.eqb_refl. cbn [negb]. wp_step. apply HQ; [by split; [|apply Hb]|]. eapply relays_in; [done|]. unfold enc. by rewrite Hc.
    + intros n g' k2 Hn Hf. rewrite (proj2 (Z.eqb_neq _ _) Hn). apply wp_sys; [done|by apply Hfail].
  - apply wp_bind. eapply wp_crlf_add; [exact Hb|done|done|done|]. intros wb rest' -> Hwb.
    apply wp_bind, (wp_dowrite _ _ (to_crlf v)); [apply asub_front| |].
    + intros k2 H2. rewrite Z.eqb_refl. cbn [negb]. wp_step. apply HQ; [split; [done|cbn; destruct Hb; lia]|].
      eapply relays_in; [done|]. unfold enc. by rewrite (proj2 (Z.eqb_neq _ _) Hc).
    + intros n g' k2 Hn Hf. rewrite (proj2 (Z.eqb_neq _ _) Hn). apply wp_sys; [done|by apply Hfail].
Qed.

Lemma wp_receive fuel b (Q : bufs * next -> globals -> K -> Prop) g k :
  sized b -> (Z.to_nat (readlen o) <= fuel)%nat ->
  (forall b' nx g' k', sized b' -> relays k k' -> Q (b', nx) g' k') -> W (receive fuel o sockfd 0 b) Q g k.
Proof.
  intros Hb Hf HQ. unfold receive. pose proof (rk_recv (readlen o) k (proj1 Hlens)) as H.
  wp_step; rewrite H0 in H; [|apply wp_sys; [done|by apply Hfail]]. destruct v as [v from]. destruct H as [Hle HM].
  destruct (rbuf_filled b v Hb Hle) as (rest & Em & Hlen). apply wp_bind. eapply wp_mem; [exact Em|]. cbv zeta.
  pose proof (no_cr_length v) as Hnc.
  destruct (Z.eqb_spec (Z.of_nat (length v)) 0) as [Hz|Hz].
  { assert (v = []) as -> by (destruct v; [done|cbn in Hz; lia]). apply wp_bind, wp_if_verbose. intros g2 k2 H2. wp_step.
    apply HQ; [by split; [|apply Hb]|]. eapply relays_trans; by apply relays_still. }
  destruct (Z.eqb_spec (crlf o) 0) as [Hc|Hc]; cbn [negb].
  - apply wp_bind, (wp_writen _ _ v); [apply asub_front|lia|lia|]. intros k2 H2. rewrite Z.eqb_refl. cbn [negb]. wp_step.
    apply HQ; [by split; [|apply Hb]|]. eapply relays_out; [done|]. unfold dec. by rewrite Hc.
  - apply wp_bind. eapply wp_crlf_strip; [exact Hb|done|done|done|]. intros wb rest' -> Hwb.
    apply wp_bind, (wp_writen _ _ (no_cr v)); [apply asub_front|lia|lia|]. intros k2 H2. rewrite Z.eqb_refl. cbn [negb]. wp_step.
    apply HQ; [split; [done|cbn; destruct Hb; lia]|]. eapply relays_out; [done|]. unfold dec. by rewrite (proj2 (Z.eqb_neq _ _) Hc).
Qed.

Lemma wp_loop_turn fuel l (Q : loop * next -> globals -> K -> Prop) g k :
  sized (l_bufs l) -> (Z.to_nat (readlen o) <= fuel)%nat ->
  (forall l' nx g' k', sized (l_bufs l') -> relays k k' -> Q (l', nx) g' k') -> W (loop_turn fuel o sockfd l) Q g k.
Proof.
  intros Hb Hf HQ. unfold loop_turn.
  assert (exists r0, (if stdineof l =? 0 then mem (FD_SET 0 (rset l)) else Ret (rset l)) = Ret r0) as [r0 ->]
    by (destruct (stdineof l =? 0); [exists ({[0]} ∪ rset l); unfold FD_SET; zbool|by eexists]).
  apply wp_bind, wp_ret, wp_bind. eapply wp_mem; [unfold FD_SET; zbool|].
  apply wp_bind, wp_call; intros v k1 E; [|apply wp_sys; [done|by apply rk_fatal, Hfail in E]].
  apply moved_still, relays_still in E as H1; [|done]. clear E. destruct v as [m [[rs ws] xs]].
  apply wp_bind. eapply wp_mem; [unfold FD_ISSET; reflexivity|]. cbv zeta.
  assert (forall l1 skip g1 k2, sized (l_bufs l1) -> relays k k2 -> W (match skip with
    | Some nx => Ret (l1, nx)
    | None => inS ← mem (FD_ISSET sockfd (rset l1));
              if (inS : bool) then '(b2, nx) ← from_socket fuel o sockfd (l_bufs l1); Ret (Loop b2 (stdineof l1) (rset l1), nx)
              else Ret (l1, Continue)
    end) Q g1 k2) as Hrest.
  { intros l1 skip g1 k2 Hb1 H2. destruct skip; [wp_step; by apply HQ|]. apply wp_bind. eapply wp_mem; [unfold FD_ISSET; zbool|].
    destruct (bool_decide _); [|wp_step; by apply HQ]. unfold from_socket. rewrite Hpeek. cbn [negb Z.eqb].
    apply wp_bind, wp_bind, wp_receive; [done|done|]. intros b' nx g' k3 Hb3 H3.
    assert (relays k k3) as Hr by (by eapply relays_trans). destruct nx; wp_step; wp_step; by apply HQ. }
  apply wp_bind. destruct (bool_decide _).
  - apply wp_from_stdin; [done|]. intros. apply Hrest; [done|by eapply relays_trans].
  - wp_step. by apply (Hrest (Loop (l_bufs l) (stdineof l) rs) None).
Qed.

Lemma wp_loop_turns fuel turns : forall l (Q : loop * next -> globals -> K -> Prop) g k,
  sized (l_bufs l) -> (Z.to_nat (readlen o) <= fuel)%nat ->
  (forall l' nx g' k', sized (l_bufs l') -> relays k k' -> Q (l', nx) g' k') -> W (loop_turns fuel turns o sockfd l) Q g k.
Proof.
  induction turns as [|t IH]; intros l Q g k Hb Hf HQ; cbn [loop_turns].
  { wp_step. apply HQ; [done|]. apply relays_still, moved_nil. }
  apply wp_bind, wp_loop_turn; [done|done|]. intros l' nx g' k' Hb' H1. destruct nx; [|wp_step; by apply HQ].
  apply IH; [done|done|]. intros. apply HQ; [done|]. by eapply relays_trans.
Qed.

End Relay.

(** Source mode sends what it says: unless a call fails, source_tcp returns after sending exactly nbuf buffers of
    writelen bytes, each the cycle of printing characters from the space on, and nothing else, and takes nothing from
    standard input or the socket. *)
Theorem source_tcp_sends {K : Type} `{HK : !Kernel K} {sockfd : Z} `{HR : !RelayKernel K sockfd} (o : opts) (fuel : nat) (b : bufs) (g : globals) (k : K) :
  sized o b -> writelen o < 2 ^ 31 -> ignorewerr o = 0 -> urgwrite o <= 0 -> (naps k < fuel)%nat ->
  wp (fun h => h = Exit 1 /\ may_fail) (source_tcp fuel o sockfd b)
     (fun _ _ k' => moved k k' [] (concat (replicate (Z.to_nat (nbuf o)) (map printing (seq 0 (Z.to_nat (writelen o)))))) [] []) g k.
Proof.
  intros [_ Hb] Hw Hi Hu Hf. unfold source_tcp. set (bs := map printing _).
  assert (Z.of_nat (length bs) = writelen o) as Hlen by (subst bs; rewrite length_map, length_seq; lia).
  apply wp_bind. eapply wp_mem; [apply (pattern_loop_spec (Z.to_nat (writelen o)) [] (wbuf b) 0); [lia|by vm_compute]|]. cbn [length app].
  apply wp_bind, wp_pause; [done|]. intros g1 k1 H1. pose proof H1 as (_ & _ & _ & _ & Hn1).
  apply wp_bind, (wp_source_loop _ _ (fun H => H) _ _ bs); [fold bs; pose proof (asub_front bs (drop (Z.to_nat (writelen o)) (wbuf b))) as HA; by rewrite Hlen in HA|done|done|lia|lia|]. intros g2 k2 H2.
  pose proof H2 as (_ & _ & _ & _ & Hn2). apply wp_finish; [done|lia|]. intros g3 k3 H3.
  pose proof (moved_trans _ _ _ _ _ _ _ _ _ _ _ H1 (moved_trans _ _ _ _ _ _ _ _ _ _ _ H2 H3)) as H. rewrite !app_nil_r in H. exact H.
Qed.

(** What ends the loop early. *)
Definition excused {K} `{HK : !Kernel K} {sockfd : Z} `{HR : !RelayKernel K sockfd} (o : opts) : Prop :=
  may_fail \/ (crlf o <> 0 /\ writelen o <= 2 * readlen o).


(** writen of the sock program does not report an error of write: its nwritten is a size_t, so -1 is not <= 0, the
    pointer moves one byte back, and the next write is handed memory in front of the caller's buffer. *)
Theorem sock_writen_error_faults {K : Type} `{HK : !Kernel K} (fuel : nat) (fd n e : Z) (v : list Z) (g : globals) (k k' : K) :
  (1 < fuel)%nat -> 0 < n <= Z.of_nat (length v) -> n < 2 ^ 63 ->
  kcall (Ewrite fd (take (Z.to_nat n) v)) k = (Err e, k') ->
  run (writen fuel fd v n) g k = (Halted Fault, set_errno e g, k').
Proof.
  intros Hf Hn Hbig E. destruct fuel as [|[|f]]; [lia|lia|]. unfold writen. cbn [writen_loop].
  destruct (Z.ltb_spec 0 n); [|lia]. rewrite asub_take by lia. cbn [mem mbind prog_bind bind].
  unfold sys_write. rewrite !run_bind, run_call, E. cbv beta iota. rewrite run_ret. cbv beta iota zeta.
  change (u64 (-1)) with (2 ^ 64 - 1). destruct (Z.leb_spec (2 ^ 64 - 1) 0); [lia|].
  replace (u64 (n - (2 ^ 64 - 1))) with (n + 1).
  2: { unfold u64, wrap. replace (n - (2 ^ 64 - 1)) with (n + 1 + (-1) * 2 ^ 64) by lia. rewrite Z.mod_add by lia. symmetry. apply Z.mod_small. lia. }
  destruct (Z.ltb_spec 0 (n + 1)); [|lia]. by change (asub v (0 + sint 64 (2 ^ 64 - 1)) (n + 1)) with (@None (list Z)).
Qed.

(** ** A system to run it on *)
Record desk := Desk { d_in : list Z; d_net : list Z; d_taken : list Z; d_sent : list Z; d_got : list Z; d_shown : list Z }.

(** Everything is ready; standard output takes three bytes at a time. *)
#[export] Instance desk_kernel : Kernel desk := {|
  kcall X e :=
    match e in sysE X return desk -> res X * desk with
    | Eselect n r w x tv => fun k => (Ok (if n =? 0 then 0 else Z.of_nat (size r), (r, ∅, ∅)), k)
    | Eread _ n => fun k =>
        let bs := take (Z.to_nat n) (d_in k) in
        (Ok bs, Desk (drop (Z.to_nat n) (d_in k)) (d_net k) (d_taken k ++ bs) (d_sent k) (d_got k) (d_shown k))
    | Erecvfrom _ n _ => fun k =>
        let bs := take (Z.to_nat n) (d_net k) in
        (Ok (bs, (SaOther 0 [], 0)), Desk (d_in k) (drop (Z.to_nat n) (d_net k)) (d_taken k) (d_sent k) (d_got k ++ bs) (d_shown k))
    | Ewrite fd bs => fun k =>
        if fd =? 1 then
          let n := Z.min 3 (Z.of_nat (length bs)) in
          (Ok n, Desk (d_in k) (d_net k) (d_taken k) (d_sent k) (d_got k) (d_shown k ++ take (Z.to_nat n) bs))
        else (Ok (Z.of_nat (length bs)), Desk (d_in k) (d_net k) (d_taken k) (d_sent k ++ bs) (d_got k) (d_shown k))
    | Eshutdown _ _ => fun k => (Ok tt, k)
    | Eclose _ => fun k => (Ok tt, k)
    | Efputs _ _ => fun k => (Ok tt, k)
    | Efflush _ => fun k => (Ok tt, k)
    | _ => fun k => (Err ENOSYS, k)
    end;
  klib X e k := ((@klib unit (failing_kernel ENOSYS) _ e tt).1, k) |}.

#[export] Instance desk_relay : RelayKernel desk 3.
Proof.
  refine {| taken := d_taken; sent := d_sent; got := d_got; shown := d_shown; naps := fun _ => 0%nat; may_fail := False |}.
  - intros X e k Hq. destruct e; try done; cbn; rewrite !app_nil_r; auto.
  - intros X e k. cbn. rewrite !app_nil_r. auto.
  - intros n k. cbn. lia.
  - intros X e k n k'. destruct e; try done.
  - done.
  - intros n k Hn. cbn. rewrite !app_nil_r. split; [rewrite length_take; lia|auto].
  - intros n k Hn. cbn. rewrite !app_nil_r. split; [rewrite length_take; lia|auto].
  - intros bs k. cbn. rewrite !app_nil_r, Nat2Z.id, firstn_all. split_and!; auto; lia.
  - intros bs k Hne. eexists _, _. split; [done|]. destruct bs as [|b bs]; [done|]. cbn [length].
    split; [lia|]. cbn -[Z.min take]. rewrite !app_nil_r. auto.
Defined.

Definition chat : opts := Opts 1 1 0 0 0 1024 0 0 0 8 20 0 0 0 0 0.
Definition desk0 : desk := Desk (str "hello" ++ [10]) (str "good" ++ [13; 10] ++ str "day") [] [] [] [].


Definition flood : opts := Opts 0 0 0 0 0 3 0 0 0 8 100 0 0 0 1 0.
Lemma source_tcp_sends_witness :
  wp (fun h => h = Exit 1 /\ may_fail (RelayKernel := desk_relay)) (source_tcp 1 flood 3 (Bufs (replicate 8 0) (replicate 100 0)))
    (fun _ _ k' => moved (RelayKernel := desk_relay) desk0 k' [] (concat (replicate (Z.to_nat 3) (map printing (seq 0 (Z.to_nat 100))))) [] [])
    (Globals 0 0 0 None []) desk0.
Proof. apply (source_tcp_sends (HR := desk_relay) flood 1); [done|cbn; lia|done|cbn; lia|cbn; lia]. Defined.

(** The run: the line leaves with a carriage return, the answer arrives without. *)
Example loop_tcp_runs :
  let '(r, _, k) := run (loop_tcp 20 5 chat 3 (Bufs (replicate 8 0) (replicate 20 0))) (Globals 0 0 0 None []) desk0 in
  d_sent k = str "hello" ++ [13; 10] /\ d_shown k = str "good" ++ [10] ++ str "da".
Proof. vm_compute. auto. Qed.

Lemma sock_writen_error_faults_witness :
  @run unit (failing_kernel EPIPE) Z (writen 2 1 (str "hi") 2) (Globals 0 0 0 None []) tt = (Halted Fault, Globals EPIPE 0 0 None [], tt).
Proof. apply (sock_writen_error_faults (HK := failing_kernel EPIPE) 2 1 2 EPIPE (str "hi")); [lia|vm_compute; split; [done|discriminate]|lia|reflexivity]. Defined.

End SockProgProofs.
