(* ===== verification/SourceRoute.v ===== *)
(** * IPv4 source routes: unpv13e/ipopts and unpv13e/sock/sourceroute.c

    The source route option is built in an array of 44 bytes: in
    ipopts/sourceroute.c as NOP, type, length, offset and up to ten addresses,
    in sock/sourceroute.c without the NOP.  The static variables are a record;
    a pointer into the array is an index. *)
From stdpp Require Import base list numbers strings gmap.
From S2P Require Import Prelude InetAddr Sys Error Wrap SockAddr StreamIO Connect SockProg.

Module SourceRoute.
Definition IPOPT_NOP : Z := 1.
Definition IPOPT_LSRR : Z := 131.
Definition IPOPT_SSRR : Z := 137.
Definition IP_OPTIONS : Z := 4.
Definition INET_ADDRSTRLEN : Z := 16.

(** ** ipopts/sourceroute.c *)
Record srcrt := Srcrt { block : list Z; optr : Z; lenptr : Z; ocnt : Z }.

(** The address of the block and the statics; the result, optr - 4, is the start of the block. *)
Definition inet_srcrt_init (type : Z) : prog (Z * srcrt) :=
  p ← Malloc 44;
  let b0 := replicate 44 0 in
  b1 ← mem (awrite b0 0 IPOPT_NOP);
  b2 ← mem (awrite b1 1 (if negb (type =? 0) then IPOPT_SSRR else IPOPT_LSRR));
  b3 ← mem (awrite b2 3 4);
  Ret (p, Srcrt b3 4 2 0).

(** sin->sin_addr, of the first structure of a list. *)
Definition first_in (ais : list addrinfo) : prog (list Z) :=
  ai ← mem (head ais);
  match ai_addr ai with SaIn s => Ret (sin_addr s) | _ => fault end.

Definition inet_srcrt_add (hostptr : list Z) (s : srcrt) : prog (Z * srcrt) :=
  if 9 <? ocnt s then err_quit (str "too many source routes with: " ++ hostptr)
  else
    ai ← Host_serv (Some hostptr) None AF_INET 0;
    a ← first_in ai;
    bs ← mem (asub a 0 4);
    b1 ← mem (memcpy (block s) (optr s) bs);
    _ ← lib (Efreeaddrinfo ai);
    let o := optr s + 4 in
    let n := ocnt s + 1 in
    let len := 3 + n * 4 in
    b2 ← mem (awrite b1 (lenptr s) (u8 len));
    Ret (len + 1, Srcrt b2 o (lenptr s) n).

Definition puts (s : list Z) : prog unit := call_ (Efputs s stdout).

(** while ((c = *ptr++) == IPOPT_NOP); *)
Fixpoint skip_nops (fuel : nat) (buf : list Z) (ptr : Z) : option (Z * Z) :=
  c ← aread buf ptr;
  if c =? IPOPT_NOP then match fuel with O => None | S f => skip_nops f buf (ptr + 1) end
  else Some (c, ptr + 1).

(** printf("%s ", Inet_ntop(AF_INET, ptr, str, sizeof(str))) *)
Definition print_addr (a : list Z) : prog unit :=
  t ← Inet_ntop AF_INET a (Some (replicate (Z.to_nat INET_ADDRSTRLEN) 0)) INET_ADDRSTRLEN;
  puts (until_nul t ++ [32]).

(** while (len > 0); the length byte allows 63 rounds. *)
Fixpoint print_hops (fuel : nat) (buf : list Z) (ptr len : Z) : prog unit :=
  if 0 <? len then
    match fuel with
    | O => Halt Spin
    | S f =>
        a ← mem (asub buf ptr 4);
        _ ← print_addr a;
        print_hops f buf (ptr + 4) (len - 4)
    end
  else Ret tt.

(** The argument len is overwritten before it is read. *)
Definition inet_srcrt_print (buf : list Z) : prog unit :=
  hop1 ← mem (asub buf 0 4);
  '(c, ptr) ← mem (skip_nops (length buf) buf 4);
  if negb (c =? IPOPT_LSRR) && negb (c =? IPOPT_SSRR) then puts (str "received option type " ++ fmt_d c ++ [10])
  else
    _ ← puts (if c =? IPOPT_LSRR then str "received LSRR: " else str "received SSRR: ");
    _ ← print_addr hop1;
    l ← mem (aread buf ptr);
    let len := s32 (u64 (l - 4)) in
    _ ← print_hops 64 buf (ptr + 2) len;
    puts [10].

(** ** ipopts/tcpcli01.c, from the end of the options on *)

(** while (optind < argc-1) len = inet_srcrt_add(argv[optind++]); *)
Fixpoint add_hops (hops : list (list Z)) (s : srcrt) : prog srcrt :=
  match hops with
  | [] => Ret s
  | h :: hops => '(_, s1) ← inet_srcrt_add h s; add_hops hops s1
  end.

(** [type]: -g is 0, -G is 1. *)
Definition route_connect (type : Z) (hops : list (list Z)) (host : list Z) : prog Z :=
  '(p, s0) ← inet_srcrt_init type;
  s1 ← add_hops hops s0;
  res ← Host_serv (Some host) (Some (str "9877")) AF_INET SOCK_STREAM;
  ai ← mem (head res);
  sockfd ← Socket (ai_family ai) (ai_socktype ai) (ai_protocol ai);
  '(len, s2) ← inet_srcrt_add host s1;
  bs ← mem (asub (block s2) 0 len);
  _ ← Setsockopt sockfd IPPROTO_IP IP_OPTIONS (OBytes bs);
  _ ← lib (Efree p);
  _ ← Connect sockfd (ai_addr ai) (ai_addrlen ai);
  Ret sockfd.

(** ** ipopts/tcpserv01.c: the options of a connection; [opts] is an array of 44 bytes *)
Definition report_route (connfd : Z) (opts : list Z) : prog unit :=
  v ← Getsockopt connfd IPPROTO_IP IP_OPTIONS;
  match v with
  | OBytes bs =>
      o ← mem (memcpy opts 0 bs);
      let len := Z.of_nat (length bs) in
      if 0 <? len then
        _ ← puts (str "received IP options, len = " ++ fmt_d len ++ [10]);
        inet_srcrt_print o
      else Ret tt
  | _ => fault
  end.
End SourceRoute.

(** ** sock/sourceroute.c *)
Module SockRoute.
Import SourceRoute.
(** sizeof(u_long), the number of bytes copied for an address. *)
Class ULong := sizeof_ulong : Z.

Record sroute := Sroute { sroute_opt : list Z; s_optr : Z; sroute_cnt : Z }.

(** inet_aton first, then gethostbyname: the bytes copied. *)
Definition route_addr `{Platform} `{ULong} (argptr : list Z) : prog (list Z) :=
  match inet_aton argptr with
  | Some a => mem (asub (store32 a) 0 sizeof_ulong)
  | None =>
      h ← lib (Egethostbyname argptr);
      match h with
      | Some hp => a ← mem (head (h_addr_list hp)); mem (asub a 0 sizeof_ulong)
      | None => SockProg.err_quit (str "unknown host: " ++ argptr ++ [10])
      end
  end.

Definition sroute_doopt `{Platform} `{ULong} (strict : Z) (argptr : list Z) (s : sroute) : prog sroute :=
  if 9 <=? sroute_cnt s then SockProg.err_quit (str "too many source routes with: " ++ argptr)
  else
    s1 ← (if sroute_cnt s =? 0 then
            b1 ← mem (awrite (replicate 44 0) 0 (if negb (strict =? 0) then IPOPT_SSRR else IPOPT_LSRR));
            b2 ← mem (awrite b1 2 4);
            Ret (Sroute b2 3 (sroute_cnt s))
          else Ret s);
    a ← route_addr argptr;
    b ← mem (memcpy (sroute_opt s1) (s_optr s1) a);
    Ret (Sroute b (s_optr s1 + sizeof_ulong) (sroute_cnt s1 + 1)).

(** while ((optr - sroute_opt) & 3) optr++; at most three rounds. *)
Fixpoint pad4 (fuel : nat) (p : Z) : Z :=
  match fuel with
  | O => p
  | S f => if Z.land p 3 =? 0 then p else pad4 f (p + 1)
  end.

Definition sroute_set `{ULong} (sockfd : Z) (dest : list Z) (s : sroute) : prog sroute :=
  let cnt := sroute_cnt s + 1 in
  b1 ← mem (awrite (sroute_opt s) 1 (u8 (3 + cnt * 4)));
  d ← mem (asub dest 0 sizeof_ulong);
  b2 ← mem (memcpy b1 (s_optr s) d);
  let o := pad4 3 (s_optr s + sizeof_ulong) in
  bs ← mem (asub b2 0 o);
  r ← call (Esetsockopt sockfd IPPROTO_IP IP_OPTIONS (OBytes bs));
  match r with
  | Err _ => SockProg.err_sys (str "setsockopt error for IP_OPTIONS")
  | Ok _ => Ret (Sroute b2 o 0)
  end.
End SockRoute.
