(* ===== verification/SourceRouteProofs.v ===== *)
(** * Source routes are built as they are printed

    Over a system that resolves names ([addr4]), remembers the options set and
    the text printed: the option that tcpcli01 gives to setsockopt is well
    formed for up to ten addresses, and inet_srcrt_print shows exactly these
    addresses in order. *)
From stdpp Require Import base list numbers strings gmap.
From S2P Require Import Prelude InetAddr InetV4 Sys Error Wrap SockAddr StreamIO StreamProofs Connect Bytes Hoare SourceRoute.

Module SourceRouteProofs.
Import SourceRoute.

(** Four bytes. *)
Definition quad (a : list Z) : Prop := length a = 4%nat /\ Forall is_byte a.
Definition quad_text (a : list Z) : list Z :=
  match a with [a; b; c; d] => fmt_quad a b c d | _ => [] end.

(** The option, and the line printed for it. *)
Definition option_of (t : Z) (as_ : list (list Z)) : list Z :=
  [IPOPT_NOP; t; 3 + 4 * Z.of_nat (length as_); 4] ++ concat as_.
Definition type_of (type : Z) : Z := if negb (type =? 0) then IPOPT_SSRR else IPOPT_LSRR.
Definition hops_text (as_ : list (list Z)) : list Z := concat (map (fun a => quad_text a ++ [32]) as_).
Definition route_text (type : Z) (as_ : list (list Z)) : list Z :=
  (if type =? 0 then str "received LSRR: " else str "received SSRR: ") ++ hops_text as_ ++ [10].

(** The calls that neither print nor set options. *)
Definition mute {X} (e : sysE X) : bool :=
  match e with
  | Emalloc _ | Esocket _ _ _ | Econnect _ _ _ | Efflush _ => true
  | Efputs _ fp => negb (fp =? stdout)
  | _ => false
  end.

Class HostKernel (K : Type) `{!Kernel K} := {
  addr4 : list Z -> list Z;
  options : K -> list (Z * list Z);
  printed : K -> list Z;
  same (k k' : K) : Prop := options k' = options k /\ printed k' = printed k;
  hk_addr : forall h, quad (addr4 h);
  hk_mute : forall X (e : sysE X) k, mute e = true -> same k (kcall e k).2;
  hk_lib : forall X (e : libE X) k, same k (klib e k).2;
  (** an IPv4 lookup that succeeds returns the address of the host *)
  hk_gai : forall h s t k,
    match (klib (Egetaddrinfo (Some h) s (Hints AI_CANONNAME AF_INET t 0)) k).1 with
    | inr res => exists ai rest p, res = ai :: rest /\ ai_addr ai = SaIn (SockaddrIn p (addr4 h))
    | inl _ => True
    end;
  hk_puts : forall s k, options (kcall (Efputs s stdout) k).2 = options k /\ printed (kcall (Efputs s stdout) k).2 = printed k ++ s;
  hk_setsockopt : forall fd bs k,
    match kcall (Esetsockopt fd IPPROTO_IP IP_OPTIONS (OBytes bs)) k with
    | (Ok _, k') => options k' = options k ++ [(fd, bs)] /\ printed k' = printed k
    | _ => True
    end }.

(** The array after the addresses [as_]. *)
Definition built (t : Z) (as_ : list (list Z)) (s : srcrt) : Prop :=
  exists l, block s = [IPOPT_NOP; t; l; 4] ++ concat as_ ++ replicate (40 - 4 * length as_) 0 /\
    (as_ <> [] -> l = 3 + 4 * Z.of_nat (length as_)) /\
    optr s = 4 + 4 * Z.of_nat (length as_) /\ lenptr s = 2 /\ ocnt s = Z.of_nat (length as_) /\
    Forall quad as_ /\ (length as_ <= 10)%nat.

Lemma concat_quads as_ : Forall quad as_ -> length (concat as_) = (4 * length as_)%nat.
Proof. induction 1 as [|a l [Ha _] _ IH]; [done|]. cbn [concat length]. rewrite length_app. lia. Qed.

Section Route.
Context {K : Type} `{HK : !Kernel K} `{HH : !HostKernel K}.
Implicit Types (k : K) (g : globals).
Abbreviation W := (wp (fun h => h = Exit 1)).

Lemma same_id k : same k k.
Proof. done. Qed.
Lemma same_comp k1 k2 k3 : same k1 k2 -> same k2 k3 -> same k1 k3.
Proof. intros [A1 A2] [B1 B2]. split; congruence. Qed.
Lemma same_mute {X} (e : sysE X) k r k' : kcall e k = (r, k') -> mute e = true -> same k k'.
Proof. intros E Hq. pose proof (hk_mute X e k Hq) as H. by rewrite E in H. Qed.
Lemma same_of_lib {X} (e : libE X) k r k' : klib e k = (r, k') -> same k k'.
Proof. intros E. pose proof (hk_lib X e k) as H. by rewrite E in H. Qed.

Lemma wp_init type (Q : Z * srcrt -> globals -> K -> Prop) g k :
  daemon_proc g = 0 -> (forall p s k', built (type_of type) [] s -> same k k' -> Q (p, s) g k') -> W (inet_srcrt_init type) Q g k.
Proof.
  intros Hd HQ. unfold inet_srcrt_init. apply wp_bind. unfold Malloc. apply wp_checked; [done|done|]. intros p k' E. apply same_mute in E; [|done].
  cbv zeta. do 3 (apply wp_bind; eapply wp_mem; [reflexivity|]). wp_step. apply HQ; [|done].
  exists 0. split_and!; try done. cbn. lia.
Qed.

Lemma wp_resolve h s t (Q : list addrinfo -> globals -> K -> Prop) g k :
  daemon_proc g = 0 ->
  (forall ai rest p k', ai_addr ai = SaIn (SockaddrIn p (addr4 h)) -> same k k' -> Q (ai :: rest) g k') -> W (Host_serv (Some h) s AF_INET t) Q g k.
Proof.
  intros Hd HQ. unfold Host_serv. pose proof (hk_gai h s t k) as HG. wp_step. rewrite H in HG. apply same_of_lib in H. cbn in HG.
  destruct v as [n|res].
  - wp_step. by apply wp_err_quit.
  - destruct HG as (ai & rest & p & -> & Ea). wp_step. by eapply HQ.
Qed.

Lemma wp_add t as_ h s (Q : Z * srcrt -> globals -> K -> Prop) g k :
  daemon_proc g = 0 -> built t as_ s ->
  (forall s' k', built t (as_ ++ [addr4 h]) s' -> same k k' -> Q (4 + 4 * Z.of_nat (length (as_ ++ [addr4 h])), s') g k') ->
  W (inet_srcrt_add h s) Q g k.
Proof.
  intros Hd (l & Eb & El & Eo & Ep & Ec & HF & Hlen) HQ. unfold inet_srcrt_add. rewrite Ec.
  destruct (Z.ltb_spec 9 (Z.of_nat (length as_))) as [|Hn]; [by apply wp_err_quit|].
  pose proof (hk_addr h) as Hq. destruct Hq as [Hq4 Hqb].
  apply wp_bind, wp_resolve; [done|]. intros ai rest p k1 Ea H1. unfold first_in. apply wp_bind, wp_bind. eapply wp_mem; [reflexivity|].
  rewrite Ea. apply wp_ret, wp_bind. eapply wp_mem; [cbn [sin_addr]; rewrite asub_take by lia; done|].
  apply wp_bind. eapply wp_mem.
  { rewrite Eb, Eo. replace (40 - 4 * length as_)%nat with (4 + (36 - 4 * length as_))%nat by lia. rewrite replicate_add, !app_assoc.
    rewrite <- (app_assoc _ (replicate 4 0)). apply memcpy_app.
    - rewrite length_app, concat_quads by done. cbn. lia.
    - rewrite length_take. cbn. lia. }
  wp_step. cbv zeta. apply same_of_lib in H. apply wp_bind. eapply wp_mem.
  { rewrite Ep, <- !app_assoc. apply (awrite_app [IPOPT_NOP; t] l). done. }
  wp_step. rewrite take_ge by (change (Z.to_nat 4) with 4%nat; lia).
  replace (3 + (Z.of_nat (length as_) + 1) * 4 + 1) with (4 + 4 * Z.of_nat (length (as_ ++ [addr4 h]))) by (rewrite length_app; cbn; lia).
  apply HQ; [|by eapply same_comp]. eexists. split_and!.
  - cbn [block]. rewrite concat_app, length_app. cbn [concat length app]. rewrite app_nil_r, <- app_assoc.
    replace (40 - 4 * (length as_ + 1))%nat with (36 - 4 * length as_)%nat by lia. done.
  - intros _. rewrite length_app. cbn [length]. unfold u8, wrap. rewrite Z.mod_small; lia.
  - cbn [optr]. rewrite length_app, Eo. cbn. lia.
  - done.
  - cbn [ocnt]. rewrite length_app. cbn. lia.
  - apply Forall_app. split; [done|]. by repeat constructor.
  - rewrite length_app. cbn. lia.
Qed.

Lemma wp_add_hops t hops : forall as_ s (Q : srcrt -> globals -> K -> Prop) g k,
  daemon_proc g = 0 -> built t as_ s ->
  (forall s' k', built t (as_ ++ map addr4 hops) s' -> same k k' -> Q s' g k') -> W (add_hops hops s) Q g k.
Proof.
  induction hops as [|h hops IH]; intros as_ s Q g k Hd Hb HQ; cbn [add_hops].
  { wp_step. apply HQ; [by rewrite app_nil_r|done]. }
  apply wp_bind, (wp_add t as_); [done|done|]. intros s1 k1 Hb1 H1. apply (IH (as_ ++ [addr4 h])); [done|done|].
  intros s2 k2 Hb2 H2. rewrite <- app_assoc in Hb2. apply HQ; [done|]. by eapply same_comp.
Qed.

(** The bytes handed to setsockopt. *)
Lemma built_option t as_ s : built t as_ s -> as_ <> [] -> asub (block s) 0 (4 + 4 * Z.of_nat (length as_)) = Some (option_of t as_).
Proof.
  intros (l & Eb & El & _ & _ & _ & HF & Hlen) Hne. rewrite Eb, El by done.
  apply (asub_app [] (option_of t as_) (replicate (40 - 4 * length as_) 0)); [done|].
  unfold option_of. rewrite length_app, concat_quads by done. cbn. lia.
Qed.

(** The option of a connection: at most ten addresses, the host last. *)
Definition routed (type : Z) (hops : list (list Z)) (host : list Z) (k k' : K) (fd : Z) : Prop :=
  (length hops <= 9)%nat /\ printed k' = printed k /\
  options k' = options k ++ [(fd, option_of (type_of type) (map addr4 (hops ++ [host])))].

Lemma wp_route_connect type hops host g k :
  daemon_proc g = 0 -> W (route_connect type hops host) (fun fd g' k' => routed type hops host k k' fd) g k.
Proof.
  intros Hd. unfold route_connect. apply wp_bind, wp_init; [done|]. intros p s0 k1 Hb0 H1.
  apply wp_bind, (wp_add_hops (type_of type) hops []); [done|done|]. intros s1 k2 Hb1 H2.
  apply wp_bind, wp_resolve; [done|]. intros ai rest pt k3 Ea H3. apply wp_bind. eapply wp_mem; [reflexivity|].
  apply wp_bind, wp_checked; [done|done|]. intros fd k4 E4. apply same_mute in E4; [|done].
  apply wp_bind, (wp_add (type_of type) ([] ++ map addr4 hops)); [done|done|]. intros s2 k5 Hb2 H5. cbn [app] in *.
  replace (map addr4 hops ++ [addr4 host]) with (map addr4 (hops ++ [host])) in * by (by rewrite map_app).
  apply wp_bind. eapply wp_mem; [apply (built_option _ _ _ Hb2); rewrite map_app; by destruct (map addr4 hops)|].
  apply wp_bind, wp_checked_; [done|done|]. intros v k6 E6. pose proof (hk_setsockopt fd (option_of (type_of type) (map addr4 (hops ++ [host]))) k5) as HS.
  rewrite E6 in HS. destruct HS as [Eo Ep]. wp_step. apply same_of_lib in H as [Eo7 Ep7].
  apply wp_bind, wp_checked_; [done|done|]. intros v8 k8 E8. apply same_mute in E8 as [Eo8 Ep8]; [|done]. wp_step.
  destruct (same_comp _ _ _ H1 (same_comp _ _ _ H2 (same_comp _ _ _ H3 (same_comp _ _ _ E4 H5)))) as [A B].
  destruct Hb2 as (_ & _ & _ & _ & _ & _ & _ & Hlen). rewrite length_map, length_app in Hlen. cbn in Hlen.
  split; [lia|]. split; congruence.
Qed.

(** ** Printing *)
Abbreviation V := (wp (fun _ => False)).
Lemma wp_puts s (Q : unit -> globals -> K -> Prop) g k :
  (forall g' k', daemon_proc g' = daemon_proc g -> options k' = options k -> printed k' = printed k ++ s -> Q tt g' k') -> V (puts s) Q g k.
Proof.
  intros HQ. unfold puts. pose proof (hk_puts s k) as [Ho Hp]. wp_step. rewrite H in Ho, Hp. apply HQ; [by destruct r|done|done].
Qed.

Lemma wp_print_addr a (Q : unit -> globals -> K -> Prop) g k : quad a ->
  (forall g' k', daemon_proc g' = daemon_proc g -> printed k' = printed k ++ quad_text a ++ [32] -> Q tt g' k') -> V (print_addr a) Q g k.
Proof.
  intros [Hl Hb] HQ. unfold print_addr, Inet_ntop, inet_ntop. destruct a as [|a [|b [|c [|d [|]]]]]; try done.
  rewrite !Forall_cons in Hb. destruct Hb as (B1 & B2 & B3 & B4 & _). assert (V4.bytes4 a b c d) as Hq by done.
  pose proof (V4.fmt_quad_length _ _ _ _ Hq).
  destruct (V4.inet_ntop4_ok a b c d (replicate 16 0) 0 16 Hq) as (arr & E & Et & _); [done|done|lia|].
  change (AF_INET =? AF_INET) with true. cbn iota. change (Z.to_nat INET_ADDRSTRLEN) with 16%nat. change INET_ADDRSTRLEN with 16.
  apply wp_bind, wp_bind. eapply wp_mem; [exact E|]. apply wp_ret, wp_puts. intros g' k' Hg _ Hp. apply HQ; [done|].
  unfold cstring_at in Et. rewrite drop_0 in Et. by rewrite Hp, Et.
Qed.

Lemma wp_print_hops as_ : forall fuel (l rest : list Z) ptr len (Q : unit -> globals -> K -> Prop) g k,
  Forall quad as_ -> ptr = Z.of_nat (length l) -> (length as_ <= fuel)%nat -> len = 4 * Z.of_nat (length as_) - 1 ->
  (forall g' k', daemon_proc g' = daemon_proc g -> printed k' = printed k ++ hops_text as_ -> Q tt g' k') ->
  V (print_hops fuel (l ++ concat as_ ++ rest) ptr len) Q g k.
Proof.
  induction as_ as [|a as_ IH]; intros fuel l rest ptr len Q g k HF -> Hf -> HQ.
  { destruct fuel; cbn [print_hops]; change (0 <? 4 * Z.of_nat (@length (list Z) []) - 1) with false; cbv iota; wp_step; apply HQ; [done|by rewrite app_nil_r|done|by rewrite app_nil_r]. }
  apply Forall_cons in HF as [Ha HF]. destruct fuel as [|f]; [cbn in Hf; lia|]. cbn [print_hops concat length].
  destruct (Z.ltb_spec 0 (4 * Z.of_nat (S (length as_)) - 1)); [|lia].
  apply wp_bind. eapply wp_mem; [rewrite <- app_assoc; apply asub_app; [done|by rewrite (proj1 Ha)]|].
  apply wp_bind, wp_print_addr; [done|]. intros g1 k1 Hg1 H1.
  rewrite <- (app_assoc a). rewrite (app_assoc l a). apply IH; [done|rewrite length_app, (proj1 Ha); lia|cbn in Hf; lia|lia|].
  intros g2 k2 Hg2 H2. apply HQ; [congruence|]. unfold hops_text in *. cbn [map concat]. by rewrite H2, H1, <- !app_assoc.
Qed.

(** A source route after the address of the first hop. *)
Lemma wp_srcrt_print type hop as_ rest (Q : unit -> globals -> K -> Prop) g k :
  quad hop -> Forall quad as_ -> (length as_ <= 62)%nat ->
  (forall g' k', printed k' = printed k ++ route_text type (hop :: as_) -> Q tt g' k') ->
  V (inet_srcrt_print (hop ++ option_of (type_of type) as_ ++ rest)) Q g k.
Proof.
  intros Hh HF Hl HQ. unfold inet_srcrt_print. pose proof (proj1 Hh) as H4.
  apply wp_bind. eapply wp_mem; [apply (asub_app [] hop); [done|by rewrite H4]|].
  assert (aread (hop ++ option_of (type_of type) as_ ++ rest) 4 = Some IPOPT_NOP) as R4 by (apply (aread_app hop); by rewrite H4).
  assert (forall m x r', option_of (type_of type) as_ ++ rest = m ++ x :: r' -> aread (hop ++ option_of (type_of type) as_ ++ rest) (4 + Z.of_nat (length m)) = Some x) as RR.
  { intros m x r' E. rewrite E, app_assoc. apply aread_app. rewrite length_app, H4. lia. }
  assert (skip_nops (length (hop ++ option_of (type_of type) as_ ++ rest)) (hop ++ option_of (type_of type) as_ ++ rest) 4 = Some (type_of type, 6)) as Es.
  { rewrite length_app, H4. cbn [Nat.add skip_nops]. rewrite R4. cbn [mbind option_bind]. change (IPOPT_NOP =? IPOPT_NOP) with true. cbn iota.
    change (4 + 1) with (4 + Z.of_nat (length [IPOPT_NOP])). rewrite (RR [IPOPT_NOP] (type_of type) _ eq_refl). cbn [mbind option_bind].
    unfold type_of. by destruct (type =? 0). }
  apply wp_bind. eapply wp_mem; [exact Es|]. cbv beta iota.
  assert (negb (type_of type =? IPOPT_LSRR) && negb (type_of type =? IPOPT_SSRR) = false) as -> by (unfold type_of; by destruct (type =? 0)).
  apply wp_bind, wp_puts. intros g1 k1 _ _ H1. apply wp_bind, wp_print_addr; [done|]. intros g2 k2 _ H2.
  apply wp_bind. eapply wp_mem; [apply (RR [IPOPT_NOP; type_of type] _ _ eq_refl)|]. cbv zeta.
  replace (s32 (u64 (3 + 4 * Z.of_nat (length as_) - 4))) with (4 * Z.of_nat (length as_) - 1).
  2: { destruct as_ as [|a as_]; [reflexivity|]. cbn [length] in *. unfold u64, wrap. rewrite Z.mod_small by lia. unfold s32, sint, wrap. cbv zeta.
       rewrite Z.mod_small by lia. change (2 ^ (32 - 1)) with (2 ^ 31). match goal with |- context [?x <? ?y] => destruct (Z.ltb_spec x y) end; lia. }
  apply wp_bind. unfold option_of. rewrite <- app_assoc, (app_assoc hop). apply wp_print_hops; [done|rewrite length_app, H4; done|lia|lia|].
  intros g3 k3 _ H3. apply wp_puts. intros g4 k4 _ _ H5. apply HQ. rewrite H5, H3, H2, H1. unfold route_text, hops_text, type_of. cbn [map concat].
  rewrite <- !app_assoc. do 1 f_equal. by destruct (type =? 0).
Qed.
End Route.

(** C36. What a client asks for is what a server would print: a client that connects with a source route hands setsockopt
    an option of at most 44 bytes, a multiple of four, that starts with NOP and the type of route asked for, for at most
    nine hops and the host, and ends with status 1 otherwise or when a call fails; and inet_srcrt_print, given that
    option behind the address of a first hop, prints the type of the route, that address, and the addresses of the
    hops and of the host in their order, without leaving the option. *)
Theorem source_route_roundtrip {K : Type} `{HK : !Kernel K} `{HH : !HostKernel K} (type : Z) (hops : list (list Z)) (host : list Z) (g : globals) (k : K) :
  daemon_proc g = 0 ->
  wp (fun h => h = Exit 1) (route_connect type hops host) (fun fd _ k' => exists bs,
    options k' = options k ++ [(fd, bs)] /\ (length hops <= 9)%nat /\
    (length bs <= 44)%nat /\ (length bs mod 4 = 0)%nat /\ (exists r, bs = IPOPT_NOP :: type_of type :: r) /\
    forall hop rest g2 (k2 : K), quad hop ->
      wp (fun _ => False) (inet_srcrt_print (hop ++ bs ++ rest))
        (fun _ _ k3 => printed k3 = printed k2 ++ route_text type (hop :: map addr4 (hops ++ [host]))) g2 k2) g k.
Proof.
  intros Hd. eapply wp_mono; [by apply wp_route_connect|]. intros fd g' k' (Hh & _ & Eo).
  assert (Forall quad (map addr4 (hops ++ [host]))) as HF by (apply Forall_map, Forall_true; intros; apply hk_addr).
  exists (option_of (type_of type) (map addr4 (hops ++ [host]))). split; [done|]. split; [done|].
  assert (length (option_of (type_of type) (map addr4 (hops ++ [host]))) = (4 * (length hops + 2))%nat) as Hl.
  { unfold option_of. rewrite length_app, concat_quads, length_map, length_app by done. cbn. lia. }
  rewrite Hl. split; [lia|]. split; [by rewrite Nat.mul_comm, Nat.Div0.mod_mul|]. split; [by eexists|].
  intros hop rest g2 k2 Hq. apply wp_srcrt_print; [done|done|rewrite length_map, length_app; cbn; lia|]. done.
Qed.

(** ** A system to run it on *)
Record names := Names { n_options : list (Z * list Z); n_printed : list Z }.
Definition host_addr (h : list Z) : list Z := [10; 0; 0; u8 (default 0 (head h))].

#[export] Instance names_kernel : Kernel names := {|
  kcall X e :=
    match e in sysE X return names -> res X * names with
    | Emalloc _ => fun k => (Ok 4096, k)
    | Esocket _ _ _ => fun k => (Ok 3, k)
    | Econnect _ _ _ => fun k => (Ok tt, k)
    | Esetsockopt fd _ _ (OBytes bs) => fun k => (Ok tt, Names (n_options k ++ [(fd, bs)]) (n_printed k))
    | Efputs s fp => fun k => (Ok tt, if fp =? stdout then Names (n_options k) (n_printed k ++ s) else k)
    | _ => fun k => (Err ENOSYS, k)
    end;
  klib X e k :=
    (match e in libE X return X with
     | Egetaddrinfo h _ _ => inr [Addrinfo 0 AF_INET SOCK_STREAM 0 16 None (SaIn (SockaddrIn 0 (host_addr (default [] h))))]
     | e => (@klib unit (failing_kernel ENOSYS) _ e tt).1
     end, k) |}.

#[export] Instance names_host : HostKernel names.
Proof.
  refine {| addr4 := host_addr; options := n_options; printed := n_printed |}.
  - intros h. split; [done|]. repeat constructor; try (cbv; done); unfold u8, wrap; apply Z.mod_pos_bound; done.
  - intros X e k Hq. destruct e; try done. cbn in *. by destruct (fp =? stdout).
  - done.
  - intros h s t k. cbn. by eexists _, _, _.
  - done.
  - done.
Defined.

Lemma source_route_roundtrip_witness :
  wp (fun h => h = Exit 1) (route_connect 0 [str "a"; str "b"] (str "c")) (fun fd _ k' => exists bs,
    options k' = options (Names [] []) ++ [(fd, bs)] /\ (length [str "a"; str "b"] <= 9)%nat /\
    (length bs <= 44)%nat /\ (length bs mod 4 = 0)%nat /\ (exists r, bs = IPOPT_NOP :: type_of 0 :: r) /\
    forall hop rest g2 (k2 : names), quad hop ->
      wp (fun _ => False) (inet_srcrt_print (hop ++ bs ++ rest))
        (fun _ _ k3 => printed k3 = printed k2 ++ route_text 0 (hop :: map addr4 ([str "a"; str "b"] ++ [str "c"]))) g2 k2)
    (Globals 0 0 0 None []) (Names [] []).
Proof. apply (source_route_roundtrip (K := names) 0 [str "a"; str "b"] (str "c") (Globals 0 0 0 None []) (Names [] [])). reflexivity. Defined.

Example source_route_runs :
  let '(_, _, k) := run (route_connect 1 [str "a"] (str "b")) (Globals 0 0 0 None []) (Names [] []) in
  n_options k = [(3, [1; 137; 11; 4; 10; 0; 0; 97; 10; 0; 0; 98])].
Proof. by vm_compute. Qed.

(** inet_srcrt_print does not look at the number of bytes it is given: options of NOPs only are read to the end of the
    array and beyond, and a length byte that is too large makes it print what lies behind the array. *)
Theorem srcrt_print_overruns {K : Type} `{HK : !Kernel K} (hop : list Z) (n : nat) g (k : K) :
  length hop = 4%nat -> run (inet_srcrt_print (hop ++ replicate n IPOPT_NOP)) g k = (Halted Fault, g, k).
Proof.
  intros H4. unfold inet_srcrt_print. pose proof (asub_app [] hop (replicate n IPOPT_NOP) 0 4 eq_refl ltac:(lia)) as EA. cbn [app] in EA. rewrite EA. cbn [mem mbind prog_bind bind].
  assert (forall fuel i, (i <= n)%nat -> skip_nops fuel (hop ++ replicate n IPOPT_NOP) (4 + Z.of_nat i) = None) as Hs; [|by rewrite (Hs _ 0%nat) by lia].
  induction fuel as [|f IH]; intros i Hi; cbn [skip_nops]; unfold aread; destruct (Z.ltb_spec (4 + Z.of_nat i) 0); try lia;
    replace (Z.to_nat (4 + Z.of_nat i)) with (length hop + i)%nat by lia; rewrite lookup_app_r by lia; replace (length hop + i - length hop)%nat with i by lia;
    (destruct (decide (i < n)%nat) as [Hl|Hl]; [rewrite lookup_replicate_2 by done|rewrite lookup_ge_None_2 by (rewrite length_replicate; lia); done]);
    cbn [mbind option_bind]; change (IPOPT_NOP =? IPOPT_NOP) with true; cbn iota; [done|].
  replace (4 + Z.of_nat i + 1) with (4 + Z.of_nat (S i)) by lia. apply IH. lia.
Qed.

(** ** The variant of the sock program *)
Import SockRoute.
Section SockRouteProofs.
Context {K : Type} `{HK : !Kernel K} `{HP : Platform}.
Implicit Types (k : K) (g : globals).
Definition hop_built (t : Z) (as_ : list (list Z)) (s : sroute) : Prop :=
  sroute_opt s = [t; 0; 4] ++ concat as_ ++ replicate (41 - 4 * length as_) 0 /\
  s_optr s = 3 + 4 * Z.of_nat (length as_) /\ sroute_cnt s = Z.of_nat (length as_) /\ Forall (fun a => length a = 4%nat) as_ /\ (length as_ <= 9)%nat.

Lemma concat_fours (as_ : list (list Z)) : Forall (fun a => length a = 4%nat) as_ -> length (concat as_) = (4 * length as_)%nat.
Proof. induction 1 as [|a l Ha _ IH]; [done|]. cbn [concat length]. rewrite length_app. lia. Qed.

(** The next address, at the end of those there are. *)
Lemma memcpy_next (p : list Z) (as_ : list (list Z)) (m i : nat) a :
  Forall (fun a => length a = 4%nat) as_ -> length a = 4%nat -> (4 * length as_ + 4 <= m)%nat -> i = (length p + 4 * length as_)%nat ->
  memcpy (p ++ concat as_ ++ replicate (m - 4 * length as_) 0) (Z.of_nat i) a =
  Some (p ++ concat (as_ ++ [a]) ++ replicate (m - 4 * length (as_ ++ [a])) 0).
Proof.
  intros HF Ha Hm ->. rewrite length_app, concat_app. cbn [length concat]. rewrite app_nil_r, <- app_assoc.
  replace (m - 4 * length as_)%nat with (4 + (m - 4 * (length as_ + 1)))%nat by lia. rewrite replicate_add, !(app_assoc p).
  rewrite memcpy_app; [done| |by rewrite length_replicate]. rewrite length_app, concat_fours by done. lia.
Qed.

(** One -g or -G option, where a long is as large as an address. *)
Lemma sroute_doopt_adds strict t as_ arg a s g k :
  hop_built t as_ s \/ (as_ = [] /\ sroute_cnt s = 0 /\ t = type_of strict) -> length a = 4%nat -> (length as_ < 9)%nat ->
  route_addr (H0 := 4) arg = Ret a ->
  exists s', run (sroute_doopt (H0 := 4) strict arg s) g k = (Done s', g, k) /\
    hop_built (if decide (as_ = []) then type_of strict else t) (as_ ++ [a]) s'.
Proof.
  intros Hb Ha Hl Er. unfold sroute_doopt.
  assert (sroute_cnt s = Z.of_nat (length as_)) as Ec by (by destruct Hb as [(_ & _ & -> & _)|(-> & -> & _)]).
  assert (Forall (fun a => length a = 4%nat) as_) as HF by (by destruct Hb as [(_ & _ & _ & ? & _)|(-> & _)]).
  destruct (Z.leb_spec 9 (sroute_cnt s)); [lia|].
  assert (exists s1, (if sroute_cnt s =? 0 then
            b1 ← mem (awrite (replicate 44 0) 0 (if negb (strict =? 0) then IPOPT_SSRR else IPOPT_LSRR));
            b2 ← mem (awrite b1 2 4); Ret (Sroute b2 3 (sroute_cnt s)) else Ret s) = Ret s1 /\
     hop_built (if decide (as_ = []) then type_of strict else t) as_ s1) as (s1 & -> & (Eb & Eo & Ec1 & _)).
  { destruct (Z.eqb_spec (sroute_cnt s) 0) as [E0|E0].
    - assert (as_ = []) as -> by (destruct as_; [done|cbn in Ec; lia]). eexists. split; [reflexivity|]. rewrite decide_True by done.
      split_and!; [unfold type_of; by destruct (negb _)|done|cbn; lia|done|cbn; lia].
    - destruct Hb as [Hb|(-> & ? & _)]; [|done]. exists s. split; [done|]. rewrite decide_False; [done|]. by intros ->. }
  cbn [mbind prog_bind bind]. rewrite Er. cbn [mbind prog_bind bind]. rewrite Eb, Eo.
  replace (3 + 4 * Z.of_nat (length as_)) with (Z.of_nat (3 + 4 * length as_)) by lia. rewrite (memcpy_next [_; 0; 4]) by (done || lia).
  cbn [mem mbind prog_bind bind]. eexists. split; [reflexivity|]. change (@sizeof_ulong 4) with 4.
  split_and!; [done|..]; cbn [s_optr sroute_cnt]; rewrite ?length_app; cbn [length]; [lia|lia| |lia]. apply Forall_app. by repeat constructor.
Qed.

(** sroute_set: the option, its length, and zeros up to a multiple of four. *)
Theorem sroute_set_option sockfd t as_ (dest : list Z) s g k k' :
  hop_built t as_ s -> length dest = 4%nat ->
  let opt := [t; 3 + 4 * (Z.of_nat (length as_) + 1); 4] ++ concat (as_ ++ [dest]) ++ [0] in
  kcall (Esetsockopt sockfd IPPROTO_IP IP_OPTIONS (OBytes opt)) k = (Ok tt, k') ->
  exists s', run (sroute_set (H := 4) sockfd dest s) g k = (Done s', g, k') /\ sroute_cnt s' = 0 /\ (length opt mod 4 = 0)%nat /\ (length opt <= 44)%nat.
Proof.
  intros (Eb & Eo & Ec & HF & Hl) Hd opt Ek. unfold sroute_set. cbv zeta. rewrite Eb, Eo, Ec. change (@sizeof_ulong 4) with 4.
  assert (forall v R, awrite ([t; 0; 4] ++ R) 1 v = Some ([t; v; 4] ++ R)) as EW by (intros v R; by apply (awrite_app [t] 0 v (4 :: R))).
  rewrite EW. cbn [mem mbind prog_bind bind]. rewrite asub_take by lia. rewrite take_ge by (change (Z.to_nat 4) with 4%nat; lia).
  cbn [mem mbind prog_bind bind]. replace (3 + 4 * Z.of_nat (length as_)) with (Z.of_nat (3 + 4 * length as_)) by lia.
  assert (u8 (3 + (Z.of_nat (length as_) + 1) * 4) = 3 + 4 * (Z.of_nat (length as_) + 1)) as -> by (unfold u8, wrap; rewrite Z.mod_small; lia).
  rewrite (memcpy_next [t; _; 4] as_ 41) by (done || lia). cbn [mem mbind prog_bind bind].
  assert (length opt = (4 * (length as_ + 2))%nat) as Hlo.
  { subst opt. rewrite !length_app, concat_fours, length_app by (apply Forall_app; by repeat constructor). cbn. lia. }
  assert (pad4 3 (Z.of_nat (3 + 4 * length as_) + 4) = Z.of_nat (length opt)) as ->.
  { rewrite Hlo. assert (forall x, Z.land (4 * x) 3 = 0) as A0 by (intros; rewrite (Z.land_ones _ 2) by lia; rewrite Z.mul_comm; apply Z.mod_mul; lia).
    assert (forall x, Z.land (4 * x + 3) 3 = 3) as A3 by (intros; rewrite (Z.land_ones _ 2) by lia; change (2 ^ 2) with 4; rewrite Z.add_comm, Z.mul_comm, Z.mod_add by lia; done).
    replace (Z.of_nat (3 + 4 * length as_) + 4) with (4 * (Z.of_nat (length as_) + 1) + 3) by lia. cbn [pad4]. rewrite A3. cbn [Z.eqb].
    replace (4 * (Z.of_nat (length as_) + 1) + 3 + 1) with (4 * (Z.of_nat (length as_) + 2)) by lia. rewrite A0. cbn [Z.eqb]. lia. }
  replace (41 - 4 * length (as_ ++ [dest]))%nat with (1 + (40 - 4 * length (as_ ++ [dest])))%nat by (rewrite length_app; cbn; lia).
  rewrite replicate_add. replace ([t; 3 + 4 * (Z.of_nat (length as_) + 1); 4] ++ concat (as_ ++ [dest]) ++ replicate 1 0 ++ replicate (40 - 4 * length (as_ ++ [dest])) 0)
    with (opt ++ replicate (40 - 4 * length (as_ ++ [dest])) 0) by (subst opt; by rewrite <- !app_assoc).
  pose proof (asub_app [] opt (replicate (40 - 4 * length (as_ ++ [dest])) 0) 0 _ eq_refl eq_refl) as EA. cbn [app] in EA. rewrite EA. cbn [mem mbind prog_bind bind]. rewrite run_bind, run_call, Ek. eexists. split; [reflexivity|].
  rewrite Hlo. split; [done|]. split; [by rewrite Nat.mul_comm, Nat.Div0.mod_mul|lia].
Qed.

(** Where a long has eight bytes the first address already reads behind the struct in_addr. *)
Theorem sroute_long_faults strict arg a s g k :
  sroute_cnt s = 0 -> inet_aton arg = Some a -> run (sroute_doopt (H0 := 8) strict arg s) g k = (Halted Fault, g, k).
Proof.
  intros Ec Ea. unfold sroute_doopt, route_addr. rewrite Ec, Ea.
  assert (@asub Z (store32 a) 0 (@sizeof_ulong 8) = None) as ->; [|by destruct (negb (strict =? 0))].
  unfold asub. change (@sizeof_ulong 8) with 8. assert (length (store32 a) = 4%nat) as -> by (unfold store32; destruct big_endian; done). done.
Qed.
End SockRouteProofs.
End SourceRouteProofs.
