(* ===== verification/OwnServers.v ===== *)
(** * The owner's servers: socket/select_server.c, poll_server.c and epoll_server.c

    Written after the select and poll servers of the book, without their
    wrappers: what a system call returns is used unchecked, so that -1 stands
    for a descriptor or a count.  The first two echo; the third prints what it
    receives, in a level-triggered ([lt]) and an edge-triggered ([et]) version. *)
From stdpp Require Import base list numbers strings gmap.
From S2P Require Import Prelude InetAddr Sys Error StreamIO SocketFunc Connect Server PollServer.

Definition SERVE_PORT : Z := 9001.

(** printf, and the -1 of a call that failed. *)
Definition printf_ (s : list Z) : prog unit := call_ (Efputs s stdout).
Definition accept_ (fd : Z) : prog Z :=
  r ← call (Eaccept fd);
  match r with Ok (connfd, _) => Ret connfd | Err _ => Ret (-1) end.
Definition socket_ : prog Z :=
  r ← call (Esocket AF_INET SOCK_STREAM 0);
  match r with Ok fd => Ret fd | Err _ => Ret (-1) end.
Definition serve_addr `{Platform} : sockaddr := SaIn (SockaddrIn (htons SERVE_PORT) INADDR_ANY).

Module OwnSelect.
(** for(i = 0; i < FD_SETSIZE; i++) if (client[i] == -1) { client[i] = clnt_sock; break; } *)
Fixpoint save_sock (k : nat) (i : Z) (cl : list Z) (clnt_sock : Z) : option (Z * list Z) :=
  match k with
  | O => Some (i, cl)
  | S k' =>
      c ← aread cl i;
      if c =? -1 then cl1 ← awrite cl i clnt_sock; Some (i, cl1)
      else save_sock k' (i + 1) cl clnt_sock
  end.

(** The new connection, up to the test of nready. *)
Definition new_connection (serve_sock : Z) (st : server) : prog server :=
  _ ← printf_ (str "connection process" ++ [10]);
  clnt_sock ← accept_ serve_sock;
  '(i, cl) ← mem (save_sock (Z.to_nat FD_SETSIZE) 0 (client st) clnt_sock);
  all1 ← mem (FD_SET clnt_sock (allset st));
  let m := if maxi st <? i then i else maxi st in
  let mfd := if maxfd st <? clnt_sock then clnt_sock else maxfd st in
  _ ← printf_ (str "maxi = " ++ fmt_d m ++ str "; maxfd = " ++ fmt_d mfd ++ [10]);
  Ret (Server cl m mfd all1 (buf st)).

(** A connection that is ready. *)
Definition serve_sock_ready (wfuel : nat) (i clnt_sock : Z) (st : server) : prog server :=
  r ← call (Eread clnt_sock SocketFunc.MAXLINE);
  let n := match r with Ok bs => Z.of_nat (length bs) | Err _ => -1 end in
  b ← (match r with Ok bs => mem (memcpy (buf st) 0 bs) | Err _ => Ret (buf st) end);
  if n =? 0 then
    _ ← call_ (Eclose clnt_sock);
    all1 ← mem (FD_CLR clnt_sock (allset st));
    cl ← mem (awrite (client st) i (-1));
    _ ← printf_ (str "close clnt_sock = " ++ fmt_d clnt_sock ++ [10]);
    Ret (Server cl (maxi st) (maxfd st) all1 b)
  else
    _ ← printf_ (str "read " ++ fmt_d n ++ str " bytes from client" ++ [10]);
    _ ← SocketFunc.written wfuel clnt_sock b n;
    Ret (Server (client st) (maxi st) (maxfd st) (allset st) b).

(** for (i = 0; i <= maxi; i++), with [k] rounds left. *)
Fixpoint check_socks (wfuel k : nat) (i : Z) (rset : fd_set) (nready : Z) (st : server) : prog server :=
  match k with
  | O => Ret st
  | S k' =>
      clnt_sock ← mem (aread (client st) i);
      if clnt_sock =? -1 then check_socks wfuel k' (i + 1) rset nready st
      else
        _ ← printf_ (str "clnt_sock " ++ fmt_d clnt_sock ++ str " process" ++ [10]);
        set ← mem (FD_ISSET clnt_sock rset);
        if (set : bool) then
          st1 ← serve_sock_ready wfuel i clnt_sock st;
          if nready - 1 <=? 0 then Ret st1 else check_socks wfuel k' (i + 1) rset (nready - 1) st1
        else check_socks wfuel k' (i + 1) rset nready st
  end.

(** The body of while(1); a select that fails leaves the set as it was. *)
Definition select_turn (wfuel : nat) (serve_sock : Z) (st : server) : prog server :=
  _ ← lib (Esleep 1);
  _ ← printf_ (str "select waitting..." ++ [10]);
  r ← call (Eselect (maxfd st + 1) (allset st) ∅ ∅ None);
  let '(nready, rset) := match r with Ok (n, (rs, _, _)) => (n, rs) | Err _ => (-1, allset st) end in
  _ ← printf_ (str "nready = " ++ fmt_d nready ++ [10]);
  set ← mem (FD_ISSET serve_sock rset);
  if (set : bool) then
    st1 ← new_connection serve_sock st;
    if nready - 1 <=? 0 then Ret st1
    else check_socks wfuel (Z.to_nat (maxi st1 + 1)) 0 rset (nready - 1) st1
  else check_socks wfuel (Z.to_nat (maxi st + 1)) 0 rset nready st.

Fixpoint select_loop (wfuel turns : nat) (serve_sock : Z) (st : server) : prog server :=
  match turns with
  | O => Ret st
  | S t => st1 ← select_turn wfuel serve_sock st; select_loop wfuel t serve_sock st1
  end.

(** main, for the first [turns] turns. *)
Definition select_main `{Platform} (wfuel turns : nat) (b : list Z) : prog server :=
  serve_sock ← socket_;
  _ ← call_ (Ebind serve_sock serve_addr 16);
  all0 ← mem (FD_SET serve_sock ∅);
  _ ← call_ (Elisten serve_sock 100);
  select_loop wfuel turns serve_sock (Server (replicate (Z.to_nat FD_SETSIZE) (-1)) 0 serve_sock all0 b).
End OwnSelect.

Module OwnPoll.
Import PollServer.
Definition SC_OPEN_MAX : Z := 5.

(** The static OPEN_MAX before and after; sysconf returns -1 when it fails or has no limit. *)
Definition open_max (OPEN_MAX : Z) : prog Z :=
  if OPEN_MAX =? 0 then
    r ← call (Esysconf SC_OPEN_MAX);
    match r with Ok (Some n) => Ret n | _ => Ret (-1) end
  else Ret OPEN_MAX.

(** The new connection; [true] when the table is full and the turn is left. *)
Definition new_connection (OPEN_MAX listenfd : Z) (st : pstate) : prog (pstate * bool) :=
  connfd ← accept_ listenfd;
  '(i, cl) ← mem (poll_save_client (Z.to_nat (OPEN_MAX - 1)) 1 (client st) connfd);
  if i =? OPEN_MAX then
    _ ← printf_ (str "too many connections" ++ [10]);
    _ ← call_ (Eclose connfd);
    Ret (PState cl (maxi st) (buf st), true)
  else
    e ← mem (aread cl i);
    cl1 ← mem (awrite cl i (Entry (e_fd e) POLLRDNORM (e_revents e)));
    Ret (PState cl1 (if maxi st <? i then i else maxi st) (buf st), false).

Definition set_fd (i fd : Z) (st : pstate) : option pstate :=
  e ← aread (client st) i;
  cl ← awrite (client st) i (Entry fd (e_events e) (e_revents e));
  Some (PState cl (maxi st) (buf st)).

(** An entry with an event; at the end of the file the entry is overwritten first and the
    descriptor then read back from it. *)
Definition serve_entry (wfuel : nat) (i : Z) (st : pstate) : prog pstate :=
  e ← mem (aread (client st) i);
  r ← call (Eread (e_fd e) SocketFunc.MAXLINE);
  match r with
  | Err _ =>
      en ← get_errno;
      if en =? ECONNRESET then _ ← call_ (Eclose (e_fd e)); mem (set_fd i (-1) st)
      else _ ← printf_ (str "read error" ++ [10]); Ret st
  | Ok bs =>
      b ← mem (memcpy (buf st) 0 bs);
      let n := Z.of_nat (length bs) in
      let st1 := PState (client st) (maxi st) b in
      if n =? 0 then
        st2 ← mem (set_fd i (-1) st1);
        e2 ← mem (aread (client st2) i);
        _ ← call_ (Eclose (e_fd e2));
        Ret st2
      else _ ← SocketFunc.written wfuel (e_fd e) b n; Ret st1
  end.

(** for(i = 1; i <= maxi; i++), with [k] rounds left. *)
Fixpoint check_entries (wfuel k : nat) (i : Z) (st : pstate) : prog pstate :=
  match k with
  | O => Ret st
  | S k' =>
      rev ← mem (revents (client st) i);
      let bits := Z.lor POLLRDNORM POLLERR in
      _ ← printf_ (str "client[" ++ fmt_d i ++ str "].revents = " ++ fmt_d rev ++ str "; result = " ++
                   fmt_d (Z.land rev bits) ++ str "; val = " ++ fmt_d bits ++ [10]);
      st1 ← (if negb (Z.land rev bits =? 0) then serve_entry wfuel i st else Ret st);
      check_entries wfuel k' (i + 1) st1
  end.

(** The body of while(1); a poll that fails leaves the entries as they were. *)
Definition own_poll_turn (wfuel : nat) (OPEN_MAX listenfd : Z) (st : pstate) : prog pstate :=
  r ← call (Epoll (to_pollfd <$> take (Z.to_nat (maxi st + 1)) (client st)) (-1));
  let '(nready, cl) := match r with Ok (n, out) => (n, set_revents (client st) out) | Err _ => (-1, client st) end in
  let st0 := PState cl (maxi st) (buf st) in
  _ ← printf_ (str "nready = " ++ fmt_d nready ++ [10]);
  rev ← mem (revents (client st0) 0);
  if negb (Z.land rev POLLRDNORM =? 0) then
    '(st1, full) ← new_connection OPEN_MAX listenfd st0;
    if (full : bool) || (nready - 1 <=? 0) then Ret st1
    else check_entries wfuel (Z.to_nat (maxi st1)) 1 st1
  else check_entries wfuel (Z.to_nat (maxi st0)) 1 st0.

Fixpoint own_poll_loop (wfuel turns : nat) (OPEN_MAX listenfd : Z) (st : pstate) : prog pstate :=
  match turns with
  | O => Ret st
  | S t => st1 ← own_poll_turn wfuel OPEN_MAX listenfd st; own_poll_loop wfuel t OPEN_MAX listenfd st1
  end.

(** main, for the first [turns] turns; client is an array of open_max() entries. *)
Definition own_poll_main `{Platform} (wfuel turns : nat) (b : list Z) : prog pstate :=
  n ← open_max 0;
  if n <=? 0 then fault
  else
    listenfd ← socket_;
    _ ← call_ (Ebind listenfd serve_addr 16);
    _ ← call_ (Elisten listenfd 100);
    own_poll_loop wfuel turns n listenfd
      (PState (Entry listenfd POLLRDNORM None :: replicate (Z.to_nat n - 1) (Entry (-1) 0 None)) 0 b).
End OwnPoll.

Module OwnEpoll.
Definition MAX_EVENT_NUMBER : Z := 1024.
Definition BUFFER_SIZE : Z := 10.
Definition EPOLLIN : Z := 1.
Definition EPOLLET : Z := 2 ^ 31.
Definition EPOLL_CTL_ADD : Z := 1.

Definition set_non_blocking (fd : Z) : prog Z :=
  r ← call (Efcntl fd F_GETFL 0);
  let old_option := match r with Ok n => n | Err _ => -1 end in
  let new_option := Z.lor old_option O_NONBLOCK in
  _ ← call_ (Efcntl fd F_SETFL new_option);
  Ret old_option.

Definition addfd (epollfd fd enable_et : Z) : prog unit :=
  let events := if negb (enable_et =? 0) then Z.lor EPOLLIN EPOLLET else EPOLLIN in
  _ ← call_ (Eepoll_ctl epollfd EPOLL_CTL_ADD fd events);
  _ ← set_non_blocking fd;
  Ret tt.

(** The body of lt's loop, for the event [(sockfd, events)]. *)
Definition lt_event (epollfd listenfd : Z) (ev : Z * Z) : prog unit :=
  let '(sockfd, events) := ev in
  if sockfd =? listenfd then connfd ← accept_ listenfd; addfd epollfd connfd 0
  else if negb (Z.land events EPOLLIN =? 0) then
    _ ← printf_ (str "event trigger once" ++ [10]);
    let buffer := replicate (Z.to_nat BUFFER_SIZE) 0 in
    r ← call (Erecvfrom sockfd (BUFFER_SIZE - 1) 0);
    match r with
    | Ok ([], _) | Err _ =>
        _ ← call_ (Eclose sockfd);
        printf_ (str "close " ++ fmt_d sockfd ++ str " fd" ++ [10])
    | Ok (bs, _) =>
        b ← mem (memcpy buffer 0 bs);
        printf_ (str "get " ++ fmt_d (Z.of_nat (length bs)) ++ str " bytes of content: " ++ cstring_at b 0 ++ [10])
    end
  else printf_ (str "something else happened" ++ [10]).

Fixpoint lt (epollfd listenfd : Z) (events : list (Z * Z)) : prog unit :=
  match events with
  | [] => Ret tt
  | ev :: events => _ ← lt_event epollfd listenfd ev; lt epollfd listenfd events
  end.

(** An array of which some bytes have not been written: the string in it. *)
Fixpoint string_in (b : list (option Z)) : option (list Z) :=
  match b with
  | Some 0 :: _ => Some []
  | Some c :: b => t ← string_in b; Some (c :: t)
  | _ => None
  end.

(** et's loop: [connfd] and [buffer] are variables of the function, not initialised. *)
Fixpoint et_loop (epollfd listenfd : Z) (events : list (Z * Z)) (connfd : option Z) (buffer : list (option Z)) : prog unit :=
  match events with
  | [] => Ret tt
  | (sockfd, ev) :: events =>
      if sockfd =? listenfd then
        c ← accept_ listenfd;
        _ ← addfd epollfd c 1;
        et_loop epollfd listenfd events (Some c) buffer
      else if negb (Z.land ev EPOLLIN =? 0) then
        _ ← printf_ (str "event trigger onec" ++ [10]);
        c ← mem connfd;
        r ← call (Erecvfrom c 1 0);
        b ← (match r with Ok (bs, _) => mem (memcpy buffer 0 (Some <$> bs)) | Err _ => Ret buffer end);
        s ← mem (string_in b);
        _ ← printf_ (str "content: " ++ s ++ [10]);
        et_loop epollfd listenfd events connfd b
      else
        _ ← printf_ (str "something else heppened" ++ [10]);
        et_loop epollfd listenfd events connfd buffer
  end.
Definition et (epollfd listenfd : Z) (events : list (Z * Z)) : prog unit :=
  et_loop epollfd listenfd events None (replicate (Z.to_nat BUFFER_SIZE) None).

(** assert(ok) *)
Definition assert_ {A} (r : res A) : prog A :=
  match r with Ok a => Ret a | Err _ => Halt Aborted end.

(** while(1), for at most [turns] turns, with [handle] lt or et: whether the loop was left. *)
Fixpoint epoll_loop (handle : list (Z * Z) -> prog unit) (turns : nat) (epollfd : Z) : prog bool :=
  match turns with
  | O => Ret false
  | S t =>
      r ← call (Eepoll_wait epollfd MAX_EVENT_NUMBER (-1));
      match r with
      | Err _ => _ ← printf_ (str "epoll failure" ++ [10]); Ret true
      | Ok events => _ ← handle events; epoll_loop handle t epollfd
      end
  end.

(** main with its call of et or, commented out, of lt. *)
Definition epoll_main `{Platform} (use_lt : bool) (turns : nat) : prog unit :=
  r ← call (Esocket AF_INET SOCK_STREAM 0);
  listenfd ← assert_ r;
  r ← call (Ebind listenfd serve_addr 16);
  _ ← assert_ r;
  r ← call (Elisten listenfd 5);
  _ ← assert_ r;
  r ← call (Eepoll_create 5);
  epollfd ← assert_ r;
  _ ← addfd epollfd listenfd 1;
  left ← epoll_loop (if use_lt then lt epollfd listenfd else et epollfd listenfd) turns epollfd;
  if (left : bool) then call_ (Eclose listenfd) else Ret tt.
End OwnEpoll.
