(* ===== verification/OwnServersProofs.v ===== *)
(** * What the owner's servers keep and what they lose

    Over a system that knows the open connections ([socks]), the descriptors
    epoll watches and those in nonblocking mode, and on which socket, accept,
    select and epoll_ctl do not fail (the servers do not look): the select
    server unmoved its table, its set and the open connections in step for any
    number of turns, and the level-triggered epoll server watches exactly the
    open connections, all of them nonblocking.  The poll server and the
    edge-triggered epoll server have defects, shown at the end. *)
From stdpp Require Import base list numbers strings sets gmap.
From S2P Require Import Prelude InetAddr Sys Error StreamIO StreamProofs SocketFunc Connect Server PollServer ServerProofs Hoare PollProofs OwnServers.

Module OwnServersProofs.

(** The calls that change no descriptor. *)
Definition plain {X} (e : sysE X) : bool :=
  match e with
  | Eread _ _ | Ewrite _ _ | Eselect _ _ _ _ _ | Efputs _ _ | Erecvfrom _ _ _ | Ebind _ _ _ | Elisten _ _ | Eepoll_wait _ _ _ => true
  | Efcntl _ cmd _ => cmd =? F_GETFL
  | _ => false
  end.

(** The connections a process can have beside its other descriptors. *)
Definition crowd : nat := 1000.

Class ConnKernel (K : Type) `{!Kernel K} := {
  socks : K -> gset Z;
  watched : K -> gset Z;
  nonb : K -> gset Z;
  (** how many more writes can be interrupted *)
  waits : K -> nat;
  unmoved (k k' : K) : Prop := socks k' = socks k /\ watched k' = watched k /\ nonb k' = nonb k /\ (waits k' <= waits k)%nat;
  ck_plain : forall X (e : sysE X) k, plain e = true -> unmoved k (kcall e k).2;
  ck_lib : forall X (e : libE X) k, unmoved k (klib e k).2;
  ck_socket : forall f t p k,
    match kcall (Esocket f t p) k with
    | (Ok fd, k') => 0 <= fd < FD_SETSIZE /\ (fd ∉ socks k) /\ unmoved k k'
    | (Err _, k') => socks k <> ∅
    end;
  (** accept fails only when the process has too many connections *)
  ck_accept : forall lfd k,
    match kcall (Eaccept lfd) k with
    | (Ok (fd, _), k') => 0 <= fd < FD_SETSIZE /\ fd <> lfd /\ (fd ∉ socks k) /\
        socks k' = {[fd]} ∪ socks k /\ watched k' = watched k /\ nonb k' = nonb k /\ (waits k' <= waits k)%nat
    | (Err _, k') => (crowd <= size (socks k))%nat /\ unmoved k k'
    end;
  ck_close : forall fd k, let k' := (kcall (Eclose fd) k).2 in
    socks k' = socks k ∖ {[fd]} /\ watched k' = watched k ∖ {[fd]} /\ nonb k' = nonb k ∖ {[fd]} /\ (waits k' <= waits k)%nat;
  (** select succeeds, and reports what is not a connection only while there is room for one *)
  ck_select : forall n r k, exists m r' w x k', kcall (Eselect n r ∅ ∅ None) k = (Ok (m, (r', w, x)), k') /\
    (forall fd, fd ∈ r' -> fd ∉ socks k -> (size (socks k) < crowd)%nat);
  ck_read : forall fd n bs k k', 0 <= n -> kcall (Eread fd n) k = (Ok bs, k') -> Z.of_nat (length bs) <= n;
  ck_recv : forall fd n fl bs sa k k', 0 <= n -> kcall (Erecvfrom fd n fl) k = (Ok (bs, sa), k') -> Z.of_nat (length bs) <= n;
  ck_write : forall fd bs k,
    match kcall (Ewrite fd bs) k with
    | (Ok n, _) => n <= Z.of_nat (length bs)
    | (Err e, k') => e = EINTR -> (waits k' < waits k)%nat
    end;
  ck_epoll : forall size k, unmoved k (kcall (Eepoll_create size) k).2;
  (** an open descriptor can be watched and made nonblocking (O_NONBLOCK is bit 2); -1 is refused *)
  ck_watch : forall ep fd ev k, let k' := (kcall (Eepoll_ctl ep OwnEpoll.EPOLL_CTL_ADD fd ev) k).2 in
    if fd <? 0 then unmoved k k'
    else socks k' = socks k /\ watched k' = {[fd]} ∪ watched k /\ nonb k' = nonb k /\ (waits k' <= waits k)%nat;
  ck_nonblock : forall fd v k, Z.testbit v 2 = true -> let k' := (kcall (Efcntl fd F_SETFL v) k).2 in
    if fd <? 0 then unmoved k k'
    else socks k' = socks k /\ watched k' = watched k /\ nonb k' = {[fd]} ∪ nonb k /\ (waits k' <= waits k)%nat;
  (** epoll reports watched descriptors, each once *)
  ck_ready : forall ep m t evs k k', kcall (Eepoll_wait ep m t) k = (Ok evs, k') -> NoDup evs.*1 /\ Forall (fun e => e.1 ∈ watched k) evs }.

Section Servers.
Context {K : Type} `{HK : !Kernel K} `{HC : !ConnKernel K}.
Implicit Types (k : K) (g : globals).

Lemma unmoved_refl k : unmoved k k.
Proof. unfold unmoved. auto. Qed.
Lemma unmoved_trans k1 k2 k3 : unmoved k1 k2 -> unmoved k2 k3 -> unmoved k1 k3.
Proof. intros (A & B & C & D) (A' & B' & C' & D'). unfold unmoved. split_and!; [congruence..|lia]. Qed.
Lemma unmoved_plain {X} (e : sysE X) k r k' : kcall e k = (r, k') -> plain e = true -> unmoved k k'.
Proof. intros E Hp. pose proof (ck_plain X e k Hp) as H. by rewrite E in H. Qed.
Lemma unmoved_lib {X} (e : libE X) k r k' : klib e k = (r, k') -> unmoved k k'.
Proof. intros E. pose proof (ck_lib X e k) as H. by rewrite E in H. Qed.

Section Rules.
Variable E : halt -> Prop.
Lemma wp_printf_ s (Q : unit -> globals -> K -> Prop) g k :
  (forall g' k', unmoved k k' -> Q tt g' k') -> wp E (printf_ s) Q g k.
Proof. intros HQ. unfold printf_. wp_step. apply HQ. by eapply unmoved_plain. Qed.

Lemma wp_accept_ lfd (Q : Z -> globals -> K -> Prop) g k :
  (forall fd k', 0 <= fd < FD_SETSIZE -> fd <> lfd -> fd ∉ socks k -> socks k' = {[fd]} ∪ socks k -> watched k' = watched k ->
     nonb k' = nonb k -> (waits k' <= waits k)%nat -> Q fd g k') ->
  ((crowd <= size (socks k))%nat -> forall g' k', unmoved k k' -> Q (-1) g' k') -> wp E (accept_ lfd) Q g k.
Proof.
  intros HQ HF. unfold accept_. pose proof (ck_accept lfd k) as H. apply wp_bind, wp_call; intros v k' Er; rewrite Er in H; [|destruct H; wp_step; by apply HF].
  destruct v as [fd sa]. destruct H as (H1 & H2 & H3 & H4 & H5 & H6 & H7). apply wp_ret. by apply HQ.
Qed.

Lemma wp_socket_ (Q : Z -> globals -> K -> Prop) g k : socks k = ∅ ->
  (forall fd k', 0 <= fd < FD_SETSIZE -> unmoved k k' -> Q fd g k') -> wp E socket_ Q g k.
Proof.
  intros He HQ. unfold socket_. pose proof (ck_socket AF_INET SOCK_STREAM 0 k) as H. apply wp_bind, wp_call; intros fd k' Er; rewrite Er in H; [|done].
  destruct H as (H1 & _ & H2). apply wp_ret. by apply HQ.
Qed.

(** written ends, whatever the writes do, and stays inside the buffer. *)
Lemma wp_written fuel fd v n (Q : Z -> globals -> K -> Prop) g k :
  n <= Z.of_nat (length v) -> (Z.to_nat n + waits k < fuel)%nat ->
  (forall r g' k', unmoved k k' -> Q r g' k') -> wp E (SocketFunc.written fuel fd v n) Q g k.
Proof.
  intros Hn Hf HQ. unfold SocketFunc.written.
  assert (forall f ptr left g k1, 0 <= ptr -> ptr + left <= Z.of_nat (length v) -> (Z.to_nat left + waits k1 < f)%nat -> unmoved k k1 ->
    wp E (SocketFunc.written_loop f fd v ptr left n) Q g k1) as H; [|apply H; [lia|lia|lia|apply unmoved_refl]].
  clear Hn Hf g. induction f as [|f IH]; intros ptr left g k1 Hp Hl Hf Hk; [lia|]. cbn [SocketFunc.written_loop].
  destruct (Z.ltb_spec 0 left); [|wp_step; by apply HQ].
  apply wp_bind. eapply wp_mem; [unfold asub; zbool|].
  match goal with |- context [Ewrite fd ?b] => pose proof (ck_write fd b k1) as Hw end.
  apply wp_bind, wp_call; intros m k2 Ew; rewrite Ew in Hw; apply unmoved_plain in Ew as Hk2; try done;
    pose proof (unmoved_trans _ _ _ Hk Hk2) as Hk02; pose proof Hk2 as (_ & _ & _ & Hwt).
  - rewrite length_take, length_drop in Hw. destruct (Z.leb_spec m 0); [wp_step; by apply HQ|]. apply IH; [lia|lia|lia|done].
  - wp_step. cbn [errno set_errno]. destruct (Z.eqb_spec m EINTR) as [Em|_]; [|wp_step; by apply HQ]. apply IH; [lia|lia| |done]. specialize (Hw Em). lia.
Qed.
End Rules.

(** ** select_server.c *)
Section Select.
Import OwnSelect.
Variable lfd : Z.
Abbreviation W := (wp (fun _ => False)).

(** The table, the set and the open connections agree; entries that are not used are -1. *)
Record sinv k (st : server) : Prop := {
  si_table : table_ok (socks k) (client st);
  si_free : forall c, c ∈ client st -> -1 <= c;
  si_listen : 0 <= lfd < FD_SETSIZE /\ (lfd ∉ socks k);
  si_allset : allset st = {[lfd]} ∪ socks k;
  si_maxfd : forall fd, fd ∈ allset st -> fd <= maxfd st;
  si_maxi : forall i fd, client st !! i = Some fd -> 0 <= fd -> Z.of_nat i <= maxi st;
  si_range : 0 <= maxi st < FD_SETSIZE;
  si_buf : Z.of_nat (length (buf st)) = SocketFunc.MAXLINE }.

Lemma sinv_same k k' st : unmoved k k' -> sinv k st -> sinv k' st.
Proof. intros (Es & _) [H1 H2 H3 H4 H5 H6 H7 H8]. constructor; rewrite ?Es; done. Qed.

(** The search for -1 is the search for a free entry. *)
Lemma save_sock_eq n i cl fd : (forall c, c ∈ cl -> -1 <= c) -> save_sock n i cl fd = save_client n i cl fd.
Proof.
  intros Hc. revert i. induction n as [|n IH]; intros i; cbn [save_sock save_client]; [done|].
  destruct (aread cl i) as [c|] eqn:Er; [|done]. cbn [mbind option_bind].
  assert (-1 <= c) as Hge.
  { apply Hc. unfold aread in Er. destruct (i <? 0); [done|]. by eapply list_elem_of_lookup_2. }
  rewrite IH. destruct (Z.eqb_spec c (-1)), (Z.ltb_spec c 0); try lia; done.
Qed.

Lemma wp_new_connection st (Q : server -> globals -> K -> Prop) g k :
  sinv k st -> (size (socks k) < crowd)%nat -> (forall st' g' k', sinv k' st' -> (waits k' <= waits k)%nat -> Q st' g' k') ->
  W (new_connection lfd st) Q g k.
Proof.
  intros [H1 H2 H3 H4 H5 H6 H7 H8] Hroom HQ. unfold new_connection. apply wp_bind, wp_printf_. intros g1 k1 (E1 & _ & _ & Hw1).
  apply wp_bind, wp_accept_; [|rewrite E1; lia]. intros fd k2 Hr Hne Hn E2 _ _ Hw2. rewrite E1 in Hn, E2.
  rewrite save_sock_eq by done.
  destruct (save_client_spec (client st) fd (Z.to_nat FD_SETSIZE) 0) as [(j & c & Hj & Hc & Hneg & Es)|Hall].
  { pose proof (tab_length _ _ H1). lia. }
  2: { destruct (table_has_room lfd _ _ H1 (proj1 H3) (proj2 H3)). intros j c _. apply Hall. lia. }
  change (Z.of_nat 0) with 0 in Es. apply wp_bind. eapply wp_mem; [exact Es|]. cbv beta iota.
  apply wp_bind. eapply wp_mem; [by apply FD_SET_in|]. cbv zeta. apply wp_bind, wp_printf_. intros g3 k3 (E3 & _ & _ & Hw3). wp_step.
  pose proof (lookup_lt_Some _ _ _ Hc) as Hlt. pose proof (tab_length _ _ H1) as HL. rewrite E2 in E3.
  apply HQ; [|lia]. constructor; cbn [client maxi maxfd allset buf]; rewrite ?E3.
  - by eapply table_insert.
  - intros x Hx. apply list_elem_of_lookup in Hx as [i Hi]. apply list_lookup_insert_Some in Hi as [(-> & -> & _)|[_ Hi]]; [lia|].
    apply H2. by eapply list_elem_of_lookup_2.
  - split; [apply H3|]. rewrite elem_of_union, elem_of_singleton. intros [->|Hx]; [done|by apply (proj2 H3)].
  - rewrite H4. apply set_eq. intros x. rewrite !elem_of_union. tauto.
  - intros x Hx. rewrite elem_of_union, elem_of_singleton in Hx. destruct (Z.ltb_spec (maxfd st) fd); destruct Hx as [->|Hx]; try lia; specialize (H5 _ Hx); lia.
  - intros i x Hi Hx. apply list_lookup_insert_Some in Hi as [(-> & -> & _)|[_ Hi]]; [destruct (Z.ltb_spec (maxi st) (Z.of_nat i)); lia|].
    specialize (H6 _ _ Hi Hx). destruct (Z.ltb_spec (maxi st) (Z.of_nat j)); lia.
  - destruct (Z.ltb_spec (maxi st) (Z.of_nat j)); lia.
  - done.
Qed.

Lemma wp_serve_ready fuel i fd st (Q : server -> globals -> K -> Prop) g k :
  sinv k st -> client st !! i = Some fd -> 0 <= fd -> (Z.to_nat SocketFunc.MAXLINE + waits k < fuel)%nat ->
  (forall st' g' k', sinv k' st' -> length (client st') = length (client st) -> maxi st' = maxi st -> (waits k' <= waits k)%nat -> Q st' g' k') ->
  W (serve_sock_ready fuel (Z.of_nat i) fd st) Q g k.
Proof.
  intros HI Hi Hfd Hf HQ. pose proof HI as [H1 H2 H3 H4 H5 H6 H7 H8]. unfold serve_sock_ready.
  pose proof (tab_length _ _ H1) as HL. pose proof (lookup_lt_Some _ _ _ Hi) as Hlt.
  apply wp_bind, wp_call; intros v k1 Er; apply unmoved_plain in Er as Hu1; try done; pose proof Hu1 as (E1 & _ & _ & Hw1); cbv zeta.
  - apply ck_read in Er; [|done]. pose proof (memcpy_is_Some (buf st) v 0 ltac:(lia) ltac:(lia)) as Eb.
    set (b := take _ _ ++ _) in Eb. apply wp_bind. eapply wp_mem; [exact Eb|]. apply memcpy_Some_length in Eb.
    destruct (Z.eqb_spec (Z.of_nat (length v)) 0).
    + apply wp_bind, wp_call_. intros r k2 Ec. pose proof (ck_close fd k1) as Hcl. cbv zeta in Hcl. rewrite Ec in Hcl. cbn in Hcl.
      destruct Hcl as (E2 & _ & _ & Hw2). rewrite E1 in E2.
      assert (fd ∈ socks k) as Hin by (apply (tab_conns _ _ H1); split; [done|by eapply list_elem_of_lookup_2]).
      pose proof (conns_range _ _ _ H1 Hin) as Hr. apply wp_bind. eapply wp_mem; [by apply FD_CLR_in|].
      apply wp_bind. eapply wp_mem; [by apply awrite_nat|]. apply wp_bind, wp_printf_. intros g3 k3 (E3 & _ & _ & Hw3). wp_step.
      rewrite E2 in E3. apply HQ; [|cbn; by rewrite length_insert|done|lia]. constructor; cbn [client maxi maxfd allset buf]; rewrite ?E3.
      * by apply table_remove.
      * intros x Hx. apply list_elem_of_lookup in Hx as [j Hj]. apply list_lookup_insert_Some in Hj as [(_ & <- & _)|[_ Hj]]; [lia|].
        apply H2. by eapply list_elem_of_lookup_2.
      * split; [apply H3|]. rewrite elem_of_difference. intros [Hx _]. by apply (proj2 H3).
      * rewrite H4. apply set_eq. intros x. rewrite elem_of_difference, !elem_of_union, elem_of_difference, !elem_of_singleton.
        split; [tauto|]. intros [->|[Hx Hn]]; [split; [by left|]|split; [by right|done]]. intros ->. by apply (proj2 H3).
      * intros x Hx. apply H5. by apply elem_of_difference in Hx as [Hx _].
      * intros j x Hj Hx. apply list_lookup_insert_Some in Hj as [(_ & <- & _)|[_ Hj]]; [lia|]. by eapply H6.
      * done.
      * lia.
    + apply wp_bind, wp_printf_. intros g2 k2 Hu2. pose proof Hu2 as (_ & _ & _ & Hw2).
      apply wp_bind, wp_written; [lia|lia|]. intros r g3 k3 Hu3. pose proof Hu3 as (_ & _ & _ & Hw3). wp_step. apply HQ; [|done|done|lia].
      apply (sinv_same k); [by eapply unmoved_trans; [exact Hu1|eapply unmoved_trans]|]. constructor; cbn; try done. lia.
  - apply wp_bind, wp_ret. change (-1 =? 0) with false. cbv iota. apply wp_bind, wp_printf_. intros g2 k2 Hu2. pose proof Hu2 as (_ & _ & _ & Hw2).
    apply wp_bind, wp_written; [lia|lia|]. intros r g3 k3 Hu3. pose proof Hu3 as (_ & _ & _ & Hw3). wp_step. apply HQ; [|done|done|lia].
    apply (sinv_same k); [by eapply unmoved_trans; [exact Hu1|eapply unmoved_trans]|]. by constructor.
Qed.

Lemma wp_check_socks fuel n rset : forall i nready st (Q : server -> globals -> K -> Prop) g k,
  sinv k st -> (i + n <= length (client st))%nat -> (Z.to_nat SocketFunc.MAXLINE + waits k < fuel)%nat ->
  (forall st' g' k', sinv k' st' -> (waits k' <= waits k)%nat -> Q st' g' k') ->
  W (check_socks fuel n (Z.of_nat i) rset nready st) Q g k.
Proof.
  induction n as [|n IH]; intros i nready st Q g k HI Hn Hf HQ; cbn [check_socks]; [wp_step; by apply HQ|].
  destruct (lookup_lt_is_Some_2 (client st) i) as [c Hc]; [lia|]. apply wp_bind. eapply wp_mem; [by apply aread_nat|].
  replace (Z.of_nat i + 1) with (Z.of_nat (S i)) by lia.
  destruct (Z.eqb_spec c (-1)) as [->|Hne]; [apply IH; [done|lia|done|done]|].
  pose proof (si_free _ _ HI c ltac:(by eapply list_elem_of_lookup_2)) as Hge.
  assert (0 <= c < FD_SETSIZE) as Hr by (split; [lia|]; apply (tab_range _ _ (si_table _ _ HI)); by eapply list_elem_of_lookup_2).
  apply wp_bind, wp_printf_. intros g1 k1 Hu1. pose proof Hu1 as (_ & _ & _ & Hw1). pose proof (sinv_same _ _ _ Hu1 HI) as HI1.
  apply wp_bind. eapply wp_mem; [by apply FD_ISSET_in|]. destruct (bool_decide _).
  - apply wp_bind, (wp_serve_ready fuel i c); [done|done|lia|lia|]. intros st2 g2 k2 HI2 HL2 _ Hw2.
    destruct (nready - 1 <=? 0); [wp_step; apply HQ; [done|lia]|]. apply IH; [done|lia|lia|]. intros. apply HQ; [done|lia].
  - apply IH; [done|lia|lia|]. intros. apply HQ; [done|lia].
Qed.

Lemma wp_select_turn fuel st (Q : server -> globals -> K -> Prop) g k :
  sinv k st -> (Z.to_nat SocketFunc.MAXLINE + waits k < fuel)%nat ->
  (forall st' g' k', sinv k' st' -> (waits k' <= waits k)%nat -> Q st' g' k') -> W (select_turn fuel lfd st) Q g k.
Proof.
  intros HI Hf HQ. unfold select_turn. apply wp_bind, wp_lib. intros v k1 Hl%unmoved_lib.
  apply wp_bind, wp_printf_. intros g2 k2 Hu2. pose proof (unmoved_trans _ _ _ Hl Hu2) as Hu02.
  destruct (ck_select (maxfd st + 1) (allset st) k2) as (m & rs & w & x & k3 & Es & Hroom).
  apply wp_bind, wp_call; intros ? ? Er; rewrite Es in Er; [|discriminate Er]. injection Er as <- <-. apply unmoved_plain in Es; [|done].
  cbv beta iota zeta. apply wp_bind, wp_printf_. intros g4 k4 Hu4.
  pose proof (unmoved_trans _ _ _ Hu02 (unmoved_trans _ _ _ Es Hu4)) as Hu. pose proof Hu as (_ & _ & _ & Hw).
  pose proof (sinv_same _ _ _ Hu HI) as HI4. apply wp_bind. eapply wp_mem; [apply FD_ISSET_in, (proj1 (si_listen _ _ HI))|].
  assert (forall st1 k5, sinv k5 st1 -> (Z.to_nat (maxi st1 + 1) <= length (client st1))%nat) as Hlen.
  { intros st1 k5 HI5. pose proof (tab_length _ _ (si_table _ _ HI5)). pose proof (si_range _ _ HI5). lia. }
  destruct (bool_decide_reflect (lfd ∈ rs)) as [Hin|_].
  - apply wp_bind, wp_new_connection; [done| |].
    { destruct Hu02 as (Es2 & _), Hu as (-> & _). rewrite <- Es2. apply (Hroom lfd Hin). rewrite Es2. apply (si_listen _ _ HI). }
    intros st1 g5 k5 HI5 Hw5. destruct (m - 1 <=? 0); [wp_step; apply HQ; [done|lia]|].
    apply (wp_check_socks fuel _ rs 0); [done|by eapply Hlen|lia|]. intros. apply HQ; [done|lia].
  - apply (wp_check_socks fuel _ rs 0); [done|by eapply Hlen|lia|]. intros. apply HQ; [done|lia].
Qed.

Lemma wp_select_loop fuel turns : forall st (Q : server -> globals -> K -> Prop) g k,
  sinv k st -> (Z.to_nat SocketFunc.MAXLINE + waits k < fuel)%nat ->
  (forall st' g' k', sinv k' st' -> Q st' g' k') -> W (select_loop fuel turns lfd st) Q g k.
Proof.
  induction turns as [|t IH]; intros st Q g k HI Hf HQ; cbn [select_loop]; [wp_step; by apply HQ|].
  apply wp_bind, wp_select_turn; [done|done|]. intros st1 g1 k1 HI1 Hw1. apply IH; [done|lia|done].
Qed.

Lemma sinv_init k b : 0 <= lfd < FD_SETSIZE -> socks k = ∅ -> Z.of_nat (length b) = SocketFunc.MAXLINE ->
  sinv k (Server (replicate (Z.to_nat FD_SETSIZE) (-1)) 0 lfd ({[lfd]} ∪ ∅) b).
Proof.
  intros Hl Es Hb. assert (forall c, c ∈ replicate (Z.to_nat FD_SETSIZE) (-1) -> c = -1) as Hr.
  { intros c Hc. by apply elem_of_replicate in Hc as [-> _]. }
  constructor; cbn [client maxi maxfd allset buf]; rewrite ?Es.
  - constructor.
    + rewrite length_replicate. unfold FD_SETSIZE. lia.
    + intros c ->%Hr. unfold FD_SETSIZE. lia.
    + intros fd. split; [by intros ?%not_elem_of_empty|]. intros [? ->%Hr]. lia.
    + intros i j fd Hfd Hi _. apply list_elem_of_lookup_2, Hr in Hi. lia.
  - intros c ->%Hr. lia.
  - split; [done|]. apply not_elem_of_empty.
  - done.
  - intros fd [->%elem_of_singleton|[]%not_elem_of_empty]%elem_of_union. lia.
  - intros i fd Hi%list_elem_of_lookup_2%Hr Hfd. lia.
  - unfold FD_SETSIZE. lia.
  - done.
Qed.
End Select.
End Servers.


(** ** epoll_server.c, level-triggered *)
Section Epoll.
Context {K : Type} `{HK : !Kernel K} `{HC : !ConnKernel K}.
Implicit Types (k : K) (g : globals).
Import OwnEpoll.
Variable (epfd lfd : Z).
Abbreviation W := (wp (fun _ => False)).

(** Epoll watches the listening socket and the connections, and all of them are nonblocking. *)
Definition einv k : Prop := (lfd ∉ socks k) /\ watched k = {[lfd]} ∪ socks k /\ (watched k ⊆ nonb k).

Lemma einv_unmoved k k' : unmoved k k' -> einv k -> einv k'.
Proof. intros (E1 & E2 & E3 & _) H. unfold einv. by rewrite E1, E2, E3. Qed.

Lemma nonblock_bit v : Z.testbit (Z.lor v O_NONBLOCK) 2 = true.
Proof. rewrite Z.lor_spec. change (Z.testbit O_NONBLOCK 2) with true. apply orb_true_r. Qed.

(** addfd: watched, nonblocking. *)
Definition added (fd : Z) k k' : Prop :=
  if fd <? 0 then unmoved k k'
  else socks k' = socks k /\ watched k' = {[fd]} ∪ watched k /\ nonb k' = {[fd]} ∪ nonb k /\ (waits k' <= waits k)%nat.

Lemma wp_addfd (E : halt -> Prop) fd en (Q : unit -> globals -> K -> Prop) g k :
  (forall g' k', added fd k k' -> Q tt g' k') -> wp E (addfd epfd fd en) Q g k.
Proof.
  intros HQ. unfold addfd, set_non_blocking. cbv zeta. apply wp_bind, wp_call_. intros r k1 E1.
  match type of E1 with kcall (Eepoll_ctl _ _ _ ?ev) _ = _ => pose proof (ck_watch epfd fd ev k) as H1 end.
  cbv zeta in H1. rewrite E1 in H1. cbn [snd] in H1. apply wp_bind.
  assert (forall v g1 k2, unmoved k1 k2 -> wp E (_ ← call_ (Efcntl fd F_SETFL (Z.lor v O_NONBLOCK)); Ret v) (fun a => wp E (Ret tt) Q) g1 k2) as Hrest.
  { intros v g1 k2 H2. apply wp_bind, wp_call_. intros r3 k3 E3. pose proof (ck_nonblock fd _ k2 (nonblock_bit v)) as H3.
    cbv zeta in H3. rewrite E3 in H3. cbn [snd] in H3. wp_step. wp_step. apply HQ. unfold added. destruct (fd <? 0).
    - by eapply unmoved_trans; [|eapply unmoved_trans].
    - destruct H1 as (A1 & B1 & C1 & D1), H2 as (A2 & B2 & C2 & D2), H3 as (A3 & B3 & C3 & D3). split_and!; [congruence..|lia]. }
  apply wp_bind, wp_call; intros v k2 E2%unmoved_plain; try done; by apply Hrest.
Qed.

Lemma wp_lt_event sockfd events (rest : list (Z * Z)) (Q : unit -> globals -> K -> Prop) g k :
  einv k -> sockfd ∈ watched k -> sockfd ∉ rest.*1 -> Forall (fun e => e.1 ∈ watched k) rest ->
  (forall g' k', einv k' -> Forall (fun e => e.1 ∈ watched k') rest -> Q tt g' k') -> W (lt_event epfd lfd (sockfd, events)) Q g k.
Proof.
  intros HI Hin Hnr HF HQ. pose proof HI as (Hl & Ew & Hn). unfold lt_event.
  assert (forall k', unmoved k k' -> einv k' /\ Forall (fun e => e.1 ∈ watched k') rest) as Hkeep.
  { intros k' Hu. split; [by eapply einv_unmoved|]. destruct Hu as (_ & -> & _). done. }
  destruct (Z.eqb_spec sockfd lfd) as [->|Hne].
  { apply wp_bind, wp_accept_; [|intros _ g1 k1 Hu1; apply wp_addfd; intros g2 k2 Hu2; by apply HQ; apply Hkeep; eapply unmoved_trans].
    intros fd k1 Hr Hfd Hns E1 B1 C1 _. apply wp_addfd. unfold added. destruct (Z.ltb_spec fd 0); [lia|]. intros g2 k2 (A2 & B2 & C2 & _).
    rewrite E1 in A2. rewrite B1, Ew in B2. rewrite C1 in C2. apply HQ.
    - unfold einv. rewrite A2, B2, C2. split; [set_solver|]. split; [apply set_eq; intros x; rewrite !elem_of_union; tauto|]. rewrite <- Ew. set_solver.
    - eapply Forall_impl; [exact HF|]. cbn. intros e He. rewrite B2, <- Ew. set_solver. }
  destruct (negb _); [|apply wp_printf_; intros g1 k1 Hu; by apply HQ; apply Hkeep].
  apply wp_bind, wp_printf_. intros g1 k1 Hu1.
  assert (forall g2 k2, unmoved k k2 -> W (_ ← call_ (Eclose sockfd); printf_ (str "close " ++ fmt_d sockfd ++ str " fd" ++ [10])) Q g2 k2) as Hclose.
  { intros g2 k2 (A2 & B2 & C2 & _). apply wp_bind, wp_call_. intros r k3 E3. pose proof (ck_close sockfd k2) as H3. cbv zeta in H3. rewrite E3 in H3.
    cbn in H3. destruct H3 as (A3 & B3 & C3 & _). rewrite A2 in A3. rewrite B2 in B3. rewrite C2 in C3.
    apply wp_printf_. intros g4 k4 (A4 & B4 & C4 & _). rewrite A3 in A4. rewrite B3 in B4. rewrite C3 in C4. apply HQ.
    - unfold einv. rewrite A4, B4, C4. split; [rewrite elem_of_difference; tauto|]. split; [|set_solver]. rewrite Ew. apply set_eq. intros x.
      rewrite elem_of_difference, !elem_of_union, elem_of_difference, !elem_of_singleton. split; [tauto|]. intros [->|?]; [by split; [left|]|tauto].
    - apply Forall_forall. intros e He. rewrite Forall_forall in HF. rewrite B4. apply elem_of_difference. split; [by apply HF|].
      rewrite elem_of_singleton. intros E. apply Hnr. rewrite <- E. by apply list_elem_of_fmap_2. }
  apply wp_bind, wp_call; intros v k2 E2; apply unmoved_plain in E2 as Hu2; try done; pose proof (unmoved_trans _ _ _ Hu1 Hu2) as Hu; [|by apply Hclose].
  destruct v as [[|c bs] sa]; [by apply Hclose|]. apply ck_recv in E2; [|done].
  apply wp_bind. eapply wp_mem; [apply memcpy_is_Some; [lia|rewrite length_replicate; change (Z.of_nat (Z.to_nat BUFFER_SIZE)) with 10; unfold BUFFER_SIZE in E2; lia]|].
  apply wp_printf_. intros g3 k3 Hu3. by apply HQ; apply Hkeep; eapply unmoved_trans.
Qed.

Lemma wp_lt events : forall (Q : unit -> globals -> K -> Prop) g k,
  einv k -> NoDup events.*1 -> Forall (fun e => e.1 ∈ watched k) events ->
  (forall g' k', einv k' -> Q tt g' k') -> W (lt epfd lfd events) Q g k.
Proof.
  induction events as [|[fd ev] events IH]; intros Q g k HI Hnd HF HQ; cbn [lt]; [wp_step; by apply HQ|].
  rewrite fmap_cons in Hnd. apply NoDup_cons in Hnd as [Hn Hnd]. apply Forall_cons in HF as [Hin HF].
  apply wp_bind, (wp_lt_event fd ev events); [done..|]. intros g1 k1 HI1 HF1. by apply IH.
Qed.

Lemma wp_epoll_loop turns : forall (Q : bool -> globals -> K -> Prop) g k,
  einv k -> (forall b g' k', einv k' -> Q b g' k') -> W (epoll_loop (lt epfd lfd) turns epfd) Q g k.
Proof.
  induction turns as [|t IH]; intros Q g k HI HQ; cbn [epoll_loop]; [wp_step; by apply HQ|].
  apply wp_bind, wp_call; intros v k1 E1; apply unmoved_plain in E1 as Hu1; try done; pose proof (einv_unmoved _ _ Hu1 HI) as HI1.
  - apply ck_ready in E1 as [Hnd HF]. apply wp_bind, wp_lt; [done|done| |].
    + destruct Hu1 as (_ & -> & _). done.
    + intros g2 k2 HI2. by apply IH.
  - apply wp_bind, wp_printf_. intros g2 k2 Hu2. wp_step. apply HQ. by eapply einv_unmoved.
Qed.
End Epoll.

Lemma wp_weaken {K : Type} `{HK : !Kernel K} {A} (E E' : halt -> Prop) (p : prog A) (Q : A -> globals -> K -> Prop) g k :
  (forall h, E h -> E' h) -> wp E p Q g k -> wp E' p Q g k.
Proof. intros HE. rewrite !wp_run. destruct (run p g k) as [[[a|h] g'] k']; auto. Qed.


(** ** Defects *)

(** et receives from the descriptor it accepted last, not from the one that is ready: unless the batch began with a new
    connection the variable has no value yet. *)
Theorem et_reads_indeterminate {K : Type} `{HK : !Kernel K} epfd lfd fd ev evs g (k : K) :
  fd <> lfd -> Z.testbit ev 0 = true -> (run (OwnEpoll.et epfd lfd ((fd, ev) :: evs)) g k).1.1 = Halted Fault.
Proof.
  intros Hne Hev. unfold OwnEpoll.et. cbn [OwnEpoll.et_loop]. rewrite (proj2 (Z.eqb_neq _ _) Hne).
  assert ((Z.land ev OwnEpoll.EPOLLIN =? 0) = false) as ->.
  { apply Z.eqb_neq. intros E. apply (f_equal (fun z => Z.testbit z 0)) in E. rewrite Z.land_spec, Hev in E. discriminate E. }
  cbn [negb]. rewrite run_bind. unfold printf_. rewrite run_call_. by destruct (kcall _ k) as [r k'].
Qed.

(** The poll server forgets to close: at the end of the file the entry is set to -1 and then -1 is closed, so the
    connection stays open and is in no entry any more. *)
Theorem own_poll_leaks {K : Type} `{HK : !Kernel K} `{HC : !ConnKernel K} (fuel i : nat) e (st : PollServer.pstate) g (k k1 : K) :
  PollServer.client st !! i = Some e -> Z.of_nat (length (PollServer.buf st)) = SocketFunc.MAXLINE ->
  PollServer.e_fd e ∈ socks k -> PollServer.e_fd e <> -1 ->
  kcall (Eread (PollServer.e_fd e) SocketFunc.MAXLINE) k = (Ok [], k1) ->
  exists st' g' k', run (OwnPoll.serve_entry fuel (Z.of_nat i) st) g k = (Done st', g', k') /\
    (PollServer.e_fd e ∈ socks k') /\
    PollServer.client st' = <[i := PollServer.Entry (-1) (PollServer.e_events e) (PollServer.e_revents e)]> (PollServer.client st).
Proof.
  intros Hi Hb Hs Hne Er. pose proof (lookup_lt_Some _ _ _ Hi) as Hlt. unfold OwnPoll.serve_entry. rewrite (aread_nat _ _ _ Hi). cbn [mem mbind prog_bind bind].
  rewrite run_bind, run_call, Er. cbv beta iota. rewrite memcpy_nil by lia. cbn [mem mbind prog_bind bind].
  change (Z.of_nat (@length Z []) =? 0) with true. cbv iota. unfold OwnPoll.set_fd. cbn [PollServer.client PollServer.maxi PollServer.buf]. rewrite (aread_nat _ _ _ Hi). cbn [mbind option_bind].
  rewrite awrite_nat by done. cbn [mem mbind option_bind prog_bind bind PollServer.client].
  rewrite (aread_nat _ _ _ (list_lookup_insert_eq _ _ _ Hlt)). cbn [mem mbind prog_bind bind PollServer.e_fd].
  rewrite run_bind, run_call_. destruct (kcall (Eclose (-1)) k1) as [r k2] eqn:Ec. eexists _, _, _. split; [reflexivity|]. split; [|done].
  pose proof (ck_close (-1) k1) as Hc. cbv zeta in Hc. rewrite Ec in Hc. destruct Hc as (A & _). cbn [snd] in A.
  apply unmoved_plain in Er as (A1 & _); [|done]. rewrite A, A1. apply elem_of_difference. split; [done|]. by rewrite elem_of_singleton.
Qed.

(** ** A system to run them on *)
Record rig := Rig { r_socks : gset Z; r_watched : gset Z; r_nonb : gset Z; r_data : list (list Z) }.
Definition spare (l : gset Z) (lfd : Z) : option Z := head (filter (fun fd => (fd ∉ l) /\ fd <> lfd) (seqZ 3 1010)).

(** Everything is ready as long as there is room for a connection; the reads return the list of data, then the end of file. *)
#[export] Instance rig_kernel : Kernel rig := {|
  kcall X e :=
    match e in sysE X return rig -> res X * rig with
    | Esocket _ _ _ => fun k => (match spare (r_socks k) (-1) with Some fd => Ok fd | None => Err ENOMEM end, k)
    | Ebind _ _ _ => fun k => (Ok tt, k)
    | Elisten _ _ => fun k => (Ok tt, k)
    | Eaccept lfd => fun k =>
        match spare (r_socks k) lfd with
        | Some fd => (Ok (fd, (SaOther 0 [], 0)), Rig ({[fd]} ∪ r_socks k) (r_watched k) (r_nonb k) (r_data k))
        | None => (Err ENOMEM, k)
        end
    | Eclose fd => fun k => (Ok tt, Rig (r_socks k ∖ {[fd]}) (r_watched k ∖ {[fd]}) (r_nonb k ∖ {[fd]}) (r_data k))
    | Eselect _ r _ _ _ => fun k =>
        let r' := if (size (r_socks k) <? crowd)%nat then r else r ∩ r_socks k in
        (Ok (Z.of_nat (size r'), (r', ∅, ∅)), k)
    | Eread _ n => fun k =>
        match r_data k with
        | d :: ds => (Ok (take (Z.to_nat n) d), Rig (r_socks k) (r_watched k) (r_nonb k) ds)
        | [] => (Ok [], k)
        end
    | Erecvfrom _ n _ => fun k =>
        match r_data k with
        | d :: ds => (Ok (take (Z.to_nat n) d, (SaOther 0 [], 0)), Rig (r_socks k) (r_watched k) (r_nonb k) ds)
        | [] => (Ok ([], (SaOther 0 [], 0)), k)
        end
    | Ewrite _ bs => fun k => (Ok (Z.of_nat (length bs)), k)
    | Efputs _ _ => fun k => (Ok tt, k)
    | Efcntl fd cmd v => fun k =>
        (Ok 0, if (cmd =? F_SETFL) && (0 <=? fd) && Z.testbit v 2 then Rig (r_socks k) (r_watched k) ({[fd]} ∪ r_nonb k) (r_data k) else k)
    | Eepoll_create _ => fun k => (Ok 2, k)
    | Eepoll_ctl _ _ fd _ => fun k => (Ok tt, if fd <? 0 then k else Rig (r_socks k) ({[fd]} ∪ r_watched k) (r_nonb k) (r_data k))
    | Eepoll_wait _ _ _ => fun k => (Ok ((fun fd => (fd, OwnEpoll.EPOLLIN)) <$> elements (r_watched k)), k)
    | _ => fun k => (Err ENOSYS, k)
    end;
  klib X e k := ((@klib unit (failing_kernel ENOSYS) _ e tt).1, k) |}.

Lemma spare_fresh l lfd fd : spare l lfd = Some fd -> 0 <= fd < FD_SETSIZE /\ fd <> lfd /\ (fd ∉ l).
Proof.
  unfold spare. intros H%head_Some_elem_of. apply list_elem_of_filter in H as [[Hn Hl] Hin]. apply elem_of_seqZ in Hin. unfold FD_SETSIZE. split_and!; [lia|lia|done|done].
Qed.
Lemma spare_none l lfd : spare l lfd = None -> (crowd <= size l)%nat.
Proof.
  unfold spare. intros H. destruct (filter _ _) as [|x r] eqn:E; [|done].
  assert (list_to_set (seqZ 3 1010) ⊆ {[lfd]} ∪ l) as Hsub.
  { intros x Hx. apply elem_of_list_to_set in Hx. rewrite elem_of_union, elem_of_singleton.
    destruct (decide (x = lfd)) as [|Hne]; [by left|]. right. destruct (decide (x ∈ l)) as [|Hn]; [done|].
    assert (x ∈ filter (fun fd => (fd ∉ l) /\ fd <> lfd) (seqZ 3 1010)) as Hf by (by apply list_elem_of_filter). rewrite E in Hf. by apply elem_of_nil in Hf. }
  apply subseteq_size in Hsub. rewrite size_list_to_set, length_seqZ in Hsub by apply NoDup_seqZ.
  pose proof (size_union_alt {[lfd]} l) as Hu. rewrite size_singleton in Hu. pose proof (subseteq_size (l ∖ {[lfd]}) l ltac:(set_solver)). unfold crowd. lia.
Qed.

#[export] Instance rig_conn : ConnKernel rig.
Proof.
  refine {| socks := r_socks; watched := r_watched; nonb := r_nonb; waits := fun _ => 0%nat |}.
  - intros X e k Hp. destruct e; try done; cbn -[Z.testbit]; try (by destruct (r_data k)). cbn in Hp. apply Z.eqb_eq in Hp as ->. done.
  - done.
  - intros f t p k. cbn -[spare]. destruct (spare (r_socks k) (-1)) as [fd|] eqn:E; [by apply spare_fresh in E as (? & _ & ?)|].
    apply spare_none in E. intros Hs. rewrite Hs, size_empty in E. unfold crowd in E. lia.
  - intros lfd k. cbn -[spare]. destruct (spare (r_socks k) lfd) as [fd|] eqn:E; [apply spare_fresh in E as (? & ? & ?); split_and!; done || lia|].
    by apply spare_none in E.
  - intros fd k. cbn. by split_and!.
  - intros n r k. cbn -[crowd Nat.ltb]. eexists _, _, _, _, _. split; [reflexivity|]. intros fd Hin Hn.
    destruct (Nat.ltb_spec (size (r_socks k)) crowd); [done|]. by apply elem_of_intersection in Hin as [_ ?].
  - intros fd n bs k k' Hn. cbn. destruct (r_data k); intros [= <- <-]; [done|]. rewrite length_take. lia.
  - intros fd n fl bs sa k k' Hn. cbn. destruct (r_data k); intros [= <- <- <-]; [done|]. rewrite length_take. lia.
  - intros fd bs k. cbn. lia.
  - done.
  - intros ep fd ev k. cbn. by destruct (fd <? 0).
  - intros fd v k Hv. cbn -[Z.testbit]. rewrite Hv. destruct (Z.ltb_spec fd 0), (Z.leb_spec 0 fd); try lia; done.
  - intros ep m t evs k k' [= <- <-]. rewrite <- list_fmap_compose. cbn. split.
    + rewrite list_fmap_id. apply NoDup_elements.
    + apply Forall_fmap, Forall_forall. intros x Hx. cbn. by apply elem_of_elements.
Defined.

Definition idle_rig : rig := Rig ∅ ∅ ∅ [str "hello"; str "hi"].


(** The runs: three turns of the select server leave the connections of the last turns open. *)
Example own_select_runs :
  let '(o, _, k) := run (OwnSelect.select_main (H := sparc64) 2000 3 (replicate (Z.to_nat SocketFunc.MAXLINE) 0)) globals0 idle_rig in
  match o with Done st => bool_decide (allset st = {[3]} ∪ r_socks k) && negb (bool_decide (r_socks k = ∅)) | _ => false end = true.
Proof. by vm_compute. Qed.

(** The poll server reads every entry up to maxi, also the one of a connection it has just accepted, which poll has not
    written: when another client is ready in the same turn the revents it tests is indeterminate. *)
Theorem own_poll_reads_indeterminate :
  (@run _ (PollProofs.polls_kernel id) _
     (OwnPoll.own_poll_loop 2000 2 64 3 (PollServer.PState (PollServer.Entry 3 PollServer.POLLRDNORM None ::
        replicate 63 (PollServer.Entry (-1) 0 None)) 0 (replicate (Z.to_nat SocketFunc.MAXLINE) 0)))
     globals0 (PollProofs.Polls [[(3, PollServer.POLLRDNORM)]; [(3, PollServer.POLLRDNORM); (4, PollServer.POLLRDNORM)]] 4)).1.1 = Halted Fault.
Proof. by vm_compute. Qed.
End OwnServersProofs.
