(* ===== verification/SockOpen.v ===== *)
(** * The sock program: socket options and set-up

    unpv13e/sock/sockopts.c, multicast.c, cliopen.c and servopen.c (without
    -f, which forks): every option is set, read back and compared; the client
    sets those that belong before the connection, connects, and sets those that
    belong after it.  Every #ifdef is taken as on FreeBSD, where the options
    exist. *)
From stdpp Require Import base list numbers strings gmap.
From S2P Require Import Prelude InetAddr Sys Error StreamIO SockAddr Connect Server SockProg SourceRoute.

Module SockOpen.
Import SockProg.
Definition IPPROTO_TCP : Z := 6.
Definition SO_DEBUG : Z := 1.
Definition SO_REUSEADDR : Z := 4.
Definition SO_KEEPALIVE : Z := 8.
Definition SO_DONTROUTE : Z := 0x10.
Definition SO_BROADCAST : Z := 0x20.
Definition SO_LINGER : Z := 0x80.
Definition SO_REUSEPORT : Z := 0x200.
Definition SO_SNDTIMEO : Z := 0x1005.
Definition SO_RCVTIMEO : Z := 0x1006.
Definition IP_TOS : Z := 3.
Definition IP_TTL : Z := 4.
Definition IP_RECVDSTADDR : Z := 7.
Definition IP_MULTICAST_TTL : Z := 10.
Definition IP_ADD_MEMBERSHIP : Z := 12.
Definition IP_ONESBCAST : Z := 23.
Definition TCP_NODELAY : Z := 1.
Definition TCP_MAXSEG : Z := 2.
Definition SIGIO : Z := 23.
Definition F_SETOWN : Z := 6.
Definition FIOASYNC : Z := 0x8004667d.
Definition EISCONN : Z := 56.

(** The option variables of main.c that are read here. *)
Record flags := Flags {
  debug : Z; dontroute : Z; iptos : Z; ipttl : Z; maxseg : Z; udp : Z; broadcast : Z; onesbcast : Z; joinip : list Z;
  mcastttl : Z; keepalive : Z; nodelay : Z; linger : Z; rcvtimeo : Z; sndtimeo : Z; recvdstaddr : Z; sigio : Z;
  reuseaddr : Z; reuseport : Z; bindport : Z; localip : list Z; connectudp : Z; foreignip : list Z; foreignport : Z;
  listenq : Z; pauselisten : Z }.

(** ** sockopts.c: the steps every option is made of *)
Definition set_opt (sockfd level name : Z) (v : optval) (oname : string) : prog unit :=
  r ← call (Esetsockopt sockfd level name v);
  match r with Ok _ => Ret tt | Err _ => err_sys (str oname ++ str " setsockopt error") end.
Definition get_opt (sockfd level name : Z) (oname : string) : prog optval :=
  r ← call (Egetsockopt sockfd level name);
  match r with Ok v => Ret v | Err _ => err_sys (str oname ++ str " getsockopt error") end.
Definition get_int (sockfd level name : Z) (oname : string) : prog Z :=
  v ← get_opt sockfd level name oname;
  match v with OInt n => Ret n | _ => fault end.
Definition not_set (oname : string) (n : Z) : prog unit := err_quit (str oname ++ str " not set (" ++ fmt_d n ++ str ")").

(** option = 1; setsockopt; option = 0; getsockopt; if (option == 0) err_quit *)
Definition set_flag (o : opts) (sockfd level name : Z) (oname : string) : prog unit :=
  _ ← set_opt sockfd level name (OInt 1) oname;
  option ← get_int sockfd level name oname;
  if option =? 0 then not_set oname option else if_verbose o (str oname ++ str " set").

(** setsockopt; getsockopt; if (option != value) err_quit *)
Definition set_value (o : opts) (sockfd level name value : Z) (oname : string) : prog unit :=
  _ ← set_opt sockfd level name (OInt value) oname;
  option ← get_int sockfd level name oname;
  if negb (option =? value) then not_set oname option else if_verbose o (str oname ++ str " set to " ++ fmt_d value).

Definition set_maxseg (o : opts) (sockfd value : Z) : prog unit :=
  _ ← set_opt sockfd IPPROTO_TCP TCP_MAXSEG (OInt value) "TCP_MAXSEG";
  option ← get_int sockfd IPPROTO_TCP TCP_MAXSEG "TCP_MAXSEG";
  if_verbose o (str "TCP_MAXSEG = " ++ fmt_d option).

Definition set_join `{Platform} (o : opts) (sockfd : Z) (joinip : list Z) : prog unit :=
  match inet_aton joinip with
  | None => err_quit (str "invalid multicast address: " ++ joinip)
  | Some a =>
      _ ← set_opt sockfd IPPROTO_IP IP_ADD_MEMBERSHIP (OMreq (store32 a) INADDR_ANY) "IP_ADD_MEMBERSHIP";
      if_verbose o (str "IP_ADD_MEMBERSHIP set")
  end.

(** u_char ttl = mcastttl *)
Definition set_mcastttl (o : opts) (sockfd mcastttl : Z) : prog unit :=
  _ ← set_opt sockfd IPPROTO_IP IP_MULTICAST_TTL (OChar (u8 mcastttl)) "IP_MULTICAST_TTL";
  v ← get_opt sockfd IPPROTO_IP IP_MULTICAST_TTL "IP_MULTICAST_TTL";
  match v with
  | OChar ttl => if negb (ttl =? mcastttl) then not_set "IP_MULTICAST_TTL" ttl else if_verbose o (str "IP_MULTICAST_TTL set to " ++ fmt_d ttl)
  | _ => fault
  end.

(** l_linger is an int, linger a long. *)
Definition set_linger (o : opts) (sockfd linger : Z) : prog unit :=
  _ ← set_opt sockfd SOL_SOCKET SO_LINGER (OLinger 1 (s32 linger)) "SO_LINGER";
  v ← get_opt sockfd SOL_SOCKET SO_LINGER "SO_LINGER";
  match v with
  | OLinger onoff time =>
      if (onoff =? 0) || negb (time =? linger)
      then err_quit (str "SO_LINGER not set (" ++ fmt_d onoff ++ str ", " ++ fmt_d time ++ str ")")
      else if_verbose o (str "linger " ++ (if negb (onoff =? 0) then str "on" else str "off") ++ str ", time = " ++ fmt_d time)
  | _ => fault
  end.

(** Milliseconds; what is read back is printed only. *)
Definition set_timeo (o : opts) (sockfd name ms : Z) (oname : string) : prog unit :=
  _ ← set_opt sockfd SOL_SOCKET name (OTimeval (Timeval (Z.quot ms 1000) (Z.rem ms 1000 * 1000))) oname;
  v ← get_opt sockfd SOL_SOCKET name oname;
  match v with
  | OTimeval tv => if_verbose o (str oname ++ str ": " ++ fmt_d (tv_sec tv) ++ str "." ++ fmt_06 (tv_usec tv))
  | _ => fault
  end.

(** signal, fcntl, ioctl; the handler only prints. *)
Definition set_sigio (o : opts) (sockfd : Z) : prog unit :=
  _ ← call_ (Esigaction SIGIO (Sigaction 1 [] 0));
  pid ← lib Egetpid;
  r ← call (Efcntl sockfd F_SETOWN pid);
  match r with
  | Err _ => err_sys (str "fcntl F_SETOWN error")
  | Ok _ =>
      r2 ← call (Eioctl sockfd FIOASYNC (IoInt 1));
      match r2 with
      | Err _ => err_sys (str "ioctl FIOASYNC error")
      | Ok _ => if_verbose o (str "FIOASYNC set")
      end
  end.

Definition when (b : bool) (p : prog unit) : prog unit := if b then p else Ret tt.
Definition set (n : Z) : bool := negb (n =? 0).
Arguments set n : simpl never.

(** doall && verbose && udp == 0: just print MSS *)
Definition print_maxseg (sockfd : Z) : prog unit :=
  option ← get_int sockfd IPPROTO_TCP TCP_MAXSEG "TCP_MAXSEG";
  fprintf_stderr (str "TCP_MAXSEG = " ++ fmt_d option).

(** The blocks of sockopts that come before sroute_set and after it. *)
Definition options_before (o : opts) (f : flags) (sockfd doall : Z) : list (bool * prog unit) :=
  [(set (debug f), set_flag o sockfd SOL_SOCKET SO_DEBUG "SO_DEBUG");
   (set (dontroute f), set_flag o sockfd SOL_SOCKET SO_DONTROUTE "SO_DONTROUTE");
   (negb (iptos f =? -1) && negb (set doall), set_value o sockfd IPPROTO_IP IP_TOS (iptos f) "IP_TOS");
   (negb (ipttl f =? -1) && negb (set doall), set_value o sockfd IPPROTO_IP IP_TTL (ipttl f) "IP_TTL");
   (set (maxseg f) && negb (set (udp f)), set_maxseg o sockfd (maxseg f))].
Definition options_after `{Platform} (o : opts) (f : flags) (sockfd doall : Z) : list (bool * prog unit) :=
  [(set (broadcast f), set_flag o sockfd SOL_SOCKET SO_BROADCAST "SO_BROADCAST");
   (set (broadcast f) && set (onesbcast f), set_flag o sockfd IPPROTO_IP IP_ONESBCAST "IP_ONESBCAST");
   (negb (bool_decide (joinip f = [])), set_join o sockfd (joinip f));
   (set (mcastttl f), set_mcastttl o sockfd (mcastttl f));
   (set (keepalive f) && set doall && negb (set (udp f)), set_flag o sockfd SOL_SOCKET SO_KEEPALIVE "SO_KEEPALIVE");
   (set (nodelay f) && set doall && negb (set (udp f)), set_flag o sockfd IPPROTO_TCP TCP_NODELAY "TCP_NODELAY");
   (set doall && set (verbose o) && negb (set (udp f)), print_maxseg sockfd);
   ((0 <=? linger f) && set doall && negb (set (udp f)), set_linger o sockfd (linger f));
   (set doall && set (rcvtimeo f), set_timeo o sockfd SO_RCVTIMEO (rcvtimeo f) "SO_RCVTIMEO");
   (set doall && set (sndtimeo f), set_timeo o sockfd SO_SNDTIMEO (sndtimeo f) "SO_SNDTIMEO");
   (set (recvdstaddr f) && set (udp f), set_flag o sockfd IPPROTO_IP IP_RECVDSTADDR "IP_RECVDSTADDR");
   (set (sigio f), set_sigio o sockfd)].
Fixpoint in_order (l : list (bool * prog unit)) : prog unit :=
  match l with
  | [] => Ret tt
  | (b, p) :: l => _ ← when b p; in_order l
  end.

(** [dest] is servaddr.sin_addr. *)
Definition sockopts `{Platform} `{SockRoute.ULong} (o : opts) (f : flags) (sockfd doall : Z) (dest : list Z) (s : SockRoute.sroute) : prog SockRoute.sroute :=
  _ ← in_order (options_before o f sockfd doall);
  s1 ← (if 0 <? SockRoute.sroute_cnt s then SockRoute.sroute_set sockfd dest s else Ret s);
  _ ← in_order (options_after o f sockfd doall);
  Ret s1.

(** ** multicast.c: IN_MULTICAST on the address as it is in memory *)
Definition IN_MULTICAST (a : Z) : bool := Z.land a 0xf0000000 =? 0xe0000000.
Definition join_mcast `{Platform} (o : opts) (fd : Z) (addr : list Z) : prog unit :=
  let inaddr := if big_endian then undigits 256 addr else undigits 256 (reverse addr) in
  if negb (IN_MULTICAST inaddr) then Ret tt
  else
    r ← call (Esetsockopt fd IPPROTO_IP IP_ADD_MEMBERSHIP (OMreq addr INADDR_ANY));
    match r with
    | Err _ => err_sys (str "IP_ADD_MEMBERSHIP error")
    | Ok _ => if_verbose o (str "multicast group joined")
    end.

(** ** What cliopen and servopen share *)
Definition protocol (f : flags) : list Z := if set (udp f) then str "udp" else str "tcp".
Definition port_text (f : flags) (port : list Z) : list Z := str "getservbyname() error for: " ++ port ++ str "/" ++ protocol f.

Definition open_socket (f : flags) : prog Z :=
  r ← call (Esocket AF_INET (if set (udp f) then SOCK_DGRAM else SOCK_STREAM) 0);
  fd ← (match r with Ok fd => Ret fd | Err _ => err_sys (str "socket() error") end);
  _ ← when (set (reuseaddr f)) (r ← call (Esetsockopt fd SOL_SOCKET SO_REUSEADDR (OInt 1));
         match r with Ok _ => Ret tt | Err _ => err_sys (str "setsockopt of SO_REUSEADDR error") end);
  _ ← when (set (reuseport f)) (r ← call (Esetsockopt fd SOL_SOCKET SO_REUSEPORT (OInt 1));
         match r with Ok _ => Ret tt | Err _ => err_sys (str "setsockopt of SO_REUSEPORT error") end);
  Ret fd.

(** ** cliopen.c *)
Definition cli_port `{Platform} (f : flags) (port : list Z) : prog Z :=
  if s32 (atoi port) =? 0 then
    sp ← lib (Egetservbyname port (protocol f));
    match sp with None => err_quit (port_text f port) | Some p => Ret p end
  else Ret (htons (u16 (atoi port))).

Definition cli_addr `{Platform} (host : list Z) : prog (list Z) :=
  match inet_aton host with
  | Some a => Ret (store32 a)
  | None =>
      hp ← lib (Egethostbyname host);
      match hp with
      | Some h => a ← mem (head (h_addr_list h)); bs ← mem (asub a 0 (h_length h)); mem (memcpy [0; 0; 0; 0] 0 bs)
      | None => err_quit (str "invalid hostname: " ++ host)
      end
  end.

Definition bind_local `{Platform} (f : flags) (fd : Z) : prog unit :=
  when (negb (bindport f =? 0) || negb (bool_decide (localip f = [])) || set (udp f))
    (a ← (if bool_decide (localip f = []) then Ret INADDR_ANY
          else match inet_aton (localip f) with Some a => Ret (store32 a) | None => err_quit (str "invalid IP address: " ++ localip f) end);
     r ← call (Ebind fd (SaIn (SockaddrIn (htons (u16 (bindport f))) a)) 16);
     match r with Ok _ => Ret tt | Err _ => err_sys (str "bind() error") end).

(** for ( ; ; ) connect, again when it was interrupted *)
Fixpoint connect_again (fuel : nat) (fd : Z) (sa : sockaddr) : prog unit :=
  match fuel with
  | O => Halt Spin
  | S n =>
      r ← call (Econnect fd sa 16);
      match r with
      | Ok _ => Ret tt
      | Err _ =>
          e ← get_errno;
          if e =? EINTR then connect_again n fd sa
          else if e =? EISCONN then Ret tt
          else err_sys (str "connect() error")
      end
  end.

Definition dotted (a : list Z) : list Z := match a with [a; b; c; d] => fmt_quad a b c d | _ => [] end.
Definition endpoint `{Platform} (s : sockaddr_in) : list Z := dotted (sin_addr s) ++ str "." ++ fmt_d (ntohs (sin_port s)).
Definition tell_connected `{Platform} (o : opts) (fd : Z) (serv : sockaddr_in) : prog unit :=
  when (set (verbose o))
    (r ← call (Egetsockname fd);
     match r with
     | Ok (SaIn cli, _) =>
         _ ← call_ (Efputs (str "connected on " ++ endpoint cli ++ str " ") stderr);
         call_ (Efputs (str "to " ++ endpoint serv ++ [10]) stderr)
     | Ok _ => fault
     | Err _ => err_sys (str "getsockname() error")
     end).

(** The socket, the buffers and what is left of the source route. *)
Definition cliopen `{Platform} `{SockRoute.ULong} (fuel : nat) (o : opts) (f : flags) (host port : list Z) (rb wb : option Z) (s : SockRoute.sroute)
  : prog (Z * (Z * Z) * SockRoute.sroute) :=
  p ← cli_port f port;
  a ← cli_addr host;
  let serv := SockaddrIn p a in
  fd ← open_socket f;
  _ ← bind_local f fd;
  bufs ← buffers o fd rb wb;
  s1 ← sockopts o f fd 0 a s;
  _ ← when (negb (set (udp f)) || set (connectudp f)) (connect_again fuel fd (SaIn serv));
  _ ← tell_connected o fd serv;
  s2 ← sockopts o f fd 1 a s1;
  Ret (fd, bufs, s2).

(** ** servopen.c, with dofork 0 *)
Definition serv_addr `{Platform} (host : option (list Z)) : prog (list Z) :=
  match host with
  | None => Ret INADDR_ANY
  | Some h => match inet_aton h with Some a => Ret (store32 a) | None => err_quit (str "invalid host name for server: " ++ h) end
  end.

(** err_ret returns, and sp is used. *)
Definition serv_port `{Platform} (f : flags) (port : list Z) : prog Z :=
  if s32 (atoi port) =? 0 then
    sp ← lib (Egetservbyname port (protocol f));
    _ ← (match sp with None => err_ret (port_text f port) | Some _ => Ret tt end);
    mem sp
  else Ret (htons (u16 (atoi port))).

Definition connect_foreign `{Platform} (f : flags) (fd : Z) : prog unit :=
  when (negb (bool_decide (foreignip f = [])))
    (match inet_aton (foreignip f) with
     | None => err_quit (str "invalid IP address: " ++ foreignip f)
     | Some a =>
         r ← call (Econnect fd (SaIn (SockaddrIn (htons (u16 (foreignport f))) (store32 a))) 16);
         match r with Ok _ => Ret tt | Err _ => err_sys (str "connect() error") end
     end).

Definition tell_connection `{Platform} (o : opts) (newfd : Z) (cli : sockaddr) : prog unit :=
  when (set (verbose o))
    (r ← call (Egetsockname newfd);
     match r, cli with
     | Ok (SaIn serv, _), SaIn cli =>
         _ ← call_ (Efputs (str "connection on " ++ endpoint serv ++ str " ") stderr);
         call_ (Efputs (str "from " ++ endpoint cli ++ [10]) stderr)
     | Ok _, _ => fault
     | Err _, _ => err_sys (str "getsockname() error")
     end).

Definition servopen `{Platform} `{SockRoute.ULong} (fuel : nat) (o : opts) (f : flags) (host : option (list Z)) (port : list Z) (rb wb : option Z) (s : SockRoute.sroute)
  : prog (Z * (Z * Z) * SockRoute.sroute) :=
  a ← serv_addr host;
  p ← serv_port f port;
  fd ← open_socket f;
  r ← call (Ebind fd (SaIn (SockaddrIn p a)) 16);
  _ ← (match r with Ok _ => Ret tt | Err _ => err_sys (str "can't bind local address") end);
  _ ← join_mcast o fd a;
  '(r0, w0) ← buffers o fd rb wb;
  if set (udp f) then
    _ ← connect_foreign f fd;
    s1 ← sockopts o f fd 1 a s;
    Ret (fd, (r0, w0), s1)
  else
    s1 ← sockopts o f fd 0 a s;
    _ ← call_ (Elisten fd (listenq f));
    _ ← pause fuel (pauselisten f);
    r2 ← call (Eaccept fd);
    match r2 with
    | Err _ => err_sys (str "accept() error")
    | Ok (newfd, (cli, _)) =>
        _ ← tell_connection o newfd cli;
        bufs2 ← buffers o newfd (Some r0) (Some w0);
        s2 ← sockopts o f newfd 1 a s1;
        Ret (newfd, bufs2, s2)
    end.
End SockOpen.
