(* ===== verification/SockOpenProofs.v ===== *)
(** * The options of the sock program hold when it goes on

    sockopts reads every option back after setting it.  Over any system that
    answers getsockopt with the option's current value and changes an option
    only in a setsockopt of that option (whether setsockopt does what it is
    asked is left open), the options asked for hold when sockopts returns.  The
    argument that a later call does not disturb an earlier option is made on
    the programs: [calls] says which calls a program can make.  With the same
    means: a client that is to join a group never comes to an end. *)
From stdpp Require Import base list numbers strings gmap.
From S2P Require Import Prelude InetAddr Sys Error StreamIO SockAddr Connect Server Hoare SockProg SourceRoute SockOpen.

(** ** The calls a program can make *)
#[local] Transparent call_ call lib mem get_errno put_errno.
Fixpoint calls {A} (P : forall X, sysE X -> Prop) (p : prog A) : Prop :=
  match p with
  | Ret _ => True
  | Sys e c => P _ e /\ forall r, calls P (c r)
  | Lib e c => forall r, calls P (c r)
  | Get c => forall g, calls P (c g)
  | Put _ c => calls P c
  | Halt _ => True
  end.

Lemma calls_bind {A B} P (p : prog A) (f : A -> prog B) : calls P p -> (forall a, calls P (f a)) -> calls P (p ≫= f).
Proof. intros Hp Hf. induction p as [a|X e c IH|X e c IH|c IH|g c IH|h]; cbn in *; naive_solver. Qed.
Lemma calls_mono {A} (P P' : forall X, sysE X -> Prop) (p : prog A) : (forall X e, P X e -> P' X e) -> calls P p -> calls P' p.
Proof. intros H. induction p as [a|X e c IH|X e c IH|c IH|g c IH|h]; cbn in *; naive_solver. Qed.
Lemma calls_call {X} P (e : sysE X) : P X e -> calls P (call e).
Proof. intros He. cbn. split; [done|]. by intros []. Qed.
Lemma calls_call_ {X} P (e : sysE X) : P X e -> calls P (call_ e).
Proof. intros He. unfold call_. apply calls_bind; [by apply calls_call|done]. Qed.
Lemma calls_lib {X} P (e : libE X) : calls P (lib e).
Proof. done. Qed.
Lemma calls_mem {A} P (o : option A) : calls P (mem o).
Proof. by destruct o. Qed.

(** What every call of a program preserves is preserved by the program. *)
Lemma calls_run {K} `{!Kernel K} {A} P (J : K -> Prop) (p : prog A) g k :
  (forall X (e : sysE X) k, P X e -> J k -> J (kcall e k).2) -> (forall X (e : libE X) k, J k -> J (klib e k).2) ->
  calls P p -> J k -> J (run p g k).2.
Proof.
  intros HS HL. revert g k. induction p as [a|X e c IH|X e c IH|c IH|g0 c IH|h]; intros g k Hc HJ; cbn [run]; try done.
  - destruct Hc as [He Hc]. pose proof (HS _ e k He HJ) as H. destruct (kcall e k) as [r k']. by apply IH.
  - pose proof (HL _ e k HJ) as H. destruct (klib e k) as [r k']. by apply IH.
  - by apply IH.
  - by apply IH.
Qed.

Create HintDb callsdb.
#[export] Hint Resolve calls_call calls_call_ calls_lib calls_mem : callsdb.

(** Follow a program through its binds and case distinctions. *)
Ltac calls_step :=
  match goal with
  | |- calls _ (_ ≫= _) => apply calls_bind; [|intros ?]
  | |- calls _ (Ret _) => exact I
  | |- calls _ (Halt _) => exact I
  | |- calls _ fault => exact I
  | |- calls _ get_errno => cbn; done
  | |- calls _ (lib _) => apply calls_lib
  | |- calls _ (mem _) => apply calls_mem
  | |- calls _ (call _) => apply calls_call
  | |- calls _ (call_ _) => apply calls_call_
  | |- calls _ (if ?b then _ else _) => destruct b
  | |- calls _ (match ?x with _ => _ end) => destruct x
  | |- calls _ (let '(_, _) := ?x in _) => destruct x
  end.

Module SockOpenProofs.
Import SockProg SockOpen.

(** ** Options *)
Definition touches (fd l n : Z) {X} (e : sysE X) : bool :=
  match e with
  | Esetsockopt fd' l' n' _ => (fd' =? fd) && (l' =? l) && (n' =? n)
  | Egetsockopt _ _ _ | Efputs _ _ | Efflush _ | Efcntl _ _ _ | Eioctl _ _ _ | Esigaction _ _ => false
  | _ => true
  end.

Definition is_int (n : Z) : Prop := - 2 ^ 31 <= n < 2 ^ 31.
(** The type of an option. *)
Definition typed (l n : Z) (v : optval) : Prop :=
  if (l =? SOL_SOCKET) && (n =? SO_LINGER) then exists a b, v = OLinger a b /\ is_int a /\ is_int b
  else if (l =? SOL_SOCKET) && ((n =? SO_RCVTIMEO) || (n =? SO_SNDTIMEO)) then exists tv, v = OTimeval tv
  else if (l =? IPPROTO_IP) && (n =? IP_MULTICAST_TTL) then exists c, v = OChar c /\ is_int c
  else exists i, v = OInt i /\ is_int i.

Class SettingKernel (K : Type) `{!Kernel K} := {
  current : K -> Z -> Z -> Z -> optval;
  groups : K -> Z -> list (list Z);
  ok_get : forall fd l n v k k', kcall (Egetsockopt fd l n) k = (Ok v, k') -> v = current k' fd l n;
  ok_frame : forall X (e : sysE X) fd l n k, touches fd l n e = false -> current (kcall e k).2 fd l n = current k fd l n;
  ok_frame_lib : forall X (e : libE X) fd l n k, current (klib e k).2 fd l n = current k fd l n;
  ok_typed : forall k fd l n, typed l n (current k fd l n);
  ok_strerror : forall n k, Z.of_nat (length (klib (Estrerror n) k).1) < 1024;
  (** a group is joined by IP_ADD_MEMBERSHIP, which fails for a member; nothing but the end of
      the membership or of the socket undoes it *)
  ok_join : forall fd a i k, 
    match kcall (Esetsockopt fd IPPROTO_IP IP_ADD_MEMBERSHIP (OMreq a i)) k with
    | (Ok _, k') => (a ∈ groups k' fd) /\ (a ∉ groups k fd)
    | _ => True
    end;
  ok_member : forall X (e : sysE X) fd k a, match e with Eclose _ => False | Esetsockopt _ _ n (OMreq _ _) => n = IP_ADD_MEMBERSHIP | _ => True end ->
    a ∈ groups k fd -> a ∈ groups (kcall e k).2 fd;
  ok_member_lib : forall X (e : libE X) fd k a, a ∈ groups k fd -> a ∈ groups (klib e k).2 fd }.

Section Options.
Context {K : Type} `{HK : !Kernel K} `{HO : !SettingKernel K} (o : opts).
Implicit Types (k : K) (g : globals).
Abbreviation W := (wp (fun h => h = Exit 1)).

Definition brief (msg : list Z) : Prop := Z.of_nat (length msg) < 1024.
Lemma wp_fail {A} flag msg (Q : A -> globals -> K -> Prop) g k : brief msg -> W (_ ← err_doit flag msg; Halt (Exit 1)) Q g k.
Proof.
  intros Hm. unfold err_doit, brief in *. apply wp_bind. wp_step. apply wp_bind. eapply wp_mem; [unfold strcat; cbn [length Nat.add]; zbool; unfold MAXLINE in *; lia|].
  assert (W (if flag =? 0 then Ret ([] ++ msg) else es ← lib (Estrerror (errno g)); mem (strcat MAXLINE ([] ++ msg) (str ": " ++ es)))
     (fun s g' k' => Z.of_nat (length s) < 2060) g k) as Hb.
  { cbn [app]. destruct (flag =? 0); [wp_step; lia|]. wp_step. pose proof (ok_strerror (errno g) k) as Hs. rewrite H in Hs. cbn in Hs.
    eapply wp_mem; [unfold strcat; rewrite length_app; cbn [length str]; zbool; unfold MAXLINE in *; cbn in *; lia|]. rewrite !length_app. cbn. lia. }
  eapply wp_seq; [exact Hb|]. cbv beta. intros s g1 k1 Hs. apply wp_bind.
  eapply wp_mem; [unfold strcat; cbn [length]; zbool; unfold MAXLINE in *; lia|]. do 3 wp_step. by apply wp_halt.
Qed.

(** An option asked for: its level, its name and what its value is to be. *)
Definition wish : Type := Z * Z * (optval -> Prop).
Definition granted (fd : Z) k (w : wish) : Prop := w.2 (current k fd w.1.1 w.1.2).
Definition nonzero (v : optval) : Prop := exists n, v = OInt n /\ n <> 0.

Lemma fmt_int n : is_int n -> (length (fmt_d n) <= 20)%nat.
Proof.
  unfold is_int, fmt_d. intros Hn. destruct (Z.ltb_spec n 0); cbn [length];
    [pose proof (fmt_u_length (- n) 19)|pose proof (fmt_u_length n 19)]; change (10 ^ Z.of_nat 19) with (10 ^ 19) in *; lia.
Qed.

(** The steps. *)
Definition named (s : string) : Prop := (length (str s) <= 32)%nat.

Lemma wp_set_opt fd l n v s (Q : unit -> globals -> K -> Prop) g k :
  named s -> (forall k', Q tt g k') -> W (set_opt fd l n v s) Q g k.
Proof.
  intros Hs HQ. unfold set_opt. apply wp_bind, wp_call; intros r k' E; [by apply wp_ret|].
  apply wp_fail. unfold named, brief in *. rewrite length_app. cbn. lia.
Qed.
Lemma wp_get_opt fd l n s (Q : optval -> globals -> K -> Prop) g k :
  named s -> (forall k', Q (current k' fd l n) g k') -> W (get_opt fd l n s) Q g k.
Proof.
  intros Hs HQ. unfold get_opt. apply wp_bind, wp_call; intros v k' E.
  - apply ok_get in E as ->. by apply wp_ret.
  - apply wp_fail. unfold named, brief in *. rewrite length_app. cbn. lia.
Qed.
Definition int_option (l n : Z) : Prop := forall v, typed l n v -> exists i, v = OInt i /\ is_int i.
Lemma wp_get_int fd l n s (Q : Z -> globals -> K -> Prop) g k :
  named s -> int_option l n -> (forall i k', current k' fd l n = OInt i -> is_int i -> Q i g k') -> W (get_int fd l n s) Q g k.
Proof.
  intros Hs Hi HQ. unfold get_int. apply wp_bind, wp_get_opt; [done|]. intros k'.
  destruct (Hi _ (ok_typed k' fd l n)) as (i & E & Hr). rewrite E. apply wp_ret. by apply HQ.
Qed.
Lemma wp_not_set s n (Q : unit -> globals -> K -> Prop) g k : named s -> is_int n -> W (not_set s n) Q g k.
Proof.
  intros Hs Hn. apply wp_fail. pose proof (fmt_int n Hn). unfold named, brief in *. rewrite !length_app. cbn in *. lia.
Qed.

(** The option survives a program that does not touch it. *)
Lemma granted_calls {A} fd (w : wish) (p : prog A) g k :
  calls (fun _ e => touches fd w.1.1 w.1.2 e = false) p -> granted fd k w -> granted fd (run p g k).2 w.
Proof.
  intros Hc. apply (calls_run (fun _ e => touches fd w.1.1 w.1.2 e = false) (fun k => granted fd k w)); [| |done].
  - intros X e k1 He H. unfold granted. by rewrite ok_frame.
  - intros X e k1 H. unfold granted. by rewrite ok_frame_lib.
Qed.
Lemma wp_granted {A} fd (w : wish) (p : prog A) (Q : A -> globals -> K -> Prop) g k :
  calls (fun _ e => touches fd w.1.1 w.1.2 e = false) p -> granted fd k w -> W p Q g k ->
  W p (fun a g' k' => Q a g' k' /\ granted fd k' w) g k.
Proof.
  intros Hc HG. pose proof (granted_calls fd w p g k Hc HG) as H. rewrite !wp_run. destruct (run p g k) as [[[a|h] g'] k']; [|done]. done.
Qed.

Lemma calls_if_verbose (P : forall X, sysE X -> Prop) msg : (forall s fp, P _ (Efputs s fp)) -> calls P (if_verbose o msg).
Proof. intros HP. unfold if_verbose, fprintf_stderr. destruct (_ =? 0); [done|]. apply calls_call_, HP. Qed.
Lemma wp_verbose_granted fd w msg g k : granted fd k w -> W (if_verbose o msg) (fun _ _ k' => granted fd k' w) g k.
Proof.
  intros HG. eapply wp_mono; [apply (wp_granted fd w _ (fun _ _ _ => True)); [by apply calls_if_verbose|done|]|by intros ? ? ? []].
  unfold if_verbose, fprintf_stderr. destruct (_ =? 0); by wp_step.
Qed.

Lemma set_flag_grants fd l n s g k : named s -> int_option l n ->
  W (set_flag o fd l n s) (fun _ _ k' => granted fd k' (l, n, nonzero)) g k.
Proof.
  intros Hs Hi. unfold set_flag. apply wp_bind, wp_set_opt; [done|]. intros k1. apply wp_bind, wp_get_int; [done|done|]. intros i k2 E Hr.
  destruct (Z.eqb_spec i 0) as [->|Hne]; [by apply wp_not_set|]. apply wp_verbose_granted. unfold granted. cbn. rewrite E. by exists i.
Qed.
Lemma set_value_grants fd l n v s g k : named s -> int_option l n ->
  W (set_value o fd l n v s) (fun _ _ k' => granted fd k' (l, n, fun x => x = OInt v)) g k.
Proof.
  intros Hs Hi. unfold set_value. apply wp_bind, wp_set_opt; [done|]. intros k1. apply wp_bind, wp_get_int; [done|done|]. intros i k2 E Hr.
  destruct (Z.eqb_spec i v) as [->|Hne]; cbn [negb]; [|by apply wp_not_set]. by apply wp_verbose_granted.
Qed.
Lemma set_mcastttl_grants fd v g k :
  W (set_mcastttl o fd v) (fun _ _ k' => granted fd k' (IPPROTO_IP, IP_MULTICAST_TTL, fun x => x = OChar v)) g k.
Proof.
  unfold set_mcastttl. apply wp_bind, wp_set_opt; [unfold named; cbn; lia|]. intros k1. apply wp_bind, wp_get_opt; [unfold named; cbn; lia|]. intros k2.
  destruct (ok_typed k2 fd IPPROTO_IP IP_MULTICAST_TTL) as (c & E & Hr). rewrite E.
  destruct (Z.eqb_spec c v) as [->|Hne]; cbn [negb]; [by apply wp_verbose_granted|apply wp_not_set; [unfold named; cbn; lia|done]].
Qed.
Lemma set_linger_grants fd v g k :
  W (set_linger o fd v) (fun _ _ k' => granted fd k' (SOL_SOCKET, SO_LINGER, fun x => exists on, x = OLinger on v /\ on <> 0)) g k.
Proof.
  unfold set_linger. apply wp_bind, wp_set_opt; [unfold named; cbn; lia|]. intros k1. apply wp_bind, wp_get_opt; [unfold named; cbn; lia|]. intros k2.
  destruct (ok_typed k2 fd SOL_SOCKET SO_LINGER) as (a & b & E & Ha & Hb). rewrite E.
  destruct (Z.eqb_spec a 0) as [Ha0|Ha0]; cbn [orb].
  2: destruct (Z.eqb_spec b v) as [->|Hne]; cbn [negb]; [apply wp_verbose_granted; unfold granted; cbn; rewrite E; by exists a|].
  all: apply wp_fail; pose proof (fmt_int a Ha); pose proof (fmt_int b Hb); unfold brief; rewrite !length_app; cbn in *; lia.
Qed.

(** ** The blocks in order *)

(** A block sets at most the option [key]. *)
Definition sets_only (key : Z * Z) X (e : sysE X) : Prop :=
  match e with
  | Esetsockopt _ l n _ => (l, n) = key
  | Egetsockopt _ _ _ | Efputs _ _ | Efflush _ | Efcntl _ _ _ | Eioctl _ _ _ | Esigaction _ _ => True
  | _ => False
  end.
Record block := Block { b_on : bool; b_prog : prog unit; b_key : Z * Z; b_want : option (optval -> Prop) }.
Definition b_wish (b : block) : option wish := if b_on b then (fun P => (b_key b, P)) <$> b_want b else None.
Definition sound (fd : Z) (b : block) : Prop :=
  calls (sets_only (b_key b)) (b_prog b) /\
  forall g k, W (b_prog b) (fun _ _ k' => match b_want b with Some P => granted fd k' (b_key b, P) | None => True end) g k.

Lemma sets_only_touches key fd (w : wish) X (e : sysE X) : w.1 <> key -> sets_only key X e -> touches fd w.1.1 w.1.2 e = false.
Proof.
  destruct w as [[l n] P]. cbn. intros Hne He. destruct e; try done. cbn in *.
  destruct (Z.eqb_spec fd0 fd), (Z.eqb_spec level l), (Z.eqb_spec optname n); subst; done.
Qed.

Lemma wp_block fd b (held : list wish) (Q : unit -> globals -> K -> Prop) g k :
  sound fd b -> Forall (granted fd k) held -> Forall (fun w : wish => w.1 <> b_key b) held ->
  (forall g' k', Forall (granted fd k') (held ++ option_list (b_wish b)) -> Q tt g' k') -> W (when (b_on b) (b_prog b)) Q g k.
Proof.
  intros [Hc Hw] HG HN HQ. unfold b_wish in HQ. destruct (b_on b); cbn [when]; [|wp_step; apply HQ; by rewrite app_nil_r].
  specialize (Hw g k).
  assert (Forall (granted fd (run (b_prog b) g k).2) held) as HG'.
  { rewrite Forall_forall in *. intros w Hin. apply granted_calls; [|by apply HG]. eapply calls_mono; [|exact Hc]. intros X e. apply sets_only_touches. by apply HN. }
  rewrite wp_run in *. destruct (run (b_prog b) g k) as [[[[]|h] g'] k']; [|done]. apply HQ. apply Forall_app. split; [done|].
  destruct (b_want b); cbn; [by apply Forall_singleton|constructor].
Qed.

Definition blocks (l : list block) : list (bool * prog unit) := map (fun b => (b_on b, b_prog b)) l.
Definition wishes (l : list block) : list wish := concat (map (fun b => option_list (b_wish b)) l).

Lemma b_wish_key b w : w ∈ option_list (b_wish b) -> w.1 = b_key b.
Proof.
  unfold b_wish. destruct (b_on b), (b_want b); cbn; intros H; try (by apply elem_of_nil in H). by apply list_elem_of_singleton in H as ->.
Qed.

Lemma wp_in_order fd l : forall (held : list wish) (Q : unit -> globals -> K -> Prop) g k,
  Forall (sound fd) l -> NoDup (map b_key l) -> Forall (granted fd k) held -> (forall w, w ∈ held -> w.1 ∉ map b_key l) ->
  (forall g' k', Forall (granted fd k') (held ++ wishes l) -> Q tt g' k') -> W (in_order (blocks l)) Q g k.
Proof.
  induction l as [|b l IH]; intros held Q g k HS HN HG HD HQ; cbn [blocks map in_order].
  { wp_step. apply HQ. by rewrite app_nil_r. }
  apply Forall_cons in HS as [Hb HS]. cbn [map] in HN. apply NoDup_cons in HN as [Hnb HN]. cbn [map] in HD.
  apply wp_bind, (wp_block fd b held); [done|done| |].
  { apply Forall_forall. intros w Hw E. apply (HD w Hw). rewrite E. apply list_elem_of_here. }
  intros g1 k1 HG1. apply (IH (held ++ option_list (b_wish b))); [done|done|done| |].
  - intros w [Hw|Hw]%elem_of_app; [|by rewrite (b_wish_key b w Hw)]. intros Hin. apply (HD w Hw). by right.
  - intros g2 k2 HG2. apply HQ. unfold wishes in *. cbn [map concat]. by rewrite app_assoc.
Qed.

(** The blocks of sockopts with the option each is about. *)
Section Blocks.
Context `{HP : Platform} (f : flags) (fd doall : Z).
Definition flag_block (on : bool) (l n : Z) (s : string) : block := Block on (set_flag o fd l n s) (l, n) (Some nonzero).
Definition value_block (on : bool) (l n v : Z) (s : string) : block := Block on (set_value o fd l n v s) (l, n) (Some (fun x => x = OInt v)).

Definition before : list block :=
  [flag_block (set (debug f)) SOL_SOCKET SO_DEBUG "SO_DEBUG";
   flag_block (set (dontroute f)) SOL_SOCKET SO_DONTROUTE "SO_DONTROUTE";
   value_block (negb (iptos f =? -1) && negb (set doall)) IPPROTO_IP IP_TOS (iptos f) "IP_TOS";
   value_block (negb (ipttl f =? -1) && negb (set doall)) IPPROTO_IP IP_TTL (ipttl f) "IP_TTL";
   Block (set (maxseg f) && negb (set (udp f))) (set_maxseg o fd (maxseg f)) (IPPROTO_TCP, TCP_MAXSEG) None].
Definition after : list block :=
  [flag_block (set (broadcast f)) SOL_SOCKET SO_BROADCAST "SO_BROADCAST";
   flag_block (set (broadcast f) && set (onesbcast f)) IPPROTO_IP IP_ONESBCAST "IP_ONESBCAST";
   Block (negb (bool_decide (joinip f = []))) (set_join o fd (joinip f)) (IPPROTO_IP, IP_ADD_MEMBERSHIP) None;
   Block (set (mcastttl f)) (set_mcastttl o fd (mcastttl f)) (IPPROTO_IP, IP_MULTICAST_TTL) (Some (fun x => x = OChar (mcastttl f)));
   flag_block (set (keepalive f) && set doall && negb (set (udp f))) SOL_SOCKET SO_KEEPALIVE "SO_KEEPALIVE";
   flag_block (set (nodelay f) && set doall && negb (set (udp f))) IPPROTO_TCP TCP_NODELAY "TCP_NODELAY";
   Block (set doall && set (verbose o) && negb (set (udp f))) (print_maxseg fd) (-1, 0) None;
   Block ((0 <=? linger f) && set doall && negb (set (udp f))) (set_linger o fd (linger f)) (SOL_SOCKET, SO_LINGER)
     (Some (fun x => exists on, x = OLinger on (linger f) /\ on <> 0));
   Block (set doall && set (rcvtimeo f)) (set_timeo o fd SO_RCVTIMEO (rcvtimeo f) "SO_RCVTIMEO") (SOL_SOCKET, SO_RCVTIMEO) None;
   Block (set doall && set (sndtimeo f)) (set_timeo o fd SO_SNDTIMEO (sndtimeo f) "SO_SNDTIMEO") (SOL_SOCKET, SO_SNDTIMEO) None;
   flag_block (set (recvdstaddr f) && set (udp f)) IPPROTO_IP IP_RECVDSTADDR "IP_RECVDSTADDR";
   Block (set (sigio f)) (set_sigio o fd) (-1, 1) None].

Lemma blocks_before : blocks before = options_before o f fd doall.
Proof. done. Qed.
Lemma blocks_after : blocks after = options_after o f fd doall.
Proof. done. Qed.

Ltac only_calls :=
  unfold set_flag, set_value, set_maxseg, set_join, set_mcastttl, set_linger, set_timeo, set_sigio, print_maxseg,
    get_int, set_opt, get_opt, not_set, err_quit, err_sys, err_doit, if_verbose, fprintf_stderr; repeat calls_step; cbn; done.
Ltac name_tac := unfold named; cbn; lia.
Ltac int_tac := intros ? Ht; exact Ht.

Lemma flag_sound on l n s : named s -> int_option l n -> sound fd (flag_block on l n s).
Proof. intros Hs Hi. split; cbn [b_prog b_key b_want flag_block]; [only_calls|]. intros. by apply set_flag_grants. Qed.
Lemma value_sound on l n v s : named s -> int_option l n -> sound fd (value_block on l n v s).
Proof. intros Hs Hi. split; cbn [b_prog b_key b_want value_block]; [only_calls|]. intros. by apply set_value_grants. Qed.
Lemma wp_verbose msg (Q : unit -> globals -> K -> Prop) g k : (forall g' k', Q tt g' k') -> W (if_verbose o msg) Q g k.
Proof. intros HQ. unfold if_verbose, fprintf_stderr. destruct (_ =? 0); by wp_step. Qed.

Lemma timeo_sound on name ms s : named s -> (forall v, typed SOL_SOCKET name v -> exists tv, v = OTimeval tv) ->
  sound fd (Block on (set_timeo o fd name ms s) (SOL_SOCKET, name) None).
Proof.
  intros Hs Ht. split; cbn [b_prog b_key b_want]; [only_calls|]. intros g k. unfold set_timeo. apply wp_bind, wp_set_opt; [done|]. intros k1.
  apply wp_bind, wp_get_opt; [done|]. intros k2. destruct (Ht _ (ok_typed k2 fd SOL_SOCKET name)) as [tv ->]. by apply wp_verbose.
Qed.
Lemma maxseg_sound on v : sound fd (Block on (set_maxseg o fd v) (IPPROTO_TCP, TCP_MAXSEG) None).
Proof.
  split; cbn [b_prog b_key b_want]; [only_calls|]. intros g k. unfold set_maxseg. apply wp_bind, wp_set_opt; [name_tac|]. intros k1.
  apply wp_bind, wp_get_int; [name_tac|int_tac|]. intros. by apply wp_verbose.
Qed.
Lemma print_sound on : sound fd (Block on (print_maxseg fd) (-1, 0) None).
Proof.
  split; cbn [b_prog b_key b_want]; [only_calls|]. intros g k. unfold print_maxseg, fprintf_stderr. apply wp_bind, wp_get_int; [name_tac|int_tac|]. intros. by wp_step.
Qed.
Lemma join_sound on : brief (str "invalid multicast address: " ++ joinip f) -> sound fd (Block on (set_join o fd (joinip f)) (IPPROTO_IP, IP_ADD_MEMBERSHIP) None).
Proof.
  intros Hj. split; cbn [b_prog b_key b_want]; [only_calls|]. intros g k. unfold set_join. destruct (inet_aton (joinip f)); [|by apply wp_fail].
  apply wp_bind, wp_set_opt; [name_tac|]. intros. by apply wp_verbose.
Qed.
Lemma sigio_sound on : sound fd (Block on (set_sigio o fd) (-1, 1) None).
Proof.
  split; cbn [b_prog b_key b_want]; [only_calls|]. intros g k. unfold set_sigio. wp_step. wp_step.
  apply wp_bind, wp_call; intros; [|apply wp_fail; by vm_compute]. apply wp_bind, wp_call; intros; [by apply wp_verbose|apply wp_fail; by vm_compute].
Qed.

Lemma before_sound : Forall (sound fd) before.
Proof.
  unfold before. repeat (apply Forall_cons; split); try apply Forall_nil_2; try (apply flag_sound; [name_tac|int_tac]); try (apply value_sound; [name_tac|int_tac]). apply maxseg_sound.
Qed.
Lemma after_sound : brief (str "invalid multicast address: " ++ joinip f) -> Forall (sound fd) after.
Proof.
  intros Hj. unfold after. repeat (apply Forall_cons; split); try apply Forall_nil_2; try (apply flag_sound; [name_tac|int_tac]).
  - by apply join_sound.
  - split; cbn [b_prog b_key b_want]; [only_calls|]. intros. apply set_mcastttl_grants.
  - apply print_sound.
  - split; cbn [b_prog b_key b_want]; [only_calls|]. intros. apply set_linger_grants.
  - apply timeo_sound; [name_tac|int_tac].
  - apply timeo_sound; [name_tac|int_tac].
  - apply sigio_sound.
Qed.
Lemma keys_distinct : NoDup (map b_key (before ++ after)).
Proof. apply (bool_decide_unpack _). by vm_compute. Qed.

Lemma wp_sockopts `{SockRoute.ULong} dest s (Q : SockRoute.sroute -> globals -> K -> Prop) g k :
  SockRoute.sroute_cnt s <= 0 -> brief (str "invalid multicast address: " ++ joinip f) ->
  (forall g' k', Forall (granted fd k') (wishes before ++ wishes after) -> Q s g' k') -> W (sockopts o f fd doall dest s) Q g k.
Proof.
  intros Hs Hj HQ. unfold sockopts. pose proof keys_distinct as HN. rewrite map_app in HN. apply NoDup_app in HN as (HN1 & HD & HN2).
  rewrite <- blocks_before, <- blocks_after. apply wp_bind, (wp_in_order fd before []); [apply before_sound|done|constructor|by intros w ?%elem_of_nil|].
  cbn [app]. intros g1 k1 HG1. destruct (Z.ltb_spec 0 (SockRoute.sroute_cnt s)); [lia|]. apply wp_bind, wp_ret, wp_bind.
  apply (wp_in_order fd after (wishes before)); [by apply after_sound|done|done| |].
  - intros w Hw. apply HD. unfold wishes in Hw. apply list_elem_of_In, in_concat in Hw as (l & Hl & Hw). apply in_map_iff in Hl as (b & <- & Hb).
    rewrite (b_wish_key b w) by (by apply list_elem_of_In). by apply list_elem_of_In, in_map.
  - intros g2 k2 HG2. wp_step. by apply HQ.
Qed.
End Blocks.
End Options.

(** ** When sockopts returns *)
Definition options_hold {K} `{HK : !Kernel K} `{HO : !SettingKernel K} (f : flags) (doall fd : Z) (k : K) : Prop :=
  let tcp := negb (set (udp f)) in
  (set (debug f) = true -> nonzero (current k fd SOL_SOCKET SO_DEBUG)) /\
  (set (dontroute f) = true -> nonzero (current k fd SOL_SOCKET SO_DONTROUTE)) /\
  (negb (iptos f =? -1) && negb (set doall) = true -> current k fd IPPROTO_IP IP_TOS = OInt (iptos f)) /\
  (negb (ipttl f =? -1) && negb (set doall) = true -> current k fd IPPROTO_IP IP_TTL = OInt (ipttl f)) /\
  (set (broadcast f) = true -> nonzero (current k fd SOL_SOCKET SO_BROADCAST)) /\
  (set (broadcast f) && set (onesbcast f) = true -> nonzero (current k fd IPPROTO_IP IP_ONESBCAST)) /\
  (set (mcastttl f) = true -> current k fd IPPROTO_IP IP_MULTICAST_TTL = OChar (mcastttl f)) /\
  (set (keepalive f) && set doall && tcp = true -> nonzero (current k fd SOL_SOCKET SO_KEEPALIVE)) /\
  (set (nodelay f) && set doall && tcp = true -> nonzero (current k fd IPPROTO_TCP TCP_NODELAY)) /\
  ((0 <=? linger f) && set doall && tcp = true -> exists on, current k fd SOL_SOCKET SO_LINGER = OLinger on (linger f) /\ on <> 0) /\
  (set (recvdstaddr f) && set (udp f) = true -> nonzero (current k fd IPPROTO_IP IP_RECVDSTADDR)).

Lemma wishes_granted {K} `{HK : !Kernel K} `{HO : !SettingKernel K} fd (k : K) l b P :
  Forall (granted fd k) (wishes l) -> b ∈ l -> b_want b = Some P -> b_on b = true -> granted fd k (b_key b, P).
Proof.
  intros HF Hb HP Hon. rewrite Forall_forall in HF. apply HF. unfold wishes. apply list_elem_of_In, in_concat.
  exists (option_list (b_wish b)). split; [apply in_map_iff; exists b; split; [done|by apply list_elem_of_In]|].
  unfold b_wish. rewrite Hon, HP. by left.
Qed.


(** ** A client that joins a group *)
Section Join.
Context {K : Type} `{HK : !Kernel K} `{HO : !SettingKernel K} `{HP : Platform} `{HU : SockRoute.ULong} (o : opts) (f : flags) (fd : Z) (a : Z).
Implicit Types (k : K) (g : globals).
Hypothesis Hjoin : joinip f <> [].
Hypothesis Haddr : inet_aton (joinip f) = Some a.
Abbreviation P := (wp (fun _ => True)).

Definition member k : Prop := store32 a ∈ groups k fd.
(** The calls that end no membership. *)
Definition stays X (e : sysE X) : Prop :=
  match e with Eclose _ => False | Esetsockopt _ _ n (OMreq _ _) => n = IP_ADD_MEMBERSHIP | _ => True end.

Lemma wp_stays {A} (p : prog A) g k : calls stays p -> member k -> P p (fun _ _ k' => member k') g k.
Proof.
  intros Hc HM. pose proof (calls_run stays member p g k) as H. rewrite wp_run.
  assert (member (run p g k).2) as H2.
  { apply H; [|intros; by apply ok_member_lib|done|done]. intros X e k1 He HM1. apply ok_member; [by destruct e|done]. }
  by destruct (run p g k) as [[[x|h] g'] k'].
Qed.
Lemma wp_any {A} (p : prog A) g k : P p (fun _ _ (_ : K) => True) g k.
Proof. rewrite wp_run. by destruct (run p g k) as [[[x|h] g'] k']. Qed.

Ltac stay_tac :=
  cbn [snd]; unfold set_flag, set_value, set_maxseg, set_join, set_mcastttl, set_linger, set_timeo, set_sigio, print_maxseg, SockRoute.sroute_set,
    get_int, set_opt, get_opt, not_set, err_quit, err_sys, err_doit, if_verbose, fprintf_stderr, tell_connected, when; repeat calls_step; cbn; done.

Lemma in_order_stays l : Forall (fun b => calls stays b.2) l -> calls stays (in_order l).
Proof. induction 1 as [|[b p] l Hp _ IH]; cbn [in_order]; [done|]. apply calls_bind; [unfold when; by destruct b|done]. Qed.
Lemma before_stays doall : calls stays (in_order (options_before o f fd doall)).
Proof. apply in_order_stays. unfold options_before. repeat (apply Forall_cons; split); try apply Forall_nil_2; stay_tac. Qed.
Lemma after_stays doall : calls stays (in_order (options_after o f fd doall)).
Proof. apply in_order_stays. unfold options_after. repeat (apply Forall_cons; split); try apply Forall_nil_2; stay_tac. Qed.
Lemma route_stays dest s : calls stays (if 0 <? SockRoute.sroute_cnt s then SockRoute.sroute_set fd dest s else Ret s).
Proof.
  destruct (0 <? _); [|exact I]. unfold SockRoute.sroute_set. cbv zeta. repeat (apply calls_bind; [apply calls_mem|intros ?]).
  apply calls_bind; [by apply calls_call|]. intros [|]; [exact I|]. stay_tac.
Qed.
Lemma connect_stays fuel sa : calls stays (connect_again fuel fd sa).
Proof.
  induction fuel as [|n IH]; cbn [connect_again]; [done|]. apply calls_bind; [by apply calls_call|]. intros [|]; [done|].
  apply calls_bind; [done|]. intros en. destruct (_ =? _); [done|]. destruct (_ =? _); [done|]. stay_tac.
Qed.

(** The blocks behind the join. *)
Lemma wp_after_join doall g k : member k ->
  P (in_order (drop 3 (options_after o f fd doall))) (fun _ _ k' => member k') g k.
Proof.
  apply wp_stays, in_order_stays. unfold options_after. cbn [drop]. repeat (apply Forall_cons; split); try apply Forall_nil_2; stay_tac.
Qed.

(** set_join comes third: it returns only to a new member. *)
Lemma wp_to_join doall (M : K -> Prop) g k :
  (forall p : prog unit, calls stays p -> forall g k, M k -> P p (fun _ _ k' => M k') g k) -> M k ->
  P (in_order (options_after o f fd doall)) (fun _ _ k' => member k' /\ exists k0, M k0 /\ ~ member k0) g k.
Proof.
  intros HM Hk. unfold options_after. cbn [in_order]. apply wp_bind. eapply wp_mono; [apply HM; [stay_tac|exact Hk]|]. cbv beta. intros _ g1 k1 H1.
  apply wp_bind. eapply wp_mono; [apply HM; [stay_tac|exact H1]|]. cbv beta. intros _ g2 k2 H2. rewrite bool_decide_eq_false_2 by done. cbn [negb when].
  apply wp_bind. unfold set_join. rewrite Haddr. apply wp_bind. unfold set_opt. pose proof (ok_join fd (store32 a) INADDR_ANY k2) as HJ.
  apply wp_bind, wp_call; intros v k3 E; rewrite E in HJ; [|unfold err_sys; apply wp_bind; eapply wp_mono; [apply wp_any|]; intros; by apply wp_halt].
  destruct HJ as [HJ HN]. apply wp_ret. eapply wp_mono; [apply (wp_stays _ _ k3); [stay_tac|exact HJ]|]. cbv beta. intros _ g4 k4 H4.
  eapply wp_mono; [apply (wp_after_join doall _ k4 H4)|]. cbv beta. intros _ _ k5 H5. split; [done|]. by exists k2.
Qed.

(** Once a member, sockopts does not return. *)
Lemma wp_sockopts_again doall dest s (Q : SockRoute.sroute -> globals -> K -> Prop) g k : member k -> P (sockopts o f fd doall dest s) Q g k.
Proof.
  intros HM. unfold sockopts. apply wp_bind. eapply wp_mono; [apply (wp_stays _ _ k (before_stays doall) HM)|]. cbv beta. intros _ g1 k1 H1.
  apply wp_bind. eapply wp_mono; [apply (wp_stays _ _ k1 (route_stays dest s) H1)|]. cbv beta. intros s2 g2 k2 H2.
  apply wp_bind. eapply wp_mono; [apply (wp_to_join doall member _ k2); [intros p Hp g' k'; by apply wp_stays|exact H2]|].
  cbv beta. intros _ g3 k3 (_ & k0 & Hm & Hn). done.
Qed.
Lemma wp_sockopts_first doall dest s g k : P (sockopts o f fd doall dest s) (fun _ _ k' => member k') g k.
Proof.
  unfold sockopts. apply wp_bind. eapply wp_mono; [apply wp_any|]. intros _ g1 k1 _. apply wp_bind. eapply wp_mono; [apply wp_any|]. intros s2 g2 k2 _.
  apply wp_bind. eapply wp_mono; [apply (wp_to_join doall (fun _ => True) _ k2); [intros; apply wp_any|done]|]. cbv beta. intros _ g3 k3 [H3 _]. by wp_step.
Qed.
End Join.

(** cliopen calls sockopts before and after the connection, and sockopts joins the group both times: the second time the
    socket is a member already, so a client with -j never gets to exchange data. *)
Theorem cliopen_join_fails {K : Type} `{HK : !Kernel K} `{HO : !SettingKernel K} `{HP : Platform} `{SockRoute.ULong}
    (o : opts) (f : flags) fuel host port rb wb s (a : Z) (g : globals) (k : K) :
  joinip f <> [] -> inet_aton (joinip f) = Some a ->
  forall r g' k', run (cliopen fuel o f host port rb wb s) g k <> (Done r, g', k').
Proof.
  intros Hj Ha r g' k' E.
  assert (wp (fun _ => True) (cliopen fuel o f host port rb wb s) (fun _ _ (_ : K) => False) g k) as W; [|by rewrite wp_run, E in W]. clear E.
  unfold cliopen. apply wp_bind. eapply wp_mono; [apply wp_any|]. intros p g1 k1 _. apply wp_bind. eapply wp_mono; [apply wp_any|]. intros ad g2 k2 _. cbv zeta.
  apply wp_bind. eapply wp_mono; [apply wp_any|]. intros fd g3 k3 _. apply wp_bind. eapply wp_mono; [apply wp_any|]. intros _ g4 k4 _.
  apply wp_bind. eapply wp_mono; [apply wp_any|]. intros b g5 k5 _.
  apply wp_bind. eapply wp_mono; [by apply (wp_sockopts_first o f fd a)|]. cbv beta. intros s1 g6 k6 H6.
  apply wp_bind. eapply wp_mono; [apply (wp_stays fd a _ _ k6); [unfold when; destruct (_ || _); [apply connect_stays|done]|exact H6]|]. cbv beta. intros _ g7 k7 H7.
  apply wp_bind. eapply wp_mono; [apply (wp_stays fd a _ _ k7); [|exact H7]|].
  { unfold tell_connected, err_sys, err_doit, when. repeat calls_step; cbn; done. }
  cbv beta. intros _ g8 k8 H8. apply wp_bind. by apply (wp_sockopts_again o f fd a).
Qed.

(** IN_MULTICAST expects an address in host byte order: on a little-endian host join_mcast takes 224.0.0.1 for a unicast
    address, does nothing, and would join 1.0.0.224. *)
Theorem join_mcast_byte_order (o : opts) (fd : Z) :
  join_mcast (H := x86_64) o fd [224; 0; 0; 1] = Ret tt /\ join_mcast (H := x86_64) o fd [1; 0; 0; 224] <> Ret tt /\
  join_mcast (H := sparc64) o fd [224; 0; 0; 1] <> Ret tt.
Proof. split; [reflexivity|]. split; discriminate. Qed.

(** ** A system to run it on *)
Record table := Table { t_vals : gmap (Z * Z * Z) optval; t_groups : gmap Z (list (list Z)) }.

(** What is stored for an option, in the option's type. *)
Definition coerce (l n : Z) (v : option optval) : optval :=
  if (l =? SOL_SOCKET) && (n =? SO_LINGER) then match v with Some (OLinger a b) => OLinger (s32 a) (s32 b) | _ => OLinger 0 0 end
  else if (l =? SOL_SOCKET) && ((n =? SO_RCVTIMEO) || (n =? SO_SNDTIMEO)) then match v with Some (OTimeval tv) => OTimeval tv | _ => OTimeval (Timeval 0 0) end
  else if (l =? IPPROTO_IP) && (n =? IP_MULTICAST_TTL) then match v with Some (OChar c) => OChar (s32 c) | _ => OChar 0 end
  else match v with Some (OInt i) => OInt (s32 i) | _ => OInt 0 end.
Definition t_current (k : table) (fd l n : Z) : optval := coerce l n (t_vals k !! (fd, l, n)).
Definition t_members (k : table) (fd : Z) : list (list Z) := default [] (t_groups k !! fd).

#[export] Instance table_kernel : Kernel table := {|
  kcall X e :=
    match e in sysE X return table -> res X * table with
    | Egetsockopt fd l n => fun k => (Ok (t_current k fd l n), k)
    | Esetsockopt fd l n v => fun k =>
        match v with
        | OMreq a _ =>
            if (l =? IPPROTO_IP) && (n =? IP_ADD_MEMBERSHIP) && bool_decide (a ∉ t_members k fd)
            then (Ok tt, Table (t_vals k) (<[fd := a :: t_members k fd]> (t_groups k))) else (Err EINVAL, k)
        | _ => (Ok tt, Table (<[(fd, l, n) := v]> (t_vals k)) (t_groups k))
        end
    | Efputs _ _ => fun k => (Ok tt, k)
    | Efflush _ => fun k => (Ok tt, k)
    | _ => fun k => (Err ENOSYS, k)
    end;
  klib X e k := ((@klib unit (failing_kernel ENOSYS) _ e tt).1, k) |}.

Lemma s32_int z : is_int (s32 z).
Proof.
  unfold is_int, s32, sint, wrap. cbv zeta. pose proof (Z.mod_pos_bound z (2 ^ 32) ltac:(lia)). change (2 ^ (32 - 1)) with (2 ^ 31).
  destruct (Z.ltb_spec (z mod 2 ^ 32) (2 ^ 31)); lia.
Qed.
Lemma coerce_typed l n v : typed l n (coerce l n v).
Proof.
  assert (is_int 0) as H0 by (unfold is_int; lia). unfold typed, coerce. repeat case_match; eauto 10 using s32_int.
Qed.

#[export] Instance table_options : SettingKernel table.
Proof.
  refine {| current := t_current; groups := t_members |}.
  - by intros fd l n v k k' [= <- <-].
  - intros X e fd l n k Ht. destruct e; try done. cbn in *. unfold t_current. destruct v; cbn; try (rewrite lookup_insert_ne; [done|]); try by repeat case_match.
    all: intros [= -> -> ->]; by rewrite !Z.eqb_refl in Ht.
  - done.
  - intros. apply coerce_typed.
  - intros n k. cbn. lia.
  - intros fd a i k. cbn. case_bool_decide; [|done]. split; [|done]. unfold t_members. cbn. rewrite lookup_insert_eq. by left.
  - intros X e fd k a He Ha. destruct e; try done; cbn. destruct v; try done. cbn in He. destruct (_ && _) eqn:E; [|done]. unfold t_members in *. cbn.
    destruct (decide (fd = fd0)) as [->|Hne]; [rewrite lookup_insert_eq; by right|by rewrite lookup_insert_ne].
  - done.
Defined.

Definition cautious : flags := Flags 1 0 16 64 0 0 1 1 [] 7 1 1 30 0 0 0 0 0 0 0 [] 0 [] 0 5 0.
Definition plain_opts : opts := Opts 0 0 0 0 0 1024 0 0 0 1024 1024 0 0 0 1 0.

(** The run: SO_LINGER is on with the time asked for. *)
Example sockopts_runs :
  let '(r, _, k) := run (sockopts (H := sparc64) (H0 := 4) plain_opts cautious 3 1 [127; 0; 0; 1] (SockRoute.Sroute [] 0 0)) globals0 (Table ∅ ∅) in
  t_current k 3 SOL_SOCKET SO_LINGER = OLinger 1 30 /\ t_current k 3 IPPROTO_IP IP_TOS = OInt 0.
Proof. by vm_compute. Qed.
End SockOpenProofs.
