(* ===== verification/BsdPing.v ===== *)
(** * The BSD ping

    unpv13e/ping/bsdping.c: options, the echo requests, the table of the
    sequence numbers received, the report of a packet with its IP options, the
    statistics, and the loop of main.  Packets are byte arrays with the layouts
    of Ping.v; the receive buffer keeps what earlier packets left in it.

    Standard output is a list of pieces: text, or the double given to a %g.  The
    options that getopt returns are an argument of main, and so are the bytes of
    the buffer that malloc returns and of the automatic array rspace.  A handler
    runs at the start of a turn of the loop; [alrm] is the handler of SIGALRM.  char
    is a byte: the sign does not matter for the bits of rcvd_tbl. *)
From Stdlib Require Import Floats.SpecFloat Ascii.
From stdpp Require Import base list numbers strings gmap.
From S2P Require Import Prelude InetAddr Checksum Cnum Sys Error Wrap StreamIO SockAddr Connect Ping.
Import Cksum.

Module BsdPing.
Definition DEFDATALEN : Z := 64 - 8.
Definition MAXIPLEN : Z := 60.
Definition MAXICMPLEN : Z := 76.
Definition MAXPACKET : Z := 65536 - 60 - 8.
Definition NROUTES : Z := 9.
Definition MAX_DUP_CHK : Z := 8 * 8192.
Definition mx_dup_ck : Z := MAX_DUP_CHK.
Definition MAX_IPOPTLEN : Z := 40.
Definition MAXHOSTNAMELEN : Z := 256.
Definition ICMP_MINLEN : Z := 8.
Definition sizeof_timeval : Z := 16.
Definition sizeof_ip : Z := 20.
Definition F_FLOOD : Z := 0x0001.
Definition F_INTERVAL : Z := 0x0002.
Definition F_NUMERIC : Z := 0x0004.
Definition F_PINGFILLED : Z := 0x0008.
Definition F_QUIET : Z := 0x0010.
Definition F_RROUTE : Z := 0x0020.
Definition F_SO_DEBUG : Z := 0x0040.
Definition F_SO_DONTROUTE : Z := 0x0080.
Definition F_VERBOSE : Z := 0x0100.
Definition IPOPT_EOL : Z := 0.
Definition IPOPT_NOP : Z := 1.
Definition IPOPT_RR : Z := 7.
Definition IPOPT_LSRR : Z := 131.
Definition IPOPT_MINOFF : Z := 4.
Definition SIGINT : Z := 2.
Definition SIGINFO : Z := 29.
Definition SO_DEBUG : Z := 1.
Definition SO_DONTROUTE : Z := 0x10.
Definition IP_OPTIONS : Z := 1.
Definition ITIMER_REAL : Z := 0.
Definition EPERM : Z := 1.
(** The handlers, by number. *)
Definition SIG_DFL : Z := 0.
Definition h_onalrm : Z := 1.
Definition h_onint : Z := 2.
Definition h_oninfo : Z := 3.

(** A piece of standard output. *)
Inductive item := Text (s : list Z) | Num (x : double).

(** The globals, the statics of pr_pack, the handler of SIGALRM and what was
    printed. *)
Record ping := State {
  options : Z; npackets : Z; interval : Z; datalen : Z; ident : Z; sock : Z; timing : Z;
  whereto : sockaddr; hostname : list Z;
  rcvd_tbl : list Z; outpack : list Z;
  nreceived : Z; nrepeats : Z; ntransmitted : Z;
  tmin : double; tmax : double; tsum : double;
  old_rrlen : Z; old_rr : list Z; alrm : Z; out : list item }.

Definition with_options (o : Z) (p : ping) : ping :=
  State o (npackets p) (interval p) (datalen p) (ident p) (sock p) (timing p) (whereto p) (hostname p) (rcvd_tbl p)
    (outpack p) (nreceived p) (nrepeats p) (ntransmitted p) (tmin p) (tmax p) (tsum p) (old_rrlen p) (old_rr p) (alrm p) (out p).
Definition with_sizes (n i d : Z) (p : ping) : ping :=
  State (options p) n i d (ident p) (sock p) (timing p) (whereto p) (hostname p) (rcvd_tbl p)
    (outpack p) (nreceived p) (nrepeats p) (ntransmitted p) (tmin p) (tmax p) (tsum p) (old_rrlen p) (old_rr p) (alrm p) (out p).
Definition with_target (sa : sockaddr) (name : list Z) (p : ping) : ping :=
  State (options p) (npackets p) (interval p) (datalen p) (ident p) (sock p) (timing p) sa name (rcvd_tbl p)
    (outpack p) (nreceived p) (nrepeats p) (ntransmitted p) (tmin p) (tmax p) (tsum p) (old_rrlen p) (old_rr p) (alrm p) (out p).
Definition with_socket (i s t : Z) (p : ping) : ping :=
  State (options p) (npackets p) (interval p) (datalen p) i s t (whereto p) (hostname p) (rcvd_tbl p)
    (outpack p) (nreceived p) (nrepeats p) (ntransmitted p) (tmin p) (tmax p) (tsum p) (old_rrlen p) (old_rr p) (alrm p) (out p).
Definition with_outpack (b : list Z) (p : ping) : ping :=
  State (options p) (npackets p) (interval p) (datalen p) (ident p) (sock p) (timing p) (whereto p) (hostname p) (rcvd_tbl p)
    b (nreceived p) (nrepeats p) (ntransmitted p) (tmin p) (tmax p) (tsum p) (old_rrlen p) (old_rr p) (alrm p) (out p).
Definition with_sent (t b : list Z) (n : Z) (p : ping) : ping :=
  State (options p) (npackets p) (interval p) (datalen p) (ident p) (sock p) (timing p) (whereto p) (hostname p) t
    b (nreceived p) (nrepeats p) n (tmin p) (tmax p) (tsum p) (old_rrlen p) (old_rr p) (alrm p) (out p).
Definition with_counts (t : list Z) (nr nd : Z) (p : ping) : ping :=
  State (options p) (npackets p) (interval p) (datalen p) (ident p) (sock p) (timing p) (whereto p) (hostname p) t
    (outpack p) nr nd (ntransmitted p) (tmin p) (tmax p) (tsum p) (old_rrlen p) (old_rr p) (alrm p) (out p).
Definition with_times (lo hi sum : double) (p : ping) : ping :=
  State (options p) (npackets p) (interval p) (datalen p) (ident p) (sock p) (timing p) (whereto p) (hostname p) (rcvd_tbl p)
    (outpack p) (nreceived p) (nrepeats p) (ntransmitted p) lo hi sum (old_rrlen p) (old_rr p) (alrm p) (out p).
Definition with_rr (n : Z) (rr : list Z) (p : ping) : ping :=
  State (options p) (npackets p) (interval p) (datalen p) (ident p) (sock p) (timing p) (whereto p) (hostname p) (rcvd_tbl p)
    (outpack p) (nreceived p) (nrepeats p) (ntransmitted p) (tmin p) (tmax p) (tsum p) n rr (alrm p) (out p).
Definition with_alrm (h : Z) (p : ping) : ping :=
  State (options p) (npackets p) (interval p) (datalen p) (ident p) (sock p) (timing p) (whereto p) (hostname p) (rcvd_tbl p)
    (outpack p) (nreceived p) (nrepeats p) (ntransmitted p) (tmin p) (tmax p) (tsum p) (old_rrlen p) (old_rr p) h (out p).
Definition says (l : list item) (p : ping) : ping :=
  State (options p) (npackets p) (interval p) (datalen p) (ident p) (sock p) (timing p) (whereto p) (hostname p) (rcvd_tbl p)
    (outpack p) (nreceived p) (nrepeats p) (ntransmitted p) (tmin p) (tmax p) (tsum p) (old_rrlen p) (old_rr p) (alrm p) (out p ++ l).
Definition say (s : list Z) : ping -> ping := says [Text s].

Definition on (flag : Z) (p : ping) : bool := negb (Z.land (options p) flag =? 0).

(** The initial values. *)
Definition ping0 : ping :=
  State 0 0 1 DEFDATALEN 0 0 0 (SaOther 0 []) [] (replicate (Z.to_nat (MAX_DUP_CHK / 8)) 0) (replicate (Z.to_nat MAXPACKET) 0)
    0 0 0 (d_of_Z 999999999) (d_of_Z 0) (d_of_Z 0) 0 (replicate (Z.to_nat MAX_IPOPTLEN) 0) SIG_DFL [].

(** ** The macros A, B, SET, CLR and TST *)
Definition B (bit : Z) : Z := Z.shiftl 1 (Z.land bit 7).
Definition SET (bit : Z) (t : list Z) : option (list Z) :=
  a ← aread t (Z.shiftr bit 3); awrite t (Z.shiftr bit 3) (Z.lor a (B bit)).
Definition CLR (bit : Z) (t : list Z) : option (list Z) :=
  a ← aread t (Z.shiftr bit 3); awrite t (Z.shiftr bit 3) (Z.land a (Z.lnot (B bit))).
Definition TST (bit : Z) (t : list Z) : option bool :=
  a ← aread t (Z.shiftr bit 3); Some (negb (Z.land a (B bit) =? 0)).

(** ** Formats and the C library *)
Definition fmt_0x (w n : Z) : list Z := let s := fmt_x n in replicate (Z.to_nat w - length s) 48 ++ s.

(** inet_ntoa on the four bytes of a struct in_addr. *)
Definition inet_ntoa (a : list Z) : list Z :=
  match a with
  | [b0; b1; b2; b3] => fmt_u b0 ++ [46] ++ fmt_u b1 ++ [46] ++ fmt_u b2 ++ [46] ++ fmt_u b3
  | _ => []
  end.

(** strtol(s, &e, 10): the value and the rest of the string. *)
Fixpoint strtol_digits (any : bool) (v : Z) (s : list Z) : option (Z * list Z) :=
  match s with
  | c :: s' => if isdigit c then strtol_digits true (v * 10 + (c - 48)) s' else if any then Some (v, s) else None
  | [] => if any then Some (v, []) else None
  end.
Fixpoint strtol_start (s : list Z) : option (Z * list Z) :=
  match s with
  | c :: s' =>
      if isspace c then strtol_start s'
      else if c =? 45 then '(v, e) ← strtol_digits false 0 s'; Some (- v, e)
      else if c =? 43 then strtol_digits false 0 s'
      else strtol_digits false 0 s
  | [] => None
  end.
Definition strtol (s : list Z) : Z * list Z :=
  match strtol_start s with
  | Some (v, e) => (Z.max (- 2 ^ 63) (Z.min (2 ^ 63 - 1) v), e)
  | None => (0, s)
  end.

(** (long) x, undefined for values that long cannot hold. *)
Definition long_of_d (x : double) : option Z :=
  match x with
  | S754_zero _ => Some 0
  | S754_finite s m e =>
      let v := if 0 <=? e then Z.shiftl (Zpos m) e else Z.shiftr (Zpos m) (- e) in
      let z := if s then - v else v in
      if (- 2 ^ 63 <=? z) && (z <? 2 ^ 63) then Some z else None
  | _ => None
  end.

(** err.h: the messages go to stderr after the name of the program. *)
Definition warnx (msg : list Z) : prog unit := call_ (Efputs (str "ping: " ++ msg ++ [10]) stderr).
Definition warn (msg : list Z) : prog unit :=
  e ← get_errno;
  es ← lib (Estrerror e);
  call_ (Efputs (str "ping: " ++ msg ++ str ": " ++ es ++ [10]) stderr).
Definition errx {A} (msg : list Z) : prog A := _ ← warnx msg; Halt (Exit 1).
Definition err {A} (msg : list Z) : prog A := _ ← warn msg; Halt (Exit 1).
(** err(1, NULL) *)
Definition err_null {A} : prog A :=
  e ← get_errno;
  es ← lib (Estrerror e);
  _ ← call_ (Efputs (str "ping: " ++ es ++ [10]) stderr);
  Halt (Exit 1).
(** ** in_cksum and tvsub: sum is an int, whose overflow is undefined *)
Definition int_add (a b : Z) : option Z := if a + b <? 2 ^ 31 then Some (a + b) else None.
Fixpoint cksum_loop `{Platform} (w : list Z) (nleft sum : Z) : option (list Z * Z * Z) :=
  if 1 <? nleft then
    match w with
    | b0 :: b1 :: w' => sum1 ← int_add sum (load16 b0 b1); cksum_loop w' (nleft - 2) sum1
    | _ => None
    end
  else Some (w, nleft, sum).
Definition in_cksum `{Platform} (addr : list Z) (len : Z) : option Z :=
  '(w, nleft, sum) ← cksum_loop addr len 0;
  sum1 ← (if nleft =? 1 then b ← aread w 0; int_add sum (load16 b 0) else Some sum);
  let sum2 := Z.shiftr sum1 16 + Z.land sum1 0xffff in
  let sum3 := sum2 + Z.shiftr sum2 16 in
  Some (u16 (Z.lnot sum3)).

Definition tvsub (out tin : timeval) : timeval :=
  let usec := tv_usec out - tv_usec tin in
  let out1 := if usec <? 0 then Timeval (tv_sec out - 1) (usec + 1000000) else Timeval (tv_sec out) usec in
  Timeval (tv_sec out1 - tv_sec tin) (tv_usec out1).

(** ** pinger *)

(** From if (i < 0 || i != cc) to the end. *)
Definition sent_report (cc i : Z) (p : ping) : prog ping :=
  p1 ← (if (i <? 0) || negb (i =? cc) then
          _ ← (if i <? 0 then warn (str "sendto") else Ret tt);
          Ret (say (str "ping: wrote " ++ hostname p ++ [32] ++ fmt_d cc ++ str " chars, ret=" ++ fmt_d i ++ [10]) p)
        else Ret p);
  _ ← (if negb (on F_QUIET p1) && on F_FLOOD p1 then call_ (Ewrite 1 [46]) else Ret tt);
  Ret p1.
Definition pinger `{Platform} (p : ping) : prog ping :=
  b0 ← mem (awrite (outpack p) 0 Ping.ICMP_ECHO);
  b1 ← mem (awrite b0 1 0);
  b2 ← mem (memcpy b1 2 (store16 0));
  b3 ← mem (memcpy b2 6 (store16 (u16 (ntransmitted p))));
  b4 ← mem (memcpy b3 4 (store16 (u16 (ident p))));
  icmp_seq ← mem (aread16 b4 6);
  t ← mem (CLR (icmp_seq mod mx_dup_ck) (rcvd_tbl p));
  b5 ← (if timing p =? 0 then Ret b4
        else r ← call Egettimeofday;
             match r with Ok tv => mem (memcpy b4 8 (store_timeval tv)) | Err _ => Ret b4 end);
  let cc := datalen p + 8 in
  sum ← mem (in_cksum b5 cc);
  b6 ← mem (memcpy b5 2 (store16 sum));
  bs ← mem (asub b6 0 cc);
  let p1 := with_sent t b6 (ntransmitted p + 1) p in
  r ← call (Esendto (sock p) bs 0 (Some (whereto p)) 16);
  sent_report cc (match r with Ok n => n | Err _ => -1 end) p1.

(** ** Printing of addresses and of IP and ICMP headers *)

(** pr_addr(l): l is an unsigned long, and its first four bytes in memory are
    taken for the address; at most 79 characters. *)
Definition pr_addr `{Platform} (l : Z) (p : ping) : prog (list Z) :=
  let a := take 4 (store64 l) in
  if on F_NUMERIC p then Ret (inet_ntoa a)
  else
    hp ← lib (Egethostbyaddr a AF_INET);
    match hp with
    | None => Ret (inet_ntoa a)
    | Some h => Ret (truncstr 80 (h_name h ++ str " (" ++ inet_ntoa a ++ str ")"))
    end.

(** while (hlen-- > 20) printf("%02x", *cp++), with [k] rounds. *)
Fixpoint dump_options (k : nat) (buf : list Z) (cp : Z) : option (list Z) :=
  match k with
  | O => Some []
  | S k' => c ← aread buf cp; r ← dump_options k' buf (cp + 1); Some (fmt_0x 2 c ++ r)
  end.

(** The text pr_iph prints for the header at [ip]. *)
Definition pr_iph `{Platform} (buf : list Z) (ip : Z) : option (list Z) :=
  b0 ← aread buf ip;
  ip_tos ← aread buf (ip + 1);
  ip_len ← aread16 buf (ip + 2);
  ip_id ← aread16 buf (ip + 4);
  ip_off ← aread16 buf (ip + 6);
  ip_ttl ← aread buf (ip + 8);
  ip_p ← aread buf (ip + 9);
  ip_sum ← aread16 buf (ip + 10);
  ip_src ← asub buf (ip + 12) 4;
  ip_dst ← asub buf (ip + 16) 4;
  let ip_hl := Z.land b0 15 in
  let hlen := Z.shiftl ip_hl 2 in
  opts ← dump_options (Z.to_nat (hlen - 20)) buf (ip + 20);
  Some (str "Vr HL TOS  Len   ID Flg  off TTL Pro  cks      Src      Dst Data" ++ [10] ++
    [32] ++ fmt_x (Z.shiftr b0 4) ++ str "  " ++ fmt_x ip_hl ++ str "  " ++ fmt_0x 2 ip_tos ++ [32] ++ fmt_0x 4 ip_len ++
    [32] ++ fmt_0x 4 ip_id ++
    str "   " ++ fmt_x (Z.shiftr (Z.land ip_off 0xe000) 13) ++ [32] ++ fmt_0x 4 (Z.land ip_off 0x1fff) ++
    str "  " ++ fmt_0x 2 ip_ttl ++ str "  " ++ fmt_0x 2 ip_p ++ [32] ++ fmt_0x 4 ip_sum ++
    [32] ++ inet_ntoa ip_src ++ [32] ++ [32] ++ inet_ntoa ip_dst ++ [32] ++ opts ++ [10]).

Definition pr_retip `{Platform} (buf : list Z) (ip : Z) : option (list Z) :=
  t ← pr_iph buf ip;
  b0 ← aread buf ip;
  ip_p ← aread buf (ip + 9);
  let cp := ip + Z.shiftl (Z.land b0 15) 2 in
  if (ip_p =? 6) || (ip_p =? 17) then
    c0 ← aread buf cp; c1 ← aread buf (cp + 1); c2 ← aread buf (cp + 2); c3 ← aread buf (cp + 3);
    Some (t ++ (if ip_p =? 6 then str "TCP" else str "UDP") ++ str ": from port " ++ fmt_u (c0 * 256 + c1) ++
      str ", to port " ++ fmt_u (c2 * 256 + c3) ++ str " (decimal)" ++ [10])
  else Some t.

(** The text pr_icmph prints for the message at [icp]. *)
Definition pr_icmph `{Platform} (buf : list Z) (icp : Z) : option (list Z) :=
  icmp_type ← aread buf icp;
  icmp_code ← aread buf (icp + 1);
  let returned (s : list Z) := t ← pr_retip buf (icp + 8); Some (s ++ t) in
  if icmp_type =? 0 then Some (str "Echo Reply" ++ [10])
  else if icmp_type =? 3 then
    returned ((if icmp_code =? 0 then str "Destination Net Unreachable"
               else if icmp_code =? 1 then str "Destination Host Unreachable"
               else if icmp_code =? 2 then str "Destination Protocol Unreachable"
               else if icmp_code =? 3 then str "Destination Port Unreachable"
               else if icmp_code =? 4 then str "frag needed and DF set"
               else if icmp_code =? 5 then str "Source Route Failed"
               else str "Dest Unreachable, Bad Code: " ++ fmt_d icmp_code) ++ [10])
  else if icmp_type =? 4 then returned (str "Source Quench" ++ [10])
  else if icmp_type =? 5 then
    gw ← asub buf (icp + 4) 4;
    returned ((if icmp_code =? 0 then str "Redirect Network"
               else if icmp_code =? 1 then str "Redirect Host"
               else if icmp_code =? 2 then str "Redirect Type of Service and Network"
               else if icmp_code =? 3 then str "Redirect Type of Service and Host"
               else str "Redirect, Bad Code: " ++ fmt_d icmp_code) ++
              str "(New addr: 0x" ++ fmt_0x 8 (load32 gw) ++ str ")" ++ [10])
  else if icmp_type =? 8 then Some (str "Echo Request" ++ [10])
  else if icmp_type =? 11 then
    returned ((if icmp_code =? 0 then str "Time to live exceeded"
               else if icmp_code =? 1 then str "Frag reassembly time exceeded"
               else str "Time exceeded, Bad Code: " ++ fmt_d icmp_code) ++ [10])
  else if icmp_type =? 12 then
    ih_pptr ← aread buf (icp + 4);
    returned (str "Parameter problem: pointer = 0x" ++ fmt_0x 2 ih_pptr ++ [10])
  else if icmp_type =? 13 then Some (str "Timestamp" ++ [10])
  else if icmp_type =? 14 then Some (str "Timestamp Reply" ++ [10])
  else if icmp_type =? 15 then Some (str "Information Request" ++ [10])
  else if icmp_type =? 16 then Some (str "Information Reply" ++ [10])
  else if icmp_type =? 17 then Some (str "Address Mask Request" ++ [10])
  else if icmp_type =? 18 then Some (str "Address Mask Reply" ++ [10])
  else Some (str "Bad ICMP type: " ++ fmt_d icmp_type ++ [10]).
(** ** pr_pack *)

(** The for (;;) that prints addresses: four bytes behind [cp] each time, until
    the count [n] is at most [lim].  A count is at most 255: 64 rounds. *)
Fixpoint route_loop `{Platform} (fuel : nat) (lim : Z) (buf : list Z) (cp hlen n : Z) (p : ping) : prog (Z * Z * ping) :=
  match fuel with
  | O => Halt Spin
  | S f =>
      b1 ← mem (aread buf (cp + 1));
      b2 ← mem (aread buf (cp + 2));
      b3 ← mem (aread buf (cp + 3));
      b4 ← mem (aread buf (cp + 4));
      let l := ((b1 * 256 + b2) * 256 + b3) * 256 + b4 in
      p1 ← (if l =? 0 then Ret (say (9 :: str "0.0.0.0") p)
            else a ← pr_addr (ntohl l) p; Ret (say (9 :: a) p));
      if n - 4 <=? lim then Ret (cp + 4, hlen - 4, p1)
      else route_loop f lim buf (cp + 4) (hlen - 4) (n - 4) (say [10] p1)
  end.

Definition opt_lsrr `{Platform} (buf : list Z) (cp hlen : Z) (p : ping) : prog (Z * Z * ping) :=
  let p0 := say (10 :: str "LSRR: ") p in
  j ← mem (aread buf (cp + 1));
  if IPOPT_MINOFF <? j then route_loop 64 IPOPT_MINOFF buf (cp + 2) (hlen - 2) j p0
  else Ret (cp + 2, hlen - 2, p0).

(** The test of the route against that of the last packet. *)
Definition same_route (buf : list Z) (cp i : Z) (p : ping) : prog bool :=
  if (i =? old_rrlen p) && (cp =? sizeof_ip + 2) then
    a ← mem (asub buf cp i);
    b ← mem (asub (old_rr p) 0 i);
    Ret (bool_decide (a = b) && negb (on F_FLOOD p))
  else Ret false.

Definition opt_rr `{Platform} (buf : list Z) (cp hlen : Z) (p : ping) : prog (Z * Z * ping) :=
  j ← mem (aread buf (cp + 1));
  i0 ← mem (aread buf (cp + 2));
  let i := (if j <? i0 then j else i0) - IPOPT_MINOFF in
  if i <=? 0 then Ret (cp + 2, hlen - 2, p)
  else
    same ← same_route buf (cp + 2) i p;
    if (same : bool) then
      let i1 := (i + 3) / 4 * 4 in
      Ret (cp + 2 + i1, hlen - 2 - i1, say (9 :: str "(same route)") p)
    else
      bs ← mem (asub buf (cp + 2) i);
      rr ← mem (memcpy (old_rr p) 0 bs);
      route_loop 64 0 buf (cp + 2) (hlen - 2) i (say (10 :: str "RR: ") (with_rr i rr p)).

(** The switch on the option at [cp]. *)
Definition pr_option `{Platform} (buf : list Z) (cp hlen : Z) (p : ping) : prog (Z * Z * ping) :=
  c ← mem (aread buf cp);
  if c =? IPOPT_EOL then Ret (cp, 0, p)
  else if c =? IPOPT_LSRR then opt_lsrr buf cp hlen p
  else if c =? IPOPT_RR then opt_rr buf cp hlen p
  else if c =? IPOPT_NOP then Ret (cp, hlen, say (10 :: str "NOP") p)
  else Ret (cp, hlen, say (10 :: str "unknown option " ++ fmt_x c) p).

(** for (; hlen > (int)sizeof(struct ip); --hlen, ++cp): hlen is at most 60. *)
Fixpoint pr_options `{Platform} (fuel : nat) (buf : list Z) (cp hlen : Z) (p : ping) : prog ping :=
  if sizeof_ip <? hlen then
    match fuel with
    | O => Halt Spin
    | S f => '(cp1, hlen1, p1) ← pr_option buf cp hlen p; pr_options f buf (cp1 + 1) (hlen1 - 1) p1
    end
  else Ret p.

(** for (i = 8; i < datalen; ++i, ++cp) printf of the bytes received. *)
Fixpoint dump_data (k : nat) (i : Z) (buf : list Z) (cp : Z) : option (list Z) :=
  match k with
  | O => Some []
  | S k' =>
      c ← aread buf cp;
      r ← dump_data k' (i + 1) buf (cp + 1);
      Some ((if i mod 32 =? 8 then [10; 9] else []) ++ fmt_x c ++ [32] ++ r)
  end.

(** The check of the data: [k] bytes are left, [cp] is in the packet and [dp] in
    outpack. *)
Fixpoint check_data (k : nat) (i : Z) (buf : list Z) (icp cp dp : Z) (p : ping) : prog ping :=
  match k with
  | O => Ret p
  | S k' =>
      c ← mem (aread buf cp);
      d ← mem (aread (outpack p) dp);
      if negb (c =? d) then
        dump ← mem (dump_data (Z.to_nat (datalen p - 8)) 8 buf (icp + 8));
        Ret (say (10 :: str "wrong data byte #" ++ fmt_d i ++ str " should be 0x" ++ fmt_x d ++ str " but was 0x" ++ fmt_x c ++ dump) p)
      else check_data k' (i + 1) buf icp (cp + 1) (dp + 1) p
  end.

Definition d_ltb (x y : double) : bool := SFltb x y.

(** The address of the sender; a raw socket of AF_INET receives no other. *)
Definition from_addr (from : sockaddr) : option (list Z) :=
  match from with SaIn s => Some (sin_addr s) | _ => None end.

(** The time of the round trip, when the replies are timed. *)
Definition time_reply `{Platform} (buf : list Z) (icp : Z) (tv : timeval) (p : ping) : prog (double * ping) :=
  if timing p =? 0 then Ret (d_of_Z 0, p)
  else
    tp ← mem (asub buf (icp + 8) 16);
    let triptime := Ping.rtt_ms (tvsub tv (load_timeval tp)) in
    Ret (triptime, with_times (if d_ltb triptime (tmin p) then triptime else tmin p)
                     (if d_ltb (tmax p) triptime then triptime else tmax p) (d_add (tsum p) triptime) p).

(** The count of a reply: whether it is a duplicate. *)
Definition count_reply (seq : Z) (p : ping) : prog (bool * ping) :=
  dup ← mem (TST (seq mod mx_dup_ck) (rcvd_tbl p));
  if (dup : bool) then Ret (true, with_counts (rcvd_tbl p) (nreceived p) (nrepeats p + 1) p)
  else t ← mem (SET (seq mod mx_dup_ck) (rcvd_tbl p)); Ret (false, with_counts t (nreceived p + 1) (nrepeats p) p).

(** The line of a reply. *)
Definition print_reply (buf : list Z) (cc icp seq : Z) (from : sockaddr) (triptime : double) (dup : bool) (p : ping) : prog ping :=
  a ← mem (from_addr from);
  ip_ttl ← mem (aread buf 8);
  let p1 := says ([Text (fmt_d cc ++ str " bytes from " ++ inet_ntoa a ++ str ": icmp_seq=" ++ fmt_u seq ++ str " ttl=" ++ fmt_d ip_ttl)] ++
                  (if timing p =? 0 then [] else [Text (str " time="); Num triptime; Text (str " ms")]) ++
                  (if dup then [Text (str " (DUP!)")] else [])) p in
  check_data (Z.to_nat (datalen p - 8)) 8 buf icp (icp + 8 + 8) (8 + sizeof_timeval) p1.

(** From the options to the end. *)
Definition pr_rest `{Platform} (buf : list Z) (hlen : Z) (p : ping) : prog ping :=
  p1 ← pr_options 40 buf sizeof_ip hlen p;
  if on F_FLOOD p1 then Ret p1
  else _ ← call_ (Efflush stdout); Ret (say [10] p1).

Definition pr_pack `{Platform} (buf : list Z) (cc : Z) (from : sockaddr) (tv0 : timeval) (p : ping) : prog ping :=
  r ← call Egettimeofday;
  let tv := match r with Ok tv => tv | Err _ => tv0 end in
  b0 ← mem (aread buf 0);
  let hlen := Z.shiftl (Z.land b0 15) 2 in
  if cc <? hlen + ICMP_MINLEN then
    if on F_VERBOSE p then
      a ← mem (from_addr from);
      _ ← warnx (str "packet too short (" ++ fmt_d cc ++ str " bytes) from " ++ inet_ntoa a ++ [10]);
      Ret p
    else Ret p
  else
    let cc1 := cc - hlen in
    icmp_type ← mem (aread buf hlen);
    if icmp_type =? Ping.ICMP_ECHOREPLY then
      icmp_id ← mem (aread16 buf (hlen + 4));
      if negb (icmp_id =? ident p) then Ret p
      else
        '(triptime, p1) ← time_reply buf hlen tv p;
        seq ← mem (aread16 buf (hlen + 6));
        '(dup, p2) ← count_reply seq p1;
        if on F_QUIET p2 then Ret p2
        else
          p3 ← (if on F_FLOOD p2 then _ ← call_ (Ewrite 1 [8]); Ret p2
                else print_reply buf cc1 hlen seq from triptime dup p2);
          pr_rest buf hlen p3
    else if negb (on F_VERBOSE p) then Ret p
    else
      a ← mem (from_addr from);
      host ← pr_addr (load32 a) p;
      t ← mem (pr_icmph buf hlen);
      pr_rest buf hlen (say (fmt_d cc1 ++ str " bytes from " ++ host ++ str ": " ++ t) p).

(** ** summary and the handlers *)
Definition summary (p : ping) : prog ping :=
  let p1 := say ([10] ++ str "--- " ++ hostname p ++ str " ping statistics ---" ++ [10] ++ fmt_d (ntransmitted p) ++
                 str " packets transmitted, " ++ fmt_d (nreceived p) ++ str " packets received, " ++
                 (if nrepeats p =? 0 then [] else str "+" ++ fmt_d (nrepeats p) ++ str " duplicates, ") ++
                 (if ntransmitted p =? 0 then []
                  else if ntransmitted p <? nreceived p then str "-- somebody's printing up packets!"
                  else fmt_d (s32 (Z.quot ((ntransmitted p - nreceived p) * 100) (ntransmitted p))) ++ str "% packet loss") ++
                 [10]) p in
  if negb (nreceived p =? 0) && negb (timing p =? 0) then
    i ← mem (int_of_d (d_div (d_mul (d_of_Z 1000) (tsum p)) (d_of_Z (nreceived p + nrepeats p))));
    Ret (says [Text (str "round-trip min/avg/max = "); Num (tmin p); Text (str "/"); Num (d_div (d_of_Z i) (d_of_Z 1000));
               Text (str "/"); Num (tmax p); Text (str " ms" ++ [10])] p1)
  else Ret p1.

Definition oninfo (p : ping) : prog ping := summary p.

Definition onint {A} (p : ping) : prog A :=
  _ ← summary p;
  _ ← call_ (Esignal SIGINT SIG_DFL);
  me ← lib Egetpid;
  _ ← call_ (Ekill me SIGINT);
  Halt (Exit 1).

Definition MAXWAIT : Z := 10.

Definition onalrm `{Platform} (p : ping) : prog ping :=
  if (npackets p =? 0) || (ntransmitted p <? npackets p) then pinger p
  else
    sec ← (if negb (nreceived p =? 0) then
             n ← mem (long_of_d (d_div (d_mul (d_of_Z 2) (tmax p)) (d_of_Z 1000)));
             Ret (if n =? 0 then 1 else n)
           else Ret MAXWAIT);
    _ ← call_ (Esignal SIGALRM h_onint);
    _ ← call_ (Esetitimer ITIMER_REAL (Timeval 0 0) (Timeval sec 0));
    Ret (with_alrm h_onint p).

(** The handler of a signal; the default action of SIGALRM, before main has set
    the handler, ends the process. *)
Inductive caught := Int | Info | Alrm.
Definition handle `{Platform} (sig : caught) (p : ping) : prog ping :=
  match sig with
  | Int => onint p
  | Info => oninfo p
  | Alrm => if alrm p =? h_onalrm then onalrm p
            else if alrm p =? h_onint then onint p
            else Halt (Exit (128 + SIGALRM))
  end.

(** ** fill and the options *)

(** sscanf with sixteen %2x on hexadecimal digits: the values converted. *)
Definition xvalue (c : Z) : Z := if isdigit c then c - 48 else if 97 <=? c then c - 87 else c - 55.
Fixpoint scan_pairs (k : nat) (s : list Z) : list Z :=
  match k, s with
  | S k', c1 :: c2 :: s' => (xvalue c1 * 16 + xvalue c2) :: scan_pairs k' s'
  | S _, [c] => [xvalue c]
  | _, _ => []
  end.

(** for (jj = 0; jj < ii; ++jj) bp[jj + kk] = pat[jj]; [at] is bp + jj + kk. *)
Fixpoint put_pattern (pat : list Z) (buf : list Z) (at_ : Z) : option (list Z) :=
  match pat with
  | [] => Some buf
  | v :: pat' => b ← awrite buf at_ v; put_pattern pat' b (at_ + 1)
  end.
(** The loop over kk: each round adds at least 1. *)
Fixpoint fill_loop (fuel : nat) (pat : list Z) (bp kk : Z) (buf : list Z) : prog (list Z) :=
  let ii := Z.of_nat (length pat) in
  if kk <=? MAXPACKET - (8 + sizeof_timeval + ii) then
    match fuel with
    | O => Halt Spin
    | S f => b ← mem (put_pattern pat buf (bp + kk)); fill_loop f pat bp (kk + ii) b
    end
  else Ret buf.
Fixpoint hex_bytes (bs : list Z) : list Z := match bs with [] => [] | b :: bs => fmt_0x 2 b ++ hex_bytes bs end.

Definition fill (bp : Z) (patp : list Z) (p : ping) : prog ping :=
  if negb (forallb isxdigit patp) then errx (str "patterns must be specified as hex digits")
  else
    let pat := scan_pairs 16 patp in
    b ← (match pat with [] => Ret (outpack p) | _ => fill_loop (Z.to_nat MAXPACKET) pat bp 0 (outpack p) end);
    let p1 := with_outpack b p in
    if on F_QUIET p1 then Ret p1
    else
      shown ← mem (asub b bp (Z.of_nat (length pat)));
      Ret (say (str "PATTERN: 0x" ++ hex_bytes shown ++ [10]) p1).

Definition usage {A} : prog A :=
  _ ← call_ (Efputs (str "usage: ping [-dfnqRrv] [-c count] [-i wait] [-l preload] [-p pattern]" ++ [10] ++
                     str "            [-s packetsize] host" ++ [10]) stderr);
  Halt (Exit 1).

(** strtol and the test that follows it: the value, if the whole argument is a
    number. *)
Definition number (optarg : list Z) : Z * bool :=
  let '(v, e) := strtol optarg in (v, negb (bool_decide (optarg = [])) && bool_decide (e = [])).
Definition datap : Z := 8 + sizeof_timeval.

(** The switch in main, for the option [ch]; [preload] is a variable of main. *)
Definition option_case (ch : ascii) (optarg : list Z) (preload : Z) (p : ping) : prog (Z * ping) :=
  let flag f := Ret (preload, with_options (Z.lor (options p) f) p) in
  let '(v, whole) := number optarg in
  if bool_decide (ch = "c"%char) then
    if (v <=? 0) || negb whole then errx (str "illegal number of packets -- " ++ optarg)
    else Ret (preload, with_sizes v (interval p) (datalen p) p)
  else if bool_decide (ch = "d"%char) then flag F_SO_DEBUG
  else if bool_decide (ch = "f"%char) then
    uid ← lib Egetuid;
    if negb (uid =? 0) then _ ← put_errno EPERM; err_null else flag F_FLOOD
  else if bool_decide (ch = "i"%char) then
    if (s32 v <=? 0) || negb whole then errx (str "illegal timing interval -- " ++ optarg)
    else Ret (preload, with_options (Z.lor (options p) F_INTERVAL) (with_sizes (npackets p) (s32 v) (datalen p) p))
  else if bool_decide (ch = "l"%char) then
    if (s32 v <? 0) || negb whole then errx (str "illegal preload value -- " ++ optarg)
    else Ret (s32 v, p)
  else if bool_decide (ch = "n"%char) then flag F_NUMERIC
  else if bool_decide (ch = "p"%char) then
    p1 ← fill datap optarg (with_options (Z.lor (options p) F_PINGFILLED) p); Ret (preload, p1)
  else if bool_decide (ch = "q"%char) then flag F_QUIET
  else if bool_decide (ch = "R"%char) then flag F_RROUTE
  else if bool_decide (ch = "r"%char) then flag F_SO_DONTROUTE
  else if bool_decide (ch = "s"%char) then
    if (s32 v <=? 0) || negb whole then errx (str "illegal datalen value -- " ++ optarg)
    else if MAXPACKET <? s32 v then errx (str "datalen value too large, maximum is " ++ fmt_d MAXPACKET)
    else Ret (preload, with_sizes (npackets p) (interval p) (s32 v) p)
  else if bool_decide (ch = "v"%char) then flag F_VERBOSE
  else usage.

Fixpoint option_loop (opts : list (ascii * list Z)) (preload : Z) (p : ping) : prog (Z * ping) :=
  match opts with
  | [] => Ret (preload, p)
  | (ch, optarg) :: opts' => '(pre, p1) ← option_case ch optarg preload p; option_loop opts' pre p1
  end.

(** ** main *)

(** The address of [target] and the name that is printed.  A name that fills
    hnamebuf has no terminating NUL, and printf reads it next. *)
Definition find_target `{Platform} (target : list Z) (p : ping) : prog ping :=
  a ← lib (Einet_addr target);
  if negb (a =? 2 ^ 32 - 1) then Ret (with_target (SaIn (SockaddrIn 0 (store32 a))) target p)
  else
    hp ← lib (Egethostbyname target);
    match hp with
    | None => errx (str "unknown host " ++ target)
    | Some h =>
        h_addr ← mem (head (h_addr_list h));
        bs ← mem (asub h_addr 0 (h_length h));
        sa ← mem (memcpy (replicate 12 0) 0 bs);
        if MAXHOSTNAMELEN - 1 <=? Z.of_nat (length (h_name h)) then fault
        else
          let to := if h_addrtype h =? AF_INET then SaIn (SockaddrIn 0 (take 4 sa))
                    else SaOther (h_addrtype h) (replicate 2 0 ++ sa) in
          Ret (with_target to (h_name h) p)
    end.

(** for (i = 8; i < datalen; ++i) *datap++ = i; with [k] rounds. *)
Fixpoint fill_data (k : nat) (i at_ : Z) (buf : list Z) : option (list Z) :=
  match k with
  | O => Some buf
  | S k' => b ← awrite buf at_ (u8 i); fill_data k' (i + 1) (at_ + 1) b
  end.

(** The socket and its options. *)
Definition open_socket (rspace : list Z) (p : ping) : prog Z :=
  proto ← lib (Egetprotobyname (str "icmp"));
  match proto with
  | None => errx (str "unknown protocol icmp")
  | Some proto =>
      r ← call (Esocket AF_INET Ping.SOCK_RAW proto);
      match r with
      | Err _ => err (str "socket")
      | Ok s =>
          _ ← (if on F_SO_DEBUG p then call_ (Esetsockopt s SOL_SOCKET SO_DEBUG (OInt 1)) else Ret tt);
          _ ← (if on F_SO_DONTROUTE p then call_ (Esetsockopt s SOL_SOCKET SO_DONTROUTE (OInt 1)) else Ret tt);
          _ ← (if on F_RROUTE p then
                 r0 ← mem (awrite rspace 0 IPOPT_RR);
                 r1 ← mem (awrite r0 1 (3 + 4 * NROUTES + 1 - 1));
                 r2 ← mem (awrite r1 2 IPOPT_MINOFF);
                 o ← call (Esetsockopt s IPPROTO_IP IP_OPTIONS (OBytes r2));
                 match o with Ok _ => Ret tt | Err _ => err (str "record route") end
               else Ret tt);
          _ ← call_ (Esetsockopt s SOL_SOCKET Ping.SO_RCVBUF (OInt (48 * 1024)));
          Ret s
      end
  end.

(** main from the address to the sizes: packlen is the size of the buffer. *)
Definition packlen (p : ping) : Z := datalen p + MAXIPLEN + MAXICMPLEN.
Definition set_up `{Platform} (target rspace : list Z) (p : ping) : prog ping :=
  p0 ← find_target target p;
  if on F_FLOOD p0 && on F_INTERVAL p0 then errx (str "-f and -i incompatible options")
  else
    let timing := if sizeof_timeval <=? datalen p0 then 1 else 0 in
    m ← call (Emalloc (packlen p0));
    match m with
    | Err _ => err_null
    | Ok _ =>
        b ← (if on F_PINGFILLED p0 then Ret (outpack p0)
             else mem (fill_data (Z.to_nat (datalen p0 - 8)) 8 datap (outpack p0)));
        me ← lib Egetpid;
        let p1 := with_socket (Z.land me 0xffff) 0 timing (with_outpack b p0) in
        s ← open_socket rspace p1;
        let p2 := with_socket (ident p1) s timing p1 in
        Ret (match whereto p2 with
             | SaIn w => say (str "PING " ++ hostname p2 ++ str " (" ++ inet_ntoa (sin_addr w) ++ str "): " ++
                              fmt_d (datalen p2) ++ str " data bytes" ++ [10]) p2
             | _ => say (str "PING " ++ hostname p2 ++ str ": " ++ fmt_d (datalen p2) ++ str " data bytes" ++ [10]) p2
             end)
    end.

(** while (preload--) pinger(); *)
Fixpoint preload_loop `{Platform} (k : nat) (p : ping) : prog ping :=
  match k with O => Ret p | S k' => p1 ← pinger p; preload_loop k' p1 end.

Definition set_handlers (p : ping) : prog ping :=
  _ ← call_ (Esignal SIGINT h_onint);
  _ ← call_ (Esignal SIGINFO h_oninfo);
  if on F_FLOOD p then Ret p
  else
    _ ← call_ (Esignal SIGALRM h_onalrm);
    _ ← call_ (Esetitimer ITIMER_REAL (Timeval (interval p) 0) (Timeval 0 1));
    Ret (with_alrm h_onalrm p).

(** The body of for (;;), with the signal caught in this turn; the flag is set
    when the loop is left. *)
Definition ping_turn `{Platform} (sig : option caught) (tv0 : timeval) (packet : list Z) (p : ping)
  : prog (list Z * ping * bool) :=
  p0 ← (match sig with Some s => handle s p | None => Ret p end);
  p1 ← (if on F_FLOOD p0 then pinger p0 else Ret p0);
  ready ← (if on F_FLOOD p1 then
             fdset ← mem (FD_SET (sock p1) ∅);
             r ← call (Eselect (sock p1 + 1) fdset ∅ ∅ (Some (Timeval 0 10000)));
             Ret (match r with Ok (n, _) => 1 <=? n | Err _ => false end)
           else Ret true);
  if negb ready then Ret (packet, p1, false)
  else
    r ← call (Erecvfrom (sock p1) (packlen p1) 0);
    match r with
    | Err e => _ ← (if e =? EINTR then Ret tt else warn (str "recvfrom")); Ret (packet, p1, false)
    | Ok (bs, (from, _)) =>
        b ← mem (memcpy packet 0 bs);
        p2 ← pr_pack b (Z.of_nat (length bs)) from tv0 p1;
        Ret (b, p2, negb (npackets p2 =? 0) && (npackets p2 <=? nreceived p2))
    end.

(** The loop, for the turns of which [sigs] lists the signals. *)
Fixpoint ping_loop `{Platform} (sigs : list (option caught)) (tv0 : timeval) (packet : list Z) (p : ping)
  : prog (list Z * ping * bool) :=
  match sigs with
  | [] => Ret (packet, p, false)
  | s :: sigs' =>
      '(b, p1, stop) ← ping_turn s tv0 packet p;
      if (stop : bool) then Ret (b, p1, true) else ping_loop sigs' tv0 b p1
  end.

(** main between the options and the loop. *)
Definition ping_start `{Platform} (target rspace : list Z) (preload : Z) (p : ping) : prog ping :=
  p1 ← set_up target rspace p;
  p2 ← preload_loop (Z.to_nat preload) p1;
  set_handlers p2.

(** main; [args] is what getopt leaves of argv, and [junk] the bytes malloc
    returns. *)
Definition bsdping_main `{Platform} (opts : list (ascii * list Z)) (args : list (list Z)) (rspace : list Z)
  (junk : Z -> Z) (tv0 : timeval) (sigs : list (option caught)) : prog ping :=
  '(preload, p) ← option_loop opts 0 ping0;
  match args with
  | [target] =>
      p1 ← ping_start target rspace preload p;
      '(_, p2, stop) ← ping_loop sigs tv0 (map junk (seqZ 0 (packlen p1))) p1;
      if (stop : bool) then
        p3 ← summary p2;
        Halt (Exit (if nreceived p3 =? 0 then 1 else 0))
      else Ret p2
  | _ => usage
  end.
End BsdPing.
