(* ===== verification/BsdPingProofs.v ===== *)
(** * The BSD ping counts every reply once

    Over any number of turns the packets received are no more than those
    transmitted and every reply is counted once, as received or as a duplicate,
    although the table of sequence numbers is used over and over; and no packet
    with small options makes ping access memory outside its arrays.  Four
    defects are stated: a recorded route that overflows the array it is copied
    to, data that is compared at the wrong place, sizes that do not fit, and
    addresses that are printed as zero. *)
From Stdlib Require Import Floats.SpecFloat Ascii.
From stdpp Require Import base list numbers strings gmap.
From S2P Require Import Prelude InetAddr Checksum Cnum Sys Error Wrap StreamIO SockAddr Connect Bytes Hoare Ping BsdPing.
Import Cksum BsdPing.

Module BsdPingProofs.

(** ** The table *)

Definition bit (t : list Z) (b : Z) : bool :=
  match aread t (Z.shiftr b 3) with Some a => Z.testbit a (Z.land b 7) | None => false end.

Definition table (t : list Z) : Prop := Z.of_nat (length t) = 8192.

Lemma byte_of b : 0 <= b < 65536 -> 0 <= Z.shiftr b 3 < 8192 /\ 0 <= Z.land b 7 < 8 /\ b = Z.shiftr b 3 * 8 + Z.land b 7.
Proof.
  intros Hb. rewrite Z.shiftr_div_pow2 by lia. change 7 with (Z.ones 3). rewrite Z.land_ones by lia.
  change (2 ^ 3) with 8. pose proof (Z.div_mod b 8). pose proof (Z.mod_pos_bound b 8).
  split_and!; lia.
Qed.

Lemma testbit_B b c : 0 <= b -> 0 <= c -> Z.testbit (B b) c = (c =? Z.land b 7).
Proof.
  intros Hb Hc. unfold B. assert (0 <= Z.land b 7) by (apply Z.land_nonneg; lia).
  rewrite Z.shiftl_1_l, Z.pow2_bits_eqb by lia. apply Z.eqb_sym.
Qed.

Lemma land_B a b : 0 <= b -> negb (Z.land a (B b) =? 0) = Z.testbit a (Z.land b 7).
Proof.
  intros Hb. assert (0 <= Z.land b 7) as Hn by (apply Z.land_nonneg; lia).
  destruct (Z.testbit a (Z.land b 7)) eqn:E.
  - destruct (Z.eqb_spec (Z.land a (B b)) 0) as [E0|]; [|done]. exfalso.
    assert (Z.testbit (Z.land a (B b)) (Z.land b 7) = true) as Ht
      by (rewrite Z.land_spec, E, testbit_B by lia; apply Z.eqb_refl).
    by rewrite E0, Z.bits_0 in Ht.
  - replace (Z.land a (B b)) with 0; [done|]. apply Z.bits_inj'. intros n Hn'.
    rewrite Z.bits_0, Z.land_spec, testbit_B by lia. destruct (Z.eqb_spec n (Z.land b 7)) as [->|]; [by rewrite E|by rewrite andb_false_r].
Qed.

Lemma TST_bit t b : table t -> 0 <= b < 65536 -> TST b t = Some (bit t b).
Proof.
  intros Ht Hb. destruct (byte_of b Hb) as (H1 & _). unfold TST, bit.
  destruct (aread_in t (Z.shiftr b 3)) as [a ->]; [unfold table in Ht; lia|]. cbn [mbind option_bind].
  by rewrite land_B by lia.
Qed.

(** A byte is replaced by one that differs only in the bit of [b]. *)
Lemma write_bit t b a v a' :
  table t -> 0 <= b < 65536 -> aread t (Z.shiftr b 3) = Some a ->
  (forall n, 0 <= n -> Z.testbit a' n = if n =? Z.land b 7 then v else Z.testbit a n) ->
  exists t', awrite t (Z.shiftr b 3) a' = Some t' /\ table t' /\
    forall c, 0 <= c < 65536 -> bit t' c = if c =? b then v else bit t c.
Proof.
  intros Ht Hb Ea Ha. destruct (byte_of b Hb) as (H1 & H2 & H3). unfold table in *.
  destruct (awrite_is_Some t (Z.shiftr b 3) a') as [t' Et]; [lia|]. exists t'. split; [done|].
  split; [by rewrite (awrite_Some_length _ _ _ _ Et)|]. intros c Hc. destruct (byte_of c Hc) as (G1 & G2 & G3).
  assert (t' = <[Z.to_nat (Z.shiftr b 3) := a']> t) as ->.
  { unfold awrite in Et. case_match; [by injection Et|done]. }
  unfold bit, aread in *. destruct (Z.ltb_spec (Z.shiftr c 3) 0); [lia|]. destruct (Z.ltb_spec (Z.shiftr b 3) 0); [lia|].
  destruct (decide (Z.shiftr c 3 = Z.shiftr b 3)) as [E|E].
  - rewrite E, list_lookup_insert_eq, Ea by lia. rewrite Ha by lia.
    destruct (Z.eqb_spec (Z.land c 7) (Z.land b 7)), (Z.eqb_spec c b); try done; subst; lia.
  - rewrite list_lookup_insert_ne by lia. destruct (Z.eqb_spec c b); [by subst|done].
Qed.

Lemma CLR_bit t b : table t -> 0 <= b < 65536 -> exists t', CLR b t = Some t' /\ table t' /\
  forall c, 0 <= c < 65536 -> bit t' c = if c =? b then false else bit t c.
Proof.
  intros Ht Hb. destruct (byte_of b Hb) as (H1 & _). unfold CLR.
  destruct (aread_in t (Z.shiftr b 3)) as [a Ea]; [unfold table in Ht; lia|]. rewrite Ea. cbn [mbind option_bind].
  apply (write_bit t b a); [done..|]. intros n Hn. rewrite Z.land_spec, Z.lnot_spec, testbit_B by lia.
  destruct (n =? Z.land b 7); [apply andb_false_r|apply andb_true_r].
Qed.
Lemma SET_bit t b : table t -> 0 <= b < 65536 -> exists t', SET b t = Some t' /\ table t' /\
  forall c, 0 <= c < 65536 -> bit t' c = if c =? b then true else bit t c.
Proof.
  intros Ht Hb. destruct (byte_of b Hb) as (H1 & _). unfold SET.
  destruct (aread_in t (Z.shiftr b 3)) as [a Ea]; [unfold table in Ht; lia|]. rewrite Ea. cbn [mbind option_bind].
  apply (write_bit t b a); [done..|]. intros n Hn. rewrite Z.lor_spec, testbit_B by lia.
  destruct (n =? Z.land b 7); [apply orb_true_r|apply orb_false_r].
Qed.

(** ** The requests without a reply *)

Definition ind (f : Z -> bool) (b : Z) : Z := if f b then 0 else 1.
(** How many elements of [l] do not satisfy [f]. *)
Fixpoint missing (f : Z -> bool) (l : list Z) : Z :=
  match l with [] => 0 | b :: l => ind f b + missing f l end.

Lemma missing_nonneg f l : 0 <= missing f l.
Proof. induction l; cbn; unfold ind; [lia|]. case_match; lia. Qed.
Lemma missing_app f l1 l2 : missing f (l1 ++ l2) = missing f l1 + missing f l2.
Proof. induction l1; cbn; lia. Qed.
Lemma missing_ext f h l : (forall c, c ∈ l -> h c = f c) -> missing h l = missing f l.
Proof.
  induction l as [|c l IH]; intros H; cbn; [done|]. unfold ind. rewrite H, IH; [done| |by constructor].
  intros c' Hc. apply H. by constructor.
Qed.
Lemma missing_update f h b l :
  NoDup l -> b ∈ l -> (forall c, c ∈ l -> c <> b -> h c = f c) -> missing h l = missing f l - ind f b + ind h b.
Proof.
  induction l as [|c l IH]; intros Hl Hb Heq; [by apply elem_of_nil in Hb|].
  apply NoDup_cons in Hl as [Hc Hl]. cbn. destruct (decide (c = b)) as [->|Hne].
  - rewrite (missing_ext f h l); [lia|]. intros c Hc'. apply Heq; [by constructor|]. intros ->. done.
  - apply elem_of_cons in Hb as [->|Hb]; [done|]. rewrite IH; [|done|done|].
    + unfold ind at 1. rewrite Heq; [|by constructor|done]. unfold ind at 3. lia.
    + intros c' H' Hn. apply Heq; [by constructor|done].
Qed.

(** The places of the table that [n] requests have used, and how many of them
    have no reply. *)
Definition used (n : Z) : list Z := seqZ 0 (Z.min n 65536).
Definition unanswered (t : list Z) (n : Z) : Z := missing (bit t) (used n).

Lemma elem_of_used n b : b ∈ used n <-> 0 <= b < n /\ b < 65536.
Proof. unfold used. rewrite elem_of_seqZ. lia. Qed.

Lemma unanswered_send t t' n :
  0 <= n -> (forall c, 0 <= c < 65536 -> bit t' c = if c =? u16 n then false else bit t c) ->
  unanswered t' (n + 1) <= unanswered t n + 1.
Proof.
  intros Hn Hb. unfold unanswered. destruct (Z.ltb_spec n 65536) as [Hlt|Hge].
  - assert (used (n + 1) = used n ++ [n]) as ->.
    { unfold used. rewrite !Z.min_l by lia. rewrite seqZ_app by lia. by rewrite Z.add_0_l. }
    rewrite u16_small in Hb by (unfold is_u16; lia). rewrite missing_app. cbn.
    rewrite (missing_ext (bit t) (bit t') (used n)).
    + unfold ind. case_match; lia.
    + intros c Hc. apply elem_of_used in Hc. rewrite Hb by lia. destruct (Z.eqb_spec c n); [lia|done].
  - assert (used (n + 1) = used n) as -> by (unfold used; f_equal; lia).
    pose proof (u16_range n) as Hr. unfold is_u16 in Hr.
    rewrite (missing_update (bit t) (bit t') (u16 n)).
    + unfold ind. repeat case_match; lia.
    + apply NoDup_seqZ.
    + apply elem_of_used. lia.
    + intros c Hc Hne. apply elem_of_used in Hc. rewrite Hb by lia. destruct (Z.eqb_spec c (u16 n)); [lia|done].
Qed.

Lemma unanswered_reply t t' n b :
  b ∈ used n -> bit t b = false -> (forall c, 0 <= c < 65536 -> bit t' c = if c =? b then true else bit t c) ->
  unanswered t' n = unanswered t n - 1.
Proof.
  intros Hu Hf Hb. unfold unanswered. rewrite (missing_update (bit t) (bit t') b); [|apply NoDup_seqZ|done|].
  - apply elem_of_used in Hu. unfold ind. rewrite Hf, Hb, Z.eqb_refl by lia. lia.
  - intros c Hc Hne. apply elem_of_used in Hc. rewrite Hb by lia. destruct (Z.eqb_spec c b); [lia|done].
Qed.

(** ** The checksum: an int is large enough *)
Section Checksum.
Context `{HP : Platform}.

Lemma cksum_loop_eq w : forall nleft sum,
  Forall is_byte w -> 0 <= sum -> sum + 65535 * Z.max 0 nleft / 2 < 2 ^ 31 - 65535 ->
  cksum_loop w nleft sum = in_cksum_loop w nleft sum.
Proof.
  induction w as [|a|a b w IH] using list_ind2; intros nleft sum Hw Hs Hb; cbn [cksum_loop in_cksum_loop];
    destruct (Z.ltb_spec 1 nleft); try done.
  inversion_clear Hw as [|? ? Ha Hw']. inversion_clear Hw' as [|? ? Hb' Hw].
  pose proof (load16_range a b Ha Hb') as Hr. unfold is_u16 in Hr. change (2 ^ 31) with 2147483648 in *.
  assert (65535 * Z.max 0 nleft / 2 = 65535 + 65535 * Z.max 0 (nleft - 2) / 2) as E.
  { rewrite !Z.max_r by lia. replace (65535 * nleft) with (65535 * (nleft - 2) + 65535 * 2) by lia. rewrite Z.div_add by lia. lia. }
  pose proof (Z.div_pos (65535 * Z.max 0 (nleft - 2)) 2 ltac:(lia) ltac:(lia)).
  unfold int_add. change (2 ^ 31) with 2147483648. destruct (Z.ltb_spec (sum + load16 a b) 2147483648); [|lia].
  cbn [mbind option_bind]. rewrite IH; [|done|lia|change (2 ^ 31) with 2147483648; lia].
  by rewrite u32_small by (unfold is_u32; lia).
Qed.

Lemma in_cksum_loop_bound w : forall nleft sum w' n s,
  Forall is_byte w -> 0 <= sum -> sum + 65535 * Z.max 0 nleft / 2 < 2 ^ 31 - 65535 ->
  in_cksum_loop w nleft sum = Some (w', n, s) -> 0 <= s < 2 ^ 31 - 65535 /\ Forall is_byte w'.
Proof.
  induction w as [|a|a b w IH] using list_ind2; intros nleft sum w' n s Hw Hs Hb; cbn [in_cksum_loop];
    pose proof (Z.div_pos (65535 * Z.max 0 nleft) 2 ltac:(lia) ltac:(lia)) as Hd;
    destruct (Z.ltb_spec 1 nleft); intros E; try done; try (injection E as <- <- <-; split; [lia|done]).
  inversion_clear Hw as [|? ? Ha Hw']. inversion_clear Hw' as [|? ? Hb' Hw].
  pose proof (load16_range a b Ha Hb') as Hr. unfold is_u16 in Hr. change (2 ^ 31) with 2147483648 in *.
  assert (65535 * Z.max 0 nleft / 2 = 65535 + 65535 * Z.max 0 (nleft - 2) / 2) as E'.
  { rewrite !Z.max_r by lia. replace (65535 * nleft) with (65535 * (nleft - 2) + 65535 * 2) by lia. rewrite Z.div_add by lia. lia. }
  pose proof (Z.div_pos (65535 * Z.max 0 (nleft - 2)) 2 ltac:(lia) ltac:(lia)).
  rewrite u32_small in E by (unfold is_u32; lia). eapply IH in E; [exact E|done|lia|lia].
Qed.

(** The two checksums agree on every packet that ping sends. *)
Lemma bsd_in_cksum_eq a len :
  Forall is_byte a -> 0 <= len <= 65500 -> BsdPing.in_cksum a len = Cksum.in_cksum a len.
Proof.
  intros Ha Hl. unfold BsdPing.in_cksum, Cksum.in_cksum.
  assert (0 + 65535 * Z.max 0 len / 2 < 2 ^ 31 - 65535) as Hb.
  { rewrite Z.max_r by lia. change (2 ^ 31) with 2147483648.
    pose proof (Z.div_le_mono (65535 * len) (65535 * 65500) 2 ltac:(lia) ltac:(lia)). change (65535 * 65500 / 2) with 2146271250 in *. lia. }
  rewrite cksum_loop_eq by (done || lia). destruct (in_cksum_loop a len 0) as [[[w n] s]|] eqn:E; [|done].
  apply in_cksum_loop_bound in E as [Hs Hw]; [|done|lia|done]. cbn [mbind option_bind]. change (2 ^ 31) with 2147483648 in *.
  assert (forall x, 0 <= x < 2147483648 -> u16 (Z.lnot (Z.shiftr x 16 + Z.land x 65535 + Z.shiftr (Z.shiftr x 16 + Z.land x 65535) 16)) =
    u16 (Z.lnot (fold_carry x))) as Hf.
  { intros x Hx. unfold fold_carry. rewrite !Z.shiftr_div_pow2 by lia. change 65535 with (Z.ones 16). rewrite Z.land_ones by lia.
    change (2 ^ 16) with 65536. pose proof (Z.mod_pos_bound x 65536).
    assert (0 <= x / 65536 < 32768) by (split; [apply Z.div_pos; lia|apply Z.div_lt_upper_bound; lia]).
    assert (0 <= (x / 65536 + x mod 65536) / 65536 < 32768) by (split; [apply Z.div_pos; lia|apply Z.div_lt_upper_bound; lia]).
    by rewrite !(u32_small (x / 65536 + x mod 65536)), u32_small by (unfold is_u32; lia). }
  destruct (Z.eqb_spec n 1); cbn [mbind option_bind]; [|by rewrite Hf by lia].
  destruct (aread w 0) as [b|] eqn:Eb; cbn [mbind option_bind]; [|done].
  assert (is_byte b) as Hby.
  { unfold aread in Eb. change (0 <? 0) with false in Eb. cbv iota in Eb. by eapply Forall_lookup_1 in Hw. }
  pose proof (load16_range b 0 Hby ltac:(unfold is_byte; lia)) as Hr. unfold is_u16 in Hr.
  unfold int_add. change (2 ^ 31) with 2147483648. destruct (Z.ltb_spec (s + load16 b 0) 2147483648); [|lia].
  cbn [mbind option_bind]. rewrite Hf by lia. by rewrite u32_small by (unfold is_u32; lia).
Qed.

(** The loop reads at most [nleft] bytes. *)
Lemma in_cksum_loop_some w : forall nleft sum, nleft <= Z.of_nat (length w) ->
  exists w' n s, in_cksum_loop w nleft sum = Some (w', n, s) /\ n <= Z.of_nat (length w').
Proof.
  induction w as [|a|a b w IH] using list_ind2; intros nleft sum Hl; cbn [in_cksum_loop length] in *;
    destruct (Z.ltb_spec 1 nleft); try lia; try (eexists _, _, _; split; [done|cbn; lia]).
  apply IH. lia.
Qed.
Lemma bsd_in_cksum_some a len :
  Forall is_byte a -> 0 <= len <= 65500 -> len <= Z.of_nat (length a) -> exists s, BsdPing.in_cksum a len = Some s.
Proof.
  intros Ha Hl Hb. rewrite bsd_in_cksum_eq by done. unfold Cksum.in_cksum.
  destruct (in_cksum_loop_some a len 0 Hb) as (w & n & s & -> & Hn). cbn [mbind option_bind].
  destruct (Z.eqb_spec n 1) as [->|]; cbn [mbind option_bind]; [|by eexists].
  destruct (aread_in w 0) as [b ->]; [lia|]. by eexists.
Qed.
End Checksum.

(** ** The network *)

(** The sequence number of an echo reply to the process [id]. *)
Definition reply_seq `{Platform} (id : Z) (bs : list Z) : option Z :=
  b0 ← aread bs 0;
  let h := Z.shiftl (Z.land b0 15) 2 in
  if Z.of_nat (length bs) <? h + 8 then None
  else
    type ← aread bs h;
    i ← aread16 bs (h + 4);
    if (type =? Ping.ICMP_ECHOREPLY) && (i =? id) then aread16 bs (h + 6) else None.

(** No byte of the IP options starts a recorded route of more than ten
    addresses. *)
Definition small_at (bs : list Z) (q : Z) : bool :=
  match aread bs q, aread bs (q + 1), aread bs (q + 2) with
  | Some c, Some j, Some i =>
      negb (c =? IPOPT_RR) && negb (c =? IPOPT_LSRR) || (c =? IPOPT_RR) && (Z.min i j <=? 44) || (c =? IPOPT_LSRR) && (j <=? 44)
  | _, _, _ => true
  end.
Definition small_options (bs : list Z) : Prop :=
  forall b0 q, aread bs 0 = Some b0 -> 20 <= q < Z.shiftl (Z.land b0 15) 2 -> small_at bs q = true.

Definition quiet {X} (e : sysE X) : bool :=
  match e with Esendto _ _ _ _ _ | Erecvfrom _ _ _ => false | _ => true end.

(** What ping needs of the system: [echoes] are the sequence numbers of the
    requests that may still be answered, [replies] counts the replies delivered. *)
Class EchoKernel (K : Type) `{!Kernel K} `{HP : Platform} (id : Z) := {
  echoes : K -> gset Z;
  replies : K -> Z;
  ek_quiet : forall X (e : sysE X) k, quiet e = true -> echoes (kcall e k).2 = echoes k /\ replies (kcall e k).2 = replies k;
  ek_lib : forall X (e : libE X) k, echoes (klib e k).2 = echoes k /\ replies (klib e k).2 = replies k;
  ek_sendto : forall fd bs fl sa len k q, aread16 bs 6 = Some q ->
    let k' := (kcall (Esendto fd bs fl sa len) k).2 in (echoes k' ⊆ {[q]} ∪ echoes k) /\ replies k' = replies k;
  ek_recv : forall fd n fl k,
    match kcall (Erecvfrom fd n fl) k with
    | (Ok (bs, (sa, _)), k') =>
        Z.of_nat (length bs) <= n /\ Forall is_byte bs /\ small_options bs /\ (exists a, from_addr sa = Some a) /\
        (echoes k' ⊆ echoes k) /\
        match reply_seq id bs with
        | Some q => q ∈ echoes k /\ replies k' = replies k + 1
        | None => replies k' = replies k
        end
    | (Err _, k') => (echoes k' ⊆ echoes k) /\ replies k' = replies k
    end;
  ek_pid : forall k, Z.land (klib Egetpid k).1 0xffff = id;
  ek_socket : forall f t pr k, match kcall (Esocket f t pr) k with (Ok s, _) => 0 <= s < FD_SETSIZE | _ => True end;
  ek_host : forall name k, match (klib (Egethostbyname name) k).1 with
    | Some h => h_addrtype h = AF_INET /\ h_length h = 4 /\ (exists a as_, h_addr_list h = a :: as_ /\ length a = 4%nat) /\
                Z.of_nat (length (h_name h)) < 255
    | None => True
    end }.

Section Ping.
Context {K : Type} `{HK : !Kernel K} `{HP : Platform} (id : Z) `{HE : !EchoKernel K id}.
Implicit Types (k : K) (g : globals).

Abbreviation W := (wp (fun h => exists n, h = Exit n)).

Definition same k k' : Prop := (echoes (id := id) k' ⊆ echoes (id := id) k) /\ replies (id := id) k' = replies (id := id) k.
Lemma ping_same_refl k : same k k.
Proof. by split. Qed.
Lemma ping_same_trans k1 k2 k3 : same k1 k2 -> same k2 k3 -> same k1 k3.
Proof. intros [H1 H2] [H3 H4]. split; [by transitivity (echoes (id := id) k2)|congruence]. Qed.
Lemma same_call {X} (e : sysE X) k r k' : kcall e k = (r, k') -> quiet e = true -> same k k'.
Proof. intros E Hq. destruct (ek_quiet (id := id) X e k Hq) as [H1 H2]. rewrite E in *. by split; [rewrite <- H1|]. Qed.
Lemma same_klib {X} (e : libE X) k r k' : klib e k = (r, k') -> same k k'.
Proof. intros E. destruct (ek_lib (id := id) X e k) as [H1 H2]. rewrite E in *. by split; [rewrite <- H1|]. Qed.

Lemma wp_quiet {X} (e : sysE X) (Q : res X -> globals -> K -> Prop) g k :
  quiet e = true -> (forall r g' k', same k k' -> Q r g' k') -> W (call e) Q g k.
Proof. intros Hq HQ. apply wp_call; intros v k' E; apply HQ; by eapply same_call. Qed.
Lemma wp_quiet_ {X} (e : sysE X) (Q : unit -> globals -> K -> Prop) g k :
  quiet e = true -> (forall g' k', same k k' -> Q tt g' k') -> W (call_ e) Q g k.
Proof. intros Hq HQ. apply wp_call_. intros r k' E. apply HQ. by eapply same_call. Qed.
Lemma wp_klib {X} (e : libE X) (Q : X -> globals -> K -> Prop) g k :
  (forall v k', klib e k = (v, k') -> same k k' -> Q v g k') -> W (lib e) Q g k.
Proof. intros HQ. apply wp_lib. intros v k' E. apply HQ; [done|by eapply same_klib]. Qed.

Lemma wp_warnx msg (Q : unit -> globals -> K -> Prop) g k : (forall g' k', same k k' -> Q tt g' k') -> W (warnx msg) Q g k.
Proof. intros HQ. unfold warnx. by apply wp_quiet_. Qed.
Lemma wp_warn msg (Q : unit -> globals -> K -> Prop) g k : (forall g' k', same k k' -> Q tt g' k') -> W (warn msg) Q g k.
Proof.
  intros HQ. unfold warn. wp_step. apply wp_bind, wp_klib. intros es k1 _ H1. apply wp_quiet_; [done|].
  intros g' k2 H2. apply HQ. by eapply ping_same_trans.
Qed.
Lemma wp_errx {A} msg (Q : A -> globals -> K -> Prop) g k : W (errx msg) Q g k.
Proof. unfold errx. apply wp_bind, wp_warnx. intros. apply wp_halt. by eexists. Qed.
Lemma wp_err {A} msg (Q : A -> globals -> K -> Prop) g k : W (err msg) Q g k.
Proof. unfold err. apply wp_bind, wp_warn. intros. apply wp_halt. by eexists. Qed.
Lemma wp_err_null {A} (Q : A -> globals -> K -> Prop) g k : W err_null Q g k.
Proof.
  unfold err_null. wp_step. apply wp_bind, wp_klib. intros. apply wp_bind, wp_quiet_; [done|]. intros. apply wp_halt. by eexists.
Qed.

(** *** The invariant *)

(** [d] is the length of the data, and [r0] the number of replies delivered
    before main. *)
Record inv (d r0 : Z) (p : ping) (k : K) : Prop := {
  i_tbl : table (rcvd_tbl p);
  i_out : Z.of_nat (length (outpack p)) = MAXPACKET;
  i_bytes : Forall is_byte (outpack p);
  i_data : datalen p = d;
  i_len : 0 <= d <= MAXPACKET - 16;
  i_id : ident p = id;
  i_sock : 0 <= sock p < FD_SETSIZE;
  i_rr : Z.of_nat (length (old_rr p)) = MAX_IPOPTLEN;
  i_npackets : npackets p = 0;
  i_alrm : alrm p <> h_onint;
  i_sent : 0 <= ntransmitted p;
  i_nonneg : 0 <= nreceived p /\ 0 <= nrepeats p;
  i_echo : forall q, q ∈ echoes (id := id) k -> exists j, 0 <= j < ntransmitted p /\ q = u16 j;
  i_count : nreceived p + unanswered (rcvd_tbl p) (ntransmitted p) <= ntransmitted p;
  i_total : nreceived p + nrepeats p = replies (id := id) k - r0 }.

Lemma ping_inv_same d r0 p k k' : inv d r0 p k -> same k k' -> inv d r0 p k'.
Proof.
  intros H [H1 H2]. destruct H. constructor; try done.
  - intros q Hq. apply i_echo0. by apply H1.
  - by rewrite H2.
Qed.
Lemma inv_says d r0 l p k : inv d r0 p k -> inv d r0 (says l p) k.
Proof. intros []. by constructor. Qed.
Lemma inv_times d r0 lo hi sum p k : inv d r0 p k -> inv d r0 (with_times lo hi sum p) k.
Proof. intros []. by constructor. Qed.
Lemma inv_rr d r0 n rr p k : inv d r0 p k -> Z.of_nat (length rr) = MAX_IPOPTLEN -> inv d r0 (with_rr n rr p) k.
Proof. intros [] ?. by constructor. Qed.
Lemma inv_alrm d r0 p k : inv d r0 p k -> inv d r0 (with_alrm h_onalrm p) k.
Proof. intros []. by constructor. Qed.

(** *** Sending *)

(** The header without its checksum. *)
Definition header (c : list Z) (i q : Z) : list Z := [Ping.ICMP_ECHO; 0] ++ c ++ store16 i ++ store16 q.

Lemma header_fields c i q r :
  length c = 2%nat -> is_u16 q ->
  aread16 (header c i q ++ r) 6 = Some q /\
  (forall c', length c' = 2%nat -> memcpy (header c i q ++ r) 2 c' = Some (header c' i q ++ r)) /\
  (forall m m' x, r = m ++ x -> length m = length m' -> memcpy (header c i q ++ r) 8 m' = Some (header c i q ++ m' ++ x)).
Proof.
  intros Hc Hq. unfold header. split; [|split].
  - rewrite <- !app_assoc, !(app_assoc [Ping.ICMP_ECHO; 0]), (app_assoc (_ ++ c)). apply aread16_app; [done|].
    rewrite !length_app, store16_length, Hc. done.
  - intros c' Hc'. rewrite <- !app_assoc. apply memcpy_app; [done|lia].
  - intros m m' x -> Hm. apply memcpy_app; [|done]. rewrite !length_app, !store16_length, Hc. done.
Qed.

Lemma header_bytes c i q : Forall is_byte c -> Forall is_byte (header c i q).
Proof.
  intros. unfold header. rewrite !Forall_app. split_and!; auto using store16_bytes.
  unfold Ping.ICMP_ECHO. repeat constructor; unfold is_byte; lia.
Qed.
Lemma header_length c i q : length c = 2%nat -> length (header c i q) = 8%nat.
Proof. intros Hc. unfold header. by rewrite !length_app, !store16_length, Hc. Qed.

(** The first assignments of pinger. *)
Lemma outpack_header b i q :
  Z.of_nat (length b) = MAXPACKET -> Forall is_byte b -> exists b0 b1 b2 b3 r,
  awrite b 0 Ping.ICMP_ECHO = Some b0 /\ awrite b0 1 0 = Some b1 /\ memcpy b1 2 (store16 0) = Some b2 /\
  memcpy b2 6 (store16 q) = Some b3 /\ memcpy b3 4 (store16 i) = Some (header (store16 0) i q ++ r) /\
  Z.of_nat (length r) = MAXPACKET - 8 /\ Forall is_byte r.
Proof.
  intros Hl Hb. unfold MAXPACKET in *.
  destruct b as [|a0 [|a1 [|a2 [|a3 [|a4 [|a5 [|a6 [|a7 r]]]]]]]]; cbn [length] in Hl; try lia.
  assert (forall z, exists x y, store16 z = [x; y]) as Hst.
  { intros z. unfold store16. destruct big_endian; by eexists _, _. }
  destruct (Hst 0) as (z0 & z1 & Ez), (Hst q) as (q0 & q1 & Eq), (Hst i) as (i0 & i1 & Ei). unfold header. rewrite Ez, Eq, Ei.
  eexists _, _, _, _, r. split_and!.
  - by apply (awrite_app []).
  - by apply (awrite_app [_]).
  - by apply (memcpy_app [_; _] [a2; a3]).
  - by apply (memcpy_app [_; _; _; _; _; _] [a6; a7]).
  - exact (memcpy_app [8; 0; z0; z1] [a4; a5] ([q0; q1] ++ r) [i0; i1] 4 eq_refl eq_refl).
  - lia.
  - by do 8 (apply Forall_cons in Hb as [_ Hb]).
Qed.

Lemma inv_sent d r0 p t b k k' :
  inv d r0 p k -> table t -> (forall c, 0 <= c < 65536 -> bit t c = if c =? u16 (ntransmitted p) then false else bit (rcvd_tbl p) c) ->
  Z.of_nat (length b) = MAXPACKET -> Forall is_byte b ->
  (echoes (id := id) k' ⊆ {[u16 (ntransmitted p)]} ∪ echoes (id := id) k) -> replies (id := id) k' = replies (id := id) k ->
  inv d r0 (with_sent t b (ntransmitted p + 1) p) k'.
Proof.
  intros [] Ht Hbit Hl Hb He Hr. constructor; cbn; try done; try lia.
  - intros q Hq. apply He, elem_of_union in Hq as [->%elem_of_singleton|Hq].
    + exists (ntransmitted p). split; [lia|done].
    + destruct (i_echo0 q Hq) as (j & Hj & ->). exists j. split; [lia|done].
  - pose proof (unanswered_send _ _ _ i_sent0 Hbit). lia.
Qed.

Lemma wp_sent_report d r0 cc i p g k : inv d r0 p k -> W (sent_report cc i p) (fun p' _ k' => inv d r0 p' k') g k.
Proof.
  intros Hi. unfold sent_report. apply (wp_seq _ _ _ (fun p' _ k' => inv d r0 p' k')).
  { case_match; [|by wp_step]. apply (wp_seq _ _ _ (fun _ _ k' => inv d r0 p k')).
    - case_match; [|by wp_step]. apply wp_warn. intros. by eapply ping_inv_same.
    - intros ? g3 k3 H3. wp_step. by apply inv_says. }
  intros p2 g3 k3 H3. apply (wp_seq _ _ _ (fun _ _ k' => inv d r0 p2 k')).
  { case_match; [|by wp_step]. apply wp_quiet_; [done|]. intros. by eapply ping_inv_same. }
  intros ? g4 k4 H4. by wp_step.
Qed.

(** The time stamp goes behind the header. *)
Lemma wp_stamp d r0 p h r g k :
  inv d r0 p k -> Z.of_nat (length r) = MAXPACKET - 8 -> Forall is_byte r ->
  (forall m m' x, r = m ++ x -> length m = length m' -> memcpy (h ++ r) 8 m' = Some (h ++ m' ++ x)) ->
  W (if timing p =? 0 then Ret (h ++ r)
     else rr ← call Egettimeofday;
          match rr with Ok tv => mem (memcpy (h ++ r) 8 (store_timeval tv)) | Err _ => Ret (h ++ r) end)
    (fun b _ k' => same k k' /\ exists r', b = h ++ r' /\ Z.of_nat (length r') = MAXPACKET - 8 /\ Forall is_byte r') g k.
Proof.
  intros Hi Hr Hrb F. case_match.
  - wp_step. split; [apply ping_same_refl|by exists r].
  - apply wp_bind, wp_quiet; [done|]. intros [tv|e] g' k' Hs; [|wp_step; split; [done|by exists r]].
    assert (r = take 16 r ++ drop 16 r) as Er by (by rewrite take_drop). unfold MAXPACKET in Hr.
    eapply wp_mem; [apply (F _ _ _ Er); rewrite store_timeval_length, length_take; lia|].
    split; [done|]. eexists. split; [done|]. rewrite length_app, store_timeval_length, length_drop. unfold MAXPACKET. split; [lia|].
    apply Forall_app. split; [apply store_timeval_bytes|by apply Forall_drop].
Qed.

Lemma wp_pinger d r0 p g k : inv d r0 p k -> W (pinger p) (fun p' _ k' => inv d r0 p' k') g k.
Proof.
  intros Hi. pose proof Hi as []. unfold pinger.
  destruct (outpack_header (outpack p) (u16 (ident p)) (u16 (ntransmitted p))) as (b0 & b1 & b2 & b3 & r & E0 & E1 & E2 & E3 & E4 & Hr & Hrb);
    [done..|].
  do 5 (wp_step; [eassumption|]).
  destruct (header_fields (store16 0) (u16 (ident p)) (u16 (ntransmitted p)) r (store16_length _) (u16_range _)) as (F1 & _ & F3).
  wp_step; [exact F1|]. pose proof (u16_range (ntransmitted p)) as Hu. unfold is_u16 in Hu.
  rewrite Z.mod_small by (unfold mx_dup_ck, MAX_DUP_CHK; lia).
  destruct (CLR_bit (rcvd_tbl p) (u16 (ntransmitted p)) i_tbl0 ltac:(lia)) as (t & Et & Ht & Hbit).
  wp_step; [exact Et|].
  eapply wp_seq; [by apply (wp_stamp d r0 p _ r)|].
  intros b5 g1 k1 (Hs1 & r' & -> & Hr' & Hrb').
  assert (Forall is_byte (header (store16 0) (u16 (ident p)) (u16 (ntransmitted p)) ++ r')) as Hb5
    by (apply Forall_app; split; [apply header_bytes, store16_bytes|done]).
  assert (Z.of_nat (length (header (store16 0) (u16 (ident p)) (u16 (ntransmitted p)) ++ r')) = MAXPACKET) as Hl5
    by (rewrite length_app, header_length by apply store16_length; lia).
  unfold MAXPACKET in *. destruct (bsd_in_cksum_some _ (datalen p + 8) Hb5) as [sum Esum]; [lia|lia|].
  wp_step; [exact Esum|].
  destruct (header_fields (store16 0) (u16 (ident p)) (u16 (ntransmitted p)) r' (store16_length _) (u16_range _)) as (_ & F2 & _).
  wp_step; [apply F2, store16_length|].
  assert (exists m x, r' = m ++ x /\ Z.of_nat (length m) = datalen p) as (m & x & -> & Hm).
  { exists (take (Z.to_nat (datalen p)) r'), (drop (Z.to_nat (datalen p)) r'). rewrite take_drop, length_take. split; [done|lia]. }
  set (bs := header (store16 sum) (u16 (ident p)) (u16 (ntransmitted p)) ++ m).
  wp_step.
  { rewrite app_assoc. apply (asub_app [] bs x); [done|]. unfold bs. rewrite length_app, header_length by apply store16_length. lia. }
  cbv zeta. set (p1 := with_sent _ _ _ p).
  apply (wp_seq _ _ _ (fun _ _ k' => inv d r0 p1 k')).
  { destruct (header_fields (store16 sum) (u16 (ident p)) (u16 (ntransmitted p)) m (store16_length _) (u16_range _)) as (G1 & _).
    pose proof (ek_sendto (id := id) (sock p) bs 0 (Some (whereto p)) 16 k1 _ G1) as Hk. cbv zeta in Hk.
    assert (inv d r0 p1 (kcall (Esendto (sock p) bs 0 (Some (whereto p)) 16) k1).2) as Hinv.
    { destruct Hk, Hs1 as [Hs1 Hs2]. apply (inv_sent d r0 p _ _ k); try done.
      - rewrite app_assoc, length_app in *. rewrite !length_app in *. rewrite !header_length in * by apply store16_length.
        unfold MAXPACKET. lia.
      - apply Forall_app in Hb5 as [_ Hb5]. apply Forall_app. split; [apply header_bytes, store16_bytes|done].
      - set_solver.
      - congruence. }
    apply wp_call; intros v k' E; by rewrite E in Hinv. }
  intros rr g2 k2 Hi2. by apply wp_sent_report.
Qed.

(** *** Receiving *)

Lemma asub_in {A} (a : list A) off n : 0 <= off -> 0 <= n -> off + n <= Z.of_nat (length a) ->
  exists m, asub a off n = Some m /\ Z.of_nat (length m) = n.
Proof.
  intros. unfold asub. zbool. eexists. split; [done|]. rewrite length_take, length_drop. lia.
Qed.

(** Reads that are known to be in range. *)
Ltac reads :=
  repeat match goal with
  | |- context [aread ?b ?o] => let E := fresh in destruct (aread_in b o) as [? E]; [lia|rewrite !E; clear E; cbn [mbind option_bind]]
  | |- context [aread16 ?b ?o] => let E := fresh in destruct (aread16_in b o) as [? E]; [lia|rewrite !E; clear E; cbn [mbind option_bind]]
  | |- context [asub ?b ?o ?n] => let E := fresh in destruct (asub_in b o n) as (? & E & _); [lia..|rewrite !E; clear E; cbn [mbind option_bind]]
  end.

Lemma dump_options_some n : forall buf cp,
  0 <= cp -> cp + Z.of_nat n <= Z.of_nat (length buf) -> exists t, dump_options n buf cp = Some t.
Proof.
  induction n as [|n IH]; intros buf cp H0 Hl; cbn [dump_options]; [by eexists|]. reads.
  destruct (IH buf (cp + 1)) as [t ->]; [lia|lia|]. by eexists.
Qed.

Lemma hlen_bound b : 0 <= Z.shiftl (Z.land b 15) 2 <= 60.
Proof.
  rewrite Z.shiftl_mul_pow2 by lia. change 15 with (Z.ones 4). rewrite Z.land_ones by lia.
  pose proof (Z.mod_pos_bound b (2 ^ 4)). lia.
Qed.

Lemma pr_iph_some buf ip : 0 <= ip -> ip + 60 <= Z.of_nat (length buf) -> exists t, pr_iph buf ip = Some t.
Proof.
  intros H0 Hl. unfold pr_iph. destruct (aread_in buf ip) as [b0 ->]; [lia|]. cbn [mbind option_bind].
  reads. pose proof (hlen_bound b0).
  destruct (dump_options_some (Z.to_nat (Z.shiftl (Z.land b0 15) 2 - 20)) buf (ip + 20)) as [t ->]; [lia|lia|]. by eexists.
Qed.
Lemma pr_retip_some buf ip : 0 <= ip -> ip + 64 <= Z.of_nat (length buf) -> exists t, pr_retip buf ip = Some t.
Proof.
  intros H0 Hl. unfold pr_retip. destruct (pr_iph_some buf ip) as [t ->]; [lia|lia|]. cbn [mbind option_bind].
  destruct (aread_in buf ip) as [b0 ->]; [lia|]. cbn [mbind option_bind]. pose proof (hlen_bound b0). reads.
  destruct (_ || _); [|by eexists]. by eexists.
Qed.
Lemma pr_icmph_some buf icp : 0 <= icp -> icp + 72 <= Z.of_nat (length buf) -> exists t, pr_icmph buf icp = Some t.
Proof.
  intros H0 Hl. unfold pr_icmph. destruct (pr_retip_some buf (icp + 8)) as [t ->]; [lia|lia|]. cbn [mbind option_bind].
  reads. repeat case_match; by eexists.
Qed.

Lemma wp_pr_addr l p (Q : list Z -> globals -> K -> Prop) g k :
  (forall t k', same k k' -> Q t g k') -> W (pr_addr l p) Q g k.
Proof.
  intros HQ. unfold pr_addr. case_match; [wp_step; apply HQ, ping_same_refl|].
  apply wp_bind, wp_klib. intros [h|] k' _ Hs; wp_step; by apply HQ.
Qed.

(** Where the scan of the options stands: [cp] and [hlen] move together. *)
Definition scan (d r0 z cp : Z) (r : Z * Z * ping) (k : K) : Prop :=
  let '(cp', hlen', p') := r in inv d r0 p' k /\ cp <= cp' /\ (hlen' = 0 \/ cp' + hlen' = z).

Lemma wp_route_loop d r0 lim buf fuel : forall cp hlen n p g k,
  inv d r0 p k -> 0 <= cp -> lim < n <= lim + 4 * Z.of_nat fuel -> cp + (n - lim) + 3 < Z.of_nat (length buf) ->
  W (route_loop fuel lim buf cp hlen n p) (fun r _ k' => scan d r0 (cp + hlen) cp r k') g k.
Proof.
  induction fuel as [|f IH]; intros cp hlen n p g k Hi Hcp Hn Hl; [lia|]. cbn [route_loop].
  destruct (aread_in buf (cp + 1)) as [b1 E1]; [lia|]. destruct (aread_in buf (cp + 2)) as [b2 E2]; [lia|].
  destruct (aread_in buf (cp + 3)) as [b3 E3]; [lia|]. destruct (aread_in buf (cp + 4)) as [b4 E4]; [lia|].
  do 4 (wp_step; [eassumption|]). cbv zeta.
  apply (wp_seq _ _ _ (fun p' _ k' => inv d r0 p' k')).
  { case_match; [wp_step; by apply inv_says|]. apply wp_bind, wp_pr_addr. intros t k' Hs. wp_step.
    apply inv_says. by eapply ping_inv_same. }
  intros p1 g1 k1 H1. destruct (Z.leb_spec (n - 4) lim) as [Hle|Hgt].
  - wp_step. split_and!; [done|lia|right; lia].
  - eapply wp_mono; [apply IH; [by apply inv_says|lia..]|]. intros [[cp' hlen'] p'] g' k' (H2 & H3 & H4).
    split_and!; [done|lia|]. destruct H4; [by left|right; lia].
Qed.

Section Options.
Context (d r0 : Z) (bs rest : list Z) (b0 : Z).
Context (Hb0 : aread bs 0 = Some b0) (Hsmall : small_options bs).
Context (Hlen : Z.shiftl (Z.land b0 15) 2 + 8 <= Z.of_nat (length bs)) (Hbuf : 136 <= Z.of_nat (length (bs ++ rest))).
Abbreviation ihl := (Z.shiftl (Z.land b0 15) 2).

Lemma aread_bs q : 0 <= q < Z.of_nat (length bs) -> aread (bs ++ rest) q = aread bs q.
Proof.
  intros Hq. unfold aread. destruct (Z.ltb_spec q 0); [lia|]. by rewrite lookup_app_l by lia.
Qed.

(** The three bytes at an option. *)
Lemma option_bytes cp : 20 <= cp < ihl -> exists c j i,
  aread (bs ++ rest) cp = Some c /\ aread (bs ++ rest) (cp + 1) = Some j /\ aread (bs ++ rest) (cp + 2) = Some i /\
  (c = IPOPT_RR -> Z.min i j <= 44) /\ (c = IPOPT_LSRR -> j <= 44).
Proof.
  intros Hcp. pose proof (Hsmall b0 cp Hb0 Hcp) as Hs. unfold small_at in Hs. rewrite !aread_bs by lia.
  destruct (aread_in bs cp) as [c Ec]; [lia|]. destruct (aread_in bs (cp + 1)) as [j Ej]; [lia|].
  destruct (aread_in bs (cp + 2)) as [i Ei]; [lia|]. rewrite Ec, Ej, Ei in Hs. exists c, j, i. split_and!; [done..| |]; intros ->;
    cbn in Hs; rewrite ?orb_false_r in Hs; by apply Z.leb_le in Hs.
Qed.

Lemma memcpy_rr p m k : inv d r0 p k -> Z.of_nat (length m) <= 40 ->
  exists rr, memcpy (old_rr p) 0 m = Some rr /\ Z.of_nat (length rr) = MAX_IPOPTLEN.
Proof.
  intros [] Hm. unfold MAX_IPOPTLEN in *. assert (exists rr, memcpy (old_rr p) 0 m = Some rr) as [rr E].
  { unfold memcpy. zbool. by eexists. }
  exists rr. split; [done|]. by rewrite (memcpy_Some_length _ _ _ _ E).
Qed.

Lemma wp_same_route p cp i (Q : bool -> globals -> K -> Prop) g k :
  inv d r0 p k -> 0 <= cp -> 0 <= i <= 40 -> cp + i <= Z.of_nat (length (bs ++ rest)) -> (forall r, Q r g k) ->
  W (same_route (bs ++ rest) cp i p) Q g k.
Proof.
  intros [] Hcp Hi Hl HQ. unfold same_route. unfold MAX_IPOPTLEN in *. case_match; [|by wp_step].
  destruct (asub_in (bs ++ rest) cp i) as (m & -> & _); [lia..|].
  destruct (asub_in (old_rr p) 0 i) as (m' & -> & _); [lia..|].
  wp_step; [done|]. wp_step; [done|]. by wp_step.
Qed.

Lemma wp_opt_rr p cp hlen j i g k :
  inv d r0 p k -> 20 <= cp < ihl -> aread (bs ++ rest) (cp + 1) = Some j -> aread (bs ++ rest) (cp + 2) = Some i ->
  Z.min i j <= 44 -> W (opt_rr (bs ++ rest) cp hlen p) (fun r _ k' => scan d r0 (cp + hlen) cp r k') g k.
Proof.
  intros Hi Hcp Ej Ei Hmin. pose proof (hlen_bound b0) as HH. unfold opt_rr. wp_step; [exact Ej|]. wp_step; [exact Ei|]. cbv zeta.
  set (n := _ - IPOPT_MINOFF). assert (n <= 40) as Hn by (unfold n, IPOPT_MINOFF; case_match; lia).
  destruct (Z.leb_spec n 0); [wp_step; split_and!; [done|lia|right; lia]|].
  apply wp_bind, wp_same_route; [done|lia..|]. intros [|]; cbv iota.
  - wp_step. assert (0 <= (n + 3) / 4) by (apply Z.div_pos; lia). split_and!; [by apply inv_says|lia|right; lia].
  - destruct (asub_in (bs ++ rest) (cp + 2) n) as (m & Em & Hm); [lia..|]. wp_step; [exact Em|].
    destruct (memcpy_rr p m k Hi) as (rr & Er & Hr); [lia|]. wp_step; [exact Er|].
    eapply wp_mono; [apply wp_route_loop; [by apply inv_says, inv_rr|lia..]|].
    intros [[cp' hlen'] p'] g' k' (H2 & H3 & H4). split_and!; [done|lia|]. destruct H4; [by left|right; lia].
Qed.

Lemma wp_pr_option p cp hlen g k :
  inv d r0 p k -> 20 <= cp < ihl -> W (pr_option (bs ++ rest) cp hlen p) (fun r _ k' => scan d r0 (cp + hlen) cp r k') g k.
Proof.
  intros Hi Hcp. pose proof (hlen_bound b0) as HH. destruct (option_bytes cp Hcp) as (c & j & i & Ec & Ej & Ei & Hrr & Hlsrr).
  unfold pr_option. wp_step; [exact Ec|].
  destruct (Z.eqb_spec c IPOPT_EOL); [wp_step; split_and!; [done|lia|by left]|].
  destruct (Z.eqb_spec c IPOPT_LSRR) as [El|].
  { unfold opt_lsrr. wp_step; [exact Ej|]. specialize (Hlsrr El). unfold IPOPT_MINOFF. destruct (Z.ltb_spec 4 j).
    - eapply wp_mono; [apply wp_route_loop; [by apply inv_says|lia..]|].
      intros [[cp' hlen'] p'] g' k' (H2 & H3 & H4). split_and!; [done|lia|]. destruct H4; [by left|right; lia].
    - wp_step. split_and!; [by apply inv_says|lia|right; lia]. }
  destruct (Z.eqb_spec c IPOPT_RR) as [Er|]; [by eapply wp_opt_rr; eauto|].
  destruct (Z.eqb_spec c IPOPT_NOP); wp_step; (split_and!; [by apply inv_says|lia|right; lia]).
Qed.

Lemma wp_pr_options fuel : forall p cp hlen g k,
  inv d r0 p k -> 20 <= cp -> hlen <= 0 \/ cp + hlen = 20 + ihl -> hlen - 20 <= Z.of_nat fuel ->
  W (pr_options fuel (bs ++ rest) cp hlen p) (fun p' _ k' => inv d r0 p' k') g k.
Proof.
  induction fuel as [|f IH]; intros p cp hlen g k Hi Hcp Hz Hf; cbn [pr_options]; unfold sizeof_ip;
    (destruct (Z.ltb_spec 20 hlen); [|by wp_step]); [lia|].
  eapply wp_seq; [apply wp_pr_option; [done|lia]|]. intros [[cp1 hlen1] p1] g1 k1 (H1 & H2 & H3). cbv iota.
  apply IH; [done|lia|lia|lia].
Qed.

Lemma wp_pr_rest p g k :
  inv d r0 p k -> W (pr_rest (bs ++ rest) ihl p) (fun p' _ k' => inv d r0 p' k') g k.
Proof.
  intros Hi. pose proof (hlen_bound b0). unfold pr_rest. eapply wp_seq; [apply wp_pr_options; [done|unfold sizeof_ip; lia..]|].
  intros p1 g1 k1 H1. case_match; [by wp_step|]. apply wp_bind, wp_quiet_; [done|]. intros. wp_step. apply inv_says.
  eapply ping_inv_same; [exact H1|done].
Qed.
End Options.

Lemma dump_data_some n : forall i buf cp,
  0 <= cp -> cp + Z.of_nat n <= Z.of_nat (length buf) -> exists t, dump_data n i buf cp = Some t.
Proof.
  induction n as [|n IH]; intros i buf cp H0 Hl; cbn [dump_data]; [by eexists|]. reads.
  destruct (IH (i + 1) buf (cp + 1)) as [t ->]; [lia|lia|]. by eexists.
Qed.

Lemma wp_check_data d r0 buf icp n : forall i cp dp p g k,
  inv d r0 p k -> 0 <= icp <= 60 -> Z.of_nat (length buf) = d + 136 ->
  0 <= cp -> cp + Z.of_nat n <= Z.of_nat (length buf) -> 0 <= dp -> dp + Z.of_nat n <= MAXPACKET ->
  W (check_data n i buf icp cp dp p) (fun p' _ k' => inv d r0 p' k') g k.
Proof.
  induction n as [|n IH]; intros i cp dp p g k Hi Hicp Hbuf Hcp Hl Hdp Hl'; cbn [check_data]; [by wp_step|].
  pose proof Hi as []. destruct (aread_in buf cp) as [c Ec]; [lia|]. destruct (aread_in (outpack p) dp) as [x Ex]; [lia|].
  wp_step; [exact Ec|]. wp_step; [exact Ex|]. case_match.
  - destruct (dump_data_some (Z.to_nat (datalen p - 8)) 8 buf (icp + 8)) as [t Et]; [lia|lia|]. wp_step; [exact Et|].
    wp_step. by apply inv_says.
  - by apply IH; try lia.
Qed.

Lemma wp_print_reply d r0 buf cc icp seq from a time dup p g k :
  inv d r0 p k -> 0 <= icp <= 60 -> Z.of_nat (length buf) = d + 136 -> from_addr from = Some a ->
  W (print_reply buf cc icp seq from time dup p) (fun p' _ k' => inv d r0 p' k') g k.
Proof.
  intros Hi Hicp Hbuf Ha. pose proof Hi as []. unfold print_reply. wp_step; [exact Ha|].
  destruct (aread_in buf 8) as [ttl Et]; [lia|]. wp_step; [exact Et|]. cbv zeta. unfold MAXPACKET, sizeof_timeval in *.
  apply wp_check_data; try (unfold MAXPACKET; lia). by apply inv_says.
Qed.

Lemma wp_time_reply d r0 buf icp tv p (Q : double * ping -> globals -> K -> Prop) g k :
  0 <= icp -> icp + 24 <= Z.of_nat (length buf) -> inv d r0 p k -> (forall t p', inv d r0 p' k -> ntransmitted p' = ntransmitted p -> Q (t, p') g k) ->
  W (time_reply buf icp tv p) Q g k.
Proof.
  intros Hicp Hbuf Hi HQ. unfold time_reply. case_match; [wp_step; by apply HQ|].
  destruct (asub_in buf (icp + 8) 16) as (m & Em & _); [lia..|]. wp_step; [exact Em|]. wp_step. apply HQ; [by apply inv_times|done].
Qed.

(** A reply is counted once. *)
Lemma wp_count_reply d r0 q p (Q : bool * ping -> globals -> K -> Prop) g k :
  inv d (r0 + 1) p k -> q ∈ used (ntransmitted p) -> (forall dup p', inv d r0 p' k -> Q (dup, p') g k) -> W (count_reply q p) Q g k.
Proof.
  intros [] Hq HQ. pose proof Hq as Hq'. apply elem_of_used in Hq'. unfold count_reply.
  rewrite Z.mod_small by (unfold mx_dup_ck, MAX_DUP_CHK; lia). wp_step; [apply TST_bit; [done|lia]|].
  destruct (bit (rcvd_tbl p) q) eqn:E; cbv iota.
  - wp_step. apply HQ. constructor; cbn; done || lia.
  - destruct (SET_bit (rcvd_tbl p) q) as (t & Et & Ht & Hbit); [done|lia|]. wp_step; [exact Et|]. wp_step.
    pose proof (unanswered_reply _ _ _ _ Hq E Hbit). apply HQ. constructor; cbn; done || lia.
Qed.

Lemma aread16_bs bs rest q : 0 <= q < Z.of_nat (length bs) - 1 -> aread16 (bs ++ rest) q = aread16 bs q.
Proof. intros. unfold aread16. by rewrite !aread_bs by lia. Qed.

(** What pr_pack finds of the headers is what [reply_seq] says. *)
Lemma reply_seq_cases bs rest b0 :
  aread (bs ++ rest) 0 = Some b0 -> let h := Z.shiftl (Z.land b0 15) 2 in
  if Z.of_nat (length bs) <? h + 8 then reply_seq id bs = None
  else aread bs 0 = Some b0 /\ exists type i q, aread (bs ++ rest) h = Some type /\ aread16 (bs ++ rest) (h + 4) = Some i /\
    aread16 (bs ++ rest) (h + 6) = Some q /\
    reply_seq id bs = if (type =? Ping.ICMP_ECHOREPLY) && (i =? id) then Some q else None.
Proof.
  intros Eb. cbv zeta. pose proof (hlen_bound b0) as Hh. unfold reply_seq. destruct (decide (length bs = 0%nat)) as [Hz|Hz].
  - rewrite Hz. destruct (Z.ltb_spec (Z.of_nat 0) (Z.shiftl (Z.land b0 15) 2 + 8)); [|lia]. by destruct bs.
  - rewrite aread_bs in Eb by lia. rewrite Eb. cbn [mbind option_bind].
    destruct (Z.ltb_spec (Z.of_nat (length bs)) (Z.shiftl (Z.land b0 15) 2 + 8)); [done|]. split; [done|].
    rewrite !aread16_bs, aread_bs by lia.
    destruct (aread_in bs (Z.shiftl (Z.land b0 15) 2)) as [ty ->]; [lia|].
    destruct (aread16_in bs (Z.shiftl (Z.land b0 15) 2 + 4)) as [i ->]; [lia|].
    destruct (aread16_in bs (Z.shiftl (Z.land b0 15) 2 + 6)) as [q ->]; [lia|]. cbn [mbind option_bind].
    exists ty, i, q. done.
Qed.

Lemma wp_pr_pack d r0 bs rest from a tv0 p g k :
  inv d (match reply_seq id bs with Some _ => r0 + 1 | None => r0 end) p k ->
  (forall q, reply_seq id bs = Some q -> q ∈ used (ntransmitted p)) ->
  small_options bs -> from_addr from = Some a -> Z.of_nat (length (bs ++ rest)) = d + 136 ->
  W (pr_pack (bs ++ rest) (Z.of_nat (length bs)) from tv0 p) (fun p' _ k' => inv d r0 p' k') g k.
Proof.
  intros Hi Hq Hsmall Ha Hbuf. pose proof (i_len _ _ _ _ Hi) as Hd. pose proof (i_id _ _ _ _ Hi) as Hid.
  unfold pr_pack. apply wp_bind, wp_quiet; [done|].
  intros rt g1 k1 Hs1. cbv zeta. generalize (match rt with Ok tv => tv | Err _ => tv0 end). intros tv.
  apply (ping_inv_same _ _ _ _ k1) in Hi; [|done]. destruct (aread_in (bs ++ rest) 0) as [b0 Eb]; [lia|]. wp_step; [exact Eb|].
  pose proof (reply_seq_cases bs rest b0 Eb) as Hc. cbv zeta in Hc. pose proof (hlen_bound b0) as Hh. unfold ICMP_MINLEN.
  destruct (Z.ltb_spec (Z.of_nat (length bs)) (Z.shiftl (Z.land b0 15) 2 + 8)).
  { rewrite Hc in Hi. case_match; [|by wp_step]. wp_step; [exact Ha|]. apply wp_bind, wp_warnx. intros. wp_step.
    by eapply ping_inv_same. }
  destruct Hc as (Eb' & ty & i & q & E1 & E2 & E3 & Er). rewrite Er in Hi, Hq. wp_step; [exact E1|].
  destruct (Z.eqb_spec ty Ping.ICMP_ECHOREPLY).
  - wp_step; [exact E2|]. rewrite Hid. destruct (Z.eqb_spec i id); cbn [negb andb] in *; [|by wp_step].
    apply wp_bind. eapply wp_time_reply; [lia|lia|exact Hi|]. intros time p1 H1 Hn. cbv iota. wp_step; [exact E3|].
    apply wp_bind. eapply wp_count_reply; [exact H1|rewrite Hn; by apply Hq|]. intros dup p2 H2. cbv iota.
    case_match; [by wp_step|]. apply (wp_seq _ _ _ (fun p' _ k' => inv d r0 p' k')).
    + case_match; [|by eapply wp_print_reply; eauto].
      apply wp_bind, wp_quiet_; [done|]. intros. wp_step. by eapply ping_inv_same.
    + intros p3 g3 k3 H3. apply wp_pr_rest; done || lia.
  - cbn [andb] in *. case_match; [by wp_step|]. wp_step; [exact Ha|]. apply wp_bind, wp_pr_addr. intros host k2 Hs2.
    destruct (pr_icmph_some (bs ++ rest) (Z.shiftl (Z.land b0 15) 2)) as [t Et]; [lia|lia|]. wp_step; [exact Et|].
    apply wp_pr_rest; [done..|lia|lia|]. apply inv_says. by eapply ping_inv_same.
Qed.

(** *** The loop *)

Definition quiet_sig (s : option caught) : Prop := s = None \/ s = Some Alrm.

Lemma wp_handle d r0 p g k : inv d r0 p k -> W (handle Alrm p) (fun p' _ k' => inv d r0 p' k') g k.
Proof.
  intros Hi. pose proof Hi as []. unfold handle. case_match.
  - unfold onalrm. rewrite i_npackets0. change (0 =? 0) with true. cbv iota. cbn [orb]. by apply wp_pinger.
  - destruct (Z.eqb_spec (alrm p) h_onint); [done|]. apply wp_halt. by eexists.
Qed.

Lemma reply_used d r0 p k q : inv d r0 p k -> q ∈ echoes (id := id) k -> q ∈ used (ntransmitted p).
Proof.
  intros [] Hq. destruct (i_echo0 q Hq) as (j & Hj & ->). pose proof (u16_range j) as Hr. unfold is_u16 in Hr.
  apply elem_of_used. assert (u16 j <= j); [|lia]. apply Z.mod_le; lia.
Qed.

(** A packet arrives: a reply is not yet counted. *)
Lemma inv_recv d r0 p k k' o :
  inv d r0 p k -> (echoes (id := id) k' ⊆ echoes (id := id) k) ->
  match o with
  | Some q => q ∈ echoes (id := id) k /\ replies (id := id) k' = replies (id := id) k + 1
  | None => replies (id := id) k' = replies (id := id) k
  end -> inv d (match o with Some _ => r0 + 1 | None => r0 end) p k' /\ forall q : Z, o = Some q -> q ∈ used (ntransmitted p).
Proof.
  intros Hi He Hr. split.
  - destruct Hi. constructor; try done; [auto|]. destruct o; [destruct Hr|]; lia.
  - intros q ->. eapply reply_used; [exact Hi|]. apply Hr.
Qed.

Lemma wp_ping_receive d r0 p packet tv0 g k :
  inv d r0 p k -> Z.of_nat (length packet) = d + 136 ->
  W (r ← call (Erecvfrom (sock p) (packlen p) 0);
     match r with
     | Err e => _ ← (if e =? EINTR then Ret tt else warn (str "recvfrom")); Ret (packet, p, false)
     | Ok (bs, (from, _)) =>
         b ← mem (memcpy packet 0 bs);
         p2 ← pr_pack b (Z.of_nat (length bs)) from tv0 p;
         Ret (b, p2, negb (npackets p2 =? 0) && (npackets p2 <=? nreceived p2))
     end)
    (fun '(b, p', stop) _ k' => inv d r0 p' k' /\ Z.of_nat (length b) = d + 136 /\ stop = false) g k.
Proof.
  intros Hi Hp. pose proof (ek_recv (id := id) (sock p) (packlen p) 0 k) as Hr. apply wp_bind, wp_call; intros v k' E; rewrite E in Hr.
  - destruct v as [bs [from l]]. destruct Hr as (Hlen & _ & Hsmall & (a & Ha) & He & Hq).
    unfold packlen, MAXIPLEN, MAXICMPLEN in Hlen. rewrite (i_data _ _ _ _ Hi) in Hlen.
    assert (memcpy packet 0 bs = Some (bs ++ drop (length bs) packet)) as Em by (unfold memcpy; by zbool).
    wp_step; [exact Em|]. pose proof (memcpy_Some_length _ _ _ _ Em) as Hl.
    destruct (inv_recv _ _ _ _ _ _ Hi He Hq) as [H1 H2].
    eapply wp_seq; [apply (wp_pr_pack d r0 bs _ from a); try done; lia|]. intros p2 g2 k2 H3. cbv beta in H3. wp_step.
    split_and!; [done|lia|]. by rewrite (i_npackets _ _ _ _ H3).
  - destruct Hr. apply (wp_seq _ _ _ (fun _ _ k'' => same k' k'')).
    + case_match; [wp_step; apply ping_same_refl|]. by apply wp_warn.
    + intros ? g2 k2 Hs. wp_step. split_and!; [|done|done]. do 2 (eapply ping_inv_same; [|done]). done.
Qed.

Lemma wp_ping_turn d r0 s p packet tv0 g k :
  inv d r0 p k -> Z.of_nat (length packet) = d + 136 -> quiet_sig s ->
  W (ping_turn s tv0 packet p)
    (fun '(b, p', stop) _ k' => inv d r0 p' k' /\ Z.of_nat (length b) = d + 136 /\ stop = false) g k.
Proof.
  intros Hi Hp Hs. unfold ping_turn. apply (wp_seq _ _ _ (fun p' _ k' => inv d r0 p' k')).
  { destruct Hs as [->| ->]; [by wp_step|by apply wp_handle]. }
  intros p0 g0 k0 H0. apply (wp_seq _ _ _ (fun p' _ k' => inv d r0 p' k')).
  { case_match; [by apply wp_pinger|by wp_step]. }
  intros p1 g1 k1 H1. apply (wp_seq _ _ _ (fun _ _ k' => inv d r0 p1 k')).
  { case_match; [|by wp_step]. pose proof (i_sock _ _ _ _ H1).
    assert (FD_SET (sock p1) ∅ = Some ({[sock p1]} ∪ ∅)) as Ef by (unfold FD_SET; zbool; lia).
    wp_step; [exact Ef|]. apply wp_bind, wp_quiet; [done|]. intros. wp_step. by eapply ping_inv_same. }
  intros [|] g2 k2 H2; cbn [negb]; [|by wp_step]. by apply wp_ping_receive.
Qed.

Lemma wp_ping_loop d r0 tv0 sigs : forall p packet g k,
  inv d r0 p k -> Z.of_nat (length packet) = d + 136 -> Forall quiet_sig sigs ->
  W (ping_loop sigs tv0 packet p) (fun '(_, p', stop) _ k' => inv d r0 p' k' /\ stop = false) g k.
Proof.
  induction sigs as [|s sigs IH]; intros p packet g k Hi Hp Hs; cbn [ping_loop]; [by wp_step|].
  inversion_clear Hs. eapply wp_seq; [by apply (wp_ping_turn d r0)|]. intros [[b p1] stop] g1 k1 (H1 & H2 & ->).
  by apply IH.
Qed.

(** *** The options and the start *)

(** Before the socket is open. *)
Record fresh (p : ping) : Prop := {
  f_tbl : table (rcvd_tbl p);
  f_out : Z.of_nat (length (outpack p)) = MAXPACKET;
  f_bytes : Forall is_byte (outpack p);
  f_len : 0 <= datalen p <= MAXPACKET - 16;
  f_rr : Z.of_nat (length (old_rr p)) = MAX_IPOPTLEN;
  f_npackets : npackets p = 0;
  f_alrm : alrm p <> h_onint;
  f_sent : ntransmitted p = 0;
  f_counts : nreceived p = 0 /\ nrepeats p = 0 }.

(** An option other than -c, and no size for which the data does not fit. *)
Definition fine_option (o : ascii * list Z) : Prop :=
  o.1 <> "c"%char /\ (o.1 = "s"%char -> s32 (strtol o.2).1 <= MAXPACKET - 16).

Lemma length_replicate_Z {A} n (x : A) : 0 <= n -> Z.of_nat (length (replicate (Z.to_nat n) x)) = n.
Proof. intros. rewrite length_replicate. lia. Qed.

Lemma ping0_fresh : fresh ping0.
Proof.
  split; [by apply length_replicate_Z|by apply length_replicate_Z| |done..].
  apply Forall_replicate. unfold is_byte. lia.
Qed.

Lemma xvalue_range c : isxdigit c = true -> 0 <= xvalue c < 16.
Proof.
  unfold isxdigit, xvalue. destruct (isdigit c) eqn:E.
  - intros _. unfold isdigit in E. apply andb_prop in E as [E1 E2]. apply Z.leb_le in E1, E2. lia.
  - cbn [orb]. intros H. apply orb_prop in H as [H|H]; apply andb_prop in H as [E1 E2]; apply Z.leb_le in E1, E2;
      destruct (Z.leb_spec 97 c); lia.
Qed.

Lemma scan_pairs_bytes n : forall s, forallb isxdigit s = true -> Forall is_byte (scan_pairs n s).
Proof.
  induction n as [|n IH]; intros [|c1 [|c2 s]] H; try done; cbn [forallb] in H.
  - apply andb_prop in H as [H _]. apply xvalue_range in H. repeat constructor; unfold is_byte; lia.
  - apply andb_prop in H as [H1 H]. apply andb_prop in H as [H2 H]. apply xvalue_range in H1, H2.
    cbn [scan_pairs]. constructor; [unfold is_byte; lia|auto].
Qed.

Lemma scan_pairs_length n : forall s, (length (scan_pairs n s) <= n)%nat.
Proof. induction n as [|n IH]; intros [|c1 [|c2 s]]; cbn; try lia. specialize (IH s). lia. Qed.

Lemma put_pattern_ok pat : forall buf o,
  Forall is_byte pat -> Forall is_byte buf -> 0 <= o -> o + Z.of_nat (length pat) <= Z.of_nat (length buf) ->
  exists b, put_pattern pat buf o = Some b /\ length b = length buf /\ Forall is_byte b.
Proof.
  induction pat as [|v pat IH]; intros buf o Hp Hb Ho Hl; cbn [put_pattern length] in *; [by eauto|].
  inversion_clear Hp. destruct (awrite_is_Some buf o v) as [b Eb]; [lia|]. rewrite Eb. cbn [mbind option_bind].
  pose proof (awrite_Some_length _ _ _ _ Eb) as El. rewrite <- El. apply IH; [done| |lia|lia].
  unfold awrite in Eb. case_match; [|done]. injection Eb as <-. by apply Forall_insert.
Qed.

Lemma wp_fill_loop pat fuel : forall kk buf g k,
  Forall is_byte pat -> (0 < length pat)%nat -> Forall is_byte buf -> Z.of_nat (length buf) = MAXPACKET -> 0 <= kk ->
  MAXPACKET - kk <= Z.of_nat fuel ->
  W (fill_loop fuel pat datap kk buf) (fun b g' k' => g' = g /\ k' = k /\ Z.of_nat (length b) = MAXPACKET /\ Forall is_byte b) g k.
Proof.
  induction fuel as [|f IH]; intros kk buf g k Hp Hl Hb Hlen Hkk Hf; cbn [fill_loop]; unfold sizeof_timeval;
    (destruct (Z.leb_spec kk (MAXPACKET - (8 + 16 + Z.of_nat (length pat)))); [|by wp_step]); [lia|].
  unfold datap, sizeof_timeval in *.
  destruct (put_pattern_ok pat buf (8 + 16 + kk)) as (b & Eb & Hlb & Hbb); [done|done|lia|lia|].
  wp_step; [exact Eb|]. apply IH; [done|done|done|lia|lia|lia].
Qed.

Lemma fresh_outpack b p : fresh p -> Z.of_nat (length b) = MAXPACKET -> Forall is_byte b -> fresh (with_outpack b p).
Proof. intros [] ? ?. by constructor. Qed.
Lemma fresh_options o p : fresh p -> fresh (with_options o p).
Proof. intros []. by constructor. Qed.
Lemma fresh_says l p : fresh p -> fresh (says l p).
Proof. intros []. by constructor. Qed.
Lemma fresh_target sa name p : fresh p -> fresh (with_target sa name p).
Proof. intros []. by constructor. Qed.
Lemma fresh_sizes i d p : fresh p -> 0 <= d <= MAXPACKET - 16 -> fresh (with_sizes (npackets p) i d p).
Proof. intros [] ?. by constructor. Qed.

Lemma wp_fill patp p g k : fresh p -> W (fill datap patp p) (fun p' _ k' => fresh p' /\ same k k') g k.
Proof.
  intros Hp. unfold fill. destruct (forallb isxdigit patp) eqn:Ex; cbn [negb]; [|apply wp_errx].
  pose proof (scan_pairs_bytes 16 patp Ex) as Hb. set (pat := scan_pairs 16 patp) in *.
  pose proof (scan_pairs_length 16 patp) as Hl. fold pat in Hl.
  pose proof Hp as []. apply (wp_seq _ _ _ (fun b g' k' => k' = k /\ Z.of_nat (length b) = MAXPACKET /\ Forall is_byte b)).
  { destruct pat as [|v pat'] eqn:Epat; [by wp_step|]. eapply wp_mono.
    - apply wp_fill_loop; [done|cbn [length]; lia|done|done|done|]. rewrite Z2Nat.id by done. lia.
    - naive_solver. }
  intros b g1 k1 (-> & Hlb & Hbb). assert (fresh (with_outpack b p)) as Hf by (by apply fresh_outpack).
  case_match; [wp_step; split; [done|apply ping_same_refl]|].
  destruct (asub_in b datap (Z.of_nat (length pat))) as (m & Em & _); [done|lia|unfold datap, sizeof_timeval, MAXPACKET in *; lia|].
  wp_step; [exact Em|]. wp_step. split; [by apply fresh_says|apply ping_same_refl].
Qed.

Lemma wp_usage {A} (Q : A -> globals -> K -> Prop) g k : W usage Q g k.
Proof. unfold usage. apply wp_bind, wp_quiet_; [done|]. intros. apply wp_halt. by eexists. Qed.

Lemma wp_option_case ch arg pre p g k :
  fresh p -> fine_option (ch, arg) -> W (option_case ch arg pre p) (fun '(_, p') _ k' => fresh p' /\ same k k') g k.
Proof.
  intros Hp [Hc Hs]. cbn [fst snd] in *. unfold option_case, number. destruct (strtol arg) as [v e] eqn:Ev. cbn [fst] in Hs. cbv zeta.
  rewrite bool_decide_eq_false_2 by done.
  assert (forall f, fresh (with_options f p) /\ same k k) as Hflag by (intros; split; [by apply fresh_options|apply ping_same_refl]).
  case_match; [by wp_step|]. case_match.
  { apply wp_bind, wp_klib. intros uid k1 _ Hu. case_match; [wp_step; apply wp_err_null|]. wp_step. split; [by apply fresh_options|done]. }
  case_match.
  { case_match; [apply wp_errx|]. wp_step. split; [|apply ping_same_refl]. apply fresh_options, fresh_sizes; [done|apply Hp]. }
  case_match; [case_match; [apply wp_errx|wp_step; split; [done|apply ping_same_refl]]|].
  case_match; [by wp_step|]. case_match.
  { eapply wp_seq; [apply wp_fill; by apply fresh_options|]. intros p1 g1 k1 Hp1. by wp_step. }
  do 3 (case_match; [by wp_step|]). case_match; [|case_match; [by wp_step|apply wp_usage]].
  case_match eqn:E1; [apply wp_errx|]. case_match; [apply wp_errx|]. wp_step. split; [|apply ping_same_refl].
  apply orb_false_elim in E1 as [E1 _]. apply Z.leb_gt in E1. apply fresh_sizes; [done|]. split; [lia|].
  apply Hs. by eapply bool_decide_eq_true_1.
Qed.

Lemma wp_option_loop opts : forall pre p g k,
  fresh p -> Forall fine_option opts -> W (option_loop opts pre p) (fun '(_, p') _ k' => fresh p' /\ same k k') g k.
Proof.
  induction opts as [|[ch arg] opts IH]; intros pre p g k Hp Ho; cbn [option_loop]; [wp_step; split; [done|apply ping_same_refl]|].
  inversion_clear Ho. eapply wp_seq; [by apply wp_option_case|]. intros [pre' p1] g1 k1 [H1 H2]. cbv iota.
  eapply wp_mono; [by apply IH|]. intros [? p2] g2 k2 [H3 H4]. split; [done|by eapply ping_same_trans].
Qed.

Lemma fill_data_ok n : forall i o buf,
  Forall is_byte buf -> 0 <= o -> o + Z.of_nat n <= Z.of_nat (length buf) ->
  exists b, fill_data n i o buf = Some b /\ length b = length buf /\ Forall is_byte b.
Proof.
  induction n as [|n IH]; intros i o buf Hb Ho Hl; cbn [fill_data]; [by eauto|].
  destruct (awrite_is_Some buf o (u8 i)) as [b Eb]; [lia|]. rewrite Eb. cbn [mbind option_bind].
  pose proof (awrite_Some_length _ _ _ _ Eb) as El. rewrite <- El. apply IH; [|lia|lia].
  unfold awrite in Eb. case_match; [|done]. injection Eb as <-. apply Forall_insert; [done|apply u8_range].
Qed.

Lemma wp_find_target target p g k : fresh p -> W (find_target target p) (fun p' _ k' => fresh p' /\ same k k') g k.
Proof.
  intros Hp. unfold find_target. apply wp_bind, wp_klib. intros a k1 _ H1. case_match; [wp_step; split; [by apply fresh_target|done]|].
  apply wp_bind, wp_klib. intros hp k2 E2 H2. pose proof (ek_host (id := id) target k1) as Hh. rewrite E2 in Hh. cbn [fst] in Hh.
  destruct hp as [h|]; [|apply wp_errx]. destruct Hh as (Hf & Hl & (x & xs & Ea & Hx) & Hn). rewrite Ea, Hl.
  wp_step; [done|]. destruct (asub_in x 0 4) as (m & Em & Hm); [lia..|]. wp_step; [exact Em|].
  assert (exists sa, memcpy (replicate 12 0) 0 m = Some sa) as [sa Es]
    by (unfold memcpy; rewrite length_replicate; zbool; by eexists).
  wp_step; [exact Es|]. unfold MAXHOSTNAMELEN. destruct (Z.leb_spec (256 - 1) (Z.of_nat (length (h_name h)))); [lia|].
  wp_step. split; [by apply fresh_target|by eapply ping_same_trans].
Qed.

Lemma wp_open_socket rspace p (Q : Z -> globals -> K -> Prop) g k :
  length rspace = 40%nat -> (forall s g' k', 0 <= s < FD_SETSIZE -> same k k' -> Q s g' k') -> W (open_socket rspace p) Q g k.
Proof.
  intros Hr HQ. unfold open_socket. apply wp_bind, wp_klib. intros [pr|] k1 _ H1; [|apply wp_errx].
  apply wp_bind, wp_call; intros s k2 E2; [|apply wp_err]. pose proof (ek_socket (id := id) AF_INET Ping.SOCK_RAW pr k1) as Hs.
  rewrite E2 in Hs. apply same_call in E2; [|done]. assert (same k k2) as H2 by (by eapply ping_same_trans). clear H1 E2.
  assert (forall (b : bool) l o v g' k', same k k' ->
    W (if b then call_ (Esetsockopt s l o v) else Ret tt) (fun _ _ k'' => same k k'') g' k') as Hopt.
  { intros b l o v g' k' H'. destruct b; [|by wp_step]. apply wp_quiet_; [done|]. intros. by eapply ping_same_trans. }
  eapply wp_seq; [by apply Hopt|]. intros ? g3 k3 H3. eapply wp_seq; [by apply Hopt|]. intros ? g4 k4 H4. cbv beta in *.
  apply (wp_seq _ _ _ (fun _ _ k'' => same k k'')).
  { case_match; [|by wp_step]. do 3 (destruct rspace as [|? rspace]; [done|]).
    wp_step; [by apply (awrite_app [])|]. wp_step; [by apply (awrite_app [_])|]. wp_step; [by apply (awrite_app [_; _])|].
    apply wp_bind, wp_quiet; [done|]. intros [?|?] g5 k5 H5; [wp_step; by eapply ping_same_trans|apply wp_err]. }
  intros ? g5 k5 H5. apply wp_bind, wp_quiet_; [done|]. intros g6 k6 H6. wp_step. apply HQ; [done|by eapply ping_same_trans].
Qed.

Lemma fresh_inv p s t k : fresh p -> echoes (id := id) k = ∅ -> 0 <= s < FD_SETSIZE ->
  inv (datalen p) (replies (id := id) k) (with_socket id s t p) k.
Proof.
  intros [] He Hs. destruct f_counts0 as [Hc1 Hc2]. constructor; cbn; try done; try lia.
  - intros q Hq. rewrite He in Hq. by apply elem_of_empty in Hq.
  - rewrite f_sent0, Hc1. done.
Qed.

Lemma same_empty k k' : same k k' -> echoes (id := id) k = ∅ -> echoes (id := id) k' = ∅ /\ replies (id := id) k' = replies (id := id) k.
Proof. intros [H1 H2] He. split; [|done]. rewrite He in H1. set_solver. Qed.

Lemma wp_set_up target rspace p g k :
  fresh p -> echoes (id := id) k = ∅ -> length rspace = 40%nat ->
  W (set_up target rspace p) (fun p' _ k' => inv (datalen p') (replies (id := id) k) p' k') g k.
Proof.
  intros Hp He Hr. unfold set_up. eapply wp_seq; [by apply wp_find_target|]. intros p0 g0 k0 [H0 S0].
  case_match; [apply wp_errx|]. cbv zeta. apply wp_bind, wp_quiet; [done|]. intros [m|e] g1 k1 S1; [|apply wp_err_null].
  apply (wp_seq _ _ _ (fun b _ k' => k' = k1 /\ fresh (with_outpack b p0))).
  { case_match; [wp_step; split; [done|apply fresh_outpack; [done|apply H0..]]|]. pose proof H0 as [].
    destruct (fill_data_ok (Z.to_nat (datalen p0 - 8)) 8 datap (outpack p0)) as (b & Eb & Hl & Hb);
      [done|done|unfold datap, sizeof_timeval, MAXPACKET in *; lia|].
    eapply wp_mem; [exact Eb|]. split; [done|]. apply fresh_outpack; [done|lia|done]. }
  intros b g2 k2 [-> Hb]. apply wp_bind, wp_klib. intros me k3 E3 S3. pose proof (ek_pid (id := id) k1) as Hid. rewrite E3 in Hid.
  cbn [fst] in Hid. rewrite Hid. apply wp_bind, wp_open_socket; [done|]. intros s g4 k4 Hs S4. wp_step.
  assert (same k k4) as S by (do 3 (eapply ping_same_trans; [|done]); done).
  destruct (same_empty _ _ S He) as [He4 Hr4]. rewrite <- Hr4. pose proof (fresh_inv _ s (if sizeof_timeval <=? datalen p0 then 1 else 0) k4 Hb He4 Hs) as HI.
  match goal with |- context [match whereto ?x with _ => _ end] => destruct (whereto x) end; by apply inv_says.
Qed.

Lemma wp_preload d r0 n : forall p g k, inv d r0 p k -> W (preload_loop n p) (fun p' _ k' => inv d r0 p' k') g k.
Proof.
  induction n as [|n IH]; intros p g k Hi; cbn [preload_loop]; [by wp_step|].
  eapply wp_seq; [by apply wp_pinger|]. intros p1 g1 k1 H1. by apply IH.
Qed.
Lemma wp_set_handlers d r0 p g k : inv d r0 p k -> W (set_handlers p) (fun p' _ k' => inv d r0 p' k') g k.
Proof.
  intros Hi. unfold set_handlers. apply wp_bind, wp_quiet_; [done|]. intros g1 k1 S1. apply wp_bind, wp_quiet_; [done|]. intros g2 k2 S2.
  assert (inv d r0 p k2) as H2 by (do 2 (eapply ping_inv_same; [|done]); done).
  case_match; [by wp_step|]. apply wp_bind, wp_quiet_; [done|]. intros g3 k3 S3. apply wp_bind, wp_quiet_; [done|]. intros g4 k4 S4. wp_step.
  apply inv_alrm. do 2 (eapply ping_inv_same; [|done]). done.
Qed.

End Ping.

(** ** A network that answers every request twice *)

Definition reply20 : list Z := [69; 0; 0; 84; 0; 0; 0; 0; 64; 1; 0; 0; 10; 0; 0; 1; 10; 0; 0; 2].
(** The reply to the request [q] of the process 4711. *)
Definition echo_reply (q : Z) : list Z :=
  reply20 ++ [0; 0; 0; 0] ++ store16 (H := sparc64) 4711 ++ store16 (H := sparc64) q ++ replicate 56 0.

(** The requests that wait for their replies, and the number of replies
    delivered. *)
Record mirror := Mirror { waiting : list Z; delivered : Z }.

Definition mirror_send (bs : list Z) (k : mirror) : res Z * mirror :=
  (Ok (Z.of_nat (length bs)),
   match aread16 (H := sparc64) bs 6 with
   | Some q => if decide (is_u16 q) then Mirror (waiting k ++ [q; q]) (delivered k) else k
   | None => k
   end).
Definition mirror_recv (n : Z) (k : mirror) : res (list Z * (sockaddr * Z)) * mirror :=
  match waiting k with
  | q :: qs => if decide (is_u16 q /\ 84 <= n) then (Ok (echo_reply q, (SaIn (SockaddrIn 0 [10; 0; 0; 1]), 16)), Mirror qs (delivered k + 1))
               else (Err EINTR, k)
  | [] => (Err EINTR, k)
  end.

#[export] Instance mirror_kernel : Kernel mirror := {|
  kcall X e :=
    match e in sysE X return mirror -> res X * mirror with
    | Esendto _ bs _ _ _ => mirror_send bs
    | Erecvfrom _ n _ => mirror_recv n
    | Esocket _ _ _ => fun k => (Ok 3, k)
    | Emalloc _ => fun k => (Ok 1, k)
    | Egettimeofday => fun k => (Ok (Timeval 100 5), k)
    | _ => fun k => (Err ENOSYS, k)
    end;
  klib X e k :=
    match e in libE X return X * mirror with
    | Egetpid => (4711, k)
    | Egetprotobyname _ => (Some 1, k)
    | Einet_addr _ => (0x0a000001, k)
    | e => ((klib (Kernel := failing_kernel ENOSYS) e tt).1, k)
    end |}.

Lemma echo_reply_seq q : is_u16 q -> reply_seq (H := sparc64) 4711 (echo_reply q) = Some q.
Proof.
  intros Hq. unfold reply_seq. change (aread (echo_reply q) 0) with (Some 69). cbn [mbind option_bind]. cbv zeta.
  change (Z.shiftl (Z.land 69 15) 2) with 20. destruct (Z.ltb_spec (Z.of_nat (length (echo_reply q))) (20 + 8)) as [Hl|_]; [cbn in Hl; lia|].
  change (aread (echo_reply q) 20) with (Some 0). cbn [mbind option_bind].
  change (aread16 (H := sparc64) (echo_reply q) (20 + 4)) with (Some 4711). cbn [mbind option_bind].
  change ((0 =? Ping.ICMP_ECHOREPLY) && (4711 =? 4711)) with true. cbv iota. unfold echo_reply.
  rewrite !(app_assoc reply20), (app_assoc (_ ++ [0; 0; 0; 0])). by apply aread16_app.
Qed.

#[export] Instance mirror_echo : EchoKernel mirror (HP := sparc64) 4711.
Proof.
  refine {| echoes k := list_to_set (waiting k); replies := delivered |}.
  - intros X [] k Hq; done.
  - intros X [] k; done.
  - intros fd bs fl sa len k q Eq. cbv zeta. cbn [kcall mirror_kernel]. unfold mirror_send. rewrite Eq. cbn [snd].
    case_decide; cbn [waiting delivered]; set_solver.
  - intros fd n fl k. cbn [kcall mirror_kernel]. unfold mirror_recv. destruct (waiting k) as [|q qs] eqn:Ew; [by rewrite Ew|].
    case_decide as Hd; [|by rewrite Ew]. destruct Hd as [Hq Hn]. rewrite echo_reply_seq by done. cbn [waiting delivered].
    split_and!; [cbn; lia| | |by eexists|set_solver|set_solver|done].
    + unfold echo_reply, reply20. rewrite !Forall_app. split_and!; try apply store16_bytes; repeat constructor; unfold is_byte; lia.
    + intros b0 p Eb Hp. change (aread (echo_reply q) 0) with (Some 69) in Eb. injection Eb as <-.
      change (Z.shiftl (Z.land 69 15) 2) with 20 in Hp. lia.
  - done.
  - done.
  - done.
Defined.

(** Three turns, with SIGALRM in the first: the request is answered twice. *)
Definition ping_args : list (ascii * list Z) := [("s"%char, str "56"); ("p"%char, str "a5"); ("n"%char, [])].


(** The same run without -p, evaluated. *)
Example bsdping_run :
  match run (bsdping_main (H := sparc64) [] [str "10.0.0.1"] (replicate 40 0) (fun _ => 0) (Timeval 0 0) [Some Alrm; None; None])
          globals0 (Mirror [] 0) with
  | (Done p, _, k') => (ntransmitted p, nreceived p, nrepeats p, delivered k') = (1, 1, 1, 2)
  | _ => False
  end.
Proof. vm_compute. reflexivity. Qed.

(** ** Defects *)

(** A reply with a timestamp option that names the router 7.64.64.1. *)
Definition stamped_reply : list Z :=
  [72; 0; 0; 60; 0; 0; 0; 0; 64; 1; 0; 0; 10; 0; 0; 1; 10; 0; 0; 2] ++ [68; 12; 13; 1; 7; 64; 64; 1; 0; 0; 0; 9] ++
  [0; 0; 0; 0] ++ store16 (H := sparc64) 4711 ++ store16 (H := sparc64) 0 ++ replicate 104 0.
Definition small_ping : ping := with_socket 4711 3 0 (with_sizes 0 1 8 ping0).

(** A reply whose IP options are well formed can overflow old_rr: pr_pack
    steps through an option it does not know byte by byte, takes a 7 in it for
    a recorded route, the next byte for its length, and copies as many bytes to
    an array of 40. *)
Theorem pr_pack_overflows_old_rr {K} `{!Kernel K} tv0 g (k : K) :
  (run (pr_pack (H := sparc64) stamped_reply 40 (SaIn (SockaddrIn 0 [10; 0; 0; 1])) tv0 small_ping) g k).1.1 = Halted Fault.
Proof.
  unfold pr_pack. rewrite run_bind, run_call. destruct (kcall Egettimeofday k) as [[tv|e] k1]; vm_compute; reflexivity.
Qed.

(** The sizes that the option -s accepts but that do not fit. *)
Theorem bsdping_size_overflows d buf :
  Z.of_nat (length buf) = MAXPACKET -> MAXPACKET - 16 < d -> fill_data (Z.to_nat (d - 8)) 8 datap buf = None.
Proof.
  intros Hl Hd. assert (forall n i o b, length b = length buf -> 0 <= o <= MAXPACKET -> MAXPACKET < o + Z.of_nat n -> fill_data n i o b = None) as H.
  { induction n as [|n IH]; intros i o b Hb Ho Hn; cbn [fill_data]; [lia|]. destruct (awrite b o (u8 i)) as [b'|] eqn:E; [|done].
    pose proof (awrite_Some_length _ _ _ _ E) as El. cbn [mbind option_bind]. apply IH; [congruence| |lia].
    unfold awrite in E. case_match eqn:Eb; [|done]. apply andb_prop in Eb as [_ Eb]. apply Z.ltb_lt in Eb. lia. }
  apply H; [done|done|]. unfold datap, sizeof_timeval, MAXPACKET in *. lia.
Qed.

Lemma check_data_differs {K} `{!Kernel K} buf icp j : forall n i cp dp p c d g (k : K),
  (j < n)%nat -> 0 <= icp -> 8 <= datalen p -> icp + 8 + datalen p <= Z.of_nat (length buf) -> 0 <= cp -> 0 <= dp ->
  (forall j', (j' <= j)%nat -> exists x y, aread buf (cp + Z.of_nat j') = Some x /\ aread (outpack p) (dp + Z.of_nat j') = Some y) ->
  aread buf (cp + Z.of_nat j) = Some c -> aread (outpack p) (dp + Z.of_nat j) = Some d -> c <> d ->
  exists t, run (check_data n i buf icp cp dp p) g k = (Done (say (10 :: str "wrong data byte #" ++ t) p), g, k).
Proof.
  induction j as [|j IH]; intros n i cp dp p c d g k Hn Hicp Hdl Hbuf Hcp Hdp Hall Ec Ed Hne; (destruct n as [|n]; [lia|]); cbn [check_data];
    (destruct (Hall 0%nat) as (x & y & Ex & Ey); [lia|]); change (Z.of_nat 0) with 0 in *;
    rewrite ?Z.add_0_r in *; rewrite (run_mem_then _ _ _ _ _ Ex), (run_mem_then _ _ _ _ _ Ey);
    (destruct (dump_data_some (Z.to_nat (datalen p - 8)) 8 buf (icp + 8)) as [t Et]; [lia|lia|]);
    destruct (Z.eqb_spec x y) as [Exy|]; cbn [negb]; try (rewrite (run_mem_then _ _ _ _ _ Et); by eexists); [congruence|].
  apply (IH n (i + 1) (cp + 1) (dp + 1) p c d g k); try done; try lia.
  - intros j' Hj. destruct (Hall (S j')) as (x' & y' & E1 & E2); [lia|]. exists x', y'.
    by rewrite <- E1, <- E2; split; f_equal; lia.
  - rewrite <- Ec. f_equal. lia.
  - rewrite <- Ed. f_equal. lia.
Qed.

(** Where struct timeval has 16 bytes, the reply to a request with the default
    data is always reported as wrong, even when all of it came back: the data
    received is compared from its byte 8 on with what was put behind the 16
    bytes of the time stamp. *)
Theorem good_reply_reported_wrong {K} `{!Kernel K} `{Platform} (hd hd' ip tv out_rest rest : list Z) p g (k : K) :
  length hd = 8%nat -> length hd' = 8%nat -> length tv = 16%nat -> datalen p = 56 ->
  outpack p = hd ++ (tv ++ seqZ 8 48) ++ out_rest ->
  exists t, run (check_data 48 8 (ip ++ hd' ++ (tv ++ seqZ 8 48) ++ rest) (Z.of_nat (length ip)) (Z.of_nat (length ip) + 8 + 8) 24 p) g k =
    (Done (say (10 :: str "wrong data byte #" ++ t) p), g, k).
Proof.
  intros Hh Hh' Ht Hd Eo.
  assert (forall (h r : list Z) o i, o = Z.of_nat (length h) -> (i < 64)%nat -> exists x, aread (h ++ (tv ++ seqZ 8 48) ++ r) (o + Z.of_nat i) = Some x /\
    (tv ++ seqZ 8 48) !! i = Some x) as Hr.
  { intros h r o i -> Hi. destruct (lookup_lt_is_Some_2 (tv ++ seqZ 8 48) i) as [x Ex]; [rewrite length_app, length_seqZ; lia|].
    exists x. split; [|done]. unfold aread. destruct (Z.ltb_spec (Z.of_nat (length h) + Z.of_nat i) 0); [lia|].
    rewrite <- Nat2Z.inj_add, Nat2Z.id, lookup_app_r, Nat.add_comm, Nat.add_sub by lia. by apply lookup_app_l_Some. }
  assert (forall i, (i < 48)%nat -> (tv ++ seqZ 8 48) !! (16 + i)%nat = Some (8 + Z.of_nat i)) as Hs.
  { intros i Hi. rewrite lookup_app_r, Ht, Nat.add_comm, Nat.add_sub by lia. apply lookup_seqZ. lia. }
  rewrite (app_assoc ip). assert (Z.of_nat (length (ip ++ hd')) = Z.of_nat (length ip) + 8) as Hl by (rewrite length_app; lia).
  rewrite <- Hl. apply (check_data_differs _ _ 8 _ _ _ _ _ 8 16); try lia.
  - rewrite !length_app, length_seqZ in *. lia.
  - intros j Hj. rewrite Eo. destruct (Hr (ip ++ hd') rest _ (8 + j)%nat eq_refl) as (x & E1 & _); [lia|].
    destruct (Hr hd out_rest 8 (16 + j)%nat) as (y & E2 & _); [lia|lia|]. exists x, y.
    by rewrite <- E1, <- E2; split; f_equal; lia.
  - destruct (Hr (ip ++ hd') rest _ 16%nat eq_refl) as (x & E1 & Ex); [lia|]. pose proof (Hs 0%nat ltac:(lia)) as Ex'. cbn [Nat.add] in Ex'. change (8 + Z.of_nat 0) with 8 in Ex'.
    rewrite <- Z.add_assoc. change (8 + Z.of_nat 8) with (Z.of_nat 16). rewrite E1. congruence.
  - destruct (Hr hd out_rest 8 24%nat) as (x & E1 & Ex); [lia|lia|]. pose proof (Hs 8%nat ltac:(lia)) as Ex'. cbn [Nat.add] in Ex'. change (8 + Z.of_nat 8) with 16 in Ex'.
    rewrite Eo. change (24 + Z.of_nat 8) with (8 + Z.of_nat 24). rewrite E1. congruence.
Qed.

(** On a big-endian host whose long has 8 bytes every address is printed as
    0.0.0.0: pr_addr takes the first four bytes of an unsigned long. *)
Theorem pr_addr_prints_zero l p : 0 <= l < 2 ^ 32 -> on F_NUMERIC p = true -> pr_addr (H := sparc64) l p = Ret (str "0.0.0.0").
Proof.
  intros Hl Hn. unfold pr_addr. rewrite Hn. unfold store64, host_order. cbn [big_endian sparc64 le_bytes].
  assert (l / 256 / 256 / 256 / 256 = 0) as -> by (rewrite !Z.div_div by lia; apply Z.div_small; lia). done.
Qed.
End BsdPingProofs.
