(* ===== verification/FreeGai.v ===== *)
(** * The one-file getaddrinfo and getnameinfo: unpv13e/libfree/getaddrinfo.c, getnameinfo.c

    The version for systems that have neither function, with IPV4, IPV6 and LOCAL
    compiled in and without REENTRANT.  The structures are those of Gai.v; the
    functions that are the same in both versions (getaddrinfo_port,
    getaddrinfo_clone and freeaddrinfo) are defined as the ones of Gai.v.

    [aihead] is not initialised before the host has been found: [error] then
    hands an indeterminate pointer to freeaddrinfo, which is undefined.  The
    result of getaddrinfo is the return value and what *result is set to, [None]
    when it is not set. *)
From stdpp Require Import base list numbers strings gmap.
From S2P Require Import Prelude InetAddr Sys Error Wrap StreamIO SockAddr Connect Gai Route.
Import Gai.

Module FreeGai.
Definition HENTBUFSIZ : Z := 8 * 1024.

Definition result : Type := Z * option (list addrinfo).

(** ** getaddrinfo_clone, getaddrinfo_port and freeaddrinfo *)
Definition getaddrinfo_clone : addrinfo -> prog (option (addrinfo * bool)) := ga_clone.
Definition getaddrinfo_port (aihead : list addrinfo) (port socktype : Z) : prog (list addrinfo + Z * list addrinfo) :=
  ga_port aihead port socktype 0.
Definition freeaddrinfo : list addrinfo -> prog unit := Gai.freeaddrinfo.

(** ** getaddrinfo_host: an error or the hostent{} *)

(** What inet_pton has written to hent_addr, as a hostent{}. *)
Definition numeric_hent (host a : list Z) (af len : Z) : hostent :=
  Hostent (take (Z.to_nat (HENTBUFSIZ - 1)) host) [] af len [a].

Definition getaddrinfo_host (host : list Z) (family : Z) : prog (Z + hostent) :=
  v4 ← (if isdigit (char0 host) then numeric AF_INET 4 host else Ret None);
  match v4 with
  | Some a => Ret (inr (numeric_hent host a AF_INET 4))
  | None =>
      v6 ← (if Prelude.isxdigit (char0 host) || (char0 host =? 58) then numeric AF_INET6 16 host else Ret None);
      match v6 with
      | Some a => Ret (inr (numeric_hent host a AF_INET6 16))
      | None =>
          o ← lib Eres_options;
          _ ← (if Z.land o RES_INIT =? 0 then lib Eres_init else Ret 0);
          _ ← (if family =? AF_INET6 then o1 ← lib Eres_options; lib (Eset_res_options (Z.lor o1 RES_USE_INET6)) else Ret tt);
          hptr ← lib (Egethostbyname host);
          match hptr with
          | None => e ← lib Eh_errno; Ret (inl (host_error e))
          | Some h => Ret (inr h)
          end
      end
  end.

(** ** getaddrinfo_serv *)
Definition getaddrinfo_serv `{Platform} (aihead : list addrinfo) (hints : gai_hints) (serv : list Z) : prog (Z * list addrinfo) :=
  if isdigit (char0 serv) && negb (h_socktype hints =? 0) then
    r ← getaddrinfo_port aihead (htons (u16 (atoi serv))) (h_socktype hints);
    match r with
    | inl l => Ret (EAI_MEMORY, l)
    | inr (rc, l) => Ret (if rc =? 0 then EAI_NONAME else 0, l)
    end
  else
    let udp l n :=
      if (h_socktype hints =? 0) || (h_socktype hints =? SOCK_DGRAM) then
        sptr ← lib (Egetservbyname serv (str "udp"));
        match sptr with
        | Some s_port => try_port l s_port SOCK_DGRAM n (serv_done hints)
        | None => serv_done hints l n
        end
      else serv_done hints l n in
    if (h_socktype hints =? 0) || (h_socktype hints =? SOCK_STREAM) then
      sptr ← lib (Egetservbyname serv (str "tcp"));
      match sptr with
      | Some s_port => try_port aihead s_port SOCK_STREAM 0 udp
      | None => udp aihead 0
      end
    else udp aihead 0.

(** ** addrinfo_local: a failing calloc returns NULL, that is 0, and *result is
    not set *)
Definition addrinfo_local (path : list Z) (hints : gai_hints) : prog result :=
  if h_socktype hints =? 0 then Ret (EAI_SOCKTYPE, None)
  else
    r ← call (Ecalloc 1 sizeof_addrinfo);
    match r with
    | Err _ => Ret (0, None)
    | Ok p =>
        m ← call (Emalloc sizeof_sockaddr_un);
        match m with
        | Err _ => Ret (EAI_MEMORY, None)
        | Ok q =>
            sun_path ← mem (Route.strncpy (replicate (Z.to_nat sizeof_sun_path) 0) 0 path sizeof_sun_path);
            _ ← (if has (h_flags hints) AI_PASSIVE then call_ (Eunlink path) else Ret tt);
            Ret (0, Some [Addrinfo p 0 AF_LOCAL (h_socktype hints) 0 sizeof_sockaddr_un None (Some (q, SaUn (SockaddrUn sun_path)))])
        end
    end.

(** ** getaddrinfo *)

(** The checks of the hints: an error or 0. *)
Definition check_hints (hints : gai_hints) : Z :=
  if negb (Z.land (h_flags hints) (Z.lnot (Z.lor AI_PASSIVE AI_CANONNAME)) =? 0) then EAI_BADFLAGS
  else if h_family hints =? 0 then 0
  else if (h_family hints =? AF_INET) || (h_family hints =? AF_INET6) then if bad_socktype (h_socktype hints) then EAI_SOCKTYPE else 0
  else if h_family hints =? AF_LOCAL then
    if negb (h_socktype hints =? 0) && (negb (h_socktype hints =? SOCK_STREAM) && negb (h_socktype hints =? SOCK_DGRAM))
    then EAI_SOCKTYPE else 0
  else EAI_FAMILY.

Definition with_family (f : Z) (h : gai_hints) : gai_hints := Hints (h_flags h) f (h_socktype h) (h_protocol h).

(** The host that is looked up and the hints, or an error. *)
Definition choose_host (host serv : option (list Z)) (hints : gai_hints) : prog (Z + option (list Z) * gai_hints) :=
  if missing host then
    if missing serv then Ret (inl EAI_NONAME)
    else if has (h_flags hints) AI_PASSIVE then
      if h_family hints =? AF_INET then Ret (inr (Some (str "0.0.0.0"), hints))
      else if h_family hints =? AF_INET6 then Ret (inr (Some (str "0::0"), hints))
      else if h_family hints =? AF_LOCAL then
        if negb (char0 (default [] serv) =? 47) then Ret (inl EAI_ADDRFAMILY) else Ret (inr (host, hints))
      else if h_family hints =? 0 then Ret (inl EAI_ADDRFAMILY)
      else Ret (inr (host, hints))
    else Ret (inr (Some (str "localhost"), hints))
  else if h_family hints =? 0 then
    v4 ← numeric AF_INET 4 (default [] host);
    let h1 := match v4 with Some _ => with_family AF_INET hints | None => hints end in
    v6 ← numeric AF_INET6 16 (default [] host);
    Ret (inr (host, match v6 with Some _ => with_family AF_INET6 h1 | None => h1 end))
  else Ret (inr (host, hints)).

(** Where the function is when aihead is set: the host was found, or there is a
    path. *)
Inductive start := Path (path : list Z) (hints : gai_hints) | Found (host : list Z) (hints : gai_hints) (h : hostent).

Definition is_path (s : option (list Z)) : bool := match s with Some (47 :: _) => true | _ => false end.

(** Everything before aihead is set: an error or where to go on. *)
Definition prepare (host serv : option (list Z)) (hintsptr : option gai_hints) : prog (Z + start) :=
  let hints := match hintsptr with None => Hints 0 AF_UNSPEC 0 0 | Some h => h end in
  let rc := check_hints hints in
  if negb (rc =? 0) then Ret (inl rc)
  else
    c ← choose_host host serv hints;
    match c with
    | inl e => Ret (inl e)
    | inr (host1, hints1) =>
        if is_path host1 then Ret (inr (Path (default [] host1) hints1))
        else if is_path serv then Ret (inr (Path (default [] serv) hints1))
        else
          host2 ← mem host1;
          h ← getaddrinfo_host host2 (h_family hints1);
          match h with
          | inl e => Ret (inl e)
          | inr hptr =>
              if negb (h_family hints1 =? AF_UNSPEC) && negb (h_family hints1 =? h_addrtype hptr) then Ret (inl EAI_ADDRFAMILY)
              else Ret (inr (Found host2 hints1 hptr))
          end
    end.

(** One structure for the address [ap], linked to the end of the list. *)
Definition add_addr (aihead : list addrinfo) (hints : gai_hints) (ap : list Z) (family : Z) : prog (Z * list addrinfo) :=
  r ← call (Ecalloc 1 sizeof_addrinfo);
  match r with
  | Err _ => Ret (EAI_MEMORY, aihead)
  | Ok p =>
      let new := Addrinfo p (if h_socktype hints =? 0 then AI_CLONE else 0) family (h_socktype hints) (h_protocol hints) in
      if family =? AF_INET then
        s ← call (Ecalloc 1 sizeof_sockaddr_in);
        match s with
        | Err _ => Ret (EAI_MEMORY, aihead ++ [new 0 None None])
        | Ok q => a ← mem (asub ap 0 4); Ret (0, aihead ++ [new sizeof_sockaddr_in None (Some (q, SaIn (SockaddrIn 0 a)))])
        end
      else if family =? AF_INET6 then
        s ← call (Ecalloc 1 sizeof_sockaddr_in6);
        match s with
        | Err _ => Ret (EAI_MEMORY, aihead ++ [new 0 None None])
        | Ok q => a ← mem (asub ap 0 16); Ret (0, aihead ++ [new sizeof_sockaddr_in6 None (Some (q, SaIn6 (SockaddrIn6 0 0 a 0)))])
        end
      else Ret (0, aihead ++ [new 0 None None])
  end.

Fixpoint add_addrs (aihead : list addrinfo) (hints : gai_hints) (aps : list (list Z)) (family : Z) : prog (Z * list addrinfo) :=
  match aps with
  | [] => Ret (0, aihead)
  | ap :: r =>
      '(rc, l) ← add_addr aihead hints ap family;
      if negb (rc =? 0) then Ret (rc, l) else add_addrs l hints r family
  end.

(** bad: *)
Definition fail_with (error : Z) (aihead : list addrinfo) : prog result := _ ← freeaddrinfo aihead; Ret (error, None).

(** The canonical name goes to the first structure. *)
Definition set_canon (hints : gai_hints) (h : hostent) (aihead : list addrinfo) : prog (Z * list addrinfo) :=
  if has (h_flags hints) AI_CANONNAME then
    match aihead with
    | [] => _ ← call (Estrdup (h_name h)); fault
    | ai :: r =>
        d ← call (Estrdup (h_name h));
        match d with
        | Err _ => Ret (EAI_MEMORY, aihead)
        | Ok p => Ret (0, with_canonname (p, h_name h) ai :: r)
        end
    end
  else Ret (0, aihead).

(** From aihead = NULL on. *)
Definition found `{Platform} (serv : option (list Z)) (hints : gai_hints) (h : hostent) : prog result :=
  '(rc, l) ← add_addrs [] hints (h_addr_list h) (h_addrtype h);
  if negb (rc =? 0) then fail_with rc l
  else
    '(rc1, l1) ← set_canon hints h l;
    if negb (rc1 =? 0) then fail_with rc1 l1
    else
      match serv with
      | None | Some [] => Ret (0, Some l1)
      | Some s =>
          '(rc2, l2) ← getaddrinfo_serv l1 hints s;
          if negb (rc2 =? 0) then fail_with rc2 l2 else Ret (0, Some l2)
      end.

Definition getaddrinfo `{Platform} (host serv : option (list Z)) (hintsptr : option gai_hints) : prog result :=
  s ← prepare host serv hintsptr;
  match s with
  | inl _ => fault                                        (* freeaddrinfo of an indeterminate pointer *)
  | inr (Path path hints) => addrinfo_local path hints
  | inr (Found _ hints h) => found serv hints h
  end.

(** ** getnameinfo.c: the return value and the two buffers *)
Definition do_ipv46 (host : list Z) (hostlen : Z) (serv : list Z) (servlen : Z) (aptr : list Z) (family port : Z)
  : prog (Z * list Z * list Z) :=
  h ← (if 0 <? hostlen then
         hptr ← lib (Egethostbyaddr aptr family);
         match hptr with
         | Some h => a ← mem (Route.strncpy host 0 (h_name h) hostlen); Ret (Some a)
         | None => Ret None
         end
       else Ret (Some host));
  match h with
  | None => Ret (1, host, serv)
  | Some host1 =>
      if 0 <? servlen then
        sptr ← lib (Egetservbyport port None);
        match sptr with
        | Some s_name => a ← mem (Route.strncpy serv 0 s_name servlen); Ret (0, host1, a)
        | None => Ret (1, host1, serv)
        end
      else Ret (0, host1, serv)
  end.

Definition getnameinfo (sa : sockaddr) (host : list Z) (hostlen : Z) (serv : list Z) (servlen : Z) : prog (Z * list Z * list Z) :=
  match sa with
  | SaIn s => do_ipv46 host hostlen serv servlen (sin_addr s) AF_INET (sin_port s)
  | SaIn6 s => do_ipv46 host hostlen serv servlen (sin6_addr s) AF_INET6 (sin6_port s)
  | _ => Ret (1, host, serv)
  end.
End FreeGai.
