(* ===== verification/FreeGaiProofs.v ===== *)
(** * What the one-file getaddrinfo allocates and when it fails

    Once the host has been found, every error frees what was built and a success
    returns a list of exactly the blocks that were allocated.  Before that every
    error is undefined behaviour, a Unix domain address can be reported as a
    success without a result or leak a structure, and getnameinfo can leave its
    buffer without a terminating NUL. *)
From stdpp Require Import base list numbers strings sets gmap.
From S2P Require Import Prelude InetAddr InetV4 InetV6 Sys Error Wrap StreamIO StreamProofs SockAddr Connect Hoare Heap Gai GaiProofs.
From S2P Require Import Route RouteProofs FreeGai.
Import Gai GaiProofs FreeGai.

Module FreeGaiProofs.

(** ** The list of the addresses is built as in libgai *)
Section Same.
Context {K : Type} `{HK : !Kernel K}.

Lemma run_add_addr l hints ap f g (k : K) : inet_family f -> run (add_addr l hints ap f) g k = run (ga_aistruct l hints ap f) g k.
Proof.
  intros Hf. unfold add_addr, ga_aistruct, ga_sockaddr. rewrite !run_bind, !run_call.
  destruct (kcall (Ecalloc 1 sizeof_addrinfo) k) as [[p|e] k1]; [|done].
  destruct Hf as [-> | ->]; (change (AF_INET =? AF_INET) with true || change (AF_INET6 =? AF_INET) with false); cbv iota;
    change (AF_INET6 =? AF_INET6) with true; cbv iota zeta; rewrite !run_bind, !run_call;
    match goal with |- context [kcall ?e k1] => destruct (kcall e k1) as [[q|e'] k2] end; try done;
    cbv iota; rewrite !run_bind, !run_mem; by destruct (asub ap 0 _).
Qed.
Lemma run_add_addrs hints f aps : forall l g (k : K), inet_family f ->
  run (add_addrs l hints aps f) g k = run (ga_addrs l hints aps f) g k.
Proof.
  induction aps as [|ap aps IH]; intros l g k Hf; cbn [add_addrs ga_addrs]; [done|].
  rewrite !run_bind, run_add_addr by done. destruct (run (ga_aistruct l hints ap f) g k) as [[[[rc l1]|h] g1] k1]; [|done].
  destruct (negb (rc =? 0)); [done|]. by apply IH.
Qed.
End Same.

Section Owned.
Context {K : Type} `{HK : !Kernel K} `{HR : !ResolverKernel K} (L : gset Z).
Implicit Types (k : K) (g : globals).
Abbreviation owns := (Heap.owns L).
Abbreviation W := (wp (fun _ => False)).

Lemma add_addrs_spec hints f aps l bs g k :
  owns (blocks l ++ bs) k -> made hints l -> inet_family f -> Forall (addr_ok f) aps ->
  W (add_addrs l hints aps f) (fun '(rc, l') _ k' => owns (blocks l' ++ bs) k' /\ (rc = 0 -> made hints l')) g k.
Proof.
  intros Ho Hm Hf Ha. rewrite wp_run, run_add_addrs, <- wp_run by done. by apply ga_addrs_spec.
Qed.

(** A list that is not shorter: there is a structure for each address. *)
Lemma ga_aistruct_length l hints ap f g k rc l' g' k' :
  run (ga_aistruct l hints ap f) g k = (Done (rc, l'), g', k') -> rc = 0 -> length l' = S (length l).
Proof.
  unfold ga_aistruct. rewrite run_bind, run_call. destruct (kcall _ k) as [[p|e] k1]; [|by intros [= <- _ _ _]].
  cbv iota zeta. rewrite run_bind. destruct (run (ga_sockaddr hints ap f) g k1) as [[[[rc1|[sa len]]|h] g2] k2]; cbv iota; [..|done];
    rewrite run_ret; intros [= <- <- _ _] _; rewrite length_app; cbn; lia.
Qed.

Lemma getaddrinfo_serv_owns `{Platform} l hints serv bs g k :
  owns (blocks l ++ bs) k -> Forall inet_view (view <$> l) ->
  W (getaddrinfo_serv l hints serv) (fun '(rc, l') _ k' => owns (blocks l' ++ bs) k') g k.
Proof.
  intros Ho Hi. unfold getaddrinfo_serv. case_match.
  { unfold getaddrinfo_port. eapply wp_seq; [apply ga_port_spec; [by apply views_inet|exact Ho]|].
    intros [l'|[m l']] g1 k1 Hp; cbn in Hp; wp_step; [done|]. by destruct Hp as (Hp & _). }
  assert (forall l1 n g1 k1, owns (blocks l1 ++ bs) k1 ->
    W (serv_done hints l1 n) (fun '(rc, l') _ k' => owns (blocks l' ++ bs) k') g1 k1) as Hdone.
  { intros l1 n g1 k1 Ho1. by apply wp_ret. }
  set (udp := fun l n => _). assert (forall l1 n g1 k1, owns (blocks l1 ++ bs) k1 -> Forall inet_view (view <$> l1) ->
    W (udp l1 n) (fun '(rc, l') _ k' => owns (blocks l' ++ bs) k') g1 k1) as Hudp.
  { intros l1 n g1 k1 Ho1 Hi1. unfold udp. destruct (_ || _); [|by apply Hdone]. apply wp_bind.
    eapply wp_lookup; [done|done|]. intros [p|] k2 Ho2 _; [|by apply Hdone].
    apply try_port_spec with (L := L) (bs := bs); auto. }
  cbv zeta. case_match; [|by apply Hudp].
  apply wp_bind. eapply wp_lookup; [done|done|]. intros [p|] k2 Ho2 _; [|by apply Hudp].
  apply try_port_spec with (L := L) (bs := bs); auto. intros l1 g1 k1 Ho1 Hv1. apply Hudp; [done|].
  rewrite Hv1. by apply port_views_inet.
Qed.

(** What is owned at the end. *)
Definition accounted (r : result) k' : Prop :=
  match r with
  | (rc, Some l) => rc = 0 /\ owns (blocks l) k'
  | (rc, None) => rc <> 0 /\ owns [] k'
  end.

Lemma fail_with_spec e l g k : e <> 0 -> owns (blocks l) k -> W (fail_with e l) (fun r _ => accounted r) g k.
Proof.
  intros He Ho. unfold fail_with, freeaddrinfo. eapply wp_seq; [apply (freeaddrinfo_spec L l []); by rewrite app_nil_r|].
  intros u g1 k1 [_ Ho1]. wp_step. by split.
Qed.

Lemma set_canon_spec hints h l g k :
  owns (blocks l) k -> made hints l -> l <> [] ->
  W (set_canon hints h l) (fun '(rc, l') _ k' => owns (blocks l') k' /\ Forall inet_view (view <$> l')) g k.
Proof.
  intros Ho Hm Hne. apply made_inet in Hm as Hi. unfold set_canon. case_match; [|by wp_step]. destruct l as [|ai r]; [done|].
  apply wp_bind. eapply wp_strdup; [exact Ho|..].
  - intros p k' Ho'. wp_step. split; [|by inversion_clear Hi; constructor].
    assert (ai_canonname ai = None) as Ec.
    { unfold made in Hm. rewrite fmap_cons in Hm. apply Forall_cons in Hm as [(a & f & _ & Hv) _].
      assert (v_canon (view ai) = None) as Hc by (by rewrite Hv). cbn in Hc. by destruct (ai_canonname ai). }
    eapply owns_perm, Ho'. rewrite !blocks_cons. unfold ai_blocks, with_canonname. cbn. rewrite Ec. cbn. solve_Permutation.
  - intros e k' Ho'. by wp_step.
Qed.

Lemma add_addrs_nonempty hints f ap aps l g k rc l' g' k' :
  inet_family f -> run (add_addrs l hints (ap :: aps) f) g k = (Done (rc, l'), g', k') -> rc = 0 -> l' <> [].
Proof.
  intros Hf. revert l g k ap. induction aps as [|ap' aps IH]; intros l g k ap; cbn [add_addrs]; rewrite run_bind, run_add_addr by done;
    destruct (run (ga_aistruct l hints ap f) g k) as [[[[rc1 l1]|h] g1] k1] eqn:E; try done; cbv iota;
    destruct (Z.eqb_spec rc1 0) as [->|Hrc]; cbn [negb]; rewrite ?run_ret;
    try (intros [= -> <- _ _] Hz; done).
  - intros [= _ <- _ _] _. apply ga_aistruct_length in E; [|done]. by destruct l1.
  - intros Hr Hz. by eapply IH.
Qed.

Lemma found_spec `{Platform} serv hints h g k :
  owns [] k -> host_ok h -> h_addr_list h <> [] -> W (found serv hints h) (fun r _ => accounted r) g k.
Proof.
  intros Ho [Hf Ha] Hne. unfold found. apply wp_bind.
  pose proof (add_addrs_spec hints (h_addrtype h) (h_addr_list h) [] [] g k Ho ltac:(constructor) Hf Ha) as W1.
  rewrite wp_run in W1 |- *. destruct (run (add_addrs _ _ _ _) g k) as [[[[rc l]|x] g1] k1] eqn:E; [|done].
  rewrite app_nil_r in W1. destruct W1 as [Ho1 Hm]. destruct (Z.eqb_spec rc 0) as [->|Hrc]; cbn [negb]; [|by apply fail_with_spec].
  assert (l <> []) as Hl by (destruct (h_addr_list h); [done|]; by eapply add_addrs_nonempty).
  eapply wp_seq; [by apply set_canon_spec; auto|]. intros [rc1 l1] g2 k2 [Ho2 Hi]. cbv iota.
  destruct (Z.eqb_spec rc1 0) as [->|Hrc1]; cbn [negb]; [|by apply fail_with_spec].
  destruct serv as [[|c s]|]; [by wp_step| |by wp_step].
  eapply wp_seq; [apply (getaddrinfo_serv_owns l1 hints (c :: s) []); [by rewrite app_nil_r|done]|].
  intros [rc2 l2] g3 k3 Ho3. rewrite app_nil_r in Ho3. cbv iota.
  destruct (Z.eqb_spec rc2 0) as [->|Hrc2]; cbn [negb]; [by wp_step|by apply fail_with_spec].
Qed.

(** ** Before aihead is set *)
Context (Hnames : forall s k h k', klib (Egethostbyname s) k = (Some h, k') -> h_addr_list h <> []).

Lemma numeric_hent_ok host a af len : inet_family af -> addr_ok af a -> host_ok (numeric_hent host a af len) /\ h_addr_list (numeric_hent host a af len) <> [].
Proof. intros Hf Ha. split; [|done]. split; [done|]. by constructor. Qed.

Lemma getaddrinfo_host_spec host f g k : owns [] k ->
  W (getaddrinfo_host host f) (fun r _ k' => owns [] k' /\ forall h, r = inr h -> host_ok h /\ h_addr_list h <> []) g k.
Proof.
  intros Ho. unfold getaddrinfo_host.
  assert (forall (b : bool) af size g', (af = AF_INET /\ size = 4 \/ af = AF_INET6 /\ size = 16) ->
    W (if b then numeric af size host else Ret None) (fun r _ k' => k' = k /\ forall a, r = Some a -> addr_ok af a) g' k) as Hnum.
  { intros b af size g' Ha. destruct b; [by apply numeric_spec|]. by wp_step. }
  eapply wp_seq; [apply Hnum; auto|]. intros [a|] g1 k1 [-> Ha].
  { wp_step. split; [done|]. intros h [= <-]. apply numeric_hent_ok; [by left|auto]. }
  eapply wp_seq; [apply Hnum; auto|]. intros [a|] g2 k2 [-> Ha6].
  { wp_step. split; [done|]. intros h [= <-]. apply numeric_hent_ok; [by right|auto]. }
  apply wp_bind. eapply wp_lookup; [done|exact Ho|]. intros o k3 Ho3 _.
  apply (wp_seq _ _ _ (fun _ _ => owns [])). { case_match; [|by wp_step]. by eapply wp_lookup. }
  intros ? g4 k4 Ho4. apply (wp_seq _ _ _ (fun _ _ => owns [])).
  { case_match; [|by wp_step]. apply wp_bind. eapply wp_lookup; [done|exact Ho4|]. intros o1 k5 Ho5 _. by eapply wp_lookup. }
  intros ? g5 k5 Ho5. apply wp_bind. eapply wp_lookup; [done|exact Ho5|]. intros [h|] k6 Ho6 E6.
  - wp_step. split; [done|]. intros h' [= <-]. split; [by eapply rk_gethostbyname|by eapply Hnames].
  - apply wp_bind. eapply wp_lookup; [done|exact Ho6|]. intros e k7 Ho7 _. by wp_step.
Qed.

Lemma check_hints_family hints : check_hints hints = 0 ->
  h_family hints = 0 \/ h_family hints = AF_INET \/ h_family hints = AF_INET6 \/ h_family hints = AF_LOCAL.
Proof.
  unfold check_hints. case_match; [done|]. destruct (Z.eqb_spec (h_family hints) 0); [auto|].
  destruct (Z.eqb_spec (h_family hints) AF_INET); [auto|]. destruct (Z.eqb_spec (h_family hints) AF_INET6); [auto|].
  destruct (Z.eqb_spec (h_family hints) AF_LOCAL); auto. done.
Qed.

Lemma choose_host_spec host serv hints g k : check_hints hints = 0 ->
  W (choose_host host serv hints) (fun r _ k' => k' = k /\ match r with inr (host1, _) => is_Some host1 \/ is_path serv = true | inl _ => True end) g k.
Proof.
  intros Hc%check_hints_family. unfold choose_host. destruct (missing host) eqn:Em.
  - destruct (missing serv) eqn:Es; [by wp_step|]. case_match; [|wp_step; split; [done|left; by eexists]].
    destruct (Z.eqb_spec (h_family hints) AF_INET); [wp_step; split; [done|left; by eexists]|].
    destruct (Z.eqb_spec (h_family hints) AF_INET6); [wp_step; split; [done|left; by eexists]|].
    destruct (Z.eqb_spec (h_family hints) AF_LOCAL).
    + destruct (Z.eqb_spec (char0 (default [] serv)) 47) as [E|]; cbn [negb]; wp_step; [|done]. split; [done|]. right.
      destruct serv as [[|c s]|]; try done. cbn in E. by subst.
    + destruct (Z.eqb_spec (h_family hints) 0); [by wp_step|]. naive_solver.
  - assert (is_Some host) as Hs by (destruct host; [by eexists|done]). case_match; [|wp_step; auto].
    eapply wp_seq; [apply numeric_spec; auto|]. intros v4 g1 k1 [-> _].
    eapply wp_seq; [apply numeric_spec; auto|]. intros v6 g2 k2 [-> _]. wp_step. auto.
Qed.

Lemma prepare_spec host serv hintsp g k : owns [] k ->
  W (prepare host serv hintsp) (fun o _ k' => owns [] k' /\
    match o with inr (Found _ _ h) => host_ok h /\ h_addr_list h <> [] | _ => True end) g k.
Proof.
  intros Ho. unfold prepare. set (hints := match hintsp with None => _ | _ => _ end).
  destruct (Z.eqb_spec (check_hints hints) 0) as [Hc|]; cbn [negb]; [|by wp_step].
  eapply wp_seq; [by apply choose_host_spec|]. intros [e|[host1 hints1]] g1 k1 [-> H1]; [by wp_step|].
  destruct (is_path host1); [by wp_step|]. destruct (is_path serv) eqn:Ep; [by wp_step|].
  destruct H1 as [[h1 ->]|]; [|done]. wp_step; [done|].
  eapply wp_seq; [by apply getaddrinfo_host_spec|]. intros [e|h] g2 k2 [Ho2 Hh]; [by wp_step|].
  case_match; wp_step; [done|]. split; [done|]. by apply Hh.
Qed.

(** ** Unix domain addresses *)
Lemma strncpy_path path : is_Some (Route.strncpy (replicate (Z.to_nat sizeof_sun_path) 0) 0 path sizeof_sun_path).
Proof.
  unfold Route.strncpy, sizeof_sun_path. change (Z.to_nat 104) with 104%nat. set (s := until_nul (take 104 path)).
  assert (length s <= 104)%nat as Hs.
  { unfold s. pose proof (until_nul_length (take 104 path)). rewrite length_take in *. lia. }
  unfold memcpy. rewrite length_replicate, length_app, length_replicate. zbool.
Qed.

(** What addrinfo_local can do: succeed, refuse, claim a success without a
    result, or lose a structure. *)
Definition local_outcome (r : result) k' : Prop :=
  (exists ai, r = (0, Some [ai]) /\ owns (blocks [ai]) k') \/
  (r = (EAI_SOCKTYPE, None) /\ owns [] k') \/
  (r = (0, None) /\ owns [] k') \/
  (r = (EAI_MEMORY, None) /\ exists p, owns [p] k').

Lemma addrinfo_local_spec path hints g k : owns [] k -> W (addrinfo_local path hints) (fun r _ => local_outcome r) g k.
Proof.
  intros Ho. unfold addrinfo_local, local_outcome. case_match; [wp_step; auto|].
  apply wp_bind. eapply wp_calloc; [exact Ho|..]; [|intros e k1 Ho1; wp_step; auto]. intros p k1 Ho1.
  apply wp_bind. eapply wp_malloc; [exact Ho1|..]; [|intros e k2 Ho2; wp_step; eauto 10]. intros q k2 Ho2.
  destruct (strncpy_path path) as [sp Es]. wp_step; [exact Es|]. apply (wp_seq _ _ _ (fun _ _ => owns [q; p])).
  - case_match; [|by wp_step]. apply wp_call_. intros r k3 E3. eapply owns_same, Ho2. rewrite <- (rk_unlink k2 path). by rewrite E3.
  - intros ? g3 k3 Ho3. wp_step. left. eexists. split; [done|]. exact Ho3.
Qed.
End Owned.

(** The one-file getaddrinfo always finishes its preparations.  When they end in
    an error, whatever it is (flags, family, socket type, unknown host), the
    function has undefined behaviour: freeaddrinfo gets an indeterminate pointer.
    When the host was found, the function returns, whichever allocation fails
    and whatever the service is: a success is a list whose blocks are what was
    allocated, and on an error everything has been freed. *)
Theorem libfree_getaddrinfo_accounts {K} `{!Kernel K} `{!ResolverKernel K} `{Platform}
    (host serv : option (list Z)) (hintsp : option gai_hints) g (k : K) :
  (forall s (k : K) h k', klib (Egethostbyname s) k = (Some h, k') -> h_addr_list h <> []) ->
  exists o g1 k1, run (prepare host serv hintsp) g k = (Done o, g1, k1) /\
  match o with
  | inl _ => run (getaddrinfo host serv hintsp) g k = (Halted Fault, g1, k1) /\ live k1 = live k
  | inr (Path path hints) => exists r g' k', run (getaddrinfo host serv hintsp) g k = (Done r, g', k') /\ local_outcome (live k) r k'
  | inr (Found _ hints h) => exists r g' k', run (getaddrinfo host serv hintsp) g k = (Done r, g', k') /\ accounted (live k) r k'
  end.
Proof.
  intros Hn. assert (owns (live k) [] k) as Ho.
  { split_and!; [apply NoDup_nil_2|by intros p ?%elem_of_nil|]. cbn. by rewrite union_empty_r_L. }
  pose proof (prepare_spec (live k) Hn host serv hintsp g k Ho) as W1. rewrite wp_run in W1. unfold getaddrinfo. rewrite run_bind.
  destruct (run (prepare host serv hintsp) g k) as [[[o|x] g1] k1]; [|done]. exists o, g1, k1. split; [done|]. destruct W1 as [Ho1 Hh].
  destruct o as [e|[path hints|h0 hints h]].
  - split; [done|]. destruct Ho1 as (_ & _ & ->). cbn. by rewrite union_empty_r_L.
  - pose proof (addrinfo_local_spec (live k) path hints g1 k1 Ho1) as W2. rewrite wp_run in W2.
    destruct (run (addrinfo_local path hints) g1 k1) as [[[r|x] g2] k2]; [|done]. by eauto.
  - destruct Hh as [Hh Hne]. pose proof (found_spec (live k) serv hints h g1 k1 Ho1 Hh Hne) as W2. rewrite wp_run in W2.
    destruct (run (found serv hints h) g1 k1) as [[[r|x] g2] k2]; [|done]. by eauto.
Qed.

(** A name of hostlen characters or more fills the buffer and is not terminated. *)
Theorem libfree_getnameinfo_unterminated {K} `{!Kernel K} (s : sockaddr_in) (host serv : list Z) hostlen h g (k k1 : K) :
  klib (Egethostbyaddr (sin_addr s) AF_INET) k = (Some h, k1) -> is_cstr (h_name h) ->
  0 < hostlen <= Z.of_nat (length host) -> hostlen <= Z.of_nat (length (h_name h)) ->
  exists rest, run (getnameinfo (SaIn s) host hostlen serv 0) g k = (Done (0, take (Z.to_nat hostlen) (h_name h) ++ rest, serv), g, k1).
Proof.
  intros Hk Hs Hl Hn. unfold getnameinfo, do_ipv46. destruct (Z.ltb_spec 0 hostlen); [|lia]. rewrite run_bind, run_bind, run_lib, Hk.
  unfold Route.strncpy. assert (until_nul (take (Z.to_nat hostlen) (h_name h)) = take (Z.to_nat hostlen) (h_name h)) as Eu.
  { apply RouteProofs.until_nul_whole, Forall_take. eapply Forall_impl; [exact Hs|]. intros c Hc. cbn in Hc. lia. }
  rewrite Eu, length_take, Nat.min_l, Nat.sub_diag, app_nil_r by lia.
  exists (drop (Z.to_nat hostlen) host). unfold memcpy. rewrite length_take. zbool.
  rewrite run_bind, run_mem, Nat.min_l by lia. done.
Qed.

(** ** Witnesses *)
Lemma libfree_getaddrinfo_accounts_witness :
  exists o g1 k1, run (prepare (Some (str "two.example")) (Some (str "80")) (Some (Hints 0 AF_UNSPEC SOCK_STREAM 0))) globals0 heap0 = (Done o, g1, k1) /\
  match o with
  | inl _ => run (getaddrinfo (H := sparc64) (Some (str "two.example")) (Some (str "80")) (Some (Hints 0 AF_UNSPEC SOCK_STREAM 0))) globals0 heap0 =
               (Halted Fault, g1, k1) /\ live k1 = live heap0
  | inr (Path path hints) => exists r g' k', run (getaddrinfo (H := sparc64) (Some (str "two.example")) (Some (str "80"))
      (Some (Hints 0 AF_UNSPEC SOCK_STREAM 0))) globals0 heap0 = (Done r, g', k') /\ local_outcome (live heap0) r k'
  | inr (Found _ hints h) => exists r g' k', run (getaddrinfo (H := sparc64) (Some (str "two.example")) (Some (str "80"))
      (Some (Hints 0 AF_UNSPEC SOCK_STREAM 0))) globals0 heap0 = (Done r, g', k') /\ accounted (live heap0) r k'
  end.
Proof.
  refine (libfree_getaddrinfo_accounts (H := sparc64) (Some (str "two.example")) (Some (str "80"))
    (Some (Hints 0 AF_UNSPEC SOCK_STREAM 0)) globals0 heap0 _). intros s k h k' [= <- _]. done.
Defined.

(** An address of the other family ends in undefined behaviour. *)
Example libfree_error_faults :
  (run (getaddrinfo (H := sparc64) (Some (str "1.2.3.4")) None (Some (Hints 0 AF_INET6 0 0))) globals0 heap0).1.1 = Halted Fault.
Proof. by vm_compute. Qed.
End FreeGaiProofs.
