(* ===== verification/SockUdp.v ===== *)
(** * The sock program over UDP: unpv13e/sock/loopudp.c, sourceudp.c, sinkudp.c

    The UDP variants of the loops of SockProg.v, whose buffers, options and
    functions they use.  [servaddr] is the local variable of loop_udp, which
    hides the global one and is not initialised ([None]) before a datagram has been
    received; [cmptr] is the control buffer: not allocated, or its contents, which
    are indeterminate at first. *)
From stdpp Require Import base list numbers strings gmap.
From S2P Require Import Prelude InetAddr Checksum Cnum Sys Error StreamIO Connect Server Nonblock SockProg BsdPing.
Import SockProg.

Module SockUdp.
Definition IP_RECVDSTADDR : Z := 7.
Definition IPPROTO_IP : Z := 0.
Definition MSG_TRUNC : Z := 0x10.
Definition CONTROLLEN : Z := 12 + 4.

(** The options of SockProg.v and those of UDP. *)
Record uopts := Uopts { base : opts; connectudp : Z; server : Z; recvdstaddr : Z }.

(** ** loopudp.c *)
Inductive control := NotAllocated | Buffer (c : option cmsghdr).
Record uloop := Uloop { u_loop : loop; servaddr : option sockaddr; cmptr : control }.

(** write or sendto, and the test of what it returns. *)
Definition send_datagram (o : uopts) (sockfd : Z) (to : option sockaddr) (v : list Z) (n : Z) : prog unit :=
  bs ← mem (asub v 0 n);
  if negb (connectudp o =? 0) then
    w ← sys_write sockfd bs;
    if negb (w =? n) then err_sys (str "write error") else Ret tt
  else
    sa ← mem to;
    r ← call (Esendto sockfd bs 0 (Some sa) 16);
    if negb (match r with Ok w => w | Err _ => -1 end =? n) then err_sys (str "sendto error") else Ret tt.

(** Data on standard input. *)
Definition udp_stdin (o : uopts) (sockfd : Z) (u : uloop) : prog (uloop * option next) :=
  let l := u_loop u in
  let b := l_bufs l in
  let go b1 e r := Uloop (Loop b1 e r) (servaddr u) (cmptr u) in
  r ← call (Eread 0 (readlen (base o)));
  match r with
  | Err _ => err_sys (str "read error from stdin")
  | Ok bs =>
      rb ← mem (memcpy (rbuf b) 0 bs);
      let nread := Z.of_nat (length bs) in
      if nread =? 0 then
        if negb (halfclose (base o) =? 0) then
          s ← call (Eshutdown sockfd SHUT_WR);
          match s with
          | Err _ => err_sys (str "shutdown() error")
          | Ok _ => r1 ← mem (FD_CLR 0 (rset l)); Ret (go (Bufs rb (wbuf b)) 1 r1, Some Continue)
          end
        else Ret (go (Bufs rb (wbuf b)) (stdineof l) (rset l), Some Break)
      else if negb (crlf (base o) =? 0) then
        '(ntowrite, wb) ← crlf_add (wbuf b) (writelen (base o)) rb nread;
        _ ← send_datagram o sockfd (servaddr u) wb ntowrite;
        Ret (go (Bufs rb wb) (stdineof l) (rset l), None)
      else
        _ ← send_datagram o sockfd (servaddr u) rb nread;
        Ret (go (Bufs rb (wbuf b)) (stdineof l) (rset l), None)
  end.

(** What was received goes to standard output. *)
Definition to_stdout (fuel : nat) (o : opts) (rb wb : list Z) (nread : Z) : prog bufs :=
  if negb (crlf o =? 0) then
    '(ntowrite, wb1) ← crlf_strip wb (writelen o) rb nread;
    n ← writen fuel 1 wb1 ntowrite;
    if negb (n =? ntowrite) then err_sys (str "writen error to stdout") else Ret (Bufs rb wb1)
  else
    n ← writen fuel 1 rb nread;
    if negb (n =? nread) then err_sys (str "writen error to stdout") else Ret (Bufs rb wb).

Definition say (s : list Z) : prog unit := call_ (Efputs s stdout).
Definition addr_text (sa : sockaddr) : option (list Z) :=
  match sa with SaIn s => Some (BsdPing.inet_ntoa (sin_addr s)) | _ => None end.

(** The destination address in the control message. *)
Definition print_dst `{Platform} (c : option cmsghdr) : prog unit :=
  cm ← mem c;
  if negb (cmsg_len cm =? CONTROLLEN)
  then err_quit (str "control length (" ++ fmt_d (cmsg_len cm) ++ str ") != " ++ fmt_d CONTROLLEN)
  else if negb (cmsg_level cm =? IPPROTO_IP) then err_quit (str "control level != IPPROTO_IP")
  else if negb (cmsg_type cm =? IP_RECVDSTADDR) then err_quit (str "control type != IP_RECVDSTADDR")
  else say (str ", to " ++ BsdPing.inet_ntoa (Cnum.store32 (cmsg_data cm))).

(** A datagram for a server: recvmsg, and what is printed of it. *)
Definition serve_datagram `{Platform} (fuel : nat) (o : uopts) (sockfd : Z) (u : uloop) : prog uloop :=
  let l := u_loop u in
  c0 ← (match cmptr u with
        | Buffer c => Ret c
        | NotAllocated =>
            m ← call (Emalloc CONTROLLEN);
            match m with Ok _ => Ret None | Err _ => err_sys (str "malloc error for control buffer") end
        end);
  r ← call (Erecvdg sockfd (readlen (base o)));
  match r with
  | Err _ => err_sys (str "datagram receive error")
  | Ok (bs, (cliaddr, cm, msg_flags)) =>
      rb ← mem (memcpy (rbuf (l_bufs l)) 0 bs);
      let c1 := match cm with Some c => Some c | None => c0 end in
      c2 ← (if verbose (base o) =? 0 then Ret c1
            else
              t ← mem (addr_text cliaddr);
              _ ← say (str "from " ++ t);
              c ← (if recvdstaddr o =? 0 then Ret c1 else _ ← print_dst c1; Ret (Some (Cmsghdr 0 0 0 0)));
              _ ← say (str ": ");
              _ ← call_ (Efflush stdout);
              Ret c);
      _ ← (if negb (Z.land msg_flags MSG_TRUNC =? 0) then say (str "(datagram truncated)" ++ [10]) else Ret tt);
      b ← to_stdout fuel (base o) rb (wbuf (l_bufs l)) (Z.of_nat (length bs));
      Ret (Uloop (Loop b (stdineof l) (rset l)) (servaddr u) (Buffer c2))
  end.

(** A datagram for a client that is not connected. *)
Definition client_datagram (fuel : nat) (o : uopts) (sockfd : Z) (u : uloop) : prog uloop :=
  let l := u_loop u in
  r ← call (Erecvfrom sockfd (readlen (base o)) 0);
  match r with
  | Err _ => err_sys (str "datagram recvfrom() error")
  | Ok (bs, (from, _)) =>
      rb ← mem (memcpy (rbuf (l_bufs l)) 0 bs);
      _ ← (if verbose (base o) =? 0 then Ret tt
           else t ← mem (addr_text from); _ ← say (str "from " ++ t); _ ← say (str ": "); call_ (Efflush stdout));
      b ← to_stdout fuel (base o) rb (wbuf (l_bufs l)) (Z.of_nat (length bs));
      Ret (Uloop (Loop b (stdineof l) (rset l)) (Some from) (cmptr u))
  end.

(** Data on the socket; a connected client receives as looptcp.c does. *)
Definition udp_socket `{Platform} (fuel : nat) (o : uopts) (sockfd : Z) (u : uloop) : prog (uloop * next) :=
  if negb (server o =? 0) then u1 ← serve_datagram fuel o sockfd u; Ret (u1, Continue)
  else if negb (connectudp o =? 0) then
    '(b, nx) ← from_socket fuel (base o) sockfd (l_bufs (u_loop u));
    Ret (Uloop (Loop b (stdineof (u_loop u)) (rset (u_loop u))) (servaddr u) (cmptr u), nx)
  else u1 ← client_datagram fuel o sockfd u; Ret (u1, Continue).

(** The body of for ( ; ; ). *)
Definition udp_turn `{Platform} (fuel : nat) (o : uopts) (sockfd : Z) (u : uloop) : prog (uloop * next) :=
  let l := u_loop u in
  r0 ← (if stdineof l =? 0 then mem (FD_SET 0 (rset l)) else Ret (rset l));
  r1 ← mem (FD_SET sockfd r0);
  s ← call (Eselect (sockfd + 1) r1 ∅ ∅ None);
  match s with
  | Err _ => err_sys (str "select error")
  | Ok (_, (rs, _, _)) =>
      in0 ← mem (FD_ISSET 0 rs);
      '(u1, skip) ← (let u0 := Uloop (Loop (l_bufs l) (stdineof l) rs) (servaddr u) (cmptr u) in
                     if (in0 : bool) then udp_stdin o sockfd u0 else Ret (u0, None));
      match skip with
      | Some nx => Ret (u1, nx)
      | None =>
          inS ← mem (FD_ISSET sockfd (rset (u_loop u1)));
          if (inS : bool) then udp_socket fuel o sockfd u1 else Ret (u1, Continue)
      end
  end.

Fixpoint udp_turns `{Platform} (fuel turns : nat) (o : uopts) (sockfd : Z) (u : uloop) : prog (uloop * next) :=
  match turns with
  | O => Ret (u, Continue)
  | S t =>
      '(u1, nx) ← udp_turn fuel o sockfd u;
      match nx with Break => Ret (u1, Break) | Continue => udp_turns fuel t o sockfd u1 end
  end.

(** [None]: still in the loop. *)
Definition loop_udp `{Platform} (fuel turns : nat) (o : uopts) (sockfd : Z) (b : bufs) (cm : control) : prog (option uloop) :=
  _ ← pause fuel (pauseinit (base o));
  '(u, nx) ← udp_turns fuel turns o sockfd (Uloop (Loop b 0 ∅) None cm);
  match nx with
  | Break => _ ← finish fuel (base o) sockfd; Ret (Some u)
  | Continue => Ret None
  end.

(** ** sourceudp.c: [servaddr] is here the global variable *)
Definition send_pattern (o : uopts) (sockfd : Z) (servaddr : sockaddr) (wb : list Z) : prog unit :=
  let len := writelen (base o) in
  bs ← mem (asub wb 0 len);
  n ← (if negb (connectudp o =? 0) then sys_write sockfd bs
       else r ← call (Esendto sockfd bs 0 (Some servaddr) 16); Ret (match r with Ok n => n | Err _ => -1 end));
  let msg := str (if negb (connectudp o =? 0) then "write" else "sendto") ++ str " returned " ++ fmt_d n ++ str ", expected " ++ fmt_d len in
  _ ← (if negb (n =? len) then
         if negb (ignorewerr (base o) =? 0) then
           _ ← err_ret msg;
           r ← call (Egetsockopt sockfd SOL_SOCKET SO_ERROR);
           match r with Ok _ => Ret tt | Err _ => err_sys (str "SO_ERROR getsockopt error") end
         else err_sys msg
       else Ret tt);
  if_verbose (base o) (str "wrote " ++ fmt_d n ++ str " bytes").

Fixpoint source_udp_loop (fuel k : nat) (o : uopts) (sockfd : Z) (servaddr : sockaddr) (wb : list Z) : prog unit :=
  match k with
  | O => Ret tt
  | S k' =>
      _ ← send_pattern o sockfd servaddr wb;
      _ ← pause fuel (pauserw (base o));
      source_udp_loop fuel k' o sockfd servaddr wb
  end.

Definition source_udp (fuel : nat) (o : uopts) (sockfd : Z) (servaddr : sockaddr) (b : bufs) : prog unit :=
  wb ← mem (pattern (wbuf b) (writelen (base o)));
  _ ← pause fuel (pauseinit (base o));
  _ ← source_udp_loop fuel (Z.to_nat (nbuf (base o))) o sockfd servaddr wb;
  finish fuel (base o) sockfd.

(** ** sinkudp.c *)

(** The verbose output: with verbose > 1 the datagram is terminated with a NUL,
    which is written behind it, and two longs of it are read. *)
Definition tell_received `{Platform} (o : opts) (flags n : Z) (rb : list Z) : prog (list Z) :=
  if verbose o =? 0 then Ret rb
  else
    _ ← fprintf_stderr (str "received " ++ fmt_d n ++ str " bytes" ++ (if flags =? MSG_PEEK then str " (MSG_PEEK)" else []));
    if 1 <? verbose o then
      _ ← fprintf_stderr (str "printing " ++ fmt_d n ++ str " bytes");
      rb1 ← mem (awrite rb n 0);
      l0 ← mem (asub rb1 0 8);
      _ ← fprintf_stderr (str "SDAP header: " ++ fmt_x (u64 (load64 l0)));
      l1 ← mem (asub rb1 32 8);
      _ ← fprintf_stderr (str "next long: " ++ fmt_x (u64 (load64 l1)));
      s ← mem (if 8 <? Z.of_nat (length rb1) then Some (cstring_at rb1 8) else None);
      _ ← call_ (Efputs s stderr);
      Ret rb1
    else Ret rb.

Fixpoint sink_udp_loop `{Platform} (fuel : nat) (o : opts) (sockfd flags : Z) (rb : list Z) : prog unit :=
  match fuel with
  | O => Halt Spin
  | S f =>
      r ← call (Erecvfrom sockfd (readlen o) flags);
      match r with
      | Err _ => err_sys (str "recv error")
      | Ok (bs, _) =>
          rb1 ← mem (memcpy rb 0 bs);
          let n := Z.of_nat (length bs) in
          if n =? 0 then if_verbose o (str "connection closed by peer")
          else
            rb2 ← tell_received o flags n rb1;
            _ ← pause f (pauserw o);
            sink_udp_loop f o sockfd (if negb (flags =? 0) then 0 else msgpeek o) rb2
      end
  end.

Definition sink_udp `{Platform} (fuel : nat) (o : opts) (sockfd : Z) (b : bufs) : prog unit :=
  _ ← pause fuel (pauseinit o);
  _ ← sink_udp_loop fuel o sockfd (msgpeek o) (rbuf b);
  finish fuel o sockfd.
End SockUdp.
