(* ===== verification/SockUdpProofs.v ===== *)
(** * The sock program over UDP

    A connected client relays as the TCP loop does, over the same contract of
    the system.  Two defects: a client that is not connected sends to an address
    that is not initialised, and the second -v writes behind a datagram that fills
    the buffer. *)
From stdpp Require Import base list numbers strings gmap.
From S2P Require Import Prelude InetAddr Checksum Cnum Sys Error StreamIO Connect Server Nonblock Hoare SockProg SockProgProofs BsdPing SockUdp.
Import SockProg SockProgProofs SockUdp.

Module SockUdpProofs.

Section Relay.
Context {K : Type} `{HK : !Kernel K} {sockfd : Z} `{HR : !RelayKernel K sockfd} `{HP : Platform} (o : uopts).
Implicit Types (k : K) (g : globals).
Hypothesis Hsock : 1 < sockfd < FD_SETSIZE.
Hypothesis Hlens : 0 < readlen (base o) < 2 ^ 31.
Hypothesis Hconn : connectudp o <> 0.
Hypothesis Hclient : server o = 0.
Hypothesis Hpeek : msgpeek (base o) = 0.
Abbreviation excuse := (excused (HR := HR) (base o)).
Abbreviation W := (wp (fun h => h = Exit 1 /\ excuse)).
Abbreviation relay := (relays (HR := HR) (base o)).

Let Hfail : may_fail -> excuse := fun H => or_introl H.
Let Hroom : crlf (base o) <> 0 -> writelen (base o) <= 2 * readlen (base o) -> excuse := fun H1 H2 => or_intror (conj H1 H2).

Lemma wp_send_datagram to v bs (Q : unit -> globals -> K -> Prop) g k :
  asub v 0 (Z.of_nat (length bs)) = Some bs -> (forall k', moved k k' [] bs [] [] -> Q tt g k') ->
  W (send_datagram o sockfd to v (Z.of_nat (length bs))) Q g k.
Proof.
  intros Ev HQ. unfold send_datagram. apply wp_bind. eapply wp_mem; [exact Ev|].
  rewrite (proj2 (Z.eqb_neq _ _) Hconn). cbn [negb]. apply wp_bind, wp_sys_write.
  - intros k' H'. rewrite Z.eqb_refl. cbn [negb]. wp_step. by apply HQ.
  - intros n g' k' Hn Hf. rewrite (proj2 (Z.eqb_neq _ _) Hn). cbn [negb]. by apply wp_sys; [..|apply Hfail].
Qed.

Lemma wp_udp_stdin u (Q : uloop * option next -> globals -> K -> Prop) g k :
  sized (base o) (l_bufs (u_loop u)) ->
  (forall u' skip g' k', sized (base o) (l_bufs (u_loop u')) -> relay k k' -> Q (u', skip) g' k') -> W (udp_stdin o sockfd u) Q g k.
Proof.
  intros Hb HQ. unfold udp_stdin. cbv zeta. pose proof (rk_read (readlen (base o)) k (proj1 Hlens)) as H.
  wp_step; rewrite H0 in H; [|apply wp_sys; [done|by apply Hfail]]. destruct H as [Hle HM].
  destruct (rbuf_filled _ (l_bufs (u_loop u)) v Hb Hle) as (rest & Em & Hlen). apply wp_bind. eapply wp_mem; [exact Em|].
  destruct (Z.eqb_spec (Z.of_nat (length v)) 0) as [Hz|Hz].
  { assert (v = []) as -> by (destruct v; [done|cbn in Hz; lia]). apply (relays_still (base o)) in HM. destruct (negb _).
    - apply wp_bind, wp_call; intros ? k2 E.
      + apply wp_bind. eapply wp_mem; [unfold FD_CLR; zbool|]. wp_step. apply HQ; [by split; [|apply Hb]|].
        eapply relays_trans; [done|]. by eapply relays_still, moved_still.
      + apply wp_sys; [done|by apply rk_fatal, Hfail in E].
    - wp_step. apply HQ; [by split; [|apply Hb]|done]. }
  destruct (Z.eqb_spec (crlf (base o)) 0) as [Hc|Hc]; cbn [negb].
  - apply wp_bind, wp_send_datagram; [apply asub_front|]. intros k2 H2. wp_step. apply HQ; [by split; [|apply Hb]|].
    eapply relays_in; [done|]. unfold enc. by rewrite Hc.
  - apply wp_bind. eapply wp_crlf_add; [done|exact Hroom|exact Hb|done|done|done|]. intros wb rest' -> Hwb.
    apply wp_bind, wp_send_datagram; [apply asub_front|]. intros k2 H2. wp_step. apply HQ; [split; [done|cbn; destruct Hb; lia]|].
    eapply relays_in; [done|]. unfold enc. by rewrite (proj2 (Z.eqb_neq _ _) Hc).
Qed.

Lemma wp_udp_socket fuel u (Q : uloop * next -> globals -> K -> Prop) g k :
  sized (base o) (l_bufs (u_loop u)) -> (Z.to_nat (readlen (base o)) <= fuel)%nat ->
  (forall u' nx g' k', sized (base o) (l_bufs (u_loop u')) -> relay k k' -> Q (u', nx) g' k') -> W (udp_socket fuel o sockfd u) Q g k.
Proof.
  intros Hb Hf HQ. unfold udp_socket. rewrite Hclient, (proj2 (Z.eqb_neq _ _) Hconn). cbn [negb Z.eqb].
  unfold from_socket. rewrite Hpeek. cbn [negb Z.eqb]. apply wp_bind, wp_bind, wp_receive; [done..|].
  intros b nx g' k' Hb' Hr. destruct nx; wp_step; wp_step; by apply HQ.
Qed.

Lemma wp_udp_turn fuel u (Q : uloop * next -> globals -> K -> Prop) g k :
  sized (base o) (l_bufs (u_loop u)) -> (Z.to_nat (readlen (base o)) <= fuel)%nat ->
  (forall u' nx g' k', sized (base o) (l_bufs (u_loop u')) -> relay k k' -> Q (u', nx) g' k') -> W (udp_turn fuel o sockfd u) Q g k.
Proof.
  intros Hb Hf HQ. unfold udp_turn. cbv zeta.
  assert (exists r0, (if stdineof (u_loop u) =? 0 then mem (FD_SET 0 (rset (u_loop u))) else Ret (rset (u_loop u))) = Ret r0) as [r0 ->]
    by (destruct (stdineof (u_loop u) =? 0); [exists ({[0]} ∪ rset (u_loop u)); unfold FD_SET; zbool|by eexists]).
  apply wp_bind, wp_ret, wp_bind. eapply wp_mem; [unfold FD_SET; zbool|].
  apply wp_bind, wp_call; intros v k1 E; [|apply wp_sys; [done|by apply rk_fatal, Hfail in E]].
  apply moved_still, (relays_still (base o)) in E as H1; [|done]. clear E. destruct v as [m [[rs ws] xs]].
  apply wp_bind. eapply wp_mem; [unfold FD_ISSET; reflexivity|].
  apply (wp_seq _ _ _ (fun '(u1, _) _ k2 => sized (base o) (l_bufs (u_loop u1)) /\ relay k k2)).
  - destruct (bool_decide _); [|by wp_step]. apply wp_udp_stdin; [done|]. intros. split; [done|by eapply relays_trans].
  - intros [u1 [nx|]] g1 k2 [Hb1 H2]; [wp_step; by apply HQ|]. apply wp_bind. eapply wp_mem; [unfold FD_ISSET; zbool|].
    destruct (bool_decide _); [|wp_step; by apply HQ]. apply wp_udp_socket; [done..|]. intros. apply HQ; [done|by eapply relays_trans].
Qed.

Lemma wp_udp_turns fuel turns : forall u (Q : uloop * next -> globals -> K -> Prop) g k,
  sized (base o) (l_bufs (u_loop u)) -> (Z.to_nat (readlen (base o)) <= fuel)%nat ->
  (forall u' nx g' k', sized (base o) (l_bufs (u_loop u')) -> relay k k' -> Q (u', nx) g' k') -> W (udp_turns fuel turns o sockfd u) Q g k.
Proof.
  induction turns as [|t IH]; intros u Q g k Hb Hf HQ; cbn [udp_turns].
  { wp_step. apply HQ; [done|]. apply relays_still, moved_nil. }
  apply wp_bind, wp_udp_turn; [done|done|]. intros u' nx g' k' Hb' H1. destruct nx; [|wp_step; by apply HQ].
  apply IH; [done|done|]. intros. apply HQ; [done|]. by eapply relays_trans.
Qed.

(** A connected UDP client relays: for any number of turns what was sent is what
    was taken from standard input and what was written is what was received, with
    the line ends converted if crlf is set; it stays inside its buffers, and ends
    early only when a call fails or the write buffer is too small. *)
Theorem loop_udp_relays fuel turns b cm g k :
  sized (base o) b -> (Z.to_nat (readlen (base o)) + naps k < fuel)%nat ->
  wp (fun h => h = Exit 1 /\ excused (base o)) (loop_udp fuel turns o sockfd b cm)
     (fun _ _ k' => exists t r, moved k k' t (enc (base o) t) r (dec (base o) r)) g k.
Proof.
  intros Hb Hf. unfold loop_udp. apply wp_bind, wp_pause; [lia|]. intros g1 k1 H1.
  apply wp_bind, wp_udp_turns; [done|lia|]. intros u nx g2 k2 Hb2 H2.
  assert (relay k k2) as Hr by (eapply relays_trans; [by apply relays_still|done]).
  destruct nx; [by wp_step|]. apply wp_bind, wp_finish; [done|destruct Hr as (? & ? & ? & ? & ? & ? & ?); lia|].
  intros g3 k3 H3. wp_step. eapply relays_trans; [done|by apply relays_still].
Qed.
End Relay.

(** ** Defects *)

(** A client that is not connected: the first line read from standard input is
    sent to an indeterminate address. *)
Theorem loop_udp_unconnected_faults {K} `{!Kernel K} (o : uopts) (sockfd : Z) (l : loop) cm bs g (k k1 : K) :
  connectudp o = 0 -> crlf (base o) = 0 -> kcall (Eread 0 (readlen (base o))) k = (Ok bs, k1) -> bs <> [] ->
  Z.of_nat (length bs) <= Z.of_nat (length (rbuf (l_bufs l))) ->
  run (udp_stdin o sockfd (Uloop l None cm)) g k = (Halted Fault, g, k1).
Proof.
  intros Hc Hcr E Hne Hl. unfold udp_stdin. cbv zeta. cbn [u_loop servaddr cmptr]. rewrite run_bind, run_call, E. cbv iota.
  rewrite memcpy_is_Some by lia. rewrite run_bind, run_mem. cbv iota zeta.
  destruct (Z.eqb_spec (Z.of_nat (length bs)) 0); [destruct bs; [done|cbn in *; lia]|]. rewrite Hcr. cbn [negb Z.eqb].
  change (take (Z.to_nat 0) (rbuf (l_bufs l))) with (@nil Z). cbn [app].
  unfold send_datagram. rewrite Hc, !run_bind, asub_front, run_mem. cbn [negb Z.eqb]. by rewrite run_bind, run_mem.
Qed.

(** A datagram of readlen bytes or more and -v -v: the terminating NUL is written
    behind the buffer. *)
Theorem sink_udp_overruns {K} `{!Kernel K} `{Platform} (o : opts) (flags : Z) (rb : list Z) g (k : K) :
  1 < verbose o -> (run (tell_received o flags (Z.of_nat (length rb)) rb) g k).1.1 = Halted Fault.
Proof.
  intros Hv. unfold tell_received. destruct (Z.eqb_spec (verbose o) 0); [lia|]. destruct (Z.ltb_spec 1 (verbose o)); [|lia].
  unfold fprintf_stderr. rewrite run_bind, run_call_. destruct (kcall _ k) as [r k1]. cbv iota. rewrite run_bind, run_call_.
  destruct (kcall _ k1) as [r2 k2]. cbv iota. rewrite run_bind, run_mem. unfold awrite.
  destruct (Z.ltb_spec (Z.of_nat (length rb)) (Z.of_nat (length rb))); [lia|]. by rewrite andb_false_r.
Qed.

(** ** Witness *)
Definition udp_opts : uopts := Uopts (Opts 0 1 1 0 0 0 0 0 0 16 64 0 0 0 0 0) 1 0 0.

Lemma loop_udp_relays_witness :
  wp (fun h => h = Exit 1 /\ excused (HR := desk_relay) (base udp_opts))
    (loop_udp (H := sparc64) 100 3 udp_opts 3 (Bufs (replicate 16 0) (replicate 64 0)) NotAllocated)
    (fun _ _ k' => exists t r, moved (RelayKernel := desk_relay) (Desk (str "ab") (str "cd") [] [] [] []) k' t (enc (base udp_opts) t) r (dec (base udp_opts) r))
    globals0 (Desk (str "ab") (str "cd") [] [] [] []).
Proof.
  apply (loop_udp_relays (HR := desk_relay) (HP := sparc64) udp_opts); [done|done|done|done|done|by split|]. cbn. lia.
Defined.
End SockUdpProofs.
